(* ===== verification/_CoqProject ===== *)
-Q . S2P
Prelude.v
GoStr.v
GoTime.v
Sha256.v
Bech32m.v
Address.v
Mnemonic.v
Config.v
Humancode.v
Crypto.v
DeviceCert.v
GroupEvent.v
GroupState.v
GroupResolve.v
GroupExamples.v
Ratchet.v
RatchetCorrect.v
RatchetExamples.v
GoTimeParse.v
Base64.v
Attest.v
HttpSig.v
Store.v
StoreIntegrity.v
StoreCorrect.v
StoreQueue.v
Auth.v
AuthCorrect.v
ServerExamples.v
ProfileClaim.v
WakeCoalesce.v
Broker.v
Delivery.v
Federation.v
FederationCorrect.v
Prekeys.v
PrekeysCorrect.v
Accounts.v
Reports.v
Migrations.v
License.v
BlobServer.v
BlobServerCorrect.v
AccountsCorrect.v
ReportsCorrect.v
Statistics.v
Server.v
ServerAuthority.v
Resolve.v
ApiExamples.v
BlobExamples.v
ClientLog.v
ClientDedup.v
ClientTranscript.v
ClientTranscriptCorrect.v
ClientExamples.v
Envelope.v
ClientState.v
ClientProfile.v
ClientGroups.v
ClientReceive.v
ClientFrames.v
ClientReceiveCorrect.v
ClientGroupsCorrect.v
WireExamples.v
ClientNet.v
Stream.v
ClientBlobs.v
ClientSend.v
ClientSendCorrect.v
ClientGroupSend.v
ClientGroupTalk.v
ClientGroupActions.v
ClientReports.v
ClientGroupSendCorrect.v
ClientDrain.v
ClientRegister.v
SendExamples.v
GroupSendExamples.v
ReportExamples.v
