(* ===== verification/Prelude.v ===== *)
(** * Freizone: a verification library for a federated messenger

    Freizone is a federated messenger written in Go.  An account is a root key; its
    id is derived from that key.  Devices hold certificates signed by the root key
    and sign every HTTP request to their home server, which stores accounts,
    devices, prekeys, invites, attachments, abuse reports and one queue of sealed
    messages per device.  Messages are sealed end to end by an X3DH handshake and a
    Double Ratchet; groups have no server side at all: a group is a set of signed
    events that every member folds into a membership on its own.

    The library models the shared packages (src/pkg), the server (src/internal, and
    of src/cmd/server what runs at start-up and on its timers) and the client library
    (src/pkg/client), one definition per function, and proves what the parts rely on
    of each other.

    ** Files and the code they model

    Foundations, of the Go language and its standard library as the sources use it:
    - [Prelude]: bytes, machine integers, the error monad [res] (a value, an error
      or a panic), byte-wise order, sorting, and the proof automation ([res_inv],
      [bool_prop], [no_panic]).
    - [GoStr]: UTF-8 ranges, [strings], [hex], letter case.  [GoTime],
      [GoTimeParse]: [time.Time], [Duration], [Format] and [Parse] of RFC 3339.
      [Sha256]: SHA-256 and HMAC.  [Base64]: [base64.StdEncoding].  [Crypto]:
      Ed25519 and the length-prefixed framing.

    Shared packages (src/pkg):
    - [Bech32m], [Address]: address.  [Humancode]: humancode.  [Mnemonic]: mnemonic,
      with its word list.  [Attest]: attest.
    - [DeviceCert]: devicecert.  [ProfileClaim]: profileclaim.  [HttpSig]: httpsig.
    - [GroupEvent]: group.go and event.go of group; [GroupState]: the fact set of
      state.go ([Apply], [StateHash], marshalling); [GroupResolve]: [Resolve],
      the fold from facts to membership.
    - [Ratchet]: ratchet; [RatchetCorrect]: its theorems, sessions included.
    - [Envelope]: wire, and the bodies of pkg/client/content.go inside an envelope.

    The server (src/internal):
    - [Config]: config.  [Migrations]: store/migrate.go.
    - [Store]: the tables of store and their repository functions;
      [StoreIntegrity], [StoreCorrect], [StoreQueue]: its theorems.
    - [Auth], [AuthCorrect]: auth.
    - [WakeCoalesce]: api/wakecoalesce.go.  [Broker]: api/broker.go.  [Delivery]:
      api/messages.go, push.go and pushclient.go.
    - [Federation], [FederationCorrect]: federation*.go of api, with the settings and
      the blocklist of store.  [Prekeys], [PrekeysCorrect]: api/prekeys.go and the
      claimant's check of a bundle.
    - [Accounts], [AccountsCorrect]: accounts, bootstrap, devices, recover, invites and
      admin of api.  [Server]: those routes of api/router.go behind the
      authentication, as one machine; [ServerAuthority]: who may change what.
    - [BlobServer], [BlobServerCorrect]: blobstore, api/blobs.go and the sweeps of
      cmd/server.  [License]: api/license.go and the check at start-up.
    - [Reports], [ReportsCorrect]: reports.go of store and of api.  [Statistics]:
      activity.go and stats.go of store, stats.go and server_status.go of api.

    The client (src/pkg/client):
    - [ClientLog]: the files of store.go.  [ClientDedup]: dedup.go.
      [ClientTranscript], [ClientTranscriptCorrect]: messages.go.
    - [ClientState]: an account's directory (layout, sessions, peers, settings, media,
      recovery) and the state-and-error monad [proc] all that follows is written
      in; [ClientFrames]: what each operation leaves alone.  [ClientProfile]: profile.go.
      [ClientGroups], [ClientGroupsCorrect]: groups.go and groupnarration.go.
    - [ClientReceive], [ClientReceiveCorrect]: receive.go.  [Resolve]:
      peers_resolve.go against the server's directory.
    - [ClientNet]: transport.go and the requests.  [Stream]: stream.go, and
      the bytes the server's stream handler writes.  [ClientBlobs]: blobs.go.
    - [ClientSend], [ClientSendCorrect]: send.go.  [ClientGroupSend],
      [ClientGroupTalk], [ClientGroupSendCorrect]: groupsend.go.
      [ClientGroupActions]: groupactions.go.
    - [ClientDrain]: drain.go.  [ClientRegister]: register.go.  [ClientReports]:
      reports.go, composed with the handlers it talks to.

    Evaluated inputs: [GroupExamples], [RatchetExamples], [ServerExamples],
    [ApiExamples], [BlobExamples], [ClientExamples], [WireExamples],
    [SendExamples], [GroupSendExamples], [ReportExamples].

    ** How the code is represented

    A Go string or byte slice is the list of its bytes, a machine integer a [Z] with
    its wrap-around written out ([u16], [u64], ...).  A function that returns an error returns
    [res], whose third case is a panic.  A method that changes its receiver takes
    and returns it.  The clock, random bytes and the order in which Go happens to range over a
    map are arguments: a theorem that quantifies over them holds for every
    outcome.  The database is a record of tables; each repository function is the
    function of that record its SQL statements compute, with unique and
    foreign-key constraints and cascades, and [StoreIntegrity.op] collects them
    so that theorems can speak of any sequence of operations.  A handler takes its
    decoded body and gives the database it leaves with the reply; handlers without a transaction
    keep what they wrote before they failed.  Goroutines that share state (the
    coalescer, the broker, uploads and sweeps) are steps of a relation that interleaves
    what they do between two locks.

    Code outside the repository is a class stating its documented behaviour:
    [Ed25519] (a signature made with a key verifies; nothing about forgeries),
    [X25519] (agreement commutes), [AEAD] (opening inverts sealing), [HKDF]
    (output length), [UnicodeCase] (the case tables on ASCII), [NetURL]
    ([url.Parse]), [Calendar] ([AddDate]), [Json], [WireFormats], [BatchFormats] and
    [ReportFormats] (encoding/json on the records it is used for: decoding inverts
    encoding), [Quote] ([%q]), [HostFormats] (durations and paths), [Network]
    (what hosts answer, with no law at all).  Each has an instance to evaluate with
    -- toy ones for the curves and the cipher, RFC 5869 itself for HKDF -- and a
    theorem with hypotheses is applied to such an evaluated input by the lemma that bears its
    name and [_witness].  Plain arguments are the wording of errors ([error_text]), the
    jitter of a delay ([jitter]), and what SQLite makes of a statement ([exec]).

    ** What the theorems show

    - Groups: replicas that know a group and received the same events, in any order
      and batches, hold the same state and resolve the same membership, as long as no
      two events share an id ([apply_converges], [resolve_deterministic],
      [replay_fixpoint]); nobody gains or loses a rank
      except by founding, leaving or a higher-ranked moderator
      ([no_privilege_escalation]); the founder stays ([resolve_founder]); stored
      states reload ([unmarshal_marshal]); equal hashes mean equal event sets
      ([state_hash_agrees]); signing bytes determine the event
      ([signing_bytes_bind_event]) but not its signer ([signer_not_bound]).
    - Ratchet: a handshake is followed by a conversation of any length in which
      every message opens ([handshake_conversation]), the messages of a chain in
      any order and each once ([new_chain_any_order]); the buffer of skipped keys
      is bounded ([buffer_bounded]) and sessions persist ([session_roundtrip]).
    - Requests: an accepted request was signed by an active device of an active
      account, with its body or, where that is streamed, the digest it claims
      ([authenticate_sound]), such a request is accepted ([signed_request_accepted]),
      not twice while the server runs ([replay_refused]), and never again
      after a revocation ([revoked_locked_out]); the canonical string is unambiguous
      ([canonical_binds]); the clock test is characterized exactly, its overflow
      included ([within_skew_exact]).  The same for senders of other servers
      ([federated_sender_sound]).
    - Store: constraints hold after any operations ([store_integrity]), queues and
      quotas stay within their limits ([queue_bounded], [quota_bounded]), messages
      stay until taken ([message_stays_queued]), prekeys, invites and the setup token
      are spent once ([prekeys_claimed_once], [invite_single_use],
      [setup_token_locks]), and registration and redemption give the documented
      answer on each branch ([create_account_exact], [consume_invite_exact]).
      Migrations are split where a statement ends ([statements_of_script]) and
      applied in order, once ([migrations_forward]).
    - Delivery: no wake is lost ([no_wake_lost]), a stream reads a part of what was
      published, in order ([broker_safe]), and what the server wrote is what the client
      reads, wherever the connection broke ([stream_delivers]); a message queued while a stream
      opens can be missed by it ([stream_gap]).  A push endpoint cannot lead into
      the listed networks ([blocked_networks]).
    - Authority: accounts change only on the authority of an administrator, a moderator
      or the account ([account_changes_authorised]), recovery takes the root key
      ([recovery_exact]), and the last administrator stays ([last_admin_stays]);
      moderators neither see nor resolve cases about staff
      ([moderators_stop_at_members]) and a report counts once ([report_counts_once]).
    - Attachments: what an upload reports as stored is what its recipients fetch
      ([upload_served]), and rows have files under every interleaving with the sweeps,
      with the one exception that is stated ([rows_have_files]).
    - Client: a failed attempt to open costs nothing ([failed_open_costs_nothing]), a
      prekey is spent once its message opened ([prekey_spent_once_opened]), an envelope is handled
      once while its id is among the last 500 ([handled_once]) and acknowledged only then ([acknowledged_when_handled]); two
      clients that begin at the same moment converge
      ([simultaneous_establishment_converges]); over an established session a failed send is retried
      under the same number ([failed_send_retried]); every recipient in a group is settled
      ([fan_out_settles]); interrupted registrations make one account
      ([one_account]); the duplicate filter implements a bounded list, if
      ids are not reused ([dedup_refines]); reading any log is safe ([messages_safe]) and compaction does
      not change it ([compaction_transparent]).
    - Across the two: a bundle the server took is one its claimant accepts
      ([uploaded_bundle_verifies]), a message arrives as composed
      ([text_arrives]), and a report to another operator is never accepted
      ([other_operator_never_told]).
    - Ids, codes and certificates: an id certifies its key ([derive_certifies]) and
      up to four mistyped characters are noticed ([typo_detected]); addresses,
      ids, codes and recovery phrases survive display and typing
      ([parse_string_roundtrip], [normalize_cosmetics], [bech32m_roundtrip],
      [code_typed_back], [phrase_restores_seed]); codes are unbiased
      ([generate_unbiased]); certificates and attestations verify and determine what
      they certify ([signed_records_verify], [signing_bytes_bind],
      [attestation_arrives]); profile claims too ([claim_binds]), though they share a byte
      layout with DH identity certificates ([claim_doubles_as_dh_certificate]).

    ** Bounds and fuel

    Recursion that is not structural takes a number of steps, and the callers pass
    one that suffices: [replay_bucket] and [buckets_fuel] the number of events (each
    pass applies one at least; [replay_fixpoint] shows more changes nothing),
    [take_groups] the number of bits held, [chunks], [chunks_from], [keep_claims] and the digit
    loops the length of what they consume, [scan] one step per character and one for the
    end ([scan_lex] shows it never runs out).

    ** Not modelled

    The development client (src/cmd/devclient) and the generator of test vectors
    (src/pkg/conformance), which are tools around the packages modelled here; the landing
    page, a template; the volume statistics of src/internal/diskstat, logging, the listener
    and its middleware (src/internal/server), opening the database (store/db.go), the
    client's file locks and its connection diagnosis, which are calls to the operating
    system and to the network.  Of cmd/server, flags, signals and the timers themselves.
    JSON text is not modelled: what is marshalled is the record that is
    written, so that two sides which named a key differently would not be noticed.
    A handler is one step, unless its file says otherwise.  The encryption of a web push is a library's.  Disks and database
    drivers that fail for reasons other than a constraint, contexts that are cancelled (a
    request without an answer), the per-account mutexes of the client (an operation is one
    step) and timing side channels are not modelled either. *)

From Stdlib Require Export ZArith Lia.
From stdpp Require Export base gmap strings list sorting.

#[global] Open Scope Z_scope.

(** ** Bytes and Go strings

    A Go [string] or [[]byte] is the list of its bytes, each a [Z]; the
    range [0, 256) is the predicate [is_bytes], carried only by the theorems
    that need it.  Go's [len] is [zlen]. *)

Abbreviation bytes := (list Z).

Definition is_byte (b : Z) : Prop := 0 ≤ b < 256.
Definition is_bytes (l : bytes) : Prop := Forall is_byte l.

Definition zlen {A} (l : list A) : Z := Z.of_nat (length l).

(** The bytes of a string literal. *)
Definition lit (s : string) : bytes :=
  map (λ a, Z.of_N (Ascii.N_of_ascii a)) (String.list_ascii_of_string s).

Lemma lit_is_bytes s : is_bytes (lit s).
Proof.
  unfold lit, is_bytes. apply Forall_map, Forall_true. intros a.
  unfold is_byte, compose. pose proof (Ascii.N_ascii_bounded a). lia.
Qed.

Lemma zlen_app {A} (l k : list A) : zlen (l ++ k) = zlen l + zlen k.
Proof. unfold zlen. rewrite length_app. lia. Qed.

Lemma zlen_nonneg {A} (l : list A) : 0 ≤ zlen l.
Proof. unfold zlen. lia. Qed.

Lemma zlen_nil_inv {A} (l : list A) : zlen l = 0 → l = [].
Proof. destruct l; [done|]. unfold zlen; simpl; lia. Qed.

(** ** Fixed-width integers

    Go's unsigned conversions reduce modulo the width; a signed 64-bit value
    wraps into [[-2^63, 2^63)]. *)

Definition u8 (z : Z) : Z := z mod 2 ^ 8.
Definition u16 (z : Z) : Z := z mod 2 ^ 16.
Definition u32 (z : Z) : Z := z mod 2 ^ 32.
Definition u64 (z : Z) : Z := z mod 2 ^ 64.
Definition i64 (z : Z) : Z := (z + 2 ^ 63) mod 2 ^ 64 - 2 ^ 63.

Lemma i64_small z : - 2 ^ 63 ≤ z < 2 ^ 63 → i64 z = z.
Proof. intros H. unfold i64. rewrite Z.mod_small; lia. Qed.

Lemma i64_range z : - 2 ^ 63 ≤ i64 z < 2 ^ 63.
Proof. unfold i64. pose proof (Z.mod_pos_bound (z + 2 ^ 63) (2 ^ 64)). lia. Qed.

(** ** Big-endian encodings (encoding/binary.BigEndian) *)

Fixpoint be_bytes (n : nat) (z : Z) : bytes :=
  match n with
  | O => []
  | S n' => (z / 2 ^ (8 * Z.of_nat n')) mod 256 :: be_bytes n' z
  end.

Fixpoint be_value (l : bytes) : Z :=
  match l with
  | [] => 0
  | b :: l' => b * 2 ^ (8 * Z.of_nat (length l')) + be_value l'
  end.

Lemma length_be_bytes n z : length (be_bytes n z) = n.
Proof. induction n; simpl; congruence. Qed.

Lemma zlen_be_bytes n z : zlen (be_bytes n z) = Z.of_nat n.
Proof. unfold zlen. by rewrite length_be_bytes. Qed.

Lemma be_bytes_is_bytes n z : is_bytes (be_bytes n z).
Proof.
  induction n; simpl; constructor; [|done].
  unfold is_byte. apply Z.mod_pos_bound. lia.
Qed.

Lemma be_value_be_bytes n z : be_value (be_bytes n z) = z mod 2 ^ (8 * Z.of_nat n).
Proof.
  induction n as [|n IH]; [simpl; by rewrite Z.mod_1_r|].
  cbn [be_bytes be_value]. rewrite length_be_bytes, IH.
  replace (8 * Z.of_nat (S n)) with (8 * Z.of_nat n + 8) by lia.
  rewrite Z.pow_add_r by lia.
  change (2 ^ 8) with 256.
  rewrite Z.rem_mul_r by lia. lia.
Qed.

Lemma be_value_bound l : is_bytes l → 0 ≤ be_value l < 2 ^ (8 * zlen l).
Proof.
  unfold zlen. induction 1 as [|b l Hb Hl IH]; [done|].
  cbn [be_value length].
  replace (8 * Z.of_nat (S (length l))) with (8 * Z.of_nat (length l) + 8) by lia.
  rewrite Z.pow_add_r by lia. change (2 ^ 8) with 256. unfold is_byte in Hb. nia.
Qed.

Lemma be_bytes_add_high n a z : be_bytes n (a * 2 ^ (8 * Z.of_nat n) + z) = be_bytes n z.
Proof.
  assert (∀ m, (m ≤ n)%nat → be_bytes m (a * 2 ^ (8 * Z.of_nat n) + z) = be_bytes m z)
    as H; [|by apply H].
  induction m as [|m IH]; intros Hm; [done|]. cbn [be_bytes]. rewrite IH by lia. f_equal.
  replace (8 * Z.of_nat n) with (8 * Z.of_nat m + 8 + 8 * (Z.of_nat n - Z.of_nat m - 1)) by lia.
  rewrite !Z.pow_add_r by lia. change (2 ^ 8) with 256.
  replace (a * (2 ^ (8 * Z.of_nat m) * 256 * 2 ^ (8 * (Z.of_nat n - Z.of_nat m - 1))))
    with (a * 2 ^ (8 * (Z.of_nat n - Z.of_nat m - 1)) * 256 * 2 ^ (8 * Z.of_nat m)) by ring.
  rewrite Z.div_add_l by lia. rewrite Z.add_comm, Z.mod_add by lia. done.
Qed.

Lemma be_bytes_be_value l : is_bytes l → be_bytes (length l) (be_value l) = l.
Proof.
  induction 1 as [|b l Hb Hl IH]; [done|].
  cbn [length be_bytes be_value].
  pose proof (be_value_bound l Hl) as HB. unfold zlen in HB.
  rewrite be_bytes_add_high, IH. f_equal.
  rewrite Z.div_add_l by lia. rewrite (Z.div_small (be_value l)) by lia.
  rewrite Z.add_0_r. apply Z.mod_small. exact Hb.
Qed.

(** ** Results of Go calls

    A Go function returning [(T, error)] yields [Ok], [Err] with its error
    value, or [Panic] where the run-time stops the call (an index out of range,
    [ed25519.Verify] on a key of the wrong size).  [E] is the error type of the
    package at hand. *)

Inductive res (E A : Type) : Type :=
  | Ok (a : A)
  | Err (e : E)
  | Panic.
Arguments Ok {E A} a.
Arguments Err {E A} e.
Arguments Panic {E A}.

#[export] Instance res_ret {E} : MRet (res E) := λ A, Ok.
#[export] Instance res_bind {E} : MBind (res E) := λ A B f m,
  match m with Ok a => f a | Err e => Err e | Panic => Panic end.
#[export] Instance res_fmap {E} : FMap (res E) := λ A B f m,
  match m with Ok a => Ok (f a) | Err e => Err e | Panic => Panic end.

#[export] Instance res_eq_dec {E A} `{EqDecision E, EqDecision A} : EqDecision (res E A).
Proof. solve_decision. Defined.

Definition is_ok {E A} (r : res E A) : bool := match r with Ok _ => true | _ => false end.

(** [guard_err b e]: the [if !b { return err }] of the sources. *)
Definition guard_err {E} (b : bool) (e : E) : res E () := if b then Ok () else Err e.

(** Rewrapping an error ([fmt.Errorf("...: %w", err)]). *)
Definition wrap_err {E F A} (f : E → F) (r : res E A) : res F A :=
  match r with Ok a => Ok a | Err e => Err (f e) | Panic => Panic end.

(** A [None] becomes the error [e]. *)
Definition from_option {E A} (o : option A) (e : E) : res E A :=
  match o with Some a => Ok a | None => Err e end.

Lemma bind_Ok {E A B} (m : res E A) (f : A → res E B) b :
  (m ≫= f) = Ok b ↔ ∃ a, m = Ok a ∧ f a = Ok b.
Proof. destruct m; simpl; naive_solver. Qed.

Lemma bind_Panic {E A B} (m : res E A) (f : A → res E B) :
  (m ≫= f) = Panic ↔ m = Panic ∨ ∃ a, m = Ok a ∧ f a = Panic.
Proof. destruct m; simpl; naive_solver. Qed.

Lemma guard_err_Ok {E} b (e : E) u : guard_err b e = Ok u ↔ b = true.
Proof. destruct b, u; simpl; naive_solver. Qed.

Lemma guard_err_not_Panic {E} b (e : E) : guard_err b e ≠ Panic.
Proof. by destruct b. Qed.

Lemma wrap_err_Ok {E F A} (f : E → F) (r : res E A) a : wrap_err f r = Ok a ↔ r = Ok a.
Proof. destruct r; simpl; naive_solver. Qed.

Lemma wrap_err_Panic {E F A} (f : E → F) (r : res E A) : wrap_err f r = Panic ↔ r = Panic.
Proof. destruct r; simpl; naive_solver. Qed.

Lemma from_option_Ok {E A} (o : option A) (e : E) a : from_option o e = Ok a ↔ o = Some a.
Proof. destruct o; simpl; naive_solver. Qed.

Lemma from_option_not_Panic {E A} (o : option A) (e : E) : from_option o e ≠ Panic.
Proof. by destruct o. Qed.

Lemma if_Ok {E A} (b : bool) (m : res E A) (e : E) a :
  (if b then m else Err e) = Ok a ↔ b = true ∧ m = Ok a.
Proof. destruct b; naive_solver. Qed.

Lemma if_err_Ok {E A} (b : bool) (m : res E A) (e : E) a :
  (if b then Err e else m) = Ok a ↔ b = false ∧ m = Ok a.
Proof. destruct b; naive_solver. Qed.

Create Rewrite HintDb res_inv.
Create Rewrite HintDb bool_prop.
#[export] Hint Rewrite @bind_Ok @guard_err_Ok @wrap_err_Ok @from_option_Ok @if_Ok @if_err_Ok
  : res_inv.

(** [res_inv H]: what a successful run [H : _ = Ok _] passed on its way. *)
Ltac res_inv H :=
  repeat (autorewrite with res_inv in H;
          match type of H with
          | ∃ x, _ => let y := fresh x in destruct H as [y H]
          | _ ∧ _ => let H' := fresh H in destruct H as [H' H]; res_inv H'
          end);
  autorewrite with res_inv in H; try discriminate.

(** A value is there: a row, a map entry, a pointer that is not nil. *)
Definition present {A} (o : option A) : bool := match o with Some _ => true | None => false end.

(** ** Boolean equality on decidable types *)

Definition eqb {A} `{EqDecision A} (x y : A) : bool := bool_decide (x = y).
Infix "=?b" := eqb (at level 70, no associativity) : Z_scope.

Lemma eqb_true {A} `{EqDecision A} (x y : A) : (x =?b y) = true ↔ x = y.
Proof. unfold eqb. by rewrite bool_decide_eq_true. Qed.
Lemma eqb_true_1 {A} `{EqDecision A} (x y : A) : (x =?b y) = true → x = y.
Proof. apply eqb_true. Qed.
Lemma eqb_false {A} `{EqDecision A} (x y : A) : (x =?b y) = false ↔ x ≠ y.
Proof. unfold eqb. by rewrite bool_decide_eq_false. Qed.
Lemma eqb_refl {A} `{EqDecision A} (x : A) : (x =?b x) = true.
Proof. by apply eqb_true. Qed.

#[export] Hint Rewrite @eqb_true @eqb_false andb_true_iff andb_false_iff orb_true_iff
  orb_false_iff negb_true_iff negb_false_iff Z.eqb_eq Z.eqb_neq Z.ltb_lt Z.ltb_ge
  Z.leb_le Z.leb_gt : bool_prop.

(** Turn the boolean tests of the hypotheses and the goal into propositions. *)
Ltac bool_prop := autorewrite with bool_prop in *.

(** ** The order of Go strings: bytewise lexicographic *)

Fixpoint bytes_leb (l k : bytes) : bool :=
  match l, k with
  | [], _ => true
  | _ :: _, [] => false
  | a :: l', b :: k' => (a <? b) || ((a =? b) && bytes_leb l' k')
  end.
Definition bytes_ltb (l k : bytes) : bool := negb (bytes_leb k l).

Definition bytes_le (l k : bytes) : Prop := bytes_leb l k = true.
#[export] Instance bytes_le_dec l k : Decision (bytes_le l k).
Proof. unfold bytes_le. apply _. Defined.

#[export] Instance bytes_le_reldec : RelDecision bytes_le := bytes_le_dec.

#[export] Instance bytes_le_total : Total bytes_le.
Proof.
  intros l. unfold bytes_le.
  induction l as [|a l IH]; intros [|b k]; simpl; auto.
  destruct (Z.ltb_spec a b), (Z.ltb_spec b a); simpl; auto.
  replace b with a by lia. rewrite Z.eqb_refl. simpl. apply IH.
Qed.

#[export] Instance bytes_le_trans : Transitive bytes_le.
Proof.
  intros l k m. unfold bytes_le. revert k m.
  induction l as [|a l IH]; intros [|b k] [|c m]; simpl; try done.
  rewrite !orb_true_iff, !andb_true_iff, !Z.ltb_lt, !Z.eqb_eq.
  intros [?|[-> ?]] [?|[-> ?]]; try (left; lia). right. split; [done|]. by eapply IH.
Qed.

#[export] Instance bytes_le_antisymm : AntiSymm (=) bytes_le.
Proof.
  intros l. unfold bytes_le.
  induction l as [|a l IH]; intros [|b k]; simpl; try done.
  rewrite !orb_true_iff, !andb_true_iff, !Z.ltb_lt, !Z.eqb_eq.
  intros [?|[-> ?]] [?|[? ?]]; try lia. f_equal. by apply IH.
Qed.

#[export] Instance bytes_le_refl : Reflexive bytes_le.
Proof. intros l. by destruct (total bytes_le l l). Qed.

Lemma bytes_leb_app p l k : bytes_leb (p ++ l) (p ++ k) = bytes_leb l k.
Proof. induction p; [done|]. simpl. rewrite Z.ltb_irrefl, Z.eqb_refl. done. Qed.

(** A two-stage comparison of equally long prefixes. *)
Lemma bytes_leb_app_eqlen p q l k :
  length p = length q →
  bytes_leb (p ++ l) (q ++ k) = bytes_ltb p q || ((p =?b q) && bytes_leb l k).
Proof.
  revert q. induction p as [|a p IH]; intros [|b q] Hlen; simplify_eq/=; [done|].
  rewrite IH by done. unfold bytes_ltb. simpl. unfold eqb.
  destruct (Z.ltb_spec a b), (Z.ltb_spec b a); try lia; simpl.
  - destruct (Z.eqb_spec a b), (Z.eqb_spec b a); try lia. simpl.
    rewrite bool_decide_false by congruence. done.
  - replace b with a by lia. rewrite !Z.eqb_refl. simpl.
    f_equal. f_equal. apply bool_decide_ext. naive_solver.
Qed.

(** Big-endian numbers of one width compare as their values. *)
Lemma be_value_leb l k :
  is_bytes l → is_bytes k → length l = length k →
  bytes_leb l k = (be_value l <=? be_value k).
Proof.
  intros Hl. revert k. induction Hl as [|a l Ha Hl IH]; intros k Hk Hlen;
    [by destruct k|].
  destruct Hk as [|b k Hb Hk]; [done|]. simpl in Hlen. injection Hlen as Hlen.
  simpl. rewrite IH by done. rewrite <- Hlen.
  pose proof (be_value_bound l Hl). pose proof (be_value_bound k Hk) as Hbk.
  unfold zlen in *. rewrite <- Hlen in Hbk. unfold is_byte in *.
  destruct (Z.ltb_spec a b), (Z.eqb_spec a b), (Z.leb_spec (be_value l) (be_value k));
    simpl; symmetry; first [apply Z.leb_le | apply Z.leb_gt]; subst; nia.
Qed.

(** ** Sorting

    [sort.Strings] and [sort.Slice] with a strict order: any sorting routine
    gives the same list when the order is total on the entries' keys. *)

Definition sort_strings (l : list bytes) : list bytes := merge_sort bytes_le l.

Lemma sort_strings_perm l : sort_strings l ≡ₚ l.
Proof. apply merge_sort_Permutation. Qed.

Lemma sort_strings_sorted l : StronglySorted bytes_le (sort_strings l).
Proof. apply StronglySorted_merge_sort; apply _. Qed.

Lemma sort_strings_unique l k : l ≡ₚ k → sort_strings l = sort_strings k.
Proof.
  intros Hp. apply (StronglySorted_unique bytes_le);
    [apply sort_strings_sorted..|]. by rewrite !sort_strings_perm.
Qed.

(** Sorting by a key that is injective on the list is independent of the
    order in which the entries were collected. *)
Section sort_by.
Context {A K : Type} (key : A → K) (R : relation K) `{!RelDecision R}
  `{!Total R, !Transitive R, !AntiSymm (=) R}.

Definition key_le (x y : A) : Prop := R (key x) (key y).
#[export] Instance key_le_dec x y : Decision (key_le x y).
Proof. unfold key_le. apply _. Defined.

Definition sort_by (l : list A) : list A := merge_sort key_le l.

#[local] Instance key_le_total : Total key_le.
Proof. intros x y. unfold key_le. destruct (total R (key x) (key y)); auto. Qed.
#[local] Instance key_le_trans : Transitive key_le.
Proof. intros x y z. unfold key_le. by intros ->. Qed.

Lemma sort_by_perm l : sort_by l ≡ₚ l.
Proof. apply merge_sort_Permutation. Qed.

Lemma sort_by_sorted l : StronglySorted key_le (sort_by l).
Proof. apply StronglySorted_merge_sort; apply _. Qed.

Lemma elem_of_sort_by l x : x ∈ sort_by l ↔ x ∈ l.
Proof. by rewrite sort_by_perm. Qed.

Lemma key_sorted_unique l k :
  StronglySorted key_le l → StronglySorted key_le k → l ≡ₚ k → NoDup (key <$> l) → l = k.
Proof.
  revert k. induction l as [|x l IH]; intros k Hl Hk Hp Hnd.
  { symmetry in Hp. apply Permutation_nil_r in Hp. by subst. }
  destruct k as [|y k]; [by apply Permutation_nil_r in Hp|].
  apply StronglySorted_inv in Hl as [Hl Hx]. apply StronglySorted_inv in Hk as [Hk Hy].
  rewrite Forall_forall in Hx, Hy. apply NoDup_cons in Hnd as [Hxl Hnd].
  assert (x = y) as ->.
  { assert (y ∈ x :: l) as Hin by (rewrite Hp; set_solver).
    assert (x ∈ y :: k) as Hin' by (rewrite <- Hp; set_solver).
    apply elem_of_cons in Hin as [->|Hin]; [done|].
    apply elem_of_cons in Hin' as [->|Hin']; [done|].
    exfalso. apply Hxl. replace (key x) with (key y); [by apply list_elem_of_fmap_2|].
    apply (anti_symm R); [by apply Hy | by apply Hx]. }
  f_equal. apply IH; [done..| |done]. by apply Permutation.Permutation_cons_inv in Hp.
Qed.

Lemma sort_by_unique l k :
  l ≡ₚ k → NoDup (key <$> l) → sort_by l = sort_by k.
Proof.
  intros Hp Hnd. apply key_sorted_unique; [apply sort_by_sorted..| |].
  - by rewrite !sort_by_perm.
  - by rewrite sort_by_perm.
Qed.
End sort_by.

(** ** Generic list lemmas *)

Lemma list_ind2 {A} (P : list A → Prop) :
  P [] → (∀ a, P [a]) → (∀ a b l, P l → P (a :: b :: l)) → ∀ l, P l.
Proof.
  intros H0 H1 H2. fix IH 1. intros [|a [|b l]]; [done|apply H1|].
  apply H2. apply IH.
Qed.

Lemma mjoin_cons {A} (l : list A) ls : mjoin (l :: ls) = l ++ mjoin ls.
Proof. done. Qed.

Lemma mjoin_singletons {A} (l : list A) : mjoin ((λ x, [x]) <$> l) = l.
Proof. induction l as [|x l IH]; [done|]. rewrite fmap_cons, mjoin_cons, IH. done. Qed.

Lemma NoDup_fmap_elem_inj {A B} (f : A → B) (l : list A) x y :
  NoDup (f <$> l) → x ∈ l → y ∈ l → f x = f y → x = y.
Proof.
  intros Hnd [i Hi]%list_elem_of_lookup [j Hj]%list_elem_of_lookup He.
  assert (i = j) as ->; [|congruence].
  eapply (NoDup_lookup (f <$> l) i j (f x)); [done|..];
    rewrite list_lookup_fmap; [by rewrite Hi|rewrite Hj; simpl; by f_equal].
Qed.

Lemma be_value_app p q : be_value (p ++ q) = be_value p * 2 ^ (8 * zlen q) + be_value q.
Proof.
  unfold zlen. induction p as [|b p IH]; [done|]. cbn [app be_value]. rewrite IH, length_app.
  rewrite Nat2Z.inj_add, Z.mul_add_distr_l, Z.pow_add_r by lia. ring.
Qed.

(** Or-ing a value below [2^n] into a number shifted by [n] appends its bits. *)
Lemma lor_shiftl_low a b n : 0 ≤ n → 0 ≤ b < 2 ^ n → Z.lor (Z.shiftl a n) b = a * 2 ^ n + b.
Proof.
  intros Hn Hb. rewrite <- Z.shiftl_mul_pow2 by done. symmetry. rewrite Z.add_nocarry_lxor.
  - apply Z.bits_inj'. intros k Hk. rewrite Z.lxor_spec, Z.lor_spec.
    destruct (Z.lt_ge_cases k n).
    + rewrite Z.shiftl_spec_low by lia. by destruct (Z.testbit b k).
    + rewrite <- (Z.mod_small b (2 ^ n)), Z.mod_pow2_bits_high by lia.
      by destruct (Z.testbit _ k).
  - apply Z.bits_inj'. intros k Hk. rewrite Z.land_spec, Z.bits_0.
    destruct (Z.lt_ge_cases k n).
    + by rewrite Z.shiftl_spec_low by lia.
    + rewrite <- (Z.mod_small b (2 ^ n)), Z.mod_pow2_bits_high by lia. apply andb_false_r.
Qed.

Lemma is_bytes_singleton b : is_byte b → is_bytes [b].
Proof. intros. apply Forall_singleton. done. Qed.

Lemma mjoin_app {A} (l k : list (list A)) : mjoin (l ++ k) = mjoin l ++ mjoin k.
Proof. induction l as [|x l IH]; [done|]. cbn [app]. by rewrite !mjoin_cons, IH, (assoc_L (++)). Qed.

Lemma Forall_fmap_id {A} (f : A → A) l : Forall (λ x, f x = x) l → f <$> l = l.
Proof. induction 1 as [|x l Hx Hl IH]; [done|]. rewrite fmap_cons. by f_equal. Qed.

(** Without looking into the values, unlike [injection]. *)
Lemma Ok_inj {E A} (a b : A) : @Ok E A a = Ok b → a = b.
Proof. congruence. Qed.

Lemma is_ok_ex {E A} (r : res E A) : is_ok r = true → ∃ a, r = Ok a.
Proof. destruct r; simpl; [eauto|done..]. Qed.

(** ** Calls that cannot panic *)

Lemma bind_not_Panic {E A B} (m : res E A) (f : A → res E B) :
  m ≠ Panic → (∀ a, m = Ok a → f a ≠ Panic) → (m ≫= f) ≠ Panic.
Proof. destruct m; simpl; naive_solver. Qed.

Lemma wrap_err_not_Panic {E F A} (f : E → F) (r : res E A) : r ≠ Panic → wrap_err f r ≠ Panic.
Proof. by destruct r. Qed.

Create HintDb no_panic.
#[export] Hint Resolve guard_err_not_Panic from_option_not_Panic wrap_err_not_Panic : no_panic.

(** Evaluation: each side against the value of the right one, so that no conversion meets two unevaluated terms. *)
Ltac by_vm :=
  lazymatch goal with
  | |- @eq ?T ?a ?b =>
    tryif has_evar b then (vm_compute; reflexivity)
    else let v := eval vm_compute in b in
         tryif constr_eq b v then vm_cast_no_check (eq_refl v)
         else (refine (@eq_trans T a v b _ (@eq_sym T b v _)); vm_cast_no_check (eq_refl v))
  | |- _ => vm_compute; reflexivity
  end.

(** Walk through a call, branch by branch, collecting what held on the way. *)
Ltac no_panic :=
  repeat match goal with
  | |- (_ ≫= _) ≠ Panic => apply bind_not_Panic; [|intros ? ?]
  | |- (if ?b then _ else _) ≠ Panic => let E := fresh "E" in destruct b eqn:E
  | |- (match ?x with _ => _ end) ≠ Panic => let E := fresh "E" in destruct x eqn:E
  end; try discriminate; auto with no_panic.

Lemma Forall_mjoin_inv {A} (P : A → Prop) (ls : list (list A)) : Forall P (mjoin ls) → Forall (Forall P) ls.
Proof.
  induction ls as [|l ls IH]; [constructor|]. rewrite mjoin_cons, Forall_app. intros [??]. constructor; auto.
Qed.

Lemma Forall_sublist_of {A} (P : A → Prop) (l k : list A) : l `sublist_of` k → Forall P k → Forall P l.
Proof. rewrite !Forall_forall. eauto using elem_of_sublist. Qed.

Lemma filter_all {A} (P : A → Prop) `{∀ x, Decision (P x)} l : Forall P l → filter P l = l.
Proof. induction 1; [done|]. rewrite filter_cons_True by done. by f_equal. Qed.
