(* ===== verification/GoStr.v ===== *)
(** * Go strings: UTF-8 iteration, case mapping, [strings] and [hex]

    What the sources use of Go's [unicode/utf8], [unicode], [strings] and
    [encoding/hex] packages.  A [for _, c := range s] loop decodes UTF-8, an
    ill-formed byte reading as U+FFFD of width one; [strings.Builder.WriteRune]
    encodes it again.

    The case tables of the [unicode] package are the class [UnicodeCase]: the
    operations stay abstract outside ASCII, where the package documents their
    values, and [basic_case] is an instance to evaluate with. *)

From S2P Require Import Prelude.

(** ** UTF-8 (unicode/utf8) *)

Definition rune_error : Z := 65533.

Definition in_range (lo hi b : Z) : bool := (lo <=? b) && (b <=? hi).

(** [utf8.DecodeRuneInString]: the rune at the head and its width. *)
Definition decode_rune (s : bytes) : Z * nat :=
  match s with
  | [] => (rune_error, 0%nat)
  | b0 :: s1 =>
    if b0 <? 128 then (b0, 1%nat) else
    if in_range 194 223 b0 then
      match s1 with
      | b1 :: _ =>
        if in_range 128 191 b1
        then (Z.lor (Z.shiftl (Z.land b0 31) 6) (Z.land b1 63), 2%nat)
        else (rune_error, 1%nat)
      | _ => (rune_error, 1%nat)
      end
    else if in_range 224 239 b0 then
      let lo := if b0 =? 224 then 160 else 128 in
      let hi := if b0 =? 237 then 159 else 191 in
      match s1 with
      | b1 :: b2 :: _ =>
        if in_range lo hi b1 && in_range 128 191 b2
        then (Z.lor (Z.shiftl (Z.land b0 15) 12)
                (Z.lor (Z.shiftl (Z.land b1 63) 6) (Z.land b2 63)), 3%nat)
        else (rune_error, 1%nat)
      | _ => (rune_error, 1%nat)
      end
    else if in_range 240 244 b0 then
      let lo := if b0 =? 240 then 144 else 128 in
      let hi := if b0 =? 244 then 143 else 191 in
      match s1 with
      | b1 :: b2 :: b3 :: _ =>
        if in_range lo hi b1 && in_range 128 191 b2 && in_range 128 191 b3
        then (Z.lor (Z.shiftl (Z.land b0 7) 18)
                (Z.lor (Z.shiftl (Z.land b1 63) 12)
                   (Z.lor (Z.shiftl (Z.land b2 63) 6) (Z.land b3 63))), 4%nat)
        else (rune_error, 1%nat)
      | _ => (rune_error, 1%nat)
      end
    else (rune_error, 1%nat)
  end.

(** [for i, c := range s]: byte index, rune, and the bytes it was read from. *)
Fixpoint range_from (i : Z) (skip : nat) (s : bytes) : list (Z * Z * bytes) :=
  match s with
  | [] => []
  | b :: s' =>
    match skip with
    | S k => range_from (i + 1) k s'
    | O => let '(r, w) := decode_rune s in
           (i, r, take w s) :: range_from (i + 1) (w - 1) s'
    end
  end.
Definition range_str (s : bytes) : list (Z * Z * bytes) := range_from 0 0 s.
Definition runes (s : bytes) : list Z := (λ x, x.1.2) <$> range_str s.

(** [utf8.AppendRune]. *)
Definition encode_rune (r : Z) : bytes :=
  if (0 <=? r) && (r <? 128) then [r]
  else if (0 <=? r) && (r <? 2048) then
    [Z.lor 192 (Z.shiftr r 6); Z.lor 128 (Z.land r 63)]
  else if (r <? 0) || (1114111 <? r) || in_range 55296 57343 r then [239; 191; 189]
  else if r <? 65536 then
    [Z.lor 224 (Z.shiftr r 12); Z.lor 128 (Z.land (Z.shiftr r 6) 63); Z.lor 128 (Z.land r 63)]
  else
    [Z.lor 240 (Z.shiftr r 18); Z.lor 128 (Z.land (Z.shiftr r 12) 63);
     Z.lor 128 (Z.land (Z.shiftr r 6) 63); Z.lor 128 (Z.land r 63)].

(** A string of ASCII characters is read one byte at a time. *)
Definition is_ascii (s : bytes) : Prop := Forall (λ b, 0 ≤ b < 128) s.

#[export] Instance is_ascii_dec s : Decision (is_ascii s).
Proof. unfold is_ascii. apply _. Defined.

Lemma range_from_ascii i s :
  is_ascii s → range_from i 0 s = imap (λ k b, (i + Z.of_nat k, b, [b])) s.
Proof.
  intros Hs. revert i. induction Hs as [|b s Hb Hs IH]; intros i; [done|].
  cbn [range_from decode_rune]. destruct (Z.ltb_spec b 128); [|lia].
  cbn [imap Nat.sub take]. rewrite IH. f_equal; [by rewrite Z.add_0_r|].
  apply imap_ext. intros k x _. unfold compose. by replace (i + 1 + Z.of_nat k) with (i + Z.of_nat (S k)) by lia.
Qed.

Lemma runes_ascii s : is_ascii s → runes s = s.
Proof.
  intros Hs. unfold runes, range_str. rewrite range_from_ascii by done.
  rewrite fmap_imap. trans (id <$> s); [|apply list_fmap_id].
  rewrite <- imap_const. done.
Qed.

Lemma encode_rune_ascii r : 0 ≤ r < 128 → encode_rune r = [r].
Proof.
  intros Hr. unfold encode_rune.
  destruct (Z.leb_spec 0 r), (Z.ltb_spec r 128); try lia. done.
Qed.

(** ** Case mapping and white space (unicode) *)

Definition ascii_lower (c : Z) : Z := if in_range 65 90 c then c + 32 else c.
Definition ascii_upper (c : Z) : Z := if in_range 97 122 c then c - 32 else c.

Class UnicodeCase := {
  to_lower : Z → Z;                       (** [unicode.ToLower] *)
  to_upper : Z → Z;                       (** [unicode.ToUpper] *)
  fold_eq : Z → Z → bool;                 (** equal under [unicode.SimpleFold] *)
  to_lower_ascii c : 0 ≤ c < 128 → to_lower c = ascii_lower c;
  to_upper_ascii c : 0 ≤ c < 128 → to_upper c = ascii_upper c;
  fold_eq_ascii c d : 0 ≤ c < 128 → 0 ≤ d < 128 →
    fold_eq c d = (ascii_lower c =? ascii_lower d);
}.

(** ASCII, with the code points outside it whose images lie in ASCII: the
    Kelvin sign, dotted capital I, dotless i and long s. *)
Definition basic_lower (c : Z) : Z :=
  if c =? 8490 then 107 else if c =? 304 then 105 else ascii_lower c.
Definition basic_upper (c : Z) : Z :=
  if c =? 383 then 83 else if c =? 305 then 73 else ascii_upper c.
Definition basic_fold (c : Z) : Z :=
  if c =? 8490 then 107 else if c =? 383 then 115 else ascii_lower c.

#[export, refine] Instance basic_case : UnicodeCase := {|
  to_lower := basic_lower;
  to_upper := basic_upper;
  fold_eq c d := basic_fold c =? basic_fold d;
|}.
Proof.
  - intros c Hc. unfold basic_lower.
    destruct (Z.eqb_spec c 8490), (Z.eqb_spec c 304); lia || done.
  - intros c Hc. unfold basic_upper.
    destruct (Z.eqb_spec c 383), (Z.eqb_spec c 305); lia || done.
  - intros c d Hc Hd. unfold basic_fold.
    destruct (Z.eqb_spec c 8490), (Z.eqb_spec d 8490), (Z.eqb_spec c 383),
      (Z.eqb_spec d 383); lia || done.
Defined.

(** [unicode.IsSpace]. *)
Definition is_space (r : Z) : bool :=
  in_range 9 13 r || (r =? 32) || (r =? 133) || (r =? 160) || (r =? 5760)
  || in_range 8192 8202 r || (r =? 8232) || (r =? 8233) || (r =? 8239)
  || (r =? 8287) || (r =? 12288).

(** ** The [strings] package *)

Fixpoint drop_while {A} (p : A → bool) (l : list A) : list A :=
  match l with
  | [] => []
  | x :: l' => if p x then drop_while p l' else l
  end.

(** [strings.TrimSpace]. *)
Definition trim_space (s : bytes) : bytes :=
  let sp := λ x : Z * Z * bytes, is_space x.1.2 in
  mjoin (snd <$> reverse (drop_while sp (reverse (drop_while sp (range_str s))))).

(** [strings.IndexRune(set, r)] on an ASCII [set]: [None] is Go's [-1]. *)
Fixpoint index_of (r : Z) (set : bytes) : option Z :=
  match set with
  | [] => None
  | c :: set' => if c =? r then Some 0 else Z.succ <$> index_of r set'
  end.

(** [strings.HasPrefix] and [strings.Contains]. *)
Fixpoint has_prefix (p s : bytes) : bool :=
  match p, s with
  | [], _ => true
  | a :: p', b :: s' => (a =? b) && has_prefix p' s'
  | _ :: _, [] => false
  end.
Fixpoint contains (s p : bytes) : bool :=
  has_prefix p s || match s with [] => false | _ :: s' => contains s' p end.

(** [strings.Cut(s, string(c))] for a one-byte separator. *)
Fixpoint cut (c : Z) (s : bytes) : bytes * bytes * bool :=
  match s with
  | [] => ([], [], false)
  | b :: s' => if b =? c then ([], s', true)
               else let '(x, y, f) := cut c s' in (b :: x, y, f)
  end.

(** [strings.TrimRight(s, string(c))] and [strings.TrimPrefix]. *)
Definition trim_right (c : Z) (s : bytes) : bytes :=
  reverse (drop_while (λ b, b =? c) (reverse s)).
Definition trim_prefix (p s : bytes) : bytes :=
  if has_prefix p s then drop (length p) s else s.

Section folding.
Context {UC : UnicodeCase}.

Definition map_runes (f : Z → Z) (s : bytes) : bytes := mjoin (encode_rune ∘ f <$> runes s).

(** [strings.ToLower], [strings.ToUpper]. *)
Definition strings_ToLower (s : bytes) : bytes := map_runes to_lower s.
Definition strings_ToUpper (s : bytes) : bytes := map_runes to_upper s.

(** [strings.EqualFold]. *)
Fixpoint equal_fold_runes (s t : list Z) : bool :=
  match s, t with
  | [], [] => true
  | a :: s', b :: t' => ((a =? b) || fold_eq a b) && equal_fold_runes s' t'
  | _, _ => false
  end.
Definition equal_fold (s t : bytes) : bool := equal_fold_runes (runes s) (runes t).
End folding.

(** ** Hexadecimal (encoding/hex) *)

Definition hex_char (d : Z) : Z := if d <? 10 then 48 + d else 87 + d.
Definition hex_val (c : Z) : option Z :=
  if in_range 48 57 c then Some (c - 48)
  else if in_range 97 102 c then Some (c - 87)
  else if in_range 65 70 c then Some (c - 55)
  else None.

(** [hex.EncodeToString] and [hex.DecodeString]. *)
Fixpoint hex_encode (s : bytes) : bytes :=
  match s with
  | [] => []
  | b :: s' => hex_char (b / 16) :: hex_char (b mod 16) :: hex_encode s'
  end.
Fixpoint hex_decode (s : bytes) : option bytes :=
  match s with
  | [] => Some []
  | a :: b :: s' =>
    x ← hex_val a; y ← hex_val b; r ← hex_decode s'; Some (16 * x + y :: r)
  | _ => None
  end.

Lemma hex_val_char d : 0 ≤ d < 16 → hex_val (hex_char d) = Some d.
Proof.
  intros Hd. unfold hex_char, hex_val, in_range.
  destruct (Z.ltb_spec d 10).
  - destruct (Z.leb_spec 48 (48 + d)), (Z.leb_spec (48 + d) 57); try lia.
    simpl. f_equal. lia.
  - destruct (Z.leb_spec 48 (87 + d)), (Z.leb_spec (87 + d) 57); try lia.
    destruct (Z.leb_spec 97 (87 + d)), (Z.leb_spec (87 + d) 102); try lia.
    simpl. f_equal. lia.
Qed.

Lemma hex_decode_encode s : is_bytes s → hex_decode (hex_encode s) = Some s.
Proof.
  induction 1 as [|b s Hb Hs IH]; [done|]. cbn [hex_encode hex_decode].
  unfold is_byte in Hb.
  rewrite !hex_val_char by (Z.to_euclidean_division_equations; lia). simpl.
  rewrite IH. simpl. do 2 f_equal. Z.to_euclidean_division_equations. lia.
Qed.

Lemma hex_encode_inj s t :
  is_bytes s → is_bytes t → hex_encode s = hex_encode t → s = t.
Proof.
  intros Hs Ht He. apply hex_decode_encode in Hs, Ht. congruence.
Qed.

Lemma length_hex_encode s : length (hex_encode s) = (2 * length s)%nat.
Proof. induction s; simpl; lia. Qed.

Lemma hex_char_ascii d : 0 ≤ d < 16 → 0 ≤ hex_char d < 128.
Proof. unfold hex_char. case_match; lia. Qed.

Lemma hex_encode_ascii s : is_bytes s → is_ascii (hex_encode s).
Proof.
  induction 1 as [|b s Hb Hs IH]; [constructor|]. unfold is_byte in Hb. simpl.
  constructor; [|constructor; [|done]]; apply hex_char_ascii;
    Z.to_euclidean_division_equations; lia.
Qed.

Lemma hex_decode_Some_length s r : hex_decode s = Some r → length s = (2 * length r)%nat.
Proof.
  revert r. induction s as [|a|a b s IH] using list_ind2; intros r; simpl; intros H.
  - by simplify_eq.
  - done.
  - destruct (hex_val a), (hex_val b), (hex_decode s) as [r'|] eqn:E; simplify_eq/=.
    rewrite (IH r') by done. lia.
Qed.

(** ** Strings whose runes are all ASCII *)

Lemma lor_ge_l a b : 0 ≤ a → 0 ≤ b → a ≤ Z.lor a b.
Proof.
  intros Ha Hb. assert (Z.lor a b = Z.land a b + Z.lxor a b) as E.
  { rewrite Z.add_nocarry_lxor; apply Z.bits_inj'; intros n Hn;
      rewrite ?Z.lxor_spec, ?Z.land_spec, ?Z.lor_spec, ?Z.bits_0, ?Z.lxor_spec, ?Z.land_spec;
      by destruct (Z.testbit a n), (Z.testbit b n). }
  assert (a = Z.land a b + Z.ldiff a b) as E2.
  { rewrite Z.add_nocarry_lxor; apply Z.bits_inj'; intros n Hn;
      rewrite ?Z.lxor_spec, ?Z.land_spec, ?Z.ldiff_spec, ?Z.bits_0;
      by destruct (Z.testbit a n), (Z.testbit b n). }
  assert (Z.lxor a b = Z.ldiff a b + Z.ldiff b a) as E3.
  { rewrite Z.add_nocarry_lxor; apply Z.bits_inj'; intros n Hn;
      rewrite ?Z.lxor_spec, ?Z.land_spec, ?Z.ldiff_spec, ?Z.bits_0;
      by destruct (Z.testbit a n), (Z.testbit b n). }
  assert (0 ≤ Z.ldiff b a) by (apply Z.ldiff_nonneg; lia). lia.
Qed.

Lemma lor_ge_r a b : 0 ≤ a → 0 ≤ b → b ≤ Z.lor a b.
Proof. intros. rewrite Z.lor_comm. by apply lor_ge_l. Qed.

Lemma land_shift_ge b k n : 0 ≤ n → 0 ≤ k →
  0 ≤ Z.shiftl (Z.land b (Z.ones n)) k ∧ Z.shiftl (Z.land b (Z.ones n)) k = b mod 2 ^ n * 2 ^ k.
Proof.
  intros Hn Hk. rewrite Z.land_ones, Z.shiftl_mul_pow2 by done.
  pose proof (Z.mod_pos_bound b (2 ^ n)). nia.
Qed.

(** A lead byte and, where it is minimal, its first continuation byte put a
    multi-byte rune above the ASCII range. *)
Lemma multibyte_ge b0 b1 n k x :
  0 ≤ n → 7 ≤ k → 0 ≤ x →
  (1 ≤ b0 mod 2 ^ n ∨ (6 ≤ k ∧ 2 ≤ b1 mod 64 ∧ 12 ≤ k ∧ Z.shiftl (Z.land b1 (Z.ones 6)) (k - 6) ≤ x)) →
  128 ≤ Z.lor (Z.shiftl (Z.land b0 (Z.ones n)) k) x.
Proof.
  intros Hn Hk Hx Hc. destruct (land_shift_ge b0 k n) as [Hp Hq]; [lia..|].
  pose proof (lor_ge_l _ x Hp Hx). pose proof (lor_ge_r _ x Hp Hx).
  assert (2 ^ 7 ≤ 2 ^ k) by (apply Z.pow_le_mono_r; lia).
  destruct Hc as [Hc|(_ & Hc & Hk' & Hx')]; [nia|].
  destruct (land_shift_ge b1 (k - 6) 6) as [_ Hq']; [lia..|].
  assert (2 ^ 6 ≤ 2 ^ (k - 6)) by (apply Z.pow_le_mono_r; lia).
  change (2 ^ 6) with 64 in *. nia.
Qed.

(** A rune below 128 was read from the one byte it equals. *)
Lemma decode_rune_ascii b s r w :
  decode_rune (b :: s) = (r, w) → r < 128 → r = b ∧ w = 1%nat ∧ b < 128.
Proof.
  unfold decode_rune, rune_error, in_range.
  change 31 with (Z.ones 5). change 63 with (Z.ones 6).
  change 15 with (Z.ones 4). change 7 with (Z.ones 3).
  assert (∀ a k, 0 ≤ Z.shiftl (Z.land a (Z.ones 6)) k) as H6.
  { intros a k. apply Z.shiftl_nonneg. rewrite Z.land_ones by lia. apply Z.mod_pos_bound. lia. }
  assert (∀ a, 0 ≤ Z.land a (Z.ones 6)) as H6'.
  { intros a. rewrite Z.land_ones by lia. apply Z.mod_pos_bound. lia. }
  intros H Hr. destruct (Z.ltb_spec b 128); [by simplify_eq|]. exfalso.
  destruct ((194 <=? b) && (b <=? 223)) eqn:E2.
  { repeat case_match; simplify_eq; bool_prop; try lia.
    destruct (land_shift_ge b 6 5) as [Hp Hq]; [lia..|].
    pose proof (lor_ge_l _ _ Hp (H6' z)).
    assert (2 ≤ b mod 2 ^ 5) by (Z.to_euclidean_division_equations; lia).
    change (2 ^ 6) with 64 in *. nia. }
  destruct ((224 <=? b) && (b <=? 239)) eqn:E3.
  { destruct s as [|b1 [|b2 s]]; try (simplify_eq; lia).
    destruct ((_ && _) && _) eqn:E; [|simplify_eq; lia]. injection H as <- <-.
    assert (128 ≤ Z.lor (Z.shiftl (Z.land b (Z.ones 4)) 12)
      (Z.lor (Z.shiftl (Z.land b1 (Z.ones 6)) 6) (Z.land b2 (Z.ones 6)))); [|lia].
    apply (multibyte_ge b b1); [lia|lia|apply Z.lor_nonneg; split; auto|].
    destruct (Z.eqb_spec b 224) as [->|]; bool_prop.
    - right. change (224 =? 237) with false in E. repeat split; try lia; [Z.to_euclidean_division_equations; lia|].
      apply lor_ge_l; auto.
    - left. Z.to_euclidean_division_equations. lia. }
  destruct ((240 <=? b) && (b <=? 244)) eqn:E4; [|simplify_eq; lia].
  destruct s as [|b1 [|b2 [|b3 s]]]; try (simplify_eq; lia).
  destruct (((_ && _) && _) && _) eqn:E; [|simplify_eq; lia]. injection H as <- <-.
  assert (128 ≤ Z.lor (Z.shiftl (Z.land b (Z.ones 3)) 18)
    (Z.lor (Z.shiftl (Z.land b1 (Z.ones 6)) 12)
      (Z.lor (Z.shiftl (Z.land b2 (Z.ones 6)) 6) (Z.land b3 (Z.ones 6))))); [|lia].
  apply (multibyte_ge b b1); [lia|lia|repeat (apply Z.lor_nonneg; split; auto)|].
  destruct (Z.eqb_spec b 240) as [->|]; bool_prop.
  - right. change (240 =? 244) with false in E. repeat split; try lia; [Z.to_euclidean_division_equations; lia|].
    apply lor_ge_l; [auto|]. apply Z.lor_nonneg; split; auto.
  - left. Z.to_euclidean_division_equations. lia.
Qed.

Lemma runes_all_ascii s : Forall (λ r, 0 ≤ r < 128) (runes s) → is_ascii s ∧ runes s = s.
Proof.
  intros H. assert (is_ascii s) as Ha; [|split; [done|by apply runes_ascii]].
  revert H. unfold runes, range_str, is_ascii. generalize 0 at 2. intros i. revert i.
  induction s as [|b s IH]; intros i H; [constructor|].
  cbn [range_from] in H. destruct (decode_rune (b :: s)) as [r w] eqn:E.
  rewrite fmap_cons in H. apply Forall_cons in H as [Hr H]. simpl in Hr.
  apply decode_rune_ascii in E as (-> & -> & Hb); [|lia].
  constructor; [done|]. by apply (IH (i + 1)).
Qed.
