(* ===== verification/GoTime.v ===== *)
(** * Go's [time] package and decimal numerals

    What the sources use of [time.Time], [time.Duration] and [strconv]: an
    instant is Go's representation (seconds since 1 January of year 1 in UTC as
    an [int64], nanoseconds, an optional monotonic reading, a location), with
    the saturating [Sub] and [Add] of the package, and [Format(time.RFC3339)]
    of a UTC time through the proleptic Gregorian calendar.

    The calendar lemmas show the rendering to be injective on whole seconds and,
    for the years 0 to 9999, to order lexicographically as the instants do --
    which is what the text columns of the database rely on. *)

From S2P Require Import Prelude GoStr.

(** ** Decimal numerals (strconv, time.appendInt) *)

(** [n] decimal digits of [z], most significant first. *)
Fixpoint digits (n : nat) (z : Z) : bytes :=
  match n with
  | O => []
  | S n' => 48 + (z / 10 ^ Z.of_nat n') mod 10 :: digits n' z
  end.

(** The number of decimal digits of [z ≥ 0]; [log2 z + 1] rounds suffice. *)
Fixpoint num_digits_fuel (fuel : nat) (z : Z) : nat :=
  match fuel with
  | O => 1
  | S f => if z <? 10 then 1 else S (num_digits_fuel f (z / 10))
  end.
Definition num_digits (z : Z) : nat := num_digits_fuel (S (Z.to_nat (Z.log2 z))) z.

(** [time.appendInt(nil, x, width)]: zero-padded to [width] digits. *)
Definition append_int (x : Z) (width : nat) : bytes :=
  let u := Z.abs x in
  (if x <? 0 then [45] else []) ++ digits (Nat.max width (num_digits u)) u.

(** [strconv.FormatInt(x, 10)]. *)
Definition format_int (x : Z) : bytes := append_int x 1.

(** [strconv.ParseInt(s, 10, 64)], [None] standing for its errors. *)
Fixpoint parse_digits (acc : Z) (s : bytes) : option Z :=
  match s with
  | [] => Some acc
  | c :: s' => if in_range 48 57 c then parse_digits (10 * acc + (c - 48)) s' else None
  end.
Definition parse_int (s : bytes) : option Z :=
  let '(neg, d) := match s with
                   | 45 :: d => (true, d)
                   | 43 :: d => (false, d)
                   | _ => (false, s)
                   end in
  match d with
  | [] => None
  | _ => v ← parse_digits 0 d;
         let x := if neg : bool then - v else v in
         if (- 2 ^ 63 <=? x) && (x <? 2 ^ 63) then Some x else None
  end.

Fixpoint dec_value (s : bytes) : Z :=
  match s with
  | [] => 0
  | c :: s' => (c - 48) * 10 ^ Z.of_nat (length s') + dec_value s'
  end.

Lemma length_digits n z : length (digits n z) = n.
Proof. induction n; simpl; congruence. Qed.

Lemma digits_range n z : Forall (λ c, 48 ≤ c < 58) (digits n z).
Proof.
  induction n; simpl; constructor; [|done].
  pose proof (Z.mod_pos_bound (z / 10 ^ Z.of_nat n) 10). lia.
Qed.

Lemma dec_value_digits n z : dec_value (digits n z) = z mod 10 ^ Z.of_nat n.
Proof.
  induction n as [|n IH]; [simpl; by rewrite Z.mod_1_r|].
  cbn [digits dec_value]. rewrite length_digits, IH.
  replace (Z.of_nat (S n)) with (Z.of_nat n + 1) by lia.
  rewrite Z.pow_add_r, Z.pow_1_r by lia. rewrite Z.rem_mul_r by lia. lia.
Qed.

Lemma num_digits_bound z : 0 ≤ z → z < 10 ^ Z.of_nat (num_digits z).
Proof.
  intros Hz. unfold num_digits.
  assert (z < 2 ^ Z.of_nat (S (Z.to_nat (Z.log2 z)))) as Hb.
  { destruct (Z.eq_dec z 0) as [->|]; [done|].
    rewrite Nat2Z.inj_succ, Z2Nat.id by apply Z.log2_nonneg. apply Z.log2_spec. lia. }
  revert Hb. generalize (S (Z.to_nat (Z.log2 z))) as f. intros f. revert z Hz.
  induction f as [|f IH]; intros z Hz Hb; cbn [num_digits_fuel].
  { change (2 ^ Z.of_nat 0) with 1 in Hb. change (10 ^ Z.of_nat 1) with 10. lia. }
  destruct (Z.ltb_spec z 10); [change (10 ^ Z.of_nat 1) with 10; lia|].
  rewrite Nat2Z.inj_succ, Z.pow_succ_r in Hb by lia.
  specialize (IH (z / 10)). rewrite Nat2Z.inj_succ, Z.pow_succ_r by lia.
  revert IH. generalize (10 ^ Z.of_nat (num_digits_fuel f (z / 10))). intros p IH.
  Z.to_euclidean_division_equations. lia.
Qed.

Lemma digits_inj n x y :
  0 ≤ x < 10 ^ Z.of_nat n → 0 ≤ y < 10 ^ Z.of_nat n → digits n x = digits n y → x = y.
Proof.
  intros Hx Hy He. apply (f_equal dec_value) in He.
  rewrite !dec_value_digits, !Z.mod_small in He by done. done.
Qed.

Lemma parse_digits_value a s :
  Forall (λ c, 48 ≤ c < 58) s →
  parse_digits a s = Some (a * 10 ^ Z.of_nat (length s) + dec_value s).
Proof.
  intros Hs. revert a. induction Hs as [|c s Hc Hs IH]; intros a; simpl.
  { f_equal. lia. }
  unfold in_range. destruct (Z.leb_spec 48 c), (Z.leb_spec c 57); try lia. simpl.
  rewrite IH. f_equal. rewrite Nat2Z.inj_succ, Z.pow_succ_r by lia. lia.
Qed.

Lemma num_digits_pos z : (0 < num_digits z)%nat.
Proof. unfold num_digits. simpl. case_match; lia. Qed.

Lemma append_int_inj x y w : append_int x w = append_int y w → x = y.
Proof.
  unfold append_int. intros He.
  assert (∀ n u k v, [45] ++ digits n u ≠ digits (S k) v) as Hne.
  { intros n u k v Hc. pose proof (digits_range (S k) v) as Hr. rewrite <- Hc in Hr.
    apply Forall_cons in Hr. lia. }
  assert (∀ u, ∃ k, Nat.max w (num_digits u) = S k) as Hk.
  { intros u. pose proof (num_digits_pos u). exists (pred (Nat.max w (num_digits u))). lia. }
  assert (∀ n k u v, 0 ≤ u < 10 ^ Z.of_nat n → 0 ≤ v < 10 ^ Z.of_nat k →
            digits n u = digits k v → u = v) as Hd.
  { intros n k u v Hu Hv Hd. assert (n = k) as ->.
    { by rewrite <- (length_digits n u), Hd, length_digits. }
    by eapply digits_inj. }
  assert (∀ u, 0 ≤ u → 0 ≤ u < 10 ^ Z.of_nat (Nat.max w (num_digits u))) as Hb.
  { intros u Hu. split; [done|]. eapply Z.lt_le_trans; [by apply num_digits_bound|].
    apply Z.pow_le_mono_r; lia. }
  destruct (Hk (Z.abs x)) as [k1 Hk1], (Hk (Z.abs y)) as [k2 Hk2].
  destruct (Z.ltb_spec x 0), (Z.ltb_spec y 0).
  - simplify_list_eq. apply Hd in He; [lia|apply Hb; lia..].
  - rewrite Hk2 in He. by apply Hne in He.
  - rewrite Hk1 in He. symmetry in He. by apply Hne in He.
  - simpl in He. apply Hd in He; [lia|apply Hb; lia..].
Qed.

Lemma parse_int_format_int x : - 2 ^ 63 ≤ x < 2 ^ 63 → parse_int (format_int x) = Some x.
Proof.
  intros Hx. unfold format_int, append_int.
  set (n := Nat.max 1 (num_digits (Z.abs x))).
  assert (Z.abs x < 10 ^ Z.of_nat n) as Hb.
  { eapply Z.lt_le_trans; [apply num_digits_bound; lia|]. apply Z.pow_le_mono_r; lia. }
  assert (∃ c d, digits n (Z.abs x) = c :: d ∧ 48 ≤ c < 58) as (c & d & Hcd & Hc).
  { unfold n. pose proof (num_digits_pos (Z.abs x)).
    destruct (Nat.max 1 _) eqn:E; [lia|]. simpl. do 2 eexists. split; [done|].
    pose proof (digits_range (S n0) (Z.abs x)) as Hr. simpl in Hr. by apply Forall_cons in Hr as [? _]. }
  pose proof (parse_digits_value 0 (digits n (Z.abs x)) (digits_range _ _)) as Hp.
  rewrite dec_value_digits, Z.mod_small in Hp by lia.
  rewrite Z.mul_0_l, Z.add_0_l in Hp.
  rewrite Hcd in *. unfold parse_int.
  destruct (Z.ltb_spec x 0); simpl app; cbn -[parse_digits Z.leb Z.ltb Z.pow].
  - rewrite Hp. cbn -[Z.leb Z.ltb Z.pow].
    destruct (Z.leb_spec (- 2 ^ 63) (- Z.abs x)), (Z.ltb_spec (- Z.abs x) (2 ^ 63)); try lia.
    simpl. f_equal. lia.
  - assert ((match c with 45 => (true, d) | 43 => (false, d) | _ => (false, c :: d) end)
            = (false, c :: d)) as ->.
    { destruct c as [|p|p]; try lia. do 6 (destruct p as [p|p|]; try lia; try done). }
    rewrite Hp. cbn -[Z.leb Z.ltb Z.pow].
    destruct (Z.leb_spec (- 2 ^ 63) (Z.abs x)), (Z.ltb_spec (Z.abs x) (2 ^ 63)); try lia.
    simpl. f_equal. lia.
Qed.

(** ** Instants and durations *)

Record Time := mkTime {
  t_sec : Z;            (** seconds since 1 January of year 1, UTC, an [int64] *)
  t_nsec : Z;           (** nanoseconds within the second *)
  t_mono : option Z;    (** the monotonic clock reading, if any *)
  t_loc : Z;            (** the location pointer; 0 is UTC *)
}.

#[export] Instance Time_eq_dec : EqDecision Time.
Proof. solve_decision. Defined.

Definition unix_to_internal : Z := 62135596800.
Definition second : Z := 1000000000.
Definition min_duration : Z := - 2 ^ 63.
Definition max_duration : Z := 2 ^ 63 - 1.

(** [time.Unix(sec, 0).UTC()], [t.Unix()], [t.UTC()]. *)
Definition time_unix (sec : Z) : Time := mkTime (i64 (sec + unix_to_internal)) 0 None 0.
Definition unix (t : Time) : Z := i64 (t_sec t - unix_to_internal).
Definition utc (t : Time) : Time := mkTime (t_sec t) (t_nsec t) (t_mono t) 0.

Definition is_zero (t : Time) : bool := (t_sec t =? 0) && (t_nsec t =? 0).

(** [t.Before(u)], [t.After(u)], [t.Equal(u)]: by the monotonic readings when
    both have one. *)
Definition before (t u : Time) : bool :=
  match t_mono t, t_mono u with
  | Some a, Some b => a <? b
  | _, _ => (t_sec t <? t_sec u) || ((t_sec t =? t_sec u) && (t_nsec t <? t_nsec u))
  end.
Definition after (t u : Time) : bool := before u t.
Definition time_equal (t u : Time) : bool :=
  match t_mono t, t_mono u with
  | Some a, Some b => a =? b
  | _, _ => (t_sec t =? t_sec u) && (t_nsec t =? t_nsec u)
  end.

(** [Time.addSec] saturates; [t.Add(d)]. *)
Definition add_sec (s d : Z) : Z :=
  let sum := i64 (s + d) in
  if Bool.eqb (s <? sum) (0 <? d) then sum
  else if 0 <? d then 2 ^ 63 - 1 else - (2 ^ 63 - 1).
Definition time_add (t : Time) (d : Z) : Time :=
  let dsec := Z.quot d second in
  let n := t_nsec t + Z.rem d second in
  let '(dsec, n) := if second <=? n then (dsec + 1, n - second)
                    else if n <? 0 then (dsec - 1, n + second) else (dsec, n) in
  let mono := match t_mono t with
              | Some m => if (m + d =? i64 (m + d)) then Some (m + d) else None
              | None => None
              end in
  mkTime (add_sec (t_sec t) dsec) n mono (t_loc t).

(** [t.Sub(u)]: saturates at the ends of the [Duration] range. *)
Definition time_sub (t u : Time) : Z :=
  match t_mono t, t_mono u with
  | Some a, Some b =>
    let d := i64 (a - b) in
    if (d <? 0) && (b <? a) then max_duration
    else if (0 <? d) && (a <? b) then min_duration else d
  | _, _ =>
    let d := i64 (i64 (i64 (t_sec t - t_sec u) * second) + (t_nsec t - t_nsec u)) in
    if time_equal (time_add u d) t then d
    else if before t u then min_duration else max_duration
  end.

(** [t.Truncate(time.Second)] drops the monotonic reading and the fraction. *)
Definition truncate_second (t : Time) : Time := mkTime (t_sec t) 0 None (t_loc t).

(** The instant in nanoseconds, and the times the representation covers. *)
Definition instant (t : Time) : Z := t_sec t * second + t_nsec t.
Definition time_wf (t : Time) : Prop :=
  - 2 ^ 63 ≤ t_sec t < 2 ^ 63 ∧ 0 ≤ t_nsec t < second.

Lemma before_instant t u :
  time_wf t → time_wf u → t_mono t = None ∨ t_mono u = None →
  before t u = (instant t <? instant u).
Proof.
  unfold time_wf, before, instant, second. intros Ht Hu Hm.
  assert ((t_sec t <? t_sec u) || (t_sec t =? t_sec u) && (t_nsec t <? t_nsec u)
          = (t_sec t * 1000000000 + t_nsec t <? t_sec u * 1000000000 + t_nsec u)) as Hb.
  { destruct (Z.ltb_spec (t_sec t) (t_sec u)), (Z.eqb_spec (t_sec t) (t_sec u)),
      (Z.ltb_spec (t_nsec t) (t_nsec u)); simpl; symmetry;
      first [apply Z.ltb_lt; lia | apply Z.ltb_ge; lia]. }
  destruct (t_mono t), (t_mono u); naive_solver.
Qed.

(** ** The proleptic Gregorian calendar

    [civil z] is the date of the [z]-th day after 1 January 1970.  Years are
    counted from 1 March in eras of 400 years, so that the leap day is the last
    day of its year. *)

Definition era_of (z : Z) : Z := (z + 719468) / 146097.
Definition day_of_era (z : Z) : Z := (z + 719468) mod 146097.
Definition year_of_era (doe : Z) : Z := (doe - doe / 1460 + doe / 36524 - doe / 146096) / 365.
Definition march_year (z : Z) : Z := year_of_era (day_of_era z) + era_of z * 400.
Definition day_of_year (z : Z) : Z :=
  let yoe := year_of_era (day_of_era z) in
  day_of_era z - (365 * yoe + yoe / 4 - yoe / 100).
Definition march_month (z : Z) : Z := (5 * day_of_year z + 2) / 153.

Definition civil_day (z : Z) : Z := day_of_year z - (153 * march_month z + 2) / 5 + 1.
Definition civil_month (z : Z) : Z :=
  if march_month z <? 10 then march_month z + 3 else march_month z - 9.
Definition civil_year (z : Z) : Z :=
  march_year z + (if civil_month z <=? 2 then 1 else 0).

(** [t.UTC().Format(time.RFC3339)]. *)
Definition unix_seconds (t : Time) : Z := t_sec t - unix_to_internal.
Definition rfc3339_of_unix (s : Z) : bytes :=
  let z := s / 86400 in
  let r := s mod 86400 in
  append_int (civil_year z) 4 ++ [45] ++ append_int (civil_month z) 2 ++ [45] ++
  append_int (civil_day z) 2 ++ [84] ++ append_int (r / 3600) 2 ++ [58] ++
  append_int (r mod 3600 / 60) 2 ++ [58] ++ append_int (r mod 60) 2 ++ [90].
Definition rfc3339 (t : Time) : bytes := rfc3339_of_unix (unix_seconds t).

Lemma year_of_era_spec doe :
  0 ≤ doe < 146097 →
  let yoe := year_of_era doe in
  0 ≤ yoe < 400 ∧ 365 * yoe + yoe / 4 - yoe / 100 ≤ doe
  ∧ doe < 365 * (yoe + 1) + (yoe + 1) / 4 - (yoe + 1) / 100 + (yoe + 1) / 400.
Proof.
  intros H yoe. unfold yoe, year_of_era.
  repeat split; Z.to_euclidean_division_equations; lia.
Qed.

Lemma day_of_year_range z : 0 ≤ day_of_year z ≤ 365.
Proof.
  pose proof (Z.mod_pos_bound (z + 719468) 146097 ltac:(lia)) as H.
  unfold day_of_year. fold (day_of_era z) in H. pose proof (year_of_era_spec _ H) as Hs.
  simpl in Hs. revert Hs. generalize (year_of_era (day_of_era z)). intros y Hs.
  Z.to_euclidean_division_equations. lia.
Qed.

Lemma march_month_range z : 0 ≤ march_month z ≤ 11.
Proof.
  pose proof (day_of_year_range z). unfold march_month.
  Z.to_euclidean_division_equations. lia.
Qed.

Lemma civil_day_range z : 1 ≤ civil_day z ≤ 31.
Proof.
  pose proof (day_of_year_range z). unfold civil_day, march_month.
  Z.to_euclidean_division_equations. lia.
Qed.

Lemma civil_month_range z : 1 ≤ civil_month z ≤ 12.
Proof. pose proof (march_month_range z). unfold civil_month. case_match; bool_prop; lia. Qed.

(** A single month index orders the months of all years. *)
Definition month_index (z : Z) : Z := 12 * march_year z + march_month z + 3.

Lemma month_index_civil z : month_index z = 12 * civil_year z + civil_month z.
Proof.
  pose proof (march_month_range z). unfold month_index, civil_year, civil_month.
  destruct (Z.ltb_spec (march_month z) 10).
  - destruct (Z.leb_spec (march_month z + 3) 2); lia.
  - destruct (Z.leb_spec (march_month z - 9) 2); lia.
Qed.

Lemma civil_order z w :
  z < w → month_index z < month_index w
          ∨ (month_index z = month_index w ∧ civil_day z < civil_day w).
Proof.
  intros Hzw.
  assert (march_year z < march_year w
          ∨ (march_year z = march_year w ∧ day_of_year z < day_of_year w)) as Hy.
  { pose proof (Z.mod_pos_bound (z + 719468) 146097 ltac:(lia)) as Hz.
    pose proof (Z.mod_pos_bound (w + 719468) 146097 ltac:(lia)) as Hw.
    fold (day_of_era z) in Hz. fold (day_of_era w) in Hw.
    pose proof (year_of_era_spec _ Hz) as Hsz. pose proof (year_of_era_spec _ Hw) as Hsw.
    unfold day_of_year, march_year, era_of. simpl in *. unfold day_of_era in *. revert Hsz Hsw.
    generalize (year_of_era ((z + 719468) mod 146097)) as y.
    generalize (year_of_era ((w + 719468) mod 146097)) as y'.
    intros y' y Hsz Hsw. Z.to_euclidean_division_equations. lia. }
  pose proof (day_of_year_range z). pose proof (day_of_year_range w).
  pose proof (march_month_range z). pose proof (march_month_range w).
  unfold month_index, civil_day in *. unfold march_month in *.
  destruct Hy as [Hy|[Hy Hd]]; [left; lia|]. rewrite Hy.
  Z.to_euclidean_division_equations. lia.
Qed.

(** ** Properties of the RFC 3339 rendering *)

Lemma num_digits_small z n : 0 ≤ z < 10 ^ Z.of_nat n → (1 ≤ n)%nat → (num_digits z ≤ n)%nat.
Proof.
  unfold num_digits. generalize (S (Z.to_nat (Z.log2 z))) as f. intros f. revert z n.
  induction f as [|f IH]; intros z n Hz Hn; cbn [num_digits_fuel]; [done|].
  destruct (Z.ltb_spec z 10); [done|]. destruct n as [|n]; [lia|]. apply le_n_S, IH.
  - rewrite Nat2Z.inj_succ, Z.pow_succ_r in Hz by lia. Z.to_euclidean_division_equations. lia.
  - destruct n; [|lia]. change (10 ^ Z.of_nat 1) with 10 in Hz. lia.
Qed.

Lemma append_int_small x n :
  0 ≤ x < 10 ^ Z.of_nat n → (1 ≤ n)%nat → append_int x n = digits n x.
Proof.
  intros Hx Hn. unfold append_int. destruct (Z.ltb_spec x 0); [lia|].
  rewrite Z.abs_eq by lia. pose proof (num_digits_small x n Hx Hn).
  by rewrite Nat.max_l by lia.
Qed.

(** The month, day and clock fields take sixteen bytes. *)
Definition rfc3339_tail (s : Z) : bytes :=
  let z := s / 86400 in
  let r := s mod 86400 in
  [45] ++ digits 2 (civil_month z) ++ [45] ++ digits 2 (civil_day z) ++ [84] ++
  digits 2 (r / 3600) ++ [58] ++ digits 2 (r mod 3600 / 60) ++ [58] ++
  digits 2 (r mod 60) ++ [90].

Lemma clock_ranges s :
  let r := s mod 86400 in
  0 ≤ r / 3600 < 24 ∧ 0 ≤ r mod 3600 / 60 < 60 ∧ 0 ≤ r mod 60 < 60.
Proof. intros r. unfold r. Z.to_euclidean_division_equations. lia. Qed.

Lemma rfc3339_split s :
  rfc3339_of_unix s = append_int (civil_year (s / 86400)) 4 ++ rfc3339_tail s.
Proof.
  unfold rfc3339_of_unix, rfc3339_tail.
  pose proof (civil_month_range (s / 86400)). pose proof (civil_day_range (s / 86400)).
  pose proof (clock_ranges s) as Hc. simpl in Hc.
  rewrite !(append_int_small _ 2); [done|..]; change (10 ^ Z.of_nat 2) with 100; lia.
Qed.

Lemma length_rfc3339_tail s : length (rfc3339_tail s) = 16%nat.
Proof. unfold rfc3339_tail. rewrite !length_app, !length_digits. done. Qed.

(** Two digits compare as the numbers they denote. *)
Lemma digits_leb n x y :
  0 ≤ x < 10 ^ Z.of_nat n → 0 ≤ y < 10 ^ Z.of_nat n →
  bytes_leb (digits n x) (digits n y) = (x <=? y).
Proof.
  revert x y. induction n as [|n IH]; intros x y Hx Hy.
  { change (10 ^ Z.of_nat 0) with 1 in *. simpl. symmetry. apply Z.leb_le. lia. }
  rewrite Nat2Z.inj_succ, Z.pow_succ_r in Hx, Hy by lia.
  cbn [digits bytes_leb].
  set (p := 10 ^ Z.of_nat n) in *. assert (0 < p) by (unfold p; lia).
  assert (∀ z, digits n z = digits n (z mod p)) as Hmod.
  { intros z. unfold p. clear. revert z.
    assert (∀ m z, (m ≤ n)%nat → digits m z = digits m (z mod 10 ^ Z.of_nat n)) as Hm.
    { induction m as [|m IHm]; intros z Hle; [done|]. simpl. rewrite (IHm z) by lia.
      f_equal. f_equal.
      replace (Z.of_nat n) with (Z.of_nat m + 1 + (Z.of_nat n - Z.of_nat m - 1)) by lia.
      rewrite !Z.pow_add_r by lia. rewrite Z.pow_1_r.
      rewrite <- Z.mul_assoc, Z.rem_mul_r by lia.
      rewrite Z.mul_comm, Z.div_add by lia. rewrite (Z.div_small (_ mod _)) by (apply Z.mod_pos_bound; lia).
      rewrite Z.add_0_l. set (q := z / 10 ^ Z.of_nat m).
      rewrite Z.rem_mul_r by lia.
      rewrite Z.mul_comm, Z.mod_add by lia. by rewrite Z.mod_mod by lia. }
    intros z. by apply Hm. }
  rewrite (Hmod x), (Hmod y), IH by (apply Z.mod_pos_bound; lia).
  rewrite (Z.mod_small (x / p)), (Z.mod_small (y / p)) by (split; [apply Z.div_pos; lia|apply Z.div_lt_upper_bound; lia]).
  pose proof (Z.div_mod x p). pose proof (Z.div_mod y p).
  pose proof (Z.mod_pos_bound x p). pose proof (Z.mod_pos_bound y p).
  destruct (Z.ltb_spec (48 + x / p) (48 + y / p)), (Z.eqb_spec (48 + x / p) (48 + y / p)),
    (Z.leb_spec (x mod p) (y mod p)); simpl; symmetry;
    first [apply Z.leb_le; nia | apply Z.leb_gt; nia].
Qed.

Lemma digits_app_leb n x y l k :
  0 ≤ x < 10 ^ Z.of_nat n → 0 ≤ y < 10 ^ Z.of_nat n →
  bytes_leb (digits n x ++ l) (digits n y ++ k) = (x <? y) || ((x =? y) && bytes_leb l k).
Proof.
  intros Hx Hy. rewrite bytes_leb_app_eqlen by by rewrite !length_digits.
  unfold bytes_ltb. rewrite digits_leb, Z.leb_antisym, negb_involutive by done. f_equal.
  f_equal. unfold eqb. destruct (Z.eqb_spec x y) as [->|Hne].
  - by rewrite bool_decide_true.
  - rewrite bool_decide_false; [done|]. intros He. by apply digits_inj in He.
Qed.

Lemma bytes_leb_cons c l k : bytes_leb (c :: l) (c :: k) = bytes_leb l k.
Proof. apply (bytes_leb_app [c]). Qed.

Lemma rfc3339_of_unix_inj s u : rfc3339_of_unix s = rfc3339_of_unix u → s = u.
Proof.
  rewrite !rfc3339_split. intros He.
  apply app_inj_2 in He as [Hy Ht]; [|by rewrite !length_rfc3339_tail].
  apply append_int_inj in Hy. unfold rfc3339_tail in Ht.
  pose proof (civil_month_range (s / 86400)). pose proof (civil_month_range (u / 86400)).
  pose proof (civil_day_range (s / 86400)). pose proof (civil_day_range (u / 86400)).
  pose proof (clock_ranges s) as Hs. pose proof (clock_ranges u) as Hu. simpl in Hs, Hu.
  repeat match goal with
  | H : [_] ++ _ = [_] ++ _ |- _ =>
      apply app_inj_1 in H as [_ H]; [|done]
  | H : digits 2 ?x ++ _ = digits 2 ?y ++ _ |- _ =>
      let E := fresh in apply app_inj_1 in H as [E H]; [|by rewrite !length_digits];
      apply digits_inj in E; [|change (10 ^ Z.of_nat 2) with 100; lia..]
  end.
  assert (s / 86400 = u / 86400) as Hz.
  { destruct (Z.lt_trichotomy (s / 86400) (u / 86400)) as [Hlt|[Heq|Hlt]]; [|done|];
      apply civil_order in Hlt; rewrite !month_index_civil in Hlt; lia. }
  Z.to_euclidean_division_equations. lia.
Qed.

Lemma rfc3339_inj t u : rfc3339 t = rfc3339 u → t_sec t = t_sec u.
Proof.
  unfold rfc3339, unix_seconds. intros H%rfc3339_of_unix_inj. lia.
Qed.

(** The years Go's RFC 3339 rendering writes with four digits. *)
Definition four_digit_year (s : Z) : Prop := 0 ≤ civil_year (s / 86400) < 10000.

Lemma rfc3339_lt s u :
  s < u → four_digit_year s → four_digit_year u →
  bytes_leb (rfc3339_of_unix s) (rfc3339_of_unix u) = true.
Proof.
  intros Hlt Hs Hu. unfold four_digit_year in *. rewrite !rfc3339_split.
  rewrite !(append_int_small _ 4) by (try done; lia).
  rewrite digits_app_leb by (change (10 ^ Z.of_nat 4) with 10000; lia).
  unfold rfc3339_tail. cbn [app].
  pose proof (civil_month_range (s / 86400)). pose proof (civil_month_range (u / 86400)).
  pose proof (civil_day_range (s / 86400)). pose proof (civil_day_range (u / 86400)).
  pose proof (clock_ranges s) as Hcs. pose proof (clock_ranges u) as Hcu. simpl in Hcs, Hcu.
  repeat first [rewrite bytes_leb_cons
               |rewrite digits_app_leb by (change (10 ^ Z.of_nat 2) with 100; lia)].
  cbn [bytes_leb].
  assert (s / 86400 < u / 86400 ∨ (s / 86400 = u / 86400 ∧ s mod 86400 < u mod 86400)) as [Hd|[Hd Hm]]
    by (Z.to_euclidean_division_equations; lia).
  - apply civil_order in Hd. rewrite !month_index_civil in Hd.
    assert (civil_year (s / 86400) < civil_year (u / 86400)
      ∨ (civil_year (s / 86400) = civil_year (u / 86400)
         ∧ (civil_month (s / 86400) < civil_month (u / 86400)
            ∨ (civil_month (s / 86400) = civil_month (u / 86400)
               ∧ civil_day (s / 86400) < civil_day (u / 86400))))) as Hlex by lia.
    repeat rewrite ?orb_true_iff, ?andb_true_iff, ?Z.ltb_lt, ?Z.eqb_eq. tauto.
  - rewrite Hd.
    assert (s mod 86400 / 3600 < u mod 86400 / 3600
      ∨ (s mod 86400 / 3600 = u mod 86400 / 3600
         ∧ (s mod 86400 mod 3600 / 60 < u mod 86400 mod 3600 / 60
            ∨ (s mod 86400 mod 3600 / 60 = u mod 86400 mod 3600 / 60
               ∧ s mod 86400 mod 60 < u mod 86400 mod 60)))) as Hlex
      by (revert Hm; generalize (s mod 86400), (u mod 86400); intros;
          Z.to_euclidean_division_equations; lia).
    repeat rewrite ?orb_true_iff, ?andb_true_iff, ?Z.ltb_lt, ?Z.eqb_eq. tauto.
Qed.

(** For four-digit years the text of two times orders as the seconds do. *)
Lemma rfc3339_leb s u :
  four_digit_year s → four_digit_year u →
  bytes_leb (rfc3339_of_unix s) (rfc3339_of_unix u) = (s <=? u).
Proof.
  intros Hs Hu. destruct (Z.leb_spec s u) as [Hle|Hlt].
  - destruct (Z.eq_dec s u) as [->|]; [apply bytes_le_refl|]. apply rfc3339_lt; lia || done.
  - apply not_true_iff_false. intros Hc.
    pose proof (rfc3339_lt u s Hlt Hu Hs) as Hc'.
    pose proof (bytes_le_antisymm _ _ Hc Hc') as He. apply rfc3339_of_unix_inj in He. lia.
Qed.

Lemma rfc3339_length t : four_digit_year (unix_seconds t) → length (rfc3339 t) = 20%nat.
Proof.
  intros H. unfold rfc3339, four_digit_year in *. rewrite rfc3339_split.
  rewrite append_int_small by (try done; lia).
  by rewrite length_app, length_digits, length_rfc3339_tail.
Qed.

(** Every representable time renders in fewer than 100 bytes. *)
Lemma rfc3339_short t : - 2 ^ 63 ≤ t_sec t < 2 ^ 63 → zlen (rfc3339 t) < 100.
Proof.
  intros Ht. unfold rfc3339. rewrite rfc3339_split. unfold zlen.
  rewrite length_app, length_rfc3339_tail. unfold append_int.
  set (y := civil_year _).
  assert (Z.abs y < 10 ^ Z.of_nat 20) as Hy.
  { unfold y, civil_year, march_year, era_of, unix_seconds, unix_to_internal.
    pose proof (Z.mod_pos_bound ((t_sec t - 62135596800) / 86400 + 719468) 146097 ltac:(lia)) as H.
    fold (day_of_era ((t_sec t - 62135596800) / 86400)) in H.
    pose proof (year_of_era_spec _ H) as Hs. simpl in Hs.
    change (10 ^ Z.of_nat 20) with 100000000000000000000.
    destruct (_ <=? 2); Z.to_euclidean_division_equations; lia. }
  rewrite length_app, length_digits.
  pose proof (num_digits_small (Z.abs y) 20 ltac:(lia) ltac:(lia)).
  destruct (y <? 0); simpl; lia.
Qed.

Example rfc3339_epoch : rfc3339 (time_unix 0) = lit "1970-01-01T00:00:00Z".
Proof. vm_compute. reflexivity. Qed.
Example rfc3339_leap : rfc3339 (time_unix 1709251199) = lit "2024-02-29T23:59:59Z".
Proof. vm_compute. reflexivity. Qed.
Example rfc3339_zero : rfc3339 (mkTime 0 0 None 0) = lit "0001-01-01T00:00:00Z".
Proof. vm_compute. reflexivity. Qed.

(** ** Adding and subtracting durations *)

(** Times within some 146 billion years of year 1, where seconds do not overflow. *)
Definition time_sane (t : Time) : Prop := time_wf t ∧ - 2 ^ 62 ≤ t_sec t < 2 ^ 62.

Lemma add_sec_small s d : - 2 ^ 62 ≤ s < 2 ^ 62 → - 2 ^ 62 ≤ d < 2 ^ 62 → add_sec s d = s + d.
Proof.
  intros Hs Hd. unfold add_sec. rewrite i64_small by lia.
  destruct (Z.ltb_spec s (s + d)), (Z.ltb_spec 0 d); simpl; lia.
Qed.

Lemma time_add_instant t d :
  time_sane t → - 2 ^ 63 ≤ d < 2 ^ 63 →
  instant (time_add t d) = instant t + d ∧ time_wf (time_add t d).
Proof.
  unfold time_sane, time_wf, instant, time_add, second. intros [[_ Hn] Hs] Hd.
  pose proof (Z.quot_rem' d 1000000000) as E.
  assert (- 1000000000 < Z.rem d 1000000000 < 1000000000) as Hr
    by (Z.to_euclidean_division_equations; lia).
  set (q := Z.quot d 1000000000) in *. set (r := Z.rem d 1000000000) in *.
  assert (- 2 ^ 61 ≤ q < 2 ^ 61) as Hq by lia.
  destruct (Z.leb_spec 1000000000 (t_nsec t + r)); [|destruct (Z.ltb_spec (t_nsec t + r) 0)];
    cbn [t_sec t_nsec]; rewrite add_sec_small by lia; lia.
Qed.

Lemma i64_mod_eq x y : x mod 2 ^ 64 = y mod 2 ^ 64 → i64 x = i64 y.
Proof. intros E. unfold i64. by rewrite (Z.add_mod x), (Z.add_mod y), E by lia. Qed.
Lemma i64_mod x : i64 x mod 2 ^ 64 = x mod 2 ^ 64.
Proof.
  unfold i64. rewrite Zminus_mod, Z.mod_mod, <- Zminus_mod by lia. f_equal. lia.
Qed.

Lemma time_equal_instant t u :
  time_wf t → time_wf u → t_mono t = None ∨ t_mono u = None → time_equal t u = (instant t =? instant u).
Proof.
  unfold time_wf, time_equal, instant, second. intros Ht Hu Hm.
  assert ((t_sec t =? t_sec u) && (t_nsec t =? t_nsec u)
          = (t_sec t * 1000000000 + t_nsec t =? t_sec u * 1000000000 + t_nsec u)) as Hb.
  { destruct (Z.eqb_spec (t_sec t) (t_sec u)), (Z.eqb_spec (t_nsec t) (t_nsec u)); simpl; symmetry;
      first [apply Z.eqb_eq; lia | apply Z.eqb_neq; lia]. }
  destruct (t_mono t), (t_mono u); naive_solver.
Qed.

(** [Sub] is the difference of the instants, saturated at the ends. *)
Lemma time_sub_clamp t u :
  time_sane t → time_sane u → t_mono t = None ∨ t_mono u = None →
  time_sub t u = Z.max min_duration (Z.min max_duration (instant t - instant u)).
Proof.
  intros Ht Hu Hm. unfold time_sub.
  set (d := i64 (i64 (i64 (t_sec t - t_sec u) * second) + (t_nsec t - t_nsec u))).
  pose proof (i64_range (i64 (i64 (t_sec t - t_sec u) * second) + (t_nsec t - t_nsec u))) as Hd. fold d in Hd.
  assert (d = i64 (instant t - instant u)) as Ed.
  { apply i64_mod_eq. unfold instant. rewrite Z.add_mod, i64_mod, <- Z.add_mod by lia.
    f_equal. destruct Ht as [_ ?], Hu as [_ ?]. rewrite (i64_small (t_sec t - t_sec u)) by lia. lia. }
  assert ((if time_equal (time_add u d) t then d else if before t u then min_duration else max_duration)
          = Z.max min_duration (Z.min max_duration (instant t - instant u))) as Hgoal.
  { destruct (time_add_instant u d Hu Hd) as [Ei Hwf].
    assert (t_mono (time_add u d) = None ∨ t_mono t = None) as Hm2.
    { destruct Hm as [?|Hm]; [by right|left]. unfold time_add. rewrite Hm. by repeat case_match. }
    rewrite time_equal_instant by (done || apply Ht). rewrite Ei.
    rewrite before_instant by (apply Ht || apply Hu || done). unfold min_duration, max_duration.
    destruct (Z.eqb_spec (instant u + d) (instant t)); [lia|].
    assert (¬ (- 2 ^ 63 ≤ instant t - instant u < 2 ^ 63)).
    { intros Hr. apply n. rewrite Ed, i64_small by done. lia. }
    destruct (Z.ltb_spec (instant t) (instant u)); lia. }
  destruct (t_mono t), (t_mono u); try exact Hgoal. by destruct Hm.
Qed.
