(* ===== verification/Sha256.v ===== *)
(** * SHA-256 and HMAC (crypto/sha256, crypto/hmac)

    The hash of FIPS 180-4 and the keyed hash of RFC 2104, as Go's standard
    library computes them, executable so that ids and keys can be evaluated. *)

From S2P Require Import Prelude GoStr.

Definition k256 : list Z :=
  [1116352408; 1899447441; 3049323471; 3921009573; 961987163; 1508970993;
   2453635748; 2870763221; 3624381080; 310598401; 607225278; 1426881987;
   1925078388; 2162078206; 2614888103; 3248222580; 3835390401; 4022224774;
   264347078; 604807628; 770255983; 1249150122; 1555081692; 1996064986;
   2554220882; 2821834349; 2952996808; 3210313671; 3336571891; 3584528711;
   113926993; 338241895; 666307205; 773529912; 1294757372; 1396182291;
   1695183700; 1986661051; 2177026350; 2456956037; 2730485921; 2820302411;
   3259730800; 3345764771; 3516065817; 3600352804; 4094571909; 275423344;
   430227734; 506948616; 659060556; 883997877; 958139571; 1322822218;
   1537002063; 1747873779; 1955562222; 2024104815; 2227730452; 2361852424;
   2428436474; 2756734187; 3204031479; 3329325298].

Definition h256 : list Z :=
  [1779033703; 3144134277; 1013904242; 2773480762; 1359893119; 2600822924; 528734635; 1541459225].

Definition mask32 : Z := 4294967295.
Definition rotr (n x : Z) : Z :=
  Z.lor (Z.shiftr x n) (Z.land (Z.shiftl x (32 - n)) mask32).
Definition add32 (x y : Z) : Z := Z.land (x + y) mask32.

Definition small_sigma0 (x : Z) : Z := Z.lxor (rotr 7 x) (Z.lxor (rotr 18 x) (Z.shiftr x 3)).
Definition small_sigma1 (x : Z) : Z := Z.lxor (rotr 17 x) (Z.lxor (rotr 19 x) (Z.shiftr x 10)).
Definition big_sigma0 (x : Z) : Z := Z.lxor (rotr 2 x) (Z.lxor (rotr 13 x) (rotr 22 x)).
Definition big_sigma1 (x : Z) : Z := Z.lxor (rotr 6 x) (Z.lxor (rotr 11 x) (rotr 25 x)).
Definition choice (x y z : Z) : Z := Z.lxor (Z.land x y) (Z.land (Z.lxor x mask32) z).
Definition majority (x y z : Z) : Z := Z.lxor (Z.land x y) (Z.lxor (Z.land x z) (Z.land y z)).

(** The message schedule: [n] words, from a window of the sixteen next ones. *)
Fixpoint schedule (n : nat) (w : list Z) : list Z :=
  match n, w with
  | S n', w0 :: w' =>
    let x := add32 (add32 (small_sigma1 (w !!! 14%nat)) (w !!! 9%nat))
               (add32 (small_sigma0 (w !!! 1%nat)) w0) in
    w0 :: schedule n' (w' ++ [x])
  | _, _ => []
  end.

Definition round (s : list Z) (kw : Z * Z) : list Z :=
  match s with
  | [a; b; c; d; e; f; g; h] =>
    let t1 := add32 (add32 (add32 h (big_sigma1 e)) (choice e f g)) (add32 kw.1 kw.2) in
    let t2 := add32 (big_sigma0 a) (majority a b c) in
    [add32 t1 t2; a; b; c; add32 d t1; e; f; g]
  | _ => s
  end.

Fixpoint chunks (fuel : nat) (n : nat) (s : bytes) : list bytes :=
  match fuel with
  | O => []
  | S f => match s with [] => [] | _ => take n s :: chunks f n (drop n s) end
  end.

Definition compress (h : list Z) (block : bytes) : list Z :=
  let w := schedule 64 (be_value <$> chunks 16 4 block) in
  zip_with add32 h (foldl round h (zip k256 w)).

Definition sha_pad (s : bytes) : bytes :=
  let z := Z.to_nat ((55 - zlen s) mod 64) in
  s ++ [128] ++ replicate z 0 ++ be_bytes 8 (8 * zlen s).

Definition sha256 (s : bytes) : bytes :=
  let p := sha_pad s in
  mjoin (be_bytes 4 <$> foldl compress h256 (chunks (length p) 64 p)).

Lemma sha256_is_bytes s : is_bytes (sha256 s).
Proof.
  unfold sha256. generalize (foldl compress h256 (chunks (length (sha_pad s)) 64 (sha_pad s))).
  intros l. induction l as [|x l IH]; [constructor|]. rewrite fmap_cons, mjoin_cons.
  apply Forall_app. split; [apply be_bytes_is_bytes|done].
Qed.

Lemma length_round s kw : length (round s kw) = length s.
Proof. do 9 (destruct s as [|? s]; try done). Qed.

Lemma length_compress h b : length h = 8%nat → length (compress h b) = 8%nat.
Proof.
  intros Hh. unfold compress. rewrite length_zip_with.
  assert (∀ l s, length (foldl round s l) = length s) as Hf.
  { induction l as [|x l IH]; intros s; [done|]. simpl. by rewrite IH, length_round. }
  rewrite Hf. lia.
Qed.

Lemma length_sha256 s : length (sha256 s) = 32%nat.
Proof.
  unfold sha256. set (p := sha_pad s). generalize (chunks (length p) 64 p). intros l.
  assert (length (foldl compress h256 l) = 8%nat) as Hl.
  { assert (length h256 = 8%nat) as Hh by done. revert Hh. generalize h256.
    induction l as [|b l IH]; intros h Hh; [done|]. apply IH. by apply length_compress. }
  assert (∀ k : list Z, length (mjoin (be_bytes 4 <$> k)) = (4 * length k)%nat) as Hk.
  { induction k as [|x k IH]; [done|]. rewrite fmap_cons, mjoin_cons.
    rewrite length_app, length_be_bytes, IH. simpl. lia. }
  by rewrite Hk, Hl.
Qed.

(** [hmac.New(sha256.New, key)], written with [msg], [Sum(nil)]. *)
Definition hmac_sha256 (key msg : bytes) : bytes :=
  let k := if 64 <? zlen key then sha256 key else key in
  let k := k ++ replicate (64 - length k) 0 in
  sha256 ((Z.lxor 92 <$> k) ++ sha256 ((Z.lxor 54 <$> k) ++ msg)).

Lemma length_hmac key msg : length (hmac_sha256 key msg) = 32%nat.
Proof. apply length_sha256. Qed.
Lemma hmac_is_bytes key msg : is_bytes (hmac_sha256 key msg).
Proof. apply sha256_is_bytes. Qed.

(** The vectors of FIPS 180-4 and RFC 4231. *)
Example sha256_abc :
  hex_encode (sha256 (lit "abc")) =
  lit "ba7816bf8f01cfea414140de5dae2223b00361a396177a9cb410ff61f20015ad".
Proof. vm_compute. reflexivity. Qed.
Example sha256_two_blocks :
  hex_encode (sha256 (lit "abcdbcdecdefdefgefghfghighijhijkijkljklmklmnlmnomnopnopq")) =
  lit "248d6a61d20638b8e5c026930c3e6039a33ce45964ff2167f6ecedd419db06c1".
Proof. vm_compute. reflexivity. Qed.
Example hmac_case2 :
  hex_encode (hmac_sha256 (lit "Jefe") (lit "what do ya want for nothing?")) =
  lit "5bdcc146bf60754e6a042426089575c75a003f089d2739839dec58b964ec3843".
Proof. vm_compute. reflexivity. Qed.
