(* ===== verification/Bech32m.v ===== *)
(** * pkg/address/bech32m.go: the bech32m checksum and codec

    [polymod] is the BIP-350 checksum register.  It is linear over GF(2), which
    gives the two facts the addresses rest on: that the checksum
    [createChecksum] appends is the one [verifyChecksum] accepts and, in the
    second half of the file, that altered words are not. *)

From S2P Require Import Prelude GoStr.
From Stdlib Require Import Btauto.

Definition charset : bytes := lit "qpzry9x8gf2tvdw0s3jn54khce6mua7l".
Definition bech32mConst : Z := 734539939.
Definition generator : list Z := [996825010; 642813549; 513874426; 1027748829; 705979059].

(** The loop body of [polymod]. *)
Definition polymod_step (chk v : Z) : Z :=
  let b := Z.shiftr chk 25 in
  let chk := Z.lxor (Z.shiftl (Z.land chk 33554431) 5) v in
  foldl (λ chk ig, if Z.land (Z.shiftr b ig.1) 1 =? 1 then Z.lxor chk ig.2 else chk)
    chk (zip [0; 1; 2; 3; 4] generator).
Definition polymod (values : list Z) : Z := foldl polymod_step 1 values.

Definition hrpExpand (hrp : bytes) : list Z :=
  ((λ c, Z.shiftr c 5) <$> runes hrp) ++ [0] ++ ((λ c, Z.land c 31) <$> runes hrp).

Definition verifyChecksum (hrp : bytes) (data : list Z) : bool :=
  polymod (hrpExpand hrp ++ data) =? bech32mConst.

Definition createChecksum (hrp : bytes) (data : list Z) : list Z :=
  let mod_ := Z.lxor (polymod (hrpExpand hrp ++ data ++ [0; 0; 0; 0; 0; 0])) bech32mConst in
  (λ i, Z.land (Z.shiftr mod_ (5 * (5 - i))) 31) <$> [0; 1; 2; 3; 4; 5].

(** [charset[v]]; the callers keep [v] below 32. *)
Definition charset_at (v : Z) : Z := charset !!! Z.to_nat v.

Definition EncodeBech32m (hrp : bytes) (data : list Z) : res string bytes :=
  _ ← guard_err (forallb (in_range 33 126) (runes hrp))
        "bech32m: invalid character in human-readable part";
  _ ← guard_err (forallb (in_range 0 31) data) "bech32m: data value out of range";
  let combined := data ++ createChecksum hrp data in
  let result := hrp ++ [49] ++ (charset_at <$> combined) in
  if 90 <? zlen result
  then Err "bech32m: encoded string exceeds maximum length of 90"
  else Ok result.

(** [strings.LastIndex(s, "1")], splitting the string there. *)
Fixpoint split_last (c : Z) (s : bytes) : option (bytes * bytes) :=
  match s with
  | [] => None
  | b :: s' => match split_last c s' with
               | Some (x, y) => Some (b :: x, y)
               | None => if b =? c then Some ([], s') else None
               end
  end.

Definition DecodeBech32m `{!UnicodeCase} (s : bytes) : res string (bytes * list Z) :=
  _ ← guard_err (negb ((zlen s <? 8) || (90 <? zlen s))) "bech32m: invalid length";
  let lower := strings_ToLower s in
  let upper := strings_ToUpper s in
  _ ← guard_err (negb (negb (s =?b lower) && negb (s =?b upper)))
        "bech32m: mixed case is not allowed";
  match split_last 49 lower with
  | None => Err "bech32m: invalid separator position"
  | Some (hrp, dataPart) =>
    _ ← guard_err (negb ((zlen hrp <? 1) || (zlen lower <? zlen hrp + 7)))
          "bech32m: invalid separator position";
    _ ← guard_err (forallb (in_range 33 126) (runes hrp))
          "bech32m: invalid character in human-readable part";
    values ← from_option (mapM (λ c, index_of c charset) (runes dataPart))
               "bech32m: invalid data character";
    _ ← guard_err (verifyChecksum hrp values) "bech32m: invalid checksum";
    Ok (hrp, take (length values - 6) values)
  end.

(** ** The checksum register is linear *)

Definition sel (b : bool) (g : Z) : Z := if b then g else 0.
Definition lin (x : Z) : Z :=
  Z.lxor (Z.shiftl (Z.land x 33554431) 5)
    (foldr Z.lxor 0
       (zip_with (λ i g, sel (Z.testbit x (25 + i)) g) [0; 1; 2; 3; 4] generator)).

Lemma sel_xorb a b g : sel (xorb a b) g = Z.lxor (sel a g) (sel b g).
Proof. destruct a, b; simpl; by rewrite ?Z.lxor_nilpotent, ?Z.lxor_0_l, ?Z.lxor_0_r. Qed.

Lemma if_lxor (b : bool) x g : (if b then Z.lxor x g else x) = Z.lxor x (sel b g).
Proof. destruct b; simpl; by rewrite ?Z.lxor_0_r. Qed.

(** Decide an identity of [Z.lxor] terms bit by bit. *)
Ltac xor_solve :=
  apply Z.bits_inj'; intros ?n ?Hn;
  repeat rewrite ?Z.lxor_spec, ?Z.bits_0; btauto.

Lemma land1_testbit x i :
  0 ≤ i → (Z.land (Z.shiftr (Z.shiftr x 25) i) 1 =? 1) = Z.testbit x (25 + i).
Proof.
  intros Hi. change 1 with (Z.ones 1) at 1. rewrite Z.land_ones by lia.
  rewrite Z.shiftr_shiftr, <- Z.bit0_mod, Z.shiftr_spec by lia.
  rewrite Z.add_0_l. destruct (Z.testbit x (25 + i)); done.
Qed.

Lemma polymod_step_lin x v : polymod_step x v = Z.lxor (lin x) v.
Proof.
  unfold polymod_step, lin. cbn [zip zip_with generator foldl foldr fst snd].
  rewrite !land1_testbit by lia. rewrite !if_lxor. xor_solve.
Qed.

Lemma lin_lxor x y : lin (Z.lxor x y) = Z.lxor (lin x) (lin y).
Proof.
  unfold lin. cbn [zip_with generator foldr]. rewrite !Z.lxor_spec, !sel_xorb.
  replace (Z.shiftl (Z.land (Z.lxor x y) 33554431) 5)
    with (Z.lxor (Z.shiftl (Z.land x 33554431) 5) (Z.shiftl (Z.land y 33554431) 5)).
  { xor_solve. }
  rewrite <- Z.shiftl_lxor. f_equal. apply Z.bits_inj'. intros n Hn.
  rewrite ?Z.lxor_spec, ?Z.land_spec, ?Z.lxor_spec. btauto.
Qed.

Definition run (c : Z) (vs : list Z) : Z := foldl polymod_step c vs.

Lemma run_app c vs ws : run c (vs ++ ws) = run (run c vs) ws.
Proof. apply foldl_app. Qed.

Lemma run_lxor c d vs ws :
  length vs = length ws →
  run (Z.lxor c d) (zip_with Z.lxor vs ws) = Z.lxor (run c vs) (run d ws).
Proof.
  revert c d ws. induction vs as [|v vs IH]; intros c d [|w ws] Hlen; simplify_eq/=; [done|].
  rewrite <- IH by done. f_equal. rewrite !polymod_step_lin, lin_lxor. xor_solve.
Qed.

Lemma lxor_bound n a b : 0 ≤ n → 0 ≤ a < 2 ^ n → 0 ≤ b < 2 ^ n → 0 ≤ Z.lxor a b < 2 ^ n.
Proof.
  intros Hn Ha Hb. assert (0 ≤ Z.lxor a b) as H0 by (apply Z.lxor_nonneg; lia).
  split; [done|]. destruct (Z.eq_dec (Z.lxor a b) 0) as [->|Hz]; [lia|].
  apply Z.log2_lt_pow2; [lia|]. eapply Z.le_lt_trans; [apply Z.log2_lxor; lia|].
  apply Z.max_lub_lt.
  - destruct (Z.eq_dec a 0) as [->|]; [|apply Z.log2_lt_pow2; lia].
    simpl. destruct (Z.eq_dec n 0) as [->|]; [|lia]. change (2 ^ 0) with 1 in *.
    assert (b = 0) by lia. subst. done.
  - destruct (Z.eq_dec b 0) as [->|]; [|apply Z.log2_lt_pow2; lia].
    simpl. destruct (Z.eq_dec n 0) as [->|]; [|lia]. change (2 ^ 0) with 1 in *.
    assert (a = 0) by lia. subst. done.
Qed.

Lemma lin_bound x : 0 ≤ lin x < 2 ^ 30.
Proof.
  assert (∀ b g, 0 ≤ g < 2 ^ 30 → 0 ≤ sel b g < 2 ^ 30) as Hsel.
  { intros [] g Hg; simpl; lia. }
  unfold lin. cbn [zip_with generator foldr].
  repeat (apply lxor_bound; [lia| |]); try (apply Hsel; lia); try lia.
  change 33554431 with (Z.ones 25). rewrite Z.land_ones, Z.shiftl_mul_pow2 by lia.
  pose proof (Z.mod_pos_bound x (2 ^ 25)). lia.
Qed.

Lemma run_bound c vs :
  0 ≤ c < 2 ^ 30 → Forall (λ v, 0 ≤ v < 2 ^ 30) vs → 0 ≤ run c vs < 2 ^ 30.
Proof.
  intros Hc Hvs. revert c Hc. induction Hvs as [|v vs Hv Hvs IH]; intros c Hc; [done|].
  apply IH. rewrite polymod_step_lin. apply lxor_bound; [lia|apply lin_bound|done].
Qed.

(** While the register is short, a step only shifts the symbol in. *)
Lemma step_short x v : 0 ≤ x < 2 ^ 25 → 0 ≤ v < 32 → polymod_step x v = 32 * x + v.
Proof.
  intros Hx Hv. rewrite polymod_step_lin. unfold lin. cbn [zip_with generator foldr].
  assert (∀ i, 0 ≤ i → Z.testbit x (25 + i) = false) as Hb.
  { intros i Hi. rewrite <- (Z.mod_small x (2 ^ 25)) by lia.
    apply Z.mod_pow2_bits_high. lia. }
  rewrite !Hb by lia. simpl sel. rewrite !Z.lxor_0_r.
  change 33554431 with (Z.ones 25). rewrite Z.land_ones, Z.mod_small by lia.
  rewrite <- Z.add_nocarry_lxor.
  - rewrite Z.shiftl_mul_pow2 by lia. lia.
  - apply Z.bits_inj'. intros n Hn. rewrite Z.land_spec, Z.bits_0.
    destruct (Z.lt_ge_cases n 5).
    + rewrite Z.shiftl_spec_low by lia. done.
    + rewrite <- (Z.mod_small v (2 ^ 5)) by lia.
      rewrite Z.mod_pow2_bits_high by lia. apply andb_false_r.
Qed.

Definition is_sym (v : Z) : Prop := 0 ≤ v < 32.

Lemma run_six w0 w1 w2 w3 w4 w5 :
  is_sym w0 → is_sym w1 → is_sym w2 → is_sym w3 → is_sym w4 → is_sym w5 →
  run 0 [w0; w1; w2; w3; w4; w5] =
  32 * (32 * (32 * (32 * (32 * w0 + w1) + w2) + w3) + w4) + w5.
Proof.
  unfold is_sym. intros. unfold run. cbn [foldl].
  rewrite (step_short 0 w0) by lia. rewrite (step_short _ w1) by lia.
  rewrite (step_short _ w2) by lia. rewrite (step_short _ w3) by lia.
  rewrite (step_short _ w4) by lia. rewrite (step_short _ w5) by lia. lia.
Qed.

Lemma run_checksum c w0 w1 w2 w3 w4 w5 :
  run c [w0; w1; w2; w3; w4; w5] =
  Z.lxor (run c [0; 0; 0; 0; 0; 0]) (run 0 [w0; w1; w2; w3; w4; w5]).
Proof.
  rewrite <- run_lxor by done. cbn [zip_with]. by rewrite Z.lxor_0_r, !Z.lxor_0_l.
Qed.

(** ** What [createChecksum] appends is what [verifyChecksum] accepts *)

Lemma hrpExpand_bound hrp :
  Forall (λ c, 0 ≤ c < 2 ^ 21) (runes hrp) → Forall (λ v, 0 ≤ v < 2 ^ 30) (hrpExpand hrp).
Proof.
  intros H. unfold hrpExpand. rewrite !Forall_app, !Forall_fmap. repeat split.
  - eapply Forall_impl; [done|]. unfold compose. intros c Hc.
    rewrite Z.shiftr_div_pow2 by lia. Z.to_euclidean_division_equations. lia.
  - by repeat constructor.
  - eapply Forall_impl; [done|]. unfold compose. intros c Hc.
    change 31 with (Z.ones 5). rewrite Z.land_ones by lia.
    pose proof (Z.mod_pos_bound c (2 ^ 5)). lia.
Qed.

Lemma createChecksum_length hrp data : length (createChecksum hrp data) = 6%nat.
Proof. done. Qed.

Lemma createChecksum_syms hrp data : Forall is_sym (createChecksum hrp data).
Proof.
  unfold createChecksum. rewrite Forall_fmap. apply Forall_true. intros i. unfold compose, is_sym.
  change 31 with (Z.ones 5). rewrite Z.land_ones by lia. apply Z.mod_pos_bound. lia.
Qed.

Lemma verify_createChecksum hrp data :
  Forall (λ c, 0 ≤ c < 2 ^ 21) (runes hrp) → Forall is_sym data →
  verifyChecksum hrp (data ++ createChecksum hrp data) = true.
Proof.
  intros Hh Hd. unfold verifyChecksum, createChecksum, polymod.
  fold (run 1 (hrpExpand hrp ++ data ++ [0; 0; 0; 0; 0; 0])).
  rewrite !(assoc_L (++)). set (pre := hrpExpand hrp ++ data).
  assert (0 ≤ run 1 pre < 2 ^ 30) as Hpre.
  { apply run_bound; [lia|]. apply Forall_app. split; [by apply hrpExpand_bound|].
    eapply Forall_impl; [done|]. unfold is_sym. lia. }
  rewrite run_app. cbn [fmap list_fmap].
  set (z := run (run 1 pre) [0; 0; 0; 0; 0; 0]).
  assert (0 ≤ z < 2 ^ 30) as Hz by (apply run_bound; [done|by repeat constructor]).
  set (m := Z.lxor z bech32mConst).
  assert (0 ≤ m < 2 ^ 30) as Hm by (apply lxor_bound; [lia..|unfold bech32mConst; lia]).
  change 31 with (Z.ones 5). rewrite !Z.land_ones, !Z.shiftr_div_pow2 by lia.
  fold (run 1 (pre ++ [m / 2 ^ (5 * (5 - 0)) mod 2 ^ 5; m / 2 ^ (5 * (5 - 1)) mod 2 ^ 5;
     m / 2 ^ (5 * (5 - 2)) mod 2 ^ 5; m / 2 ^ (5 * (5 - 3)) mod 2 ^ 5;
     m / 2 ^ (5 * (5 - 4)) mod 2 ^ 5; m / 2 ^ (5 * (5 - 5)) mod 2 ^ 5])).
  rewrite run_app, run_checksum. fold z.
  rewrite run_six by (unfold is_sym; apply Z.mod_pos_bound; lia).
  apply Z.eqb_eq. trans (Z.lxor z m); [f_equal; Z.to_euclidean_division_equations; lia|].
  unfold m. rewrite <- Z.lxor_assoc, Z.lxor_nilpotent. apply Z.lxor_0_l.
Qed.

(** ** The error detection of pkg/address's checksum

    A word of at most 21 symbols that [verifyChecksum] accepts is at Hamming
    distance at least five from every other accepted word of its length: up to
    four mistyped symbols of an id are always noticed.  The register being
    linear, this is a statement about the columns of its parity check, reduced
    to the distinctness of twenty small tables. *)

From Stdlib Require Import Btauto.

(** ** Columns of the parity check

    An error symbol [v] followed by [m] further symbols adds [Lm m v] to the
    register; the last symbol of a word only reaches the low five bits, which
    [col] drops. *)

Definition Lm (m : nat) (v : Z) : Z := Nat.iter m lin v.
Definition col (m : nat) (v : Z) : Z := Z.shiftr (Lm m v) 5.

Lemma Lm_lxor m x y : Lm m (Z.lxor x y) = Z.lxor (Lm m x) (Lm m y).
Proof. induction m as [|m IH]; [done|]. unfold Lm in *. simpl. by rewrite IH, lin_lxor. Qed.

Lemma lin_0 : lin 0 = 0.
Proof. done. Qed.

Lemma run_zeros c n : run c (replicate n 0) = Lm n c.
Proof.
  revert c. induction n as [|n IH]; intros c; [done|].
  cbn [replicate run foldl]. fold (run (polymod_step c 0) (replicate n 0)).
  rewrite IH, polymod_step_lin, Z.lxor_0_r. unfold Lm. by rewrite Nat.iter_succ_r.
Qed.

Lemma run_cons v e : run 0 (v :: e) = Z.lxor (Lm (length e) v) (run 0 e).
Proof.
  change (run 0 (v :: e)) with (run (polymod_step 0 v) e).
  rewrite polymod_step_lin, lin_0, Z.lxor_0_l, <- run_zeros.
  rewrite <- run_lxor by by rewrite length_replicate.
  rewrite Z.lxor_0_r. f_equal. clear. induction e as [|w e IH]; [done|].
  simpl. rewrite Z.lxor_0_l. by f_equal.
Qed.

(** The register never forgets: [lin] is injective on 30-bit states. *)
Lemma lin_ker x : 0 ≤ x < 2 ^ 30 → lin x = 0 → x = 0.
Proof.
  intros Hx H0.
  assert (∀ b, 0 ≤ b < 5 → Z.testbit (lin x) b = false) as Hlow by (intros; by rewrite H0, Z.bits_0).
  unfold lin in Hlow. cbn [zip_with generator foldr] in Hlow.
  pose proof (Hlow 0 ltac:(lia)) as B0. pose proof (Hlow 1 ltac:(lia)) as B1.
  pose proof (Hlow 2 ltac:(lia)) as B2. pose proof (Hlow 3 ltac:(lia)) as B3.
  pose proof (Hlow 4 ltac:(lia)) as B4. clear Hlow.
  repeat rewrite Z.lxor_spec in B0, B1, B2, B3, B4.
  rewrite Z.shiftl_spec_low in B0, B1, B2, B3, B4 by lia.
  assert (Z.testbit x (25 + 0) = false ∧ Z.testbit x (25 + 1) = false
          ∧ Z.testbit x (25 + 2) = false ∧ Z.testbit x (25 + 3) = false
          ∧ Z.testbit x (25 + 4) = false) as (T0 & T1 & T2 & T3 & T4).
  { revert B0 B1 B2 B3 B4.
    destruct (Z.testbit x (25 + 0)), (Z.testbit x (25 + 1)), (Z.testbit x (25 + 2)),
      (Z.testbit x (25 + 3)), (Z.testbit x (25 + 4)); vm_compute; naive_solver. }
  assert (Z.shiftl (Z.land x 33554431) 5 = 0) as Hs.
  { unfold lin in H0. cbn [zip_with generator foldr] in H0.
    rewrite T0, T1, T2, T3, T4 in H0. simpl sel in H0. by rewrite !Z.lxor_0_r in H0. }
  apply Z.shiftl_eq_0_iff in Hs; [|lia].
  change 33554431 with (Z.ones 25) in Hs. rewrite Z.land_ones in Hs by lia.
  assert (x / 2 ^ 25 = 0) as Hd.
  { rewrite <- Z.shiftr_div_pow2 by lia. apply Z.bits_inj'. intros n Hn.
    rewrite Z.shiftr_spec, Z.bits_0 by lia. replace (n + 25) with (25 + n) by lia.
    destruct (Z.lt_ge_cases n 5).
    - assert (n = 0 ∨ n = 1 ∨ n = 2 ∨ n = 3 ∨ n = 4) as Hc by lia.
      destruct Hc as [->|[->|[->|[->| ->]]]]; done.
    - rewrite <- (Z.mod_small x (2 ^ 30)) by lia. apply Z.mod_pow2_bits_high. lia. }
  pose proof (Z.div_mod x (2 ^ 25)). lia.
Qed.

(** ** Distinctness by radix partition *)

Fixpoint distinct (bits : nat) (l : list Z) : bool :=
  match l, bits with
  | [], _ | [_], _ => true
  | _, O => false
  | _, S b => distinct b (List.filter (λ x, Z.testbit x (Z.of_nat b)) l)
              && distinct b (List.filter (λ x, negb (Z.testbit x (Z.of_nat b))) l)
  end.

Lemma distinct_sound bits l : distinct bits l = true → NoDup l.
Proof.
  revert l. induction bits as [|b IH]; intros l; destruct l as [|x1 [|x2 l]]; cbn [distinct];
    try (by constructor; [set_solver|constructor]); try (intros; by constructor).
  set (l' := x1 :: x2 :: l). rewrite andb_true_iff. intros [H1 H2].
  apply IH in H1, H2. clear IH. revert H1 H2. generalize l'. clear.
  intros k. induction k as [|x k IHk]; [done|]. simpl.
  destruct (Z.testbit x (Z.of_nat b)) eqn:E; simpl.
  - rewrite NoDup_cons. intros [Hx H1] H2. constructor; [|by apply IHk].
    intros Hin. apply Hx. apply list_elem_of_In, filter_In. split; [by apply list_elem_of_In|done].
  - intros H1. rewrite NoDup_cons. intros [Hx H2]. constructor; [|by apply IHk].
    intros Hin. apply Hx. apply list_elem_of_In, filter_In.
    split; [by apply list_elem_of_In|]. by rewrite E.
Qed.

(** ** Eliminating one column

    [reduce] subtracts from a register value the combination of [basis] that
    clears its pivots; it is linear, and [echelon] makes it vanish on the span
    of the given vectors. *)

Definition reduce (basis : list (Z * Z)) (x : Z) : Z :=
  foldl (λ x pb, if Z.testbit x pb.1 then Z.lxor x pb.2 else x) x basis.
Definition echelon (vs : list Z) : list (Z * Z) :=
  foldl (λ basis v, let v' := reduce basis v in
                    if v' =? 0 then basis else basis ++ [(Z.log2 v', v')]) [] vs.

Lemma reduce_lxor basis x y :
  reduce basis (Z.lxor x y) = Z.lxor (reduce basis x) (reduce basis y).
Proof.
  revert x y. induction basis as [|[p b] basis IH]; intros x y; [done|].
  cbn [reduce foldl fst snd]. rewrite !if_lxor.
  change (foldl _ ?a basis) with (reduce basis a).
  rewrite <- IH. f_equal. rewrite Z.lxor_spec, sel_xorb. xor_solve.
Qed.

(** All columns of words of up to 21 symbols, each register stepped once. *)
Fixpoint cols_from (n k : nat) (w x : Z) : list (nat * Z * Z) :=
  match n with
  | O => []
  | S n' => (k, w, Z.shiftr x 5) :: cols_from n' (S k) w (lin x)
  end.
Definition table : list (nat * Z * Z) :=
  w ← Z.of_nat <$> seq 1 31; cols_from 20 1 w (lin w).

Lemma elem_of_cols_from n k w x k' w' c :
  x = Lm k w →
  (k', w', c) ∈ cols_from n k w x ↔ w' = w ∧ (k ≤ k' < k + n)%nat ∧ c = col k' w'.
Proof.
  revert k x. induction n as [|n IH]; intros k x Hx; simpl.
  { rewrite elem_of_nil. lia. }
  rewrite elem_of_cons, (IH (S k)) by (subst; done). split.
  - intros [Heq|(-> & ? & ->)]; simplify_eq; repeat split; lia.
  - intros (-> & ? & ->). destruct (decide (k' = k)) as [->|].
    + left. by subst.
    + right. repeat split; lia.
Qed.

Lemma elem_of_table k w c :
  (k, w, c) ∈ table ↔ (1 ≤ k ≤ 20)%nat ∧ 1 ≤ w < 32 ∧ c = col k w.
Proof.
  unfold table. rewrite list_elem_of_bind. split.
  - intros (v & Hc & Hv). apply elem_of_cols_from in Hc as (-> & ? & ->); [|done].
    apply list_elem_of_fmap in Hv as (i & -> & Hi%elem_of_seq). repeat split; lia.
  - intros (Hk & Hw & ->). exists w. split.
    + apply elem_of_cols_from; [done|]. repeat split; lia.
    + apply list_elem_of_fmap. exists (Z.to_nat w). rewrite elem_of_seq. lia.
Qed.

Definition check_column (t : list (nat * Z * Z)) (m : nat) : bool :=
  let mine := List.filter (λ x, Nat.eqb x.1.1 m) t in
  let B := echelon (snd <$> mine) in
  forallb (λ x, (reduce B x.2 =? 0) && negb (x.2 =? 0)) mine
  && distinct 25 (0 :: ((λ x, reduce B x.2) <$> List.filter (λ x, negb (Nat.eqb x.1.1 m)) t)).
Definition check_columns (t : list (nat * Z * Z)) : bool := forallb (check_column t) (seq 1 20).

Lemma check_columns_true : check_columns table = true.
Proof. vm_compute. reflexivity. Qed.

(** ** Sums of few columns *)

Definition colsum (l : list (nat * Z)) : Z :=
  foldr (λ kv a, Z.lxor (col kv.1 kv.2) a) 0 l.
Definition entry_ok (kv : nat * Z) : Prop := (1 ≤ kv.1 ≤ 20)%nat ∧ 1 ≤ kv.2 < 32.

(** What the check of column [m] says, as propositions. *)
Lemma check_columns_spec t m :
  check_columns t = true →
  (∀ k w c, (k, w, c) ∈ t ↔ (1 ≤ k ≤ 20)%nat ∧ 1 ≤ w < 32 ∧ c = col k w) →
  (1 ≤ m ≤ 20)%nat →
  ∃ B, (∀ v, entry_ok (m, v) → reduce B (col m v) = 0 ∧ col m v ≠ 0)
     ∧ (∀ k v, entry_ok (k, v) → k ≠ m → reduce B (col k v) ≠ 0)
     ∧ (∀ k v l w, entry_ok (k, v) → entry_ok (l, w) → k ≠ m → l ≠ m →
          reduce B (col k v) = reduce B (col l w) → (k, v) = (l, w)).
Proof.
  intros Hc Ht Hm. unfold check_columns in Hc. rewrite forallb_forall in Hc.
  specialize (Hc m ltac:(apply in_seq; lia)). unfold check_column in Hc.
  set (B := echelon _) in Hc. exists B. apply andb_true_iff in Hc as [Hmine Hd].
  rewrite forallb_forall in Hmine. apply distinct_sound, NoDup_cons in Hd as [H0 Hd].
  assert (∀ k v, entry_ok (k, v) → k ≠ m →
    (k, v, col k v) ∈ List.filter (λ x, negb (x.1.1 =? m)%nat) t) as Hin.
  { intros k v [Hk Hv] Hne. apply list_elem_of_In, filter_In. split.
    - apply list_elem_of_In, Ht. done.
    - simpl. apply negb_true_iff, Nat.eqb_neq. done. }
  split; [|split].
  - intros v [_ Hv]. specialize (Hmine (m, v, col m v)).
    rewrite andb_true_iff, negb_true_iff, Z.eqb_eq, Z.eqb_neq in Hmine. apply Hmine.
    apply filter_In. split; [apply list_elem_of_In, Ht; done|apply Nat.eqb_refl].
  - intros k v Hok Hne He. apply H0. rewrite <- He.
    apply (list_elem_of_fmap_2 (λ x : nat * Z * Z, reduce B x.2) _ (k, v, col k v)). by apply Hin.
  - intros k v l w Hk Hl Hkm Hlm He.
    assert ((k, v, col k v) = (l, w, col l w)) as Heq; [|by simplify_eq].
    eapply (NoDup_fmap_elem_inj (λ x : nat * Z * Z, reduce B x.2)); [done|by apply Hin..|done].
Qed.

Lemma small_colsum l :
  (length l ≤ 3)%nat → NoDup (fst <$> l) → Forall entry_ok l → colsum l = 0 → l = [].
Proof.
  intros Hlen Hnd Hok H0. destruct l as [|[m v] l]; [done|]. exfalso.
  apply Forall_cons in Hok as [Hm Hok]. apply NoDup_cons in Hnd as [Hml Hnd]. simpl in Hml.
  destruct (check_columns_spec table m check_columns_true elem_of_table)
    as (B & H1 & H2 & H3); [apply Hm|].
  destruct (H1 v Hm) as [Hr Hz]. cbn [colsum foldr fst snd] in H0.
  apply Z.lxor_eq in H0.
  destruct l as [|[k w] l]; [done|]. apply Forall_cons in Hok as [Hk Hok].
  apply (f_equal (reduce B)) in H0. rewrite Hr in H0. cbn [foldr fst snd] in H0.
  assert (k ≠ m) by set_solver. destruct l as [|[j u] l].
  { cbn [foldr] in H0. rewrite Z.lxor_0_r in H0. by apply (H2 k w). }
  destruct l; [|simpl in Hlen; lia]. cbn [foldr fst snd] in H0.
  rewrite Z.lxor_0_r, reduce_lxor in H0. symmetry in H0. apply Z.lxor_eq in H0.
  apply Forall_cons in Hok as [Hj _]. assert (j ≠ m ∧ j ≠ k) as [? Hjk].
  { apply NoDup_cons in Hnd as [? _]. set_solver. }
  apply H3 in H0; [by simplify_eq|done..].
Qed.

(** ** The support of an error word *)

Fixpoint supp (e : list Z) : list (nat * Z) :=
  match e with
  | [] => []
  | v :: e' => if v =? 0 then supp e' else (S (length e'), v) :: supp e'
  end.
Definition weight (e : list Z) : nat := length (supp e).

Lemma supp_colsum e : Z.shiftr (lin (run 0 e)) 5 = colsum (supp e).
Proof.
  induction e as [|v e IH]; [done|].
  rewrite run_cons, lin_lxor, Z.shiftr_lxor, IH. cbn [supp].
  destruct (Z.eqb_spec v 0) as [->|]; [|done].
  replace (Lm (length e) 0) with 0; [by rewrite Z.lxor_0_l|].
  induction (length e) as [|n IHn]; [done|]. unfold Lm in *. simpl. by rewrite <- IHn.
Qed.

Lemma supp_keys e k v : (k, v) ∈ supp e → (1 ≤ k ≤ length e)%nat ∧ v ≠ 0 ∧ v ∈ e.
Proof.
  induction e as [|w e IH]; simpl; [by intros ?%elem_of_nil|].
  destruct (Z.eqb_spec w 0).
  - intros H%IH. rewrite elem_of_cons. naive_solver lia.
  - rewrite !elem_of_cons. intros [Heq|H%IH]; [simplify_eq; naive_solver lia|naive_solver lia].
Qed.

Lemma supp_NoDup e : NoDup (fst <$> supp e).
Proof.
  induction e as [|w e IH]; simpl; [constructor|]. case_match; [done|].
  rewrite fmap_cons. constructor; [|done]. simpl.
  intros [[k v] [Hk Hin%supp_keys]]%list_elem_of_fmap. simpl in Hk. lia.
Qed.

Lemma supp_nil e : supp e = [] → e = replicate (length e) 0.
Proof.
  induction e as [|w e IH]; simpl; [done|]. destruct (Z.eqb_spec w 0); [|done].
  intros H%IH. subst. by f_equal.
Qed.

Lemma weight_snoc e v : weight (e ++ [v]) = (weight e + if Z.eqb v 0 then 0 else 1)%nat.
Proof.
  unfold weight. induction e as [|w e IH]; simpl; [by case_match|].
  destruct (w =? 0); [done|]. simpl. by rewrite IH.
Qed.

(** Every nonzero word the register maps to zero has weight at least five. *)
Lemma min_weight e :
  (length e ≤ 21)%nat → Forall is_sym e → (weight e ≤ 4)%nat → run 0 e = 0 →
  e = replicate (length e) 0.
Proof.
  induction e as [|v e IH] using rev_ind; intros Hlen Hs Hw Hr; [done|].
  apply Forall_app in Hs as [Hs Hv]. rewrite Forall_singleton in Hv. rewrite length_app in *.
  rewrite weight_snoc in Hw. simpl in Hlen.
  change (run (run 0 e) [v] = 0) in Hr || rewrite run_app in Hr.
  change (polymod_step (run 0 e) v = 0) in Hr. rewrite polymod_step_lin in Hr.
  apply Z.lxor_eq in Hr. simpl. rewrite replicate_add. simpl.
  assert (0 ≤ run 0 e < 2 ^ 30) as Hb.
  { apply run_bound; [lia|]. eapply Forall_impl; [done|]. unfold is_sym. lia. }
  destruct (Z.eqb_spec v 0) as [->|Hv0].
  - apply lin_ker in Hr; [|done]. rewrite <- IH by (lia || done). done.
  - exfalso. assert (supp e = []) as Hse.
    { apply small_colsum; [unfold weight in Hw; lia|apply supp_NoDup| |].
      - apply Forall_forall. intros [k w] (Hk & Hw0 & Hin)%supp_keys.
        rewrite Forall_forall in Hs. apply Hs in Hin. unfold is_sym in Hin.
        split; simpl; lia.
      - rewrite <- supp_colsum, Hr, Z.shiftr_div_pow2 by lia. unfold is_sym in Hv.
        apply Z.div_small. lia. }
    apply supp_nil in Hse. rewrite Hse, run_zeros in Hr.
    assert (∀ n, Lm n 0 = 0) as HL.
    { induction n as [|n IHn]; [done|]. unfold Lm in *. simpl. by rewrite IHn. }
    rewrite HL in Hr. done.
Qed.

(** ** Distance between accepted words *)

Definition hamming (d d' : list Z) : nat :=
  length (List.filter (λ p, negb (p.1 =? p.2)) (zip d d')).

Lemma weight_hamming d d' :
  length d = length d' → weight (zip_with Z.lxor d d') = hamming d d'.
Proof.
  unfold weight, hamming. revert d'.
  induction d as [|x d IH]; intros [|y d'] Hlen; simplify_eq/=; [done|].
  destruct (Z.eqb_spec x y) as [->|Hne]; simpl.
  - rewrite Z.lxor_nilpotent. by apply IH.
  - destruct (Z.eqb_spec (Z.lxor x y) 0) as [He|]; [by apply Z.lxor_eq in He|].
    simpl. f_equal. by apply IH.
Qed.

Lemma checksum_distance hrp d d' :
  length d = length d' → (length d ≤ 21)%nat → Forall is_sym d → Forall is_sym d' →
  verifyChecksum hrp d = true → verifyChecksum hrp d' = true →
  (hamming d d' ≤ 4)%nat → d = d'.
Proof.
  intros Hlen H21 Hd Hd' Hv Hv' Hh. unfold verifyChecksum in Hv, Hv'.
  apply Z.eqb_eq in Hv, Hv'.
  assert (run 0 (zip_with Z.lxor d d') = 0) as H0.
  { change (run 1 (hrpExpand hrp ++ d) = bech32mConst) in Hv.
    change (run 1 (hrpExpand hrp ++ d') = bech32mConst) in Hv'.
    rewrite run_app in Hv, Hv'.
    rewrite <- (Z.lxor_nilpotent (run 1 (hrpExpand hrp))) at 1.
    rewrite run_lxor by done. rewrite Hv, Hv'. apply Z.lxor_nilpotent. }
  assert (length (zip_with Z.lxor d d') = length d) as Hl.
  { rewrite length_zip_with. lia. }
  apply min_weight in H0; [|lia| |].
  - rewrite Hl in H0. clear -H0 Hlen. revert d' Hlen H0.
    induction d as [|x d IH]; intros [|y d'] Hlen H0; simplify_eq/=; [done|].
    f_equal; [by apply Z.lxor_eq|by apply IH].
  - clear -Hd Hd'. revert d' Hd'. induction Hd as [|x d Hx Hd IH]; intros [|y d'] Hd'; simpl;
      try constructor; apply Forall_cons in Hd' as [Hy Hd'].
    + apply (lxor_bound 5); [lia|exact Hx|exact Hy].
    + by apply IH.
  - by rewrite weight_hamming.
Qed.
