(* ===== verification/Address.v ===== *)
(** * pkg/address: self-certifying ids and the portable address form

    address.go derives a 21-character id from a root public key (a version
    symbol, 70 bits of its SHA-256, a bech32m checksum over the tag "frz") and
    normalizes, checks and displays ids; parse.go reads and prints the
    [id*server] form.  [net/url] is the class [NetURL]: what [url.Parse] makes of
    a server string is not interpreted. *)

From S2P Require Import Prelude GoStr Sha256 Bech32m.

Definition CurrentVersion : Z := 0.
Definition VersionGroup : Z := 1.
Definition hashGroupCount : Z := 14.
Definition payloadGroupCount : Z := 1 + hashGroupCount.
Definition checksumGroupCount : Z := 6.
Definition idLength : Z := payloadGroupCount + checksumGroupCount.
Definition PrefixLength : Z := 5.
Definition domainSeparationTag : bytes := lit "frz".
Definition PublicKeySize : Z := 32.

(** ** leadingBitGroups *)

(** The inner loop, [bits] rounds at most. *)
Fixpoint take_groups (fuel : nat) (numGroups groupSize mask acc bits : Z) (groups : list Z)
    : Z * list Z :=
  match fuel with
  | O => (bits, groups)
  | S f =>
    if (groupSize <=? bits) && (zlen groups <? numGroups) then
      let bits := bits - groupSize in
      take_groups f numGroups groupSize mask acc bits
        (groups ++ [Z.land (Z.shiftr acc bits) mask])
    else (bits, groups)
  end.

Fixpoint bit_groups (numGroups groupSize maxAcc mask : Z) (data : bytes)
    (acc bits : Z) (groups : list Z) : list Z :=
  match data with
  | [] => groups
  | b :: data' =>
    if numGroups <=? zlen groups then groups else
    let acc := Z.land (Z.lor (Z.shiftl acc 8) b) maxAcc in
    let '(bits, groups) :=
      take_groups (Z.to_nat (bits + 8)) numGroups groupSize mask acc (bits + 8) groups in
    bit_groups numGroups groupSize maxAcc mask data' acc bits groups
  end.

Definition leadingBitGroups (data : bytes) (numGroups groupSize : Z) : list Z :=
  let maxAcc := Z.shiftl 1 (8 + groupSize - 1) - 1 in
  let mask := Z.shiftl 1 groupSize - 1 in
  bit_groups numGroups groupSize maxAcc mask data 0 0 [].

(** ** Deriving ids *)

Definition DeriveIDVersion (version : Z) (rootPubKey : bytes) : res string bytes :=
  if (version <? 0) || (32 <=? version) then
    Err "address: version marker must fit in 5 bits"
  else if negb (zlen rootPubKey =? PublicKeySize) then
    Err "address: root public key must be 32 bytes"
  else
    let hash := sha256 rootPubKey in
    let hashGroups := leadingBitGroups hash hashGroupCount 5 in
    let payload := version :: hashGroups in
    let checksum := createChecksum domainSeparationTag payload in
    Ok (charset_at <$> (payload ++ checksum)).

Definition DeriveID (rootPubKey : bytes) : res string bytes :=
  DeriveIDVersion CurrentVersion rootPubKey.

Section case.
Context {UC : UnicodeCase}.

(** ** Reading ids *)

Definition is_separator (c : Z) : bool :=
  (c =? 45) || (c =? 32) || (c =? 9) || (c =? 10) || (c =? 13).

Definition StripSeparators (id : bytes) : bytes :=
  mjoin ((λ c, if is_separator c then [] else encode_rune (to_lower c)) <$> runes id).

Definition ValidCharset (s : bytes) : bool :=
  forallb (λ c, match index_of c charset with Some _ => true | None => false end) (runes s).

Definition Normalize (id : bytes) : res string bytes :=
  let normalized := StripSeparators id in
  if negb (zlen normalized =? idLength) then
    Err "address: id must be 21 characters (excluding separators)"
  else
    values ← from_option (mapM (λ c, index_of c charset) (runes normalized))
               "address: invalid character in id";
    if verifyChecksum domainSeparationTag values then Ok normalized
    else Err "address: invalid checksum".

Definition VerifyVersion (version : Z) (id rootPubKey : bytes) : res string bool :=
  normalized ← Normalize id;
  expected ← DeriveIDVersion version rootPubKey;
  Ok (normalized =?b expected).

Definition Verify (id rootPubKey : bytes) : res string bool :=
  VerifyVersion CurrentVersion id rootPubKey.

Definition VersionMarkerOf (idOrPrefix : bytes) : res string Z :=
  match StripSeparators idOrPrefix with
  | [] => Err "address: no id to read a version marker from"
  | c :: _ => from_option (index_of c charset) "address: does not begin with a version marker"
  end.

Definition VersionOf (id : bytes) : res string Z :=
  normalized ← Normalize id; VersionMarkerOf normalized.

(** One round of the loop: what it writes for the rune at byte [i]. *)
Definition display_piece (x : Z * Z * bytes) : bytes :=
  let '(i, c, _) := x in
  (if (0 <? i) && (i mod 5 =? 0) then [45] else []) ++ encode_rune c.
Definition FormatForDisplay (id : bytes) : bytes := mjoin (display_piece <$> range_str id).

(** ** parse.go: the [id*server] form *)

Record Address := mkAddress { ID : bytes; Server : bytes }.

#[global] Instance Address_eq_dec : EqDecision Address.
Proof. solve_decision. Defined.

Definition ErrEmptyAddress : string := "address: empty".
Definition localServer : bytes := lit "local".
Definition https : bytes := lit "https://".

Record URL := mkURL { Host : bytes; Hostname : bytes; Port : bytes }.
Class NetURL := url_parse : bytes → option URL.

Definition NormalizeServer (raw : bytes) : bytes :=
  let s := trim_space raw in
  if (s =?b []) || equal_fold s localServer then []
  else let s := if contains s (lit "://") then s else https ++ s in
       trim_right 47 s.

Definition Parse `{!NetURL} (raw : bytes) : res string Address :=
  let raw := trim_space raw in
  if raw =?b [] then Err ErrEmptyAddress else
  let '(idPart, serverPart, _) := cut 42 raw in
  let id := StripSeparators idPart in
  if id =?b [] then Err ErrEmptyAddress else
  if negb (ValidCharset id) then Err "address: not an id" else
  let server := NormalizeServer serverPart in
  if negb (server =?b []) &&
     match url_parse server with Some u => Host u =?b [] | None => true end
  then Err "address: names no server"
  else Ok (mkAddress id server).

Definition ParseFull `{!NetURL} (raw : bytes) : res string Address :=
  a ← Parse raw;
  id ← Normalize (ID a);
  Ok (mkAddress id (Server a)).

Definition TrimDefaultScheme (server : bytes) : bytes := trim_prefix https server.

Definition Address_String (a : Address) : bytes :=
  if Server a =?b [] then ID a else ID a ++ [42] ++ TrimDefaultScheme (Server a).

Definition Display (a : Address) : bytes :=
  if Server a =?b [] then FormatForDisplay (ID a)
  else FormatForDisplay (ID a) ++ [42] ++ TrimDefaultScheme (Server a).

Definition SameServer `{!NetURL} (a b : bytes) : bool :=
  let na := NormalizeServer a in
  let nb := NormalizeServer b in
  if (na =?b []) || (nb =?b []) then na =?b nb else
  match url_parse na, url_parse nb with
  | Some ua, Some ub =>
    if negb (equal_fold (Hostname ua) (Hostname ub)) then false else Port ua =?b Port ub
  | _, _ => equal_fold na nb
  end.
End case.

(** ** leadingBitGroups reads the leading bits, most significant first

    [bit_slice] is the reference: the [i]-th group of [g] bits of the data read
    as one big-endian number. *)

Definition bit_slice (data : bytes) (g : Z) (i : nat) : Z :=
  (be_value data / 2 ^ (8 * zlen data - g * (Z.of_nat i + 1))) mod 2 ^ g.

Lemma bit_slice_app p q g i :
  is_bytes q → 0 ≤ g → g * (Z.of_nat i + 1) ≤ 8 * zlen p →
  bit_slice (p ++ q) g i = bit_slice p g i.
Proof.
  intros Hq Hg Hi. unfold bit_slice. rewrite be_value_app, zlen_app.
  pose proof (be_value_bound q Hq) as HB. pose proof (zlen_nonneg q).
  set (m := 8 * zlen p - g * (Z.of_nat i + 1)). f_equal.
  replace (8 * (zlen p + zlen q) - g * (Z.of_nat i + 1)) with (8 * zlen q + m) by lia.
  rewrite Z.pow_add_r by lia. rewrite <- Z.div_div by lia.
  rewrite Z.div_add_l by lia. rewrite (Z.div_small (be_value q)) by lia. by rewrite Z.add_0_r.
Qed.

Lemma bit_slice_range data g i : 0 ≤ g → 0 ≤ bit_slice data g i < 2 ^ g.
Proof. intros. apply Z.mod_pos_bound. lia. Qed.

(** One group taken from the accumulator, which keeps the last [g + 7] bits. *)
Lemma acc_slice v g m : 0 ≤ g → 0 ≤ m ≤ 7 →
  Z.land (Z.shiftr (v mod 2 ^ (g + 7)) m) (Z.ones g) = (v / 2 ^ m) mod 2 ^ g.
Proof.
  intros Hg Hm. apply Z.bits_inj'. intros n Hn.
  rewrite Z.land_spec, Z.shiftr_spec by lia.
  destruct (Z.lt_ge_cases n g).
  - rewrite Z.ones_spec_low, andb_true_r by lia.
    rewrite !Z.mod_pow2_bits_low by lia. rewrite <- Z.shiftr_div_pow2 by lia.
    by rewrite Z.shiftr_spec.
  - rewrite Z.ones_spec_high, andb_false_r by lia. by rewrite Z.mod_pow2_bits_high by lia.
Qed.

Definition slices (data : bytes) (g : Z) (k : nat) : list Z := bit_slice data g <$> seq 0 k.

Lemma slices_S data g k : slices data g (S k) = slices data g k ++ [bit_slice data g k].
Proof. unfold slices. by rewrite seq_S, fmap_app. Qed.

Lemma zlen_slices data g k : zlen (slices data g k) = Z.of_nat k.
Proof. unfold slices, zlen. by rewrite length_fmap, length_seq. Qed.

Lemma take_groups_spec fuel n g p k bits :
  is_bytes p → 1 ≤ g → bits = 8 * zlen p - g * Z.of_nat k → 0 ≤ bits ≤ g + 7 →
  bits ≤ Z.of_nat fuel → Z.of_nat k ≤ n →
  ∃ k', take_groups fuel n g (Z.ones g) (be_value p mod 2 ^ (g + 7)) bits (slices p g k)
        = (8 * zlen p - g * Z.of_nat k', slices p g k') ∧
    Z.of_nat k' ≤ n ∧ 0 ≤ 8 * zlen p - g * Z.of_nat k' ∧
    (Z.of_nat k' = n ∨ 8 * zlen p - g * Z.of_nat k' < g).
Proof.
  intros Hp Hg. revert k bits. induction fuel as [|fuel IH]; intros k bits Hb Hbits Hf Hk.
  { exists k. simpl. split; [by subst|]. lia. }
  cbn [take_groups]. rewrite zlen_slices.
  destruct (Z.leb_spec g bits), (Z.ltb_spec (Z.of_nat k) n); simpl;
    try (exists k; split; [by subst|]; lia).
  rewrite acc_slice by lia.
  assert ((be_value p / 2 ^ (bits - g)) mod 2 ^ g = bit_slice p g k) as ->.
  { unfold bit_slice. do 3 f_equal. lia. }
  rewrite <- slices_S. apply IH; lia.
Qed.

Lemma slices_app p q g k :
  is_bytes q → 1 ≤ g → g * Z.of_nat k ≤ 8 * zlen p → slices (p ++ q) g k = slices p g k.
Proof.
  intros Hq Hg Hk. apply list_fmap_ext. intros i x Hi%lookup_seq.
  apply bit_slice_app; [done|lia|]. destruct Hi as [-> ?]. nia.
Qed.

Lemma bit_groups_spec n g q p k :
  is_bytes (p ++ q) → 1 ≤ g → Z.of_nat k ≤ n → 0 ≤ 8 * zlen p - g * Z.of_nat k →
  (Z.of_nat k = n ∨ 8 * zlen p - g * Z.of_nat k < g) →
  ∃ k', bit_groups n g (Z.ones (g + 7)) (Z.ones g) q (be_value p mod 2 ^ (g + 7))
          (8 * zlen p - g * Z.of_nat k) (slices p g k) = slices (p ++ q) g k' ∧
    Z.of_nat k' ≤ n ∧ 0 ≤ 8 * zlen (p ++ q) - g * Z.of_nat k' ∧
    (Z.of_nat k' = n ∨ 8 * zlen (p ++ q) - g * Z.of_nat k' < g).
Proof.
  intros Hb Hg. revert p k Hb. induction q as [|b q IH]; intros p k Hb Hk H0 Hc.
  { exists k. rewrite app_nil_r. done. }
  cbn [bit_groups]. rewrite zlen_slices.
  assert (is_bytes p ∧ is_byte b ∧ is_bytes q) as (Hbp & Hbb & Hbq).
  { apply Forall_app in Hb as [? Hb]. by apply Forall_cons in Hb. }
  destruct (Z.leb_spec n (Z.of_nat k)).
  { exists k. rewrite slices_app; [|by constructor|lia|lia].
    rewrite zlen_app in *. pose proof (zlen_nonneg (b :: q)). repeat split; lia. }
  assert (Z.land (Z.lor (Z.shiftl (be_value p mod 2 ^ (g + 7)) 8) b) (Z.ones (g + 7))
          = be_value (p ++ [b]) mod 2 ^ (g + 7)) as ->.
  { rewrite be_value_app. change (8 * zlen [b]) with 8. simpl be_value.
    replace (b * 2 ^ (8 * Z.of_nat 0) + 0) with b by (change (2 ^ (8 * Z.of_nat 0)) with 1; lia).
    rewrite lor_shiftl_low by (unfold is_byte in *; lia). rewrite Z.land_ones by lia.
    by rewrite Z.add_mod, Z.mul_mod_idemp_l, <- Z.add_mod by lia. }
  assert (zlen (p ++ [b]) = zlen p + 1) as Hz by (by rewrite zlen_app).
  destruct (take_groups_spec (Z.to_nat (8 * zlen p - g * Z.of_nat k + 8)) n g (p ++ [b]) k
    (8 * zlen p - g * Z.of_nat k + 8)) as (k' & Heq & Hk' & H0' & Hc'); [|lia..|].
  { apply Forall_app. auto using is_bytes_singleton. }
  rewrite <- (slices_app p [b]) by (lia || by apply is_bytes_singleton).
  rewrite Heq. rewrite (cons_middle b p q), (assoc_L (++)). apply IH; [|done..].
  by rewrite <- (assoc_L (++)).
Qed.

(** The loop yields the leading groups of the data: as many as asked for, or as
    the data hold. *)
Lemma leadingBitGroups_slices data n g :
  is_bytes data → 1 ≤ g → 0 ≤ n →
  leadingBitGroups data n g = slices data g (Z.to_nat (Z.min n (8 * zlen data / g))).
Proof.
  intros Hd Hg Hn. unfold leadingBitGroups. rewrite !Z.shiftl_mul_pow2, !Z.mul_1_l by lia.
  replace (8 + g - 1) with (g + 7) by lia. 
  assert (∀ m, 2 ^ m - 1 = Z.ones m) as Ho by (intros; rewrite Z.ones_equiv; lia).
  rewrite !Ho.
  destruct (bit_groups_spec n g data [] 0) as (k & Heq & Hk & H0 & Hc);
    [done|lia|lia|change (zlen (@nil Z)) with 0; lia..|].
  change (8 * zlen [] - g * Z.of_nat 0) with (0 - g * 0) in Heq.
  rewrite Z.mul_0_r in Heq. change (be_value []) with 0 in Heq. rewrite Z.mod_0_l in Heq by lia.
  change (slices [] g 0) with (@nil Z) in Heq. change (0 - 0) with 0 in Heq. rewrite Heq. f_equal.
  change ([] ++ data) with data in *.
  assert (Z.of_nat k = Z.min n (8 * zlen data / g)); [|lia].
  destruct (Z.min_spec n (8 * zlen data / g)) as [[? ->]|[? ->]];
    Z.to_euclidean_division_equations; nia.
Qed.

(** ** The alphabet *)

Lemma index_of_lookup c set v :
  index_of c set = Some v → 0 ≤ v < zlen set ∧ set !! Z.to_nat v = Some c.
Proof.
  unfold zlen. revert v. induction set as [|d set IH]; intros v; simpl; [done|].
  destruct (Z.eqb_spec d c) as [->|]; intros H; [simplify_eq; simpl; split; [lia|done]|].
  destruct (index_of c set) as [w|]; simplify_eq/=. destruct (IH w) as [? Hl]; [done|].
  split; [lia|]. by rewrite Z2Nat.inj_succ by lia.
Qed.

Lemma index_of_charset c v : index_of c charset = Some v → is_sym v ∧ charset_at v = c.
Proof.
  intros [Hv Hc]%index_of_lookup. split; [exact Hv|].
  unfold charset_at. by apply list_lookup_total_correct.
Qed.

Definition syms : list Z := Z.of_nat <$> seq 0 32.

Lemma elem_of_syms v : is_sym v → v ∈ syms.
Proof.
  intros Hv. apply list_elem_of_fmap. exists (Z.to_nat v). unfold is_sym in Hv.
  split; [lia|]. apply elem_of_seq. lia.
Qed.

(** A fact checked on every symbol. *)
Lemma sym_check (f : Z → bool) v : forallb f syms = true → is_sym v → f v = true.
Proof. rewrite forallb_forall. intros H Hv. apply H, list_elem_of_In, elem_of_syms, Hv. Qed.

Lemma charset_index v : is_sym v → index_of (charset_at v) charset = Some v.
Proof.
  intros Hv. apply (sym_check (λ v, index_of (charset_at v) charset =?b Some v)) in Hv; [|done].
  by bool_prop.
Qed.

(** Lower-case ASCII letters and digits: not a separator, not a star, not a space. *)
Definition plain_char (c : Z) : bool := in_range 48 57 c || in_range 97 122 c.

Lemma charset_plain v : is_sym v → plain_char (charset_at v) = true.
Proof. intros Hv. by apply (sym_check (λ v, plain_char (charset_at v))). Qed.

Lemma plain_char_spec c : plain_char c = true →
  0 ≤ c < 128 ∧ ascii_lower c = c ∧ is_separator c = false ∧ c ≠ 42 ∧ is_space c = false.
Proof.
  unfold plain_char, ascii_lower, is_separator, is_space, in_range. intros H. bool_prop.
  destruct (andb (65 <=? c) (c <=? 90)) eqn:E; bool_prop; lia.
Qed.

Lemma mapM_index_of cs vs :
  mapM (λ c, index_of c charset) cs = Some vs ↔ Forall is_sym vs ∧ cs = charset_at <$> vs.
Proof.
  rewrite mapM_Some. split.
  - induction 1 as [|c v cs vs H _ [IH ->]]; [done|].
    apply index_of_charset in H as [? <-]. by split; [constructor|].
  - intros [Hs ->]. induction Hs as [|v vs Hv Hs IH]; [constructor|].
    simpl. constructor; [by apply charset_index|done].
Qed.

Lemma charset_ascii vs : Forall is_sym vs → is_ascii (charset_at <$> vs).
Proof.
  intros H. apply Forall_fmap. eapply Forall_impl; [done|]. intros v Hv.
  apply charset_plain, plain_char_spec in Hv as [? _]. done.
Qed.

Lemma charset_at_inj vs ws :
  Forall is_sym vs → Forall is_sym ws → charset_at <$> vs = charset_at <$> ws → vs = ws.
Proof.
  intros Hv Hw He. assert (Some vs = Some ws) as [= ->]; [|done].
  rewrite <- (proj2 (mapM_index_of (charset_at <$> vs) vs)) by done.
  rewrite He. by apply mapM_index_of.
Qed.

Lemma charset_at_eqb v w : is_sym v → is_sym w → (charset_at v =? charset_at w) = (v =? w).
Proof.
  intros Hv Hw. destruct (Z.eqb_spec v w) as [->|Hne]; [apply Z.eqb_refl|].
  apply Z.eqb_neq. intros E. apply charset_index in Hv, Hw. congruence.
Qed.

Lemma hamming_charset vs ws :
  Forall is_sym vs → Forall is_sym ws →
  hamming (charset_at <$> vs) (charset_at <$> ws) = hamming vs ws.
Proof.
  intros Hs. revert ws. unfold hamming.
  induction Hs as [|v vs Hv Hs IH]; intros ws Hws; [done|].
  destruct Hws as [|w ws Hw Hws]; [done|]. rewrite !fmap_cons. cbn [zip zip_with List.filter fst snd].
  rewrite charset_at_eqb by done. destruct (v =? w); simpl; by rewrite IH.
Qed.

(** ** Ids *)

Lemma leadingBitGroups_syms data n : is_bytes data → 0 ≤ n →
  Forall is_sym (leadingBitGroups data n 5).
Proof.
  intros Hd Hn. rewrite leadingBitGroups_slices by (done || lia).
  apply Forall_fmap, Forall_true. intros i. apply (bit_slice_range _ 5). lia.
Qed.

(** The symbols of an id: the version, the 70 leading hash bits, the checksum. *)
Definition id_payload (version : Z) (key : bytes) : list Z :=
  version :: leadingBitGroups (sha256 key) hashGroupCount 5.
Definition id_symbols (version : Z) (key : bytes) : list Z :=
  id_payload version key ++ createChecksum domainSeparationTag (id_payload version key).

Lemma id_payload_syms v key : is_sym v → Forall is_sym (id_payload v key).
Proof.
  intros Hv. constructor; [done|]. apply leadingBitGroups_syms; [apply sha256_is_bytes|done].
Qed.

Lemma id_symbols_syms v key : is_sym v → Forall is_sym (id_symbols v key).
Proof.
  intros. apply Forall_app. auto using id_payload_syms, createChecksum_syms.
Qed.

Lemma length_id_symbols v key : length (id_symbols v key) = 21%nat.
Proof.
  unfold id_symbols, id_payload. rewrite length_app, createChecksum_length. simpl.
  rewrite leadingBitGroups_slices by (apply sha256_is_bytes || done).
  unfold slices. rewrite length_fmap, length_seq. unfold zlen. by rewrite length_sha256.
Qed.

Lemma id_symbols_valid v key :
  is_sym v → verifyChecksum domainSeparationTag (id_symbols v key) = true.
Proof.
  intros Hv. apply verify_createChecksum; [|by apply id_payload_syms].
  apply (bool_decide_unpack _). by vm_compute.
Qed.

Lemma DeriveIDVersion_Ok v key id :
  DeriveIDVersion v key = Ok id ↔
  is_sym v ∧ zlen key = 32 ∧ id = charset_at <$> id_symbols v key.
Proof.
  unfold DeriveIDVersion, is_sym, PublicKeySize. fold (id_payload v key). fold (id_symbols v key).
  destruct ((v <? 0) || (32 <=? v)) eqn:E1, (negb (zlen key =? 32)) eqn:E2; bool_prop;
    split; try done; intros; destruct_and?; simplify_eq; lia || done.
Qed.

Section ids.
Context {UC : UnicodeCase}.

Definition strip_char (c : Z) : bytes := if is_separator c then [] else [ascii_lower c].

Lemma ascii_lower_range c : 0 ≤ c < 128 → 0 ≤ ascii_lower c < 128.
Proof. unfold ascii_lower, in_range. intros. case_match; bool_prop; lia. Qed.

Lemma StripSeparators_ascii s : is_ascii s → StripSeparators s = mjoin (strip_char <$> s).
Proof.
  intros Hs. unfold StripSeparators. rewrite runes_ascii by done. f_equal.
  apply list_fmap_ext. intros i c Hc. assert (0 ≤ c < 128) as Hr.
  { eapply (Forall_lookup_1 _ _ _ _ Hs), Hc. }
  unfold strip_char. case_match; [done|].
  rewrite to_lower_ascii by done. by rewrite encode_rune_ascii by (by apply ascii_lower_range).
Qed.

Lemma strip_charset vs : Forall is_sym vs → mjoin (strip_char <$> (charset_at <$> vs)) = charset_at <$> vs.
Proof.
  induction 1 as [|v vs Hv Hs IH]; [done|]. rewrite !fmap_cons, mjoin_cons, IH.
  apply charset_plain, plain_char_spec in Hv as (_ & Hl & Hsep & _).
  unfold strip_char. by rewrite Hsep, Hl.
Qed.

(** What [Normalize] accepts. *)
Lemma Normalize_Ok id n :
  Normalize id = Ok n ↔
  ∃ vs, Forall is_sym vs ∧ length vs = 21%nat ∧ verifyChecksum domainSeparationTag vs = true ∧
    n = charset_at <$> vs ∧ StripSeparators id = n.
Proof.
  unfold Normalize. split.
  - intros H. res_inv H. rewrite negb_false_iff, Z.eqb_eq in H0. simplify_eq.
    exists a. apply mapM_index_of in H1 as [Hs Hr].
    destruct (runes_all_ascii (StripSeparators id)) as [_ Hra].
    { rewrite Hr. by apply charset_ascii. }
    rewrite Hra in Hr. split_and!; try done.
    rewrite Hr in H0. unfold zlen in H0. rewrite length_fmap in H0.
    change idLength with 21 in H0. lia.
  - intros (vs & Hs & Hlen & Hv & -> & ->).
    unfold zlen. rewrite length_fmap, Hlen. simpl.
    rewrite runes_ascii by (by apply charset_ascii).
    rewrite (proj2 (mapM_index_of _ vs)) by done. simpl. by rewrite Hv.
Qed.

Lemma Normalize_symbols vs :
  Forall is_sym vs → length vs = 21%nat → verifyChecksum domainSeparationTag vs = true →
  Normalize (charset_at <$> vs) = Ok (charset_at <$> vs).
Proof.
  intros. apply Normalize_Ok. exists vs. split_and!; try done.
  rewrite StripSeparators_ascii by (by apply charset_ascii). by apply strip_charset.
Qed.

Lemma VersionMarkerOf_symbols v vs :
  is_sym v → Forall is_sym vs → VersionMarkerOf (charset_at <$> (v :: vs)) = Ok v.
Proof.
  intros Hv Hs. unfold VersionMarkerOf.
  rewrite StripSeparators_ascii by (apply charset_ascii; by constructor).
  rewrite strip_charset by (by constructor). rewrite fmap_cons. by rewrite charset_index.
Qed.
(** ** Cosmetics are invisible to Normalize *)

Lemma strip_app s t : mjoin (strip_char <$> (s ++ t)) = mjoin (strip_char <$> s) ++ mjoin (strip_char <$> t).
Proof. by rewrite fmap_app, mjoin_app. Qed.

Lemma display_piece_strip i b bs :
  0 ≤ b < 128 →
  is_ascii (display_piece (i, b, bs)) ∧
  mjoin (strip_char <$> display_piece (i, b, bs)) = strip_char b.
Proof.
  intros Hb. unfold display_piece. rewrite encode_rune_ascii by done.
  split; [destruct (_ && _); simpl; repeat constructor; lia|].
  rewrite strip_app. destruct (_ && _); simpl; by rewrite app_nil_r.
Qed.

Lemma FormatForDisplay_strip s :
  is_ascii s →
  is_ascii (FormatForDisplay s) ∧
  mjoin (strip_char <$> FormatForDisplay s) = mjoin (strip_char <$> s).
Proof.
  intros Hs. unfold FormatForDisplay, range_str. generalize 0. 
  induction Hs as [|b s Hb Hs IH]; intros i; [split; [constructor|done]|].
  cbn [range_from decode_rune]. destruct (Z.ltb_spec b 128); [|lia].
  rewrite fmap_cons, mjoin_cons. cbn [Nat.sub].
  destruct (IH (i + 1)) as [Ha He].
  destruct (display_piece_strip i b (take 1 (b :: s)) Hb) as [Hpa Hpe].
  split; [by apply Forall_app|]. by rewrite strip_app, Hpe, He.
Qed.

Lemma map_runes_ascii (f g : Z → Z) s :
  is_ascii s → (∀ c, 0 ≤ c < 128 → f c = g c ∧ 0 ≤ g c < 128) → map_runes f s = g <$> s.
Proof.
  intros Hs Hf. unfold map_runes. rewrite runes_ascii by done.
  induction Hs as [|c s Hc Hs IH]; [done|]. rewrite !fmap_cons, mjoin_cons, IH.
  unfold compose. destruct (Hf c Hc) as [-> ?]. by rewrite encode_rune_ascii.
Qed.

Lemma ascii_upper_range c : 0 ≤ c < 128 → 0 ≤ ascii_upper c < 128.
Proof. unfold ascii_upper, in_range. intros. case_match; bool_prop; lia. Qed.

Lemma strings_ToUpper_ascii s : is_ascii s → strings_ToUpper s = ascii_upper <$> s.
Proof.
  intros. apply map_runes_ascii; [done|]. auto using to_upper_ascii, ascii_upper_range.
Qed.

Lemma strings_ToLower_ascii s : is_ascii s → strings_ToLower s = ascii_lower <$> s.
Proof.
  intros. apply map_runes_ascii; [done|]. auto using to_lower_ascii, ascii_lower_range.
Qed.

Lemma strip_upper v : is_sym v → strip_char (ascii_upper (charset_at v)) = [charset_at v].
Proof.
  intros Hv. apply (sym_check (λ v, strip_char (ascii_upper (charset_at v)) =?b [charset_at v]))
    in Hv; [|done]. by bool_prop.
Qed.
End ids.

Lemma split_last_charset hrp vs :
  Forall is_sym vs → split_last 49 (hrp ++ [49] ++ (charset_at <$> vs)) = Some (hrp, charset_at <$> vs).
Proof.
  intros Hs. assert (split_last 49 (charset_at <$> vs) = None) as E.
  { induction Hs as [|v vs Hv Hs IH]; [done|]. rewrite fmap_cons. cbn [split_last]. rewrite IH.
    apply (sym_check (λ v, negb (charset_at v =? 49))) in Hv; [|done].
    by destruct (charset_at v =? 49). }
  induction hrp as [|c hrp IH]; cbn [app split_last] in *; [by rewrite E|by rewrite IH].
Qed.

Lemma printable_ascii hrp :
  forallb (in_range 33 126) (runes hrp) = true → is_ascii hrp ∧ runes hrp = hrp.
Proof.
  intros H. apply runes_all_ascii. apply Forall_forall. intros c Hc.
  rewrite forallb_forall in H. apply list_elem_of_In in Hc. apply H in Hc.
  unfold in_range in Hc. bool_prop. lia.
Qed.

Lemma word_syms hrp data : Forall is_sym data → Forall is_sym (data ++ createChecksum hrp data).
Proof. intros. apply Forall_app. auto using createChecksum_syms. Qed.

Lemma EncodeBech32m_Ok hrp data s :
  EncodeBech32m hrp data = Ok s ↔
  forallb (in_range 33 126) (runes hrp) = true ∧ Forall is_sym data ∧ zlen s ≤ 90 ∧
  s = hrp ++ [49] ++ (charset_at <$> (data ++ createChecksum hrp data)).
Proof.
  assert (forallb (in_range 0 31) data = true ↔ Forall is_sym data) as E.
  { rewrite forallb_forall, Forall_forall. unfold in_range, is_sym.
    split; intros H x Hx; apply list_elem_of_In in Hx || apply list_elem_of_In in Hx as Hx';
      specialize (H x); bool_prop; naive_solver lia. }
  unfold EncodeBech32m. split.
  - intros H. res_inv H. apply E in H1. bool_prop. by simplify_eq.
  - intros (-> & Hs%E & Hl & ->). rewrite Hs. cbn [guard_err mbind res_bind].
    by rewrite (proj2 (Z.ltb_ge _ _)).
Qed.

Section id_theorems.
Context {UC : UnicodeCase}.

(** An id derived from a root key is a well-formed id for that key and for
    no other kind: it has 21 characters, is its own normal form, carries the
    version it was derived with, verifies against the key under that version
    and under no other version. *)
Theorem derive_certifies v key id :
  DeriveIDVersion v key = Ok id →
  zlen id = idLength ∧ Normalize id = Ok id ∧ VersionOf id = Ok v ∧
  VerifyVersion v id key = Ok true ∧
  (∀ v', is_sym v' → v' ≠ v → VerifyVersion v' id key = Ok false).
Proof.
  intros Hd. pose proof Hd as (Hv & Hk & ->)%DeriveIDVersion_Ok.
  assert (Normalize (charset_at <$> id_symbols v key) = Ok (charset_at <$> id_symbols v key))
    as Hn by auto using Normalize_symbols, id_symbols_syms, length_id_symbols, id_symbols_valid.
  pose proof (id_symbols_syms v key Hv) as Hs. split_and!; [|done|..].
  - unfold zlen. by rewrite length_fmap, length_id_symbols.
  - unfold VersionOf. rewrite Hn. cbn [mbind res_bind]. apply VersionMarkerOf_symbols; [done|].
    by apply Forall_cons in Hs as [_ ?].
  - unfold VerifyVersion. rewrite Hn. cbn [mbind res_bind]. rewrite Hd. cbn [mbind res_bind].
    by rewrite eqb_refl.
  - intros v' Hv' Hne. unfold VerifyVersion. rewrite Hn. cbn [mbind res_bind].
    rewrite (proj2 (DeriveIDVersion_Ok v' key _)) by done. cbn [mbind res_bind]. f_equal.
    apply eqb_false. intros He%charset_at_inj; [|done|by apply id_symbols_syms].
    by injection He.
Qed.

(** A typing error in up to four characters of an id never yields another
    id: two accepted ids that differ in at most four positions are equal. *)
Theorem typo_detected id id' n n' :
  Normalize id = Ok n → Normalize id' = Ok n' → (hamming n n' ≤ 4)%nat → n = n'.
Proof.
  intros (vs & Hs & Hl & Hv & -> & _)%Normalize_Ok (ws & Hs' & Hl' & Hv' & -> & _)%Normalize_Ok.
  intros Hh. f_equal.
  apply (checksum_distance domainSeparationTag); try done; [congruence|lia|].
  by rewrite <- hamming_charset.
Qed.

(** Normalization is idempotent and blind to the cosmetic spellings of an
    id: the hyphenated display form and the upper-case form of a normal id
    normalize back to it. *)
Theorem normalize_cosmetics id n :
  Normalize id = Ok n →
  Normalize n = Ok n ∧ Normalize (FormatForDisplay n) = Ok n ∧
  Normalize (strings_ToUpper n) = Ok n.
Proof.
  intros (vs & Hs & Hl & Hv & -> & _)%Normalize_Ok.
  split; [by apply Normalize_symbols|].
  pose proof (charset_ascii vs Hs) as Ha.
  split; apply Normalize_Ok; exists vs; split_and!; try done.
  - destruct (FormatForDisplay_strip _ Ha) as [Hfa Hfe].
    rewrite StripSeparators_ascii, Hfe by done. by apply strip_charset.
  - rewrite strings_ToUpper_ascii by done. rewrite StripSeparators_ascii.
    + clear - Hs. induction Hs as [|v vs Hv Hs IH]; [done|].
      rewrite !fmap_cons, mjoin_cons, IH. by rewrite strip_upper.
    + apply Forall_fmap. eapply Forall_impl; [done|]. apply ascii_upper_range.
Qed.


(** Decoding undoes encoding: what [EncodeBech32m] returns for a lower-case,
    non-empty human-readable part decodes to the same part and data. *)
Theorem bech32m_roundtrip hrp data s :
  EncodeBech32m hrp data = Ok s → hrp ≠ [] → Forall (λ c, ascii_lower c = c) hrp →
  DecodeBech32m s = Ok (hrp, data).
Proof.
  intros (Hp & Hs & Hlen & ->)%EncodeBech32m_Ok Hne Hlow.
  destruct (printable_ascii hrp Hp) as [Ha Hr].
  pose proof (word_syms hrp data Hs) as Hw.
  pose proof (charset_ascii _ Hw) as Hwa.
  set (cs := charset_at <$> (data ++ createChecksum hrp data)) in *.
  assert (strings_ToLower (hrp ++ [49] ++ cs) = hrp ++ [49] ++ cs) as El.
  { rewrite strings_ToLower_ascii by (repeat (apply Forall_app; split); [done|by repeat constructor|done]).
    apply Forall_fmap_id. repeat (apply Forall_app; split); [done|by repeat constructor|].
    apply Forall_fmap. eapply Forall_impl; [done|].
    intros v Hv. by apply charset_plain, plain_char_spec in Hv as (_ & ? & _). }
  assert (1 ≤ zlen hrp) by (destruct hrp; [done|]; unfold zlen; simpl; lia).
  assert (zlen cs = zlen data + 6) as Ec.
  { unfold cs, zlen. rewrite length_fmap, length_app, createChecksum_length. lia. }
  pose proof (zlen_nonneg data).
  assert (zlen (hrp ++ [49] ++ cs) = zlen hrp + 1 + zlen cs) as Ez.
  { rewrite !zlen_app. change (zlen [49]) with 1. lia. }
  unfold DecodeBech32m. rewrite El, eqb_refl, andb_false_l.
  destruct (Z.ltb_spec (zlen (hrp ++ [49] ++ cs)) 8), (Z.ltb_spec 90 (zlen (hrp ++ [49] ++ cs)));
    try lia. cbn [orb negb guard_err mbind res_bind].
  rewrite (split_last_charset hrp _ Hw : split_last 49 (hrp ++ [49] ++ cs) = Some (hrp, cs)), Ez.
  destruct (Z.ltb_spec (zlen hrp) 1), (Z.ltb_spec (zlen hrp + 1 + zlen cs) (zlen hrp + 7));
    try lia. cbn [orb negb guard_err mbind res_bind].
  rewrite Hp. cbn [guard_err mbind res_bind].
  rewrite (runes_ascii cs) by done. rewrite (proj2 (mapM_index_of cs _) (conj Hw eq_refl)). cbn [Prelude.from_option mbind res_bind].
  rewrite verify_createChecksum by (done || (rewrite Hr; eapply Forall_impl; [exact Ha|]; simpl; lia)).
  cbn [guard_err mbind res_bind]. do 2 f_equal.
  rewrite length_app, createChecksum_length, Nat.add_sub. apply take_app_length.
Qed.
End id_theorems.

(** ** The [id*server] form *)

Section parse.
Context {UC : UnicodeCase} {NU : NetURL}.

Lemma drop_while_head {A} (p : A → bool) l :
  (∀ x, head l = Some x → p x = false) → drop_while p l = l.
Proof. destruct l as [|x l]; [done|]. intros H. simpl. by rewrite (H x). Qed.

Lemma drop_while_idemp {A} (p : A → bool) l : drop_while p (drop_while p l) = drop_while p l.
Proof. induction l as [|x l IH]; [done|]. simpl. destruct (p x) eqn:E; [done|]. simpl. by rewrite E. Qed.

Lemma trim_right_idemp c s : trim_right c (trim_right c s) = trim_right c s.
Proof. unfold trim_right. by rewrite reverse_involutive, drop_while_idemp. Qed.

Lemma range_str_ascii_snd s : is_ascii s → mjoin (snd <$> range_str s) = s.
Proof.
  intros Hs. unfold range_str. rewrite range_from_ascii, fmap_imap by done.
  trans (mjoin ((λ x, [x]) <$> s)); [|apply mjoin_singletons].
  f_equal. rewrite <- imap_const. done.
Qed.

(** Nothing to trim. *)
Definition edge_ok (o : option Z) : bool :=
  match o with Some c => negb (is_space c) | None => true end.
Definition untrimmed (s : bytes) : bool := edge_ok (head s) && edge_ok (last s).

Lemma trim_space_id s : is_ascii s → untrimmed s = true → trim_space s = s.
Proof.
  intros Hs [Ha Hb]%andb_true_iff. unfold trim_space.
  assert (∀ x, head (range_str s) = Some x → head s = Some x.1.2) as Hh.
  { intros x. unfold range_str. rewrite range_from_ascii by done. destruct s; simpl; naive_solver. }
  assert (∀ x, last (range_str s) = Some x → last s = Some x.1.2) as Hl.
  { intros x. unfold range_str. rewrite range_from_ascii by done.
    destruct s as [|b s] using rev_ind; [done|]. rewrite imap_app. simpl.
    rewrite !last_snoc. naive_solver. }
  rewrite (drop_while_head _ (range_str s)).
  2: { intros x Hx%Hh. rewrite Hx in Ha. by apply negb_true_iff in Ha. }
  rewrite drop_while_head; [by rewrite reverse_involutive; apply range_str_ascii_snd|].
  intros x. rewrite head_reverse. intros Hx%Hl. rewrite Hx in Hb. by apply negb_true_iff in Hb.
Qed.

Lemma cut_charset vs t :
  Forall is_sym vs →
  cut 42 (charset_at <$> vs) = (charset_at <$> vs, [], false) ∧
  cut 42 ((charset_at <$> vs) ++ 42 :: t) = (charset_at <$> vs, t, true).
Proof.
  induction 1 as [|v vs Hv Hs [IH1 IH2]]; [done|]. rewrite fmap_cons. cbn [cut app].
  rewrite IH1, IH2. apply charset_plain, plain_char_spec in Hv as (_ & _ & _ & Hne & _).
  by destruct (Z.eqb_spec (charset_at v) 42).
Qed.

Lemma ValidCharset_true s :
  ValidCharset s = true ↔ ∃ vs, Forall is_sym vs ∧ s = charset_at <$> vs.
Proof.
  unfold ValidCharset. rewrite forallb_forall. split.
  - intros H. destruct (mapM (λ c, index_of c charset) (runes s)) as [vs|] eqn:E.
    + apply mapM_index_of in E as [Hs Hr]. exists vs. split; [done|].
      destruct (runes_all_ascii s) as [_ <-]; [|done]. rewrite Hr. by apply charset_ascii.
    + apply mapM_None, Exists_exists in E as (c & Hc%list_elem_of_In%H & Hi). by rewrite Hi in Hc.
  - intros (vs & Hs & ->) c Hc%list_elem_of_In.
    rewrite runes_ascii in Hc by (by apply charset_ascii).
    apply list_elem_of_fmap in Hc as (v & -> & Hv). rewrite charset_index; [done|].
    by eapply Forall_forall.
Qed.

(** The server parts [Address.String] prints so that they read back: plain
    ASCII without surrounding space, neither empty nor a spelling of [local],
    with no second scheme behind a dropped [https://]. *)
Definition readable (server : bytes) : bool :=
  let t := TrimDefaultScheme server in
  bool_decide (is_ascii t) && untrimmed t && negb (t =?b []) && negb (equal_fold t localServer)
  && (contains t (lit "://") =?b negb (has_prefix https server)).

Lemma NormalizeServer_trimmed raw : trim_right 47 (NormalizeServer raw) = NormalizeServer raw.
Proof. unfold NormalizeServer. case_match; [done|]. apply trim_right_idemp. Qed.

Lemma has_prefix_app p s : has_prefix p s = true → p ++ drop (length p) s = s.
Proof.
  revert s. induction p as [|a p IH]; intros [|b s]; simpl; try done.
  intros [->%Z.eqb_eq ?]%andb_true_iff. by rewrite IH.
Qed.

Lemma NormalizeServer_readable server :
  trim_right 47 server = server → readable server = true →
  NormalizeServer (TrimDefaultScheme server) = server.
Proof.
  intros Ht Hr. unfold readable in Hr. rewrite !andb_true_iff, bool_decide_eq_true in Hr.
  destruct Hr as ((((Ha & Hu) & Hne) & Hf) & Hc). rewrite negb_true_iff in Hne, Hf.
  rewrite eqb_true in Hc. unfold NormalizeServer. rewrite trim_space_id by done.
  rewrite Hne, Hf. cbn [orb]. rewrite Hc. unfold TrimDefaultScheme, trim_prefix in *.
  destruct (has_prefix https server) eqn:E; cbn [negb]; [|done].
  by rewrite (has_prefix_app https server E).
Qed.


Lemma charset_not_space v : is_sym v → is_space (charset_at v) = false.
Proof. intros Hv. by apply charset_plain, plain_char_spec in Hv as (_ & _ & _ & _ & ?). Qed.


Lemma last_app_ne {A} (l k : list A) : k ≠ [] → last (l ++ k) = last k.
Proof.
  intros Hk. destruct k as [|x k _] using rev_ind; [done|]. by rewrite (assoc_L (++)), !last_snoc.
Qed.

(** An id followed by nothing, or by a star and an untrimmed server. *)
Definition star (t : bytes) : bytes := if t =?b [] then [] else 42 :: t.

Lemma untrimmed_printed vs t :
  Forall is_sym vs → vs ≠ [] → untrimmed t = true →
  untrimmed ((charset_at <$> vs) ++ star t) = true.
Proof.
  intros Hs Hne [_ Ht]%andb_true_iff. apply andb_true_iff. split.
  - destruct Hs as [|v vs Hv Hs]; [done|]. simpl. by rewrite charset_not_space.
  - unfold star. destruct (t =?b []) eqn:E; bool_prop.
    + rewrite app_nil_r, fmap_last. destruct (last vs) as [w|] eqn:El; [|done]. simpl.
      apply last_Some_elem_of in El. rewrite Forall_forall in Hs. by rewrite charset_not_space by auto.
    + rewrite last_app_ne by done. destruct t; [done|]. exact Ht.
Qed.

(** Reading a text built from an id's symbols and a readable server. *)
Lemma Parse_printed vs t :
  Forall is_sym vs → vs ≠ [] → is_ascii t → untrimmed t = true →
  Parse ((charset_at <$> vs) ++ star t) =
    (let server := NormalizeServer t in
     if negb (server =?b []) &&
        match url_parse server with Some u => Host u =?b [] | None => true end
     then Err "address: names no server"%string
     else Ok (mkAddress (charset_at <$> vs) server)).
Proof.
  intros Hs Hne Ha Ht. unfold Parse. pose proof (charset_ascii vs Hs) as Hva.
  rewrite trim_space_id; [|apply Forall_app; split; [done|]|by apply untrimmed_printed].
  2: { unfold star. case_match; constructor; [lia|done]. }
  assert ((charset_at <$> vs) ++ star t ≠ []) as En by (by destruct vs).
  apply eqb_false in En. rewrite En.
  assert (cut 42 ((charset_at <$> vs) ++ star t) = (charset_at <$> vs, t, negb (t =?b []))) as ->.
  { destruct (cut_charset vs t Hs) as [H1 H2]. unfold star.
    destruct (t =?b []) eqn:E; bool_prop; [|done]. subst. by rewrite app_nil_r. }
  rewrite StripSeparators_ascii, strip_charset by done.
  assert (charset_at <$> vs ≠ []) as En' by (by destruct vs). apply eqb_false in En'. rewrite En'.
  by rewrite (proj2 (ValidCharset_true _)) by eauto.
Qed.

Lemma Parse_Ok raw a :
  Parse raw = Ok a → ∃ vs serverPart,
    Forall is_sym vs ∧ vs ≠ [] ∧ a = mkAddress (charset_at <$> vs) (NormalizeServer serverPart) ∧
    (Server a = [] ∨ ∃ u, url_parse (Server a) = Some u ∧ Host u ≠ []).
Proof.
  unfold Parse. destruct (trim_space raw =?b []); [done|].
  destruct (cut 42 (trim_space raw)) as [[idPart serverPart] f].
  destruct (StripSeparators idPart =?b []) eqn:Hne; [done|].
  destruct (ValidCharset (StripSeparators idPart)) eqn:Hv; [|done]. cbn [negb].
  destruct (negb (NormalizeServer serverPart =?b []) && _) eqn:Hu; [done|]. intros [= <-].
  apply ValidCharset_true in Hv as (vs & Hs & E). rewrite E in *. exists vs, serverPart. bool_prop.
  split_and!; [done|by intros ->|done|]. simpl. destruct Hu as [?|Hu]; [by left|right].
  destruct (url_parse _) as [u|]; [|done]. bool_prop. eauto.
Qed.

(** [String] round-trips through [Parse]: an address that was parsed, with no
    server or with one that prints readably, prints to text that parses to the
    same address. *)
Theorem parse_string_roundtrip raw a :
  Parse raw = Ok a → Server a = [] ∨ readable (Server a) = true →
  Parse (Address_String a) = Ok a.
Proof.
  intros (vs & sp & Hs & Hne & -> & Hu)%Parse_Ok Hr. simpl in *. unfold Address_String. simpl.
  destruct (NormalizeServer sp =?b []) eqn:E; bool_prop.
  - rewrite E. pose proof (Parse_printed vs [] Hs Hne (Forall_nil_2 _) eq_refl) as Hp.
    change (star []) with (@nil Z) in Hp. rewrite app_nil_r in Hp. exact Hp.
  - destruct Hr as [?|Hr]; [done|]. destruct Hu as [?|(u & Hu & Hh)]; [done|].
    pose proof (NormalizeServer_readable _ (NormalizeServer_trimmed sp) Hr) as HN.
    unfold readable in Hr. rewrite !andb_true_iff, bool_decide_eq_true in Hr.
    destruct Hr as ((((Ha & Hut) & Hn) & _) & _). rewrite negb_true_iff in Hn.
    set (t := TrimDefaultScheme (NormalizeServer sp)) in *.
    assert (42 :: t = star t) as Es by (unfold star; by rewrite Hn).
    rewrite Es, Parse_printed by done. rewrite HN. cbv zeta. rewrite Hu.
    apply eqb_false in Hh. by rewrite Hh, andb_false_r.
Qed.
End parse.

(** An address on a server called [local] does not round-trip, nor does one whose
    path holds a scheme of its own. *)
Example string_not_canonical :
  let NU : NetURL := λ s, Some (mkURL s s []) in
  let a := mkAddress (lit "q") (lit "https://local") in
  let b := mkAddress (lit "q") (lit "https://http://x") in
  Parse (lit "q*https://local") = Ok a ∧ Parse (Address_String a) = Ok (mkAddress (lit "q") []) ∧
  Parse (lit "q*https://http://x") = Ok b ∧
  Parse (Address_String b) = Ok (mkAddress (lit "q") (lit "http://x")).
Proof. by vm_compute. Qed.

(** ** Evaluations at concrete inputs *)

Definition sample_key : bytes := replicate 32 7.
Definition sample_id : bytes := Eval vm_compute in
  match DeriveIDVersion VersionGroup sample_key with Ok id => id | _ => [] end.

Lemma derive_certifies_witness :
  DeriveIDVersion VersionGroup sample_key = Ok sample_id ∧
  VerifyVersion VersionGroup sample_id sample_key = Ok true ∧
  Verify sample_id sample_key = Ok false.
Proof.
  assert (DeriveIDVersion VersionGroup sample_key = Ok sample_id) as H by (by vm_compute).
  split; [exact H|]. destruct (derive_certifies _ _ _ H) as (_ & _ & _ & Ht & Hf).
  split; [exact Ht|]. apply Hf; [split; reflexivity || discriminate|discriminate].
Defined.

Lemma sample_id_normal : Normalize sample_id = Ok sample_id.
Proof. by vm_compute. Qed.

Lemma typo_detected_witness :
  Normalize (FormatForDisplay sample_id) = Ok sample_id ∧ sample_id = sample_id.
Proof.
  assert (Normalize (FormatForDisplay sample_id) = Ok sample_id) as H by (by vm_compute).
  split; [exact H|]. apply (typo_detected _ _ _ _ H sample_id_normal). by vm_compute; lia.
Defined.

Lemma normalize_cosmetics_witness : Normalize (strings_ToUpper sample_id) = Ok sample_id.
Proof. exact (proj2 (proj2 (normalize_cosmetics _ _ sample_id_normal))). Defined.

Lemma bech32m_roundtrip_witness :
  ∃ s, EncodeBech32m (lit "frz") [1; 2; 31] = Ok s ∧ DecodeBech32m s = Ok (lit "frz", [1; 2; 31]).
Proof.
  destruct (is_ok_ex (EncodeBech32m (lit "frz") [1; 2; 31])) as [s H]; [by vm_compute|].
  exists s. split; [done|]. apply (bech32m_roundtrip _ _ _ H); [done|].
  by repeat constructor.
Defined.

Lemma parse_string_roundtrip_witness :
  let NU : NetURL := λ s, Some (mkURL s s []) in
  Parse (lit "q2xjx*https://Chat.example.org/") = Ok (mkAddress (lit "q2xjx") (lit "https://Chat.example.org"))
  ∧ Parse (Address_String (mkAddress (lit "q2xjx") (lit "https://Chat.example.org")))
    = Ok (mkAddress (lit "q2xjx") (lit "https://Chat.example.org")).
Proof.
  intros NU.
  assert (Parse (lit "q2xjx*https://Chat.example.org/")
    = Ok (mkAddress (lit "q2xjx") (lit "https://Chat.example.org"))) as H by (by vm_compute).
  split; [exact H|]. apply (parse_string_roundtrip _ _ H). right. by vm_compute.
Defined.

(** The published BIP-350 vectors, as the repository's tests list them. *)
Example bip350_valid :
  forallb (λ s, is_ok (DecodeBech32m (lit s)))
    ["A1LQFN3A"; "a1lqfn3a";
     "an83characterlonghumanreadablepartthatcontainsthetheexcludedcharactersbioandnumber11sg7hg6";
     "abcdef1l7aum6echk45nj3s0wdvt2fg8x9yrzpqzd3ryx";
     "11llllllllllllllllllllllllllllllllllllllllllllllllllllllllllllllllllllllllllllllllllludsr8";
     "split1checkupstagehandshakeupstreamerranterredcaperredlc445v"; "?1v759aa"]%string = true.
Proof. by vm_compute. Qed.

Example bip350_invalid :
  forallb (λ s, negb (is_ok (DecodeBech32m s)))
    ((encode_rune 32 ++ lit "1xj0phk") :: (encode_rune 127 ++ lit "1g6xzxy")
     :: (encode_rune 128 ++ lit "1vctc34")
     :: (lit <$> ["an84characterslonghumanreadablepartthatcontainsthetheexcludedcharactersbioandnumber11d6pts4";
        "qyrz8wqd2c9m"; "1qyrz8wqd2c9m"; "y1b0jsk6g"; "lt1igcx5c0"; "in1muywd"; "mm1crxm3i";
        "au1s5cgom"; "M1VUXWEZ"; "16plkw9"]%string)) = true.
Proof. by vm_compute. Qed.
