(* ===== verification/Mnemonic.v ===== *)
(** * Recovery phrases (pkg/mnemonic)

    A 32-byte seed as 24 words of 11 bits: the seed's bits, followed by the first byte of
    its SHA-256.  The bit loops are the code's, an index outside a slice is a panic. *)

From S2P Require Import Prelude GoStr Sha256 Address.

(** ** The word list

    english.txt as it is embedded: 2048 words, one to a line. *)

Definition englishList : bytes := lit "abandon
ability
able
about
above
absent
absorb
abstract
absurd
abuse
access
accident
account
accuse
achieve
acid
acoustic
acquire
across
act
action
actor
actress
actual
adapt
add
addict
address
adjust
admit
adult
advance
advice
aerobic
affair
afford
afraid
again
age
agent
agree
ahead
aim
air
airport
aisle
alarm
album
alcohol
alert
alien
all
alley
allow
almost
alone
alpha
already
also
alter
always
amateur
amazing
among
amount
amused
analyst
anchor
ancient
anger
angle
angry
animal
ankle
announce
annual
another
answer
antenna
antique
anxiety
any
apart
apology
appear
apple
approve
april
arch
arctic
area
arena
argue
arm
armed
armor
army
around
arrange
arrest
arrive
arrow
art
artefact
artist
artwork
ask
aspect
assault
asset
assist
assume
asthma
athlete
atom
attack
attend
attitude
attract
auction
audit
august
aunt
author
auto
autumn
average
avocado
avoid
awake
aware
away
awesome
awful
awkward
axis
baby
bachelor
bacon
badge
bag
balance
balcony
ball
bamboo
banana
banner
bar
barely
bargain
barrel
base
basic
basket
battle
beach
bean
beauty
because
become
beef
before
begin
behave
behind
believe
below
belt
bench
benefit
best
betray
better
between
beyond
bicycle
bid
bike
bind
biology
bird
birth
bitter
black
blade
blame
blanket
blast
bleak
bless
blind
blood
blossom
blouse
blue
blur
blush
board
boat
body
boil
bomb
bone
bonus
book
boost
border
boring
borrow
boss
bottom
bounce
box
boy
bracket
brain
brand
brass
brave
bread
breeze
brick
bridge
brief
bright
bring
brisk
broccoli
broken
bronze
broom
brother
brown
brush
bubble
buddy
budget
buffalo
build
bulb
bulk
bullet
bundle
bunker
burden
burger
burst
bus
business
busy
butter
buyer
buzz
cabbage
cabin
cable
cactus
cage
cake
call
calm
camera
camp
can
canal
cancel
candy
cannon
canoe
canvas
canyon
capable
capital
captain
car
carbon
card
cargo
carpet
carry
cart
case
cash
casino
castle
casual
cat
catalog
catch
category
cattle
caught
cause
caution
cave
ceiling
celery
cement
census
century
cereal
certain
chair
chalk
champion
change
chaos
chapter
charge
chase
chat
cheap
check
cheese
chef
cherry
chest
chicken
chief
child
chimney
choice
choose
chronic
chuckle
chunk
churn
cigar
cinnamon
circle
citizen
city
civil
claim
clap
clarify
claw
clay
clean
clerk
clever
click
client
cliff
climb
clinic
clip
clock
clog
close
cloth
cloud
clown
club
clump
cluster
clutch
coach
coast
coconut
code
coffee
coil
coin
collect
color
column
combine
come
comfort
comic
common
company
concert
conduct
confirm
congress
connect
consider
control
convince
cook
cool
copper
copy
coral
core
corn
correct
cost
cotton
couch
country
couple
course
cousin
cover
coyote
crack
cradle
craft
cram
crane
crash
crater
crawl
crazy
cream
credit
creek
crew
cricket
crime
crisp
critic
crop
cross
crouch
crowd
crucial
cruel
cruise
crumble
crunch
crush
cry
crystal
cube
culture
cup
cupboard
curious
current
curtain
curve
cushion
custom
cute
cycle
dad
damage
damp
dance
danger
daring
dash
daughter
dawn
day
deal
debate
debris
decade
december
decide
decline
decorate
decrease
deer
defense
define
defy
degree
delay
deliver
demand
demise
denial
dentist
deny
depart
depend
deposit
depth
deputy
derive
describe
desert
design
desk
despair
destroy
detail
detect
develop
device
devote
diagram
dial
diamond
diary
dice
diesel
diet
differ
digital
dignity
dilemma
dinner
dinosaur
direct
dirt
disagree
discover
disease
dish
dismiss
disorder
display
distance
divert
divide
divorce
dizzy
doctor
document
dog
doll
dolphin
domain
donate
donkey
donor
door
dose
double
dove
draft
dragon
drama
drastic
draw
dream
dress
drift
drill
drink
drip
drive
drop
drum
dry
duck
dumb
dune
during
dust
dutch
duty
dwarf
dynamic
eager
eagle
early
earn
earth
easily
east
easy
echo
ecology
economy
edge
edit
educate
effort
egg
eight
either
elbow
elder
electric
elegant
element
elephant
elevator
elite
else
embark
embody
embrace
emerge
emotion
employ
empower
empty
enable
enact
end
endless
endorse
enemy
energy
enforce
engage
engine
enhance
enjoy
enlist
enough
enrich
enroll
ensure
enter
entire
entry
envelope
episode
equal
equip
era
erase
erode
erosion
error
erupt
escape
essay
essence
estate
eternal
ethics
evidence
evil
evoke
evolve
exact
example
excess
exchange
excite
exclude
excuse
execute
exercise
exhaust
exhibit
exile
exist
exit
exotic
expand
expect
expire
explain
expose
express
extend
extra
eye
eyebrow
fabric
face
faculty
fade
faint
faith
fall
false
fame
family
famous
fan
fancy
fantasy
farm
fashion
fat
fatal
father
fatigue
fault
favorite
feature
february
federal
fee
feed
feel
female
fence
festival
fetch
fever
few
fiber
fiction
field
figure
file
film
filter
final
find
fine
finger
finish
fire
firm
first
fiscal
fish
fit
fitness
fix
flag
flame
flash
flat
flavor
flee
flight
flip
float
flock
floor
flower
fluid
flush
fly
foam
focus
fog
foil
fold
follow
food
foot
force
forest
forget
fork
fortune
forum
forward
fossil
foster
found
fox
fragile
frame
frequent
fresh
friend
fringe
frog
front
frost
frown
frozen
fruit
fuel
fun
funny
furnace
fury
future
gadget
gain
galaxy
gallery
game
gap
garage
garbage
garden
garlic
garment
gas
gasp
gate
gather
gauge
gaze
general
genius
genre
gentle
genuine
gesture
ghost
giant
gift
giggle
ginger
giraffe
girl
give
glad
glance
glare
glass
glide
glimpse
globe
gloom
glory
glove
glow
glue
goat
goddess
gold
good
goose
gorilla
gospel
gossip
govern
gown
grab
grace
grain
grant
grape
grass
gravity
great
green
grid
grief
grit
grocery
group
grow
grunt
guard
guess
guide
guilt
guitar
gun
gym
habit
hair
half
hammer
hamster
hand
happy
harbor
hard
harsh
harvest
hat
have
hawk
hazard
head
health
heart
heavy
hedgehog
height
hello
helmet
help
hen
hero
hidden
high
hill
hint
hip
hire
history
hobby
hockey
hold
hole
holiday
hollow
home
honey
hood
hope
horn
horror
horse
hospital
host
hotel
hour
hover
hub
huge
human
humble
humor
hundred
hungry
hunt
hurdle
hurry
hurt
husband
hybrid
ice
icon
idea
identify
idle
ignore
ill
illegal
illness
image
imitate
immense
immune
impact
impose
improve
impulse
inch
include
income
increase
index
indicate
indoor
industry
infant
inflict
inform
inhale
inherit
initial
inject
injury
inmate
inner
innocent
input
inquiry
insane
insect
inside
inspire
install
intact
interest
into
invest
invite
involve
iron
island
isolate
issue
item
ivory
jacket
jaguar
jar
jazz
jealous
jeans
jelly
jewel
job
join
joke
journey
joy
judge
juice
jump
jungle
junior
junk
just
kangaroo
keen
keep
ketchup
key
kick
kid
kidney
kind
kingdom
kiss
kit
kitchen
kite
kitten
kiwi
knee
knife
knock
know
lab
label
labor
ladder
lady
lake
lamp
language
laptop
large
later
latin
laugh
laundry
lava
law
lawn
lawsuit
layer
lazy
leader
leaf
learn
leave
lecture
left
leg
legal
legend
leisure
lemon
lend
length
lens
leopard
lesson
letter
level
liar
liberty
library
license
life
lift
light
like
limb
limit
link
lion
liquid
list
little
live
lizard
load
loan
lobster
local
lock
logic
lonely
long
loop
lottery
loud
lounge
love
loyal
lucky
luggage
lumber
lunar
lunch
luxury
lyrics
machine
mad
magic
magnet
maid
mail
main
major
make
mammal
man
manage
mandate
mango
mansion
manual
maple
marble
march
margin
marine
market
marriage
mask
mass
master
match
material
math
matrix
matter
maximum
maze
meadow
mean
measure
meat
mechanic
medal
media
melody
melt
member
memory
mention
menu
mercy
merge
merit
merry
mesh
message
metal
method
middle
midnight
milk
million
mimic
mind
minimum
minor
minute
miracle
mirror
misery
miss
mistake
mix
mixed
mixture
mobile
model
modify
mom
moment
monitor
monkey
monster
month
moon
moral
more
morning
mosquito
mother
motion
motor
mountain
mouse
move
movie
much
muffin
mule
multiply
muscle
museum
mushroom
music
must
mutual
myself
mystery
myth
naive
name
napkin
narrow
nasty
nation
nature
near
neck
need
negative
neglect
neither
nephew
nerve
nest
net
network
neutral
never
news
next
nice
night
noble
noise
nominee
noodle
normal
north
nose
notable
note
nothing
notice
novel
now
nuclear
number
nurse
nut
oak
obey
object
oblige
obscure
observe
obtain
obvious
occur
ocean
october
odor
off
offer
office
often
oil
okay
old
olive
olympic
omit
once
one
onion
online
only
open
opera
opinion
oppose
option
orange
orbit
orchard
order
ordinary
organ
orient
original
orphan
ostrich
other
outdoor
outer
output
outside
oval
oven
over
own
owner
oxygen
oyster
ozone
pact
paddle
page
pair
palace
palm
panda
panel
panic
panther
paper
parade
parent
park
parrot
party
pass
patch
path
patient
patrol
pattern
pause
pave
payment
peace
peanut
pear
peasant
pelican
pen
penalty
pencil
people
pepper
perfect
permit
person
pet
phone
photo
phrase
physical
piano
picnic
picture
piece
pig
pigeon
pill
pilot
pink
pioneer
pipe
pistol
pitch
pizza
place
planet
plastic
plate
play
please
pledge
pluck
plug
plunge
poem
poet
point
polar
pole
police
pond
pony
pool
popular
portion
position
possible
post
potato
pottery
poverty
powder
power
practice
praise
predict
prefer
prepare
present
pretty
prevent
price
pride
primary
print
priority
prison
private
prize
problem
process
produce
profit
program
project
promote
proof
property
prosper
protect
proud
provide
public
pudding
pull
pulp
pulse
pumpkin
punch
pupil
puppy
purchase
purity
purpose
purse
push
put
puzzle
pyramid
quality
quantum
quarter
question
quick
quit
quiz
quote
rabbit
raccoon
race
rack
radar
radio
rail
rain
raise
rally
ramp
ranch
random
range
rapid
rare
rate
rather
raven
raw
razor
ready
real
reason
rebel
rebuild
recall
receive
recipe
record
recycle
reduce
reflect
reform
refuse
region
regret
regular
reject
relax
release
relief
rely
remain
remember
remind
remove
render
renew
rent
reopen
repair
repeat
replace
report
require
rescue
resemble
resist
resource
response
result
retire
retreat
return
reunion
reveal
review
reward
rhythm
rib
ribbon
rice
rich
ride
ridge
rifle
right
rigid
ring
riot
ripple
risk
ritual
rival
river
road
roast
robot
robust
rocket
romance
roof
rookie
room
rose
rotate
rough
round
route
royal
rubber
rude
rug
rule
run
runway
rural
sad
saddle
sadness
safe
sail
salad
salmon
salon
salt
salute
same
sample
sand
satisfy
satoshi
sauce
sausage
save
say
scale
scan
scare
scatter
scene
scheme
school
science
scissors
scorpion
scout
scrap
screen
script
scrub
sea
search
season
seat
second
secret
section
security
seed
seek
segment
select
sell
seminar
senior
sense
sentence
series
service
session
settle
setup
seven
shadow
shaft
shallow
share
shed
shell
sheriff
shield
shift
shine
ship
shiver
shock
shoe
shoot
shop
short
shoulder
shove
shrimp
shrug
shuffle
shy
sibling
sick
side
siege
sight
sign
silent
silk
silly
silver
similar
simple
since
sing
siren
sister
situate
six
size
skate
sketch
ski
skill
skin
skirt
skull
slab
slam
sleep
slender
slice
slide
slight
slim
slogan
slot
slow
slush
small
smart
smile
smoke
smooth
snack
snake
snap
sniff
snow
soap
soccer
social
sock
soda
soft
solar
soldier
solid
solution
solve
someone
song
soon
sorry
sort
soul
sound
soup
source
south
space
spare
spatial
spawn
speak
special
speed
spell
spend
sphere
spice
spider
spike
spin
spirit
split
spoil
sponsor
spoon
sport
spot
spray
spread
spring
spy
square
squeeze
squirrel
stable
stadium
staff
stage
stairs
stamp
stand
start
state
stay
steak
steel
stem
step
stereo
stick
still
sting
stock
stomach
stone
stool
story
stove
strategy
street
strike
strong
struggle
student
stuff
stumble
style
subject
submit
subway
success
such
sudden
suffer
sugar
suggest
suit
summer
sun
sunny
sunset
super
supply
supreme
sure
surface
surge
surprise
surround
survey
suspect
sustain
swallow
swamp
swap
swarm
swear
sweet
swift
swim
swing
switch
sword
symbol
symptom
syrup
system
table
tackle
tag
tail
talent
talk
tank
tape
target
task
taste
tattoo
taxi
teach
team
tell
ten
tenant
tennis
tent
term
test
text
thank
that
theme
then
theory
there
they
thing
this
thought
three
thrive
throw
thumb
thunder
ticket
tide
tiger
tilt
timber
time
tiny
tip
tired
tissue
title
toast
tobacco
today
toddler
toe
together
toilet
token
tomato
tomorrow
tone
tongue
tonight
tool
tooth
top
topic
topple
torch
tornado
tortoise
toss
total
tourist
toward
tower
town
toy
track
trade
traffic
tragic
train
transfer
trap
trash
travel
tray
treat
tree
trend
trial
tribe
trick
trigger
trim
trip
trophy
trouble
truck
true
truly
trumpet
trust
truth
try
tube
tuition
tumble
tuna
tunnel
turkey
turn
turtle
twelve
twenty
twice
twin
twist
two
type
typical
ugly
umbrella
unable
unaware
uncle
uncover
under
undo
unfair
unfold
unhappy
uniform
unique
unit
universe
unknown
unlock
until
unusual
unveil
update
upgrade
uphold
upon
upper
upset
urban
urge
usage
use
used
useful
useless
usual
utility
vacant
vacuum
vague
valid
valley
valve
van
vanish
vapor
various
vast
vault
vehicle
velvet
vendor
venture
venue
verb
verify
version
very
vessel
veteran
viable
vibrant
vicious
victory
video
view
village
vintage
violin
virtual
virus
visa
visit
visual
vital
vivid
vocal
voice
void
volcano
volume
vote
voyage
wage
wagon
wait
walk
wall
walnut
want
warfare
warm
warrior
wash
wasp
waste
water
wave
way
wealth
weapon
wear
weasel
weather
web
wedding
weekend
weird
welcome
west
wet
whale
what
wheat
wheel
when
where
whip
whisper
wide
width
wife
wild
will
win
window
wine
wing
wink
winner
winter
wire
wisdom
wise
wish
witness
wolf
woman
wonder
wood
wool
word
work
world
worry
worth
wrap
wreck
wrestle
wrist
write
wrong
yard
year
yellow
you
young
youth
zebra
zero
zone
zoo
".

(** ** strings.Fields *)

Definition flush_field (acc : bytes) : list bytes := match acc with [] => [] | _ => [acc] end.
Fixpoint fields_from (acc : bytes) (l : list (Z * Z * bytes)) : list bytes :=
  match l with
  | [] => flush_field acc
  | x :: l => if is_space x.1.2 then flush_field acc ++ fields_from [] l else fields_from (acc ++ x.2) l
  end.
Definition strings_Fields (s : bytes) : list bytes := fields_from [] (range_str s).
(** [strings.Join(words, " ")]. *)
Fixpoint join_words (ws : list bytes) : bytes :=
  match ws with [] => [] | [w] => w | w :: ws => w ++ 32 :: join_words ws end.

(** ** The package *)

Definition SeedSize : Z := 32.
Definition WordCount : Z := 24.
Definition WordlistSize : Z := 2048.
Definition bitsPerWord : Z := 11.

Inductive merr := ErrSeedSize | ErrWordCount | ErrUnknownWord (w : bytes) | ErrChecksum.

Definition wordList : list bytes := strings_Fields englishList.
Definition index_words (l : list bytes) : gmap bytes Z := foldl (λ m p, <[p.2 := p.1]> m) ∅ (zip (seqZ 0 (zlen l)) l).
Definition wordIndex : gmap bytes Z := index_words wordList.
(** [init] panics when the embedded list has another size. *)
Definition init : res merr () := if zlen wordList =? WordlistSize then Ok () else Panic.

Definition byte_at (b : bytes) (i : Z) : res merr Z :=
  if i <? 0 then Panic else match b !! Z.to_nat i with Some x => Ok x | None => Panic end.

(** [readBits], [v] what was read so far and [pos] the next bit. *)
Fixpoint read_from (b : bytes) (pos : Z) (n : nat) (v : Z) : res merr Z :=
  match n with
  | O => Ok v
  | S n =>
    x ← byte_at b (pos / 8);
    read_from b (pos + 1) n (Z.lor (Z.shiftl v 1) (Z.land (Z.shiftr x (7 - pos mod 8)) 1))
  end.
Definition readBits (b : bytes) (off n : Z) : res merr Z := read_from b off (Z.to_nat n) 0.

(** [writeBits], from the bit [pos] on with [n] bits of [val] left. *)
Fixpoint write_from (b : bytes) (pos : Z) (n : nat) (val : Z) : res merr bytes :=
  match n with
  | O => Ok b
  | S n =>
    if Z.land (Z.shiftr val (Z.of_nat n)) 1 =? 1 then
      x ← byte_at b (pos / 8);
      write_from (<[Z.to_nat (pos / 8) := Z.lor x (Z.shiftl 1 (7 - pos mod 8))]> b) (pos + 1) n val
    else write_from b (pos + 1) n val
  end.
Definition writeBits (b : bytes) (off n val : Z) : res merr bytes := write_from b off (Z.to_nat n) val.

Definition word_at (buf : bytes) (i : Z) : res merr bytes :=
  v ← readBits buf (i * bitsPerWord) bitsPerWord;
  if v <? 0 then Panic else match wordList !! Z.to_nat v with Some w => Ok w | None => Panic end.
(** The seed followed by the checksum byte. *)
Definition with_checksum (seed : bytes) : bytes := seed ++ take 1 (sha256 seed).
Definition Encode (seed : bytes) : res merr (list bytes) :=
  if negb (zlen seed =? SeedSize) then Err ErrSeedSize
  else mapM (word_at (with_checksum seed)) (seqZ 0 WordCount).
Definition EncodeString (seed : bytes) : res merr bytes := words ← Encode seed; Ok (join_words words).

Definition sum_byte (seed : bytes) : Z := default 0 (head (sha256 seed)).

Section decode.
Context {UC : UnicodeCase}.
Definition normal_word (w : bytes) : bytes := strings_ToLower (trim_space w).
Fixpoint write_words (buf : bytes) (i : Z) (words : list bytes) {struct words} : res merr bytes :=
  match words with
  | [] => Ok buf
  | w :: words =>
    match wordIndex !! normal_word w with
    | None => Err (ErrUnknownWord w)
    | Some idx => buf ← writeBits buf (i * bitsPerWord) bitsPerWord idx; write_words buf (i + 1) words
    end
  end.
Definition Decode (words : list bytes) : res merr bytes :=
  if negb (zlen words =? WordCount) then Err ErrWordCount
  else
    buf ← write_words (replicate (Z.to_nat (SeedSize + 1)) 0) 0 words;
    let seed := take (Z.to_nat SeedSize) buf in
    check ← byte_at buf SeedSize;
    if negb (check =? sum_byte seed) then Err ErrChecksum else Ok seed.
Definition DecodeString (phrase : bytes) : res merr bytes := Decode (strings_Fields phrase).
Definition ValidWord (w : bytes) : bool := match wordIndex !! normal_word w with Some _ => true | None => false end.
End decode.

(** ** The word list *)

Definition plain_char (c : Z) : bool := in_range 97 122 c.
Definition plain_word (w : bytes) : bool := match w with [] => false | _ => forallb plain_char w end.
Fixpoint increasing (l : list bytes) : bool :=
  match l with a :: (b :: _) as l' => bytes_leb a b && negb (a =?b b) && increasing l' | _ => true end.

Lemma words_counted : (zlen wordList =? WordlistSize) = true.
Proof. vm_compute. reflexivity. Qed.
Lemma words_plain : forallb plain_word wordList = true.
Proof. vm_compute. reflexivity. Qed.
Lemma words_increasing : increasing wordList = true.
Proof. vm_compute. reflexivity. Qed.
#[global] Opaque wordList wordIndex.

Lemma init_succeeds : init = Ok ().
Proof. unfold init. by rewrite words_counted. Qed.
Lemma wordList_length : length wordList = 2048%nat.
Proof. pose proof (proj1 (Z.eqb_eq _ _) words_counted) as H. revert H. generalize wordList. unfold zlen, WordlistSize. lia. Qed.
Lemma wordList_plain w : w ∈ wordList → plain_word w = true.
Proof. intros Hw. by apply (proj1 (forallb_forall _ _) words_plain), list_elem_of_In. Qed.

Lemma increasing_above a l : increasing (a :: l) = true → ∀ x, x ∈ l → bytes_le a x ∧ a ≠ x.
Proof.
  revert a. induction l as [|b l IH]; intros a H x Hx; [by apply elem_of_nil in Hx|].
  change ((bytes_leb a b && negb (a =?b b)) && increasing (b :: l) = true) in H. rewrite !andb_true_iff, negb_true_iff, eqb_false in H.
  destruct H as [[Hab Hne] Hl]. apply elem_of_cons in Hx as [->|Hx]; [done|]. destruct (IH b Hl x Hx) as [Hbx _].
  split; [by transitivity b|]. intros ->. by apply Hne, (anti_symm bytes_le).
Qed.
Lemma increasing_NoDup l : increasing l = true → NoDup l.
Proof.
  induction l as [|a l IH]; intros H; constructor.
  - intros Ha. by destruct (increasing_above a l H a Ha) as [_ []].
  - apply IH. destruct l as [|b l]; [done|]. by apply andb_true_iff in H as [_ H].
Qed.
Lemma wordList_NoDup : NoDup wordList.
Proof. apply increasing_NoDup, words_increasing. Qed.

Lemma index_from (l : list bytes) (m : gmap bytes Z) k w i : NoDup l →
  foldl (λ m p, <[p.2 := p.1]> m) m (zip (seqZ k (zlen l)) l) !! w = Some i ↔
  (∃ j, l !! j = Some w ∧ i = k + Z.of_nat j) ∨ (w ∉ l ∧ m !! w = Some i).
Proof.
  revert m k. induction l as [|x l IH]; intros m k Hnd.
  { cbn. split; [intros H; right; split; [apply not_elem_of_nil|done]|intros [(j & Hj & _)|[_ H]]; [by rewrite lookup_nil in Hj|done]]. }
  apply NoDup_cons in Hnd as [Hx Hnd]. rewrite seqZ_cons by (unfold zlen; cbn; lia).
  replace (Z.pred (zlen (x :: l))) with (zlen l) by (unfold zlen; cbn; lia). cbn [zip zip_with foldl fst snd]. rewrite IH by done. split.
  - intros [(j & Hj & ->)|[Hw Hm]]; [left; exists (S j); split; [done|lia]|]. apply lookup_insert_Some in Hm as [[<- <-]|[Hne Hm]]; [left; exists 0%nat; split; [done|lia]|].
    right. split; [|done]. rewrite elem_of_cons. intros [->|?]; done.
  - intros [([|j] & Hj & ->)|[Hw Hm]].
    + injection Hj as ->. right. split; [done|]. rewrite lookup_insert_eq. f_equal. lia.
    + left. exists j. split; [done|lia].
    + apply not_elem_of_cons in Hw as [Hne Hw]. right. split; [done|]. by rewrite lookup_insert_ne.
Qed.
(** The map and the list are inverse to each other. *)
Lemma wordIndex_spec w i : wordIndex !! w = Some i ↔ 0 ≤ i ∧ wordList !! Z.to_nat i = Some w.
Proof.
  Transparent wordIndex. unfold wordIndex, index_words. Opaque wordIndex. rewrite index_from by apply wordList_NoDup. rewrite lookup_empty. split.
  - intros [(j & Hj & ->)|[_ ?]]; [|done]. split; [lia|]. by replace (Z.to_nat (0 + Z.of_nat j)) with j by lia.
  - intros [Hi Hw]. left. exists (Z.to_nat i). split; [done|lia].
Qed.
Lemma wordIndex_range w i : wordIndex !! w = Some i → 0 ≤ i < 2048.
Proof. rewrite wordIndex_spec. intros [Hi Hw%lookup_lt_Some]. rewrite wordList_length in Hw. lia. Qed.

(** ** Bits *)

Definition bit (b : bytes) (pos : Z) : bool := Z.testbit (default 0 (b !! Z.to_nat (pos / 8))) (7 - pos mod 8).

Lemma byte_at_Ok b i : 0 ≤ i < zlen b → ∃ x, b !! Z.to_nat i = Some x ∧ byte_at b i = Ok x.
Proof.
  unfold zlen, byte_at. intros Hi. destruct (lookup_lt_is_Some_2 b (Z.to_nat i)) as [x Hx]; [lia|]. exists x. split; [done|].
  destruct (Z.ltb_spec i 0); [lia|]. by rewrite Hx.
Qed.
Lemma land_1_bit x k : 0 ≤ k → Z.land (Z.shiftr x k) 1 = Z.b2z (Z.testbit x k).
Proof. intros Hk. change 1 with (Z.ones 1). rewrite Z.land_ones by lia. change (2 ^ 1) with 2. by rewrite <- Z.bit0_mod, Z.shiftr_spec, Z.add_0_l. Qed.
Lemma b2z_bits (c : bool) k : 0 ≤ k → Z.testbit (Z.b2z c) k = if k =? 0 then c else false.
Proof. intros Hk. destruct (Z.eqb_spec k 0) as [->|]; [apply Z.b2z_bit0|]. destruct c; cbn; [|apply Z.bits_0]. apply (Z.bits_above_log2 1); cbn; lia. Qed.

Lemma read_from_spec b n : ∀ pos v, 0 ≤ pos → pos + Z.of_nat n ≤ 8 * zlen b →
  ∃ r, read_from b pos n v = Ok r ∧
    ∀ k, 0 ≤ k → Z.testbit r k = if k <? Z.of_nat n then bit b (pos + Z.of_nat n - 1 - k) else Z.testbit v (k - Z.of_nat n).
Proof.
  induction n as [|n IH]; intros pos v Hp Hn.
  { exists v. split; [done|]. intros k Hk. destruct (Z.ltb_spec k (Z.of_nat 0)); [lia|]. f_equal. lia. }
  cbn [read_from]. destruct (byte_at_Ok b (pos / 8)) as (x & Hx & ->); [split; [apply Z.div_pos; lia|apply Z.div_lt_upper_bound; lia]|].
  cbn [mbind res_bind]. rewrite land_1_bit by (pose proof (Z.mod_pos_bound pos 8); lia).
  destruct (IH (pos + 1) (Z.lor (Z.shiftl v 1) (Z.b2z (Z.testbit x (7 - pos mod 8))))) as (r & Hr & Hb); [lia..|].
  exists r. split; [done|]. intros k Hk. rewrite Hb by done. destruct (Z.ltb_spec k (Z.of_nat n)), (Z.ltb_spec k (Z.of_nat (S n))); try lia.
  - f_equal. lia.
  - rewrite Z.lor_spec, Z.shiftl_spec, b2z_bits by lia. replace k with (Z.of_nat n) by lia.
    rewrite (Z.testbit_neg_r v) by lia. replace (Z.of_nat n - Z.of_nat n =? 0) with true by (symmetry; apply Z.eqb_eq; lia).
    replace (pos + Z.of_nat (S n) - 1 - Z.of_nat n) with pos by lia. unfold bit. by rewrite Hx.
  - rewrite Z.lor_spec, Z.shiftl_spec, b2z_bits by lia. replace (k - Z.of_nat n =? 0) with false by (symmetry; apply Z.eqb_neq; lia).
    rewrite orb_false_r. f_equal. lia.
Qed.

Lemma bit_insert b i x j pos : 0 ≤ pos → b !! Z.to_nat (pos / 8) = Some x → 0 ≤ j < 8 → 0 ≤ i → pos / 8 = i →
  ∀ q, 0 ≤ q → bit (<[Z.to_nat i := Z.lor x (Z.shiftl 1 (7 - j))]> b) q = bit b q || (q =? i * 8 + j).
Proof.
  intros Hp Hx Hj Hi <- q Hq. unfold bit. pose proof (Z.mod_pos_bound q 8). pose proof (Z.div_mod q 8).
  destruct (decide (q / 8 = pos / 8)) as [E|Ne].
  - rewrite E, list_lookup_insert_eq by (by apply lookup_lt_Some in Hx). rewrite Hx. cbn [default from_option id].
    rewrite Z.lor_spec, Z.shiftl_spec by lia. f_equal. destruct (Z.eqb_spec q (pos / 8 * 8 + j)) as [->|Hne].
    + replace ((pos / 8 * 8 + j) mod 8) with j by (rewrite Z.add_comm, Z.mod_add, Z.mod_small; lia). by rewrite Z.sub_diag.
    + destruct (decide (7 - q mod 8 - (7 - j) < 0)); [apply Z.testbit_neg_r; lia|]. apply (Z.bits_above_log2 1); cbn; lia.
  - rewrite list_lookup_insert_ne by (pose proof (Z.div_pos q 8); lia).
    replace (q =? _) with false by (symmetry; apply Z.eqb_neq; intros Hqe; apply Ne; rewrite Hqe, Z.add_comm, Z.div_add, Z.div_small; lia). by rewrite orb_false_r.
Qed.
Lemma byte_lor x k : is_byte x → 0 ≤ k < 8 → is_byte (Z.lor x (Z.shiftl 1 k)).
Proof.
  unfold is_byte. intros Hx Hk. split; [apply Z.lor_nonneg; split; [lia|apply Z.shiftl_nonneg; lia]|].
  destruct (Z.lt_ge_cases (Z.lor x (Z.shiftl 1 k)) 256) as [|Hge]; [done|exfalso].
  assert (0 < Z.lor x (Z.shiftl 1 k)) as Hpos by lia. pose proof (Z.log2_le_mono _ _ Hge) as Hl. change (Z.log2 256) with 8 in Hl.
  rewrite Z.log2_lor in Hl by (lia || apply Z.shiftl_nonneg; lia). rewrite Z.log2_shiftl, Z.add_0_l in Hl by lia.
  assert (Z.log2 x ≤ 7); [|cbn in Hl; lia]. change 7 with (Z.log2 255). apply Z.log2_le_mono. lia.
Qed.

Definition writes (pos n val q : Z) : bool := (pos <=? q) && (q <? pos + n) && Z.testbit val (pos + n - 1 - q).
Lemma write_from_spec n val : 0 ≤ val → ∀ b pos, is_bytes b → 0 ≤ pos → pos + Z.of_nat n ≤ 8 * zlen b →
  ∃ b', write_from b pos n val = Ok b' ∧ is_bytes b' ∧ length b' = length b ∧
    ∀ q, 0 ≤ q → bit b' q = bit b q || writes pos (Z.of_nat n) val q.
Proof.
  intros Hv. induction n as [|n IH]; intros b pos Hb Hp Hn.
  { exists b. split_and!; [done..|]. intros q Hq. unfold writes. destruct (Z.leb_spec pos q), (Z.ltb_spec q (pos + Z.of_nat 0)); try lia; by rewrite orb_false_r. }
  assert (0 ≤ pos mod 8 < 8) as Hm by (apply Z.mod_pos_bound; lia).
  assert (∀ q, 0 ≤ q → writes pos (Z.of_nat (S n)) val q = (q =? pos) && Z.testbit val (Z.of_nat n) || writes (pos + 1) (Z.of_nat n) val q) as Hw.
  { intros q Hq. unfold writes. destruct (Z.eqb_spec q pos) as [->|].
    - destruct (Z.leb_spec pos pos), (Z.ltb_spec pos (pos + Z.of_nat (S n))), (Z.leb_spec (pos + 1) pos); try lia. cbn. rewrite orb_false_r. f_equal. lia.
    - destruct (Z.leb_spec pos q), (Z.ltb_spec q (pos + Z.of_nat (S n))), (Z.leb_spec (pos + 1) q), (Z.ltb_spec q (pos + 1 + Z.of_nat n)); try lia; cbn; try done. f_equal. lia. }
  cbn [write_from]. rewrite land_1_bit by lia. destruct (Z.testbit val (Z.of_nat n)) eqn:Eb; cbn [Z.b2z Z.eqb].
  - destruct (byte_at_Ok b (pos / 8)) as (x & Hx & ->); [split; [apply Z.div_pos; lia|apply Z.div_lt_upper_bound; lia]|]. cbn [mbind res_bind Pos.eqb].
    destruct (IH (<[Z.to_nat (pos / 8) := Z.lor x (Z.shiftl 1 (7 - pos mod 8))]> b) (pos + 1)) as (b' & E & Hb' & Hl & Hbit).
    { apply Forall_insert; [done|]. apply byte_lor; [|lia]. by apply (Forall_lookup_1 _ _ _ _ Hb Hx). }
    { lia. } { unfold zlen in *. rewrite length_insert. lia. }
    exists b'. split_and!; [done..|by rewrite Hl, length_insert|]. intros q Hq. rewrite Hbit, (bit_insert b (pos / 8) x (pos mod 8) pos), Hw by (lia || done || apply Z.div_pos; lia).
    replace (pos / 8 * 8 + pos mod 8) with pos by (pose proof (Z.div_mod pos 8); lia). by rewrite andb_true_r, orb_assoc.
  - destruct (IH b (pos + 1)) as (b' & E & Hb' & Hl & Hbit); [done|lia..|]. exists b'. split_and!; [done..|]. intros q Hq. rewrite Hbit, Hw by done. by rewrite andb_false_r.
Qed.

(** Equal bits, equal bytes. *)
Lemma bits_ext b b' : is_bytes b → is_bytes b' → length b = length b' → (∀ q, 0 ≤ q < 8 * zlen b → bit b q = bit b' q) → b = b'.
Proof.
  intros Hb Hb' Hl H. apply list_eq_same_length with (length b); [done..|]. intros i x y Hi Hx Hy.
  pose proof (Forall_lookup_1 _ _ _ _ Hb Hx) as Bx. pose proof (Forall_lookup_1 _ _ _ _ Hb' Hy) as By. unfold is_byte in *.
  apply Z.bits_inj'. intros k Hk. destruct (Z.lt_ge_cases k 8) as [Hk8|Hk8].
  - specialize (H (Z.of_nat i * 8 + (7 - k))). unfold bit, zlen in H.
    replace ((Z.of_nat i * 8 + (7 - k)) / 8) with (Z.of_nat i) in H by (rewrite Z.add_comm, Z.div_add, Z.div_small; lia).
    replace ((Z.of_nat i * 8 + (7 - k)) mod 8) with (7 - k) in H by (rewrite Z.add_comm, Z.mod_add, Z.mod_small; lia).
    rewrite Nat2Z.id, Hx, Hy in H. cbn [default from_option id] in H. replace (7 - (7 - k)) with k in H by lia. apply H. lia.
  - assert (∀ z, 0 ≤ z < 256 → Z.testbit z k = false) as Z8; [|by rewrite !Z8].
    intros z Hz. destruct (decide (z = 0)) as [->|]; [apply Z.bits_0|]. apply Z.bits_above_log2; [lia|]. apply Z.lt_le_trans with 8; [|done].
    apply Z.log2_lt_pow2; lia.
Qed.

(** ** Words *)

Lemma small_bits v : 0 ≤ v < 2048 ↔ ∀ k, 11 ≤ k → Z.testbit v k = false.
Proof.
  split.
  - intros Hv k Hk. rewrite <- (Z.mod_small v (2 ^ 11)) by done. by apply Z.mod_pow2_bits_high; split.
  - intros H. replace v with (v mod 2 ^ 11); [by apply Z.mod_pos_bound|]. apply Z.bits_inj'. intros k Hk.
    destruct (Z.lt_ge_cases k 11); [by apply Z.mod_pow2_bits_low|]. rewrite Z.mod_pow2_bits_high by lia. by rewrite H.
Qed.
Lemma readBits_spec b i : zlen b = 33 → 0 ≤ i < 24 →
  ∃ v, readBits b (i * bitsPerWord) bitsPerWord = Ok v ∧ 0 ≤ v < 2048 ∧ ∀ k, 0 ≤ k < 11 → Z.testbit v k = bit b (i * 11 + 10 - k).
Proof.
  intros Hb Hi. unfold readBits, bitsPerWord. destruct (read_from_spec b (Z.to_nat 11) (i * 11) 0) as (v & E & Hv); [lia..|]. exists v.
  split; [done|]. change (Z.of_nat (Z.to_nat 11)) with 11 in Hv. split.
  - apply small_bits. intros k Hk. rewrite Hv by lia. destruct (Z.ltb_spec k 11); [lia|]. apply Z.bits_0.
  - intros k Hk. rewrite Hv by lia. destruct (Z.ltb_spec k 11); [|lia]. f_equal. lia.
Qed.

(** The bits that the words [xs] set, the first of them the word [i]. *)
Fixpoint spread (i : Z) (xs : list Z) (q : Z) : bool :=
  match xs with [] => false | x :: xs => writes (i * 11) 11 x q || spread (i + 1) xs q end.
Lemma spread_before xs i q : q < i * 11 → spread i xs q = false.
Proof.
  revert i. induction xs as [|x xs IH]; intros i Hq; [done|]. cbn [spread]. rewrite IH by lia. unfold writes. by destruct (Z.leb_spec (i * 11) q); [lia|].
Qed.
Lemma spread_at xs i j x q : xs !! j = Some x → (i + Z.of_nat j) * 11 ≤ q < (i + Z.of_nat j) * 11 + 11 →
  spread i xs q = Z.testbit x ((i + Z.of_nat j) * 11 + 10 - q).
Proof.
  revert i j. induction xs as [|y xs IH]; intros i [|j] Hj Hq; try done.
  - injection Hj as ->. cbn [spread]. rewrite spread_before by lia. unfold writes.
    destruct (Z.leb_spec (i * 11) q), (Z.ltb_spec q (i * 11 + 11)); try lia. cbn. rewrite orb_false_r. f_equal. lia.
  - cbn [spread]. rewrite (IH (i + 1) j Hj) by lia. unfold writes. destruct (Z.ltb_spec q (i * 11 + 11)); [lia|].
    rewrite andb_false_r. cbn [andb orb]. f_equal. lia.
Qed.

Section words.
Context {UC : UnicodeCase}.
Definition indexed (words : list bytes) (xs : list Z) : Prop := Forall2 (λ w x, wordIndex !! normal_word w = Some x) words xs.

Lemma write_words_spec words xs : indexed words xs → ∀ b i, is_bytes b → zlen b = 33 → 0 ≤ i → i + zlen words ≤ 24 →
  ∃ b', write_words b i words = Ok b' ∧ is_bytes b' ∧ zlen b' = 33 ∧ ∀ q, 0 ≤ q → bit b' q = bit b q || spread i xs q.
Proof.
  induction 1 as [|w x words xs Hw _ IH]; intros b i Hb Hl Hi Hn.
  { exists b. split_and!; [done..|]. intros q Hq. by rewrite orb_false_r. }
  cbn [write_words]. rewrite Hw. pose proof (wordIndex_range _ _ Hw) as Hx.
  assert (zlen (w :: words) = 1 + zlen words) as El by (unfold zlen; cbn [length]; lia). pose proof (zlen_nonneg words).
  destruct (write_from_spec (Z.to_nat 11) x (proj1 Hx) b (i * 11) Hb) as (b1 & E & Hb1 & Hl1 & Hq1); [lia|change (Z.of_nat (Z.to_nat 11)) with 11; lia|].
  unfold writeBits, bitsPerWord. rewrite E. cbn [mbind res_bind].
  destruct (IH b1 (i + 1) Hb1) as (b2 & E2 & Hb2 & Hl2 & Hq2); [unfold zlen in *; lia|lia..|]. exists b2. split_and!; [done..|].
  intros q Hq. rewrite Hq2, Hq1 by done. cbn [spread]. change (Z.of_nat (Z.to_nat 11)) with 11. by rewrite orb_assoc.
Qed.
Lemma write_words_indexed words : ∀ b i b', is_bytes b → zlen b = 33 → 0 ≤ i → i + zlen words ≤ 24 → write_words b i words = Ok b' → ∃ xs, indexed words xs.
Proof.
  induction words as [|w words IH]; intros b i b' Hb Hl Hi Hn H; [by exists []; constructor|]. cbn [write_words] in H.
  destruct (wordIndex !! normal_word w) as [x|] eqn:Ew; [|done]. pose proof (wordIndex_range _ _ Ew) as Hx.
  assert (zlen (w :: words) = 1 + zlen words) as El by (unfold zlen; cbn [length]; lia). pose proof (zlen_nonneg words).
  destruct (write_from_spec (Z.to_nat 11) x (proj1 Hx) b (i * 11) Hb) as (b1 & E & Hb1 & Hl1 & _); [lia|change (Z.of_nat (Z.to_nat 11)) with 11; lia|].
  unfold writeBits, bitsPerWord in H. rewrite E in H. cbn [mbind res_bind] in H.
  destruct (IH b1 (i + 1) b') as [xs Hxs]; [done|unfold zlen in *; lia|lia|lia|done|]. exists (x :: xs). by constructor.
Qed.

(** The words a buffer reads as. *)
Definition reads (b : bytes) (xs : list Z) : Prop := Forall2 (λ i x, readBits b (i * bitsPerWord) bitsPerWord = Ok x) (seqZ 0 WordCount) xs.
Lemma reads_written b xs : zlen b = 33 → zlen xs = 24 → Forall (λ x, 0 ≤ x < 2048) xs → (∀ q, 0 ≤ q → bit b q = spread 0 xs q) → reads b xs.
Proof.
  intros Hb Hn Hx Hq. unfold zlen in Hn. apply Forall2_same_length_lookup. rewrite length_seqZ. split; [unfold WordCount; lia|]. intros j i x Hi Hj.
  apply lookup_seqZ in Hi as [-> Hlt]. unfold WordCount in Hlt. destruct (readBits_spec b (0 + Z.of_nat j) Hb) as (v & -> & Hv & Hbits); [lia|]. f_equal.
  pose proof (Forall_lookup_1 _ _ _ _ Hx Hj) as Hxr. apply Z.bits_inj'. intros k Hk. destruct (Z.lt_ge_cases k 11) as [Hk11|].
  - rewrite Hbits, Hq, (spread_at xs 0 j x) by (done || lia). f_equal. lia.
  - rewrite !(proj1 (small_bits _)) by done. done.
Qed.
Lemma written_reads b b' xs : is_bytes b → is_bytes b' → zlen b = 33 → zlen b' = 33 → reads b xs → (∀ q, 0 ≤ q → bit b' q = spread 0 xs q) → b' = b.
Proof.
  intros Hb Hb' Hl Hl' Hr Hq. apply bits_ext; [done..|unfold zlen in *; lia|]. intros q Hqr. rewrite Hq by lia. rewrite Hl' in Hqr.
  pose proof (Forall2_length _ _ _ Hr) as Hn. rewrite length_seqZ in Hn. unfold WordCount in Hn.
  pose proof (Z.div_mod q 11). pose proof (Z.mod_pos_bound q 11). assert (0 ≤ q / 11 < 24) as Hd by lia.
  destruct (lookup_lt_is_Some_2 xs (Z.to_nat (q / 11))) as [x Hx]; [lia|].
  assert (seqZ 0 WordCount !! Z.to_nat (q / 11) = Some (q / 11)) as Hs by (apply lookup_seqZ; unfold WordCount; lia).
  pose proof (Forall2_lookup_lr _ _ _ _ _ _ Hr Hs Hx) as E. cbn beta in E. destruct (readBits_spec b (q / 11) Hl Hd) as (v & E' & Hv & Hbits).
  rewrite E in E'. apply Ok_inj in E' as <-. rewrite (spread_at xs 0 (Z.to_nat (q / 11)) x) by (done || lia). rewrite Hbits by lia. f_equal. lia.
Qed.

Lemma mapM_Ok {E A B} (f : A → res E B) l k : mapM f l = Ok k ↔ Forall2 (λ x y, f x = Ok y) l k.
Proof.
  revert k. induction l as [|x l IH]; intros k; cbn [mapM].
  { split; [intros <-%Ok_inj; constructor|by intros ->%Forall2_nil_inv_l]. }
  split.
  - intros (y & Hy & H)%bind_Ok. apply bind_Ok in H as (k' & Hk & H). apply Ok_inj in H as <-. constructor; [done|]. by apply IH.
  - intros (y & k' & Hy & Hk & ->)%Forall2_cons_inv_l. rewrite Hy. cbn [mbind res_bind]. apply IH in Hk. rewrite Hk. done.
Qed.
Lemma word_at_Ok b i w : word_at b i = Ok w ↔ ∃ x, readBits b (i * bitsPerWord) bitsPerWord = Ok x ∧ wordIndex !! w = Some x.
Proof.
  unfold word_at. split.
  - intros (x & Hx & H)%bind_Ok. exists x. split; [done|]. apply wordIndex_spec. destruct (Z.ltb_spec x 0); [done|]. split; [done|].
    destruct (wordList !! Z.to_nat x) as [w'|]; [|done]. by apply Ok_inj in H as ->.
  - intros (x & Hx & [Hp Hw]%wordIndex_spec). rewrite Hx. cbn [mbind res_bind]. destruct (Z.ltb_spec x 0); [lia|]. by rewrite Hw.
Qed.
Lemma with_checksum_wf seed : is_bytes seed → zlen seed = 32 → is_bytes (with_checksum seed) ∧ zlen (with_checksum seed) = 33.
Proof.
  intros Hb Hl. unfold with_checksum. split; [apply Forall_app; split; [done|apply Forall_take, sha256_is_bytes]|].
  rewrite zlen_app, Hl. unfold zlen. rewrite length_take_le by (rewrite length_sha256; lia). done.
Qed.
Lemma with_checksum_split buf : zlen buf = 33 → byte_at buf SeedSize = Ok (sum_byte (take (Z.to_nat SeedSize) buf)) → with_checksum (take (Z.to_nat SeedSize) buf) = buf.
Proof.
  intros Hl H. unfold with_checksum, sum_byte, byte_at, SeedSize in *. change (32 <? 0) with false in H. change (Z.to_nat 32) with 32%nat in *.
  destruct (buf !! 32%nat) as [c|] eqn:Ec; [|done]. apply Ok_inj in H. pose proof (length_sha256 (take 32 buf)) as Hs.
  destruct (sha256 (take 32 buf)) as [|d s]; [done|]. cbn [head default from_option id] in H. subst c. cbn [take].
  rewrite <- (take_drop 32 buf) at 2. f_equal. unfold zlen in Hl. apply list_eq_same_length with 1%nat; [rewrite length_drop; lia|done|].
  intros [|i] x y Hi Hx Hy; [|lia]. rewrite lookup_drop in Hy. cbn in Hx, Hy. congruence.
Qed.
End words.

Section phrases.
Context {UC : UnicodeCase}.

Lemma zero_buf : is_bytes (replicate (Z.to_nat (SeedSize + 1)) 0) ∧ zlen (replicate (Z.to_nat (SeedSize + 1)) 0) = 33 ∧
  ∀ q, bit (replicate (Z.to_nat (SeedSize + 1)) 0) q = false.
Proof.
  split_and!; [by apply Forall_replicate|done|]. intros q. unfold bit. destruct (_ !! _) as [x|] eqn:E; [|apply Z.bits_0].
  apply lookup_replicate in E as [-> _]. apply Z.bits_0.
Qed.
(** [Decode] writes the words into an empty buffer and compares the last byte. *)
Lemma Decode_Ok words seed : Decode words = Ok seed ↔
  zlen words = WordCount ∧ ∃ xs buf, indexed words xs ∧ write_words (replicate (Z.to_nat (SeedSize + 1)) 0) 0 words = Ok buf ∧
    is_bytes buf ∧ zlen buf = 33 ∧ (∀ q, 0 ≤ q → bit buf q = spread 0 xs q) ∧ buf = with_checksum seed ∧ zlen seed = 32.
Proof.
  destruct zero_buf as (Zb & Zl & Zz). unfold Decode. destruct (Z.eqb_spec (zlen words) WordCount) as [Hn|Hn]; cbn [negb]; [|naive_solver].
  unfold WordCount in Hn. split.
  - intros H. apply bind_Ok in H as (buf & Hw & H). apply bind_Ok in H as (c & Hc & H). split; [done|].
    destruct (write_words_indexed words _ 0 buf Zb Zl ltac:(lia) ltac:(lia) Hw) as [xs Hxs].
    destruct (write_words_spec words xs Hxs _ 0 Zb Zl) as (b' & E & Hb & Hl & Hq); [lia..|]. rewrite Hw in E. apply Ok_inj in E as <-.
    destruct (Z.eqb_spec c (sum_byte (take (Z.to_nat SeedSize) buf))) as [->|]; [|done]. cbn [negb] in H. apply Ok_inj in H as <-.
    exists xs, buf. split_and!; [done..| | |].
    + intros q Hq0. by rewrite Hq, Zz.
    + symmetry. by apply with_checksum_split.
    + unfold zlen in *. rewrite length_take_le; unfold SeedSize; lia.
  - intros (_ & xs & buf & Hxs & Hw & Hb & Hl & Hq & E & Hs). rewrite Hw. cbn [mbind res_bind].
    assert (take (Z.to_nat SeedSize) buf = seed) as ->. { rewrite E. unfold with_checksum. rewrite take_app_le by (unfold zlen, SeedSize in *; lia). apply take_ge. unfold zlen, SeedSize in *. lia. }
    assert (byte_at buf SeedSize = Ok (sum_byte seed)) as ->; [|cbn [mbind res_bind]; by rewrite Z.eqb_refl].
    unfold byte_at, SeedSize, sum_byte. change (32 <? 0) with false. change (Z.to_nat 32) with 32%nat. rewrite E. unfold with_checksum.
    rewrite lookup_app_r by (unfold zlen in *; lia). replace (32 - length seed)%nat with 0%nat by (unfold zlen in *; lia).
    pose proof (length_sha256 seed) as Hsha. by destruct (sha256 seed).
Qed.
Lemma Encode_Ok seed ws : Encode seed = Ok ws ↔ zlen seed = 32 ∧ ∃ xs, reads (with_checksum seed) xs ∧ Forall2 (λ w x, wordIndex !! w = Some x) ws xs.
Proof.
  unfold Encode. destruct (Z.eqb_spec (zlen seed) SeedSize) as [Hs|Hs]; cbn [negb]; [|naive_solver]. rewrite mapM_Ok. unfold reads. split.
  - intros H. split; [done|]. induction H as [|i w l ws Hw _ (xs & Hr & Hx)]; [by exists []|].
    apply word_at_Ok in Hw as (x & Hx1 & Hx2). exists (x :: xs). by split; constructor.
  - intros (_ & xs & Hr & Hx). revert ws Hx. induction Hr as [|i x l xs Hi _ IH]; intros ws Hx; [apply Forall2_nil_inv_r in Hx as ->; constructor|].
    apply Forall2_cons_inv_r in Hx as (w & ws' & Hw & Hx & ->). constructor; [|by apply IH]. apply word_at_Ok. eauto.
Qed.
Lemma indexed_range words xs : indexed words xs → Forall (λ x, 0 ≤ x < 2048) xs ∧ zlen xs = zlen words.
Proof.
  intros H. split; [|unfold zlen; f_equal; symmetry; by apply (Forall2_length _ _ _ H)].
  induction H as [|w x ? ? Hw _ IH]; constructor; [by apply (wordIndex_range (normal_word w))|done].
Qed.

(** Which phrases decode to a seed: those that spell its own words. *)
Lemma Decode_Encode words seed : Decode words = Ok seed ↔ is_bytes seed ∧ Encode seed = Ok (normal_word <$> words).
Proof.
  rewrite Decode_Ok, Encode_Ok. split.
  - intros (Hn & xs & buf & Hxs & _ & Hb & Hl & Hq & -> & Hs). destruct (indexed_range _ _ Hxs) as [Hr Hz]. unfold WordCount in Hn.
    split; [by apply Forall_app in Hb as [? _]|]. split; [done|]. exists xs. split; [apply reads_written; [done|lia|done|done]|]. by apply Forall2_fmap_l.
  - intros (Hb & Hs & xs & Hr & Hx). apply Forall2_fmap_l in Hx. destruct (indexed_range words xs Hx) as [_ Hz].
    pose proof (Forall2_length _ _ _ Hr) as Hn. rewrite length_seqZ in Hn. unfold WordCount in *. assert (zlen words = 24) as Hw by (unfold zlen in *; lia).
    split; [done|]. destruct zero_buf as (Zb & Zl & Zz). destruct (write_words_spec words xs Hx _ 0 Zb Zl) as (buf & E & Hbb & Hbl & Hq); [lia..|].
    destruct (with_checksum_wf seed Hb Hs) as [Cb Cl]. assert (∀ q, 0 ≤ q → bit buf q = spread 0 xs q) as Hq' by (intros q H0; by rewrite Hq, Zz).
    exists xs, buf. split_and!; try done. by apply (written_reads _ _ xs).
Qed.
Lemma Encode_total seed : is_bytes seed → zlen seed = 32 → ∃ ws, Encode seed = Ok ws ∧ Forall (λ w, w ∈ wordList) ws ∧ ws ≠ [].
Proof.
  intros Hb Hs. destruct (with_checksum_wf seed Hb Hs) as [Cb Cl].
  assert (∃ xs ws, reads (with_checksum seed) xs ∧ Forall2 (λ w x, wordIndex !! w = Some x) ws xs) as (xs & ws & Hr & Hx).
  { unfold reads. assert (Forall (λ i, 0 ≤ i < 24) (seqZ 0 WordCount)) as Hi by (apply Forall_seqZ; unfold WordCount; lia).
    induction Hi as [|i l Hi _ (xs & ws & Hr & Hx)]; [by exists [], []|]. destruct (readBits_spec _ i Cl Hi) as (v & Ev & Hv & _).
    destruct (lookup_lt_is_Some_2 wordList (Z.to_nat v)) as [w Hw]; [rewrite wordList_length; lia|]. exists (v :: xs), (w :: ws).
    split; constructor; [exact Ev|exact Hr| |exact Hx]. apply wordIndex_spec. split; [lia|exact Hw]. }
  exists ws. split; [apply Encode_Ok; eauto|]. split.
  - clear Hr. induction Hx as [|w x ? ? Hw _ IH]; constructor; [|done]. apply wordIndex_spec in Hw as [_ Hw]. by apply list_elem_of_lookup_2 in Hw.
  - intros ->. apply Forall2_nil_inv_l in Hx as ->. apply Forall2_length in Hr. by rewrite length_seqZ in Hr.
Qed.

(** ** Phrases as text *)

Lemma plain_Forall w : plain_word w = true → w ≠ [] ∧ Forall (λ c, 97 ≤ c ≤ 122) w.
Proof.
  intros H. assert (forallb plain_char w = true) as Hf by (by destruct w). split; [by intros ->|].
  apply Forall_forall. intros c Hc. rewrite forallb_forall in Hf. apply list_elem_of_In, Hf in Hc. unfold plain_char, in_range in Hc. by bool_prop.
Qed.
Lemma plain_ascii w : plain_word w = true → is_ascii w.
Proof. intros [_ H]%plain_Forall. eapply Forall_impl; [exact H|]. cbn. lia. Qed.
Lemma plain_not_space c : 97 ≤ c ≤ 122 → is_space c = false.
Proof.
  intros Hc. unfold is_space, in_range. rewrite !orb_false_iff, !andb_false_iff, !Z.eqb_neq, !Z.leb_gt. repeat split; lia.
Qed.
Lemma plain_normal w : plain_word w = true → normal_word w = w.
Proof.
  intros Hw. pose proof (plain_ascii w Hw) as Ha. apply plain_Forall in Hw as [_ Hw]. unfold normal_word. rewrite trim_space_id; [|done|].
  - rewrite strings_ToLower_ascii by done. apply Forall_fmap_id. eapply Forall_impl; [exact Hw|]. cbn. intros c Hc. unfold ascii_lower, in_range.
    by destruct (Z.leb_spec c 90); [lia|]; rewrite andb_false_r.
  - unfold untrimmed. apply andb_true_iff. split.
    + destruct w as [|c w]; [done|]. cbn. apply Forall_cons in Hw as [Hc _]. by rewrite plain_not_space.
    + destruct (last w) as [c|] eqn:E; [|done]. apply last_Some_elem_of in E. rewrite Forall_forall in Hw. cbn. by rewrite plain_not_space; [|apply Hw].
Qed.
(** Of an ASCII text, [fields_from] sees the characters. *)
Fixpoint fields_chars (acc s : bytes) : list bytes :=
  match s with [] => flush_field acc | c :: s => if is_space c then flush_field acc ++ fields_chars [] s else fields_chars (acc ++ [c]) s end.
Lemma Fields_ascii s : is_ascii s → strings_Fields s = fields_chars [] s.
Proof.
  intros Hs. unfold strings_Fields, range_str. generalize (@nil Z) as acc. generalize 0 as i. induction Hs as [|c s Hc Hs IH]; intros i acc; [done|].
  cbn [range_from decode_rune]. destruct (Z.ltb_spec c 128); [|lia]. cbn [Nat.sub take fields_from fields_chars fst snd]. by rewrite !IH.
Qed.
Lemma fields_word w acc r : Forall (λ c, 97 ≤ c ≤ 122) w → fields_chars acc (w ++ r) = fields_chars (acc ++ w) r.
Proof.
  intros Hw. revert acc. induction Hw as [|c w Hc _ IH]; intros acc; [by rewrite app_nil_r|]. cbn [app fields_chars].
  by rewrite plain_not_space, IH, <- app_assoc.
Qed.
Lemma join_ascii ws : Forall (λ w, plain_word w = true) ws → is_ascii (join_words ws).
Proof.
  induction 1 as [|w [|w' ws] Hw _ IH]; [constructor|by apply plain_ascii|].
  change (is_ascii (w ++ 32 :: join_words (w' :: ws))). apply Forall_app. split; [by apply plain_ascii|]. by constructor.
Qed.
Lemma Fields_join ws : Forall (λ w, plain_word w = true) ws → strings_Fields (join_words ws) = ws.
Proof.
  intros H. rewrite Fields_ascii by (by apply join_ascii). induction H as [|w [|w' ws] Hw _ IH]; [done|..]; apply plain_Forall in Hw as [Hne Hw].
  - cbn [join_words]. rewrite <- (app_nil_r w) at 1. rewrite fields_word by done. by destruct w.
  - change (fields_chars [] (w ++ 32 :: join_words (w' :: ws)) = w :: w' :: ws). rewrite fields_word by done. cbn [app fields_chars].
    change (is_space 32) with true. cbn iota. rewrite IH. by destruct w.
Qed.

(** C17: a recovery phrase and the key it stands for determine each other.  A phrase decodes to
    a seed exactly when its words, trimmed and in lower case, are the 24 words [Encode] gives
    for that seed, so no two spellings of different words restore the same account and every
    accepted phrase passes its checksum; every seed of 32 bytes has a phrase, and that
    phrase written out as text restores it. *)
Theorem phrase_restores_seed :
  (∀ words seed, Decode words = Ok seed ↔ is_bytes seed ∧ Encode seed = Ok (normal_word <$> words)) ∧
  (∀ seed, is_bytes seed → zlen seed = SeedSize → ∃ phrase, EncodeString seed = Ok phrase ∧ DecodeString phrase = Ok seed).
Proof.
  split; [exact Decode_Encode|]. intros seed Hb Hs. destruct (Encode_total seed Hb Hs) as (ws & E & Hw & _). exists (join_words ws).
  unfold EncodeString, DecodeString. rewrite E. split; [done|].
  assert (Forall (λ w, plain_word w = true) ws) as Hp by (eapply Forall_impl; [exact Hw|exact wordList_plain]).
  rewrite Fields_join by done. apply Decode_Encode. split; [done|]. rewrite Forall_fmap_id; [done|]. eapply Forall_impl; [exact Hp|exact plain_normal].
Qed.
End phrases.

(** The phrase of the seed of zeros, as the published test vectors have it. *)
Example zero_phrase : Encode (replicate 32 0) = Ok (replicate 23 (lit "abandon") ++ [lit "art"]).
Proof. vm_compute. reflexivity. Qed.
Example zero_phrase_checked : Decode (replicate 24 (lit "abandon")) = Err ErrChecksum ∧ Decode (replicate 23 (lit "  ABANDON") ++ [lit "art"]) = Ok (replicate 32 0).
Proof. split; vm_compute; reflexivity. Qed.
