(* ===== verification/Config.v ===== *)
(** * The server's configuration (internal/config)

    [Load] reads the environment, a function from names to values, and refuses what
    [validate] finds wrong.  [time.ParseDuration] and [filepath.Join] are a class. *)

From S2P Require Import Prelude GoStr GoTime Address.

Class HostFormats := {
  ParseDuration : bytes → option Z;        (** nanoseconds *)
  filepath_Join : bytes → bytes → bytes;
}.

(** [strconv.ParseBool]. *)
Definition parse_bool (s : bytes) : option bool :=
  if existsb (eqb s) (lit <$> ["1"; "t"; "T"; "TRUE"; "true"; "True"]%string) then Some true
  else if existsb (eqb s) (lit <$> ["0"; "f"; "F"; "FALSE"; "false"; "False"]%string) then Some false
  else None.
(** [strings.TrimSuffix(s, "/")]. *)
Definition trim_slash (s : bytes) : bytes := match reverse s with 47 :: r => reverse r | _ => s end.

Module ServerConfig.
Inductive LogLevel_ := LevelDebug | LevelInfo | LevelWarn | LevelError.
Inductive cfg_err :=
  | Invalid (env : string) | Required (env : string) | NotPositive (env : string) | Negative (env : string)
  | Exceeds (env : string) | Below (env : string).
#[global] Instance LogLevel_eq : EqDecision LogLevel_.
Proof. solve_decision. Defined.

Record t := mk {
  Domain : bytes; HTTPAddr : bytes; HTTPSAddr : bytes; TLSMode : bytes; TLSCertFile : bytes; TLSKeyFile : bytes; DataDir : bytes; DBPath : bytes;
  RegistrationPolicy : bytes; MessageRetentionDays : Z; InviteExpiryDays : Z; LogLevel : LogLevel_; PushGatewayURL : bytes; PushCoalesceWindow : Z;
  FederationEnabled : bool; MaxRequestBodyBytes : Z; MaxQueuedMessagesPerDevice : Z; MaxBatchMessages : Z; MaxStreamsPerDevice : Z;
  BlobsEnabled : bool; LandingPageEnabled : bool; ReportsEnabled : bool; ReportRetentionDays : Z; BlobDir : bytes; MaxBlobBytes : Z;
  MaxBlobBytesPerDevice : Z; MaxBlobsPerDevice : Z; MaxBlobBytesTotal : Z; MaxBlobRecipients : Z; BlobRetentionDays : Z; Attestation : bytes;
}.

Definition TLSModeOff : bytes := lit "off".
Definition TLSModeManual : bytes := lit "manual".
Definition TLSModeAutocert : bytes := lit "autocert".
Definition defaultMessageRetentionDays : Z := 14.
Definition defaultInviteExpiryDays : Z := 14.
Definition defaultMaxRequestBodyBytes : Z := 512 * 1024.
Definition defaultMaxQueuedMessagesPerDevice : Z := 1000.
Definition defaultMaxBatchMessages : Z := 100.
Definition defaultMaxStreamsPerDevice : Z := 4.
Definition defaultReportRetentionDays : Z := 90.
Definition defaultMaxBlobBytes : Z := 8 * 1024 * 1024.
Definition defaultMaxBlobBytesPerDevice : Z := 128 * 1024 * 1024.
Definition defaultMaxBlobsPerDevice : Z := 200.
Definition defaultMaxBlobRecipients : Z := defaultMaxBatchMessages.
Definition defaultPushCoalesceWindow : Z := 3 * second.
Definition maxPushCoalesceWindow : Z := 60 * second.

Definition orDefault (v def : bytes) : bytes := match v with [] => def | _ => v end.

Definition parseLogLevel {UC : UnicodeCase} (v : bytes) : res cfg_err LogLevel_ :=
  let s := strings_ToLower (trim_space v) in
  if s =?b [] then Ok LevelInfo
  else if s =?b lit "debug" then Ok LevelDebug
  else if s =?b lit "info" then Ok LevelInfo
  else if (s =?b lit "warn") || (s =?b lit "warning") then Ok LevelWarn
  else if s =?b lit "error" then Ok LevelError
  else Err (Invalid "FREIZONE_LOG_LEVEL").

Definition refuse (b : bool) (e : cfg_err) : res cfg_err () := if b then Err e else Ok ().
Definition validate (c : t) : res cfg_err () :=
  _ ← refuse (negb ((TLSMode c =?b TLSModeOff) || (TLSMode c =?b TLSModeManual) || (TLSMode c =?b TLSModeAutocert))) (Invalid "FREIZONE_TLS_MODE");
  _ ← refuse (negb ((RegistrationPolicy c =?b lit "open") || (RegistrationPolicy c =?b lit "invite") || (RegistrationPolicy c =?b lit "closed"))) (Invalid "FREIZONE_REGISTRATION_POLICY");
  _ ← refuse ((TLSMode c =?b TLSModeAutocert) && (Domain c =?b [])) (Required "FREIZONE_DOMAIN");
  _ ← refuse ((TLSMode c =?b TLSModeManual) && ((TLSCertFile c =?b []) || (TLSKeyFile c =?b []))) (Required "FREIZONE_TLS_CERT_FILE");
  _ ← refuse (MessageRetentionDays c <=? 0) (NotPositive "FREIZONE_MESSAGE_RETENTION_DAYS");
  _ ← refuse (InviteExpiryDays c <? 0) (Negative "FREIZONE_INVITE_EXPIRY_DAYS");
  _ ← refuse (PushCoalesceWindow c <? 0) (Negative "FREIZONE_PUSH_COALESCE_WINDOW");
  _ ← refuse (maxPushCoalesceWindow <? PushCoalesceWindow c) (Exceeds "FREIZONE_PUSH_COALESCE_WINDOW");
  _ ← refuse (MaxRequestBodyBytes c <=? 0) (NotPositive "FREIZONE_MAX_REQUEST_BODY_BYTES");
  _ ← refuse (MaxQueuedMessagesPerDevice c <=? 0) (NotPositive "FREIZONE_MAX_QUEUED_MESSAGES_PER_DEVICE");
  _ ← refuse (MaxBatchMessages c <=? 0) (NotPositive "FREIZONE_MAX_BATCH_MESSAGES");
  _ ← refuse (MaxStreamsPerDevice c <=? 0) (NotPositive "FREIZONE_MAX_STREAMS_PER_DEVICE");
  _ ← refuse (MaxBlobBytes c <=? 0) (NotPositive "FREIZONE_MAX_BLOB_BYTES");
  _ ← refuse (MaxBlobBytesPerDevice c <=? 0) (NotPositive "FREIZONE_MAX_BLOB_BYTES_PER_DEVICE");
  _ ← refuse (MaxBlobBytesPerDevice c <? MaxBlobBytes c) (Below "FREIZONE_MAX_BLOB_BYTES_PER_DEVICE");
  _ ← refuse (MaxBlobRecipients c <=? 0) (NotPositive "FREIZONE_MAX_BLOB_RECIPIENTS");
  _ ← refuse (MaxBlobsPerDevice c <=? 0) (NotPositive "FREIZONE_MAX_BLOBS_PER_DEVICE");
  _ ← refuse (MaxBlobBytesTotal c <? 0) (Negative "FREIZONE_MAX_BLOB_BYTES_TOTAL");
  _ ← refuse ((0 <? MaxBlobBytesTotal c) && (MaxBlobBytesTotal c <? MaxBlobBytes c)) (Below "FREIZONE_MAX_BLOB_BYTES_TOTAL");
  _ ← refuse (BlobRetentionDays c <=? 0) (NotPositive "FREIZONE_BLOB_RETENTION_DAYS");
  refuse (BlobRetentionDays c <? MessageRetentionDays c) (Below "FREIZONE_BLOB_RETENTION_DAYS").

Section load.
Context {UC : UnicodeCase} {HF : HostFormats}.
Variable getenv : bytes → bytes.

(** A setting with a default, refused when it does not parse. *)
Definition setting {A} (parse : bytes → option A) (env : string) (def : A) : res cfg_err A :=
  match getenv (lit env) with [] => Ok def | v => from_option (parse v) (Invalid env) end.
Definition text (env : string) (def : bytes) : bytes := orDefault (getenv (lit env)) def.
(** A whole number above zero. *)
Definition positive_int (v : bytes) : option Z := n ← parse_int v; if n <? 1 then None else Some n.

Definition Load : res cfg_err t :=
  let dataDir := text "FREIZONE_DATA_DIR" (lit "./data") in
  let dbPath := text "FREIZONE_DB_PATH" (filepath_Join dataDir (lit "freizone.db")) in
  retentionDays ← setting parse_int "FREIZONE_MESSAGE_RETENTION_DAYS" defaultMessageRetentionDays;
  inviteExpiryDays ← setting parse_int "FREIZONE_INVITE_EXPIRY_DAYS" defaultInviteExpiryDays;
  coalesceWindow ← setting ParseDuration "FREIZONE_PUSH_COALESCE_WINDOW" defaultPushCoalesceWindow;
  logLevel ← parseLogLevel (getenv (lit "FREIZONE_LOG_LEVEL"));
  federationEnabled ← setting parse_bool "FREIZONE_FEDERATION_ENABLED" true;
  maxBodyBytes ← setting parse_int "FREIZONE_MAX_REQUEST_BODY_BYTES" defaultMaxRequestBodyBytes;
  maxQueuedMessages ← setting parse_int "FREIZONE_MAX_QUEUED_MESSAGES_PER_DEVICE" defaultMaxQueuedMessagesPerDevice;
  maxBatchMessages ← setting parse_int "FREIZONE_MAX_BATCH_MESSAGES" defaultMaxBatchMessages;
  maxStreamsPerDevice ← setting parse_int "FREIZONE_MAX_STREAMS_PER_DEVICE" defaultMaxStreamsPerDevice;
  blobsEnabled ← setting parse_bool "FREIZONE_BLOBS_ENABLED" true;
  reportsEnabled ← setting parse_bool "FREIZONE_REPORTS_ENABLED" true;
  reportRetentionDays ← setting positive_int "FREIZONE_REPORT_RETENTION_DAYS" defaultReportRetentionDays;
  let blobDir := text "FREIZONE_BLOB_DIR" (filepath_Join dataDir (lit "blobs")) in
  maxBlobBytes ← setting parse_int "FREIZONE_MAX_BLOB_BYTES" defaultMaxBlobBytes;
  maxBlobBytesPerDevice ← setting parse_int "FREIZONE_MAX_BLOB_BYTES_PER_DEVICE" defaultMaxBlobBytesPerDevice;
  maxBlobsPerDevice ← setting parse_int "FREIZONE_MAX_BLOBS_PER_DEVICE" defaultMaxBlobsPerDevice;
  maxBlobBytesTotal ← setting parse_int "FREIZONE_MAX_BLOB_BYTES_TOTAL" 0;
  maxBlobRecipients ← setting parse_int "FREIZONE_MAX_BLOB_RECIPIENTS" defaultMaxBlobRecipients;
  blobRetentionDays ← setting parse_int "FREIZONE_BLOB_RETENTION_DAYS" retentionDays;
  landingPageEnabled ← setting parse_bool "FREIZONE_LANDING_PAGE_ENABLED" true;
  let cfg := {|
    Domain := getenv (lit "FREIZONE_DOMAIN"); HTTPAddr := text "FREIZONE_HTTP_ADDR" (lit ":80"); HTTPSAddr := text "FREIZONE_HTTPS_ADDR" (lit ":443");
    TLSMode := text "FREIZONE_TLS_MODE" TLSModeOff; TLSCertFile := getenv (lit "FREIZONE_TLS_CERT_FILE"); TLSKeyFile := getenv (lit "FREIZONE_TLS_KEY_FILE");
    DataDir := dataDir; DBPath := dbPath; RegistrationPolicy := text "FREIZONE_REGISTRATION_POLICY" (lit "closed");
    MessageRetentionDays := retentionDays; InviteExpiryDays := inviteExpiryDays; LogLevel := logLevel;
    PushGatewayURL := trim_slash (getenv (lit "FREIZONE_PUSH_GATEWAY_URL")); PushCoalesceWindow := coalesceWindow;
    FederationEnabled := federationEnabled; MaxRequestBodyBytes := maxBodyBytes; MaxQueuedMessagesPerDevice := maxQueuedMessages;
    MaxBatchMessages := maxBatchMessages; MaxStreamsPerDevice := maxStreamsPerDevice; BlobsEnabled := blobsEnabled; LandingPageEnabled := landingPageEnabled;
    ReportsEnabled := reportsEnabled; ReportRetentionDays := reportRetentionDays; BlobDir := blobDir; MaxBlobBytes := maxBlobBytes;
    MaxBlobBytesPerDevice := maxBlobBytesPerDevice; MaxBlobsPerDevice := maxBlobsPerDevice; MaxBlobBytesTotal := maxBlobBytesTotal;
    MaxBlobRecipients := maxBlobRecipients; BlobRetentionDays := blobRetentionDays; Attestation := trim_space (getenv (lit "FREIZONE_ATTESTATION")) |} in
  _ ← validate cfg;
  Ok cfg.
End load.
End ServerConfig.

(** ** What a configuration that loads promises *)

Module ServerConfigCorrect.
Import ServerConfig.
Record sane (c : t) : Prop := mkSane {
  sane_tls : TLSMode c ∈ [TLSModeOff; TLSModeManual; TLSModeAutocert];
  sane_policy : RegistrationPolicy c ∈ [lit "open"; lit "invite"; lit "closed"];
  sane_autocert : TLSMode c = TLSModeAutocert → Domain c ≠ [];
  sane_manual : TLSMode c = TLSModeManual → TLSCertFile c ≠ [] ∧ TLSKeyFile c ≠ [];
  sane_window : 0 ≤ PushCoalesceWindow c ≤ maxPushCoalesceWindow;
  sane_limits : 0 < MessageRetentionDays c ∧ 0 ≤ InviteExpiryDays c ∧ 0 < MaxRequestBodyBytes c ∧ 0 < MaxQueuedMessagesPerDevice c ∧ 0 < MaxBatchMessages c
    ∧ 0 < MaxStreamsPerDevice c ∧ 0 < MaxBlobRecipients c ∧ 0 < MaxBlobsPerDevice c ∧ 0 < ReportRetentionDays c;
  sane_blobs : 0 < MaxBlobBytes c ≤ MaxBlobBytesPerDevice c ∧ (MaxBlobBytesTotal c = 0 ∨ MaxBlobBytes c ≤ MaxBlobBytesTotal c);
  sane_retention : MessageRetentionDays c ≤ BlobRetentionDays c;
}.
Lemma refuse_Ok b e u : refuse b e = Ok u ↔ b = false.
Proof. destruct b, u; done. Qed.
Lemma validate_sane c u : 0 < ReportRetentionDays c → validate c = Ok u → sane c.
Proof.
  intros Hr H. unfold validate in H. repeat (apply bind_Ok in H as ([] & ?%refuse_Ok & H)). apply refuse_Ok in H.
  repeat match goal with E : negb _ = false |- _ => apply negb_false_iff in E end.
  repeat match goal with E : _ || _ = true |- _ => rewrite !orb_true_iff, !eqb_true in E end.
  repeat match goal with E : _ && _ = false |- _ => apply andb_false_iff in E end.
  repeat match goal with E : (_ <=? _) = false |- _ => apply Z.leb_gt in E | E : (_ <? _) = false |- _ => apply Z.ltb_ge in E end.
  split; try lia.
  - set_solver.
  - set_solver.
  - intros E. match goal with D : (_ =?b TLSModeAutocert) = false ∨ _ |- _ => destruct D as [D|D]; apply eqb_false in D; done end.
  - intros E. match goal with D : (_ =?b TLSModeManual) = false ∨ _ |- _ => destruct D as [D|D]; [by apply eqb_false in D|apply orb_false_iff in D as [D1 D2]] end.
    apply eqb_false in D1, D2. done.
Qed.
Section load.
Context {UC : UnicodeCase} {HF : HostFormats}.
Lemma setting_Ok {A} getenv (parse : bytes → option A) env def x : setting getenv parse env def = Ok x → x = def ∨ ∃ v, parse v = Some x.
Proof. unfold setting. destruct (getenv (lit env)) as [|c v] eqn:E; [intros ->%Ok_inj; by left|]. intros H%from_option_Ok. right. by exists (c :: v). Qed.
(** Whatever the environment holds, what [Load] returns is sane. *)
Theorem loaded_config_sane getenv c : Load getenv = Ok c → sane c.
Proof.
  intros H. unfold Load in H. cbv zeta in H.
  do 11 (apply bind_Ok in H as (? & _ & H)). apply bind_Ok in H as (days & Hdays & H). do 7 (apply bind_Ok in H as (? & _ & H)). apply bind_Ok in H as (u & Hv & H).
  apply Ok_inj in H as <-. apply (validate_sane _ u); [|exact Hv]. cbn [ReportRetentionDays]. clear Hv.
  apply setting_Ok in Hdays as [->|(v & Hp)]; [done|]. unfold positive_int in Hp. destruct (parse_int v) as [n|]; [|done]. cbn in Hp. destruct (Z.ltb_spec n 1); [done|].
  injection Hp as <-. lia.
Qed.
(** An empty environment is a configuration. *)
Lemma default_config : is_ok (Load (λ _, [])) = true.
Proof. vm_compute. reflexivity. Qed.
End load.
End ServerConfigCorrect.
