(* ===== verification/Humancode.v ===== *)
(** * pkg/humancode: short codes read aloud and typed by hand

    [Generate] packs random bytes into symbols of Crockford's alphabet,
    [Normalize] folds what a person types onto the canonical code and [Format]
    groups a code for display.  The random source is a parameter of [Generate]:
    a function from the length asked for to the bytes read, [None] on failure. *)

From S2P Require Import Prelude GoStr.

Definition Alphabet : bytes := lit "0123456789ABCDEFGHJKMNPQRSTVWXYZ".

(** The accumulator loop over the random bytes, on a [uint64]. *)
Definition fold_raw (raw : bytes) : Z :=
  foldl (λ acc b, Z.lor (u64 (Z.shiftl acc 8)) b) 0 raw.

(** The loop that fills [buf] from its end. *)
Fixpoint fill_symbols (symbols : nat) (acc : Z) (buf : bytes) : bytes :=
  match symbols with
  | O => buf
  | S n => fill_symbols n (Z.shiftr acc 5) (Alphabet !!! Z.to_nat (Z.land acc 31) :: buf)
  end.

Definition Generate (rand_Read : Z → option bytes) (symbols : Z) : res string bytes :=
  if (symbols <=? 0) || (12 <? symbols) then
    Err "humancode: symbols must be between 1 and 12"%string
  else
    raw ← from_option (rand_Read ((symbols * 5 + 7) / 8)) "humancode: reading random bytes"%string;
    Ok (fill_symbols (Z.to_nat symbols) (fold_raw raw) []).

Definition is_code_separator (c : Z) : bool :=
  (c =? 45) || (c =? 95) || (c =? 32) || (c =? 9) || (c =? 10) || (c =? 13).

Section case.
Context {UC : UnicodeCase}.

(** What [Normalize] writes for one rune. *)
Definition normalize_rune (c : Z) : bytes :=
  if is_code_separator c then []
  else let upper := to_upper c in
       if (upper =? 73) || (upper =? 76) then encode_rune 49
       else if upper =? 79 then encode_rune 48
       else encode_rune upper.
Definition Normalize (s : bytes) : bytes := mjoin (normalize_rune <$> runes s).
End case.

Definition format_rune (group : Z) (x : Z * Z * bytes) : bytes :=
  let '(i, c, _) := x in
  (if (0 <? i) && (i mod group =? 0) then [45] else []) ++ encode_rune c.
Definition Format (code : bytes) (group : Z) : bytes :=
  if (group <=? 0) || (zlen code <=? group) then code
  else mjoin (format_rune group <$> range_str code).

(** ** Generated codes *)

Lemma fold_raw_be raw : is_bytes raw → zlen raw ≤ 8 → fold_raw raw = be_value raw.
Proof.
  intros Hb Hl. unfold fold_raw.
  induction raw as [|b raw IH] using rev_ind; [done|].
  rewrite zlen_app in Hl. change (zlen [b]) with 1 in Hl.
  apply Forall_app in Hb as [Hb Hbb]. rewrite Forall_singleton in Hbb.
  rewrite foldl_app, be_value_app. cbn [foldl]. rewrite IH by (done || lia).
  change (8 * zlen [b]) with 8. unfold u64. pose proof (be_value_bound raw Hb) as HB.
  assert (2 ^ (8 * zlen raw) ≤ 2 ^ 56) by (apply Z.pow_le_mono_r; lia).
  rewrite Z.mod_small by (rewrite Z.shiftl_mul_pow2; lia).
  rewrite lor_shiftl_low by (unfold is_byte in Hbb; lia). cbn [be_value length].
  change (8 * Z.of_nat 0) with 0. lia.
Qed.

Lemma fill_symbols_app n acc buf : fill_symbols n acc buf = fill_symbols n acc [] ++ buf.
Proof.
  revert acc buf. induction n as [|n IH]; intros acc buf; [done|]. cbn [fill_symbols].
  rewrite IH, (IH _ [_]). by rewrite <- (assoc_L (++)).
Qed.

(** A code is the base-32 expansion of its random number. *)
Fixpoint symbols_of (n : nat) (acc : Z) : list Z :=
  match n with O => [] | S n => symbols_of n (acc / 32) ++ [acc mod 32] end.

Definition symbol_char (v : Z) : Z := Alphabet !!! Z.to_nat v.

Lemma fill_symbols_eq n acc : fill_symbols n acc [] = symbol_char <$> symbols_of n acc.
Proof.
  revert acc. induction n as [|n IH]; intros acc; [done|]. cbn [fill_symbols symbols_of].
  change 31 with (Z.ones 5).
  rewrite fill_symbols_app, IH, fmap_app, Z.shiftr_div_pow2, Z.land_ones by lia. done.
Qed.

Lemma length_symbols_of n acc : length (symbols_of n acc) = n.
Proof. revert acc. induction n as [|n IH]; intros; [done|]. simpl. rewrite length_app, IH. simpl. lia. Qed.

Lemma symbols_of_range n acc : Forall (λ v, 0 ≤ v < 32) (symbols_of n acc).
Proof.
  revert acc. induction n as [|n IH]; intros acc; [constructor|]. apply Forall_app. split; [apply IH|].
  rewrite Forall_singleton. apply Z.mod_pos_bound. lia.
Qed.

Lemma symbols_of_eq n a b : symbols_of n a = symbols_of n b ↔ a mod 32 ^ Z.of_nat n = b mod 32 ^ Z.of_nat n.
Proof.
  revert a b. induction n as [|n IH]; intros a b; [by rewrite !Z.mod_1_r|].
  cbn [symbols_of]. rewrite Nat2Z.inj_succ, Z.pow_succ_r, !Z.rem_mul_r by lia.
  pose proof (Z.mod_pos_bound a 32). pose proof (Z.mod_pos_bound b 32). split.
  - intros [H1 [= H2]]%app_inj_2; [|done]. apply IH in H1. lia.
  - intros E. assert (a mod 32 = b mod 32) as E1 by lia.
    rewrite E1. f_equal. apply IH. lia.
Qed.

(** The alphabet, checked symbol by symbol. *)
Lemma symbol_check (f : Z → bool) v :
  forallb f (Z.of_nat <$> seq 0 32) = true → 0 ≤ v < 32 → f v = true.
Proof.
  rewrite forallb_forall. intros H Hv. apply H, list_elem_of_In, list_elem_of_fmap.
  exists (Z.to_nat v). split; [lia|]. apply elem_of_seq. lia.
Qed.

Lemma symbol_char_inj v w : 0 ≤ v < 32 → 0 ≤ w < 32 → symbol_char v = symbol_char w → v = w.
Proof.
  intros Hv Hw E.
  apply (symbol_check (λ v, index_of (symbol_char v) Alphabet =?b Some v)) in Hv, Hw; [|done..].
  bool_prop. congruence.
Qed.

Lemma symbol_chars_inj l k :
  Forall (λ v, 0 ≤ v < 32) l → Forall (λ v, 0 ≤ v < 32) k → symbol_char <$> l = symbol_char <$> k → l = k.
Proof.
  intros Hl. revert k. induction Hl as [|v l Hv Hl IH]; intros k Hk E; destruct Hk as [|w k Hw Hk];
    try done. rewrite !fmap_cons in E. injection E as E1 E2.
  f_equal; [by apply symbol_char_inj|by apply IH].
Qed.

Lemma Generate_Ok rand symbols code :
  Generate rand symbols = Ok code →
  1 ≤ symbols ≤ 12 ∧ ∃ raw, rand ((symbols * 5 + 7) / 8) = Some raw ∧
    code = symbol_char <$> symbols_of (Z.to_nat symbols) (fold_raw raw).
Proof.
  unfold Generate. intros H. res_inv H. bool_prop. simplify_eq. split; [lia|].
  exists a. split; [done|]. apply fill_symbols_eq.
Qed.

(** ** Typing a code back *)

Section typing.
Context {UC : UnicodeCase}.

(** How a symbol of a code may come back from a person: in either case, and a
    digit as one of the letters the alphabet leaves out. *)
Definition reads_as (c t : Z) : bool :=
  (t =? c) || (t =? ascii_lower c)
  || ((c =? 49) && ((t =? 73) || (t =? 105) || (t =? 76) || (t =? 108)))
  || ((c =? 48) && ((t =? 79) || (t =? 111))).

Lemma reads_as_refl c : reads_as c c = true.
Proof. unfold reads_as. by rewrite Z.eqb_refl. Qed.

(** The ASCII behaviour of one round of [Normalize]. *)
Definition typed_rune (c : Z) : bytes :=
  if is_code_separator c then []
  else let upper := ascii_upper c in
       if (upper =? 73) || (upper =? 76) then [49] else if upper =? 79 then [48] else [upper].

Lemma normalize_rune_ascii c : 0 ≤ c < 128 → normalize_rune c = typed_rune c.
Proof.
  intros Hc. unfold normalize_rune, typed_rune. case_match; [done|].
  rewrite to_upper_ascii by done. repeat case_match; try done. apply encode_rune_ascii.
  unfold ascii_upper, in_range. case_match; bool_prop; lia.
Qed.

Definition ascii_chars : list Z := Z.of_nat <$> seq 0 128.

Lemma elem_of_ascii_chars t : 0 ≤ t < 128 → t ∈ ascii_chars.
Proof.
  intros. apply list_elem_of_fmap. exists (Z.to_nat t). split; [lia|]. apply elem_of_seq. lia.
Qed.

Lemma reads_as_typed v t :
  0 ≤ v < 32 → 0 ≤ t < 128 → reads_as (symbol_char v) t = true → typed_rune t = [symbol_char v].
Proof.
  intros Hv Ht Hr.
  apply (symbol_check (λ v, forallb (λ t, negb (reads_as (symbol_char v) t)
    || (typed_rune t =?b [symbol_char v])) ascii_chars)) in Hv; [|by vm_compute].
  rewrite forallb_forall in Hv. specialize (Hv t). rewrite Hr in Hv. cbn [negb orb] in Hv.
  apply eqb_true, Hv, list_elem_of_In, elem_of_ascii_chars, Ht.
Qed.

Lemma symbol_char_ascii v : 0 ≤ v < 32 → 0 ≤ symbol_char v < 128.
Proof.
  intros Hv. apply (symbol_check (λ v, in_range 0 127 (symbol_char v))) in Hv; [|done].
  unfold in_range in Hv. bool_prop. lia.
Qed.

(** [typed] is a code with separators strewn in and symbols misread. *)
Inductive typed_as : list Z → bytes → Prop :=
  | typed_nil : typed_as [] []
  | typed_sep vs t s : is_code_separator t = true → typed_as vs s → typed_as vs (t :: s)
  | typed_sym v vs t s : 0 ≤ v < 32 → 0 ≤ t < 128 → reads_as (symbol_char v) t = true →
      typed_as vs s → typed_as (v :: vs) (t :: s).

Lemma separator_ascii t : is_code_separator t = true → 0 ≤ t < 128.
Proof. unfold is_code_separator. intros. bool_prop. lia. Qed.

Lemma typed_ascii vs s : typed_as vs s → is_ascii s.
Proof. induction 1; constructor; auto using separator_ascii. Qed.

Lemma Normalize_typed vs s : typed_as vs s → Normalize s = symbol_char <$> vs.
Proof.
  intros H. unfold Normalize. rewrite runes_ascii by (by eapply typed_ascii).
  induction H as [|vs t s Ht H IH|v vs t s Hv Ht Hr H IH]; [done|..];
    rewrite !fmap_cons, mjoin_cons, IH.
  - unfold normalize_rune. by rewrite Ht.
  - rewrite normalize_rune_ascii by done. by rewrite (reads_as_typed v).
Qed.

Lemma typed_as_same vs : Forall (λ v, 0 ≤ v < 32) vs → typed_as vs (symbol_char <$> vs).
Proof.
  induction 1; [constructor|apply typed_sym]; auto using symbol_char_ascii, reads_as_refl.
Qed.

Lemma Format_typed vs group :
  Forall (λ v, 0 ≤ v < 32) vs → typed_as vs (Format (symbol_char <$> vs) group).
Proof.
  intros Hvs. unfold Format. destruct (_ || _); [by apply typed_as_same|].
  unfold range_str. generalize 0. induction Hvs as [|v vs Hv Hvs IH]; intros i; [constructor|].
  rewrite fmap_cons. pose proof (symbol_char_ascii v Hv). cbn [range_from decode_rune].
  destruct (Z.ltb_spec (symbol_char v) 128); [|lia].
  rewrite fmap_cons, mjoin_cons. cbn [Nat.sub]. unfold format_rune at 1.
  rewrite encode_rune_ascii by done. destruct (_ && _); cbn [app].
  - apply typed_sep; [done|]. apply typed_sym; auto using reads_as_refl.
  - apply typed_sym; auto using reads_as_refl.
Qed.

(** A generated code has as many symbols as were asked for, and however it is
    displayed and typed back -- grouped, in lower case, with separators, with 1
    and 0 misread as letters -- it normalizes to the same code. *)
Theorem code_typed_back rand symbols code :
  Generate rand symbols = Ok code →
  zlen code = symbols ∧
  (∀ group, Normalize (Format code group) = code) ∧
  (∀ vs s, code = symbol_char <$> vs → typed_as vs s → Normalize s = code).
Proof.
  intros (Hs & raw & _ & ->)%Generate_Ok. split_and!.
  - unfold zlen. rewrite length_fmap, length_symbols_of. lia.
  - intros group. apply Normalize_typed, Format_typed, symbols_of_range.
  - intros vs s -> Ht. by apply Normalize_typed.
Qed.
End typing.

(** Codes are drawn without bias: two random draws give the same code exactly
    when they agree modulo [32^symbols], so every code is hit by the same number
    of draws. *)
Theorem generate_unbiased rand rand' symbols raw raw' :
  1 ≤ symbols ≤ 12 →
  rand ((symbols * 5 + 7) / 8) = Some raw → rand' ((symbols * 5 + 7) / 8) = Some raw' →
  is_bytes raw → is_bytes raw' →
  zlen raw = (symbols * 5 + 7) / 8 → zlen raw' = (symbols * 5 + 7) / 8 →
  Generate rand symbols = Generate rand' symbols ↔
  be_value raw mod 32 ^ symbols = be_value raw' mod 32 ^ symbols.
Proof.
  intros Hs Hr Hr' Hb Hb' Hl Hl'. unfold Generate.
  destruct ((symbols <=? 0) || (12 <? symbols)) eqn:E; [bool_prop; lia|].
  rewrite Hr, Hr'. cbn [Prelude.from_option mbind res_bind].
  assert (zlen raw ≤ 8) by (rewrite Hl; Z.to_euclidean_division_equations; lia).
  assert (zlen raw' ≤ 8) by (rewrite Hl'; Z.to_euclidean_division_equations; lia).
  rewrite !fill_symbols_eq, !fold_raw_be by done.
  rewrite <- (Z2Nat.id symbols) at 3 4 by lia. rewrite <- symbols_of_eq. split.
  - intros [= E']. by apply symbol_chars_inj in E'; [|apply symbols_of_range..].
  - by intros ->.
Qed.

Lemma code_typed_back_witness :
  let rand := λ _, Some [77; 200; 19; 4; 250; 33; 9; 128] in
  Generate rand 12 = Ok (lit "VJ0K0KX222C0") ∧ Normalize (lit "vjok-0kx2 22cO") = lit "VJ0K0KX222C0".
Proof.
  intros rand. assert (Generate rand 12 = Ok (lit "VJ0K0KX222C0")) as H by (by vm_compute).
  split; [exact H|]. destruct (code_typed_back _ _ _ H) as (_ & _ & Ht).
  apply (Ht [27; 18; 0; 19; 0; 19; 29; 2; 2; 2; 12; 0]); [by vm_compute|].
  let s := eval vm_compute in (lit "vjok-0kx2 22cO") in change (lit "vjok-0kx2 22cO") with s.
  repeat (first [apply typed_sym; [lia|lia|vm_compute; reflexivity|]
                |apply typed_sep; [vm_compute; reflexivity|]]). constructor.
Defined.

Lemma generate_unbiased_witness :
  Generate (λ _, Some [77; 200; 19; 4; 250; 33; 9; 128]) 12 =
  Generate (λ _, Some [93; 200; 19; 4; 250; 33; 9; 128]) 12.
Proof.
  apply (generate_unbiased _ _ 12 [77; 200; 19; 4; 250; 33; 9; 128] [93; 200; 19; 4; 250; 33; 9; 128]);
    try done; apply (bool_decide_unpack _); by vm_compute.
Defined.
