(* ===== verification/Crypto.v ===== *)
(** * crypto/ed25519 and the length-prefixed framing

    [Ed25519] states what the sources rely on of Go's [crypto/ed25519]: a key made
    from a 32-byte seed is the seed followed by a 32-byte public key, signatures
    are 64 bytes, and a signature made with a key verifies under its public key.
    Nothing is assumed about what other signatures verify.  [Sign] and [Verify]
    panic on a key of the wrong size, as documented. *)

From S2P Require Import Prelude.

Class Ed25519 := {
  ed_pub : bytes → bytes;                  (** public key of a seed *)
  ed_sign : bytes → bytes → bytes;         (** private key, message *)
  ed_verify : bytes → bytes → bytes → bool; (** public key, message, signature *)
  ed_pub_length seed : zlen (ed_pub seed) = 32;
  ed_sign_length priv msg : zlen (ed_sign priv msg) = 64;
  ed_pub_bytes seed : is_bytes (ed_pub seed);
  ed_sign_bytes priv msg : is_bytes (ed_sign priv msg);
  ed_verify_sign seed msg :
    zlen seed = 32 → ed_verify (ed_pub seed) msg (ed_sign (seed ++ ed_pub seed) msg) = true;
}.

Definition ed25519_PublicKeySize : Z := 32.
Definition ed25519_PrivateKeySize : Z := 64.
Definition ed25519_SignatureSize : Z := 64.

Section ed25519.
Context {ED : Ed25519}.

Definition ed25519_NewKeyFromSeed {E} (seed : bytes) : res E bytes :=
  if zlen seed =? 32 then Ok (seed ++ ed_pub seed) else Panic.
Definition ed25519_Public (priv : bytes) : bytes := drop 32 priv.
Definition ed25519_Sign {E} (priv msg : bytes) : res E bytes :=
  if zlen priv =? ed25519_PrivateKeySize then Ok (ed_sign priv msg) else Panic.
Definition ed25519_Verify {E} (pub msg sig : bytes) : res E bool :=
  if zlen pub =? ed25519_PublicKeySize then
    Ok ((zlen sig =? ed25519_SignatureSize) && ed_verify pub msg sig)
  else Panic.

(** A key pair as [GenerateKey] and [NewKeyFromSeed] make them. *)
Definition key_pair (priv pub : bytes) : Prop :=
  ∃ seed, zlen seed = 32 ∧ priv = seed ++ ed_pub seed ∧ pub = ed_pub seed.

Lemma key_pair_length priv pub : key_pair priv pub → zlen priv = 64 ∧ zlen pub = 32.
Proof. intros (s & Hs & -> & ->). rewrite zlen_app, ed_pub_length. lia. Qed.

Lemma key_pair_public priv pub : key_pair priv pub → ed25519_Public priv = pub.
Proof.
  intros (s & Hs & -> & ->). unfold ed25519_Public. unfold zlen in Hs.
  replace 32%nat with (length s) by lia. apply drop_app_length.
Qed.

Lemma Sign_Ok {E} priv pub msg :
  key_pair priv pub → ed25519_Sign (E:=E) priv msg = Ok (ed_sign priv msg).
Proof. intros [H _]%key_pair_length. unfold ed25519_Sign. by rewrite H. Qed.

Lemma Verify_Sign {E} priv pub msg :
  key_pair priv pub → ed25519_Verify (E:=E) pub msg (ed_sign priv msg) = Ok true.
Proof.
  intros Hk. pose proof (key_pair_length _ _ Hk) as [_ Hl]. destruct Hk as (s & Hs & -> & ->).
  unfold ed25519_Verify. by rewrite Hl, ed_sign_length, ed_verify_sign.
Qed.

Lemma Verify_not_Panic {E} pub msg sig :
  zlen pub = 32 → ∃ b, ed25519_Verify (E:=E) pub msg sig = Ok b.
Proof. intros H. unfold ed25519_Verify. rewrite H. eauto. Qed.
End ed25519.

(** A toy scheme, to evaluate with: the digest of a message stands for its
    signature. *)
Definition toy_hash (s : bytes) : Z := foldl (λ h b, Z.land (h * 1000003 + b + 1) (Z.ones 64)) 7 s.
Definition toy_digest (k : nat) (s : bytes) : bytes := mjoin (replicate k (be_bytes 8 (toy_hash s))).

Lemma toy_digest_length k s : zlen (toy_digest k s) = 8 * Z.of_nat k.
Proof.
  unfold toy_digest. induction k as [|k IH]; [done|]. cbn [replicate].
  rewrite mjoin_cons, zlen_app, IH, zlen_be_bytes. lia.
Qed.

Lemma toy_digest_bytes k s : is_bytes (toy_digest k s).
Proof.
  unfold toy_digest. induction k as [|k IH]; [constructor|]. cbn [replicate].
  rewrite mjoin_cons. apply Forall_app. split; [apply be_bytes_is_bytes|done].
Qed.

#[export, refine] Instance toy_ed25519 : Ed25519 := {|
  ed_pub seed := toy_digest 4 seed;
  ed_sign priv msg := toy_digest 8 (drop 32 priv ++ msg);
  ed_verify pub msg sig := sig =?b toy_digest 8 (pub ++ msg);
|}.
Proof.
  - intros. apply toy_digest_length.
  - intros. apply toy_digest_length.
  - intros. apply toy_digest_bytes.
  - intros. apply toy_digest_bytes.
  - intros seed msg Hs. apply eqb_true. do 2 f_equal. unfold zlen in Hs.
    replace 32%nat with (length seed) by lia. apply drop_app_length.
Defined.

(** ** Length-prefixed fields

    [writeLengthPrefixed] of pkg/devicecert, pkg/group and pkg/profileclaim: a
    big-endian [uint16] of the length, which keeps the low 16 bits, then the
    data. *)

Definition writeLengthPrefixed (data : bytes) : bytes := be_bytes 2 (u16 (zlen data)) ++ data.
#[global] Arguments writeLengthPrefixed : simpl never.

Lemma writeLengthPrefixed_inj a b x y :
  zlen a < 2 ^ 16 → zlen b < 2 ^ 16 →
  writeLengthPrefixed a ++ x = writeLengthPrefixed b ++ y → a = b ∧ x = y.
Proof.
  intros Ha Hb. unfold writeLengthPrefixed. rewrite <- !(assoc_L (++)). intros H.
  apply app_inj_1 in H as [Hl H]; [|by rewrite !length_be_bytes].
  apply (f_equal be_value) in Hl. rewrite !be_value_be_bytes in Hl.
  change (8 * Z.of_nat 2) with 16 in Hl. unfold u16 in Hl.
  pose proof (zlen_nonneg a). pose proof (zlen_nonneg b).
  rewrite !Z.mod_mod, !Z.mod_small in Hl by lia.
  apply app_inj_1 in H as [-> ->]; [done|]. unfold zlen in Hl. lia.
Qed.

Lemma fixed_app_inj (a b x y : bytes) : zlen a = zlen b → a ++ x = b ++ y → a = b ∧ x = y.
Proof. intros H. apply app_inj_1. unfold zlen in H. lia. Qed.

Lemma be_bytes_inj n a b x y :
  0 ≤ a < 2 ^ (8 * Z.of_nat n) → 0 ≤ b < 2 ^ (8 * Z.of_nat n) →
  be_bytes n a ++ x = be_bytes n b ++ y → a = b ∧ x = y.
Proof.
  intros Ha Hb H. apply app_inj_1 in H as [H ->]; [|by rewrite !length_be_bytes].
  apply (f_equal be_value) in H. rewrite !be_value_be_bytes, !Z.mod_small in H by lia. done.
Qed.
