(* ===== verification/DeviceCert.v ===== *)
(** * pkg/devicecert: certificates and revocations of devices

    Four signed records: a device certificate and a revocation under an account's
    root key, and a DH identity and a signed prekey certificate under the device's
    own key.  Each has a builder that signs, a [Verify], and the byte layout both
    share. *)

From S2P Require Import Prelude GoStr GoTime Crypto.

Definition deviceIDBytes : Z := 8.
Definition x25519PubKeySize : Z := 32.

Definition NewDeviceID (rand_Read : Z → option bytes) : res string bytes :=
  raw ← from_option (rand_Read deviceIDBytes) "devicecert: generating device id"%string;
  Ok (hex_encode raw).

Definition decodeDeviceID (id : bytes) : res string bytes :=
  raw ← from_option (hex_decode id) "devicecert: device id must be hex-encoded"%string;
  if negb (zlen raw =? deviceIDBytes) then Err "devicecert: device id must decode to 8 bytes"%string
  else Ok raw.

(** The checks and the signature test that the four [Verify] methods share. *)
Definition verify_signed {ED : Ed25519} (signingBytes : res string bytes) (Signature pubKey : bytes)
    (failed : string) : res string () :=
  buf ← signingBytes;
  if negb (zlen Signature =? ed25519_SignatureSize) then
    Err "devicecert: signature must be 64 bytes"%string
  else if negb (zlen pubKey =? ed25519_PublicKeySize) then
    Err "devicecert: public key must be 32 bytes"%string
  else
    ok ← ed25519_Verify pubKey buf Signature;
    if negb ok then Err failed else Ok ().

Module DeviceCertificate.
Record t := mk {
  AccountID : bytes; DeviceID : bytes; DevicePubKey : bytes; IssuedAt : Time; Signature : bytes;
}.
Definition signingBytes (c : t) : res string bytes :=
  deviceIDRaw ← decodeDeviceID (DeviceID c);
  if negb (zlen (DevicePubKey c) =? ed25519_PublicKeySize) then
    Err "devicecert: device public key must be 32 bytes"%string
  else Ok (writeLengthPrefixed (AccountID c) ++ deviceIDRaw ++ DevicePubKey c ++
           writeLengthPrefixed (rfc3339 (IssuedAt c))).
Definition SignDeviceCertificate {ED : Ed25519} (accountID deviceID devicePubKey : bytes)
    (issuedAt : Time) (rootPriv : bytes) : res string t :=
  let cert := mk accountID deviceID devicePubKey issuedAt [] in
  buf ← signingBytes cert;
  sig ← ed25519_Sign rootPriv buf;
  Ok (mk accountID deviceID devicePubKey issuedAt sig).
Definition Verify {ED : Ed25519} (c : t) (rootPubKey : bytes) : res string () :=
  verify_signed (signingBytes c) (Signature c) rootPubKey
    "devicecert: signature verification failed".

#[global] Instance eq_dec : EqDecision t.
Proof. solve_decision. Defined.
End DeviceCertificate.

Module DeviceRevocation.
Record t := mk { AccountID : bytes; DeviceID : bytes; RevokedAt : Time; Signature : bytes }.
Definition signingBytes (r : t) : res string bytes :=
  deviceIDRaw ← decodeDeviceID (DeviceID r);
  Ok (writeLengthPrefixed (AccountID r) ++ deviceIDRaw ++
      writeLengthPrefixed (rfc3339 (RevokedAt r))).
Definition SignDeviceRevocation {ED : Ed25519} (accountID deviceID : bytes) (revokedAt : Time)
    (rootPriv : bytes) : res string t :=
  let rev := mk accountID deviceID revokedAt [] in
  buf ← signingBytes rev;
  sig ← ed25519_Sign rootPriv buf;
  Ok (mk accountID deviceID revokedAt sig).
Definition Verify {ED : Ed25519} (r : t) (rootPubKey : bytes) : res string () :=
  verify_signed (signingBytes r) (Signature r) rootPubKey
    "devicecert: revocation signature verification failed".
End DeviceRevocation.

Module DHIdentityCertificate.
Record t := mk {
  AccountID : bytes; DeviceID : bytes; DHPubKey : bytes; IssuedAt : Time; Signature : bytes;
}.
Definition signingBytes (c : t) : res string bytes :=
  deviceIDRaw ← decodeDeviceID (DeviceID c);
  if negb (zlen (DHPubKey c) =? x25519PubKeySize) then
    Err "devicecert: dh identity public key must be 32 bytes"%string
  else Ok (writeLengthPrefixed (AccountID c) ++ deviceIDRaw ++ DHPubKey c ++
           writeLengthPrefixed (rfc3339 (IssuedAt c))).
Definition SignDHIdentityCertificate {ED : Ed25519} (accountID deviceID dhPubKey : bytes)
    (issuedAt : Time) (devicePriv : bytes) : res string t :=
  let cert := mk accountID deviceID dhPubKey issuedAt [] in
  buf ← signingBytes cert;
  sig ← ed25519_Sign devicePriv buf;
  Ok (mk accountID deviceID dhPubKey issuedAt sig).
Definition Verify {ED : Ed25519} (c : t) (devicePubKey : bytes) : res string () :=
  verify_signed (signingBytes c) (Signature c) devicePubKey
    "devicecert: dh identity signature verification failed".
End DHIdentityCertificate.

Module SignedPrekeyCertificate.
Record t := mk {
  AccountID : bytes; DeviceID : bytes; KeyID : Z; DHIdentityPubKey : bytes;
  PrekeyPubKey : bytes; IssuedAt : Time; Signature : bytes;
}.
Definition signingBytes (c : t) : res string bytes :=
  deviceIDRaw ← decodeDeviceID (DeviceID c);
  if negb (zlen (DHIdentityPubKey c) =? x25519PubKeySize) then
    Err "devicecert: dh identity public key must be 32 bytes"%string
  else if negb (zlen (PrekeyPubKey c) =? x25519PubKeySize) then
    Err "devicecert: prekey public key must be 32 bytes"%string
  else Ok (writeLengthPrefixed (AccountID c) ++ deviceIDRaw ++ be_bytes 4 (KeyID c) ++
           DHIdentityPubKey c ++ PrekeyPubKey c ++ writeLengthPrefixed (rfc3339 (IssuedAt c))).
Definition SignSignedPrekeyCertificate {ED : Ed25519} (accountID deviceID : bytes) (keyID : Z)
    (dhIdentityPubKey prekeyPubKey : bytes) (issuedAt : Time) (devicePriv : bytes) : res string t :=
  let cert := mk accountID deviceID keyID dhIdentityPubKey prekeyPubKey issuedAt [] in
  buf ← signingBytes cert;
  sig ← ed25519_Sign devicePriv buf;
  Ok (mk accountID deviceID keyID dhIdentityPubKey prekeyPubKey issuedAt sig).
Definition Verify {ED : Ed25519} (c : t) (devicePubKey : bytes) : res string () :=
  verify_signed (signingBytes c) (Signature c) devicePubKey
    "devicecert: signed prekey signature verification failed".
End SignedPrekeyCertificate.

(** ** Signing and verifying *)

Lemma verify_signed_Ok {ED : Ed25519} sb sig pub e u :
  verify_signed sb sig pub e = Ok u ↔
  ∃ buf, sb = Ok buf ∧ zlen sig = 64 ∧ zlen pub = 32 ∧ ed_verify pub buf sig = true.
Proof.
  unfold verify_signed, ed25519_Verify, ed25519_SignatureSize, ed25519_PublicKeySize.
  split.
  - intros H. res_inv H. bool_prop. destruct (Z.eqb_spec (zlen pub) 32); [|done]. simplify_eq.
    bool_prop. naive_solver.
  - intros (buf & -> & Hs & Hp & Hv). cbn. rewrite Hs, Hp. cbn. rewrite Hv. by destruct u.
Qed.

Lemma verify_signed_not_Panic {ED : Ed25519} sb sig pub e : sb ≠ Panic → verify_signed sb sig pub e ≠ Panic.
Proof.
  unfold verify_signed, ed25519_Verify, ed25519_SignatureSize, ed25519_PublicKeySize.
  destruct sb as [buf| |]; cbn; try done. intros _.
  destruct (zlen sig =? 64), (zlen pub =? 32); cbn; try done. by destruct (ed_verify pub buf sig).
Qed.

Lemma decodeDeviceID_Ok id raw :
  decodeDeviceID id = Ok raw ↔ hex_decode id = Some raw ∧ zlen raw = 8.
Proof.
  unfold decodeDeviceID, deviceIDBytes. split.
  - intros H. res_inv H. bool_prop. by simplify_eq.
  - intros [-> H]. cbn. by rewrite H.
Qed.

Lemma decodeDeviceID_not_Panic id : decodeDeviceID id ≠ Panic.
Proof. unfold decodeDeviceID. destruct (hex_decode id); cbn; [|done]. by case_match. Qed.

Section theorems.
Context {ED : Ed25519}.

(** A signature over the signing bytes of a record passes its check. *)
Lemma signed_verifies priv pub buf e :
  key_pair priv pub → verify_signed (Ok buf) (ed_sign priv buf) pub e = Ok ().
Proof.
  intros Hk. apply verify_signed_Ok. exists buf.
  pose proof (key_pair_length _ _ Hk) as [_ Hl]. destruct Hk as (s & Hs & -> & ->).
  by rewrite ed_sign_length, ed_verify_sign.
Qed.

(** What the four builders sign, the four [Verify] methods accept under the
    signer's public key. *)
Theorem signed_records_verify priv pub :
  key_pair priv pub →
  (∀ acc dev key at_ c,
     DeviceCertificate.SignDeviceCertificate acc dev key at_ priv = Ok c →
     DeviceCertificate.Verify c pub = Ok ()) ∧
  (∀ acc dev at_ r,
     DeviceRevocation.SignDeviceRevocation acc dev at_ priv = Ok r →
     DeviceRevocation.Verify r pub = Ok ()) ∧
  (∀ acc dev key at_ c,
     DHIdentityCertificate.SignDHIdentityCertificate acc dev key at_ priv = Ok c →
     DHIdentityCertificate.Verify c pub = Ok ()) ∧
  (∀ acc dev id dh pre at_ c,
     SignedPrekeyCertificate.SignSignedPrekeyCertificate acc dev id dh pre at_ priv = Ok c →
     SignedPrekeyCertificate.Verify c pub = Ok ()).
Proof.
  intros Hk. split_and!; intros * H.
  all: apply bind_Ok in H as (buf & Hb & H); rewrite (Sign_Ok priv pub) in H by done;
    cbn [mbind res_bind] in H; injection H as <-.
  all: refine (eq_trans (f_equal (λ sb, verify_signed sb _ pub _) Hb) _);
    by apply signed_verifies.
Qed.

(** Two instants [signingBytes] renders alike are in the same second. *)
Lemma lp_time_inj t u :
  time_wf t → time_wf u →
  writeLengthPrefixed (rfc3339 t) = writeLengthPrefixed (rfc3339 u) → t_sec t = t_sec u.
Proof.
  intros [Ht _] [Hu _] H. pose proof (rfc3339_short t Ht). pose proof (rfc3339_short u Hu).
  rewrite <- (app_nil_r (writeLengthPrefixed (rfc3339 t))) in H.
  rewrite <- (app_nil_r (writeLengthPrefixed (rfc3339 u))) in H.
  apply writeLengthPrefixed_inj in H as [H _]; [by apply rfc3339_inj|lia..].
Qed.

(** The signed bytes bind every field they are made of: two device
    certificates, or two prekey certificates, with the same signing bytes name
    the same account, device and keys, issued in the same second. *)
Theorem signing_bytes_bind :
  (∀ c c' b, let open := DeviceCertificate.AccountID in
    DeviceCertificate.signingBytes c = Ok b → DeviceCertificate.signingBytes c' = Ok b →
    zlen (open c) < 2 ^ 16 → zlen (open c') < 2 ^ 16 →
    time_wf (DeviceCertificate.IssuedAt c) → time_wf (DeviceCertificate.IssuedAt c') →
    open c = open c' ∧
    decodeDeviceID (DeviceCertificate.DeviceID c) = decodeDeviceID (DeviceCertificate.DeviceID c') ∧
    DeviceCertificate.DevicePubKey c = DeviceCertificate.DevicePubKey c' ∧
    t_sec (DeviceCertificate.IssuedAt c) = t_sec (DeviceCertificate.IssuedAt c')) ∧
  (∀ c c' b, let open := SignedPrekeyCertificate.AccountID in
    SignedPrekeyCertificate.signingBytes c = Ok b → SignedPrekeyCertificate.signingBytes c' = Ok b →
    zlen (open c) < 2 ^ 16 → zlen (open c') < 2 ^ 16 →
    0 ≤ SignedPrekeyCertificate.KeyID c < 2 ^ 32 → 0 ≤ SignedPrekeyCertificate.KeyID c' < 2 ^ 32 →
    time_wf (SignedPrekeyCertificate.IssuedAt c) → time_wf (SignedPrekeyCertificate.IssuedAt c') →
    open c = open c' ∧
    decodeDeviceID (SignedPrekeyCertificate.DeviceID c)
      = decodeDeviceID (SignedPrekeyCertificate.DeviceID c') ∧
    SignedPrekeyCertificate.KeyID c = SignedPrekeyCertificate.KeyID c' ∧
    SignedPrekeyCertificate.DHIdentityPubKey c = SignedPrekeyCertificate.DHIdentityPubKey c' ∧
    SignedPrekeyCertificate.PrekeyPubKey c = SignedPrekeyCertificate.PrekeyPubKey c' ∧
    t_sec (SignedPrekeyCertificate.IssuedAt c) = t_sec (SignedPrekeyCertificate.IssuedAt c')).
Proof.
  split.
  - intros c c' b open (raw & Hr & H)%bind_Ok (raw' & Hr' & H')%bind_Ok Ha Ha' Ht Ht'.
    res_inv H. res_inv H'. unfold ed25519_PublicKeySize in *. bool_prop.
    pose proof Hr as [_ Hl]%decodeDeviceID_Ok. pose proof Hr' as [_ Hl']%decodeDeviceID_Ok.
    rewrite <- H in H'. apply Ok_inj in H' as E.
    apply writeLengthPrefixed_inj in E as [E1 E]; [|done..].
    apply fixed_app_inj in E as [E2 E]; [|lia]. apply fixed_app_inj in E as [E3 E]; [|lia].
    apply lp_time_inj in E; [|done..]. rewrite Hr, Hr'. subst open. by split_and!; congruence.
  - intros c c' b open (raw & Hr & H)%bind_Ok (raw' & Hr' & H')%bind_Ok Ha Ha' Hk Hk' Ht Ht'.
    res_inv H. res_inv H'. unfold x25519PubKeySize in *. bool_prop.
    pose proof Hr as [_ Hl]%decodeDeviceID_Ok. pose proof Hr' as [_ Hl']%decodeDeviceID_Ok.
    rewrite <- H in H'. apply Ok_inj in H' as E.
    apply writeLengthPrefixed_inj in E as [E1 E]; [|done..].
    apply fixed_app_inj in E as [E2 E]; [|lia]. apply be_bytes_inj in E as [E3 E]; [|done..].
    apply fixed_app_inj in E as [E4 E]; [|lia]. apply fixed_app_inj in E as [E5 E]; [|lia].
    apply lp_time_inj in E; [|done..]. rewrite Hr, Hr'. subst open. by split_and!; congruence.
Qed.
End theorems.

Definition sample_seed : bytes := replicate 32 5.
Definition sample_priv : bytes := sample_seed ++ ed_pub sample_seed.
Lemma sample_pair : key_pair sample_priv (ed_pub sample_seed).
Proof. by exists sample_seed. Qed.

Lemma signed_records_verify_witness :
  ∃ c, DeviceCertificate.SignDeviceCertificate (lit "q2xjx") (lit "0011223344556677")
         (replicate 32 9) (time_unix 1700000000) sample_priv = Ok c ∧
       DeviceCertificate.Verify c (ed_pub sample_seed) = Ok ().
Proof.
  destruct (is_ok_ex (DeviceCertificate.SignDeviceCertificate (lit "q2xjx") (lit "0011223344556677")
    (replicate 32 9) (time_unix 1700000000) sample_priv)) as [c H]; [vm_compute; reflexivity|].
  exists c. split; [done|]. exact (proj1 (signed_records_verify _ _ sample_pair) _ _ _ _ _ H).
Defined.

Lemma signing_bytes_bind_witness :
  let c := DeviceCertificate.mk (lit "q2xjx") (lit "00112233445566AA") (replicate 32 9) (time_unix 5) [] in
  let c' := DeviceCertificate.mk (lit "q2xjx") (lit "00112233445566aa") (replicate 32 9) (time_unix 5) [1] in
  DeviceCertificate.signingBytes c = DeviceCertificate.signingBytes c' ∧
  decodeDeviceID (DeviceCertificate.DeviceID c) = decodeDeviceID (DeviceCertificate.DeviceID c').
Proof.
  intros c c'. destruct (is_ok_ex (DeviceCertificate.signingBytes c)) as [b H]; [vm_compute; reflexivity|].
  assert (DeviceCertificate.signingBytes c = DeviceCertificate.signingBytes c') as E
    by (vm_compute; reflexivity).
  split; [exact E|]. pose proof (eq_trans (eq_sym E) H) as H'.
  refine (proj1 (proj2 (proj1 signing_bytes_bind c c' b H H' _ _ _ _)));
    apply (bool_decide_unpack _); vm_compute; reflexivity.
Defined.
