(* ===== verification/GroupEvent.v ===== *)
(** * pkg/group: roles, root keys and signed events (group.go, event.go)

    An [Event] is a union of the fields of nine event types; [Validate] allows
    exactly the fields a type signs, [signingBytes] lays them out behind a domain
    tag, and [Verify] checks shape, signer chain and signature.  HKDF
    (golang.org/x/crypto) is the parameter [hkdf] of [DeriveRootKey]. *)

From S2P Require Import Prelude GoStr GoTime Sha256 Crypto Bech32m Address DeviceCert.

(** ** group.go *)

Definition NonceSize : Z := 16.
Definition groupRootKeyInfo : bytes := lit "Freizone-Group-Root-v1".

(** [Role] is a [uint8] that arrives off the wire, so any byte may occur. *)
Abbreviation Role := Z (only parsing).
Definition RoleNone : Role := 0.
Definition RoleMember : Role := 1.
Definition RoleModerator : Role := 2.
Definition RoleAdmin : Role := 3.
Definition RoleFounder : Role := 4.

Definition Role_String (r : Role) : bytes :=
  if r =? RoleMember then lit "member"
  else if r =? RoleModerator then lit "moderator"
  else if r =? RoleAdmin then lit "admin"
  else if r =? RoleFounder then lit "founder"
  else lit "none".

Definition grantable (r : Role) : bool := (r =? RoleModerator) || (r =? RoleAdmin).

Definition NewNonce (rand_Read : Z → option bytes) : res string bytes :=
  from_option (rand_Read NonceSize) "group: generating nonce"%string.

(** [hkdf secret salt info n]: the first [n] bytes of the HKDF-SHA256 stream. *)
Definition DeriveRootKey {ED : Ed25519} (hkdf : bytes → bytes → bytes → Z → option bytes)
    (accountRootSeed nonce : bytes) : res string bytes :=
  if negb (zlen accountRootSeed =? 32) then Err "group: account root seed must be 32 bytes"%string
  else if negb (zlen nonce =? NonceSize) then Err "group: nonce must be 16 bytes"%string
  else
    seed ← from_option (hkdf accountRootSeed [] (groupRootKeyInfo ++ nonce) 32)
             "group: deriving group root key"%string;
    ed25519_NewKeyFromSeed seed.

Definition DeriveID (rootPubKey : bytes) : res string bytes :=
  DeriveIDVersion VersionGroup rootPubKey.
Definition VerifyID {UC : UnicodeCase} (id rootPubKey : bytes) : res string bool :=
  VerifyVersion VersionGroup id rootPubKey.

(** ** event.go: types, rules and fields *)

(** [EventType] is a string; [EventOther] is any string but the nine. *)
Inductive EventType :=
  | EventGenesis | EventRoleGrant | EventRoleRevoke | EventMemberAdd | EventMemberRemove
  | EventJoinAccept | EventLeave | EventMeta | EventDissolve
  | EventOther (name : bytes).

#[export] Instance EventType_eq_dec : EqDecision EventType.
Proof. solve_decision. Defined.

Definition domainTags (t : EventType) : option bytes :=
  match t with
  | EventGenesis => Some (lit "frz-group-genesis-v1")
  | EventRoleGrant => Some (lit "frz-group-role-grant-v1")
  | EventRoleRevoke => Some (lit "frz-group-role-revoke-v1")
  | EventMemberAdd => Some (lit "frz-group-member-add-v1")
  | EventMemberRemove => Some (lit "frz-group-member-remove-v1")
  | EventJoinAccept => Some (lit "frz-group-join-accept-v1")
  | EventLeave => Some (lit "frz-group-leave-v1")
  | EventMeta => Some (lit "frz-group-meta-v1")
  | EventDissolve => Some (lit "frz-group-dissolve-v1")
  | EventOther _ => None
  end.

Inductive signingRule := signedByDevice | signedByRoot | signedByEither.
#[export] Instance signingRule_eq_dec : EqDecision signingRule.
Proof. solve_decision. Defined.

Definition ruleFor (t : EventType) : signingRule :=
  match t with
  | EventGenesis | EventDissolve => signedByRoot
  | EventRoleGrant | EventRoleRevoke => signedByEither
  | _ => signedByDevice
  end.

Definition MaxNameLen : Z := 128.
Definition MaxTopicLen : Z := 512.

Module Signer.
Record t := mk { AccountID : bytes; RootPubKey : bytes; DeviceCert : DeviceCertificate.t }.
#[global] Instance eq_dec : EqDecision t.
Proof. solve_decision. Defined.

(** A nil receiver is [None]. *)
Definition verify {UC : UnicodeCase} {ED : Ed25519} (s : option t) : res string () :=
  match s with
  | None => Err "group: missing signer"%string
  | Some s =>
    ok ← wrap_err (λ _, "group: signer account id"%string) (Address.Verify (AccountID s) (RootPubKey s));
    if negb ok then Err "group: signer account id does not match its root key"%string
    else if negb (DeviceCertificate.AccountID (DeviceCert s) =?b AccountID s) then
      Err "group: signer device certificate belongs to another account"%string
    else wrap_err (λ _, "group: signer device certificate"%string)
           (DeviceCertificate.Verify (DeviceCert s) (RootPubKey s))
  end.
End Signer.

Record Event := mkEvent {
  Type_ : EventType; GroupID : bytes; IssuedAt : Time;
  RootPubKey : bytes; Nonce : bytes;
  Subject : bytes; Server : bytes; Role_ : Role; Name : bytes; Topic : bytes;
  Signer_ : option Signer.t; Signature : bytes;
}.
#[export] Instance Event_eq_dec : EqDecision Event.
Proof. solve_decision. Defined.

Definition signingBytes (e : Event) : res string bytes :=
  tag ← from_option (domainTags (Type_ e)) "group: unknown event type"%string;
  let head := writeLengthPrefixed tag ++ writeLengthPrefixed (GroupID e) in
  let body :=
    match Type_ e with
    | EventGenesis => RootPubKey e ++ Nonce e ++ writeLengthPrefixed (Subject e)
                      ++ writeLengthPrefixed (Server e)
    | EventRoleGrant | EventRoleRevoke => [u8 (Role_ e)] ++ writeLengthPrefixed (Subject e)
    | EventMemberAdd => writeLengthPrefixed (Subject e) ++ writeLengthPrefixed (Server e)
    | EventMemberRemove | EventJoinAccept | EventLeave => writeLengthPrefixed (Subject e)
    | EventMeta => writeLengthPrefixed (Name e) ++ writeLengthPrefixed (Topic e)
    | _ => []
    end in
  Ok (head ++ body ++ writeLengthPrefixed (rfc3339 (IssuedAt e))).

Definition Event_ID (e : Event) : res string bytes :=
  buf ← signingBytes e;
  Ok (hex_encode (sha256 (buf ++ Signature e))).

(** Which fields a type is allowed to set: genesis material, subject, server,
    role, name and topic. *)
Record wants := mkWants { wantGenesis : bool; wantSubject : bool; wantServer : bool;
                          wantRole : bool; wantMeta : bool }.
Definition wants_of (t : EventType) : wants :=
  match t with
  | EventGenesis => mkWants true true true false false
  | EventRoleGrant | EventRoleRevoke => mkWants false true false true false
  | EventMemberAdd => mkWants false true true false false
  | EventMemberRemove | EventJoinAccept | EventLeave => mkWants false true false false false
  | EventMeta => mkWants false false false false true
  | EventDissolve | EventOther _ => mkWants false false false false false
  end.

Section event.
Context {UC : UnicodeCase} {ED : Ed25519}.

(** The five field checks of [Validate], in its order. *)
Definition check_genesis (e : Event) : res string () :=
  if wantGenesis (wants_of (Type_ e)) then
    if negb (zlen (RootPubKey e) =? ed25519_PublicKeySize) then
      Err "group: genesis root public key must be 32 bytes"%string
    else if negb (zlen (Nonce e) =? NonceSize) then
      Err "group: genesis nonce must be 16 bytes"%string
    else
      ok ← wrap_err (λ _, "group: genesis group id"%string) (VerifyID (GroupID e) (RootPubKey e));
      guard_err ok "group: genesis group id does not match its root key"%string
  else guard_err ((zlen (RootPubKey e) =? 0) && (zlen (Nonce e) =? 0))
         "group: must not carry group root key material"%string.
Definition check_subject (e : Event) : res string () :=
  if wantSubject (wants_of (Type_ e)) then
    _ ← wrap_err (λ _, "group: event subject"%string) (Normalize (Subject e)); Ok ()
  else guard_err (Subject e =?b []) "group: must not name a subject"%string.
Definition check_server (e : Event) : res string () :=
  if wantServer (wants_of (Type_ e)) then
    guard_err (negb (Server e =?b [])) "group: must carry the subject's home server"%string
  else guard_err (Server e =?b []) "group: must not name a server"%string.
Definition check_role (e : Event) : res string () :=
  if wantRole (wants_of (Type_ e)) then
    guard_err (grantable (Role_ e)) "group: role cannot be granted or revoked"%string
  else guard_err (Role_ e =? RoleNone) "group: must not name a role"%string.
Definition check_meta (e : Event) : res string () :=
  if wantMeta (wants_of (Type_ e)) then
    if MaxNameLen <? zlen (Name e) then Err "group: name must be at most 128 bytes"%string
    else if MaxTopicLen <? zlen (Topic e) then Err "group: topic must be at most 512 bytes"%string
    else Ok ()
  else guard_err ((Name e =?b []) && (Topic e =?b [])) "group: must not carry name or topic"%string.

Definition is_self_signed (t : EventType) : bool :=
  match t with EventJoinAccept | EventLeave => true | _ => false end.

Definition Validate (e : Event) : res string () :=
  _ ← from_option (domainTags (Type_ e)) "group: unknown event type"%string;
  _ ← wrap_err (λ _, "group: event group id"%string) (Normalize (GroupID e));
  if is_zero (IssuedAt e) then Err "group: event has no timestamp"%string
  else if negb (truncate_second (IssuedAt e) =?b IssuedAt e) then
    Err "group: event timestamp must not carry sub-second precision"%string
  else if negb (zlen (Signature e) =? ed25519_SignatureSize) then
    Err "group: signature must be 64 bytes"%string
  else
    _ ← match ruleFor (Type_ e), Signer_ e with
        | signedByRoot, Some _ =>
          Err "group: is signed by the group root key and must carry no signer"%string
        | signedByDevice, None => Err "group: must carry a signer"%string
        | _, _ => Ok ()
        end;
    _ ← check_genesis e;
    _ ← check_subject e;
    _ ← check_server e;
    _ ← check_role e;
    _ ← check_meta e;
    if is_self_signed (Type_ e) then
      match Signer_ e with
      | Some s => guard_err (Signer.AccountID s =?b Subject e)
                    "group: must be signed by its own subject"%string
      | None => Err "group: must be signed by its own subject"%string
      end
    else Ok ().

Definition Event_Verify (e : Event) (groupRootPubKey : bytes) : res string () :=
  _ ← Validate e;
  buf ← signingBytes e;
  match Signer_ e with
  | None =>
    ok ← ed25519_Verify groupRootPubKey buf (Signature e);
    guard_err ok "group: signature verification failed"%string
  | Some s =>
    _ ← Signer.verify (Some s);
    ok ← ed25519_Verify (DeviceCertificate.DevicePubKey (Signer.DeviceCert s)) buf (Signature e);
    guard_err ok "group: signature verification failed"%string
  end.

(** The closure [canonical] of [canonicalIDs]. *)
Definition canonical (id : bytes) : res string () :=
  normalized ← wrap_err (λ _, "group: event id"%string) (Normalize id);
  guard_err (normalized =?b id) "group: event id must be the canonical id"%string.

Definition canonicalIDs (e : Event) : res string () :=
  _ ← canonical (GroupID e);
  match Type_ e with
  | EventGenesis | EventMemberAdd | EventRoleGrant | EventJoinAccept => canonical (Subject e)
  | _ => Ok ()
  end.

Definition with_signature (e : Event) (signer : option Signer.t) (sig : bytes) : Event :=
  mkEvent (Type_ e) (GroupID e) (IssuedAt e) (RootPubKey e) (Nonce e) (Subject e) (Server e)
    (Role_ e) (Name e) (Topic e) signer sig.

(** [sign] writes the signer and the signature into the event it is given; the
    result is that event. *)
Definition sign (e : Event) (priv : bytes) (signer : option Signer.t) : res string Event :=
  let e := with_signature e signer (replicate 64 0) in
  _ ← Validate e;
  _ ← canonicalIDs e;
  buf ← signingBytes e;
  sig ← ed25519_Sign priv buf;
  Ok (with_signature e signer sig).

Definition SignRoot (e : Event) (groupRootPriv : bytes) : res string Event :=
  if ruleFor (Type_ e) =?b signedByDevice then
    Err "group: is not signed by the group root key"%string
  else sign e groupRootPriv None.

Definition SignDevice (e : Event) (signer : option Signer.t) (devicePriv : bytes) : res string Event :=
  if ruleFor (Type_ e) =?b signedByRoot then
    Err "group: must be signed by the group root key"%string
  else sign e devicePriv signer.
End event.

(** ** No call panics *)

Section panics.
Context {UC : UnicodeCase} {ED : Ed25519}.

Lemma Normalize_not_Panic id : Normalize id ≠ Panic.
Proof. unfold Normalize. no_panic. Qed.

Lemma DeriveIDVersion_not_Panic v key : DeriveIDVersion v key ≠ Panic.
Proof. unfold DeriveIDVersion. no_panic. Qed.

Lemma VerifyVersion_not_Panic v id key : VerifyVersion v id key ≠ Panic.
Proof.
  unfold VerifyVersion. no_panic; auto using Normalize_not_Panic, DeriveIDVersion_not_Panic.
Qed.

Lemma cert_signingBytes_not_Panic c : DeviceCertificate.signingBytes c ≠ Panic.
Proof. unfold DeviceCertificate.signingBytes. no_panic. apply decodeDeviceID_not_Panic. Qed.

Lemma signer_verify_not_Panic s : Signer.verify s ≠ Panic.
Proof.
  unfold Signer.verify. no_panic.
  - apply wrap_err_not_Panic, VerifyVersion_not_Panic.
  - apply wrap_err_not_Panic, verify_signed_not_Panic, cert_signingBytes_not_Panic.
Qed.

Lemma Validate_not_Panic e : Validate e ≠ Panic.
Proof.
  assert (check_genesis e ≠ Panic).
  { unfold check_genesis. no_panic. apply wrap_err_not_Panic, VerifyVersion_not_Panic. }
  assert (check_subject e ≠ Panic).
  { unfold check_subject. no_panic. apply wrap_err_not_Panic, Normalize_not_Panic. }
  assert (check_meta e ≠ Panic) by (unfold check_meta; no_panic).
  assert (check_server e ≠ Panic) by (unfold check_server; no_panic).
  assert (check_role e ≠ Panic) by (unfold check_role; no_panic).
  unfold Validate. no_panic. apply wrap_err_not_Panic, Normalize_not_Panic.
Qed.

Lemma signingBytes_not_Panic e : signingBytes e ≠ Panic.
Proof. unfold signingBytes. no_panic. Qed.

Lemma Event_ID_not_Panic e : Event_ID e ≠ Panic.
Proof. unfold Event_ID. no_panic. apply signingBytes_not_Panic. Qed.

Lemma cert_verified_key c root u :
  DeviceCertificate.Verify c root = Ok u → zlen (DeviceCertificate.DevicePubKey c) = 32.
Proof.
  intros (buf & H & _)%verify_signed_Ok. unfold DeviceCertificate.signingBytes in H. res_inv H.
  unfold ed25519_PublicKeySize in *. by bool_prop.
Qed.

Lemma signer_verified_key s u :
  Signer.verify (Some s) = Ok u → zlen (DeviceCertificate.DevicePubKey (Signer.DeviceCert s)) = 32.
Proof. intros H. unfold Signer.verify in H. res_inv H. by eapply cert_verified_key. Qed.

Lemma ed25519_Verify_not_Panic {E} pub msg sig :
  zlen pub = 32 → ed25519_Verify (E:=E) pub msg sig ≠ Panic.
Proof. intros H. destruct (Verify_not_Panic (E:=E) pub msg sig H) as [b ->]. done. Qed.

(** [Verify] can only panic on a root key of the wrong size, and only for an
    event without a signer. *)
Lemma Event_Verify_not_Panic e root :
  Signer_ e ≠ None ∨ zlen root = 32 → Event_Verify e root ≠ Panic.
Proof.
  intros Hr. unfold Event_Verify.
  no_panic; auto using Validate_not_Panic, signingBytes_not_Panic, signer_verify_not_Panic,
    ed25519_Verify_not_Panic.
  - eauto using ed25519_Verify_not_Panic, signer_verified_key.
  - destruct Hr; [congruence|auto using ed25519_Verify_not_Panic].
Qed.
End panics.

(** ** What a validated event looks like *)

Section valid.
Context {UC : UnicodeCase} {ED : Ed25519}.

(** The fields an event may carry, as [Validate] leaves them. *)
Record fields_ok (e : Event) : Prop := {
  fo_tag : domainTags (Type_ e) ≠ None;
  fo_gid : is_ok (Normalize (GroupID e)) = true;
  fo_time : t_nsec (IssuedAt e) = 0 ∧ t_mono (IssuedAt e) = None;
  fo_sig : zlen (Signature e) = 64;
  fo_root : if wantGenesis (wants_of (Type_ e))
            then zlen (RootPubKey e) = 32 ∧ zlen (Nonce e) = 16
            else RootPubKey e = [] ∧ Nonce e = [];
  fo_subject : if wantSubject (wants_of (Type_ e)) then is_ok (Normalize (Subject e)) = true
               else Subject e = [];
  fo_server : if wantServer (wants_of (Type_ e)) then Server e ≠ [] else Server e = [];
  fo_role : if wantRole (wants_of (Type_ e)) then grantable (Role_ e) = true else Role_ e = RoleNone;
  fo_meta : if wantMeta (wants_of (Type_ e)) then zlen (Name e) ≤ 128 ∧ zlen (Topic e) ≤ 512
            else Name e = [] ∧ Topic e = [];
  fo_signer : match ruleFor (Type_ e), Signer_ e with
              | signedByRoot, Some _ | signedByDevice, None => False | _, _ => True end;
  fo_self : is_self_signed (Type_ e) = true →
            ∃ s, Signer_ e = Some s ∧ Signer.AccountID s = Subject e;
}.

Lemma Validate_fields e u : Validate e = Ok u → fields_ok e.
Proof.
  intros H. unfold Validate in H.
  apply bind_Ok in H as (tag & Ht & H). apply from_option_Ok in Ht.
  apply bind_Ok in H as (n & Hn & H). apply wrap_err_Ok in Hn.
  rewrite !if_err_Ok in H. destruct H as (_ & Htr & Hs & H).
  apply bind_Ok in H as (u0 & Hr & H). apply bind_Ok in H as (u1 & Hg & H).
  apply bind_Ok in H as (u2 & Hsub & H). apply bind_Ok in H as (u3 & Hsrv & H).
  apply bind_Ok in H as (u4 & Hrole & H). apply bind_Ok in H as (u5 & Hmeta & Hself).
  unfold ed25519_SignatureSize in *. rewrite negb_false_iff, eqb_true in Htr.
  rewrite negb_false_iff, Z.eqb_eq in Hs. constructor.
  - congruence.
  - by rewrite Hn.
  - rewrite <- Htr. done.
  - done.
  - unfold check_genesis in Hg. destruct (wantGenesis _).
    + res_inv Hg. unfold ed25519_PublicKeySize, NonceSize in *. by bool_prop.
    + res_inv Hg. bool_prop. destruct Hg. auto using zlen_nil_inv.
  - unfold check_subject in Hsub. destruct (wantSubject _); res_inv Hsub; [by rewrite Hsub0|by bool_prop].
  - unfold check_server in Hsrv. destruct (wantServer _); res_inv Hsrv; by bool_prop.
  - unfold check_role in Hrole. destruct (wantRole _); res_inv Hrole; by bool_prop.
  - unfold check_meta, MaxNameLen, MaxTopicLen in Hmeta.
    destruct (wantMeta _); res_inv Hmeta; bool_prop; [lia|done].
  - destruct (ruleFor _), (Signer_ e); try done.
  - intros Hs'. rewrite Hs' in Hself. destruct (Signer_ e) as [s|]; [|done]. res_inv Hself.
    bool_prop. eauto.
Qed.

(** The signature enters [Validate] only by its length. *)
Lemma Validate_signature e s sig sig' :
  zlen sig = 64 → zlen sig' = 64 →
  Validate (with_signature e s sig) = Validate (with_signature e s sig').
Proof. intros H H'. unfold Validate. simpl. by rewrite H, H'. Qed.

Lemma sign_Ok e priv pub signer e' :
  key_pair priv pub → sign e priv signer = Ok e' →
  ∃ buf, e' = with_signature e signer (ed_sign priv buf) ∧
    signingBytes e' = Ok buf ∧ Validate e' = Ok () ∧ canonicalIDs e' = Ok ().
Proof.
  intros Hk H. unfold sign in H. apply bind_Ok in H as ([] & Hv & H).
  apply bind_Ok in H as ([] & Hc & H). apply bind_Ok in H as (buf & Hb & H).
  rewrite (Sign_Ok priv pub) in H by done. apply Ok_inj in H as <-. exists buf.
  split_and!; try done. rewrite <- Hv. apply (Validate_signature e); [apply ed_sign_length|done].
Qed.

(** An event signed by the code verifies: one signed with the group root key
    verifies against its public key, one signed with a device key verifies, for
    every group root key, once its signer block verifies and certifies that
    device key. *)
Theorem signed_events_verify e e' priv pub :
  key_pair priv pub →
  (SignRoot e priv = Ok e' → Event_Verify e' pub = Ok ()) ∧
  (∀ s root, SignDevice e (Some s) priv = Ok e' → Signer.verify (Some s) = Ok () →
     DeviceCertificate.DevicePubKey (Signer.DeviceCert s) = pub → Event_Verify e' root = Ok ()).
Proof.
  intros Hk. split.
  - intros H. unfold SignRoot in H. apply if_err_Ok in H as [_ H].
    apply (sign_Ok _ _ pub) in H as (buf & He & Hb & Hv & _); [|done].
    unfold Event_Verify. rewrite Hv, Hb, He. cbn [mbind res_bind Signer_ Signature with_signature].
    by rewrite (Verify_Sign priv pub).
  - intros s root H Hs Hpub. unfold SignDevice in H. apply if_err_Ok in H as [_ H].
    apply (sign_Ok _ _ pub) in H as (buf & He & Hb & Hv & _); [|done].
    unfold Event_Verify. rewrite Hv, Hb, He. cbn [mbind res_bind Signer_ Signature with_signature].
    rewrite Hs. cbn [mbind res_bind]. rewrite Hpub. by rewrite (Verify_Sign priv pub).
Qed.
End valid.

(** ** What the signing bytes bind *)

(** Everything but the signer block, the signature and the time zone in which the
    timestamp happens to be held. *)
Definition same_fact (e e' : Event) : Prop :=
  Type_ e = Type_ e' ∧ GroupID e = GroupID e' ∧ utc (IssuedAt e) = utc (IssuedAt e') ∧
  RootPubKey e = RootPubKey e' ∧ Nonce e = Nonce e' ∧ Subject e = Subject e' ∧
  Server e = Server e' ∧ Role_ e = Role_ e' ∧ Name e = Name e' ∧ Topic e = Topic e'.

(** The 16-bit length prefixes hold the fields' lengths. *)
Definition prefixes_fit (e : Event) : Prop :=
  zlen (GroupID e) < 2 ^ 16 ∧ zlen (Subject e) < 2 ^ 16 ∧ zlen (Server e) < 2 ^ 16 ∧
  - 2 ^ 63 ≤ t_sec (IssuedAt e) < 2 ^ 63.

Lemma domainTags_inj t t' tag : domainTags t = Some tag → domainTags t' = Some tag → t = t'.
Proof. destruct t, t'; simpl; intros H H'; try done; by simplify_eq. Qed.

Lemma domainTags_short t tag : domainTags t = Some tag → zlen tag < 2 ^ 16.
Proof. destruct t; intros H; simplify_eq/=; done. Qed.

Lemma cons_inj {A} (x y : A) l k : x :: l = y :: k → x = y ∧ l = k.
Proof. naive_solver. Qed.

(** Peel the fields off both sides of an equation between two layouts. *)
Ltac peel H :=
  rewrite <- ?app_assoc in H;
  repeat first
    [ apply writeLengthPrefixed_inj in H as [? H]; [|lia..]
    | match type of H with [_] ++ _ = [_] ++ _ => apply cons_inj in H as [? H] end
    | apply fixed_app_inj in H as [? H]; [|lia] ].

Lemma signingBytes_same {UC : UnicodeCase} e e' b :
  fields_ok e → fields_ok e' → prefixes_fit e → prefixes_fit e' →
  signingBytes e = Ok b → signingBytes e' = Ok b → same_fact e e'.
Proof.
  intros [Htag _ Ht _ Hr Hsub Hsrv Hro Hm _ _] [_ _ Ht' _ Hr' Hsub' Hsrv' Hro' Hm' _ _]
    (Hg & Hs & Hv & Hw) (Hg' & Hs' & Hv' & Hw') H H'.
  unfold signingBytes in H, H'. apply bind_Ok in H as (tag & Hd & H). apply bind_Ok in H' as (tag' & Hd' & H').
  apply from_option_Ok in Hd, Hd'. rewrite <- H in H'. apply Ok_inj in H'. clear H.
  pose proof (domainTags_short _ _ Hd). pose proof (domainTags_short _ _ Hd').
  rewrite <- !(assoc_L (++)) in H'. apply writeLengthPrefixed_inj in H' as [-> H']; [|done..].
  pose proof (domainTags_inj _ _ _ Hd Hd') as Hty. rewrite <- Hty in *.
  apply writeLengthPrefixed_inj in H' as [Hgid H']; [|done..].
  assert (writeLengthPrefixed (rfc3339 (IssuedAt e)) = writeLengthPrefixed (rfc3339 (IssuedAt e')) →
    utc (IssuedAt e) = utc (IssuedAt e')) as Hutc.
  { intros Hlp. apply lp_time_inj in Hlp; [|split; [done|]..].
    - destruct (IssuedAt e) as [s n m l], (IssuedAt e') as [s' n' m' l'].
      unfold utc. simpl in *. destruct Ht, Ht'. by subst.
    - unfold second. lia.
    - unfold second. lia. }
  assert (∀ x y, grantable x = true → grantable y = true → u8 x = u8 y → x = y) as Hu8.
  { unfold grantable, RoleModerator, RoleAdmin, u8. intros x y Hx Hy. bool_prop.
    Z.to_euclidean_division_equations. lia. }
  unfold same_fact. destruct (Type_ e) eqn:Et;
    cbn [wants_of wantGenesis wantSubject wantServer wantRole wantMeta domainTags] in *;
    destruct_and?; try done; peel H'.
  all: split_and!; try congruence; try (apply Hutc; congruence); try (apply Hu8; congruence).
Qed.

Section binding.
Context {UC : UnicodeCase} {ED : Ed25519}.

Lemma Event_Verify_Ok e root u :
  Event_Verify e root = Ok u →
  Validate e = Ok () ∧ ∃ buf, signingBytes e = Ok buf ∧
    match Signer_ e with
    | None => zlen root = 32 ∧ ed_verify root buf (Signature e) = true
    | Some s => Signer.verify (Some s) = Ok () ∧
        ed_verify (DeviceCertificate.DevicePubKey (Signer.DeviceCert s)) buf (Signature e) = true
    end.
Proof.
  unfold Event_Verify. intros H. apply bind_Ok in H as ([] & Hv & H).
  apply bind_Ok in H as (buf & Hb & H). split; [done|]. exists buf. split; [done|].
  destruct (Signer_ e) as [s|].
  - apply bind_Ok in H as ([] & Hs & H). split; [done|]. res_inv H. subst.
    unfold ed25519_Verify in H0. destruct (_ =? _); [|done]. apply Ok_inj in H0. by apply andb_true_iff in H0 as [_ ?].
  - res_inv H. subst. unfold ed25519_Verify, ed25519_PublicKeySize in H0.
    destruct (Z.eqb_spec (zlen root) 32); [|done]. apply Ok_inj in H0. by apply andb_true_iff in H0 as [_ ?].
Qed.

(** The signing bytes bind the whole statement: two valid events whose
    fields fit their 16-bit length prefixes and whose signing bytes are equal
    state the same fact -- type, group, second, and every field of the type. *)
Theorem signing_bytes_bind_event e e' b :
  Validate e = Ok () → Validate e' = Ok () → prefixes_fit e → prefixes_fit e' →
  signingBytes e = Ok b → signingBytes e' = Ok b → same_fact e e'.
Proof. intros Hv Hv'. apply signingBytes_same; by eapply Validate_fields. Qed.

(** C39: the signer block is not part of what is signed: any account whose signer
    block certifies the signing device's key can put its own block on a
    device-signed event of another account, and the event still verifies, under
    the same event id. *)
Theorem signer_not_bound e s s' root :
  Event_Verify e root = Ok () → Signer_ e = Some s →
  Signer.verify (Some s') = Ok () → is_self_signed (Type_ e) = false →
  DeviceCertificate.DevicePubKey (Signer.DeviceCert s')
    = DeviceCertificate.DevicePubKey (Signer.DeviceCert s) →
  let e' := with_signature e (Some s') (Signature e) in
  Event_Verify e' root = Ok () ∧ Event_ID e' = Event_ID e.
Proof.
  intros H Hs Hs' Hself Hkey e'. split; [|done].
  apply Event_Verify_Ok in H as (Hv & buf & Hb & H). rewrite Hs in H. destruct H as [_ Hsig].
  pose proof (signer_verified_key s' () Hs') as Hk.
  assert (Validate e' = Ok ()) as Hv'.
  { rewrite <- Hv. unfold Validate. simpl. rewrite Hs, Hself. done. }
  unfold Event_Verify. rewrite Hv'. cbn [mbind res_bind]. subst e'.
  rewrite (Hb : signingBytes (with_signature e (Some s') (Signature e)) = _).
  cbn [mbind res_bind Signer_ with_signature Signature]. rewrite Hs'. cbn [mbind res_bind].
  unfold ed25519_Verify, ed25519_PublicKeySize. rewrite Hk. cbn [mbind res_bind].
  apply Validate_fields in Hv. rewrite (fo_sig _ Hv), Hkey, Hsig. done.
Qed.
End binding.
