(* ===== verification/GroupState.v ===== *)
(** * pkg/group/state.go: the fact set of a group

    A [State] is a grow-only map from event ids to events.  [Apply] admits a
    batch, genesis events first; [StateHash] fingerprints the ids; marshalling
    keeps the events only and reloading admits them all again.

    A Go map is iterated in no fixed order: an operation that ranges over the
    events takes the enumeration it meets as an argument, any permutation of the
    map's entries ([enumeration]). *)

From S2P Require Import Prelude GoStr GoTime Sha256 Crypto Bech32m Address DeviceCert GroupEvent.

Record State := mkState { groupID : bytes; rootPubKey : bytes; events : gmap bytes Event }.

Definition RejectNoGenesis : string := "no genesis event yet".

Record Rejection := mkRejection { Index : Z; RejID : bytes; Reason : string }.
Record ApplyResult := mkResult { Applied : list bytes; Known : list bytes; Rejected : list Rejection }.

Definition NewState : State := mkState [] [] ∅.

Definition enumeration {A} (m : gmap bytes A) (l : list (bytes * A)) : Prop := l ≡ₚ map_to_list m.

(** [Events], ranging over the map in the order [l]. *)
Definition Events_in (s : State) (l : list (bytes * Event)) : list Event :=
  omap (λ id, events s !! id) (sort_strings l.*1).
Definition Events (s : State) : list Event := Events_in s (map_to_list (events s)).

(** [Genesis] returns the first genesis event the iteration meets. *)
Definition Genesis_in (l : list (bytes * Event)) : option Event :=
  snd <$> List.find (λ x, Type_ x.2 =?b EventGenesis) l.

Definition StateHash_in (l : list (bytes * Event)) : bytes :=
  hex_encode (sha256 (mjoin ((λ id, default [] (hex_decode id)) <$> sort_strings l.*1))).
Definition StateHash (s : State) : bytes := StateHash_in (map_to_list (events s)).

Section State_admit.
Context {UC : UnicodeCase} {ED : Ed25519}.

Definition add_rejected (r : ApplyResult) (j : Rejection) : ApplyResult :=
  mkResult (Applied r) (Known r) (Rejected r ++ [j]).
Definition add_known (r : ApplyResult) (id : bytes) : ApplyResult :=
  mkResult (Applied r) (Known r ++ [id]) (Rejected r).
Definition add_applied (r : ApplyResult) (id : bytes) : ApplyResult :=
  mkResult (Applied r ++ [id]) (Known r) (Rejected r).

(** The closure [reject] of [State.admit]; an id that cannot be computed is empty. *)
Definition reject (index : Z) (e : Event) (result : ApplyResult) (reason : string) : ApplyResult :=
  let id := match Event_ID e with Ok id => id | _ => [] end in
  add_rejected result (mkRejection index id reason).

(** The checks before the event is looked up: the reason to reject it. *)
Definition admission (s : State) (e : Event) : res string () :=
  if Type_ e =?b EventGenesis then
    _ ← Event_Verify e (RootPubKey e);
    if negb (groupID s =?b []) && negb (groupID s =?b GroupID e) then
      Err "genesis for a different group"%string
    else Ok ()
  else if groupID s =?b [] then Err RejectNoGenesis
  else if negb (GroupID e =?b groupID s) then Err "event belongs to a different group"%string
  else Event_Verify e (rootPubKey s).

Definition State_admit (index : Z) (e : Event) (sr : State * ApplyResult) : res string (State * ApplyResult) :=
  let '(s, result) := sr in
  match admission s e with
  | Panic => Panic
  | Err reason => Ok (s, reject index e result reason)
  | Ok _ =>
    match Event_ID e with
    | Panic => Panic
    | Err reason => Ok (s, reject index e result reason)
    | Ok id =>
      match events s !! id with
      | Some _ => Ok (s, add_known result id)
      | None =>
        let '(gid, root) := if Type_ e =?b EventGenesis then (GroupID e, RootPubKey e)
                            else (groupID s, rootPubKey s) in
        Ok (mkState gid root (<[id := e]> (events s)), add_applied result id)
      end
    end
  end.

(** The two passes of [Apply]: genesis events, then the others. *)
Definition is_genesis (e : Event) : bool := Type_ e =?b EventGenesis.
Fixpoint pass_genesis (i : Z) (evs : list (option Event)) (sr : State * ApplyResult)
    : res string (State * ApplyResult) :=
  match evs with
  | [] => Ok sr
  | Some e :: evs' => if is_genesis e then State_admit i e sr ≫= pass_genesis (i + 1) evs'
                      else pass_genesis (i + 1) evs' sr
  | None :: evs' => pass_genesis (i + 1) evs' sr
  end.
Fixpoint pass_others (i : Z) (evs : list (option Event)) (sr : State * ApplyResult)
    : res string (State * ApplyResult) :=
  match evs with
  | [] => Ok sr
  | None :: evs' =>
    pass_others (i + 1) evs' (sr.1, add_rejected sr.2 (mkRejection i [] "nil event"))
  | Some e :: evs' => if is_genesis e then pass_others (i + 1) evs' sr
                      else State_admit i e sr ≫= pass_others (i + 1) evs'
  end.
Definition Apply (s : State) (evs : list (option Event)) : res string (State * ApplyResult) :=
  pass_genesis 0 evs (s, mkResult [] [] []) ≫= pass_others 0 evs.

(** [MarshalJSON] and [UnmarshalJSON], over the JSON codec of the event list. *)
Section json.
Context (json_Marshal : list Event → res string bytes)
        (json_Unmarshal : bytes → res string (list (option Event))).

Definition MarshalJSON (s : State) : res string bytes := json_Marshal (Events s).

(** The state after the call, and the call's error. *)
Definition UnmarshalJSON (s : State) (data : bytes) : res string (State * option string) :=
  match json_Unmarshal data with
  | Panic => Panic
  | Err e => Ok (s, Some e)
  | Ok raw =>
    sr ← Apply NewState raw;
    let '(s', result) := sr in
    if negb (bool_decide (Rejected result = [])) then
      Ok (s', Some "group: stored event(s) failed to verify"%string)
    else if groupID s' =?b [] then Ok (s', Some "group: stored state has no genesis event"%string)
    else Ok (s', None)
  end.
End json.
End State_admit.

#[export] Instance Rejection_eq_dec : EqDecision Rejection.
Proof. solve_decision. Defined.
#[export] Instance ApplyResult_eq_dec : EqDecision ApplyResult.
Proof. solve_decision. Defined.
#[export] Instance State_eq_dec : EqDecision State.
Proof. solve_decision. Defined.

(** ** The facts of a group

    Once the genesis is known, what [Apply] admits depends on the event alone:
    [fact gid root] decides it. *)

Section facts.
Context {UC : UnicodeCase} {ED : Ed25519}.
Context (gid root : bytes).

Definition fact (e : Event) : bool :=
  (GroupID e =?b gid) && is_ok (Event_Verify e root)
  && (negb (is_genesis e) || (RootPubKey e =?b root)).

(** The group's identity is settled and every event held is a fact under its id. *)
Record established (s : State) : Prop := {
  est_gid : groupID s = gid;
  est_root : rootPubKey s = root;
  est_key : zlen root = 32;
  est_nonempty : gid ≠ [];
  est_facts id e : events s !! id = Some e → Event_ID e = Ok id ∧ fact e = true;
}.

(** The genesis events of a batch that name this group carry its root key:
    another key with the same group id would be a collision of the address
    derivation. *)
Definition one_root (evs : list (option Event)) : Prop :=
  ∀ e, Some e ∈ evs → is_genesis e = true → GroupID e = gid →
    Event_Verify e (RootPubKey e) = Ok () → RootPubKey e = root.

(** Adding one fact to the map: an id already present stays as it is. *)
Definition insert_fact (m : gmap bytes Event) (e : Event) : gmap bytes Event :=
  match Event_ID e with
  | Ok id => match m !! id with Some _ => m | None => <[id := e]> m end
  | _ => m
  end.

Lemma fact_ID e : fact e = true → ∃ id, Event_ID e = Ok id.
Proof.
  unfold fact. intros H. rewrite !andb_true_iff in H. destruct H as [[_ H] _].
  destruct (Event_Verify e root) eqn:E; try done.
  apply Event_Verify_Ok in E as (_ & buf & Hb & _). unfold Event_ID. rewrite Hb. eauto.
Qed.

Lemma genesis_Verify_not_Panic e : is_genesis e = true → Event_Verify e (RootPubKey e) ≠ Panic.
Proof.
  intros Hg. unfold Event_Verify. apply bind_not_Panic; [apply Validate_not_Panic|].
  intros u Hv%Validate_fields. apply bool_decide_eq_true in Hg.
  pose proof (fo_root _ Hv) as Hr. rewrite Hg in Hr. destruct Hr as [Hr _].
  pose proof (fo_signer _ Hv) as Hs. rewrite Hg in Hs. simpl in Hs.
  destruct (Signer_ e); [done|].
  no_panic; [apply signingBytes_not_Panic|by apply ed25519_Verify_not_Panic].
Qed.

(** A rejection is an error, never a panic. *)
Definition rejected_with {A} (r : res string A) : Prop := ∃ reason, r = Err reason.

Ltac verdict :=
  cbn; unfold rejected_with; split; intros ?; first [done | by eexists | congruence].

Lemma admission_genesis s e :
  established s → one_root [Some e] → is_genesis e = true →
  (fact e = true → admission s e = Ok ()) ∧ (fact e = false → rejected_with (admission s e)).
Proof.
  intros Hs Ho Eg. unfold admission, fact. fold (is_genesis e). rewrite Eg, (est_gid _ Hs).
  pose proof (genesis_Verify_not_Panic e Eg) as Hnp.
  specialize (Ho e ltac:(left) Eg). cbn [negb orb].
  rewrite (proj2 (eqb_false gid []) (est_nonempty _ Hs)). cbn [negb andb].
  destruct (decide (GroupID e = gid)) as [Hg|Hg].
  - rewrite Hg, eqb_refl. cbn [negb andb].
    destruct (decide (RootPubKey e = root)) as [Hr|Hr].
    + rewrite <- Hr, eqb_refl, andb_true_r.
      destruct (Event_Verify e (RootPubKey e)) as [[]|r|]; verdict.
    + rewrite (proj2 (eqb_false (RootPubKey e) root)), andb_false_r by done. split; [done|intros _].
      destruct (Event_Verify e (RootPubKey e)) as [[]|r|] eqn:Ev; cbn;
        [by destruct Hr; apply Ho|by eexists|done].
  - rewrite (proj2 (eqb_false (GroupID e) gid)), (proj2 (eqb_false gid (GroupID e))) by done.
    cbn [negb andb]. split; [done|intros _].
    destruct (Event_Verify e (RootPubKey e)) as [[]|r|]; cbn; [by eexists..|done].
Qed.

Lemma admission_other s e :
  established s → is_genesis e = false →
  (fact e = true → admission s e = Ok ()) ∧ (fact e = false → rejected_with (admission s e)).
Proof.
  intros Hs Eg. unfold admission, fact. fold (is_genesis e).
  rewrite Eg, (est_gid _ Hs), (est_root _ Hs).
  rewrite (proj2 (eqb_false gid []) (est_nonempty _ Hs)). cbn [negb orb andb].
  rewrite andb_true_r. destruct (GroupID e =?b gid); [|verdict].
  pose proof (Event_Verify_not_Panic e root (or_intror (est_key _ Hs))).
  destruct (Event_Verify e root) as [[]|r|]; verdict.
Qed.

Lemma admission_fact s e :
  established s → one_root [Some e] →
  (fact e = true → admission s e = Ok ()) ∧ (fact e = false → rejected_with (admission s e)).
Proof.
  intros. destruct (is_genesis e) eqn:?; [by apply admission_genesis|by apply admission_other].
Qed.

Definition with_events (m : gmap bytes Event) : State := mkState gid root m.

Lemma established_eta s : established s → s = with_events (events s).
Proof. intros [Hg Hr _ _ _]. destruct s. unfold with_events. simpl in *. by subst. Qed.

Lemma established_insert s e : established s → fact e = true →
  established (with_events (insert_fact (events s) e)).
Proof.
  intros Hs He. constructor; try done; try apply Hs. simpl. intros id e'. unfold insert_fact.
  destruct (fact_ID e He) as [i Hi]. rewrite Hi.
  destruct (events s !! i) eqn:E; [apply Hs|].
  rewrite lookup_insert_Some. intros [[<- <-]|[_ H]]; [done|]. by apply Hs in H.
Qed.

(** One call of [State_admit]: a fact enters the map, anything else changes nothing. *)
Lemma admit_established i e s r :
  established s → one_root [Some e] →
  ∃ r', State_admit i e (s, r) =
        Ok (with_events (if fact e then insert_fact (events s) e else events s), r') ∧
        (fact e = true → Rejected r' = Rejected r).
Proof.
  intros Hs Ho. destruct (admission_fact s e Hs Ho) as [Ht Hf]. unfold State_admit.
  destruct (fact e) eqn:E.
  - rewrite Ht by done. destruct (fact_ID e E) as [id Hi]. unfold insert_fact. rewrite Hi.
    destruct (events s !! id) eqn:El.
    + eexists. by rewrite <- (established_eta s Hs).
    + unfold fact in E. rewrite !andb_true_iff, !eqb_true in E. destruct E as [[Eg _] Er].
      fold (is_genesis e). destruct (is_genesis e) eqn:Egen; simpl in Er.
      * apply (proj1 (eqb_true _ _)) in Er. rewrite Eg, Er. by eexists.
      * rewrite (est_gid _ Hs), (est_root _ Hs). by eexists.
  - destruct Hf as [reason ->]; [done|]. eexists. split; [by rewrite <- (established_eta s Hs)|done].
Qed.
End facts.

(** ** What a batch adds *)

Section batches.
Context {UC : UnicodeCase} {ED : Ed25519}.
Context (gid root : bytes).
Local Abbreviation fact := (fact gid root).
Local Abbreviation established := (established gid root).
Local Abbreviation one_root := (one_root gid root).
Local Abbreviation with_events := (with_events gid root).

Definition genesis_of (evs : list (option Event)) : list Event :=
  List.filter is_genesis (omap id evs).
Definition others_of (evs : list (option Event)) : list Event :=
  List.filter (λ e, negb (is_genesis e)) (omap id evs).

Definition add_facts (m : gmap bytes Event) (es : list Event) : gmap bytes Event :=
  foldl insert_fact m (List.filter fact es).

Lemma add_facts_cons m e es :
  add_facts m (e :: es) = add_facts (if fact e then insert_fact m e else m) es.
Proof. unfold add_facts. simpl. by destruct (fact e). Qed.

Lemma add_facts_app m es es' : add_facts m (es ++ es') = add_facts (add_facts m es) es'.
Proof. unfold add_facts. by rewrite List.filter_app, foldl_app. Qed.

Lemma established_add s es : established s → established (with_events (add_facts (events s) es)).
Proof.
  intros Hs. revert s Hs. induction es as [|e es IH]; intros s Hs.
  - unfold add_facts. simpl. by rewrite <- (established_eta gid root s Hs).
  - rewrite add_facts_cons. destruct (fact e) eqn:E; [|by apply IH].
    apply (IH (with_events (insert_fact (events s) e))). by apply established_insert.
Qed.

Lemma one_root_cons o evs : one_root (o :: evs) → one_root [o] ∧ one_root evs.
Proof. intros H. split; intros e He; apply H; set_solver. Qed.

Lemma genesis_of_cons e evs :
  genesis_of (Some e :: evs) = if is_genesis e then e :: genesis_of evs else genesis_of evs.
Proof. done. Qed.
Lemma others_of_cons e evs :
  others_of (Some e :: evs) = if is_genesis e then others_of evs else e :: others_of evs.
Proof. unfold others_of. simpl. by destruct (is_genesis e). Qed.

Lemma admit_step i e s r :
  established s → one_root [Some e] →
  ∃ r', State_admit i e (s, r) = Ok (with_events (add_facts (events s) [e]), r') ∧
    (fact e = true → Rejected r' = Rejected r).
Proof. intros Hs Ho. rewrite add_facts_cons. by apply admit_established. Qed.

(** Every entry of the batch is a fact. *)
Definition all_facts (evs : list (option Event)) : Prop :=
  Forall (λ o, ∃ e, o = Some e ∧ fact e = true) evs.

Lemma pass_genesis_established i evs s r :
  established s → one_root evs →
  ∃ r', pass_genesis i evs (s, r) = Ok (with_events (add_facts (events s) (genesis_of evs)), r') ∧
    (all_facts evs → Rejected r' = Rejected r).
Proof.
  revert i s r. induction evs as [|[e|] evs IH]; intros i s r Hs Ho; cbn [pass_genesis].
  - exists r. split; [|done]. do 2 f_equal. by apply established_eta.
  - apply one_root_cons in Ho as [Ho Ho']. rewrite genesis_of_cons.
    destruct (is_genesis e) eqn:E; [|destruct (IH (i + 1) s r Hs Ho') as (r' & -> & Hr); exists r'; split; [done|]; by intros [_ ?]%Forall_cons; auto].
    destruct (admit_step i e s r Hs Ho) as (r1 & -> & Hr1). cbn [mbind res_bind].
    destruct (IH (i + 1) (with_events (add_facts (events s) [e])) r1) as (r2 & -> & Hr2);
      [by apply established_add|done|].
    exists r2. split; [do 3 f_equal; symmetry; apply (add_facts_app _ [e])|].
    intros [(? & [= <-] & ?) ?]%Forall_cons. rewrite Hr2, Hr1; done.
  - apply one_root_cons in Ho as [_ Ho'].
    destruct (IH (i + 1) s r Hs Ho') as (r' & -> & _). exists r'. split; [done|].
    by intros [(? & [=] & _) _]%Forall_cons.
Qed.

Lemma pass_others_established i evs s r :
  established s → one_root evs →
  ∃ r', pass_others i evs (s, r) = Ok (with_events (add_facts (events s) (others_of evs)), r') ∧
    (all_facts evs → Rejected r' = Rejected r).
Proof.
  revert i s r. induction evs as [|[e|] evs IH]; intros i s r Hs Ho; cbn [pass_others fst snd].
  - exists r. split; [|done]. do 2 f_equal. by apply established_eta.
  - apply one_root_cons in Ho as [Ho Ho']. rewrite others_of_cons.
    destruct (is_genesis e) eqn:E; [destruct (IH (i + 1) s r Hs Ho') as (r' & -> & Hr); exists r'; split; [done|]; by intros [_ ?]%Forall_cons; auto|].
    destruct (admit_step i e s r Hs Ho) as (r1 & -> & Hr1). cbn [mbind res_bind].
    destruct (IH (i + 1) (with_events (add_facts (events s) [e])) r1) as (r2 & -> & Hr2);
      [by apply established_add|done|].
    exists r2. split; [do 3 f_equal; symmetry; apply (add_facts_app _ [e])|].
    intros [(? & [= <-] & ?) ?]%Forall_cons. rewrite Hr2, Hr1; done.
  - apply one_root_cons in Ho as [_ Ho'].
    destruct (IH (i + 1) s (add_rejected r (mkRejection i [] "nil event")) Hs Ho') as (r' & -> & _). exists r'. split; [done|].
    by intros [(? & [=] & _) _]%Forall_cons.
Qed.

(** [Apply] on an established state: it returns, and the map has grown by the
    batch's facts, genesis events first. *)
Lemma Apply_established s evs :
  established s → one_root evs →
  ∃ r, Apply s evs = Ok (with_events (add_facts (events s) (genesis_of evs ++ others_of evs)), r) ∧
    (all_facts evs → Rejected r = []).
Proof.
  intros Hs Ho. unfold Apply.
  destruct (pass_genesis_established 0 evs s (mkResult [] [] []) Hs Ho) as (r & -> & Hr). cbn [mbind res_bind].
  destruct (pass_others_established 0 evs _ r (established_add s (genesis_of evs) Hs) Ho)
    as (r' & -> & Hr').
  exists r'. rewrite add_facts_app. split; [done|]. intros Ha. by rewrite Hr', Hr.
Qed.

(** No two different events share an id.  The id covers all of an event but
    its signer block, so this is what a sender must not break. *)
Definition collision_free (P : Event → Prop) : Prop :=
  ∀ e e' id, P e → P e' → Event_ID e = Ok id → Event_ID e' = Ok id → e = e'.

Lemma insert_fact_lookup m e id x :
  (∀ y, m !! id = Some y → Event_ID e = Ok id → y = e) →
  insert_fact m e !! id = Some x ↔ m !! id = Some x ∨ (x = e ∧ Event_ID e = Ok id).
Proof.
  intros Hc. unfold insert_fact. destruct (Event_ID e) as [i| |] eqn:Ei; [|naive_solver..].
  destruct (m !! i) as [y|] eqn:El.
  - split; [by left|]. intros [?|[-> [= ->]]]; [done|]. by rewrite El, (Hc y).
  - rewrite lookup_insert_Some. split.
    + intros [[-> ->]|[? ?]]; [by right|by left].
    + intros [H|[-> [= ->]]]; [|by left]. right. split; [congruence|done].
Qed.

Lemma add_facts_lookup m es id x :
  collision_free (λ e, (∃ i, m !! i = Some e) ∨ e ∈ es) →
  (∀ i e, m !! i = Some e → Event_ID e = Ok i) →
  add_facts m es !! id = Some x ↔
  m !! id = Some x ∨ (x ∈ es ∧ fact x = true ∧ Event_ID x = Ok id).
Proof.
  revert m. induction es as [|e es IH]; intros m Hc Hm.
  { unfold add_facts. simpl. set_solver. }
  rewrite add_facts_cons. destruct (fact e) eqn:E.
  - assert (∀ i y, insert_fact m e !! i = Some y ↔ m !! i = Some y ∨ (y = e ∧ Event_ID e = Ok i)) as Hi.
    { intros i y. apply insert_fact_lookup. intros z Hz He.
      apply (Hc z e i); [left; eauto|right; left|by apply Hm|done]. }
    rewrite IH.
    + rewrite Hi, elem_of_cons. split.
      * intros [[?|[-> ?]]|(? & ? & ?)]; auto.
      * intros [?|([->|?] & ? & ?)]; auto.
    + intros a b i Ha Hb. apply Hc; setoid_rewrite elem_of_cons.
      * destruct Ha as [(j & [?|[-> ?]]%Hi)|?]; eauto.
      * destruct Hb as [(j & [?|[-> ?]]%Hi)|?]; eauto.
    + intros i y [?|[-> ?]]%Hi; auto.
  - rewrite IH; [|intros a b i Ha Hb; apply Hc; set_solver|done].
    rewrite elem_of_cons. split.
    + intros [?|(? & ? & ?)]; auto.
    + intros [?|([->|?] & ? & ?)]; [by left|congruence|auto].
Qed.

Lemma elem_of_batch e evs : e ∈ genesis_of evs ++ others_of evs ↔ Some e ∈ evs.
Proof.
  rewrite elem_of_app. unfold genesis_of, others_of.
  rewrite !list_elem_of_In, !filter_In, <- !list_elem_of_In, list_elem_of_omap.
  split.
  - intros [[(o & Ho & [= ->]) _]|[(o & Ho & [= ->]) _]]; done.
  - intros H. destruct (is_genesis e); [left|right]; (split; [|done]); by exists (Some e).
Qed.
End batches.

(** ** Convergence *)

Section converge.
Context {UC : UnicodeCase} {ED : Ed25519}.
Context (gid root : bytes).

(** A member's history: batches in the order they arrive. *)
Definition deliver (s : State) (batches : list (list (option Event))) : res string State :=
  foldl (λ m b, s ← m; fst <$> Apply s b) (Ok s) batches.

Lemma deliver_cons s b bs s' r : Apply s b = Ok (s', r) → deliver s (b :: bs) = deliver s' bs.
Proof. intros H. unfold deliver. simpl. by rewrite H. Qed.

Lemma one_root_app evs evs' :
  one_root gid root (evs ++ evs') → one_root gid root evs ∧ one_root gid root evs'.
Proof. intros H. split; intros e He; apply H; set_solver. Qed.

Lemma deliver_spec s bs :
  established gid root s → one_root gid root (mjoin bs) →
  collision_free (λ e, (∃ i, events s !! i = Some e) ∨ Some e ∈ mjoin bs) →
  ∃ m, deliver s bs = Ok (with_events gid root m) ∧ established gid root (with_events gid root m) ∧
    ∀ id e, m !! id = Some e ↔
      events s !! id = Some e ∨ (Some e ∈ mjoin bs ∧ fact gid root e = true ∧ Event_ID e = Ok id).
Proof.
  revert s. induction bs as [|b bs IH]; intros s Hs Ho Hc.
  { exists (events s). rewrite <- (established_eta gid root s Hs). split_and!; [done..|set_solver]. }
  rewrite mjoin_cons in *. apply one_root_app in Ho as [Ho Ho'].
  destruct (Apply_established gid root s b Hs Ho) as (r & Ha & _).
  rewrite (deliver_cons _ _ _ _ _ Ha).
  pose proof (established_add gid root s (genesis_of b ++ others_of b) Hs) as Hs'.
  assert (∀ id e, add_facts gid root (events s) (genesis_of b ++ others_of b) !! id = Some e ↔
    events s !! id = Some e ∨ (Some e ∈ b ∧ fact gid root e = true ∧ Event_ID e = Ok id)) as Hl.
  { intros id e. rewrite add_facts_lookup; [by rewrite elem_of_batch| |by apply Hs].
    intros x y i Hx Hy. apply Hc; rewrite elem_of_app, <- elem_of_batch; tauto. }
  destruct (IH _ Hs' Ho') as (m & Hd & He & Hm).
  { intros x y i Hx Hy. apply Hc; rewrite elem_of_app.
    - destruct Hx as [(j & [?|(? & _)]%Hl)|?]; eauto.
    - destruct Hy as [(j & [?|(? & _)]%Hl)|?]; eauto. }
  exists m. split_and!; [done..|]. intros id e. rewrite Hm. simpl. rewrite Hl, elem_of_app. tauto.
Qed.

(** C1: members that know the group converge: from one established state, one
    that a genesis has bound to a group and its root key, any two histories that carry the
    same events -- in any order, split into batches in any way, with repetitions,
    rejected events among them -- are processed without a panic and end in the
    same state.  Assumed of the events: a genesis of the group among them names that root
    key, and no two different ones, held or delivered, share an id. *)
Theorem apply_converges s bs bs' :
  established gid root s → one_root gid root (mjoin bs) →
  collision_free (λ e, (∃ i, events s !! i = Some e) ∨ Some e ∈ mjoin bs) →
  (∀ e, Some e ∈ mjoin bs ↔ Some e ∈ mjoin bs') →
  ∃ s', established gid root s' ∧ deliver s bs = Ok s' ∧ deliver s bs' = Ok s'.
Proof.
  intros Hs Ho Hc Heq.
  destruct (deliver_spec s bs Hs Ho Hc) as (m & Hd & He & Hm).
  destruct (deliver_spec s bs' Hs) as (m' & Hd' & _ & Hm').
  { intros e Hin. by apply Ho, Heq. }
  { intros x y i Hx Hy. apply Hc; rewrite Heq; done. }
  exists (with_events gid root m). split_and!; [done..|]. rewrite Hd'. do 2 f_equal.
  apply map_eq. intros id. apply option_eq. intros e. by rewrite Hm, Hm', Heq.
Qed.
End converge.

(** ** Reloading a stored state *)

Section reload.
Context {UC : UnicodeCase} {ED : Ed25519}.
Context (gid root : bytes).

Lemma elem_of_Events_in s l e :
  enumeration (events s) l → e ∈ Events_in s l ↔ ∃ id, events s !! id = Some e.
Proof.
  intros Hl. unfold Events_in. rewrite list_elem_of_omap. split; [naive_solver|].
  intros [id Hid]. exists id. split; [|done].
  rewrite sort_strings_perm. unfold enumeration in Hl. rewrite Hl.
  apply list_elem_of_fmap. exists (id, e). split; [done|]. by apply elem_of_map_to_list.
Qed.

Lemma admit_first i e r :
  zlen root = 32 → gid ≠ [] → is_genesis e = true → fact gid root e = true →
  ∃ r', State_admit i e (NewState, r) = Ok (with_events gid root (insert_fact ∅ e), r') ∧
    Rejected r' = Rejected r ∧ established gid root (with_events gid root (insert_fact ∅ e)).
Proof.
  intros Hk Hne Hg Hf. pose proof (fact_ID gid root e Hf) as [id Hid].
  pose proof Hf as Hf'. unfold fact in Hf'. rewrite Hg in Hf'.
  rewrite !andb_true_iff, !eqb_true in Hf'. destruct Hf' as [[Hgid Hv] Hr].
  simpl in Hr. apply (proj1 (eqb_true _ _)) in Hr.
  destruct (Event_Verify e root) as [[]| |] eqn:Ev; try done.
  unfold State_admit, admission. fold (is_genesis e). rewrite Hg, Hr, Ev, Hid, Hgid. simpl.
  rewrite lookup_empty. unfold insert_fact. rewrite Hid, lookup_empty.
  eexists. split_and!; [done..|].
  constructor; try done. simpl. intros i' e'. rewrite lookup_insert_Some, lookup_empty.
  by intros [[<- <-]|[_ ?]].
Qed.

Lemma pass_genesis_new i evs r :
  zlen root = 32 → gid ≠ [] → all_facts gid root evs → one_root gid root evs →
  genesis_of evs ≠ [] →
  ∃ r', pass_genesis i evs (NewState, r)
        = Ok (with_events gid root (add_facts gid root ∅ (genesis_of evs)), r') ∧
    Rejected r' = Rejected r ∧
    established gid root (with_events gid root (add_facts gid root ∅ (genesis_of evs))).
Proof.
  intros Hk Hne. revert i. induction evs as [|o evs IH]; intros i Ha Ho Hgen; [done|].
  pose proof Ha as [(e & -> & He) Ha']%Forall_cons.
  apply one_root_cons in Ho as [Ho Ho']. cbn [pass_genesis]. rewrite genesis_of_cons in *.
  destruct (is_genesis e) eqn:Eg; [|by apply IH].
  destruct (admit_first i e r Hk Hne Eg He) as (r1 & -> & Hr1 & Hs1). cbn [mbind res_bind].
  destruct (pass_genesis_established gid root (i + 1) evs _ r1 Hs1 Ho') as (r2 & -> & Hr2).
  exists r2. rewrite add_facts_cons, He. split_and!; [done|by rewrite Hr2, Hr1|].
  by apply (established_add _ _ _ _ Hs1).
Qed.

(** A snapshot rebuilds the state it was taken from. *)
Lemma Apply_snapshot s evs :
  established gid root s → (∃ id e, events s !! id = Some e ∧ is_genesis e = true) →
  (∀ o, o ∈ evs ↔ ∃ id e, o = Some e ∧ events s !! id = Some e) →
  ∃ r, Apply NewState evs = Ok (s, r) ∧ Rejected r = [].
Proof.
  intros Hs (gi & g & Hg & Eg) Hevs.
  assert (all_facts gid root evs) as Ha.
  { apply Forall_forall. intros o (id & e & -> & He)%Hevs. exists e. split; [done|]. by eapply Hs. }
  assert (one_root gid root evs) as Ho.
  { intros e (id & e' & [= <-] & He)%Hevs Hge _ _. apply Hs in He as [_ He].
    unfold fact in He. rewrite Hge, !andb_true_iff in He. destruct He as [_ He].
    by apply (proj1 (eqb_true _ _)) in He. }
  assert (genesis_of evs ≠ []) as Hne.
  { assert (g ∈ genesis_of evs) as Hin; [|by destruct (genesis_of evs); set_solver].
    unfold genesis_of. apply list_elem_of_In, filter_In. split; [|done].
    apply list_elem_of_In, list_elem_of_omap. exists (Some g). split; [|done].
    apply Hevs. eauto. }
  destruct (pass_genesis_new 0 evs (mkResult [] [] []) (est_key _ _ _ Hs) (est_nonempty _ _ _ Hs)
    Ha Ho Hne) as (r1 & Hp & Hr1 & Hs1).
  unfold Apply. rewrite Hp. cbn [mbind res_bind].
  destruct (pass_others_established gid root 0 evs _ r1 Hs1 Ho) as (r2 & -> & Hr2).
  exists r2. split; [|by rewrite Hr2, Hr1]. simpl. rewrite <- add_facts_app. do 2 f_equal.
  rewrite (established_eta _ _ _ Hs) at 1. f_equal. apply map_eq. intros id. apply option_eq. intros e.
  rewrite add_facts_lookup; [|..|intros i x; by rewrite lookup_empty].
  - rewrite elem_of_batch, lookup_empty, Hevs. split.
    + intros [?|((i & x & [= <-] & Hx) & _ & Hid)]; [done|].
      apply Hs in Hx as Hx'. destruct Hx' as [Hx' _]. congruence.
    + intros He. right. pose proof (est_facts _ _ _ Hs _ _ He) as [? ?].
      split_and!; [by exists id, e|done..].
  - intros x y i Hx Hy Hix Hiy.
    assert (∀ z, (∃ j, (∅ : gmap bytes Event) !! j = Some z) ∨ z ∈ genesis_of evs ++ others_of evs →
      Event_ID z = Ok i → events s !! i = Some z) as Hz.
    { intros z [(j & Hj)|Hz] Hi; [by rewrite lookup_empty in Hj|].
      apply elem_of_batch, Hevs in Hz as (j & z' & [= <-] & Hz).
      apply Hs in Hz as Hz'. destruct Hz' as [Hz' _]. congruence. }
    pose proof (Hz x Hx Hix). pose proof (Hz y Hy Hiy). congruence.
Qed.

(** Storing and reloading a group's state gives the same state back, whatever
    order the map was iterated in when it was stored, provided the JSON codec
    returns the events it was given. *)
Theorem unmarshal_marshal marshal unmarshal s s0 data :
  established gid root s → (∃ id e, events s !! id = Some e ∧ is_genesis e = true) →
  (∀ d, marshal (Events s) = Ok d → unmarshal d = Ok (Some <$> Events s)) →
  MarshalJSON marshal s = Ok data →
  UnmarshalJSON unmarshal s0 data = Ok (s, None).
Proof.
  intros Hs Hgen Hjson Hm. unfold UnmarshalJSON. rewrite (Hjson data Hm).
  destruct (Apply_snapshot s (Some <$> Events s) Hs Hgen) as (r & -> & Hr).
  { intros o. rewrite list_elem_of_fmap.
    assert (enumeration (events s) (map_to_list (events s))) as Hen by (unfold enumeration; reflexivity).
    split.
    - intros (e & -> & [id He]%(elem_of_Events_in s _ _ Hen)). eauto.
    - intros (id & e & -> & He). exists e. split; [done|]. apply (elem_of_Events_in s _ _ Hen). eauto. }
  cbn [mbind res_bind]. rewrite Hr, bool_decide_true by done. simpl.
  by rewrite (est_gid _ _ _ Hs), (proj2 (eqb_false _ _)) by apply Hs.
Qed.
End reload.

(** ** The state hash *)

Lemma mjoin_fixed_inj {A} (n : nat) (l k : list (list A)) :
  (0 < n)%nat → Forall (λ x, length x = n) l → Forall (λ x, length x = n) k →
  mjoin l = mjoin k → l = k.
Proof.
  intros Hn Hl. revert k. induction Hl as [|x l Hx Hl IH]; intros k Hk.
  - destruct Hk as [|y k Hy Hk]; [done|]. rewrite mjoin_cons. intros H.
    apply (f_equal length) in H. rewrite length_app in H. simpl in H. lia.
  - destruct Hk as [|y k Hy Hk]; rewrite !mjoin_cons; intros H.
    + apply (f_equal length) in H. rewrite length_app in H. simpl in H. lia.
    + apply app_inj_1 in H as [-> H]; [|congruence]. f_equal. by apply IH.
Qed.

(** What [StateHash] hashes. *)
Definition hash_input (l : list (bytes * Event)) : bytes :=
  mjoin ((λ id, default [] (hex_decode id)) <$> sort_strings l.*1).

Section state_hash.
Context {UC : UnicodeCase} {ED : Ed25519}.

Lemma Event_ID_hash e id : Event_ID e = Ok id → ∃ h, id = hex_encode h ∧ is_bytes h ∧ length h = 32%nat.
Proof.
  unfold Event_ID. intros (buf & _ & [= <-])%bind_Ok. eexists. split_and!; [done|..].
  - apply sha256_is_bytes.
  - apply length_sha256.
Qed.

Lemma sorted_ids_hashes gid root s l :
  established gid root s → enumeration (events s) l →
  ∃ hs, sort_strings l.*1 = hex_encode <$> hs ∧ Forall (λ h, is_bytes h ∧ length h = 32%nat) hs.
Proof.
  intros Hs Hl. assert (Forall (λ id, ∃ h, id = hex_encode h ∧ is_bytes h ∧ length h = 32%nat)
    (sort_strings l.*1)) as Hf.
  { apply Forall_forall. intros id. rewrite sort_strings_perm. unfold enumeration in Hl. rewrite Hl.
    intros ([i e] & -> & He%elem_of_map_to_list)%list_elem_of_fmap. simpl.
    apply Hs in He as [He _]. by eapply Event_ID_hash. }
  induction Hf as [|id ids (h & -> & Hb & Hlen) _ (hs & -> & Hhs)].
  - exists []. done.
  - exists (h :: hs). split; [done|]. by constructor.
Qed.

Lemma hash_input_hashes hs :
  Forall (λ h, is_bytes h ∧ length h = 32%nat) hs →
  (λ id, default [] (hex_decode id)) <$> (hex_encode <$> hs) = hs.
Proof.
  induction 1 as [|h hs [Hb _] Hhs IH]; [done|]. rewrite !fmap_cons, IH. f_equal.
  by rewrite hex_decode_encode.
Qed.

(** Equal state hashes mean equal fact sets: two members whose states hash
    alike hold the same event ids, however their maps were iterated, unless the
    two id lists are a SHA-256 collision. *)
Theorem state_hash_agrees gid root gid' root' s s' l l' :
  established gid root s → established gid' root' s' →
  enumeration (events s) l → enumeration (events s') l' →
  (sha256 (hash_input l) = sha256 (hash_input l') → hash_input l = hash_input l') →
  StateHash_in l = StateHash_in l' →
  ∀ id, is_Some (events s !! id) ↔ is_Some (events s' !! id).
Proof.
  intros Hs Hs' Hl Hl' Hsha Hh.
  apply hex_encode_inj in Hh; [|apply sha256_is_bytes..]. apply Hsha in Hh. unfold hash_input in Hh.
  destruct (sorted_ids_hashes gid root s l Hs Hl) as (hs & E & Hhs).
  destruct (sorted_ids_hashes gid' root' s' l' Hs' Hl') as (hs' & E' & Hhs').
  rewrite E, E', !hash_input_hashes in Hh by done.
  apply (mjoin_fixed_inj 32) in Hh; [|lia|eapply Forall_impl; [done|naive_solver]..].
  assert (sort_strings l.*1 = sort_strings l'.*1) as Hsort by congruence.
  assert (l.*1 ≡ₚ l'.*1) as Hp by (by rewrite <- (sort_strings_perm l.*1), Hsort, sort_strings_perm).
  intros id. unfold enumeration in Hl, Hl'. rewrite Hl, Hl' in Hp.
  rewrite <- !elem_of_dom. 
  assert (∀ m : gmap bytes Event, id ∈ dom m ↔ id ∈ (map_to_list m).*1) as Hd.
  { intros m. rewrite elem_of_dom, list_elem_of_fmap. split.
    - intros [e He]. exists (id, e). by rewrite elem_of_map_to_list.
    - intros ([i e] & -> & He%elem_of_map_to_list). by exists e. }
  by rewrite !Hd, Hp.
Qed.
End state_hash.
