(* ===== verification/GroupResolve.v ===== *)
(** * pkg/group/state.go: Resolve, the fold from facts to membership

    Events are replayed in timestamp order, ties broken by id; each is attempted
    against the state built so far, and the events of one second are retried until
    a pass applies nothing.  [apply] returns the fold it leaves behind and whether
    the event took effect.  The iteration orders of the two Go maps (events and
    members) are arguments of [Resolve_with]. *)

From S2P Require Import Prelude GoStr GoTime Sha256 Crypto Bech32m Address DeviceCert GroupEvent GroupState.

Record Member := mkMember {
  AccountID : bytes; MServer : bytes; MRole : Z; RoleName : bytes; AddedAt : Time; Joined : bool;
}.
Record Resolved := mkResolved {
  RGroupID : bytes; Founder : bytes; CreatedAt : Time; RName : bytes; RTopic : bytes;
  Members : list Member; Dissolved : bool; DissolvedAt : Time; RStateHash : bytes;
}.

Definition RoleOf (r : Resolved) (accountID : bytes) : Z :=
  match List.find (λ m, AccountID m =?b accountID) (Members r) with
  | Some m => MRole m
  | None => RoleNone
  end.

(** The mutable form used during the fold. *)
Record member := mkMem {
  server : bytes; addedAt : Time; joined : bool; founder : bool; granted : gmap Z bool;
}.

(** The loop of [rank] over the granted roles, in the order [l]. *)
Definition best_role (l : list (Z * bool)) : Z :=
  foldl (λ best x, if x.2 && (best <? x.1) then x.1 else best) RoleMember l.
Definition rank (m : member) : Z :=
  if founder m then RoleFounder else best_role (map_to_list (granted m)).

Record fold := mkFold { out : Resolved; members : gmap bytes member }.

Definition rankOf (f : fold) (accountID : bytes) : Z :=
  match members f !! accountID with Some m => rank m | None => RoleNone end.

Definition set_members (f : fold) (ms : gmap bytes member) : fold := mkFold (out f) ms.
Definition set_joined (m : member) : member := mkMem (server m) (addedAt m) true (founder m) (granted m).
Definition set_granted (m : member) (r : Z) (b : bool) : member :=
  mkMem (server m) (addedAt m) (joined m) (founder m) (<[r := b]> (granted m)).

(** Reading a Go map of booleans: an absent key is [false]. *)
Definition granted_role (m : member) (r : Z) : bool := default false (granted m !! r).

Definition actorRank (f : fold) (e : Event) : Z :=
  match Signer_ e with
  | Some s => rankOf f (Signer.AccountID s)
  | None => RoleFounder
  end.

(** The two guards ahead of the switch. *)
Definition too_late (f : fold) (e : Event) : bool :=
  Dissolved (out f) && negb (before (IssuedAt e) (DissolvedAt (out f))).
Definition too_early (f : fold) (e : Event) : bool :=
  negb (Type_ e =?b EventGenesis) &&
  ((Founder (out f) =?b []) || before (IssuedAt e) (CreatedAt (out f))).

Definition apply (f : fold) (e : Event) : fold * bool :=
  if too_late f e then (f, false)
  else if too_early f e then (f, false)
  else
    let o := out f in
    let actorRank := actorRank f e in
    match Type_ e with
    | EventGenesis =>
      if negb (Founder o =?b []) then (f, false)
      else (mkFold
              (mkResolved (RGroupID o) (Subject e) (IssuedAt e) (RName o) (RTopic o) (Members o)
                 (Dissolved o) (DissolvedAt o) (RStateHash o))
              (<[Subject e := mkMem (Server e) (IssuedAt e) true true ∅]> (members f)), true)
    | EventMemberAdd =>
      if actorRank <? RoleModerator then (f, false)
      else match members f !! Subject e with
           | Some _ => (f, false)
           | None => (set_members f (<[Subject e := mkMem (Server e) (IssuedAt e) false false ∅]>
                                       (members f)), true)
           end
    | EventJoinAccept =>
      match members f !! Subject e with
      | Some m => if joined m then (f, false)
                  else (set_members f (<[Subject e := set_joined m]> (members f)), true)
      | None => (f, false)
      end
    | EventMemberRemove =>
      match members f !! Subject e with
      | Some target => if (actorRank <? RoleModerator) || (actorRank <=? rank target) then (f, false)
                       else (set_members f (delete (Subject e) (members f)), true)
      | None => (f, false)
      end
    | EventLeave =>
      match members f !! Subject e with
      | Some target => if founder target then (f, false)
                       else (set_members f (delete (Subject e) (members f)), true)
      | None => (f, false)
      end
    | EventRoleGrant =>
      if actorRank <=? Role_ e then (f, false)
      else match members f !! Subject e with
           | Some m => if granted_role m (Role_ e) then (f, false)
                       else (set_members f (<[Subject e := set_granted m (Role_ e) true]> (members f)), true)
           | None => (f, false)
           end
    | EventRoleRevoke =>
      if actorRank <=? Role_ e then (f, false)
      else match members f !! Subject e with
           | Some m => if negb (granted_role m (Role_ e)) then (f, false)
                       else (set_members f (<[Subject e := set_granted m (Role_ e) false]> (members f)), true)
           | None => (f, false)
           end
    | EventMeta =>
      if actorRank <? RoleModerator then (f, false)
      else if (RName o =?b Name e) && (RTopic o =?b Topic e) then (f, false)
      else (mkFold
              (mkResolved (RGroupID o) (Founder o) (CreatedAt o) (Name e) (Topic e) (Members o)
                 (Dissolved o) (DissolvedAt o) (RStateHash o))
              (members f), true)
    | EventDissolve =>
      (mkFold
         (mkResolved (RGroupID o) (Founder o) (CreatedAt o) (RName o) (RTopic o) (Members o)
            true (IssuedAt e) (RStateHash o))
         (members f), true)
    | EventOther _ => (f, false)
    end.

(** ** Replay order *)

(** The comparison of [orderedEvents]. *)
Definition entry_less (x y : bytes * Event) : bool :=
  if negb (time_equal (IssuedAt x.2) (IssuedAt y.2)) then before (IssuedAt x.2) (IssuedAt y.2)
  else bytes_ltb x.1 y.1.

Definition entry_le (x y : bytes * Event) : Prop := entry_less y x = false.
#[export] Instance entry_le_dec x y : Decision (entry_le x y).
Proof. unfold entry_le. apply _. Defined.

(** [sort.Slice] over the entries met in the order [l]. *)
Definition orderedEvents (l : list (bytes * Event)) : list Event := (merge_sort entry_le l).*2.

(** The run of events at the head of the list that share the time [t]. *)
Fixpoint same_time_run (t : Time) (l : list Event) : list Event * list Event :=
  match l with
  | [] => ([], [])
  | e :: l' => if time_equal (IssuedAt e) t
               then let '(run, rest) := same_time_run t l' in (e :: run, rest)
               else ([], l)
  end.
Fixpoint buckets_fuel (fuel : nat) (ordered : list Event) : list (list Event) :=
  match fuel, ordered with
  | S fuel, e :: rest => let '(run, rest) := same_time_run (IssuedAt e) rest in
                         (e :: run) :: buckets_fuel fuel rest
  | _, _ => []
  end.
Definition sameTimestampBuckets (ordered : list Event) : list (list Event) :=
  buckets_fuel (length ordered) ordered.

(** ** The replay *)

(** One pass over the pending events of a bucket: the fold after it, and the
    events that did not apply. *)
Fixpoint replay_pass (f : fold) (pending : list Event) : fold * list Event :=
  match pending with
  | [] => (f, [])
  | e :: pending' =>
    let '(f, ok) := apply f e in
    let '(f, stalled) := replay_pass f pending' in
    (f, if ok then stalled else e :: stalled)
  end.

(** Passes until one of them applies nothing: the fold, and what never applied. *)
Fixpoint replay_bucket (fuel : nat) (f : fold) (pending : list Event) : fold * list Event :=
  match fuel, pending with
  | S fuel, _ :: _ =>
    let '(f', stalled) := replay_pass f pending in
    if Nat.eqb (length stalled) (length pending) then (f', stalled)
    else replay_bucket fuel f' stalled
  | _, _ => (f, pending)
  end.
Definition replay (f : fold) (bucket : list Event) : fold :=
  (replay_bucket (length bucket) f bucket).1.

Definition zero_time : Time := mkTime 0 0 None 0.

(** The sorted member list, from the members met in the order [l]. *)
Definition member_row (x : bytes * member) : Member :=
  let role := rank x.2 in
  mkMember x.1 (server x.2) role (Role_String role) (addedAt x.2) (joined x.2).
Definition member_list (l : list (bytes * member)) : list Member :=
  sort_by AccountID bytes_le (member_row <$> l).

(** [Resolve]: [lh] and [l] enumerate the events (for the hash, and for the
    replay), [ord] says in which order the members map is ranged over. *)
Definition Resolve_with (lh l : list (bytes * Event)) (ord : gmap bytes member → list (bytes * member))
    (s : State) : Resolved :=
  let o := mkResolved (groupID s) [] zero_time [] [] [] false zero_time (StateHash_in lh) in
  if groupID s =?b [] then o
  else
    let f := foldl replay (mkFold o ∅) (sameTimestampBuckets (orderedEvents l)) in
    let o := out f in
    mkResolved (RGroupID o) (Founder o) (CreatedAt o) (RName o) (RTopic o)
      (member_list (ord (members f))) (Dissolved o) (DissolvedAt o) (RStateHash o).
Definition Resolve (s : State) : Resolved :=
  Resolve_with (map_to_list (events s)) (map_to_list (events s)) map_to_list s.

(** ** The order of replay is a function of the fact set *)

Lemma foldr_max r x k : foldr Z.max (Z.max r x) k = Z.max x (foldr Z.max r k).
Proof. induction k as [|y k IH]; cbn [foldr]; lia. Qed.

(** The order of the enumeration that [rank] meets does not matter. *)
Lemma best_role_max l r :
  foldl (λ best x, if x.2 && (best <? x.1) then x.1 else best) r l
  = foldr Z.max r (fst <$> List.filter snd l).
Proof.
  revert r. induction l as [|[x b] l IH]; intros r; [done|]. simpl. rewrite IH.
  destruct b; simpl; [|done]. assert ((if r <? x then x else r) = Z.max r x) as ->.
  { destruct (Z.ltb_spec r x); lia. }
  apply foldr_max.
Qed.

Lemma best_role_perm l k : l ≡ₚ k → best_role l = best_role k.
Proof.
  intros Hp. unfold best_role. rewrite !best_role_max.
  assert (fst <$> List.filter snd l ≡ₚ fst <$> List.filter snd k) as Hp'.
  { apply fmap_Permutation. induction Hp; simpl; repeat case_match; try done; try by constructor.
    by etrans. }
  induction Hp'; cbn [foldr]; lia.
Qed.

Lemma best_role_member l : RoleMember ≤ best_role l.
Proof.
  unfold best_role. rewrite best_role_max. generalize (fst <$> List.filter snd l). intros k.
  induction k as [|x k IH]; cbn [foldr]; lia.
Qed.

(** The order entries are sorted in, once every timestamp is a whole second
    without a monotonic reading, as validated events have it. *)
Definition entry_key (x : bytes * Event) : Z * bytes := (t_sec (IssuedAt x.2), x.1).
Definition key_order (a b : Z * bytes) : Prop := a.1 < b.1 ∨ (a.1 = b.1 ∧ bytes_le a.2 b.2).

#[export] Instance key_order_dec : RelDecision key_order.
Proof. intros a b. unfold key_order. apply _. Defined.
#[export] Instance key_order_total : Total key_order.
Proof.
  intros [a i] [b j]. unfold key_order. simpl.
  destruct (Z.lt_trichotomy a b) as [?|[->|?]]; [by left; left| |by right; left].
  destruct (total bytes_le i j); [left|right]; by right.
Qed.
#[export] Instance key_order_trans : Transitive key_order.
Proof.
  intros [a i] [b j] [c k]. unfold key_order. simpl. intros [?|[-> ?]] [?|[-> ?]]; try (left; lia).
  right. split; [done|]. by trans j.
Qed.
#[export] Instance key_order_antisymm : AntiSymm (=) key_order.
Proof.
  intros [a i] [b j]. unfold key_order. simpl. intros [?|[-> Hij]] [?|[? Hji]]; try lia.
  f_equal. by apply (anti_symm bytes_le).
Qed.

Definition whole_second (e : Event) : Prop := t_nsec (IssuedAt e) = 0 ∧ t_mono (IssuedAt e) = None.

Lemma entry_le_key x y : whole_second x.2 → whole_second y.2 → entry_le x y → key_order (entry_key x) (entry_key y).
Proof.
  intros [Hn Hm] [Hn' Hm']. unfold entry_le, entry_less, time_equal, before, key_order, entry_key.
  rewrite Hm, Hm', Hn, Hn', Z.eqb_refl, andb_true_r, Z.ltb_irrefl, andb_false_r, orb_false_r. simpl.
  destruct (Z.eqb_spec (t_sec (IssuedAt y.2)) (t_sec (IssuedAt x.2))) as [E|]; simpl.
  - unfold bytes_ltb. rewrite negb_false_iff. intros H. right. by rewrite E.
  - intros H. bool_prop. left. lia.
Qed.

#[export] Instance entry_le_total : Total entry_le.
Proof.
  intros [i e] [j e']. unfold entry_le, entry_less, time_equal, before, bytes_ltb. simpl.
  destruct (t_mono (IssuedAt e)) as [m|], (t_mono (IssuedAt e')) as [m'|].
  1: { destruct (Z.eqb_spec m' m), (Z.eqb_spec m m'); simpl; try lia;
       first [ destruct (total bytes_le i j); unfold bytes_le in *; bool_prop; tauto | bool_prop; lia ]. }
  all: destruct (Z.eqb_spec (t_sec (IssuedAt e')) (t_sec (IssuedAt e))),
    (Z.eqb_spec (t_sec (IssuedAt e)) (t_sec (IssuedAt e'))),
    (Z.eqb_spec (t_nsec (IssuedAt e')) (t_nsec (IssuedAt e))),
    (Z.eqb_spec (t_nsec (IssuedAt e)) (t_nsec (IssuedAt e'))); simpl; try lia;
    first [ destruct (total bytes_le i j); unfold bytes_le in *; bool_prop; tauto | bool_prop; lia ].
Qed.

Lemma Sorted_impl_on {A} (R K : relation A) (P : A → Prop) l :
  (∀ x y, P x → P y → R x y → K x y) → Forall P l → Sorted R l → Sorted K l.
Proof.
  intros Hi Hp. induction 1 as [|x l Hs IH Hh]; constructor.
  - apply IH. by apply Forall_cons in Hp as [_ ?].
  - destruct Hh as [|y l Hxy]; constructor. apply Forall_cons in Hp as [Hx Hp].
    apply Forall_cons in Hp as [Hy _]. auto.
Qed.

Lemma merge_sort_sorted l :
  Forall (λ x, whole_second x.2) l → StronglySorted (key_le entry_key key_order) (merge_sort entry_le l).
Proof.
  intros Hl. assert (Transitive (key_le entry_key key_order)).
  { intros x y z. unfold key_le. by intros ->. }
  apply (Sorted_StronglySorted _).
  eapply (Sorted_impl_on entry_le _ (λ x, whole_second x.2)); [|by rewrite merge_sort_Permutation|].
  - intros x y Hx Hy. by apply entry_le_key.
  - apply Sorted_merge_sort; apply _.
Qed.

(** Any two enumerations of a map replay in the same order. *)
Lemma orderedEvents_enumeration (m : gmap bytes Event) l l' :
  enumeration m l → enumeration m l' → map_Forall (λ _ e, whole_second e) m →
  orderedEvents l = orderedEvents l'.
Proof.
  unfold enumeration. intros Hl Hl' Hw. unfold orderedEvents. f_equal.
  assert (∀ k, k ≡ₚ map_to_list m → Forall (λ x, whole_second x.2) k) as Hf.
  { intros k ->. apply Forall_forall. intros [i e] He%elem_of_map_to_list. by apply Hw in He. }
  apply (key_sorted_unique entry_key key_order); [by apply merge_sort_sorted, Hf..| |].
  - by rewrite !merge_sort_Permutation, Hl, Hl'.
  - rewrite merge_sort_Permutation, Hl. apply (NoDup_fmap_1 snd).
    rewrite <- list_fmap_compose. apply NoDup_fst_map_to_list.
Qed.

Lemma member_list_perm (m : gmap bytes member) l l' :
  l ≡ₚ map_to_list m → l' ≡ₚ map_to_list m → member_list l = member_list l'.
Proof.
  intros Hl Hl'. unfold member_list. apply sort_by_unique; [apply _..| |].
  - by rewrite Hl, Hl'.
  - rewrite <- list_fmap_compose. change (AccountID ∘ member_row) with (fst : bytes * member → bytes).
    rewrite Hl. apply NoDup_fst_map_to_list.
Qed.

Lemma established_whole_second {UC : UnicodeCase} {ED : Ed25519} gid root s :
  established gid root s → map_Forall (λ _ e, whole_second e ∧ fields_ok e) (events s).
Proof.
  intros Hs id e He. apply Hs in He as [_ He]. unfold fact in He. rewrite !andb_true_iff in He.
  destruct He as [[_ He] _]. destruct (Event_Verify e root) eqn:E; [|done..].
  apply Event_Verify_Ok in E as [Hv%Validate_fields _]. split; [apply Hv|done].
Qed.

(** The resolved membership is a function of the fact set: it does not depend on
    the order in which the maps of events and of members are iterated. *)
Theorem resolve_deterministic {UC : UnicodeCase} {ED : Ed25519} gid root s lh lh' l l' ord ord' :
  established gid root s →
  enumeration (events s) lh → enumeration (events s) lh' →
  enumeration (events s) l → enumeration (events s) l' →
  (∀ m, ord m ≡ₚ map_to_list m) → (∀ m, ord' m ≡ₚ map_to_list m) →
  Resolve_with lh l ord s = Resolve_with lh' l' ord' s.
Proof.
  intros Hs Hlh Hlh' Hl Hl' Ho Ho'. unfold Resolve_with.
  assert (StateHash_in lh = StateHash_in lh') as ->.
  { unfold StateHash_in. do 4 f_equal. apply sort_strings_unique.
    unfold enumeration in *. by rewrite Hlh, Hlh'. }
  rewrite (orderedEvents_enumeration (events s) l l'); [|done..|].
  - case_match; [done|]. f_equal. by eapply member_list_perm.
  - eapply map_Forall_impl; [by eapply established_whole_second|]. by intros ? ? [? _].
Qed.

(** ** Replaying a bucket reaches a fixpoint *)

(** An event that does not apply leaves the fold untouched. *)
Lemma apply_false f e f' : apply f e = (f', false) → f' = f.
Proof. unfold apply. repeat case_match; intros; simplify_eq; done. Qed.

Lemma replay_pass_spec f pending f' stalled :
  replay_pass f pending = (f', stalled) →
  stalled `sublist_of` pending ∧
  (length stalled = length pending → f' = f ∧ stalled = pending ∧
     Forall (λ e, apply f e = (f, false)) pending).
Proof.
  revert f f' stalled. induction pending as [|e pending IH]; intros f f' stalled; simpl.
  - intros [= <- <-]. split; [done|]. intros _. split_and!; [done..|constructor].
  - destruct (apply f e) as [f1 ok] eqn:Ea. destruct (replay_pass f1 pending) as [f2 st] eqn:Ep.
    intros [= <- <-]. destruct (IH _ _ _ Ep) as [Hs Hl]. destruct ok.
    + split; [by constructor|]. intros H. apply sublist_length in Hs. lia.
    + apply apply_false in Ea as H. subst f1. split; [by constructor|].
      intros [= Hlen]. destruct (Hl Hlen) as (-> & -> & ?). split_and!; [done..|]. by constructor.
Qed.

Lemma replay_bucket_spec fuel f pending f' rest :
  (length pending ≤ fuel)%nat → replay_bucket fuel f pending = (f', rest) →
  rest `sublist_of` pending ∧ Forall (λ e, apply f' e = (f', false)) rest ∧
  (∀ fuel', (length pending ≤ fuel')%nat → replay_bucket fuel' f pending = (f', rest)).
Proof.
  revert f pending f' rest. induction fuel as [|fuel IH]; intros f pending f' rest Hlen.
  { destruct pending; [|simpl in Hlen; lia]. simpl. intros [= <- <-]. split_and!; [done..|].
    by intros [|]. }
  destruct pending as [|e pending]; cbn [replay_bucket].
  { intros [= <- <-]. split_and!; [done..|]. by intros [|]. }
  destruct (replay_pass f (e :: pending)) as [f1 st] eqn:Ep.
  destruct (replay_pass_spec _ _ _ _ Ep) as [Hs Hl].
  destruct (Nat.eqb_spec (length st) (length (e :: pending))) as [Hst|Hst].
  - intros [= <- <-]. destruct (Hl Hst) as (-> & -> & Hf). split_and!; [done..|].
    intros [|fuel'] Hle; [simpl in Hle; lia|]. cbn [replay_bucket]. rewrite Ep.
    by rewrite Nat.eqb_refl.
  - intros H. apply sublist_length in Hs as Hle.
    destruct (IH f1 st f' rest) as (Hr & Hf & Hfu); [simpl in *; lia|done|].
    split_and!; [by etrans|done|]. intros [|fuel'] Hle'; [simpl in Hle'; lia|].
    cbn [replay_bucket]. rewrite Ep. apply Nat.eqb_neq in Hst. rewrite Hst. apply Hfu.
    apply Nat.eqb_neq in Hst. simpl in *. lia.
Qed.

(** C4: the replay of one second's events terminates within as many passes as
    there are events and leaves a fixpoint behind: what was not applied would not
    apply to the final state either, and no larger bound on the number of passes
    changes the result. *)
Theorem replay_fixpoint f bucket f' rest fuel :
  (length bucket ≤ fuel)%nat → replay_bucket fuel f bucket = (f', rest) →
  f' = replay f bucket ∧ rest `sublist_of` bucket ∧
  Forall (λ e, apply (replay f bucket) e = (replay f bucket, false)) rest.
Proof.
  intros Hf H. destruct (replay_bucket_spec _ _ _ _ _ Hf H) as (Hs & Hr & Hfu).
  unfold replay. rewrite Hfu by done. done.
Qed.

Lemma buckets_join l : mjoin (sameTimestampBuckets l) = l.
Proof.
  unfold sameTimestampBuckets.
  assert (∀ n l, (length l ≤ n)%nat → mjoin (buckets_fuel n l) = l) as H; [|by apply H].
  clear l. induction n as [|n IH]; intros [|e l] Hl; try done; [simpl in Hl; lia|].
  cbn [buckets_fuel]. destruct (same_time_run (IssuedAt e) l) as [run rest] eqn:E.
  assert (run ++ rest = l) as <-.
  { clear -E. revert run rest E. generalize (IssuedAt e). intros t.
    induction l as [|x l IH]; intros run rest; simpl; [by intros [= <- <-]|].
    case_match; [|by intros [= <- <-]]. destruct (same_time_run t l) as [r1 r2].
    intros [= <- <-]. simpl. by rewrite (IH r1 r2). }
  rewrite mjoin_cons, IH; [done|]. simpl in Hl. rewrite length_app in Hl. lia.
Qed.

(** ** Authority *)

Lemma best_role_Some (g : gmap Z bool) :
  best_role (map_to_list g) = RoleMember ∨ g !! best_role (map_to_list g) = Some true.
Proof.
  unfold best_role. rewrite best_role_max.
  assert (∀ k r, foldr Z.max r k = r ∨ foldr Z.max r k ∈ k) as H.
  { intros k r. induction k as [|x k IH]; [by left|]. cbn [foldr].
    destruct (Z.max_spec x (foldr Z.max r k)) as [[? ->]|[? ->]]; set_solver. }
  destruct (H (fst <$> List.filter snd (map_to_list g)) RoleMember) as [?|Hin]; [by left|right].
  revert Hin. generalize (foldr Z.max RoleMember (fst <$> List.filter snd (map_to_list g))). intros r.
  intros ([r' b] & -> & Hb)%list_elem_of_fmap. apply list_elem_of_In, filter_In in Hb as [Hin Hb].
  apply list_elem_of_In, elem_of_map_to_list in Hin. simpl in *. by subst b.
Qed.

Lemma best_role_ge (g : gmap Z bool) r : g !! r = Some true → r ≤ best_role (map_to_list g).
Proof.
  intros Hg%elem_of_map_to_list. unfold best_role. rewrite best_role_max.
  assert (r ∈ fst <$> List.filter snd (map_to_list g)) as Hin.
  { apply list_elem_of_fmap. exists (r, true). split; [done|]. apply list_elem_of_In, filter_In.
    split; [by apply list_elem_of_In|done]. }
  revert Hin. generalize (fst <$> List.filter snd (map_to_list g)). intros k.
  induction k as [|x k IH]; [set_solver|]. intros [->|?]%elem_of_cons; cbn [foldr]; [lia|].
  specialize (IH H). lia.
Qed.

(** Changing one granted role moves the rank only between values up to that role. *)
Lemma best_role_insert (g : gmap Z bool) r b :
  best_role (map_to_list (<[r := b]> g)) ≠ best_role (map_to_list g) →
  default false (g !! r) = negb b →
  best_role (map_to_list (<[r := b]> g)) ≤ r ∧ best_role (map_to_list g) ≤ r.
Proof.
  intros Hne Hb. set (new := best_role _) in *. set (old := best_role (map_to_list g)) in *.
  assert (RoleMember ≤ new ∧ RoleMember ≤ old) as [Hn1 Ho1] by (split; apply best_role_member).
  pose proof (best_role_Some (<[r := b]> g)) as Hn. fold new in Hn.
  pose proof (best_role_Some g) as Ho. fold old in Ho.
  assert (∀ x, x ≠ r → g !! x = Some true → x ≤ new) as Hgn.
  { intros x Hx Hg. apply best_role_ge. by rewrite lookup_insert_ne. }
  assert (∀ x, x ≠ r → <[r := b]> g !! x = Some true → x ≤ old) as Hgo.
  { intros x Hx Hg. apply best_role_ge. by rewrite lookup_insert_ne in Hg. }
  destruct (decide (new = r)) as [->|Hnr].
  - split; [done|]. destruct Ho as [->|Ho]; [lia|]. destruct (decide (old = r)); [lia|]. by apply Hgn.
  - destruct (decide (old = r)) as [->|Hor].
    + split; [|done]. destruct Hn as [->|Hn]; [lia|]. by apply Hgo.
    + exfalso. apply Hne. apply Z.le_antisymm.
      * destruct Hn as [->|Hn]; [lia|]. by apply Hgo.
      * destruct Ho as [->|Ho]; [lia|]. by apply Hgn.
Qed.

(** The fold's invariant: nobody is in the group before its genesis; from then on
    the founder is a joined member, and the only one marked as founder. *)
Record fold_ok (f : fold) : Prop := {
  ok_empty : Founder (out f) = [] → members f = ∅;
  ok_founder : Founder (out f) ≠ [] →
    ∃ m, members f !! Founder (out f) = Some m ∧ founder m = true ∧ joined m = true;
  ok_only a m : members f !! a = Some m → founder m = true → a = Founder (out f);
  ok_granted a m r b : members f !! a = Some m → granted m !! r = Some b → grantable r = true;
}.

Lemma rank_range f a : fold_ok f → RoleNone ≤ rankOf f a ≤ RoleFounder.
Proof.
  intros Hf. unfold rankOf, rank, RoleNone, RoleFounder. destruct (members f !! a) as [m|] eqn:E; [|lia].
  destruct (founder m); [lia|]. pose proof (best_role_member (map_to_list (granted m))).
  unfold RoleMember in *. split; [lia|].
  destruct (best_role_Some (granted m)) as [->|Hg]; [done|]. eapply ok_granted in Hg; [|done..].
  unfold grantable, RoleModerator, RoleAdmin in Hg. bool_prop. lia.
Qed.

Lemma rank_not_founder f a m :
  fold_ok f → members f !! a = Some m → founder m = false → RoleMember ≤ rank m ≤ RoleAdmin.
Proof.
  intros Hf Hm Hn. unfold rank. rewrite Hn.
  pose proof (best_role_member (map_to_list (granted m))). unfold RoleMember, RoleAdmin in *.
  split; [done|]. destruct (best_role_Some (granted m)) as [->|Hg]; [done|].
  eapply ok_granted in Hg; [|done..]. unfold grantable, RoleModerator, RoleAdmin in Hg. bool_prop. lia.
Qed.

(** ** The rules of a group, as a step relation

    One constructor per kind of event: what it requires of the signer's rank and
    of the membership, and what it changes. *)

Definition found (e : Event) (o : Resolved) : Resolved :=
  mkResolved (RGroupID o) (Subject e) (IssuedAt e) (RName o) (RTopic o) (Members o)
    (Dissolved o) (DissolvedAt o) (RStateHash o).
Definition rename (e : Event) (o : Resolved) : Resolved :=
  mkResolved (RGroupID o) (Founder o) (CreatedAt o) (Name e) (Topic e) (Members o)
    (Dissolved o) (DissolvedAt o) (RStateHash o).
Definition dissolve (e : Event) (o : Resolved) : Resolved :=
  mkResolved (RGroupID o) (Founder o) (CreatedAt o) (RName o) (RTopic o) (Members o)
    true (IssuedAt e) (RStateHash o).
Definition invitee (e : Event) : member := mkMem (Server e) (IssuedAt e) false false ∅.
Definition first_member (e : Event) : member := mkMem (Server e) (IssuedAt e) true true ∅.

(** After its founding and before its dissolution. *)
Definition in_time (f : fold) (e : Event) : Prop :=
  too_late f e = false ∧ too_early f e = false.

Inductive step (f : fold) (e : Event) : fold → Prop :=
  | step_genesis :
      Type_ e = EventGenesis → Founder (out f) = [] →
      step f e (mkFold (found e (out f)) (<[Subject e := first_member e]> (members f)))
  | step_add :
      Type_ e = EventMemberAdd → RoleModerator ≤ actorRank f e → members f !! Subject e = None →
      step f e (set_members f (<[Subject e := invitee e]> (members f)))
  | step_join m :
      Type_ e = EventJoinAccept → members f !! Subject e = Some m → joined m = false →
      step f e (set_members f (<[Subject e := set_joined m]> (members f)))
  | step_remove m :
      Type_ e = EventMemberRemove → members f !! Subject e = Some m →
      RoleModerator ≤ actorRank f e → rank m < actorRank f e →
      step f e (set_members f (delete (Subject e) (members f)))
  | step_leave m :
      Type_ e = EventLeave → members f !! Subject e = Some m → founder m = false →
      step f e (set_members f (delete (Subject e) (members f)))
  | step_grant m :
      Type_ e = EventRoleGrant → Role_ e < actorRank f e → members f !! Subject e = Some m →
      granted_role m (Role_ e) = false →
      step f e (set_members f (<[Subject e := set_granted m (Role_ e) true]> (members f)))
  | step_revoke m :
      Type_ e = EventRoleRevoke → Role_ e < actorRank f e → members f !! Subject e = Some m →
      granted_role m (Role_ e) = true →
      step f e (set_members f (<[Subject e := set_granted m (Role_ e) false]> (members f)))
  | step_meta :
      Type_ e = EventMeta → RoleModerator ≤ actorRank f e →
      ¬ (RName (out f) = Name e ∧ RTopic (out f) = Topic e) →
      step f e (mkFold (rename e (out f)) (members f))
  | step_dissolve :
      Type_ e = EventDissolve → step f e (mkFold (dissolve e (out f)) (members f)).

Lemma apply_step f e f' : apply f e = (f', true) ↔ in_time f e ∧ step f e f'.
Proof.
  unfold apply, in_time. split.
  - destruct (too_late f e), (too_early f e); [done..|]. intros H. split; [done|].
    destruct (Type_ e) eqn:Et; repeat case_match; simplify_eq; bool_prop;
      try (by econstructor); try (econstructor; [done..|tauto]); econstructor; try done; lia.
  - intros [[-> ->] H]. inversion H as [Ht|Ht|m Ht|m Ht|m Ht|m Ht|m Ht|Ht|Ht]; subst; rewrite Ht.
    all: repeat match goal with
      | H : members _ !! _ = _ |- _ => rewrite H; clear H
      | H : joined _ = _ |- _ => rewrite H; clear H
      | H : founder _ = _ |- _ => rewrite H; clear H
      | H : granted_role _ _ = _ |- _ => rewrite H; clear H
      end.
    all: repeat case_match; bool_prop; try done; try lia; try tauto; try congruence.
Qed.

(** ** Authority *)

Lemma rankOf_insert f a m b :
  rankOf (set_members f (<[a := m]> (members f))) b = if bool_decide (a = b) then rank m else rankOf f b.
Proof.
  unfold rankOf, set_members. simpl. case_bool_decide as E; [subst; by rewrite lookup_insert_eq|].
  by rewrite lookup_insert_ne.
Qed.

Lemma rankOf_delete f a b :
  rankOf (set_members f (delete a (members f))) b = if bool_decide (a = b) then RoleNone else rankOf f b.
Proof.
  unfold rankOf, set_members. simpl. case_bool_decide as E; [subst; by rewrite lookup_delete_eq|].
  by rewrite lookup_delete_ne.
Qed.

Lemma rank_set_granted m r b :
  rank (set_granted m r b) ≠ rank m → granted_role m r = negb b →
  rank (set_granted m r b) ≤ r ∧ rank m ≤ r.
Proof.
  unfold rank, set_granted, granted_role. simpl. destruct (founder m); [done|]. apply best_role_insert.
Qed.

Lemma actorRank_range f e : fold_ok f → actorRank f e ≤ RoleFounder.
Proof. intros Hf. unfold actorRank. destruct (Signer_ e); [by apply rank_range|done]. Qed.

Section authority.
Context {UC : UnicodeCase}.

Lemma subject_nonempty e : fields_ok e → wantSubject (wants_of (Type_ e)) = true → Subject e ≠ [].
Proof.
  intros Hv Hw. pose proof (fo_subject _ Hv) as H. rewrite Hw in H.
  intros E. rewrite E in H. by vm_compute in H.
Qed.

(** A change of the members that keeps the founder's entry and marks no one else. *)
Lemma fold_ok_members f ms :
  fold_ok f → Founder (out f) ≠ [] →
  (∀ a m, ms !! a = Some m →
     (founder m = true → ∃ m0, members f !! a = Some m0 ∧ founder m0 = true) ∧
     (∀ r b, granted m !! r = Some b → grantable r = true)) →
  (∃ m, ms !! Founder (out f) = Some m ∧ founder m = true ∧ joined m = true) →
  fold_ok (set_members f ms).
Proof.
  intros Hf Hne Hms Hfo. constructor; simpl; [done|done|..].
  - intros a m Hm Hfm. destruct (Hms a m Hm) as [(m0 & H0 & H1) _]; [done|]. by eapply Hf.
  - intros a m r b Hm. by eapply Hms.
Qed.

Lemma fold_ok_update f a m m' :
  fold_ok f → Founder (out f) ≠ [] → members f !! a = Some m → founder m' = founder m →
  (joined m = true → joined m' = true) → (∀ r b, granted m' !! r = Some b → grantable r = true) →
  fold_ok (set_members f (<[a := m']> (members f))).
Proof.
  intros Hf Hne Hm Hfm Hj Hg. apply fold_ok_members; [done..| |].
  - intros b x. rewrite lookup_insert_Some. intros [[<- <-]|[_ Hx]].
    + split; [|done]. intros H. exists m. split; [done|congruence].
    + split; [eauto|]. intros r c. by eapply Hf.
  - destruct (ok_founder _ Hf Hne) as (x & Hx & Hx1 & Hx2).
    destruct (decide (a = Founder (out f))) as [->|Hna].
    + rewrite Hm in Hx. simplify_eq. exists m'. rewrite lookup_insert_eq. split_and!; [done|congruence|auto].
    + exists x. by rewrite lookup_insert_ne.
Qed.

Lemma fold_ok_delete f a m :
  fold_ok f → Founder (out f) ≠ [] → members f !! a = Some m → founder m = false →
  fold_ok (set_members f (delete a (members f))).
Proof.
  intros Hf Hne Hm Hfm. destruct (ok_founder _ Hf Hne) as (x & Hx & Hx1 & Hx2).
  apply fold_ok_members; [done..| |].
  - intros b y [_ Hy]%lookup_delete_Some. split; [eauto|]. intros r c. by eapply Hf.
  - exists x. rewrite lookup_delete_ne; [done|]. intros ->. congruence.
Qed.

Lemma set_granted_ok f a m r b :
  fold_ok f → members f !! a = Some m → grantable r = true →
  ∀ r' b', granted (set_granted m r b) !! r' = Some b' → grantable r' = true.
Proof.
  intros Hf Hm Hr r' b'. simpl. rewrite lookup_insert_Some. intros [[<- _]|[_ ?]]; [done|]. by eapply Hf.
Qed.

Lemma in_time_founded f e : in_time f e → Type_ e ≠ EventGenesis → Founder (out f) ≠ [].
Proof.
  intros [_ H] Ht E. unfold too_early in H. rewrite E, eqb_refl in H.
  apply eqb_false in Ht. by rewrite Ht in H.
Qed.

Lemma fields_role e : fields_ok e → wantRole (wants_of (Type_ e)) = true → grantable (Role_ e) = true.
Proof. intros Hv H. pose proof (fo_role _ Hv) as Hr. by rewrite H in Hr. Qed.

Lemma step_ok f e f' : fold_ok f → fields_ok e → in_time f e → step f e f' → fold_ok f'.
Proof.
  intros Hf Hv Hin Hstep.
  assert (Type_ e ≠ EventGenesis → Founder (out f) ≠ []) as Hfo by eauto using in_time_founded.
  inversion Hstep as [Ht Hn|Ht Ha Hn|m Ht Hm Hj|m Ht Hm Ha Hr|m Ht Hm Hn|m Ht Ha Hm Hg|m Ht Ha Hm Hg|Ht|Ht];
    subst f'; try (specialize (Hfo ltac:(congruence))).
  - assert (Subject e ≠ []) as Hs by (apply subject_nonempty; [done|by rewrite Ht]).
    rewrite (ok_empty _ Hf Hn). constructor; simpl; [done|..].
    + exists (first_member e). by rewrite lookup_insert_eq.
    + intros a m. rewrite lookup_insert_Some, lookup_empty. naive_solver.
    + intros a m r b. rewrite lookup_insert_Some, lookup_empty. intros [[_ <-]|[_ ?]]; [|done].
      simpl. by rewrite lookup_empty.
  - destruct (ok_founder _ Hf Hfo) as (x & Hx & Hx1 & Hx2). apply fold_ok_members; [done..| |].
    + intros a m. rewrite lookup_insert_Some. intros [[_ <-]|[_ Hm]]; simpl.
      * split; [done|]. intros r b. by rewrite lookup_empty.
      * split; [eauto|]. intros r b. by eapply Hf.
    + exists x. rewrite lookup_insert_ne; [done|]. intros E. rewrite E in Hn. congruence.
  - eapply fold_ok_update; [done..|]. intros r b. simpl. by eapply Hf.
  - eapply fold_ok_delete; [done..|]. destruct (founder m) eqn:E; [|done].
    pose proof (actorRank_range f e Hf). unfold rank in Hr. rewrite E in Hr. lia.
  - by eapply fold_ok_delete.
  - eapply fold_ok_update; [done..|]. eapply set_granted_ok; [done..|]. apply fields_role; [done|by rewrite Ht].
  - eapply fold_ok_update; [done..|]. eapply set_granted_ok; [done..|]. apply fields_role; [done|by rewrite Ht].
  - destruct Hf. by constructor.
  - destruct Hf. by constructor.
Qed.

(** C2: no privilege escalation: an event changes an account's rank only by
    founding the group, by that account's own leaving, or on the authority of a
    signer who is at least a moderator and ranks strictly above both the old and
    the new rank. *)
Theorem no_privilege_escalation f e f' a :
  fold_ok f → fields_ok e → apply f e = (f', true) → rankOf f' a ≠ rankOf f a →
  (Type_ e = EventGenesis ∧ Founder (out f) = [] ∧ a = Subject e) ∨
  (Type_ e = EventLeave ∧ a = Subject e ∧ rankOf f' a = RoleNone ∧
     ∃ s, Signer_ e = Some s ∧ Signer.AccountID s = a) ∨
  (RoleModerator ≤ actorRank f e ∧ rankOf f a < actorRank f e ∧ rankOf f' a < actorRank f e).
Proof.
  intros Hf Hv [Hin Hstep]%apply_step Hne.
  assert (∀ m, members f !! Subject e = Some m → rankOf f (Subject e) = rank m) as Hrk.
  { intros m Hm. unfold rankOf. by rewrite Hm. }
  inversion Hstep as [Ht Hn|Ht Ha Hn|m Ht Hm Hj|m Ht Hm Ha Hr|m Ht Hm Hn|m Ht Ha Hm Hg|m Ht Ha Hm Hg|Ht|Ht];
    subst f'; try (specialize (Hrk m Hm)); try (by exfalso; apply Hne);
    rewrite ?rankOf_insert, ?rankOf_delete in *.
  - left. split_and!; [done..|]. unfold rankOf in Hne. simpl in Hne.
    destruct (decide (Subject e = a)) as [->|Hna]; [done|]. by rewrite lookup_insert_ne in Hne.
  - case_bool_decide; [|done]. subst a. right. right. unfold rankOf, rank, invitee in *. simpl in *.
    rewrite Hn. change (best_role (map_to_list ∅)) with RoleMember.
    unfold RoleModerator, RoleMember, RoleNone in *. lia.
  - case_bool_decide; [|done]. subst a. by rewrite Hrk in Hne.
  - case_bool_decide; [|done]. subst a. right. right. rewrite Hrk.
    unfold RoleModerator, RoleNone in *. lia.
  - case_bool_decide; [|done]. subst a. right. left. split_and!; [done..|].
    apply (fo_self _ Hv). by rewrite Ht.
  - case_bool_decide; [|done]. subst a. right. right. rewrite Hrk in *.
    destruct (rank_set_granted m (Role_ e) true Hne Hg). assert (grantable (Role_ e) = true) as Hgr.
    { apply fields_role; [done|by rewrite Ht]. }
    unfold grantable, RoleModerator, RoleAdmin in *. bool_prop. lia.
  - case_bool_decide; [|done]. subst a. right. right. rewrite Hrk in *.
    destruct (rank_set_granted m (Role_ e) false Hne Hg). assert (grantable (Role_ e) = true) as Hgr.
    { apply fields_role; [done|by rewrite Ht]. }
    unfold grantable, RoleModerator, RoleAdmin in *. bool_prop. lia.
Qed.

(** ** The invariant along the whole replay *)

Lemma apply_ok f e : fold_ok f → fields_ok e → fold_ok (apply f e).1.
Proof.
  intros Hf Hv. destruct (apply f e) as [f' []] eqn:E.
  - apply apply_step in E as [??]. by eapply step_ok.
  - by apply apply_false in E as ->.
Qed.

Lemma replay_pass_ok f pending : fold_ok f → Forall fields_ok pending → fold_ok (replay_pass f pending).1.
Proof.
  intros Hf Hp. revert f Hf. induction Hp as [|e pending He Hp IH]; intros f Hf; [done|]. simpl.
  pose proof (apply_ok f e Hf He) as H1. destruct (apply f e) as [f1 ok]. simpl in H1.
  pose proof (IH f1 H1) as H2. by destruct (replay_pass f1 pending) as [f2 st].
Qed.

Lemma replay_ok f bucket : fold_ok f → Forall fields_ok bucket → fold_ok (replay f bucket).
Proof.
  unfold replay. generalize (length bucket). intros fuel. revert f bucket.
  induction fuel as [|fuel IH]; intros f [|e pending] Hf Hp; [done..|]. cbn [replay_bucket].
  pose proof (replay_pass_ok f (e :: pending) Hf Hp) as H1.
  destruct (replay_pass f (e :: pending)) as [f1 st] eqn:Ep. destruct (Nat.eqb _ _); [done|].
  apply IH; [done|]. apply replay_pass_spec in Ep as [Hs _].
  by eapply Forall_sublist_of.
Qed.

Lemma replay_all_ok f bs : fold_ok f → Forall (Forall fields_ok) bs → fold_ok (foldl replay f bs).
Proof.
  intros Hf Hb. revert f Hf. induction Hb as [|b bs Hb Hbs IH]; intros f Hf; [done|].
  simpl. apply IH. by apply replay_ok.
Qed.

Lemma empty_ok o : Founder o = [] → fold_ok (mkFold o ∅).
Proof. intros Ho. constructor; simpl; [done..| |]; intros a m; by rewrite lookup_empty. Qed.
End authority.

Section resolve.
Context {UC : UnicodeCase} {ED : Ed25519}.

Definition initial_fold (s : State) : fold :=
  mkFold (mkResolved (groupID s) [] zero_time [] [] [] false zero_time (StateHash s)) ∅.
Definition final_fold (s : State) : fold :=
  foldl replay (initial_fold s) (sameTimestampBuckets (orderedEvents (map_to_list (events s)))).

Lemma Resolve_eq s : groupID s ≠ [] →
  Founder (Resolve s) = Founder (out (final_fold s)) ∧
  Members (Resolve s) = member_list (map_to_list (members (final_fold s))).
Proof.
  intros Hg. unfold Resolve, Resolve_with. apply eqb_false in Hg. rewrite Hg. done.
Qed.

Lemma final_fold_ok gid root s : established gid root s → fold_ok (final_fold s).
Proof.
  intros Hs. apply replay_all_ok; [by apply empty_ok|].
  apply Forall_mjoin_inv. rewrite buckets_join. unfold orderedEvents. apply Forall_fmap.
  rewrite merge_sort_Permutation. apply Forall_forall. intros [id e] He%elem_of_map_to_list.
  by eapply established_whole_second in He as [_ ?].
Qed.

Lemma elem_of_member_list f row :
  row ∈ member_list (map_to_list (members f)) ↔ ∃ a m, members f !! a = Some m ∧ row = member_row (a, m).
Proof.
  unfold member_list. rewrite elem_of_sort_by, list_elem_of_fmap. split.
  - intros ([a m] & -> & H%elem_of_map_to_list). eauto.
  - intros (a & m & H & ->). exists (a, m). by rewrite elem_of_map_to_list.
Qed.

(** C3: the founder's standing is permanent: in every membership the fold
    produces, an account has the founder's rank exactly if it is the founder the
    genesis named, a founder is listed and joined, the rows are sorted by account
    without duplicates, and every other rank is member, moderator or admin. *)
Theorem resolve_founder gid root s :
  established gid root s →
  let r := Resolve s in
  (∀ row, row ∈ Members r → (MRole row = RoleFounder ↔ AccountID row = Founder r)
                           ∧ RoleMember ≤ MRole row ≤ RoleFounder) ∧
  (Founder r ≠ [] → RoleOf r (Founder r) = RoleFounder) ∧
  NoDup (AccountID <$> Members r) ∧
  StronglySorted bytes_le (AccountID <$> Members r).
Proof.
  intros Hs r. pose proof (final_fold_ok gid root s Hs) as Hok.
  assert (groupID s ≠ []) as Hg by (rewrite (est_gid _ _ _ Hs); apply Hs).
  destruct (Resolve_eq s Hg) as [Hfo Hme]. subst r. rewrite Hfo, Hme.
  assert (∀ row, row ∈ member_list (map_to_list (members (final_fold s))) →
    (MRole row = RoleFounder ↔ AccountID row = Founder (out (final_fold s)))
    ∧ RoleMember ≤ MRole row ≤ RoleFounder) as Hrows.
  { intros row (a & m & Hm & ->)%elem_of_member_list. simpl. destruct (founder m) eqn:E.
    - unfold rank. rewrite E. unfold RoleMember, RoleFounder. split; [|lia].
      split; [|done]. intros _. by eapply Hok.
    - pose proof (rank_not_founder _ _ _ Hok Hm E). unfold RoleMember, RoleAdmin, RoleFounder in *.
      split; [|lia]. split; [lia|]. intros ->. destruct (ok_founder _ Hok) as (m' & Hm' & Hf & _).
      { intros E0. pose proof (ok_empty _ Hok E0) as He. rewrite He, lookup_empty in Hm. done. }
      congruence. }
  split_and!; [done|..].
  - intros Hne. destruct (ok_founder _ Hok Hne) as (m & Hm & Hf & _).
    unfold RoleOf. rewrite Hme. set (p := λ _, _).
    destruct (List.find p _) as [row|] eqn:E.
    + apply find_some in E as [Hin He]. apply list_elem_of_In in Hin. apply Hrows; [done|].
      by apply (proj1 (eqb_true _ _)) in He.
    + pose proof (find_none _ _ E (member_row (Founder (out (final_fold s)), m))) as Hn.
      rewrite <- list_elem_of_In, elem_of_member_list in Hn. unfold p in Hn. simpl in Hn.
      rewrite eqb_refl in Hn. discriminate Hn. eauto.
  - unfold member_list. rewrite sort_by_perm, <- list_fmap_compose.
    change (AccountID ∘ member_row) with (fst : bytes * member → bytes). apply NoDup_fst_map_to_list.
  - apply (StronglySorted_fmap AccountID (key_le AccountID bytes_le)); [done|].
    unfold member_list. apply sort_by_sorted; apply _.
Qed.
End resolve.
