(* ===== verification/GroupExamples.v ===== *)
(** * pkg/group at concrete inputs

    A small group under the toy signature scheme: a founder, an invitee and an
    outsider.  The theorems of GroupEvent, GroupState and GroupResolve are applied
    here to states that [Apply] builds from signed events. *)

From S2P Require Import Prelude GoStr GoTime Sha256 Crypto Bech32m Address DeviceCert GroupEvent GroupState GroupResolve.

Definition seed (n : Z) : bytes := replicate 32 n.
Definition priv (n : Z) : bytes := seed n ++ ed_pub (seed n).
Definition pub (n : Z) : bytes := ed_pub (seed n).
Definition get {A} (d : A) (r : res string A) : A := match r with Ok a => a | _ => d end.
Definition at_time (n : Z) : Time := time_unix (1700000000 + n).

Lemma pair_n n : key_pair (priv n) (pub n).
Proof. by exists (seed n). Qed.

(** Keys 1: the group; 2 and 3: the founder's root and device; 4: an outsider's
    root; 5: an invitee's root. *)
Definition gid : bytes := Eval vm_compute in get [] (GroupEvent.DeriveID (pub 1)).
Definition alice : bytes := Eval vm_compute in get [] (Address.DeriveID (pub 2)).
Definition mallory : bytes := Eval vm_compute in get [] (Address.DeriveID (pub 4)).
Definition bob : bytes := Eval vm_compute in get [] (Address.DeriveID (pub 5)).

Definition no_cert : DeviceCertificate.t := DeviceCertificate.mk [] [] [] zero_time [].
Definition certify (account : bytes) (root dev : Z) : DeviceCertificate.t :=
  get no_cert (DeviceCertificate.SignDeviceCertificate account (lit "0011223344556677") (pub dev)
                 (at_time 0) (priv root)).
Definition signer_a : Signer.t := Eval vm_compute in Signer.mk alice (pub 2) (certify alice 2 3).
(** The outsider certifies the founder's device key as a device of its own. *)
Definition signer_m : Signer.t := Eval vm_compute in Signer.mk mallory (pub 4) (certify mallory 4 3).

Definition blank (t : EventType) (n : Z) : Event :=
  mkEvent t gid (at_time n) [] [] [] [] 0 [] [] None [].
Definition no_event : Event := blank EventDissolve 0.

Definition genesis_draft : Event :=
  mkEvent EventGenesis gid (at_time 0) (pub 1) (replicate 16 9) alice (lit "https://a") 0 [] [] None [].
Definition genesis : Event := Eval vm_compute in get no_event (SignRoot genesis_draft (priv 1)).
Definition invite_draft : Event :=
  mkEvent EventMemberAdd gid (at_time 1) [] [] bob (lit "https://b") 0 [] [] None [].
Definition invite : Event := Eval vm_compute in get no_event (SignDevice invite_draft (Some signer_a) (priv 3)).
Definition invite_swapped : Event := Eval vm_compute in with_signature invite (Some signer_m) (Signature invite).

Definition state_of (evs : list Event) : State :=
  match Apply NewState (Some <$> evs) with Ok (s, _) => s | _ => NewState end.

Definition s1 : State := state_of [genesis].
Definition s2 : State := state_of [genesis; invite].
Definition s2' : State := state_of [genesis; invite_swapped].

(** ** The states are established *)

Lemma established_by s :
  groupID s = gid → rootPubKey s = pub 1 →
  bool_decide (map_Forall (λ id e, Event_ID e = Ok id ∧ fact gid (pub 1) e = true) (events s)) = true →
  established gid (pub 1) s.
Proof.
  intros Hg Hr H. apply bool_decide_eq_true in H. constructor; [done|done|apply ed_pub_length|done|].
  intros id e He. by apply H in He.
Qed.

Lemma s1_established : established gid (pub 1) s1.
Proof. apply established_by; by_vm. Qed.
Lemma s2_established : established gid (pub 1) s2.
Proof. apply established_by; by_vm. Qed.
Lemma s2'_established : established gid (pub 1) s2'.
Proof. apply established_by; by_vm. Qed.

(** Members who hold the same event ids, and so the same state hash, disagree
    about the membership when one of them was handed the event under another
    account's signer block. *)
Example same_hash_different_membership :
  StateHash s2 = StateHash s2' ∧
  (AccountID <$> Members (Resolve s2)) = [bob; alice] ∧
  (AccountID <$> Members (Resolve s2')) = [alice].
Proof. split_and!; by_vm. Qed.

(** ** The theorems applied *)

Lemma signed_events_verify_witness :
  SignRoot genesis_draft (priv 1) = Ok genesis ∧ Event_Verify genesis (pub 1) = Ok () ∧
  Event_Verify invite [] = Ok ().
Proof.
  assert (SignRoot genesis_draft (priv 1) = Ok genesis) as H by by_vm.
  split; [exact H|]. split.
  - exact (proj1 (signed_events_verify _ _ _ _ (pair_n 1)) H).
  - apply (proj2 (signed_events_verify invite_draft invite _ _ (pair_n 3)) signer_a []); by_vm.
Defined.

Lemma signing_bytes_bind_event_witness : same_fact invite invite_swapped.
Proof.
  destruct (is_ok_ex (signingBytes invite)) as [b Hb]; [by_vm|].
  apply (signing_bytes_bind_event invite invite_swapped b);
    [by_vm|by_vm|apply (bool_decide_unpack _); by_vm|apply (bool_decide_unpack _); by_vm
    |exact Hb|exact Hb].
Defined.

Lemma signer_not_bound_witness :
  Event_Verify invite_swapped (pub 1) = Ok () ∧ Event_ID invite_swapped = Event_ID invite.
Proof. apply (signer_not_bound invite signer_a signer_m (pub 1)); by_vm. Defined.

Lemma s1_events : events s1 = {[ get [] (Event_ID genesis) := genesis ]}.
Proof. apply (bool_decide_unpack _). by_vm. Qed.

Lemma delivered_elem e : Some e ∈ mjoin [[Some invite]; [None]] ↔ e = invite.
Proof.
  change (mjoin _) with [Some invite; None]. rewrite !elem_of_cons, elem_of_nil. split.
  - by intros [[= ->]|[[=]|[]]].
  - intros ->. by left.
Qed.

Lemma genesis_invite_ids : (Event_ID genesis =?b Event_ID invite) = false.
Proof. by_vm. Qed.

Lemma genesis_invite_free :
  collision_free (λ e, (∃ i, events s1 !! i = Some e) ∨ Some e ∈ mjoin [[Some invite]; [None]]).
Proof.
  assert (∀ e, (∃ i, events s1 !! i = Some e) ∨ Some e ∈ mjoin [[Some invite]; [None]] →
    e = genesis ∨ e = invite) as H.
  { intros e [[i Hi]|He]; [left|right; by apply delivered_elem].
    rewrite s1_events in Hi. by apply lookup_singleton_Some in Hi as [_ <-]. }
  pose proof (proj1 (eqb_false _ _) genesis_invite_ids) as Hne.
  intros e e' id [->| ->]%H [->| ->]%H Hi Hi'; [done|congruence..|done].
Qed.

Lemma apply_converges_witness :
  ∃ s', established gid (pub 1) s' ∧
    deliver s1 [[Some invite]; [None]] = Ok s' ∧ deliver s1 [[Some invite; Some invite]] = Ok s'.
Proof.
  apply (apply_converges gid (pub 1) s1 [[Some invite]; [None]] [[Some invite; Some invite]]).
  - exact s1_established.
  - intros e He Hg. exfalso. rewrite delivered_elem in He. subst e. by vm_compute in Hg.
  - exact genesis_invite_free.
  - intros e. rewrite delivered_elem. change (mjoin _) with [Some invite; Some invite].
    rewrite !elem_of_cons, elem_of_nil. clear. naive_solver.
Defined.

Definition toy_marshal (evs : list Event) : res string bytes := Ok (be_bytes 2 (zlen evs)).
Definition toy_unmarshal (data : bytes) : res string (list (option Event)) := Ok (Some <$> Events s2).

Lemma unmarshal_marshal_witness :
  UnmarshalJSON toy_unmarshal NewState (get [] (MarshalJSON toy_marshal s2)) = Ok (s2, None).
Proof.
  apply (unmarshal_marshal gid (pub 1) toy_marshal).
  - exact s2_established.
  - exists (get [] (Event_ID genesis)), genesis. split; by_vm.
  - intros d _. reflexivity.
  - reflexivity.
Defined.

Lemma state_hash_agrees_witness :
  is_Some (events s2 !! get [] (Event_ID invite)) ↔ is_Some (events s2' !! get [] (Event_ID invite)).
Proof.
  apply (state_hash_agrees _ _ _ _ _ _ (map_to_list (events s2)) (map_to_list (events s2'))
    s2_established s2'_established).
  - unfold enumeration. reflexivity.
  - unfold enumeration. reflexivity.
  - intros _. by_vm.
  - by_vm.
Defined.

Lemma enum_refl {A} (m : gmap bytes A) : map_to_list m ≡ₚ map_to_list m.
Proof. done. Qed.
Lemma enum_rev {A} (m : gmap bytes A) : reverse (map_to_list m) ≡ₚ map_to_list m.
Proof. apply reverse_Permutation. Qed.

Lemma resolve_deterministic_witness :
  Resolve_with (map_to_list (events s2)) (map_to_list (events s2)) map_to_list s2 =
  Resolve_with (reverse (map_to_list (events s2))) (reverse (map_to_list (events s2)))
    (λ m, reverse (map_to_list m)) s2.
Proof.
  exact (resolve_deterministic _ _ _ _ _ _ _ _ _ s2_established (enum_refl _) (enum_rev _)
    (enum_refl _) (enum_rev _) enum_refl enum_rev).
Defined.

Lemma replay_fixpoint_witness :
  let r := replay_bucket 5 (initial_fold s1) [invite; invite_swapped; genesis] in
  r.1 = replay (initial_fold s1) [invite; invite_swapped; genesis] ∧
  r.2 = [invite_swapped] ∧
  Forall (λ e, apply r.1 e = (r.1, false)) r.2.
Proof.
  intros r.
  destruct (replay_fixpoint (initial_fold s1) [invite; invite_swapped; genesis] r.1 r.2 5) as (H & _ & Hf).
  - simpl. lia.
  - exact (surjective_pairing r).
  - split; [exact H|]. split; [apply (bool_decide_unpack _); by_vm|]. rewrite H. exact Hf.
Defined.

Definition f1 : fold := final_fold s1.

Lemma f1_ok : fold_ok f1.
Proof. exact (final_fold_ok _ _ _ s1_established). Qed.

Lemma invite_fields : fields_ok invite.
Proof. apply (Validate_fields invite ()). by_vm. Qed.

Lemma no_privilege_escalation_witness :
  rankOf f1 bob < actorRank f1 invite ∧ rankOf (apply f1 invite).1 bob < actorRank f1 invite.
Proof.
  destruct (no_privilege_escalation f1 invite (apply f1 invite).1 bob f1_ok invite_fields)
    as [[H _]|[[H _]|(_ & H1 & H2)]].
  - assert ((apply f1 invite).2 = true) as E by by_vm. rewrite <- E. exact (surjective_pairing _).
  - assert ((rankOf (apply f1 invite).1 bob =? rankOf f1 bob) = false) as E by by_vm.
    by apply Z.eqb_neq.
  - discriminate H.
  - discriminate H.
  - split; assumption.
Defined.

Lemma resolve_founder_witness :
  Founder (Resolve s2) = alice ∧ RoleOf (Resolve s2) alice = RoleFounder.
Proof.
  assert (Founder (Resolve s2) = alice) as E by by_vm. split; [exact E|].
  destruct (resolve_founder gid (pub 1) s2 s2_established) as (_ & H & _).
  rewrite E in H. exact (H ltac:(discriminate)).
Defined.
