(* ===== verification/Ratchet.v ===== *)
(** * pkg/ratchet: X3DH and the Double Ratchet

    x3dh.go establishes a session between two devices, doubleratchet.go and
    session.go encrypt, decrypt and persist it, aead.go seals one message under a
    one-time key, failure.go classifies the errors of [Decrypt].

    X25519, AES-GCM and HKDF are the classes below: what the sources rely on of
    crypto/ecdh, crypto/cipher and golang.org/x/crypto/hkdf.  The chain KDF is
    HMAC-SHA256 itself.  A fresh random key is an argument of the operation that
    draws it, [None] when the random source fails. *)

From S2P Require Import Prelude Sha256.

Class X25519 := {
  x_pub : bytes → bytes;                     (** public key of a private key *)
  x_dh : bytes → bytes → option bytes;       (** ECDH; [None] on a low-order point *)
  x_pub_length k : zlen (x_pub k) = 32;
  x_dh_comm a b : x_dh a (x_pub b) = x_dh b (x_pub a);
}.

Class AEAD := {
  gcm_Seal : bytes → bytes → bytes → bytes → bytes;          (** key nonce plaintext ad *)
  gcm_Open : bytes → bytes → bytes → bytes → option bytes;   (** key nonce ciphertext ad *)
  gcm_open_seal key nonce p ad : gcm_Open key nonce (gcm_Seal key nonce p ad) ad = Some p;
}.

(** [hkdf secret salt info n]: the first [n] bytes of the stream, which holds 255
    blocks of SHA-256. *)
Class HKDF := {
  hkdf : bytes → bytes → bytes → Z → option bytes;
  hkdf_some secret salt info n : n ≤ 255 * 32 → is_Some (hkdf secret salt info n);
}.

(** ** failure.go *)

Inductive Error :=
  | ErrDuplicateMessage | ErrAuthentication | ErrTooManySkipped | ErrNoReceivingChain
  | ErrOther (msg : string).
#[export] Instance Error_eq_dec : EqDecision Error.
Proof. solve_decision. Defined.

Definition FailureCode (err : option Error) : string :=
  match err with
  | None => ""
  | Some ErrDuplicateMessage => "duplicate_message"
  | Some ErrAuthentication => "authentication_failed"
  | Some ErrTooManySkipped => "too_many_skipped"
  | Some ErrNoReceivingChain => "no_receiving_chain"
  | Some (ErrOther _) => ""
  end.
Definition SuggestsDesync (err : option Error) : bool :=
  let code := FailureCode err in
  (code =?b "authentication_failed"%string) || (code =?b "too_many_skipped"%string)
  || (code =?b "no_receiving_chain"%string).

(** ** Headers and KDFs (doubleratchet.go) *)

Definition rootKDFInfo : bytes := lit "Freizone-DR-RK-v1".
Definition maxSkippedMessageKeys : Z := 1000.
Definition maxTotalSkippedMessageKeys : Z := 2 * maxSkippedMessageKeys.

Record Header := mkHeader { DHPub : bytes; HPN : Z; HN : Z }.
#[export] Instance Header_eq_dec : EqDecision Header.
Proof. solve_decision. Defined.

Definition Header_Bytes (h : Header) : bytes := DHPub h ++ be_bytes 4 (HPN h) ++ be_bytes 4 (HN h).

Definition kdfRK {HK : HKDF} (rk dhOut : bytes) : res Error (bytes * bytes) :=
  out ← from_option (hkdf dhOut rk rootKDFInfo 64) (ErrOther "ratchet: deriving root key");
  Ok (take 32 out, drop 32 out).

Definition kdfCK (ck : bytes) : bytes * bytes := (hmac_sha256 ck [2], hmac_sha256 ck [1]).

(** ** aead.go *)

Definition messageKeyInfo : bytes := lit "Freizone-DR-msg-v1".

Definition deriveMessageKeyMaterial {HK : HKDF} (mk : bytes) : res Error (bytes * bytes) :=
  out ← from_option (hkdf mk [] messageKeyInfo 44) (ErrOther "ratchet: deriving message key material");
  Ok (take 32 out, drop 32 out).

(** [gcmFor]: a 32-byte key always makes a cipher. *)
Definition sealMessage {HK : HKDF} {AE : AEAD} (mk plaintext sessionAD : bytes) (header : Header)
    : res Error bytes :=
  kn ← deriveMessageKeyMaterial mk;
  Ok (gcm_Seal kn.1 kn.2 plaintext (sessionAD ++ Header_Bytes header)).
Definition openMessage {HK : HKDF} {AE : AEAD} (mk ciphertext sessionAD : bytes) (header : Header)
    : res Error bytes :=
  kn ← deriveMessageKeyMaterial mk;
  from_option (gcm_Open kn.1 kn.2 ciphertext (sessionAD ++ Header_Bytes header)) ErrAuthentication.

(** ** session.go: the session *)

Inductive Role := RoleInitiator | RoleResponder.

(** Keys are their bytes; a nil pointer or slice is [None]; a nil map is empty. *)
Abbreviation skippedKey := (bytes * Z)%type (only parsing).
Record skippedValue := mkSkipped { sk_mk : bytes; sk_seq : Z }.
#[export] Instance skippedValue_eq_dec : EqDecision skippedValue.
Proof. solve_decision. Defined.
Record Session := mkSession {
  SRole : Role; AD : bytes;
  DHs : option bytes; DHr : option bytes;
  RK : bytes; CKs : option bytes; CKr : option bytes;
  Ns : Z; Nr : Z; PN : Z;
  Skipped : gmap skippedKey skippedValue; skipSeq : Z;
}.

Definition with_recv (s : Session) (ckr : option bytes) (nr : Z)
    (sk : gmap skippedKey skippedValue) (seq : Z) : Session :=
  mkSession (SRole s) (AD s) (DHs s) (DHr s) (RK s) (CKs s) ckr (Ns s) nr (PN s) sk seq.
Definition with_skipped (s : Session) (sk : gmap skippedKey skippedValue) : Session :=
  with_recv s (CKr s) (Nr s) sk (skipSeq s).

(** ** Skipped keys (doubleratchet.go) *)

(** The keys in the order of their sequence numbers, as [sort.Slice] leaves them. *)
Definition seq_le (x y : skippedKey * skippedValue) : Prop := sk_seq x.2 ≤ sk_seq y.2.
#[export] Instance seq_le_dec x y : Decision (seq_le x y).
Proof. unfold seq_le. apply _. Defined.
Definition oldest_first (m : gmap skippedKey skippedValue) : list (skippedKey * skippedValue) :=
  merge_sort seq_le (map_to_list m).

Definition evictOldestSkipped (m : gmap skippedKey skippedValue) (n : Z) : gmap skippedKey skippedValue :=
  if (n <=? 0) || (Nat.eqb (size m) 0) then m
  else
    let all := oldest_first m in
    let n := if zlen all <? n then zlen all else n in
    foldl (λ m x, delete x.1 m) m (take (Z.to_nat n) all).

(** The loop of [skipMessageKeys], [k] rounds from the current chain key. *)
Fixpoint buffer_keys (k : nat) (dhKey ck : bytes) (nr : Z) (m : gmap skippedKey skippedValue) (seq : Z)
    : bytes * Z * gmap skippedKey skippedValue * Z :=
  match k with
  | O => (ck, nr, m, seq)
  | S k =>
    let '(ck', mk) := kdfCK ck in
    buffer_keys k dhKey ck' (u32 (nr + 1)) (<[(dhKey, nr) := mkSkipped mk seq]> m) (u64 (seq + 1))
  end.

Definition skipMessageKeys (s : Session) (until : Z) : res Error Session :=
  if until <=? Nr s then Ok s
  else if maxSkippedMessageKeys <? until - Nr s then Err ErrTooManySkipped
  else match CKr s with
       | None => Err ErrNoReceivingChain
       | Some ck =>
         let dhKey := default [] (DHr s) in
         let over := Z.of_nat (size (Skipped s)) + (until - Nr s) - maxTotalSkippedMessageKeys in
         let m := if 0 <? over then evictOldestSkipped (Skipped s) over else Skipped s in
         let '(ck, nr, m, seq) := buffer_keys (Z.to_nat (until - Nr s)) dhKey ck (Nr s) m (skipSeq s) in
         Ok (with_recv s (Some ck) nr m seq)
       end.

Definition trySkippedMessageKey (s : Session) (header : Header) : Session * option bytes :=
  let key := (DHPub header, HN header) in
  match Skipped s !! key with
  | Some v => (with_skipped s (delete key (Skipped s)), Some (sk_mk v))
  | None => (s, None)
  end.

Definition headerMatchesDHr (header : Header) (dhr : option bytes) : bool :=
  match dhr with None => false | Some p => DHPub header =?b p end.

Section ratchet.
Context {XC : X25519} {HK : HKDF} {AE : AEAD}.

(** [curve.NewPublicKey] and the [ECDH] method. *)
Definition NewPublicKey (b : bytes) (what : string) : res Error bytes :=
  if zlen b =? 32 then Ok b else Err (ErrOther what).
Definition ECDH (priv : option bytes) (pub : bytes) (what : string) : res Error bytes :=
  match priv with
  | None => Panic
  | Some k => from_option (x_dh k pub) (ErrOther what)
  end.

Definition dhRatchetStep (s : Session) (remoteDHPub : bytes) (fresh : option bytes) : res Error Session :=
  remotePub ← NewPublicKey remoteDHPub "ratchet: invalid remote ratchet public key";
  dh ← ECDH (DHs s) remotePub "ratchet: dh ratchet (receiving side)";
  rc ← kdfRK (RK s) dh;
  newDHs ← from_option fresh (ErrOther "ratchet: generating new ratchet key");
  dh2 ← ECDH (Some newDHs) remotePub "ratchet: dh ratchet (sending side)";
  rc2 ← kdfRK rc.1 dh2;
  Ok (mkSession (SRole s) (AD s) (Some newDHs) (Some remotePub) rc2.1 (Some rc2.2) (Some rc.2)
        0 0 (Ns s) (Skipped s) (skipSeq s)).

Definition newInitiatorSession (sk ad ratchetPriv remoteSignedPrekeyPub : bytes) : res Error Session :=
  dh ← ECDH (Some ratchetPriv) remoteSignedPrekeyPub "ratchet: initial dh ratchet";
  rc ← kdfRK sk dh;
  Ok (mkSession RoleInitiator ad (Some ratchetPriv) (Some remoteSignedPrekeyPub) rc.1 (Some rc.2) None
        0 0 0 ∅ 0).
Definition newResponderSession (sk ad signedPrekeyPriv : bytes) : Session :=
  mkSession RoleResponder ad (Some signedPrekeyPriv) None sk None None 0 0 0 ∅ 0.

(** [Encrypt] advances the session even when sealing fails. *)
Definition Encrypt (s : Session) (plaintext : bytes) : Session * res Error (Header * bytes) :=
  match CKs s with
  | None => (s, Err (ErrOther "ratchet: no sending chain established yet"))
  | Some cks =>
    let '(ck, mk) := kdfCK cks in
    match DHs s with
    | None => (s, Panic)
    | Some k =>
      let header := mkHeader (x_pub k) (PN s) (Ns s) in
      let s' := mkSession (SRole s) (AD s) (DHs s) (DHr s) (RK s) (Some ck) (CKr s)
                  (u32 (Ns s + 1)) (Nr s) (PN s) (Skipped s) (skipSeq s) in
      (s', ciphertext ← sealMessage mk plaintext (AD s) header; Ok (header, ciphertext))
    end
  end.

(** The body of [Decrypt], on the clone. *)
Definition decrypt (s : Session) (header : Header) (ciphertext : bytes) (fresh : option bytes)
    : res Error (Session * bytes) :=
  match trySkippedMessageKey s header with
  | (s, Some mk) => p ← openMessage mk ciphertext (AD s) header; Ok (s, p)
  | (s, None) =>
    if headerMatchesDHr header (DHr s) && (HN header <? Nr s) then Err ErrDuplicateMessage
    else
      s ← (if negb (headerMatchesDHr header (DHr s)) then
             s ← (match DHr s with Some _ => skipMessageKeys s (HPN header) | None => Ok s end);
             dhRatchetStep s (DHPub header) fresh
           else Ok s);
      s ← skipMessageKeys s (HN header);
      match CKr s with
      | None => Err ErrNoReceivingChain
      | Some ckr =>
        let '(ck, mk) := kdfCK ckr in
        let s := with_recv s (Some ck) (u32 (Nr s + 1)) (Skipped s) (skipSeq s) in
        p ← openMessage mk ciphertext (AD s) header; Ok (s, p)
      end
  end.

(** The session is replaced by the clone only when the message opened. *)
Definition Decrypt (s : Session) (header : Header) (ciphertext : bytes) (fresh : option bytes)
    : Session * res Error bytes :=
  match decrypt s header ciphertext fresh with
  | Ok (work, plaintext) => (work, Ok plaintext)
  | Err e => (s, Err e)
  | Panic => (s, Panic)
  end.

(** ** x3dh.go *)

Definition x3dhInfo : bytes := lit "Freizone-X3DH-v1".

Record RemoteBundle := mkBundle {
  DHIdentityPubKey : bytes; SignedPrekeyID : Z; SignedPrekeyPub : bytes;
  OneTimePrekeyID : option Z; OneTimePrekeyPub : option bytes;
}.
Record InitialMessage := mkInitial {
  SenderDHIdentityPub : bytes; SenderEphemeralPub : bytes;
  ISignedPrekeyID : Z; IOneTimePrekeyID : option Z;
}.

Definition x3dhIKM (dh1 dh2 dh3 dh4 : bytes) : bytes := replicate 32 255 ++ dh1 ++ dh2 ++ dh3 ++ dh4.
Definition deriveX3DHSecret (ikm : bytes) : res Error bytes :=
  from_option (hkdf ikm (replicate 32 0) x3dhInfo 32) (ErrOther "ratchet: deriving x3dh shared secret").
Definition sessionAD (initiatorDHPub responderDHPub : bytes) : bytes := initiatorDHPub ++ responderDHPub.

Definition InitiateSession (localDHIdentityPriv : bytes) (remote : RemoteBundle)
    (ephemeral ratchet : option bytes) : res Error (Session * InitialMessage) :=
  ephemeralPriv ← from_option ephemeral (ErrOther "ratchet: generating ephemeral key");
  dh1 ← ECDH (Some localDHIdentityPriv) (SignedPrekeyPub remote) "ratchet: x3dh dh1";
  dh2 ← ECDH (Some ephemeralPriv) (DHIdentityPubKey remote) "ratchet: x3dh dh2";
  dh3 ← ECDH (Some ephemeralPriv) (SignedPrekeyPub remote) "ratchet: x3dh dh3";
  ikm_otpk ← (match OneTimePrekeyPub remote with
              | Some pub =>
                dh4 ← ECDH (Some ephemeralPriv) pub "ratchet: x3dh dh4";
                Ok (x3dhIKM dh1 dh2 dh3 dh4, OneTimePrekeyID remote)
              | None => Ok (x3dhIKM dh1 dh2 dh3 [], None)
              end);
  sk ← deriveX3DHSecret ikm_otpk.1;
  let ad := sessionAD (x_pub localDHIdentityPriv) (DHIdentityPubKey remote) in
  ratchetPriv ← from_option ratchet (ErrOther "ratchet: generating initial ratchet key");
  session ← newInitiatorSession sk ad ratchetPriv (SignedPrekeyPub remote);
  Ok (session, mkInitial (x_pub localDHIdentityPriv) (x_pub ephemeralPriv) (SignedPrekeyID remote)
                 ikm_otpk.2).

Definition RespondToSession (localDHIdentityPriv signedPrekeyPriv : bytes)
    (oneTimePrekeyPriv : option bytes) (initial : InitialMessage) : res Error Session :=
  senderIdentityPub ← NewPublicKey (SenderDHIdentityPub initial)
                        "ratchet: invalid sender dh identity public key";
  senderEphemeralPub ← NewPublicKey (SenderEphemeralPub initial)
                         "ratchet: invalid sender ephemeral public key";
  dh1 ← ECDH (Some signedPrekeyPriv) senderIdentityPub "ratchet: x3dh dh1";
  dh2 ← ECDH (Some localDHIdentityPriv) senderEphemeralPub "ratchet: x3dh dh2";
  dh3 ← ECDH (Some signedPrekeyPriv) senderEphemeralPub "ratchet: x3dh dh3";
  ikm ← (match IOneTimePrekeyID initial with
         | Some _ =>
           match oneTimePrekeyPriv with
           | None => Err (ErrOther "ratchet: initial message references one-time prekey")
           | Some k =>
             dh4 ← ECDH (Some k) senderEphemeralPub "ratchet: x3dh dh4";
             Ok (x3dhIKM dh1 dh2 dh3 dh4)
           end
         | None => Ok (x3dhIKM dh1 dh2 dh3 [])
         end);
  sk ← deriveX3DHSecret ikm;
  Ok (newResponderSession sk (sessionAD (SenderDHIdentityPub initial) (x_pub localDHIdentityPriv))
        signedPrekeyPriv).
End ratchet.

(** ** Persistence (session.go) *)

Record skippedEntryJSON := mkEntry { E_DHPub : bytes; E_N : Z; E_MK : bytes; E_Seq : Z }.
Record sessionJSON := mkJSON {
  J_Role : Role; J_AD : bytes; J_DHsPriv : bytes; J_DHrPub : bytes; J_RK : bytes;
  J_CKs : option bytes; J_CKr : option bytes; J_Ns : Z; J_Nr : Z; J_PN : Z;
  J_Skipped : list skippedEntryJSON;
}.

(** [omitempty] on a byte slice: an empty slice is left out and reads back nil. *)
Definition omitempty (o : option bytes) : option bytes :=
  match o with Some [] => None | o => o end.

(** [MarshalJSON] up to the JSON text, ranging over the map in the order [l]. *)
Definition toJSON_in (s : Session) (l : list (skippedKey * skippedValue)) : sessionJSON :=
  mkJSON (SRole s) (AD s) (default [] (DHs s)) (default [] (DHr s)) (RK s)
    (omitempty (CKs s)) (omitempty (CKr s)) (Ns s) (Nr s) (PN s)
    ((λ x, mkEntry x.1.1 x.1.2 (sk_mk x.2) (sk_seq x.2)) <$> l).

(** The loop of [UnmarshalJSON] over the stored entries. *)
Definition load_entry (ms : gmap skippedKey skippedValue * Z) (e : skippedEntryJSON)
    : gmap skippedKey skippedValue * Z :=
  (<[(E_DHPub e, E_N e) := mkSkipped (E_MK e) (E_Seq e)]> ms.1,
   if ms.2 <=? E_Seq e then u64 (E_Seq e + 1) else ms.2).

(** [UnmarshalJSON] from the decoded JSON into the session [s]. *)
Definition fromJSON (s : Session) (sj : sessionJSON) : res Error Session :=
  dhs ← (if 0 <? zlen (J_DHsPriv sj) then
           if zlen (J_DHsPriv sj) =? 32 then Ok (Some (J_DHsPriv sj))
           else Err (ErrOther "ratchet: decoding persisted ratchet private key")
         else Ok (DHs s));
  dhr ← (if 0 <? zlen (J_DHrPub sj) then
           if zlen (J_DHrPub sj) =? 32 then Ok (Some (J_DHrPub sj))
           else Err (ErrOther "ratchet: decoding persisted remote ratchet public key")
         else Ok (DHr s));
  let '(m, seq) := if 0 <? zlen (J_Skipped sj) then foldl load_entry (∅, skipSeq s) (J_Skipped sj)
                   else (Skipped s, skipSeq s) in
  Ok (mkSession (J_Role sj) (J_AD sj) dhs dhr (J_RK sj) (J_CKs sj) (J_CKr sj) (J_Ns sj) (J_Nr sj)
        (J_PN sj) m seq).
