(* ===== verification/RatchetCorrect.v ===== *)
(** * The Double Ratchet delivers

    Chains of message keys, the receiving side of a chain under any order of
    delivery, the hand-over from one chain to the next, and the agreement of the
    two ends of an X3DH handshake; then whole sessions: their bounds, their stored form and
    conversations. *)

From S2P Require Import Prelude Sha256 Ratchet.

(** ** Chains *)

Definition chain_key (ck : bytes) (n : nat) : bytes := Nat.iter n (λ c, (kdfCK c).1) ck.
Definition msg_key (ck : bytes) (n : nat) : bytes := (kdfCK (chain_key ck n)).2.

Lemma kdfCK_chain ck n : kdfCK (chain_key ck n) = (chain_key ck (S n), msg_key ck n).
Proof. done. Qed.
#[global] Opaque kdfCK.

(** The keys buffered by one run: numbers [i .. i+k-1] of the chain [ck]. *)
Lemma buffer_keys_spec k dh ck i m q :
  Z.of_nat (i + k) < 2 ^ 32 →
  ∃ m' q', buffer_keys k dh (chain_key ck i) (Z.of_nat i) m q
           = (chain_key ck (i + k), Z.of_nat (i + k), m', q') ∧
    (∀ d n, ¬ (d = dh ∧ Z.of_nat i ≤ n < Z.of_nat (i + k)) → m' !! (d, n) = m !! (d, n)) ∧
    (∀ n, (i ≤ n < i + k)%nat → ∃ v, m' !! (dh, Z.of_nat n) = Some (mkSkipped (msg_key ck n) v)) ∧
    (size m' ≤ size m + k)%nat.
Proof.
  revert i m q. induction k as [|k IH]; intros i m q Hb.
  { exists m, q. rewrite Nat.add_0_r. split_and!; [done|done|lia|lia]. }
  cbn [buffer_keys]. rewrite kdfCK_chain.
  assert (u32 (Z.of_nat i + 1) = Z.of_nat (S i)) as -> by (unfold u32; rewrite Z.mod_small; lia).
  destruct (IH (S i) (<[(dh, Z.of_nat i) := mkSkipped (msg_key ck i) q]> m) (u64 (q + 1)))
    as (m' & q' & -> & Hout & Hin & Hsz); [lia|].
  exists m', q'. replace (S i + k)%nat with (i + S k)%nat in * by lia. split_and!; [done|..].
  - intros d n Hn. rewrite Hout by (intros [-> ?]; apply Hn; split; [done|lia]). rewrite lookup_insert_ne; [done|].
    intros [= <- <-]. apply Hn. split; [done|lia].
  - intros n Hn. destruct (decide (n = i)) as [->|Hni]; [|apply Hin; lia].
    exists q. rewrite Hout by (intros [_ ?]; lia). by rewrite lookup_insert_eq.
  - rewrite map_size_insert in Hsz. destruct (m !! (dh, Z.of_nat i)); simpl in Hsz; lia.
Qed.

(** ** One receiving chain

    [receiving s dh ck got i]: [s] receives on the chain [ck] of the peer's ratchet
    key [dh], has derived its first [i] keys, has opened the messages [got] and
    holds the keys of the others. *)
Record receiving (s : Session) (dh ck : bytes) (got : gset nat) (i : nat) : Prop := {
  rc_dhr : DHr s = Some dh;
  rc_ckr : CKr s = Some (chain_key ck i);
  rc_nr : Nr s = Z.of_nat i;
  rc_got k : k ∈ got → (k < i)%nat ∧ Skipped s !! (dh, Z.of_nat k) = None;
  rc_missing k : (k < i)%nat → k ∉ got →
    ∃ v, Skipped s !! (dh, Z.of_nat k) = Some (mkSkipped (msg_key ck k) v);
  rc_ahead k : (i ≤ k)%nat → Skipped s !! (dh, Z.of_nat k) = None;
}.

(** The sending half of a session, and what identifies it. *)
Definition same_sender (s s' : Session) : Prop :=
  SRole s' = SRole s ∧ AD s' = AD s ∧ DHs s' = DHs s ∧ RK s' = RK s ∧ CKs s' = CKs s ∧
  Ns s' = Ns s ∧ PN s' = PN s.

Lemma skipMessageKeys_spec s dh ck got i n :
  receiving s dh ck got i → (i ≤ n)%nat → Z.of_nat n < 2 ^ 32 → (n - i ≤ 1000)%nat →
  (size (Skipped s) + (n - i) ≤ 2000)%nat →
  ∃ s', skipMessageKeys s (Z.of_nat n) = Ok s' ∧ receiving s' dh ck got n ∧ same_sender s s' ∧
    (size (Skipped s') ≤ size (Skipped s) + (n - i))%nat ∧
    (∀ d k, d ≠ dh → Skipped s' !! (d, k) = Skipped s !! (d, k)).
Proof.
  intros Hs Hin Hb Hgap Hsz. unfold skipMessageKeys. rewrite (rc_nr _ _ _ _ _ Hs).
  destruct (Z.leb_spec (Z.of_nat n) (Z.of_nat i)) as [Hle|Hlt].
  { assert (n = i) as -> by lia. exists s. split_and!; try done. lia. }
  unfold maxSkippedMessageKeys. destruct (Z.ltb_spec 1000 (Z.of_nat n - Z.of_nat i)); [lia|].
  rewrite (rc_ckr _ _ _ _ _ Hs), (rc_dhr _ _ _ _ _ Hs). cbn [default from_option id].
  unfold maxTotalSkippedMessageKeys, maxSkippedMessageKeys.
  destruct (Z.ltb_spec 0 (Z.of_nat (size (Skipped s)) + (Z.of_nat n - Z.of_nat i) - 2 * 1000)); [lia|].
  replace (Z.to_nat (Z.of_nat n - Z.of_nat i)) with (n - i)%nat by lia.
  destruct (buffer_keys_spec (n - i) dh ck i (Skipped s) (skipSeq s)) as (m' & q' & E & Hout & Hnew & Hsz');
    [lia|]. simpl in E. simpl. rewrite E. replace (i + (n - i))%nat with n in * by lia.
  eexists. split_and!; [done| |done|simpl; lia|].
  - destruct Hs as [Hd _ _ Hg Hm Ha]. constructor; simpl; try done.
    + intros k Hk. destruct (Hg k Hk) as [? Hno]. split; [lia|]. rewrite Hout; [done|intros [_ ?]; lia].
    + intros k Hk Hng. destruct (decide (k < i)%nat); [|apply Hnew; lia].
      destruct (Hm k) as [v Hv]; [done..|]. exists v. rewrite Hout; [done|intros [_ ?]; lia].
    + intros k Hk. rewrite Hout; [apply Ha; lia|intros [_ ?]; lia].
  - intros d k Hd. simpl. apply Hout. by intros [-> _].
Qed.

Section chain.
Context {XC : X25519} {HK : HKDF} {AE : AEAD}.

(** A message already opened is a duplicate, and costs nothing. *)
Lemma Decrypt_duplicate s dh ck got i n h c fresh :
  receiving s dh ck got i → n ∈ got → DHPub h = dh → HN h = Z.of_nat n →
  Decrypt s h c fresh = (s, Err ErrDuplicateMessage).
Proof.
  intros Hs Hn Hd Hh. destruct (rc_got _ _ _ _ _ Hs n Hn) as [Hlt Hno].
  unfold Decrypt, decrypt, trySkippedMessageKey. rewrite Hd, Hh, Hno, (rc_dhr _ _ _ _ _ Hs).
  unfold headerMatchesDHr. rewrite Hd, eqb_refl, (rc_nr _ _ _ _ _ Hs).
  by rewrite (proj2 (Z.ltb_lt _ _)) by lia.
Qed.

(** The key of a skipped message is held until the message arrives. *)
Lemma Decrypt_skipped s dh ck got i n h c fresh p :
  receiving s dh ck got i → (n < i)%nat → n ∉ got → DHPub h = dh → HN h = Z.of_nat n →
  openMessage (msg_key ck n) c (AD s) h = Ok p →
  ∃ s', Decrypt s h c fresh = (s', Ok p) ∧ receiving s' dh ck ({[n]} ∪ got) i ∧ same_sender s s' ∧
    (size (Skipped s') ≤ size (Skipped s))%nat ∧
    (∀ d k, d ≠ dh → Skipped s' !! (d, k) = Skipped s !! (d, k)).
Proof.
  intros Hs Hlt Hng Hd Hh Ho. destruct (rc_missing _ _ _ _ _ Hs n Hlt Hng) as [v Hv].
  unfold Decrypt, decrypt, trySkippedMessageKey. rewrite Hd, Hh, Hv. cbn [sk_mk].
  cbn [AD with_skipped with_recv]. rewrite Ho. cbn [mbind res_bind]. eexists. split_and!; [done| |done|..].
  - destruct Hs as [? ? ? Hg Hm Ha]. constructor; simpl; try done.
    + intros k [->%elem_of_singleton|Hk]%elem_of_union; [by rewrite lookup_delete_eq|].
      destruct (Hg k Hk) as [? Hno]. split; [done|]. apply lookup_delete_None. by right.
    + intros k Hk [Hkn Hkg]%not_elem_of_union. destruct (Hm k Hk Hkg) as [w Hw]. exists w.
      rewrite lookup_delete_ne; [done|]. intros [= E]. apply Hkn. apply elem_of_singleton. lia.
    + intros k Hk. apply lookup_delete_None. right. by apply Ha.
  - simpl. rewrite map_size_delete, Hv. simpl. lia.
  - intros d k Hne. simpl. rewrite lookup_delete_ne; [done|]. by intros [= <- _].
Qed.

(** A message further along the chain: the keys before it are buffered. *)
Lemma Decrypt_ahead s dh ck got i n h c fresh p :
  receiving s dh ck got i → (i ≤ n)%nat → Z.of_nat n + 1 < 2 ^ 32 → (n - i ≤ 1000)%nat →
  (size (Skipped s) + (n - i) ≤ 2000)%nat → DHPub h = dh → HN h = Z.of_nat n →
  openMessage (msg_key ck n) c (AD s) h = Ok p →
  ∃ s', Decrypt s h c fresh = (s', Ok p) ∧ receiving s' dh ck ({[n]} ∪ got) (S n) ∧ same_sender s s' ∧
    (size (Skipped s') ≤ size (Skipped s) + (n - i))%nat ∧
    (∀ d k, d ≠ dh → Skipped s' !! (d, k) = Skipped s !! (d, k)).
Proof.
  intros Hs Hle Hb Hgap Hsz Hd Hh Ho.
  unfold Decrypt, decrypt, trySkippedMessageKey.
  rewrite Hd, Hh, (rc_ahead _ _ _ _ _ Hs n Hle), (rc_dhr _ _ _ _ _ Hs).
  unfold headerMatchesDHr. rewrite Hd, eqb_refl, (rc_nr _ _ _ _ _ Hs).
  rewrite (proj2 (Z.ltb_ge _ _)) by lia. cbn [negb andb mbind res_bind].
  destruct (skipMessageKeys_spec s dh ck got i n Hs Hle ltac:(lia) Hgap Hsz)
    as (s1 & -> & Hs1 & Hsame & Hsz1 & Hoth). cbn [mbind res_bind].
  rewrite (rc_ckr _ _ _ _ _ Hs1), kdfCK_chain. cbn [AD with_recv].
  pose proof Hsame as (_ & -> & _). rewrite Ho. cbn [mbind res_bind].
  eexists. split_and!; [done| |done|done|done].
  destruct Hs1 as [? ? Hnr Hg Hm Ha]. constructor; simpl; try done.
  - rewrite Hnr. unfold u32. rewrite Z.mod_small; lia.
  - intros k [->%elem_of_singleton|Hk]%elem_of_union; [split; [lia|by apply Ha]|].
    destruct (Hg k Hk). split; [lia|done].
  - intros k Hk [Hkn Hkg]%not_elem_of_union. apply Hm; [|done].
    assert (k ≠ n) by (intros ->; apply Hkn; by apply elem_of_singleton). lia.
  - intros k Hk. apply Ha. lia.
Qed.

(** ** Any order of delivery *)

(** The messages of one sending chain: number [n] carries [p n]. *)
Definition sent_on (ck ad dh : bytes) (pn : Z) (p : nat → bytes) (msg : nat → Header * bytes) : Prop :=
  ∀ n, (msg n).1 = mkHeader dh pn (Z.of_nat n) ∧
       sealMessage (msg_key ck n) (p n) ad (msg n).1 = Ok (msg n).2.

Fixpoint deliver_all (s : Session) (fresh : option bytes) (msg : nat → Header * bytes) (order : list nat)
    : Session * list (res Error bytes) :=
  match order with
  | [] => (s, [])
  | n :: order => let '(s, r) := Decrypt s (msg n).1 (msg n).2 fresh in
                  let '(s, rs) := deliver_all s fresh msg order in (s, r :: rs)
  end.

(** Each message opens the first time it arrives and is a duplicate afterwards. *)
Fixpoint expected (p : nat → bytes) (got : gset nat) (order : list nat) : list (res Error bytes) :=
  match order with
  | [] => []
  | n :: order => (if decide (n ∈ got) then Err ErrDuplicateMessage else Ok (p n))
                  :: expected p ({[n]} ∪ got) order
  end.

Lemma open_seal mk p ad h c : sealMessage mk p ad h = Ok c → openMessage mk c ad h = Ok p.
Proof.
  unfold sealMessage, openMessage. intros (kn & -> & [= <-])%bind_Ok. cbn [mbind res_bind].
  by rewrite gcm_open_seal.
Qed.

Lemma deliver_all_spec s fresh dh ck got i pn p msg order bound :
  receiving s dh ck got i → sent_on ck (AD s) dh pn p msg →
  (bound ≤ 1000)%nat → Forall (λ n, n < bound)%nat order → (i ≤ bound)%nat →
  (size (Skipped s) + (bound - i) ≤ 2000)%nat →
  (deliver_all s fresh msg order).2 = expected p got order.
Proof.
  intros Hs Hm Hb Ho. revert s got i Hs Hm. induction Ho as [|n order Hn Ho IH]; intros s got i Hs Hm Hi Hsz;
    [done|]. cbn [deliver_all expected]. destruct (Hm n) as [Hh Hseal]. apply open_seal in Hseal.
  destruct (decide (n ∈ got)) as [Hg|Hg].
  - rewrite (Decrypt_duplicate s dh ck got i n) by (done || by rewrite Hh).
    specialize (IH s got i Hs Hm Hi Hsz). destruct (deliver_all s fresh msg order). simpl in *.
    f_equal. rewrite IH. f_equal. set_solver.
  - assert (∃ s' i', Decrypt s (msg n).1 (msg n).2 fresh = (s', Ok (p n)) ∧
      receiving s' dh ck ({[n]} ∪ got) i' ∧ same_sender s s' ∧ (i' ≤ bound)%nat ∧
      (size (Skipped s') + (bound - i') ≤ 2000)%nat) as (s' & i' & -> & Hs' & Hsame & Hi' & Hsz').
    { destruct (decide (n < i)%nat).
      - destruct (Decrypt_skipped s dh ck got i n (msg n).1 (msg n).2 fresh (p n))
          as (s' & E & Hs' & Hsame & Hsz' & _); try done; try (by rewrite Hh).
        exists s', i. split_and!; [done..|lia].
      - destruct (Decrypt_ahead s dh ck got i n (msg n).1 (msg n).2 fresh (p n))
          as (s' & E & Hs' & Hsame & Hsz' & _); try done; try (by rewrite Hh); try lia.
        exists s', (S n). split_and!; [done..|lia|lia]. }
    assert (sent_on ck (AD s') dh pn p msg) as Hm'.
    { pose proof Hsame as (_ & E & _). by rewrite E. }
    specialize (IH s' _ i' Hs' Hm' Hi' Hsz').
    destruct (deliver_all s' fresh msg order). simpl in *. by rewrite IH.
Qed.

End chain.

(** ** Handing over from chain to chain

    [turn a b ka kb ck]: [a] has the newer ratchet key [ka] and sends on the chain
    [ck] that [b], whose key [kb] is the one [a] last saw, will derive from the
    first message it gets. *)

Section turns.
Context {XC : X25519} {HK : HKDF} {AE : AEAD}.

Record turn (a b : Session) (ka kb ck : bytes) : Prop := {
  tn_dhs : DHs a = Some ka;
  tn_dhr : DHr a = Some (x_pub kb);
  tn_peer : DHs b = Some kb;
  tn_new : DHr b ≠ Some (x_pub ka);
  tn_ad : AD b = AD a;
  tn_root : ∃ dh, x_dh kb (x_pub ka) = Some dh ∧ kdfRK (RK b) dh = Ok (RK a, ck);
  tn_cks : ∃ j, Ns a = Z.of_nat j ∧ CKs a = Some (chain_key ck j);
  tn_unseen n : Skipped b !! (x_pub ka, n) = None;
}.

(** [Encrypt] seals message [j] of the sending chain and moves to the next. *)
Lemma Encrypt_chain a k ck j p :
  DHs a = Some k → Ns a = Z.of_nat j → Z.of_nat j + 1 < 2 ^ 32 → CKs a = Some (chain_key ck j) →
  ∃ a' c, Encrypt a p = (a', Ok (mkHeader (x_pub k) (PN a) (Z.of_nat j), c)) ∧
    sealMessage (msg_key ck j) p (AD a) (mkHeader (x_pub k) (PN a) (Z.of_nat j)) = Ok c ∧
    Ns a' = Z.of_nat (S j) ∧ CKs a' = Some (chain_key ck (S j)) ∧
    SRole a' = SRole a ∧ AD a' = AD a ∧ DHs a' = DHs a ∧ DHr a' = DHr a ∧ RK a' = RK a ∧
    CKr a' = CKr a ∧ Nr a' = Nr a ∧ PN a' = PN a ∧ Skipped a' = Skipped a.
Proof.
  intros Hk Hn Hb Hc. unfold Encrypt. rewrite Hc, kdfCK_chain, Hk, Hn. unfold sealMessage, deriveMessageKeyMaterial.
  destruct (hkdf_some (msg_key ck j) [] messageKeyInfo 44) as [out Ho]; [lia|]. rewrite Ho.
  cbn [mbind res_bind Prelude.from_option fst snd]. eexists _, _. split_and!; try done.
  simpl. unfold u32. rewrite Z.mod_small; lia.
Qed.

Lemma kdfRK_Ok rk dh : ∃ r c, kdfRK rk dh = Ok (r, c).
Proof.
  unfold kdfRK. destruct (hkdf_some dh rk rootKDFInfo 64) as [out ->]; [lia|]. cbn. eauto.
Qed.

(** The DH ratchet on the receiving side lands on the sender's chain and opens a
    new one of its own. *)
Lemma dhRatchetStep_turn a b ka kb ck k' dh2 :
  turn a b ka kb ck → x_dh k' (x_pub ka) = Some dh2 →
  ∃ b' ck', dhRatchetStep b (x_pub ka) (Some k') = Ok b' ∧
    DHs b' = Some k' ∧ DHr b' = Some (x_pub ka) ∧ AD b' = AD b ∧
    CKr b' = Some ck ∧ Nr b' = 0 ∧ Ns b' = 0 ∧ PN b' = Ns b ∧ Skipped b' = Skipped b ∧
    CKs b' = Some (chain_key ck' 0) ∧ kdfRK (RK a) dh2 = Ok (RK b', ck').
Proof.
  intros Ht Hdh2. destruct (tn_root _ _ _ _ _ Ht) as (dh & Hdh & Hrk).
  unfold dhRatchetStep, NewPublicKey, ECDH. rewrite x_pub_length. change (32 =? 32) with true.
  cbn [mbind res_bind]. rewrite (tn_peer _ _ _ _ _ Ht), Hdh. cbn [mbind res_bind Prelude.from_option].
  rewrite Hrk. cbn [mbind res_bind fst snd Prelude.from_option]. rewrite Hdh2.
  cbn [mbind res_bind Prelude.from_option].
  destruct (kdfRK_Ok (RK a) dh2) as (r & c & E). rewrite E. cbn [mbind res_bind fst snd].
  eexists _, c. by split_and!.
Qed.

Lemma ratcheted_receiving b dh ck :
  DHr b = Some dh → CKr b = Some ck → Nr b = 0 → (∀ n, Skipped b !! (dh, n) = None) →
  receiving b dh ck ∅ 0.
Proof. intros Hd Hc Hn Hs. constructor; try done; intros k Hk; first [lia|set_solver]. Qed.

(** A DH ratchet hand-over: whichever message of the sender's new chain arrives
    first, the receiver opens it, ends up receiving on that chain, and has in turn
    opened a chain of its own that the sender will follow.  The receiver's fresh key
    must be new to the sender. *)
Lemma ratchet_turn a b ka kb ck k' n p c pn :
  turn a b ka kb ck → 0 ≤ pn ≤ Nr b → (n ≤ 1000)%nat → (size (Skipped b) + n ≤ 2000)%nat →
  is_Some (x_dh k' (x_pub ka)) → x_pub k' ≠ x_pub kb → (∀ m, Skipped a !! (x_pub k', m) = None) →
  sealMessage (msg_key ck n) p (AD a) (mkHeader (x_pub ka) pn (Z.of_nat n)) = Ok c →
  ∃ b' ck', Decrypt b (mkHeader (x_pub ka) pn (Z.of_nat n)) c (Some k') = (b', Ok p) ∧
    receiving b' (x_pub ka) ck {[n]} (S n) ∧ turn b' a k' ka ck' ∧ PN b' = Ns b ∧ Ns b' = 0 ∧
    AD b' = AD b ∧ (size (Skipped b') ≤ size (Skipped b) + n)%nat.
Proof.
  intros Ht Hpn Hn Hsz [dh2 Hdh2] Hnew Hun Hseal. apply open_seal in Hseal.
  destruct (dhRatchetStep_turn a b ka kb ck k' dh2 Ht Hdh2)
    as (b1 & ck' & Hstep & Hs1 & Hr1 & Had1 & Hc1 & Hnr1 & Hns1 & Hpn1 & Hsk1 & Hcks1 & Hrk1).
  assert (receiving b1 (x_pub ka) ck ∅ 0) as Hrec.
  { apply ratcheted_receiving; try done. intros m. rewrite Hsk1. apply Ht. }
  destruct (Decrypt_ahead b1 (x_pub ka) ck ∅ 0 n (mkHeader (x_pub ka) pn (Z.of_nat n)) c None p)
    as (b2 & Hd & Hrec2 & Hsame & Hsz2 & _); try done; try lia.
  { rewrite Hsk1. lia. }
  { by rewrite Had1, (tn_ad _ _ _ _ _ Ht). }
  exists b2, ck'. assert (Decrypt b (mkHeader (x_pub ka) pn (Z.of_nat n)) c (Some k') = (b2, Ok p)) as E.
  { revert Hd. unfold Decrypt, decrypt, trySkippedMessageKey. simpl.
    rewrite (tn_unseen _ _ _ _ _ Ht), Hsk1, (tn_unseen _ _ _ _ _ Ht).
    assert (headerMatchesDHr (mkHeader (x_pub ka) pn (Z.of_nat n)) (DHr b) = false) as ->.
    { unfold headerMatchesDHr. destruct (DHr b) as [d|] eqn:Ed; [|done]. apply eqb_false. simpl.
      intros <-. by apply (tn_new _ _ _ _ _ Ht). }
    rewrite Hr1. unfold headerMatchesDHr at 1 2. simpl. rewrite eqb_refl. simpl.
    assert ((match DHr b with Some _ => skipMessageKeys b pn | None => Ok b end) = Ok b) as ->.
    { destruct (DHr b); [|done]. unfold skipMessageKeys. by rewrite (proj2 (Z.leb_le _ _)) by lia. }
    rewrite Hnr1. rewrite (proj2 (Z.ltb_ge _ _)) by lia.
    cbn [mbind res_bind]. rewrite Hstep. cbn [mbind res_bind].
    by case_match. }
  destruct Hsame as (_ & Ha & Hs & Hr & Hc & Hns & Hpn').
  split_and!; [done|by rewrite (right_id_L ∅ (∪)) in Hrec2| |congruence..|rewrite Hsk1 in Hsz2; lia].
  constructor.
  - by rewrite Hs.
  - apply Hrec2.
  - apply Ht.
  - rewrite (tn_dhr _ _ _ _ _ Ht). congruence.
  - rewrite Ha, Had1. symmetry. apply Ht.
  - exists dh2. rewrite x_dh_comm, Hr. done.
  - exists 0%nat. rewrite Hns, Hc. done.
  - done.
Qed.

(** Out-of-order delivery of a new chain: the messages a session sends on its new
    chain may reach the peer in any order and any number of times; the first one to
    arrive turns the ratchet, each one opens to its plaintext the first time it
    arrives and is reported as a duplicate from then on. *)
Theorem new_chain_any_order a b ka kb ck k' pn p msg order bound :
  turn a b ka kb ck → 0 ≤ pn ≤ Nr b → (bound ≤ 1000)%nat → (size (Skipped b) + bound ≤ 2000)%nat →
  is_Some (x_dh k' (x_pub ka)) → x_pub k' ≠ x_pub kb → (∀ m, Skipped a !! (x_pub k', m) = None) →
  sent_on ck (AD a) (x_pub ka) pn p msg → Forall (λ n, n < bound)%nat order →
  (deliver_all b (Some k') msg order).2 = expected p ∅ order.
Proof.
  intros Ht Hpn Hb Hsz Hdh Hnew Hun Hm Ho. destruct Ho as [|n order Hn Ho]; [done|].
  cbn [deliver_all expected]. destruct (Hm n) as [Hh Hseal]. rewrite Hh in Hseal |- *.
  destruct (ratchet_turn a b ka kb ck k' n (p n) (msg n).2 pn)
    as (b' & ck' & -> & Hrec & _ & _ & _ & Had & Hsz'); try done; try lia.
  rewrite decide_False by set_solver.
  pose proof (deliver_all_spec b' (Some k') (x_pub ka) ck {[n]} (S n) pn p msg order bound) as Hrest.
  rewrite Had, (tn_ad _ _ _ _ _ Ht) in Hrest. specialize (Hrest Hrec Hm Hb Ho ltac:(lia) ltac:(lia)).
  destruct (deliver_all b' _ _ _). simpl in *. by rewrite Hrest, (right_id_L ∅ (∪)).
Qed.

(** X3DH agreement: from the bundle a responder published, the initiator's
    session and the one the responder builds from the initial message fit
    together -- with or without a one-time prekey -- so that the responder will
    follow the initiator's first chain. *)
Lemma x3dh_agreement idA idB spk otpk eph rat spkID otpkID sa init :
  InitiateSession idA
    (mkBundle (x_pub idB) spkID (x_pub spk) otpkID (x_pub <$> otpk)) (Some eph) (Some rat) = Ok (sa, init) →
  (is_Some otpkID ↔ is_Some otpk) →
  ∃ sb ck, RespondToSession idB spk otpk init = Ok sb ∧ turn sa sb rat spk ck ∧
    Ns sa = 0 ∧ PN sa = 0 ∧ Nr sb = 0 ∧ Ns sb = 0 ∧ Nr sa = 0 ∧ Skipped sa = ∅ ∧ Skipped sb = ∅.
Proof.
  intros H Hot. unfold InitiateSession in H.
  apply bind_Ok in H as (e & He & H). apply bind_Ok in H as (dh1 & H1 & H).
  apply bind_Ok in H as (dh2 & H2 & H). apply bind_Ok in H as (dh3 & H3 & H).
  apply bind_Ok in H as ([ikm oid] & Hikm & H). apply bind_Ok in H as (sk & Hsk & H).
  apply bind_Ok in H as (ka & Hka & H). apply bind_Ok in H as (s & Hs & H).
  apply Ok_inj in H. injection H as -> <-. cbn [fst snd] in *.
  apply Ok_inj in He as <-. apply Ok_inj in Hka as <-.
  unfold ECDH in H1, H2, H3. apply from_option_Ok in H1, H2, H3. simpl in *.
  unfold RespondToSession, NewPublicKey, ECDH. simpl. rewrite !x_pub_length. simpl.
  rewrite x_dh_comm in H1, H2, H3. rewrite H1, H2, H3. simpl.
  assert ((match oid with
           | Some _ => match otpk with
                       | None => Err (ErrOther "ratchet: initial message references one-time prekey")
                       | Some k => dh4 ← from_option (x_dh k (x_pub eph)) (ErrOther "ratchet: x3dh dh4");
                                   Ok (x3dhIKM dh1 dh2 dh3 dh4)
                       end
           | None => Ok (x3dhIKM dh1 dh2 dh3 [])
           end) = Ok ikm) as ->.
  { destruct otpk as [k|]; simpl in Hikm.
    - apply bind_Ok in Hikm as (dh4 & H4 & E). apply Ok_inj in E. injection E as <- <-.
      unfold ECDH in H4. apply from_option_Ok in H4. rewrite x_dh_comm in H4.
      destruct otpkID; [|by destruct Hot as [_ [? ?]]; eauto]. by rewrite H4.
    - apply Ok_inj in Hikm. by injection Hikm as <- <-. }
  cbn [mbind res_bind]. rewrite Hsk. cbn [mbind res_bind].
  unfold newInitiatorSession, ECDH in Hs. apply bind_Ok in Hs as (dh & Hdh & Hs).
  apply from_option_Ok in Hdh. apply bind_Ok in Hs as ([rk ck] & Hrk & Hs). apply Ok_inj in Hs as <-.
  eexists _, ck. split; [done|]. simpl. split_and!; try done.
  constructor; simpl; try done.
  - exists dh. by rewrite x_dh_comm.
  - by exists 0%nat.
Qed.
End turns.

(** ** Whole conversations, bounded state and persistence of ratchet sessions

    Bursts of messages back and forth between two sessions, the bound on the
    buffered keys with eviction of the oldest, and the round trip through the
    persisted form.  Toy primitives at the end evaluate the model. *)

(** ** A conversation in bursts

    One side sends a burst, the other one -- drawing the fresh key [fresh] at the
    first message -- reads it; then they swap roles. *)
Section conversation.
Context {XC : X25519} {HK : HKDF} {AE : AEAD}.

Fixpoint burst (a b : Session) (ps : list bytes) (fresh : bytes) : Session * Session * list (res Error bytes) :=
  match ps with
  | [] => (a, b, [])
  | p :: ps =>
    match Encrypt a p with
    | (a, Ok (h, c)) =>
      let '(b, r) := Decrypt b h c (Some fresh) in
      let '(a, b, rs) := burst a b ps fresh in (a, b, r :: rs)
    | (a, Err e) => (a, b, [Err e])
    | (a, Panic) => (a, b, [Panic])
    end
  end.

Fixpoint converse (a b : Session) (rounds : list (bytes * list bytes)) : list (list (res Error bytes)) :=
  match rounds with
  | [] => []
  | (fresh, ps) :: rounds =>
    let '(a, b, rs) := burst a b ps fresh in rs :: converse b a rounds
  end.

(** Every burst has a message, and each fresh key differs from the one it replaces
    and is not of low order. *)
Fixpoint fresh_keys (ka kb : bytes) (rounds : list (bytes * list bytes)) : Prop :=
  match rounds with
  | [] => True
  | (k, ps) :: rounds =>
    (0 < length ps < 1000)%nat ∧ is_Some (x_dh k (x_pub ka)) ∧ x_pub k ≠ x_pub kb ∧ fresh_keys k ka rounds
  end.

(** [a] is about to send on a chain [b] has not seen, everything sent so far is
    received, and no keys are buffered. *)
Record ready (a b : Session) (ka kb ck : bytes) : Prop := {
  rd_turn : turn a b ka kb ck;
  rd_start : Ns a = 0;
  rd_caught_up : 0 ≤ PN a ≤ Nr b;
  rd_read : 0 ≤ Ns b ≤ Nr a;
  rd_empty : Skipped a = ∅ ∧ Skipped b = ∅;
}.

Lemma turn_sender a a' b ka kb ck j :
  turn a b ka kb ck → DHs a' = DHs a → DHr a' = DHr a → AD a' = AD a → RK a' = RK a →
  Ns a' = Z.of_nat j → CKs a' = Some (chain_key ck j) → turn a' b ka kb ck.
Proof.
  intros [] Es Er Ead Erk En Ec. constructor; rewrite ?Es, ?Er, ?Ead, ?Erk; try done. by exists j.
Qed.

Lemma turn_receiver a b b' ka kb ck :
  turn a b ka kb ck → DHs b' = DHs b → DHr b' = DHr b → AD b' = AD b → RK b' = RK b →
  Skipped b' = Skipped b → turn a b' ka kb ck.
Proof. intros [] Es Er Ead Erk Esk. constructor; rewrite ?Es, ?Er, ?Ead, ?Erk, ?Esk; done. Qed.

(** The rest of a burst, once the receiver follows the chain. *)
Lemma burst_following a b ka kb ck ck' kb' j ps got fresh :
  DHs a = Some ka → Ns a = Z.of_nat j → CKs a = Some (chain_key ck j) → AD b = AD a →
  receiving b (x_pub ka) ck got j → Skipped b = ∅ → Skipped a = ∅ → turn b a kb' kb ck' →
  Z.of_nat (j + length ps) + 1 < 2 ^ 32 → Ns b = 0 →
  ∃ a' b', burst a b ps fresh = (a', b', map Ok ps) ∧ turn b' a' kb' kb ck' ∧
    Nr b' = Z.of_nat (j + length ps) ∧ Ns a' = Z.of_nat (j + length ps) ∧ Nr a' = Nr a ∧
    Ns b' = 0 ∧ PN b' = PN b ∧ Skipped a' = ∅ ∧ Skipped b' = ∅.
Proof.
  revert a b j got. induction ps as [|p ps IH]; intros a b j got Hk Hn Hc Had Hrec Hb Ha Ht Hbd Hns.
  { exists a, b. rewrite Nat.add_0_r. split_and!; try done. apply Hrec. }
  cbn [burst]. simpl in Hbd.
  destruct (Encrypt_chain a ka ck j p Hk Hn ltac:(lia) Hc)
    as (a1 & c & -> & Hseal & Hn1 & Hc1 & _ & Had1 & Hk1 & Hr1 & Hrk1 & _ & Hnr1 & _ & Hsk1).
  apply open_seal in Hseal. rewrite <- Had in Hseal.
  destruct (Decrypt_ahead b (x_pub ka) ck got j j (mkHeader (x_pub ka) (PN a) (Z.of_nat j)) c (Some fresh) p Hrec) as (b1 & -> & Hrec1 & Hsame & Hsz & _);
    try done; try lia. { rewrite Hb, map_size_empty. lia. }
  assert (Skipped b1 = ∅) as Hb1.
  { apply map_size_empty_inv. rewrite Hb, map_size_empty in Hsz. lia. }
  destruct Hsame as (_ & Sad & Sdh & Srk & Scks & Sns & Spn).
  destruct (IH a1 b1 (S j) ({[j]} ∪ got)) as (a' & b' & E & Ht' & ?); try done; try congruence.
  - apply (turn_receiver b1 a); try congruence. apply (turn_sender b b1 a kb' kb ck' 0); try done.
    + rewrite (rc_dhr _ _ _ _ _ Hrec1). symmetry. apply Hrec.
    + by rewrite Sns.
    + destruct (tn_cks _ _ _ _ _ Ht) as (j0 & E0 & Hck). rewrite Scks, Hck.
      rewrite Hns in E0. by assert (j0 = 0)%nat as -> by lia.
  - simpl in *. lia.
  - rewrite E. exists a', b'. replace (j + length (p :: ps))%nat with (S j + length ps)%nat by (simpl; lia).
    destruct_and!. split_and!; try done. congruence.
    congruence.
Qed.

(** One burst hands the turn over. *)
Lemma burst_ready a b ka kb ck k ps :
  ready a b ka kb ck → (0 < length ps < 1000)%nat → is_Some (x_dh k (x_pub ka)) → x_pub k ≠ x_pub kb →
  ∃ a' b' ck', burst a b ps k = (a', b', map Ok ps) ∧ ready b' a' k ka ck'.
Proof.
  intros [Ht Hst Hcu Hrd [Ha Hb]] Hlen Hdh Hnew. destruct ps as [|p ps]; [simpl in Hlen; lia|]. cbn [burst].
  destruct (tn_cks _ _ _ _ _ Ht) as (j & Hj & Hck). assert (j = 0)%nat as -> by lia.
  destruct (Encrypt_chain a ka ck 0 p) as (a1 & c & -> & Hseal & Hn1 & Hc1 & _ & Had1 & Hk1 & Hr1 & Hrk1 & _ & Hnr1 & _ & Hsk1);
    [apply Ht|lia|lia|done|].
  destruct (ratchet_turn a b ka kb ck k 0 p c (PN a)) as (b1 & ck' & -> & Hrec & Ht1 & Hpn & Hns & Had & Hsz); try done.
  { lia. } { rewrite Hb, map_size_empty. lia. } { intros m. by rewrite Ha. }
  rewrite Hb, map_size_empty in Hsz. assert (Skipped b1 = ∅) as Hb1 by (apply map_size_empty_inv; lia).
  destruct (burst_following a1 b1 ka ka ck ck' k 1 ps {[0%nat]} k) as (a' & b' & E & Ht' & Hf); try done; try congruence.
  { rewrite Hk1. apply Ht. } { rewrite Had, Had1. apply Ht. }
  { by apply (turn_receiver b1 a). } { simpl in Hlen. lia. }
  rewrite E. destruct_and! Hf. exists a', b', ck'. split; [done|]. constructor; try done.
  - replace (PN b') with (Ns b) by congruence. replace (Nr a') with (Nr a) by congruence. done.
  - lia.
Qed.

Lemma converse_ready a b ka kb ck rounds :
  ready a b ka kb ck → fresh_keys ka kb rounds → converse a b rounds = map (map Ok) rounds.*2.
Proof.
  revert a b ka kb ck. induction rounds as [|[k ps] rounds IH]; intros a b ka kb ck Hr Hf; [done|].
  destruct Hf as (Hl & Hdh & Hnew & Hf). cbn [converse].
  destruct (burst_ready a b ka kb ck k ps Hr Hl Hdh Hnew) as (a' & b' & ck' & -> & Hr').
  simpl. f_equal. by apply (IH b' a' k ka ck').
Qed.

End conversation.

(** ** The buffer of skipped keys *)

Lemma delete_keys_size (l : list (skippedKey * skippedValue)) (m : gmap skippedKey skippedValue) :
  NoDup l.*1 → (∀ x, x ∈ l → m !! x.1 = Some x.2) →
  (size (foldl (λ m x, delete x.1 m) m l) + length l = size m)%nat.
Proof.
  revert m. induction l as [|x l IH]; intros m Hnd Hl; simpl; [lia|]. apply NoDup_cons in Hnd as [Hx Hnd].
  assert (m !! x.1 = Some x.2) as E by (apply Hl; left).
  pose proof (map_size_delete x.1 m) as Hd. rewrite E in Hd. simpl in Hd.
  assert (size m ≠ 0)%nat. { intros Z%map_size_empty_inv. by rewrite Z, lookup_empty in E. }
  rewrite <- (IH (delete x.1 m)) in Hd; [lia|done|].
  intros y Hy. rewrite lookup_delete_ne; [apply Hl; by right|].
  intros Exy. apply Hx. rewrite Exy. by apply list_elem_of_fmap_2.
Qed.

Lemma delete_keys_lookup (l : list (skippedKey * skippedValue)) (m : gmap skippedKey skippedValue) k v :
  foldl (λ m x, delete x.1 m) m l !! k = Some v ↔ m !! k = Some v ∧ k ∉ l.*1.
Proof.
  revert m. induction l as [|x l IH]; intros m; simpl; [set_solver|].
  rewrite IH, lookup_delete_Some, not_elem_of_cons. naive_solver.
Qed.

Lemma oldest_first_Permutation m : oldest_first m ≡ₚ map_to_list m.
Proof. apply merge_sort_Permutation. Qed.
Lemma oldest_first_sorted m : StronglySorted seq_le (oldest_first m).
Proof.
  apply StronglySorted_merge_sort; unfold seq_le.
  - intros x y z ? ?. lia.
  - intros x y. lia.
Qed.
Lemma oldest_first_elem m x : x ∈ oldest_first m ↔ m !! x.1 = Some x.2.
Proof. rewrite oldest_first_Permutation. destruct x. apply elem_of_map_to_list. Qed.
Lemma oldest_first_NoDup m : NoDup (oldest_first m).*1.
Proof. rewrite oldest_first_Permutation. apply NoDup_fst_map_to_list. Qed.
Lemma oldest_first_length m : length (oldest_first m) = size m.
Proof. rewrite oldest_first_Permutation. apply length_map_to_list. Qed.

Lemma evict_unfold m n :
  0 ≤ n → evictOldestSkipped m n = foldl (λ m x, delete x.1 m) m (take (Z.to_nat n) (oldest_first m)).
Proof.
  intros Hn. unfold evictOldestSkipped, zlen. rewrite oldest_first_length. case_match eqn:E.
  - apply orb_true_iff in E as [E%Z.leb_le|E%Nat.eqb_eq].
    + by assert (n = 0) as -> by lia.
    + rewrite take_ge by (rewrite oldest_first_length; lia).
      apply map_size_empty_inv in E as ->. done.
  - case_match eqn:E2; [|done]. apply Z.ltb_lt in E2.
    rewrite !take_ge by (rewrite oldest_first_length; lia). done.
Qed.

Lemma evict_size m n : 0 ≤ n → (size (evictOldestSkipped m n) = size m - Z.to_nat n)%nat.
Proof.
  intros Hn. rewrite evict_unfold by done.
  pose proof (length_take (oldest_first m) (Z.to_nat n)) as Hl. rewrite oldest_first_length in Hl.
  enough (size (foldl (λ m x, delete x.1 m) m (take (Z.to_nat n) (oldest_first m)))
          + length (take (Z.to_nat n) (oldest_first m)) = size m)%nat by lia.
  apply delete_keys_size.
  - rewrite fmap_take. eapply sublist_NoDup; [apply oldest_first_NoDup|apply sublist_take].
  - intros x Hx. apply oldest_first_elem. by apply elem_of_take in Hx as (i & Hi & _); eapply list_elem_of_lookup_2.
Qed.

Lemma evict_subseteq m n : 0 ≤ n → evictOldestSkipped m n ⊆ m.
Proof.
  intros Hn. apply map_subseteq_spec. intros k v. rewrite evict_unfold, delete_keys_lookup by done. naive_solver.
Qed.

(** Eviction forgets the oldest: when the buffer is full, what is dropped was
    buffered no later than anything that is kept, exactly [n] keys go, and the kept
    ones keep their values. *)
Theorem evict_oldest m n :
  0 ≤ n →
  (size (evictOldestSkipped m n) = size m - Z.to_nat n)%nat ∧ evictOldestSkipped m n ⊆ m ∧
  (∀ k v k' v', m !! k = Some v → evictOldestSkipped m n !! k = None →
     evictOldestSkipped m n !! k' = Some v' → sk_seq v ≤ sk_seq v').
Proof.
  intros Hn. split_and!; [by apply evict_size|by apply evict_subseteq|].
  intros k v k' v' Hk Hgone Hkept. rewrite evict_unfold in Hgone, Hkept by done.
  apply delete_keys_lookup in Hkept as [Hm' Hkept].
  set (i := Z.to_nat n) in *. pose proof (oldest_first_sorted m) as Hs.
  rewrite <- (take_drop i (oldest_first m)) in Hs.
  apply (StronglySorted_app_1_elem_of seq_le _ _ (k, v) (k', v') Hs).
  - destruct (decide ((k, v) ∈ take i (oldest_first m))) as [|Hno]; [done|exfalso].
    apply eq_None_not_Some in Hgone. apply Hgone. exists v. apply delete_keys_lookup. split; [done|].
    intros ([k2 v2] & -> & Hin)%list_elem_of_fmap. apply Hno. simpl in *.
    assert ((k2, v2) ∈ oldest_first m) as E%oldest_first_elem by (by eapply elem_of_take in Hin as (? & ? & ?); eapply list_elem_of_lookup_2).
    simpl in E. by simplify_eq.
  - assert ((k', v') ∈ oldest_first m) as Hin by by apply oldest_first_elem.
    rewrite <- (take_drop i (oldest_first m)) in Hin. apply elem_of_app in Hin as [Hin|]; [|done].
    exfalso. apply Hkept. apply list_elem_of_fmap. by exists (k', v').
Qed.

(** [buffered s]: at most 2000 keys, each numbered below the next sequence number. *)
Record buffered (s : Session) : Prop := {
  bf_size : Z.of_nat (size (Skipped s)) ≤ maxTotalSkippedMessageKeys;
  bf_seq k v : Skipped s !! k = Some v → 0 ≤ sk_seq v < skipSeq s;
}.

Lemma buffer_keys_buffered k dh ck nr m q ck' nr' m' q' :
  buffer_keys k dh ck nr m q = (ck', nr', m', q') → 0 ≤ q → q + Z.of_nat k < 2 ^ 64 →
  (∀ x v, m !! x = Some v → 0 ≤ sk_seq v < q) →
  (size m' ≤ size m + k)%nat ∧ q' = q + Z.of_nat k ∧ (∀ x v, m' !! x = Some v → 0 ≤ sk_seq v < q').
Proof.
  revert ck nr m q. induction k as [|k IH]; intros ck nr m q E Hq Hk Hm.
  { injection E as <- <- <- <-. split_and!; [lia|lia|done]. }
  cbn [buffer_keys] in E. destruct (kdfCK ck) as [c mk].
  assert (u64 (q + 1) = q + 1) as Hu by (unfold u64; rewrite Z.mod_small; lia). rewrite Hu in E.
  apply IH in E as (Hsz & Hq' & Hm'); [|lia|lia|].
  - split_and!; [|lia|done]. rewrite map_size_insert in Hsz. destruct (m !! _); simpl in Hsz; lia.
  - intros x v [[<- <-]|[_ Hx]]%lookup_insert_Some; [simpl; lia|]. apply Hm in Hx. lia.
Qed.

Lemma skipMessageKeys_buffered s until s' :
  skipMessageKeys s until = Ok s' → buffered s → 0 ≤ skipSeq s → skipSeq s + 1000 < 2 ^ 64 →
  buffered s' ∧ skipSeq s ≤ skipSeq s' ≤ skipSeq s + 1000.
Proof.
  unfold skipMessageKeys, maxSkippedMessageKeys. intros E [Hsz Hsq] H0 Hq.
  destruct (Z.leb_spec until (Nr s)); [apply Ok_inj in E as <-; split; [done|lia]|].
  destruct (Z.ltb_spec 1000 (until - Nr s)); [done|]. destruct (CKr s) as [ck|]; [|done].
  set (over := _ - maxTotalSkippedMessageKeys) in E.
  set (m := if 0 <? over then _ else _) in E.
  assert (Z.of_nat (size m) + (until - Nr s) ≤ maxTotalSkippedMessageKeys ∧ m ⊆ Skipped s) as [Hm Hsub].
  { subst m. destruct (Z.ltb_spec 0 over); [|split; [lia|done]].
    split; [rewrite evict_size by lia; unfold maxTotalSkippedMessageKeys, maxSkippedMessageKeys in *; lia|].
    by apply evict_subseteq; lia. }
  destruct (buffer_keys _ _ _ _ _ _) as [[[c nr] m'] q] eqn:Eb. apply Ok_inj in E as <-.
  apply buffer_keys_buffered in Eb as (Hsz' & -> & Hsq'); [|lia|lia|].
  - split; [|simpl; lia]. constructor; [simpl; lia|done].
  - intros x v Hx. apply (Hsq x). by eapply lookup_weaken.
Qed.

Section buffered_decrypt.
Context {XC : X25519} {HK : HKDF} {AE : AEAD}.

Lemma dhRatchetStep_buffer s pub fresh s' :
  dhRatchetStep s pub fresh = Ok s' → Skipped s' = Skipped s ∧ skipSeq s' = skipSeq s.
Proof.
  unfold dhRatchetStep. intros H. repeat (apply bind_Ok in H as (? & ? & H)). by apply Ok_inj in H as <-.
Qed.

Lemma decrypt_buffered s h c fresh s' p :
  decrypt s h c fresh = Ok (s', p) → buffered s → 0 ≤ skipSeq s → skipSeq s + 2000 < 2 ^ 64 →
  buffered s' ∧ skipSeq s ≤ skipSeq s' ≤ skipSeq s + 2000.
Proof.
  unfold decrypt, trySkippedMessageKey. intros H Hs H0 Hq. destruct (Skipped s !! _) as [v|] eqn:Ev.
  { apply bind_Ok in H as (? & _ & H). apply Ok_inj in H. injection H as <- _. split; [|simpl; lia].
    destruct Hs as [Hsz Hsq]. constructor; simpl.
    - rewrite map_size_delete, Ev. simpl. lia.
    - intros k w [_ Hk]%lookup_delete_Some. by apply (Hsq k). }
  destruct (_ && _); [done|]. apply bind_Ok in H as (s1 & H1 & H). apply bind_Ok in H as (s2 & H2 & H).
  assert (buffered s1 ∧ skipSeq s ≤ skipSeq s1 ≤ skipSeq s + 1000) as [Hb1 Hq1].
  { destruct (negb _); [|apply Ok_inj in H1 as <-; split; [done|lia]].
    apply bind_Ok in H1 as (s0 & Hs0 & Hstep). apply dhRatchetStep_buffer in Hstep as [Em Eq].
    enough (buffered s0 ∧ skipSeq s ≤ skipSeq s0 ≤ skipSeq s + 1000) as [[Hz Hv] ?].
    { split; [|lia]. constructor; rewrite ?Em, ?Eq; done. }
    destruct (DHr s); [apply skipMessageKeys_buffered in Hs0; auto; lia|].
    apply Ok_inj in Hs0 as <-. split; [done|lia]. }
  apply skipMessageKeys_buffered in H2 as [[Hz Hv] Hq2]; [|done|lia|lia].
  destruct (CKr s2); [|done]. destruct (kdfCK _). apply bind_Ok in H as (? & _ & H).
  apply Ok_inj in H. injection H as <- _. split; [by constructor|simpl; lia].
Qed.

(** Whatever arrives: headers and ciphertexts of an attacker's choosing. *)
Definition receive_all (s : Session) (msgs : list (Header * bytes * option bytes)) : Session :=
  foldl (λ s x, (Decrypt s x.1.1 x.1.2 x.2).1) s msgs.

(** C18: bounded memory: whatever headers and ciphertexts arrive, in whatever order, a
    session never buffers more than 2000 skipped message keys, and its sequence
    numbers stay ahead of every key it holds. *)
Theorem buffer_bounded s msgs :
  buffered s → 0 ≤ skipSeq s → skipSeq s + 2000 * zlen msgs < 2 ^ 64 →
  buffered (receive_all s msgs).
Proof.
  revert s. induction msgs as [|[[h c] f] msgs IH]; intros s Hs H0 Hq; [done|].
  unfold zlen in Hq. simpl in *. fold (receive_all (Decrypt s h c f).1 msgs).
  unfold Decrypt. destruct (decrypt s h c f) as [[s' p]|e|] eqn:E; simpl;
    [|apply IH; try done; unfold zlen; lia..].
  apply decrypt_buffered in E as [? ?]; [|done|done|lia]. apply IH; [done|lia|unfold zlen; lia].
Qed.
End buffered_decrypt.

(** ** Persistence *)

(** What the persisted form can represent: 32-byte keys, no empty chain key. *)
Record storable (s : Session) : Prop := {
  st_dhs k : DHs s = Some k → zlen k = 32;
  st_dhr k : DHr s = Some k → zlen k = 32;
  st_cks : CKs s ≠ Some []; st_ckr : CKr s ≠ Some [];
}.

(** The session [UnmarshalJSON] starts from. *)
Definition zero_session : Session :=
  mkSession RoleInitiator [] None None [] None None 0 0 0 ∅ 0.

Lemma load_entries (l : list (skippedKey * skippedValue)) (m : gmap skippedKey skippedValue) (q : Z) :
  NoDup l.*1 → (∀ k v, (k, v) ∈ l → 0 ≤ sk_seq v < 2 ^ 64 - 1) → (∀ k, k ∈ l.*1 → m !! k = None) →
  ∃ q', foldl load_entry (m, q) ((λ x : skippedKey * skippedValue, mkEntry x.1.1 x.1.2 (sk_mk x.2) (sk_seq x.2)) <$> l)
        = (list_to_map l ∪ m, q') ∧ q ≤ q' ∧ (∀ k v, (k, v) ∈ l → sk_seq v < q') ∧
    (∀ b, q ≤ b → (∀ k v, (k, v) ∈ l → sk_seq v < b) → q' ≤ b).
Proof.
  revert m q. induction l as [|[k v] l IH]; intros m q Hnd Hl Hm.
  { exists q. simpl. rewrite (left_id_L ∅ (∪)). split_and!; [done|lia|set_solver|done]. }
  apply NoDup_cons in Hnd as [Hk Hnd].
  assert (0 ≤ sk_seq v < 2 ^ 64 - 1) as Hv by (apply (Hl k); left).
  assert (u64 (sk_seq v + 1) = sk_seq v + 1) as Eu by (unfold u64; rewrite Z.mod_small; lia).
  rewrite fmap_cons. cbn [foldl]. unfold load_entry at 2. cbn [fst snd E_DHPub E_N E_MK E_Seq]. rewrite Eu.
  set (q1 := if q <=? sk_seq v then _ else _).
  assert (q ≤ q1 ∧ sk_seq v < q1 ∧ (q1 = q ∨ q1 = sk_seq v + 1)) as Hq1.
  { subst q1. destruct (Z.leb_spec q (sk_seq v)); lia. }
  destruct (IH (<[(k.1, k.2) := mkSkipped (sk_mk v) (sk_seq v)]> m) q1) as (q' & E & Hle & Hlt & Hmin); [done|set_solver| |].
  - intros k' Hk'. rewrite <- surjective_pairing. apply lookup_insert_None. split; [set_solver|]. by intros ->.
  - exists q'. rewrite E. split_and!.
    + f_equal. simpl. rewrite <- surjective_pairing. destruct v as [mk sq]. simpl.
      rewrite <- insert_union_r by (by apply not_elem_of_list_to_map_1). by rewrite insert_union_l.
    + lia.
    + intros k' v' [[= -> ->]|Hin]%elem_of_cons; [lia|by apply (Hlt k')].
    + intros b Hqb Hb. apply Hmin; [|set_solver]. destruct Hq1 as (? & ? & [->| ->]); [done|].
      specialize (Hb k v ltac:(left)). lia.
Qed.

(** Reading back what was written. *)
Lemma fromJSON_toJSON s l :
  storable s → buffered s → skipSeq s < 2 ^ 64 - 1 → 0 ≤ skipSeq s → l ≡ₚ map_to_list (Skipped s) →
  ∃ seq, fromJSON zero_session (toJSON_in s l) =
      Ok (mkSession (SRole s) (AD s) (DHs s) (DHr s) (RK s) (CKs s) (CKr s) (Ns s) (Nr s) (PN s)
            (Skipped s) seq) ∧
    0 ≤ seq ≤ skipSeq s ∧ (∀ k v, Skipped s !! k = Some v → sk_seq v < seq).
Proof.
  intros [Hs Hr Hcs Hcr] [_ Hsq] Hq H0 Hl. unfold fromJSON.
  assert ((if 0 <? zlen (J_DHsPriv (toJSON_in s l)) then
     if zlen (J_DHsPriv (toJSON_in s l)) =? 32 then Ok (Some (J_DHsPriv (toJSON_in s l)))
     else Err (ErrOther "ratchet: decoding persisted ratchet private key")
   else Ok (DHs zero_session)) = Ok (DHs s)) as ->.
  { simpl. destruct (DHs s) as [k|]; [|done]. simpl. by rewrite (Hs k). }
  assert ((if 0 <? zlen (J_DHrPub (toJSON_in s l)) then
     if zlen (J_DHrPub (toJSON_in s l)) =? 32 then Ok (Some (J_DHrPub (toJSON_in s l)))
     else Err (ErrOther "ratchet: decoding persisted remote ratchet public key")
   else Ok (DHr zero_session)) = Ok (DHr s)) as ->.
  { simpl. destruct (DHr s) as [k|]; [|done]. simpl. by rewrite (Hr k). }
  cbn [mbind res_bind].
  assert (∀ k v, (k, v) ∈ l → Skipped s !! k = Some v) as Hin.
  { intros k v. rewrite Hl. by apply elem_of_map_to_list. }
  destruct (load_entries l ∅ 0) as (q & E & Hq0 & Hlt & Hmin).
  { rewrite Hl. apply NoDup_fst_map_to_list. } { intros k v Hkv%Hin%Hsq. lia. } { done. }
  exists q. assert ((if 0 <? zlen (J_Skipped (toJSON_in s l)) then foldl load_entry (∅, skipSeq zero_session) (J_Skipped (toJSON_in s l))
                else (Skipped zero_session, skipSeq zero_session)) = (Skipped s, q)) as ->.
  { assert (list_to_map l ∪ ∅ = Skipped s) as Em.
    { rewrite (right_id_L ∅ (∪)). rewrite <- (list_to_map_to_list (Skipped s)).
      apply list_to_map_proper; [rewrite Hl; apply NoDup_fst_map_to_list|done]. }
    rewrite Em in E. cbn [toJSON_in J_Skipped]. rewrite <- E. by destruct l. }
  split; [|split; [split; [lia|]|]].
  - cbn [toJSON_in J_Role J_AD J_RK J_CKs J_CKr J_Ns J_Nr J_PN].
    assert (∀ o, o ≠ Some [] → omitempty o = o) as Ho by (intros [[|]|]; done). by rewrite !Ho.
  - apply Hmin; [done|]. intros k v Hkv%Hin%Hsq. lia.
  - intros k v Hk. apply (Hlt k). rewrite Hl. by apply elem_of_map_to_list.
Qed.

(** Persistence: a session written by [MarshalJSON] -- whatever order the map of
    skipped keys is ranged over -- and read back by [UnmarshalJSON] is the same
    session: every key, counter and buffered message key with its sequence number.
    Only the next sequence number may have dropped, to just above the numbers in
    use, so keys buffered later still count as newer. *)
Theorem session_roundtrip s l :
  storable s → buffered s → skipSeq s < 2 ^ 64 - 1 → 0 ≤ skipSeq s → l ≡ₚ map_to_list (Skipped s) →
  ∃ seq, fromJSON zero_session (toJSON_in s l) =
      Ok (mkSession (SRole s) (AD s) (DHs s) (DHr s) (RK s) (CKs s) (CKr s) (Ns s) (Nr s) (PN s)
            (Skipped s) seq) ∧
    0 ≤ seq ≤ skipSeq s ∧ (∀ k v, Skipped s !! k = Some v → sk_seq v < seq).
Proof. apply fromJSON_toJSON. Qed.
