(* ===== verification/RatchetExamples.v ===== *)
(** * The ratchet on concrete keys

    HKDF as RFC 5869 defines it over HMAC-SHA256, with toy stand-ins for the curve
    and the cipher; a handshake, a conversation and a persisted session evaluated
    with them. *)

From S2P Require Import Prelude GoStr Sha256 Ratchet RatchetCorrect.

(** ** Instances *)

Fixpoint hkdf_blocks (k : nat) (i : Z) (prk prev info : bytes) : bytes :=
  match k with
  | O => []
  | S k => let t := hmac_sha256 prk (prev ++ info ++ [i]) in t ++ hkdf_blocks k (i + 1) prk t info
  end.
Definition rfc5869 (secret salt info : bytes) (n : Z) : option bytes :=
  if n <=? 255 * 32 then
    Some (take (Z.to_nat n) (hkdf_blocks (Z.to_nat ((n + 31) / 32)) 1 (hmac_sha256 salt secret) [] info))
  else None.
#[export, refine] Instance rfc5869_hkdf : HKDF := {| hkdf := rfc5869 |}.
Proof. intros secret salt info n Hn. unfold rfc5869. rewrite (proj2 (Z.leb_le _ _)) by done. by eexists. Defined.

(** RFC 5869, test case 1. *)
Example rfc5869_case1 :
  hex_encode <$> rfc5869 (replicate 22 11) (seqZ 0 13) (seqZ 240 10) 42
  = Some (lit "3cb25f25faacd57a90434f64d0362f2a2d2d0a90cf1a5a4c5db02d56ecc4c5bf34007208d5b887185865").
Proof. vm_compute. reflexivity. Qed.

(** Keys add up instead of multiplying a point. *)
Definition pad32 (k : bytes) : bytes := take 32 (k ++ replicate 32 0).
Definition add_keys (a b : bytes) : bytes := zip_with (λ x y, (x + y) mod 256) (pad32 a) (pad32 b).
Lemma add_keys_comm a b : add_keys a b = add_keys b a.
Proof.
  unfold add_keys. generalize (pad32 a), (pad32 b). intros l. induction l as [|x l IH]; intros [|y k]; simpl; [done..|].
  by rewrite Z.add_comm, IH.
Qed.
Lemma pad32_idem k : pad32 (pad32 k) = pad32 k.
Proof. unfold pad32. rewrite take_app_le; [by rewrite take_take|]. rewrite length_take, length_app, length_replicate. lia. Qed.
#[export, refine] Instance toy_x25519 : X25519 := {|
  x_pub := pad32; x_dh a b := Some (add_keys a b);
|}.
Proof.
  - intros k. unfold zlen, pad32. rewrite length_take, length_app, length_replicate. lia.
  - intros a b. f_equal. rewrite add_keys_comm. unfold add_keys. by rewrite !pad32_idem.
Defined.

(** The key, nonce and associated data stand in front of the plaintext as its tag. *)
#[export, refine] Instance toy_aead : AEAD := {|
  gcm_Seal key nonce p ad := (key ++ nonce ++ ad) ++ p;
  gcm_Open key nonce c ad :=
    let tag := key ++ nonce ++ ad in
    if take (length tag) c =?b tag then Some (drop (length tag) c) else None;
|}.
Proof. intros key nonce p ad. cbv zeta. by rewrite take_app_length, drop_app_length, eqb_refl. Defined.

(** ** A handshake and a conversation *)

Definition k_alice : bytes := replicate 32 1.
Definition k_bob : bytes := replicate 32 2.
Definition k_spk : bytes := replicate 32 3.
Definition k_otpk : bytes := replicate 32 4.
Definition k_eph : bytes := replicate 32 5.
Definition k_rat : bytes := replicate 32 6.
Definition k_next (i : Z) : bytes := replicate 32 (10 + i).
Definition bob_bundle : RemoteBundle := mkBundle (x_pub k_bob) 7 (x_pub k_spk) (Some 9) (Some (x_pub k_otpk)).
Definition handshake : res Error (Session * InitialMessage) :=
  InitiateSession k_alice bob_bundle (Some k_eph) (Some k_rat).
Definition chat : list (bytes * list bytes) :=
  [(k_next 0, [lit "hello"; lit "are you there?"]); (k_next 1, [lit "yes"]); (k_next 2, [lit "good"])].


(** The stream of messages of a chain. *)
Definition chain_msgs (ck ad dh : bytes) (p : nat → bytes) (n : nat) : Header * bytes :=
  let h := mkHeader dh 0 (Z.of_nat n) in
  (h, match sealMessage (msg_key ck n) (p n) ad h with Ok c => c | _ => [] end).
Lemma chain_msgs_sent ck ad dh p : sent_on ck ad dh 0 p (chain_msgs ck ad dh p).
Proof.
  intros n. split; [done|]. unfold chain_msgs, sealMessage, deriveMessageKeyMaterial. cbn [fst snd].
  destruct (hkdf_some (msg_key ck n) [] messageKeyInfo 44) as [out ->]; [lia|]. done.
Qed.

Lemma new_chain_any_order_witness :
  ∃ sa sb init ck, handshake = Ok (sa, init) ∧ RespondToSession k_bob k_spk (Some k_otpk) init = Ok sb ∧
    (deliver_all sb (Some (k_next 0)) (chain_msgs ck (AD sa) (x_pub k_rat) (λ n, [Z.of_nat n])) [2; 0; 2; 1]%nat).2
    = [Ok [2]; Ok [0]; Err ErrDuplicateMessage; Ok [1]].
Proof.
  destruct (is_ok_ex handshake) as [[sa init] H]; [vm_compute; reflexivity|].
  destruct (x3dh_agreement k_alice k_bob k_spk (Some k_otpk) k_eph k_rat 7 (Some 9) sa init H)
    as (sb & ck & Hb & Ht & _ & _ & Hnr & _ & _ & Ha & Hsk); [split; intros _; eexists; reflexivity|].
  exists sa, sb, init, ck. split; [exact H|]. split; [exact Hb|].
  refine (eq_trans (new_chain_any_order sa sb k_rat k_spk ck (k_next 0) 0 (λ n, [Z.of_nat n])
    (chain_msgs ck (AD sa) (x_pub k_rat) (λ n, [Z.of_nat n])) [2; 0; 2; 1]%nat 3 Ht _ _ _ _ _ _ _ _) _).
  - rewrite Hnr. lia.
  - lia.
  - rewrite Hsk, map_size_empty. lia.
  - eexists. reflexivity.
  - by vm_compute.
  - intros m. by rewrite Ha.
  - apply chain_msgs_sent.
  - repeat constructor; lia.
  - vm_compute. reflexivity.
Defined.

(** ** Evicting, bounding, persisting *)

Definition held : gmap skippedKey skippedValue :=
  list_to_map [((k_bob, 0), mkSkipped [1] 5); ((k_bob, 1), mkSkipped [2] 3); ((k_spk, 0), mkSkipped [3] 4)].

Lemma evict_oldest_witness :
  map_to_list (evictOldestSkipped held 1) ≡ₚ [((k_bob, 0), mkSkipped [1] 5); ((k_spk, 0), mkSkipped [3] 4)] ∧
  size (evictOldestSkipped held 1) = 2%nat.
Proof.
  split; [|refine (eq_trans (proj1 (evict_oldest held 1 _)) _); [lia|vm_compute; reflexivity]].
  by vm_compute; first [reflexivity|constructor].
Defined.

(** A receiver that holds keys, and a forged message on top. *)
Definition bob_holding : Session :=
  mkSession RoleResponder [9] (Some k_bob) (Some k_spk) [7] (Some [1]) (Some [2]) 3 2 1 held 6.
Lemma bob_holding_buffered : buffered bob_holding.
Proof.
  constructor; [by vm_compute|]. intros k v Hk%elem_of_map_to_list.
  assert (Forall (λ x, 0 ≤ sk_seq x.2 < 6) (map_to_list (Skipped bob_holding))) as HF.
  { vm_compute map_to_list. repeat constructor; simpl; lia. }
  rewrite Forall_forall in HF. by apply (HF (k, v)).
Qed.

Lemma buffer_bounded_witness :
  buffered (receive_all bob_holding [(mkHeader k_spk 0 1000, [], None); (mkHeader k_eph 7 3, [1], Some k_rat)]).
Proof. apply buffer_bounded; [apply bob_holding_buffered|vm_compute; discriminate|vm_compute; reflexivity]. Defined.

Lemma session_roundtrip_witness :
  ∃ seq, fromJSON zero_session (toJSON_in bob_holding (map_to_list held))
    = Ok (mkSession RoleResponder [9] (Some k_bob) (Some k_spk) [7] (Some [1]) (Some [2]) 3 2 1 held seq).
Proof.
  destruct (session_roundtrip bob_holding (map_to_list held)) as (seq & E & _).
  - constructor; simpl; try discriminate; intros k [= <-]; reflexivity.
  - apply bob_holding_buffered.
  - reflexivity.
  - discriminate.
  - reflexivity.
  - exists seq. exact E.
Defined.

(** A redelivery that crosses a ratchet step is not recognised as a duplicate: the
    first message of the conversation, delivered again after the next exchange,
    comes back as an authentication failure. *)
Definition replay_after_turn : res Error bytes :=
  '(sa, init) ← handshake;
  sb ← RespondToSession k_bob k_spk (Some k_otpk) init;
  let '(sa, m1) := Encrypt sa (lit "one") in
  m1 ← m1; let '(sb, _) := Decrypt sb m1.1 m1.2 (Some (k_next 0)) in
  let '(sb, m2) := Encrypt sb (lit "two") in
  m2 ← m2; let '(sa, _) := Decrypt sa m2.1 m2.2 (Some (k_next 1)) in
  let '(sa, m3) := Encrypt sa (lit "three") in
  m3 ← m3; let '(sb, r3) := Decrypt sb m3.1 m3.2 (Some (k_next 2)) in
  _ ← r3; (Decrypt sb m1.1 m1.2 (Some (k_next 3))).2.
Example replay_across_turn : replay_after_turn = Err ErrAuthentication ∧ SuggestsDesync (Some ErrAuthentication) = true.
Proof. split; vm_compute; reflexivity. Qed.
