(* ===== verification/GoTimeParse.v ===== *)
(** * Reading RFC 3339 times back

    [time.Parse(time.RFC3339, s)] on the form [Format] writes: a four-digit year, a
    date that exists, a clock time and [Z].  The text columns of the database hold
    nothing else.  The second half reads every form of RFC 3339, with the fractions of a
    second and the offsets that clients may send. *)

From S2P Require Import Prelude GoStr GoTime.

Definition days_from_civil (y m d : Z) : Z :=
  let y := if m <=? 2 then y - 1 else y in
  let mp := if m <=? 2 then m + 9 else m - 3 in
  let yoe := y mod 400 in
  let doy := (153 * mp + 2) / 5 + d - 1 in
  (y / 400) * 146097 + (365 * yoe + yoe / 4 - yoe / 100 + doy) - 719468.

Definition take_num (n : nat) (s : bytes) : option (Z * bytes) :=
  if Nat.leb n (length s) then v ← parse_digits 0 (take n s); Some (v, drop n s) else None.
Definition expect (c : Z) (s : bytes) : option bytes :=
  match s with b :: s => if b =? c then Some s else None | [] => None end.

Definition parse_rfc3339 (s : bytes) : option Time :=
  '(y, s) ← take_num 4 s; s ← expect 45 s;
  '(mo, s) ← take_num 2 s; s ← expect 45 s;
  '(d, s) ← take_num 2 s; s ← expect 84 s;
  '(h, s) ← take_num 2 s; s ← expect 58 s;
  '(mi, s) ← take_num 2 s; s ← expect 58 s;
  '(sec, s) ← take_num 2 s; s ← expect 90 s;
  let z := days_from_civil y mo d in
  if Nat.eqb (length s) 0 && in_range 1 12 mo && (civil_month z =? mo) && (civil_day z =? d)
     && (civil_year z =? y) && (h <? 24) && (mi <? 60) && (sec <? 60)
  then Some (mkTime (z * 86400 + h * 3600 + mi * 60 + sec + unix_to_internal) 0 None 0)
  else None.

Lemma days_from_civil_inv z : days_from_civil (civil_year z) (civil_month z) (civil_day z) = z.
Proof.
  pose proof (march_month_range z) as Hm. pose proof (civil_month_range z) as Hcm.
  assert ((if civil_month z <=? 2 then civil_year z - 1 else civil_year z) = march_year z) as Hy.
  { unfold civil_year. destruct (civil_month z <=? 2); lia. }
  assert ((if civil_month z <=? 2 then civil_month z + 9 else civil_month z - 3) = march_month z) as Hmm.
  { unfold civil_month in *. destruct (Z.ltb_spec (march_month z) 10); case_match; bool_prop; lia. }
  unfold days_from_civil. rewrite Hy, Hmm. unfold civil_day, march_year.
  pose proof (Z.mod_pos_bound (z + 719468) 146097 ltac:(lia)) as Hd. fold (day_of_era z) in Hd.
  destruct (year_of_era_spec _ Hd) as [Hyoe _]. unfold day_of_year.
  set (yoe := year_of_era (day_of_era z)) in *.
  assert ((yoe + era_of z * 400) mod 400 = yoe) as -> by (rewrite Z_mod_plus_full, Z.mod_small; lia).
  assert ((yoe + era_of z * 400) / 400 = era_of z) as -> by (rewrite Z.div_add, Z.div_small; lia).
  pose proof (Z.div_mod (z + 719468) 146097 ltac:(lia)) as E. fold (day_of_era z) (era_of z) in E. lia.
Qed.

Lemma take_num_digits n x s :
  0 ≤ x < 10 ^ Z.of_nat n → take_num n (digits n x ++ s) = Some (x, s).
Proof.
  intros Hx. unfold take_num. rewrite (proj2 (Nat.leb_le _ _)) by (rewrite length_app, length_digits; lia).
  pose proof (length_digits n x) as Hl.
  replace (take n (digits n x ++ s)) with (digits n x) by (rewrite <- Hl at 2; by rewrite take_app_length).
  replace (drop n (digits n x ++ s)) with s by (rewrite <- Hl at 1; by rewrite drop_app_length).
  rewrite (parse_digits_value 0 (digits n x) (digits_range _ _)).
  rewrite dec_value_digits, Z.mod_small by done. simpl. do 2 f_equal. 
Qed.

(** Reading back what was written: the instant to the second, in UTC. *)
Lemma parse_rfc3339_format t :
  four_digit_year (unix_seconds t) → parse_rfc3339 (rfc3339 t) = Some (mkTime (t_sec t) 0 None 0).
Proof.
  intros Hy. unfold rfc3339. rewrite rfc3339_split. unfold rfc3339_tail, four_digit_year in *.
  set (s := unix_seconds t) in *. set (z := s / 86400) in *.
  pose proof (civil_month_range z) as Hmo. pose proof (civil_day_range z) as Hd.
  pose proof (clock_ranges s) as Hc. cbv zeta in Hc. set (r := s mod 86400) in *. destruct Hc as (Hh & Hmi & Hs).
  rewrite append_int_small by (change (10 ^ Z.of_nat 4) with 10000; lia).
  unfold parse_rfc3339. rewrite take_num_digits by (change (10 ^ Z.of_nat 4) with 10000; lia).
  cbn [mbind option_bind app expect]. rewrite Z.eqb_refl. cbn [mbind option_bind].
  do 5 (rewrite take_num_digits by (change (10 ^ Z.of_nat 2) with 100; lia);
        cbn [mbind option_bind app expect]; rewrite Z.eqb_refl; cbn [mbind option_bind]).
  rewrite days_from_civil_inv, !Z.eqb_refl. unfold in_range.
  rewrite !(proj2 (Z.leb_le _ _)), !(proj2 (Z.ltb_lt _ _)) by lia. simpl. do 2 f_equal.
  unfold s, unix_seconds, z, r in *. pose proof (Z.div_mod s 86400 ltac:(lia)).
  fold s. unfold unix_seconds in s. subst s. Z.to_euclidean_division_equations. lia.
Qed.

(** ** [time.Parse] of RFC 3339 in full, and the nanosecond form

    [time.Parse] with [time.RFC3339] and with [time.RFC3339Nano] accept the same texts:
    an hour of one or two digits, a fraction of any length after a point or a comma, [Z]
    or a numeric offset.  [Format(time.RFC3339Nano)] drops the trailing zeros of the
    fraction.  What it writes reads back to the nanosecond. *)

Definition is_digit (c : Z) : bool := in_range 48 57 c.

(** [getnum]: two digits, or one where the layout allows it. *)
Definition getnum (fixed : bool) (s : bytes) : option (Z * bytes) :=
  match s with
  | a :: b :: s' =>
    if negb (is_digit a) then None
    else if is_digit b then Some ((a - 48) * 10 + (b - 48), s')
    else if fixed then None else Some (a - 48, b :: s')
  | [a] => if negb (is_digit a) || fixed then None else Some (a - 48, [])
  | [] => None
  end.

Fixpoint digit_run (s : bytes) : bytes * bytes :=
  match s with
  | c :: s' => if is_digit c then let '(d, r) := digit_run s' in (c :: d, r) else ([], s)
  | [] => ([], [])
  end.

(** At most nine digits of a fraction count. *)
Definition nanoseconds (ds : bytes) : Z :=
  let ds := take 9 ds in dec_value ds * 10 ^ (9 - zlen ds).

Definition parse_fraction (s : bytes) : Z * bytes :=
  match s with
  | p :: s' =>
    if (p =? 46) || (p =? 44) then
      let '(ds, rest) := digit_run s' in if zlen ds =? 0 then (0, s) else (nanoseconds ds, rest)
    else (0, s)
  | [] => (0, [])
  end.

(** [Z07:00]: the offset in seconds, and whether it was [Z]. *)
Definition parse_zone (s : bytes) : option (Z * bool * bytes) :=
  match s with
  | 90 :: s' => Some (0, true, s')
  | sign :: s' =>
    '(hr, s') ← getnum true s'; s' ← expect 58 s'; '(mm, s') ← getnum true s';
    if (24 <? hr) || (60 <? mm) then None
    else if sign =? 43 then Some ((hr * 60 + mm) * 60, false, s')
    else if sign =? 45 then Some (- ((hr * 60 + mm) * 60), false, s')
    else None
  | [] => None
  end.

Definition time_parse (s : bytes) : option Time :=
  '(y, s) ← take_num 4 s; s ← expect 45 s;
  '(mo, s) ← getnum true s; s ← expect 45 s;
  '(d, s) ← getnum true s; s ← expect 84 s;
  '(h, s) ← getnum false s; s ← expect 58 s;
  '(mi, s) ← getnum true s; s ← expect 58 s;
  '(sec, s) ← getnum true s;
  let '(ns, s) := parse_fraction s in
  '(off, z, s) ← parse_zone s;
  let days := days_from_civil y mo d in
  if Nat.eqb (length s) 0 && in_range 1 12 mo && (civil_month days =? mo) && (civil_day days =? d)
     && (civil_year days =? y) && (h <? 24) && (mi <? 60) && (sec <? 60)
  then Some (mkTime (days * 86400 + h * 3600 + mi * 60 + sec - off + unix_to_internal) ns None (if (z : bool) then 0 else 2))
  else None.

(** [t.UTC().Format(time.RFC3339Nano)]. *)
Definition rfc3339_body (s : Z) : bytes :=
  let z := s / 86400 in
  let r := s mod 86400 in
  append_int (civil_year z) 4 ++ [45] ++ append_int (civil_month z) 2 ++ [45] ++
  append_int (civil_day z) 2 ++ [84] ++ append_int (r / 3600) 2 ++ [58] ++
  append_int (r mod 3600 / 60) 2 ++ [58] ++ append_int (r mod 60) 2.
Fixpoint trim_zeros (s : bytes) : bytes :=
  match s with
  | [] => []
  | c :: s' => match trim_zeros s' with [] => if c =? 48 then [] else [c] | t => c :: t end
  end.
Definition fraction (ns : Z) : bytes :=
  if ns =? 0 then [] else 46 :: trim_zeros (digits 9 ns).
Definition rfc3339_nano (t : Time) : bytes := rfc3339_body (unix_seconds t) ++ fraction (t_nsec t) ++ [90].

Lemma rfc3339_body_whole t : rfc3339 t = rfc3339_body (unix_seconds t) ++ [90].
Proof. unfold rfc3339, rfc3339_of_unix, rfc3339_body. by rewrite <- !(assoc_L app). Qed.

(** ** Reading the nanosecond form back *)

Lemma is_digit_true c : 48 ≤ c < 58 → is_digit c = true.
Proof. intros H. unfold is_digit, in_range. rewrite andb_true_iff, !Z.leb_le. lia. Qed.

Lemma getnum_digits fixed x s : 0 ≤ x < 100 → getnum fixed (digits 2 x ++ s) = Some (x, s).
Proof.
  intros Hx. cbn [digits app Z.of_nat]. change (10 ^ Z.of_nat 1) with 10. change (10 ^ Z.of_nat 0) with 1.
  cbn [getnum]. rewrite !is_digit_true by (Z.to_euclidean_division_equations; lia). cbn [negb].
  do 2 f_equal. Z.to_euclidean_division_equations. lia.
Qed.

Lemma trim_zeros_value s : Forall (λ c, 48 ≤ c < 58) s →
  Forall (λ c, 48 ≤ c < 58) (trim_zeros s) ∧ (length (trim_zeros s) ≤ length s)%nat
  ∧ dec_value s = dec_value (trim_zeros s) * 10 ^ (zlen s - zlen (trim_zeros s)).
Proof.
  induction 1 as [|c s Hc Hs (IHr & IHl & IHv)]; [split; [constructor|done]|]. simpl.
  unfold zlen in *. destruct (trim_zeros s) as [|d t] eqn:E; simpl in *.
  - destruct (Z.eqb_spec c 48) as [->|Hne].
    + split; [constructor|]. split; [simpl; lia|]. rewrite IHv. simpl. lia.
    + split; [constructor; [done|constructor]|]. split; [simpl; lia|]. rewrite IHv. cbn [dec_value length].
      replace (Z.of_nat (S (length s)) - Z.of_nat 1) with (Z.of_nat (length s)) by lia. lia.
  - split; [by constructor|]. split; [lia|]. rewrite IHv.
    replace (Z.of_nat (S (length s)) - Z.of_nat (S (S (length t)))) with (Z.of_nat (length s) - Z.of_nat (S (length t))) by lia.
    assert (10 ^ Z.of_nat (length s) = 10 ^ Z.of_nat (S (length t)) * 10 ^ (Z.of_nat (length s) - Z.of_nat (S (length t)))) as ->.
    { rewrite <- Z.pow_add_r by lia. f_equal. lia. }
    lia.
Qed.

Lemma digit_run_digits ds s : Forall (λ c, 48 ≤ c < 58) ds → match s with c :: _ => is_digit c = false | [] => True end →
  digit_run (ds ++ s) = (ds, s).
Proof.
  intros H Hs. induction H as [|c ds Hc Hds IH]; simpl.
  - destruct s as [|c s]; [done|]. simpl. by rewrite Hs.
  - by rewrite is_digit_true, IH by done.
Qed.

Lemma parse_fraction_fraction ns : 0 ≤ ns < second → parse_fraction (fraction ns ++ [90]) = (ns, [90]).
Proof.
  intros Hns. unfold fraction, second in *. destruct (Z.eqb_spec ns 0) as [->|Hne]; [done|].
  cbn [app parse_fraction]. change ((46 =? 46) || (46 =? 44)) with true. cbv iota.
  destruct (trim_zeros_value (digits 9 ns) (digits_range 9 ns)) as (Hr & Hl & Hv).
  rewrite digit_run_digits by done. rewrite dec_value_digits, Z.mod_small in Hv by (change (10 ^ Z.of_nat 9) with 1000000000; lia).
  rewrite length_digits in Hl. unfold zlen in *. rewrite length_digits in Hv.
  set (ds := trim_zeros (digits 9 ns)) in *. clearbody ds.
  destruct (Z.eqb_spec (Z.of_nat (length ds)) 0) as [E|E].
  { destruct ds; [cbn [dec_value] in Hv; lia|cbn [length] in E; lia]. }
  unfold nanoseconds. rewrite take_ge by lia. unfold zlen. do 2 f_equal. rewrite Hv. do 2 f_equal.
Qed.

(** Any fraction that reads as [ns], between the seconds and the [Z]. *)
Lemma time_parse_body s frac ns : four_digit_year s → parse_fraction (frac ++ [90]) = (ns, [90]) →
  time_parse (rfc3339_body s ++ frac ++ [90]) = Some (mkTime (s + unix_to_internal) ns None 0).
Proof.
  intros Hy Hfrac. unfold rfc3339_body, four_digit_year in *. set (z := s / 86400) in *.
  pose proof (civil_month_range z) as Hmo. pose proof (civil_day_range z) as Hd.
  pose proof (clock_ranges s) as Hc. cbv zeta in Hc. set (r := s mod 86400) in *. destruct Hc as (Hh & Hmi & Hs).
  rewrite !append_int_small by (change (10 ^ Z.of_nat 4) with 10000; change (10 ^ Z.of_nat 2) with 100; lia).
  rewrite <- !(assoc_L app). unfold time_parse.
  rewrite take_num_digits by (change (10 ^ Z.of_nat 4) with 10000; lia).
  cbn [mbind option_bind app expect]. rewrite Z.eqb_refl. cbn [mbind option_bind].
  do 4 (rewrite getnum_digits by lia; cbn [mbind option_bind app expect]; rewrite Z.eqb_refl; cbn [mbind option_bind]).
  rewrite getnum_digits by lia. cbn [mbind option_bind]. rewrite Hfrac.
  cbn [parse_zone mbind option_bind]. rewrite days_from_civil_inv, !Z.eqb_refl. unfold in_range.
  rewrite !(proj2 (Z.leb_le _ _)), !(proj2 (Z.ltb_lt _ _)) by lia. simpl. do 2 f_equal.
  subst z r. pose proof (Z.div_mod s 86400 ltac:(lia)). Z.to_euclidean_division_equations. lia.
Qed.

Lemma time_parse_nano t :
  four_digit_year (unix_seconds t) → 0 ≤ t_nsec t < second →
  time_parse (rfc3339_nano t) = Some (mkTime (t_sec t) (t_nsec t) None 0).
Proof.
  intros Hy Hns. unfold rfc3339_nano. rewrite (time_parse_body _ _ (t_nsec t)) by (done || by apply parse_fraction_fraction).
  do 2 f_equal. unfold unix_seconds. lia.
Qed.
