(* ===== verification/Base64.v ===== *)
(** * encoding/base64

    [base64.StdEncoding] as the sources use it: the padded alphabet with [+] and
    [/], decoding that skips carriage returns and newlines and does not look at the
    unused low bits of the last symbol. *)

From S2P Require Import Prelude GoStr.

Definition b64_alphabet : bytes := lit "ABCDEFGHIJKLMNOPQRSTUVWXYZabcdefghijklmnopqrstuvwxyz0123456789+/".
Definition b64_char (d : Z) : Z := default 0 (b64_alphabet !! Z.to_nat d).
Definition b64_val (c : Z) : option Z := index_of c b64_alphabet.
Definition b64_pad : Z := 61.

(** [EncodeToString]: three bytes to four symbols, the last group padded. *)
Fixpoint b64_encode (s : bytes) : bytes :=
  match s with
  | [] => []
  | [a] => let v := a * 16 in [b64_char (v / 64); b64_char (v mod 64); b64_pad; b64_pad]
  | [a; b] => let v := (a * 256 + b) * 4 in
    [b64_char (v / 4096); b64_char (v / 64 mod 64); b64_char (v mod 64); b64_pad]
  | a :: b :: c :: s =>
    let v := (a * 256 + b) * 256 + c in
    b64_char (v / 262144) :: b64_char (v / 4096 mod 64) :: b64_char (v / 64 mod 64) :: b64_char (v mod 64)
      :: b64_encode s
  end.

(** [DecodeString], [None] standing for [CorruptInputError]. *)
Fixpoint b64_quanta (s : bytes) : option bytes :=
  match s with
  | [] => Some []
  | a :: b :: c :: d :: s =>
    x ← b64_val a; y ← b64_val b;
    if c =? b64_pad then
      if (d =? b64_pad) && Nat.eqb (length s) 0 then Some [(x * 64 + y) / 16] else None
    else
      z ← b64_val c;
      if d =? b64_pad then
        let v := (x * 64 + y) * 64 + z in
        if Nat.eqb (length s) 0 then Some [v / 1024; v / 4 mod 256] else None
      else
        w ← b64_val d;
        let v := ((x * 64 + y) * 64 + z) * 64 + w in
        r ← b64_quanta s;
        Some (v / 65536 :: v / 256 mod 256 :: v mod 256 :: r)
  | _ => None
  end.
Definition is_newline (c : Z) : bool := (c =? 10) || (c =? 13).
Definition b64_decode (s : bytes) : option bytes := b64_quanta (filter (λ c, is_newline c = false) s).

Definition symbol_ok (d : Z) : bool :=
  (b64_val (b64_char d) =?b Some d) && negb (b64_char d =? b64_pad) && negb (is_newline (b64_char d)).
Lemma b64_symbols : forallb symbol_ok (seqZ 0 64) = true.
Proof. vm_compute. reflexivity. Qed.

Lemma b64_symbol d : 0 ≤ d < 64 →
  b64_val (b64_char d) = Some d ∧ (b64_char d =? b64_pad) = false ∧ is_newline (b64_char d) = false.
Proof.
  intros Hd. pose proof (proj1 (forallb_forall _ _) b64_symbols d) as H. unfold symbol_ok in H.
  rewrite !andb_true_iff, !negb_true_iff, eqb_true in H. destruct H as [[? ?] ?]; [|done].
  apply list_elem_of_In, elem_of_seqZ. lia.
Qed.

(** Splitting into symbols and putting them together again. *)
Lemma div_mod_64 v : v / 64 * 64 + v mod 64 = v.
Proof. pose proof (Z.div_mod v 64). lia. Qed.
Lemma recompose3 v : (v / 4096 * 64 + v / 64 mod 64) * 64 + v mod 64 = v.
Proof. replace (v / 4096) with (v / 64 / 64) by (rewrite Z.div_div; [done|lia|lia]). by rewrite !div_mod_64. Qed.
Lemma recompose4 v : ((v / 262144 * 64 + v / 4096 mod 64) * 64 + v / 64 mod 64) * 64 + v mod 64 = v.
Proof.
  replace (v / 262144) with (v / 64 / 4096) by (rewrite Z.div_div; [done|lia|lia]).
  replace (v / 4096) with (v / 64 / 64) by (rewrite Z.div_div; [done|lia|lia]). by rewrite recompose3, div_mod_64.
Qed.

Lemma list_ind3 {A} (P : list A → Prop) :
  P [] → (∀ a, P [a]) → (∀ a b, P [a; b]) → (∀ a b c l, P l → P (a :: b :: c :: l)) → ∀ l, P l.
Proof.
  intros H0 H1 H2 H3. fix IH 1. intros [|a [|b [|c l]]]; [apply H0|apply H1|apply H2|apply H3, IH].
Qed.

Ltac b64_digit d :=
  let H := fresh in
  assert (0 ≤ d < 64) as H by (unfold is_byte in *; Z.to_euclidean_division_equations; lia);
  apply b64_symbol in H as (? & ? & ?).

Ltac b64_rewrite :=
  repeat match goal with
         | E : b64_val _ = Some _ |- _ => rewrite E; clear E
         | E : (_ =? b64_pad) = _ |- _ => rewrite E; clear E
         end; cbn [mbind option_bind].

Lemma b64_quanta_encode s : is_bytes s →
  b64_quanta (b64_encode s) = Some s ∧ Forall (λ c, is_newline c = false) (b64_encode s).
Proof.
  induction s as [|a|a b|a b c s IH] using list_ind3; unfold is_bytes in *; intros Hs; [done|..].
  - rewrite Forall_singleton in Hs. cbn [b64_encode]. cbv zeta. b64_digit (a * 16 / 64). b64_digit (a * 16 mod 64).
    split; [|by repeat constructor]. cbn [b64_quanta]. b64_rewrite. simpl. rewrite div_mod_64. do 2 f_equal.
    unfold is_byte in *; Z.to_euclidean_division_equations; lia.
  - rewrite Forall_cons, Forall_singleton in Hs. destruct Hs as [Ha Hb]. cbn [b64_encode]. cbv zeta.
    remember ((a * 256 + b) * 4) as v eqn:Hv. b64_digit (v / 4096). b64_digit (v / 64 mod 64). b64_digit (v mod 64).
    split; [|by repeat constructor]. cbn [b64_quanta].
    b64_rewrite.
    simpl. rewrite recompose3. unfold is_byte in *. do 2 f_equal; [|f_equal]; Z.to_euclidean_division_equations; lia.
  - rewrite !Forall_cons in Hs. destruct Hs as (Ha & Hb & Hc & Hs). destruct (IH Hs) as [IH1 IH2].
    cbn [b64_encode]. cbv zeta. remember ((a * 256 + b) * 256 + c) as v eqn:Hv.
    b64_digit (v / 262144). b64_digit (v / 4096 mod 64). b64_digit (v / 64 mod 64). b64_digit (v mod 64).
    split; [|by repeat constructor]. cbn [b64_quanta].
    b64_rewrite.
    rewrite IH1. cbn [mbind option_bind]. rewrite recompose4. unfold is_byte in *.
    repeat match goal with |- Some _ = _ => f_equal | |- _ :: _ = _ => f_equal end;
      Z.to_euclidean_division_equations; lia.
Qed.

Lemma b64_decode_encode s : is_bytes s → b64_decode (b64_encode s) = Some s.
Proof.
  intros Hs. destruct (b64_quanta_encode s Hs) as [E F]. unfold b64_decode.
  by rewrite filter_all.
Qed.

(** What decodes is bytes. *)
Lemma list_ind4 {A} (P : list A → Prop) :
  P [] → (∀ a, P [a]) → (∀ a b, P [a; b]) → (∀ a b c, P [a; b; c]) → (∀ a b c d l, P l → P (a :: b :: c :: d :: l)) → ∀ l, P l.
Proof.
  intros H0 H1 H2 H3 H4. fix IH 1. intros [|a [|b [|c [|d l]]]]; [apply H0|apply H1|apply H2|apply H3|apply H4, IH].
Qed.
Lemma index_of_range c s v : index_of c s = Some v → 0 ≤ v < zlen s.
Proof.
  unfold zlen. revert v. induction s as [|x s IH]; intros v H; [done|]. cbn [index_of length] in *.
  destruct (x =? c); [injection H as <-; lia|]. destruct (index_of c s) as [w|]; [|done]. injection H as <-.
  specialize (IH w eq_refl). lia.
Qed.
Lemma b64_val_range c v : b64_val c = Some v → 0 ≤ v < 64.
Proof. intros H%index_of_range. by change (zlen b64_alphabet) with 64 in H. Qed.
Lemma b64_quanta_bytes s r : b64_quanta s = Some r → is_bytes r.
Proof.
  revert r. induction s as [| | | |a b c d s IH] using list_ind4; intros r H; try done; [by injection H as <-; constructor|].
  cbn [b64_quanta] in H. unfold is_bytes, is_byte in *.
  destruct (b64_val a) as [x|] eqn:Ea; [|done]. apply b64_val_range in Ea. cbn [mbind option_bind] in H.
  destruct (b64_val b) as [y|] eqn:Eb; [|done]. apply b64_val_range in Eb. cbn [mbind option_bind] in H.
  destruct (c =? b64_pad).
  { destruct (_ && _); [|done]. injection H as <-. constructor; [|constructor]. Z.to_euclidean_division_equations; lia. }
  destruct (b64_val c) as [z|] eqn:Ec; [|done]. apply b64_val_range in Ec. cbn [mbind option_bind] in H.
  destruct (d =? b64_pad).
  { destruct (Nat.eqb _ _); [|done]. injection H as <-. repeat constructor; Z.to_euclidean_division_equations; lia. }
  destruct (b64_val d) as [w|] eqn:Ed; [|done]. apply b64_val_range in Ed. cbn [mbind option_bind] in H.
  destruct (b64_quanta s) as [r'|]; [|done]. injection H as <-.
  repeat (constructor; [Z.to_euclidean_division_equations; lia|]). by apply IH.
Qed.
Lemma b64_decode_bytes s r : b64_decode s = Some r → is_bytes r.
Proof. apply b64_quanta_bytes. Qed.

Example b64_foobar : b64_encode (lit "fooba") = lit "Zm9vYmE=" ∧ b64_decode (lit "Zm9vYh==") = Some (lit "foob").
Proof. split; vm_compute; reflexivity. Qed.
