(* ===== verification/Attest.v ===== *)
(** * Server attestations (pkg/attest)

    A signed statement about a server's domain, and the token it travels as: the signed
    bytes with the signature behind them, in URL-safe base64 without padding. *)

From S2P Require Import Prelude GoStr GoTime Base64 Crypto Address.

(** ** base64.RawURLEncoding *)

Definition to_url (c : Z) : Z := if c =? 43 then 45 else if c =? 47 then 95 else c.
Definition of_url (c : Z) : option Z :=
  if c =? 45 then Some 43 else if c =? 95 then Some 47
  else if (c =? 43) || (c =? 47) || (c =? b64_pad) then None else Some c.
Definition rawurl_encode (s : bytes) : bytes := to_url <$> filter (λ c, (c =? b64_pad) = false) (b64_encode s).
(** The last group may be two or three symbols long. *)
Definition rawurl_decode (s : bytes) : option bytes :=
  t ← mapM of_url (filter (λ c, is_newline c = false) s);
  match (length t mod 4)%nat with
  | 1%nat => None
  | 2%nat => b64_quanta (t ++ [b64_pad; b64_pad])
  | 3%nat => b64_quanta (t ++ [b64_pad])
  | _ => b64_quanta t
  end.

(** ** Reading from a [bytes.Reader]: what is left of it *)

Definition read_full (n : Z) (r : bytes) : option (bytes * bytes) :=
  if zlen r <? n then None else Some (take (Z.to_nat n) r, drop (Z.to_nat n) r).
Definition readUint32 (r : bytes) : option (Z * bytes) := '(b, r) ← read_full 4 r; Some (be_value b, r).
Definition readLenPrefixed16 (r : bytes) : option (bytes * bytes) := '(l, r) ← read_full 2 r; read_full (be_value l) r.
Definition readLenPrefixed8 (r : bytes) : option (bytes * bytes) := '(l, r) ← read_full 1 r; read_full (be_value l) r.
Definition readUnixSeconds (r : bytes) : option (Time * bytes) := '(b, r) ← read_full 8 r; Some (time_unix (i64 (be_value b)), r).

Definition writeLenPrefixed16 (data : bytes) : bytes := be_bytes 2 (u16 (zlen data)) ++ data.
Definition writeLenPrefixed8 (data : bytes) : bytes := [u8 (zlen data)] ++ data.
Definition writeUint32 (v : Z) : bytes := be_bytes 4 v.
Definition writeUnixSeconds (t : Time) : bytes := be_bytes 8 (u64 (unix t)).

Module Attestation.
Definition Version1 : Z := 1.
Definition Version2 : Z := 2.
Definition CurrentVersion : Z := Version2.
Definition issuerKeySize : Z := ed25519_PublicKeySize.
Definition signatureSize : Z := ed25519_SignatureSize.
Definition maxDomainLen : Z := 2 ^ 16 - 1.
Definition maxTierLen : Z := 2 ^ 8 - 1.
Definition maxSubjectLen : Z := 2 ^ 16 - 1.

Record t := mk {
  Version : Z; Domain : bytes; Tier : bytes; Subject : bytes; Seats : Z;
  IssuedAt : Time; ExpiresAt : Time; IssuerKey : bytes; Signature : bytes;
}.

Definition signingBytes (a : t) : res string bytes :=
  if negb (Version a =? Version1) && negb (Version a =? Version2) then Err "attest: unsupported version"%string
  else if (zlen (Domain a) =? 0) || (maxDomainLen <? zlen (Domain a)) then Err "attest: domain length out of range"%string
  else if (zlen (Tier a) =? 0) || (maxTierLen <? zlen (Tier a)) then Err "attest: tier length out of range"%string
  else if maxSubjectLen <? zlen (Subject a) then Err "attest: subject length out of range"%string
  else if negb (zlen (IssuerKey a) =? issuerKeySize) then Err "attest: issuer key must be 32 bytes"%string
  else Ok ([u8 (Version a)] ++ writeLenPrefixed16 (Domain a) ++ writeLenPrefixed8 (Tier a) ++ writeLenPrefixed16 (Subject a)
           ++ (if Version2 <=? Version a then writeUint32 (Seats a) else [])
           ++ writeUnixSeconds (IssuedAt a) ++ writeUnixSeconds (ExpiresAt a) ++ IssuerKey a).

Definition Sign {UC : UnicodeCase} {ED : Ed25519} (domain tier subject : bytes) (seats : Z) (issuedAt expiresAt : Time) (issuerPriv : bytes) : res string t :=
  if negb (zlen issuerPriv =? ed25519_PrivateKeySize) then Err "attest: issuer private key must be 64 bytes"%string
  else
    let pub := ed25519_Public issuerPriv in
    let a := mk CurrentVersion (strings_ToLower (trim_space domain)) tier subject seats issuedAt expiresAt pub in
    buf ← signingBytes (a []);
    sig ← ed25519_Sign issuerPriv buf;
    Ok (a sig).

Definition Verify {ED : Ed25519} (a : t) (trustedIssuers : list bytes) : res string () :=
  buf ← signingBytes a;
  if negb (zlen (Signature a) =? signatureSize) then Err "attest: signature must be 64 bytes"%string
  else if negb (existsb (λ k, k =?b IssuerKey a) trustedIssuers) then Err "attest: issuer key is not in the trusted set"%string
  else
    ok ← ed25519_Verify (IssuerKey a) buf (Signature a);
    if negb ok then Err "attest: signature verification failed"%string else Ok ().

Definition Valid {UC : UnicodeCase} (a : t) (domain : bytes) (now : Time) : res string () :=
  if negb (equal_fold (Domain a) (trim_space domain)) then Err "attest: attestation is for another domain"%string
  else if before now (IssuedAt a) then Err "attest: attestation is not valid yet"%string
  else if negb (before now (ExpiresAt a)) then Err "attest: attestation expired"%string
  else Ok ().

Definition Encode (a : t) : res string bytes :=
  body ← signingBytes a;
  if negb (zlen (Signature a) =? signatureSize) then Err "attest: signature must be 64 bytes"%string
  else Ok (rawurl_encode (body ++ Signature a)).

(** [Decode] from the decoded bytes on. *)
Definition parse (raw : bytes) : res string t :=
  '(v, r) ← from_option (read_full 1 raw) "attest: truncated token (version)"%string;
  let version := be_value v in
  if negb (version =? Version1) && negb (version =? Version2) then Err "attest: unsupported version"%string
  else
    '(domain, r) ← from_option (readLenPrefixed16 r) "attest: truncated token (domain)"%string;
    '(tier, r) ← from_option (readLenPrefixed8 r) "attest: truncated token (tier)"%string;
    '(subject, r) ← from_option (readLenPrefixed16 r) "attest: truncated token (subject)"%string;
    '(seats, r) ← (if Version2 <=? version then from_option (readUint32 r) "attest: truncated token (seats)"%string else Ok (0, r));
    '(issuedAt, r) ← from_option (readUnixSeconds r) "attest: truncated token (issued_at)"%string;
    '(expiresAt, r) ← from_option (readUnixSeconds r) "attest: truncated token (expires_at)"%string;
    '(issuerKey, r) ← from_option (read_full issuerKeySize r) "attest: truncated token (issuer_key)"%string;
    '(signature, r) ← from_option (read_full signatureSize r) "attest: truncated token (signature)"%string;
    if negb (zlen r =? 0) then Err "attest: unexpected trailing bytes after signature"%string
    else Ok (mk version domain tier subject seats issuedAt expiresAt issuerKey signature).
Definition Decode (token : bytes) : res string t :=
  raw ← from_option (rawurl_decode (trim_space token)) "attest: invalid token encoding"%string;
  parse raw.
End Attestation.

(** ** trusted_issuers.go *)

Definition mustDecodeIssuerKey (b64 : string) : res string bytes :=
  match b64_decode (lit b64) with
  | Some raw => if zlen raw =? ed25519_PublicKeySize then Ok raw else Panic
  | None => Panic
  end.
Definition TrustedIssuers : res string (list bytes) :=
  mapM mustDecodeIssuerKey
    ["3DtD9hnvC14H1eelBgr4jITrN8HqPHZzGQxJfpEVUOc="; "QnjvdpMp7420B1xN9+G/Ej2wpZ7zH+t4bVOHk+Vg96s=";
     "i6d2Umn7X8uQIynzdspuMW2M8++E7vkU4A+tWqsY+zU="; "wKhG/0jcNmFoHLld0nTTeO7Nm+y3GqW0ofC6TTF6j2E=";
     "GR7iWl1naQcxxzGgvYHehxOFX8JM1FbFURdl9WKg3Zw="]%string.

(** ** The encoding *)

Definition url_symbol_ok (d : Z) : bool :=
  let c := to_url (b64_char d) in (of_url c =?b Some (b64_char d)) && negb (is_newline c) && in_range 0 127 c && negb (is_space c).
Lemma url_symbols : forallb url_symbol_ok (seqZ 0 64) = true.
Proof. vm_compute. reflexivity. Qed.
Definition symbol (c : Z) : Prop := ∃ d, 0 ≤ d < 64 ∧ c = b64_char d.
Lemma url_symbol c : symbol c → of_url (to_url c) = Some c ∧ is_newline (to_url c) = false ∧ 0 ≤ to_url c < 128 ∧ is_space (to_url c) = false.
Proof.
  intros (d & Hd & ->). pose proof (proj1 (forallb_forall _ _) url_symbols d) as H. unfold url_symbol_ok, in_range in H. rewrite !andb_true_iff, !negb_true_iff, eqb_true, !Z.leb_le in H.
  destruct H as [[[? ?] ?] ?]; [apply list_elem_of_In, elem_of_seqZ; lia|]. split_and!; (done || lia).
Qed.

(** The padded encoding is the symbols and then the padding. *)
Lemma b64_encode_pads s : is_bytes s → let t := filter (λ c, (c =? b64_pad) = false) (b64_encode s) in
  Forall symbol t ∧ ((length t mod 4 = 0)%nat ∧ b64_encode s = t ∨ (length t mod 4 = 2)%nat ∧ b64_encode s = t ++ [b64_pad; b64_pad] ∨
                     (length t mod 4 = 3)%nat ∧ b64_encode s = t ++ [b64_pad]).
Proof.
  assert (∀ d l, 0 ≤ d < 64 → filter (λ c, (c =? b64_pad) = false) (b64_char d :: l) = b64_char d :: filter (λ c, (c =? b64_pad) = false) l) as Hf.
  { intros d l Hd. rewrite filter_cons_True; [done|]. by apply b64_symbol. }
  assert (∀ d, 0 ≤ d < 64 → symbol (b64_char d)) as Hs by (intros d Hd; by exists d).
  induction s as [|a|a b|a b c s IH] using list_ind3; unfold is_bytes in *; intros Hb.
  - split; [constructor|]. by left.
  - rewrite Forall_singleton in Hb. cbn [b64_encode]. cbv zeta. unfold is_byte in Hb. rewrite !Hf by (Z.to_euclidean_division_equations; lia).
    split; [repeat constructor; apply Hs; Z.to_euclidean_division_equations; lia|]. right; left. done.
  - rewrite Forall_cons, Forall_singleton in Hb. cbn [b64_encode]. cbv zeta. unfold is_byte in Hb. rewrite !Hf by (Z.to_euclidean_division_equations; lia).
    split; [repeat constructor; apply Hs; Z.to_euclidean_division_equations; lia|]. right; right. done.
  - rewrite !Forall_cons in Hb. destruct Hb as (Ha & Hb & Hc & Hr). destruct (IH Hr) as [IHs IHl]. cbn [b64_encode]. cbv zeta. unfold is_byte in *.
    rewrite !Hf by (Z.to_euclidean_division_equations; lia). split; [repeat (constructor; [apply Hs; Z.to_euclidean_division_equations; lia|]); done|].
    assert (∀ n, (S (S (S (S n))) mod 4 = n mod 4)%nat) as Hm by (intros n; replace (S (S (S (S n)))) with (n + 1 * 4)%nat by lia; apply Nat.Div0.mod_add).
    cbn [length]. rewrite Hm. destruct IHl as [[? E]|[[? E]|[? E]]]; [left|right; left|right; right]; (split; [done|]); rewrite E at 1; done.
Qed.
Lemma rawurl_decode_encode s : is_bytes s → rawurl_decode (rawurl_encode s) = Some s.
Proof.
  intros Hs. destruct (b64_encode_pads s Hs) as [Ht Hl]. destruct (b64_quanta_encode s Hs) as [E _]. unfold rawurl_decode, rawurl_encode.
  revert Ht Hl. set (t := filter _ (b64_encode s)). intros Ht Hl. rewrite filter_all.
  2:{ apply Forall_fmap. eapply Forall_impl; [exact Ht|]. intros c Hc. by apply url_symbol. }
  assert (mapM of_url (to_url <$> t) = Some t) as ->.
  { apply mapM_Some, Forall2_fmap_l, Forall_Forall2_diag. eapply Forall_impl; [exact Ht|]. intros c Hc. by apply url_symbol. }
  cbn [mbind option_bind]. destruct Hl as [[-> <-]|[[-> <-]|[-> <-]]]; done.
Qed.
Lemma rawurl_trimmed s : is_bytes s → trim_space (rawurl_encode s) = rawurl_encode s.
Proof.
  intros Hs. destruct (b64_encode_pads s Hs) as [Ht _]. unfold rawurl_encode. revert Ht. set (t := filter _ (b64_encode s)). intros Ht.
  assert (∀ c, c ∈ to_url <$> t → 0 ≤ c < 128 ∧ is_space c = false) as H.
  { intros c (x & -> & Hx)%list_elem_of_fmap. rewrite Forall_forall in Ht. apply Ht, url_symbol in Hx. tauto. }
  apply trim_space_id; [apply Forall_forall; intros c Hc; by apply H|]. unfold untrimmed. apply andb_true_iff. split.
  - destruct (to_url <$> t) as [|c l]; [done|]. cbn. destruct (H c) as [_ ->]; [by left|done].
  - destruct (last (to_url <$> t)) as [c|] eqn:El; [|done]. apply last_Some_elem_of in El. cbn. by destruct (H c El) as [_ ->].
Qed.

(** ** Reading what was written *)

Lemma read_full_app x r n : zlen x = n → read_full n (x ++ r) = Some (x, r).
Proof.
  intros <-. unfold read_full, zlen. rewrite length_app. destruct (Z.ltb_spec (Z.of_nat (length x + length r)) (Z.of_nat (length x))); [lia|].
  rewrite Nat2Z.id, take_app_length, drop_app_length. done.
Qed.
Lemma read16 data r : is_bytes data → zlen data < 2 ^ 16 → readLenPrefixed16 (writeLenPrefixed16 data ++ r) = Some (data, r).
Proof.
  intros Hd Hl. unfold readLenPrefixed16, writeLenPrefixed16. rewrite <- app_assoc, (read_full_app (be_bytes 2 _)) by apply zlen_be_bytes. cbn [mbind option_bind].
  rewrite be_value_be_bytes. apply read_full_app. unfold u16. pose proof (zlen_nonneg data). change (2 ^ (8 * Z.of_nat 2)) with (2 ^ 16). rewrite Z.mod_mod, Z.mod_small by lia. done.
Qed.
Lemma read8 data r : is_bytes data → zlen data < 2 ^ 8 → readLenPrefixed8 (writeLenPrefixed8 data ++ r) = Some (data, r).
Proof.
  intros Hd Hl. unfold readLenPrefixed8, writeLenPrefixed8. rewrite <- app_assoc, (read_full_app [_]) by done. cbn [mbind option_bind].
  pose proof (zlen_nonneg data). unfold u8. rewrite Z.mod_small by lia. apply read_full_app. cbn [be_value length]. change (2 ^ (8 * Z.of_nat 0)) with 1. lia.
Qed.
Lemma read32 v r : readUint32 (writeUint32 v ++ r) = Some (u32 v, r).
Proof. unfold readUint32, writeUint32. rewrite (read_full_app (be_bytes 4 _)) by apply zlen_be_bytes. cbn [mbind option_bind]. by rewrite be_value_be_bytes. Qed.
Lemma i64_u64 z : i64 (u64 z) = i64 z.
Proof. unfold u64. apply i64_mod_eq. by rewrite Z.mod_mod. Qed.
Lemma unix_range t : i64 (unix t) = unix t.
Proof. apply i64_small. unfold unix. apply i64_range. Qed.
Lemma read_seconds t r : readUnixSeconds (writeUnixSeconds t ++ r) = Some (time_unix (unix t), r).
Proof.
  unfold readUnixSeconds, writeUnixSeconds. rewrite (read_full_app (be_bytes 8 _)) by apply zlen_be_bytes. cbn [mbind option_bind].
  rewrite be_value_be_bytes. change (2 ^ (8 * Z.of_nat 8)) with (2 ^ 64). fold (u64 (u64 (unix t))). by rewrite !i64_u64, unix_range.
Qed.

Module AttestationCorrect.
Import Attestation.
(** An attestation as it reads back: whole seconds, and seats only from version 2 on. *)
Definition canonical (a : t) : t :=
  mk (Version a) (Domain a) (Tier a) (Subject a) (if Version2 <=? Version a then u32 (Seats a) else 0)
     (time_unix (unix (IssuedAt a))) (time_unix (unix (ExpiresAt a))) (IssuerKey a) (Signature a).
Definition text_bytes (a : t) : Prop := is_bytes (Domain a) ∧ is_bytes (Tier a) ∧ is_bytes (Subject a).

Lemma signingBytes_Ok a buf : signingBytes a = Ok buf ↔
  (Version a = Version1 ∨ Version a = Version2) ∧ 0 < zlen (Domain a) ≤ maxDomainLen ∧ 0 < zlen (Tier a) ≤ maxTierLen ∧ zlen (Subject a) ≤ maxSubjectLen ∧
  zlen (IssuerKey a) = issuerKeySize ∧
  buf = [u8 (Version a)] ++ writeLenPrefixed16 (Domain a) ++ writeLenPrefixed8 (Tier a) ++ writeLenPrefixed16 (Subject a)
        ++ (if Version2 <=? Version a then writeUint32 (Seats a) else []) ++ writeUnixSeconds (IssuedAt a) ++ writeUnixSeconds (ExpiresAt a) ++ IssuerKey a.
Proof.
  unfold signingBytes. pose proof (zlen_nonneg (Domain a)). pose proof (zlen_nonneg (Tier a)).
  destruct (Z.eqb_spec (Version a) Version1), (Z.eqb_spec (Version a) Version2); cbn [negb andb];
    destruct (Z.eqb_spec (zlen (Domain a)) 0), (Z.ltb_spec maxDomainLen (zlen (Domain a))), (Z.eqb_spec (zlen (Tier a)) 0), (Z.ltb_spec maxTierLen (zlen (Tier a))),
      (Z.ltb_spec maxSubjectLen (zlen (Subject a))), (Z.eqb_spec (zlen (IssuerKey a)) issuerKeySize); cbn [negb orb];
    (split; [intros E; try discriminate; apply Ok_inj in E as <-; split_and!; (auto || lia)|intros (Hv & Hd & Ht & Hs & Hk & ->); (done || lia || tauto)]).
Qed.

Lemma parse_signed a buf : text_bytes a → signingBytes a = Ok buf → zlen (Signature a) = signatureSize → parse (buf ++ Signature a) = Ok (canonical a).
Proof.
  intros (Bd & Bt & Bs) (Hv & Hd & Ht & Hs & Hk & ->)%signingBytes_Ok Hsig. unfold maxDomainLen, maxTierLen, maxSubjectLen in *. unfold parse.
  rewrite <- !app_assoc. rewrite (read_full_app [_]) by done. cbn [from_option mbind res_bind].
  assert (be_value [u8 (Version a)] = Version a) as -> by (destruct Hv as [->| ->]; done).
  replace (negb (Version a =? Version1) && negb (Version a =? Version2)) with false by (destruct Hv as [->| ->]; done).
  rewrite read16 by (done || lia). cbn [from_option mbind res_bind]. rewrite read8 by (done || lia). cbn [from_option mbind res_bind].
  rewrite read16 by (done || lia). cbn [from_option mbind res_bind].
  assert (∀ r, (if Version2 <=? Version a then from_option (readUint32 ((if Version2 <=? Version a then writeUint32 (Seats a) else []) ++ r)) "attest: truncated token (seats)"%string
          else Ok (0, (if Version2 <=? Version a then writeUint32 (Seats a) else []) ++ r)) = Ok (if Version2 <=? Version a then u32 (Seats a) else 0, r)) as ->.
  { intros r. destruct (Version2 <=? Version a); [by rewrite read32|done]. }
  cbn [mbind res_bind]. rewrite !read_seconds. cbn [from_option mbind res_bind]. rewrite read_seconds. cbn [from_option mbind res_bind].
  rewrite read_full_app by done. cbn [from_option mbind res_bind]. rewrite <- (app_nil_r (Signature a)) at 1. rewrite read_full_app by done. done.
Qed.

(** The signed bytes determine what is signed, also across versions. *)
Lemma signed_bytes_determine a b buf : text_bytes a → text_bytes b → signingBytes a = Ok buf → signingBytes b = Ok buf →
  Version a = Version b ∧ Domain a = Domain b ∧ Tier a = Tier b ∧ Subject a = Subject b ∧ (Version a = Version2 → u32 (Seats a) = u32 (Seats b)) ∧
  unix (IssuedAt a) = unix (IssuedAt b) ∧ unix (ExpiresAt a) = unix (ExpiresAt b) ∧ IssuerKey a = IssuerKey b.
Proof.
  intros Ha Hb Ea Eb. set (sig := replicate 64 0). set (with_sig := λ c, mk (Version c) (Domain c) (Tier c) (Subject c) (Seats c) (IssuedAt c) (ExpiresAt c) (IssuerKey c) sig).
  assert (zlen sig = signatureSize) as Hl by done.
  pose proof (parse_signed (with_sig a) buf Ha Ea Hl) as Pa. pose proof (parse_signed (with_sig b) buf Hb Eb Hl) as Pb. cbn [with_sig Signature] in Pa, Pb. rewrite Pa in Pb.
  apply Ok_inj in Pb. unfold canonical in Pb. cbn in Pb. injection Pb as E1 E2 E3 E4 E5 E6 E7 E8.
  assert (∀ x y, i64 (unix x + unix_to_internal) = i64 (unix y + unix_to_internal) → unix x = unix y) as Hu.
  { intros x y E. rewrite <- (unix_range x), <- (unix_range y). replace (unix x) with (unix x + unix_to_internal - unix_to_internal) by lia.
    replace (unix y) with (unix y + unix_to_internal - unix_to_internal) by lia. apply i64_mod_eq.
    rewrite (Zminus_mod (unix x + _)), (Zminus_mod (unix y + _)), <- (i64_mod (unix x + _)), <- (i64_mod (unix y + _)). by rewrite E. }
  split_and!; [done..| |by apply Hu|by apply Hu|done]. intros Hv. rewrite <- E1, Hv in E5. done.
Qed.

Lemma trim_ascii s : is_ascii s → is_ascii (trim_space s).
Proof.
  intros Hs. unfold trim_space, range_str. rewrite range_from_ascii by done. set (l := imap _ s).
  assert (Forall (λ x : Z * Z * bytes, is_ascii x.2) l) as Hl.
  { apply Forall_forall. intros x Hx. apply elem_of_lookup_imap in Hx as (i & c & -> & Hc). cbn. constructor; [|constructor]. by apply (Forall_lookup_1 _ _ _ _ Hs Hc). }
  assert (∀ (p : Z * Z * bytes → bool) k, Forall (λ x, is_ascii x.2) k → Forall (λ x, is_ascii x.2) (drop_while p k)) as Hd.
  { intros p k. induction 1 as [|x k Hx Hk IH]; cbn [drop_while]; [constructor|]. destruct (p x); [done|by constructor]. }
  assert (Forall is_ascii (snd <$> reverse (drop_while (λ x : Z * Z * bytes, is_space x.1.2) (reverse (drop_while (λ x : Z * Z * bytes, is_space x.1.2) l))))) as H.
  { apply Forall_fmap. apply Forall_reverse. apply Hd, Forall_reverse, Hd, Hl. }
  revert H. generalize (snd <$> reverse (drop_while (λ x : Z * Z * bytes, is_space x.1.2) (reverse (drop_while (λ x : Z * Z * bytes, is_space x.1.2) l)))).
  intros ls H. induction H as [|x ls Hx _ IH]; [constructor|]. rewrite mjoin_cons. by apply Forall_app.
Qed.
Lemma ascii_is_bytes s : is_ascii s → is_bytes s.
Proof. intros H. eapply Forall_impl; [exact H|]. unfold is_byte. cbn. lia. Qed.

Section signed.
Context {UC : UnicodeCase} {ED : Ed25519}.
Lemma lower_ascii s : is_ascii s → is_ascii (strings_ToLower s).
Proof. intros H. rewrite strings_ToLower_ascii by done. apply Forall_fmap. eapply Forall_impl; [exact H|]. intros c Hc. by apply ascii_lower_range. Qed.
Lemma fold_lower s : is_ascii s → equal_fold (strings_ToLower s) s = true.
Proof.
  intros Hs. unfold equal_fold. rewrite !runes_ascii by (done || by apply lower_ascii). rewrite strings_ToLower_ascii by done.
  induction Hs as [|c s Hc _ IH]; [done|]. cbn [fmap list_fmap equal_fold_runes]. rewrite fold_eq_ascii by (done || by apply ascii_lower_range).
  assert (ascii_lower (ascii_lower c) = ascii_lower c) as ->.
  { unfold ascii_lower, in_range. destruct (Z.leb_spec 65 c), (Z.leb_spec c 90); cbn [andb]; [destruct (Z.leb_spec 65 (c + 32)), (Z.leb_spec (c + 32) 90); cbn [andb]; lia|..];
      destruct (Z.leb_spec 65 c), (Z.leb_spec c 90); cbn [andb]; (lia || done). }
  by rewrite Z.eqb_refl, orb_true_r.
Qed.

Lemma unix_time_unix s : - 2 ^ 63 ≤ s < 2 ^ 63 → unix (time_unix s) = s.
Proof.
  intros Hs. unfold unix, time_unix. cbn [t_sec]. rewrite <- (i64_small s Hs) at 2. apply i64_mod_eq.
  rewrite Zminus_mod, i64_mod, <- Zminus_mod. f_equal. lia.
Qed.
(** Whole seconds are signed as they are. *)
Lemma canonical_signingBytes a : signingBytes (canonical a) = signingBytes a.
Proof.
  assert (∀ t, writeUnixSeconds (time_unix (unix t)) = writeUnixSeconds t) as Hw.
  { intros t. unfold writeUnixSeconds. rewrite unix_time_unix; [done|]. rewrite <- unix_range. apply i64_range. }
  assert (∀ z, writeUint32 (u32 z) = writeUint32 z) as Hz.
  { intros z. unfold writeUint32, u32. rewrite (Z.div_mod z (2 ^ 32)) at 2 by lia. rewrite Z.mul_comm. symmetry. apply (be_bytes_add_high 4). }
  unfold signingBytes, canonical. cbn [Version Domain Tier Subject Seats IssuedAt ExpiresAt IssuerKey]. rewrite !Hw. destruct (Version2 <=? Version a); [by rewrite Hz|done].
Qed.
Lemma Verify_canonical a trusted : Verify (canonical a) trusted = Verify a trusted.
Proof. unfold Verify. by rewrite canonical_signingBytes. Qed.

(** An attestation reaches the clients it was issued for.  What [Sign] makes for a domain has a
    token; the token decodes to the same statement in whole seconds; whoever trusts the issuer
    verifies it; and for the domain it was issued for, in any case and with spaces around
    it, it is valid exactly within its window. *)
Theorem attestation_arrives domain tier subject seats issuedAt expiresAt priv pub a :
  key_pair priv pub → is_ascii domain → is_bytes tier → is_bytes subject → 0 ≤ seats < 2 ^ 32 →
  Sign domain tier subject seats issuedAt expiresAt priv = Ok a →
  ∃ token, Encode a = Ok token ∧ Decode token = Ok (canonical a) ∧ IssuerKey a = pub ∧ Seats (canonical a) = seats ∧
    (∀ trusted, pub ∈ trusted → Verify (canonical a) trusted = Ok ()) ∧
    (∀ now, Valid (canonical a) domain now = Ok () ↔
       before now (time_unix (unix issuedAt)) = false ∧ before now (time_unix (unix expiresAt)) = true).
Proof.
  intros Hk Hd Ht Hs Hseats H. unfold Sign in H. destruct (zlen priv =? ed25519_PrivateKeySize); [|done]. cbn [negb] in H. cbv zeta in H.
  apply bind_Ok in H as (buf & Hb & H). rewrite (Sign_Ok priv pub) in H by done. cbn [mbind res_bind] in H. apply Ok_inj in H.
  rewrite (key_pair_public _ _ Hk) in *. set (dom := strings_ToLower (trim_space domain)) in *.
  assert (text_bytes a) as Htx by (rewrite <- H; split_and!; [apply ascii_is_bytes, lower_ascii, trim_ascii, Hd|done|done]).
  assert (signingBytes a = Ok buf) as Hb' by (by rewrite <- H). assert (Signature a = ed_sign priv buf) as Hsig by (by rewrite <- H).
  assert (zlen (Signature a) = signatureSize) as Hl by (rewrite Hsig; apply ed_sign_length).
  assert (is_bytes (buf ++ Signature a)) as Hby.
  { apply Forall_app. split; [|rewrite Hsig; apply ed_sign_bytes]. apply signingBytes_Ok in Hb' as (_ & _ & _ & _ & _ & ->). destruct Htx as (? & ? & ?).
    unfold writeLenPrefixed16, writeLenPrefixed8, writeUint32, writeUnixSeconds. rewrite <- H. cbn [Version Domain Tier Subject IssuedAt ExpiresAt IssuerKey Seats].
    assert (is_bytes pub) as Hpub by (destruct Hk as (seed & _ & _ & ->); apply ed_pub_bytes). unfold u8.
    repeat (apply Forall_app; split); try apply be_bytes_is_bytes; try done; try (repeat constructor; apply Z.mod_pos_bound; lia).
    - by rewrite <- H in *. }
  exists (rawurl_encode (buf ++ Signature a)). split_and!.
  - unfold Encode. rewrite Hb'. cbn [mbind res_bind]. rewrite Hl, Z.eqb_refl. done.
  - unfold Decode. rewrite rawurl_trimmed, rawurl_decode_encode by done. cbn [from_option mbind res_bind]. by apply parse_signed.
  - by rewrite <- H.
  - rewrite <- H. unfold canonical, u32. cbn. rewrite Z.mod_small; lia.
  - intros trusted Hin. rewrite Verify_canonical. unfold Verify. rewrite Hb'. cbn [mbind res_bind]. rewrite Hl, Z.eqb_refl. cbn [negb].
    assert (IssuerKey a = pub) as -> by (by rewrite <- H).
    assert (existsb (λ k, k =?b pub) trusted = true) as -> by (apply existsb_exists; exists pub; split; [by apply list_elem_of_In|apply eqb_refl]).
    cbn [negb]. rewrite Hsig, (Verify_Sign priv pub) by done. done.
  - intros now. rewrite <- H. unfold Valid, canonical. cbn [Domain IssuedAt ExpiresAt]. unfold dom. rewrite fold_lower by (by apply trim_ascii). cbn [negb].
    destruct (before now (time_unix (unix issuedAt))), (before now (time_unix (unix expiresAt))); cbn [negb]; (split; [intros; by split|by intros []]).
Qed.
End signed.
End AttestationCorrect.

Lemma trusted_issuers_decode : match TrustedIssuers with Ok l => forallb (λ k, zlen k =? 32) l && (length (remove_dups l) =? 5)%nat | _ => false end = true.
Proof. vm_compute. reflexivity. Qed.
