(* ===== verification/HttpSig.v ===== *)
(** * pkg/httpsig: signed HTTP requests

    signature.go: the canonical string a request signs, the signature headers, the
    signature itself, and the clock-skew test on its timestamp. *)

From S2P Require Import Prelude GoStr GoTime Sha256 Crypto Base64.

Definition HeaderKeyID : bytes := lit "Signature-Key-Id".
Definition HeaderTimestamp : bytes := lit "Signature-Timestamp".
Definition HeaderNonce : bytes := lit "Signature-Nonce".
Definition HeaderSignature : bytes := lit "Signature".
Definition HeaderBodyDigest : bytes := lit "Blob-Digest".

(** What the sources use of [http.Request]; the header keys are in canonical MIME
    form, and [Body] is [None] when reading it fails. *)
Record Request := mkRequest {
  Method : bytes; URL_Path : bytes; URL_RawQuery : bytes;
  ReqHeader : gmap bytes (list bytes); Body : option bytes;
}.

(** [Header.Get]: the first value, or the empty string. *)
Definition Header_Get (r : Request) (key : bytes) : bytes :=
  match ReqHeader r !! key with Some (v :: _) => v | _ => [] end.

(** [strings.Join(l, sep)] *)
Fixpoint strings_Join (l : list bytes) (sep : bytes) : bytes :=
  match l with
  | [] => []
  | [x] => x
  | x :: l => x ++ sep ++ strings_Join l sep
  end.

Definition CanonicalStringWithBodyDigest (method path rawQuery timestamp nonce keyID bodyDigestHex : bytes) : bytes :=
  strings_Join [method; path; rawQuery; timestamp; nonce; keyID; bodyDigestHex] [10].

Definition CanonicalString (method path rawQuery timestamp nonce keyID body : bytes) : bytes :=
  CanonicalStringWithBodyDigest method path rawQuery timestamp nonce keyID (hex_encode (sha256 body)).

Record RequestSignatureHeaders := mkSigHeaders { KeyID : bytes; Timestamp : bytes; Nonce : bytes; Signature : bytes }.

Definition ParseRequestHeaders (r : Request) : res string RequestSignatureHeaders :=
  let h := mkSigHeaders (Header_Get r HeaderKeyID) (Header_Get r HeaderTimestamp)
             (Header_Get r HeaderNonce) (Header_Get r HeaderSignature) in
  if (KeyID h =?b []) || (Timestamp h =?b []) || (Nonce h =?b []) || (Signature h =?b [])
  then Err "auth: missing signature header"%string
  else Ok h.

Definition CanonicalStringFromRequest (r : Request) (h : RequestSignatureHeaders) (body : bytes) : bytes :=
  CanonicalString (Method r) (URL_Path r) (URL_RawQuery r) (Timestamp h) (Nonce h) (KeyID h) body.

Definition FormatTimestamp (t : Time) : bytes := format_int (unix t).

Definition ParseTimestamp (s : bytes) : res string Time :=
  sec ← from_option (parse_int s) "auth: invalid timestamp"%string;
  Ok (time_unix sec).

(** Negating a [Duration] wraps around. *)
Definition WithinSkew (ts now : Time) (maxSkew : Z) : bool :=
  let diff := time_sub now ts in
  let diff := if diff <? 0 then i64 (- diff) else diff in
  diff <=? maxSkew.

Section signatures.
Context {ED : Ed25519}.

Definition Sign (method path rawQuery body keyID : bytes) (timestamp : Time) (nonce priv : bytes) : res string bytes :=
  let canonical := CanonicalString method path rawQuery (FormatTimestamp timestamp) nonce keyID body in
  sig ← ed25519_Sign priv canonical;
  Ok (b64_encode sig).

Definition Verify (canonical signatureB64 pubKey : bytes) : res string () :=
  sig ← from_option (b64_decode signatureB64) "auth: decoding signature"%string;
  if negb (zlen sig =? ed25519_SignatureSize) then Err "auth: signature must be 64 bytes"%string
  else if negb (zlen pubKey =? ed25519_PublicKeySize) then Err "auth: public key must be 32 bytes"%string
  else
    ok ← ed25519_Verify pubKey canonical sig;
    if negb ok then Err "auth: signature verification failed"%string else Ok ().

(** No input makes [Verify] panic, whatever key or signature it is handed. *)
Lemma Verify_no_panic canonical sig pub : Verify canonical sig pub ≠ Panic.
Proof.
  unfold Verify. destruct (b64_decode sig) as [b|]; [|done]. cbn [mbind res_bind Prelude.from_option].
  destruct (zlen b =? _); [|done]. unfold ed25519_Verify. destruct (zlen pub =? _); [|done].
  cbn [negb mbind res_bind]. by destruct (negb _).
Qed.

Lemma Verify_Ok_inv canonical sig pub :
  Verify canonical sig pub = Ok () → ∃ raw, b64_decode sig = Some raw ∧ ed_verify pub canonical raw = true.
Proof.
  unfold Verify. destruct (b64_decode sig) as [b|] eqn:E; [|done]. cbn [mbind res_bind Prelude.from_option].
  destruct (zlen b =? _) eqn:E2; [|done]. unfold ed25519_Verify. destruct (zlen pub =? _); [|done].
  cbn [negb mbind res_bind]. rewrite E2. simpl. destruct (ed_verify pub canonical b) eqn:E3; [|done].
  intros _. by exists b.
Qed.

Lemma Sign_verifies priv pub canonical :
  key_pair priv pub → Verify canonical (b64_encode (ed_sign priv canonical)) pub = Ok ().
Proof.
  intros Hk. unfold Verify. rewrite b64_decode_encode by apply ed_sign_bytes.
  cbn [mbind res_bind Prelude.from_option]. rewrite ed_sign_length.
  destruct (key_pair_length _ _ Hk) as [_ ->]. simpl. rewrite (Verify_Sign priv) by done. done.
Qed.
End signatures.

(** ** The canonical string determines the request *)

Definition one_line (s : bytes) : Prop := 10 ∉ s.

Lemma line_first (x y r s : bytes) : one_line x → one_line y → x ++ 10 :: r = y ++ 10 :: s → x = y ∧ r = s.
Proof.
  unfold one_line. revert y. induction x as [|a x IH]; intros [|b y] Hx Hy E; simplify_eq/=.
  - done.
  - set_solver.
  - set_solver.
  - destruct (IH y) as [-> ->]; set_solver.
Qed.
Lemma line_last (x y r s : bytes) : one_line r → one_line s → x ++ 10 :: r = y ++ 10 :: s → x = y ∧ r = s.
Proof.
  intros Hr Hs E. apply (f_equal reverse) in E.
  rewrite !reverse_app, !reverse_cons, <- !(assoc_L (++)) in E. simpl in E.
  apply line_first in E as [E1 E2]; [|unfold one_line in *; by rewrite elem_of_reverse..].
  apply (f_equal reverse) in E1, E2. by rewrite !reverse_involutive in E1, E2.
Qed.

(** The canonical string binds the whole request: method, path, query, timestamp,
    nonce, device and body digest can all be read back from it, so a signature
    over one request never covers a different one -- even if the decoded path
    contains line breaks. *)
Theorem canonical_binds m p q t n k d m' p' q' t' n' k' d' :
  Forall one_line [m; q; t; n; k; d] → Forall one_line [m'; q'; t'; n'; k'; d'] →
  CanonicalStringWithBodyDigest m p q t n k d = CanonicalStringWithBodyDigest m' p' q' t' n' k' d' →
  m = m' ∧ p = p' ∧ q = q' ∧ t = t' ∧ n = n' ∧ k = k' ∧ d = d'.
Proof.
  rewrite !Forall_cons. intros (Hm & Hq & Ht & Hn & Hk & Hd & _) (Hm' & Hq' & Ht' & Hn' & Hk' & Hd' & _) E.
  unfold CanonicalStringWithBodyDigest in E. cbn [strings_Join app] in E.
  apply line_first in E as [<- E]; [|done..].
  assert (∀ (x y z : bytes) (c : Z), x ++ c :: y ++ c :: z = (x ++ c :: y) ++ c :: z) as A
    by (intros; by rewrite <- (assoc_L (++))).
  rewrite !A in E. do 5 (apply line_last in E as [E <-]; [|done..]). by subst.
Qed.

(** ** The clock-skew test *)

(** The skew test is what it says -- the two instants are at most [maxSkew] apart --
    up to a timestamp 2^63 nanoseconds (292 years) in the future; from there on the
    negated difference wraps around and the test accepts every timestamp. *)
Theorem within_skew_exact ts now maxSkew :
  time_sane ts → time_sane now → t_mono ts = None → 0 ≤ maxSkew < 2 ^ 63 - 1 →
  WithinSkew ts now maxSkew = true ↔
  Z.abs (instant now - instant ts) ≤ maxSkew ∨ instant now + 2 ^ 63 ≤ instant ts.
Proof.
  intros Ht Hn Hm Hs. unfold WithinSkew. rewrite time_sub_clamp by auto. rewrite Z.leb_le.
  unfold min_duration, max_duration.
  destruct (Z.ltb_spec (Z.max (- 2 ^ 63) (Z.min (2 ^ 63 - 1) (instant now - instant ts))) 0).
  - destruct (decide (instant now - instant ts ≤ - 2 ^ 63)).
    + replace (Z.max _ _) with (- 2 ^ 63) by lia. change (i64 (- - 2 ^ 63)) with (- 2 ^ 63). lia.
    + rewrite i64_small by lia. lia.
  - lia.
Qed.

(** A parsed timestamp is a whole second in UTC; so is the one [Sign] formats. *)
Lemma ParseTimestamp_format t :
  - 2 ^ 62 ≤ t_sec t < 2 ^ 62 → ParseTimestamp (FormatTimestamp t) = Ok (time_unix (t_sec t - unix_to_internal)).
Proof.
  intros Ht. unfold ParseTimestamp, FormatTimestamp, unix, unix_to_internal in *.
  rewrite i64_small by lia. rewrite parse_int_format_int by lia. done.
Qed.

Definition noon : Time := time_unix 1750000000.
Lemma within_skew_exact_witness :
  WithinSkew noon (time_add noon (300 * second)) (300 * second) = true ∧
  WithinSkew noon (time_add noon (300 * second + 1)) (300 * second) = false ∧
  WithinSkew (time_unix 11000000000) noon (300 * second) = true.
Proof.
  assert (∀ sec, 0 ≤ sec < 2 ^ 40 → time_sane (time_unix sec)) as Hs.
  { intros sec H. unfold time_sane, time_wf, time_unix, unix_to_internal, second. cbn [t_sec t_nsec].
    rewrite i64_small by lia. lia. }
  split; [vm_compute; reflexivity|]. split; [vm_compute; reflexivity|].
  apply (within_skew_exact (time_unix 11000000000) noon (300 * second)).
  - apply Hs. lia.
  - apply Hs. lia.
  - reflexivity.
  - unfold second. lia.
  - right. vm_compute. discriminate.
Defined.

Lemma canonical_binds_witness :
  CanonicalStringWithBodyDigest (lit "GET") (lit "/v1") (lit "a=b") (lit "17") (lit "n") (lit "dev") (lit "00")
  ≠ CanonicalStringWithBodyDigest (lit "GET") (lit "/v1") (lit "a=c") (lit "17") (lit "n") (lit "dev") (lit "00").
Proof.
  intros E. destruct (canonical_binds (lit "GET") (lit "/v1") (lit "a=b") (lit "17") (lit "n") (lit "dev") (lit "00")
    (lit "GET") (lit "/v1") (lit "a=c") (lit "17") (lit "n") (lit "dev") (lit "00")) as (_ & _ & Hq & _);
    [apply (bool_decide_unpack _); vm_compute; exact I|apply (bool_decide_unpack _); vm_compute; exact I|exact E|].
  vm_compute in Hq. discriminate Hq.
Defined.
