(* ===== verification/Store.v ===== *)
(** * internal/store: the server's database

    The tables of the SQLite schema (internal/store/migrations) and the repository
    functions of accounts.go, devices.go, prekeys.go, messages.go, invites.go,
    setup.go, blobs.go and nonces.go, each with the statements it runs: unique and
    foreign-key constraints (the connection sets [foreign_keys(1)]), cascades,
    [RowsAffected] and the order of rows.

    A time column holds the text [formatTime] writes and is compared as text.  A
    table whose row order a query depends on is a list in rowid order; the others
    are maps on the primary key.  Failures of the driver itself (disk, connection)
    are not modelled; constraint failures are. *)

From S2P Require Import Prelude GoStr GoTime GoTimeParse Sha256 Humancode.

(** ** Errors (errors.go) *)

Inductive StoreError :=
  | ErrNotFound | ErrConflict | ErrIDPrefixConflict | ErrInvalidToken
  | ErrInviteAlreadyUsed | ErrInviteExpired | ErrQueueFull
  | ErrStore (msg : string).
#[export] Instance StoreError_eq_dec : EqDecision StoreError.
Proof. solve_decision. Defined.

Definition formatTime (t : Time) : bytes := rfc3339 t.
Definition parseTime (s : bytes) : option Time := parse_rfc3339 s.

(** ** Rows *)

Definition AccountStatusActive : bytes := lit "active".
Definition AccountStatusDisabled : bytes := lit "disabled".
Definition DeviceStatusActive : bytes := lit "active".
Definition DeviceStatusRevoked : bytes := lit "revoked".
Definition RoleUser : bytes := lit "user".
Definition RoleModerator : bytes := lit "moderator".
Definition RoleAdmin : bytes := lit "admin".

Record account_row := mkAccountRow {
  ac_id_prefix : bytes; ac_root_pubkey : bytes; ac_version_marker : Z; ac_status : bytes;
  ac_role : bytes; ac_created_at : bytes;
}.
Record device_row := mkDeviceRow {
  dv_account_id : bytes; dv_pubkey : bytes; dv_cert_issued_at : bytes; dv_cert_signature : bytes;
  dv_status : bytes; dv_revoked_at : option bytes; dv_created_at : bytes;
  dv_dh_pubkey : option bytes; dv_dh_issued_at : option bytes; dv_dh_signature : option bytes;
  dv_push : option (bytes * bytes * bytes);        (** push_endpoint, push_p256dh, push_auth *)
  dv_push_target : option (bytes * bytes);         (** push_platform, push_target *)
}.
Record signed_prekey_row := mkSignedPrekeyRow {
  sp_key_id : Z; sp_pubkey : bytes; sp_signature : bytes; sp_issued_at : bytes; sp_created_at : bytes;
}.
Record one_time_prekey_row := mkOneTimeRow {
  ot_id : Z; ot_device_id : bytes; ot_key_id : Z; ot_pubkey : bytes; ot_created_at : bytes;
}.
Record message_row := mkMessageRow {
  ms_id : bytes; ms_sender_account : bytes; ms_sender_device : bytes; ms_recipient_account : bytes;
  ms_recipient_device : bytes; ms_payload : bytes; ms_sent_at : bytes; ms_expires_at : bytes;
}.
Record invite_row := mkInviteRow {
  iv_created_by : bytes; iv_created_at : bytes; iv_expires_at : option bytes;
  iv_used_at : option bytes; iv_used_by : option bytes;
}.
Record setup_row := mkSetupRow {
  st_token_hash : bytes; st_created_at : bytes; st_used_at : option bytes; st_used_by : option bytes;
  st_failed_attempts : Z;
}.
Record blob_row := mkBlobRow { bl_size : Z; bl_created_at : bytes; bl_expires_at : bytes }.
Record report_row := mkReportRow {
  rp_id : Z; rp_reported_id : bytes; rp_reported_server : bytes; rp_reporter_id : bytes;
  rp_reporter_server : bytes; rp_category : bytes; rp_evidence : option bytes; rp_verified : bool;
  rp_state : bytes; rp_created_at : bytes; rp_updated_at : bytes;
  rp_resolved_by : option bytes; rp_resolved_at : option bytes;
}.
Record nonce_row := mkNonceRow { nc_timestamp : bytes; nc_expires_at : bytes }.

#[export] Instance one_time_prekey_row_eq_dec : EqDecision one_time_prekey_row.
Proof. solve_decision. Defined.
#[export] Instance message_row_eq_dec : EqDecision message_row.
Proof. solve_decision. Defined.
#[export] Instance report_row_eq_dec : EqDecision report_row.
Proof. solve_decision. Defined.
#[export] Instance blob_row_eq_dec : EqDecision blob_row.
Proof. solve_decision. Defined.

(** The database. [one_time_seq] is the AUTOINCREMENT counter. *)
Record db := mkDB {
  accounts : gmap bytes account_row;
  devices : gmap bytes device_row;
  signed_prekeys : gmap bytes signed_prekey_row;
  one_time_prekeys : list one_time_prekey_row;
  one_time_seq : Z;
  messages : list message_row;
  invite_codes : gmap bytes invite_row;
  setup_tokens : option setup_row;
  blobs : gmap bytes blob_row;
  blob_recipients : gset (bytes * bytes);      (** blob id, device id *)
  used_nonces : gmap (bytes * bytes) nonce_row;
  reports : list report_row;
}.
Definition empty_db : db := mkDB ∅ ∅ ∅ [] 0 [] ∅ None ∅ ∅ ∅ [].

Definition set_accounts (d : db) (x : gmap bytes account_row) : db :=
  mkDB x (devices d) (signed_prekeys d) (one_time_prekeys d) (one_time_seq d) (messages d)
    (invite_codes d) (setup_tokens d) (blobs d) (blob_recipients d) (used_nonces d) (reports d).
Definition set_devices (d : db) (x : gmap bytes device_row) : db :=
  mkDB (accounts d) x (signed_prekeys d) (one_time_prekeys d) (one_time_seq d) (messages d)
    (invite_codes d) (setup_tokens d) (blobs d) (blob_recipients d) (used_nonces d) (reports d).
Definition set_signed_prekeys (d : db) (x : gmap bytes signed_prekey_row) : db :=
  mkDB (accounts d) (devices d) x (one_time_prekeys d) (one_time_seq d) (messages d)
    (invite_codes d) (setup_tokens d) (blobs d) (blob_recipients d) (used_nonces d) (reports d).
Definition set_one_time (d : db) (x : list one_time_prekey_row) (y : Z) : db :=
  mkDB (accounts d) (devices d) (signed_prekeys d) x y (messages d)
    (invite_codes d) (setup_tokens d) (blobs d) (blob_recipients d) (used_nonces d) (reports d).
Definition set_messages (d : db) (x : list message_row) : db :=
  mkDB (accounts d) (devices d) (signed_prekeys d) (one_time_prekeys d) (one_time_seq d) x
    (invite_codes d) (setup_tokens d) (blobs d) (blob_recipients d) (used_nonces d) (reports d).
Definition set_invites (d : db) (x : gmap bytes invite_row) : db :=
  mkDB (accounts d) (devices d) (signed_prekeys d) (one_time_prekeys d) (one_time_seq d) (messages d)
    x (setup_tokens d) (blobs d) (blob_recipients d) (used_nonces d) (reports d).
Definition set_setup (d : db) (x : option setup_row) : db :=
  mkDB (accounts d) (devices d) (signed_prekeys d) (one_time_prekeys d) (one_time_seq d) (messages d)
    (invite_codes d) x (blobs d) (blob_recipients d) (used_nonces d) (reports d).
Definition set_blobs (d : db) (x : gmap bytes blob_row) (y : gset (bytes * bytes)) : db :=
  mkDB (accounts d) (devices d) (signed_prekeys d) (one_time_prekeys d) (one_time_seq d) (messages d)
    (invite_codes d) (setup_tokens d) x y (used_nonces d) (reports d).
Definition set_nonces (d : db) (x : gmap (bytes * bytes) nonce_row) : db :=
  mkDB (accounts d) (devices d) (signed_prekeys d) (one_time_prekeys d) (one_time_seq d) (messages d)
    (invite_codes d) (setup_tokens d) (blobs d) (blob_recipients d) x (reports d).
Definition set_reports (d : db) (x : list report_row) : db :=
  mkDB (accounts d) (devices d) (signed_prekeys d) (one_time_prekeys d) (one_time_seq d) (messages d)
    (invite_codes d) (setup_tokens d) (blobs d) (blob_recipients d) (used_nonces d) x.


(** A repository function returns the database it leaves and its result. *)
Abbreviation outcome A := (db * res StoreError A)%type (only parsing).

(** ** accounts.go *)

Record Account := mkAccount {
  ID : bytes; RootPubKey : bytes; VersionMarker : Z; Status : bytes; AccRole : bytes; CreatedAt : Time;
}.

Definition ParseRole (s : bytes) : bytes * bool :=
  if (s =?b RoleUser) || (s =?b RoleModerator) || (s =?b RoleAdmin) then (s, true) else ([], false).

Definition idPrefixLength : Z := 5.
Definition id_prefix (id : bytes) : bytes :=
  if idPrefixLength <? zlen id then take (Z.to_nat idPrefixLength) id else id.

Definition scanAccount (id : bytes) (r : account_row) : res StoreError Account :=
  t ← from_option (parseTime (ac_created_at r)) (ErrStore "store: parsing account created_at");
  Ok (mkAccount id (ac_root_pubkey r) (ac_version_marker r) (ac_status r) (ac_role r) t).

Definition GetAccount (d : db) (id : bytes) : res StoreError Account :=
  match accounts d !! id with
  | None => Err ErrNotFound
  | Some r => scanAccount id r
  end.

(** The unique index on [id_prefix]. *)
Definition prefix_taken (d : db) (prefix : bytes) : bool :=
  existsb (λ x : bytes * account_row, ac_id_prefix x.2 =?b prefix) (map_to_list (accounts d)).

Definition CreateAccount (d : db) (acc : Account) : outcome () :=
  let prefix := id_prefix (ID acc) in
  if present (accounts d !! ID acc) || prefix_taken d prefix then
    (d, match GetAccount d (ID acc) with
        | Ok _ => Err ErrConflict
        | _ => Err ErrIDPrefixConflict
        end)
  else
    (set_accounts d (<[ID acc := mkAccountRow prefix (RootPubKey acc) (VersionMarker acc) (Status acc)
                                   (AccRole acc) (formatTime (CreatedAt acc))]> (accounts d)), Ok ()).

(** [SELECT ... WHERE id_prefix = ?]: the first row found. *)
Definition GetAccountByPrefix (d : db) (prefix : bytes) : res StoreError Account :=
  match list_find (λ x : bytes * account_row, ac_id_prefix x.2 = prefix) (map_to_list (accounts d)) with
  | None => Err ErrNotFound
  | Some (_, (id, r)) => scanAccount id r
  end.

(** [ORDER BY created_at ASC] over all accounts. *)
Definition account_le (x y : bytes * account_row) : Prop := bytes_le (ac_created_at x.2) (ac_created_at y.2).
#[export] Instance account_le_dec x y : Decision (account_le x y).
Proof. unfold account_le. apply _. Defined.
Fixpoint scan_all {A B} (scan : A → res StoreError B) (l : list A) : res StoreError (list B) :=
  match l with
  | [] => Ok []
  | x :: l => b ← scan x; bs ← scan_all scan l; Ok (b :: bs)
  end.
Definition ListAccounts (d : db) : res StoreError (list Account) :=
  scan_all (λ x : bytes * account_row, scanAccount x.1 x.2) (merge_sort account_le (map_to_list (accounts d))).

Definition with_role (role : bytes) (r : account_row) : account_row :=
  mkAccountRow (ac_id_prefix r) (ac_root_pubkey r) (ac_version_marker r) (ac_status r) role (ac_created_at r).
Definition with_status (status : bytes) (r : account_row) : account_row :=
  mkAccountRow (ac_id_prefix r) (ac_root_pubkey r) (ac_version_marker r) status (ac_role r) (ac_created_at r).

Definition SetAccountRole (d : db) (id role : bytes) : outcome () :=
  match accounts d !! id with
  | None => (d, Err ErrNotFound)
  | Some r => (set_accounts d (<[id := with_role role r]> (accounts d)), Ok ())
  end.
Definition SetAccountStatus (d : db) (id status : bytes) : outcome () :=
  match accounts d !! id with
  | None => (d, Err ErrNotFound)
  | Some r => (set_accounts d (<[id := with_status status r]> (accounts d)), Ok ())
  end.

Definition is_active_admin (r : account_row) : bool :=
  (ac_role r =?b RoleAdmin) && (ac_status r =?b AccountStatusActive).
Definition CountActiveAdmins (d : db) : Z :=
  zlen (filter (λ x : bytes * account_row, is_active_admin x.2 = true) (map_to_list (accounts d))).
Definition CountActiveAccounts (d : db) : Z :=
  zlen (filter (λ x : bytes * account_row, ac_status x.2 = AccountStatusActive) (map_to_list (accounts d))).

(** ON DELETE CASCADE from the devices [gone]: their prekeys, queued messages and
    claims on blobs. *)
Definition cascade_devices (d : db) (gone : gset bytes) : db :=
  mkDB (accounts d) (filter (λ x, x.1 ∉ gone) (devices d))
    (filter (λ x, x.1 ∉ gone) (signed_prekeys d))
    (filter (λ r, ot_device_id r ∉ gone) (one_time_prekeys d)) (one_time_seq d)
    (filter (λ m, ms_recipient_device m ∉ gone) (messages d))
    (invite_codes d) (setup_tokens d) (blobs d)
    (filter (λ x, x.2 ∉ gone) (blob_recipients d)) (used_nonces d) (reports d).

Definition null_out (id : bytes) (o : option bytes) : option bytes :=
  match o with Some x => if x =?b id then None else Some x | None => None end.
Definition clear_used_by (id : bytes) (r : invite_row) : invite_row :=
  mkInviteRow (iv_created_by r) (iv_created_at r) (iv_expires_at r) (iv_used_at r) (null_out id (iv_used_by r)).
Definition clear_setup_used_by (id : bytes) (r : setup_row) : setup_row :=
  mkSetupRow (st_token_hash r) (st_created_at r) (st_used_at r) (null_out id (st_used_by r)) (st_failed_attempts r).

(** reports.go *)
Definition DeleteReportsForAccount (d : db) (id : bytes) : db :=
  set_reports d (filter (λ r, ¬ (rp_reported_id r = id ∧ rp_reported_server r = [] ∨
                                 rp_reporter_id r = id ∧ rp_reporter_server r = [])) (reports d)).

(** [DELETE FROM accounts WHERE id = ?] with its cascades, then the reports. *)
Definition DeleteAccount (d : db) (id : bytes) : outcome () :=
  match accounts d !! id with
  | None => (d, Err ErrNotFound)
  | Some _ =>
    let gone : gset bytes := dom (filter (λ x, dv_account_id x.2 = id) (devices d)) in
    let d := cascade_devices d gone in
    let d := set_accounts d (delete id (accounts d)) in
    let d := set_invites d (clear_used_by id <$> filter (λ x, iv_created_by x.2 ≠ id) (invite_codes d)) in
    let d := set_setup d (clear_setup_used_by id <$> setup_tokens d) in
    (DeleteReportsForAccount d id, Ok ())
  end.

(** ** devices.go *)

Record PushSubscription := mkPush { Endpoint : bytes; P256dh : bytes; PushAuth : bytes }.
Record PushTarget := mkTarget { Platform : bytes; Token : bytes }.
Record Device := mkDevice {
  DeviceID : bytes; AccountID : bytes; DevicePubKey : bytes; CertIssuedAt : Time; CertSignature : bytes;
  DevStatus : bytes; RevokedAt : option Time; DevCreatedAt : Time;
  DHIdentityPubKey : bytes; DHIdentityIssuedAt : option Time; DHIdentitySignature : bytes;
  Push : option PushSubscription; DevPushTarget : option PushTarget;
}.

(** The columns an INSERT leaves out are NULL. *)
Definition CreateDevice (d : db) (x : Device) : outcome () :=
  if present (devices d !! DeviceID x) then (d, Err ErrConflict)
  else if negb (present (accounts d !! AccountID x)) then (d, Err (ErrStore "store: creating device"))
  else
    (set_devices d (<[DeviceID x :=
        mkDeviceRow (AccountID x) (DevicePubKey x) (formatTime (CertIssuedAt x)) (CertSignature x) (DevStatus x)
          None (formatTime (DevCreatedAt x)) None None None None None]> (devices d)), Ok ()).

(** A NULL or present time column. *)
Definition scan_time (o : option bytes) (e : string) : res StoreError (option Time) :=
  match o with
  | None => Ok None
  | Some s => t ← from_option (parseTime s) (ErrStore e); Ok (Some t)
  end.

Definition scanDeviceFields (id : bytes) (r : device_row) : res StoreError Device :=
  issuedAt ← from_option (parseTime (dv_cert_issued_at r)) (ErrStore "store: parsing device cert_issued_at");
  createdAt ← from_option (parseTime (dv_created_at r)) (ErrStore "store: parsing device created_at");
  revokedAt ← scan_time (dv_revoked_at r) "store: parsing device revoked_at";
  let dhPubKey := default [] (dv_dh_pubkey r) in
  dh ← (if 0 <? zlen dhPubKey then
          t ← scan_time (dv_dh_issued_at r) "store: parsing device dh_identity_issued_at";
          Ok (dhPubKey, t, default [] (dv_dh_signature r))
        else Ok ([], None, []));
  Ok (mkDevice id (dv_account_id r) (dv_pubkey r) issuedAt (dv_cert_signature r) (dv_status r) revokedAt createdAt
        dh.1.1 dh.1.2 dh.2
        ((λ p, mkPush p.1.1 p.1.2 p.2) <$> dv_push r) ((λ p, mkTarget p.1 p.2) <$> dv_push_target r)).

Definition GetDevice (d : db) (deviceID : bytes) : res StoreError Device :=
  match devices d !! deviceID with
  | None => Err ErrNotFound
  | Some r => scanDeviceFields deviceID r
  end.

(** [ORDER BY created_at ASC]; rows with equal times keep the order of the scan. *)
Definition created_le (x y : bytes * device_row) : Prop := bytes_le (dv_created_at x.2) (dv_created_at y.2).
#[export] Instance created_le_dec x y : Decision (created_le x y).
Proof. unfold created_le. apply _. Defined.
Definition account_devices (d : db) (accountID : bytes) : list (bytes * device_row) :=
  merge_sort created_le (filter (λ x, dv_account_id x.2 = accountID) (map_to_list (devices d))).
Definition ListDevicesByAccount (d : db) (accountID : bytes) : res StoreError (list Device) :=
  scan_all (λ x : bytes * device_row, scanDeviceFields x.1 x.2) (account_devices d accountID).

Definition RevokeDevice (d : db) (accountID deviceID : bytes) (revokedAt : Time) : outcome () :=
  match devices d !! deviceID with
  | Some r =>
    if (dv_account_id r =?b accountID) && (dv_status r =?b DeviceStatusActive) then
      (set_devices d (<[deviceID :=
         mkDeviceRow (dv_account_id r) (dv_pubkey r) (dv_cert_issued_at r) (dv_cert_signature r) DeviceStatusRevoked
           (Some (formatTime revokedAt)) (dv_created_at r) (dv_dh_pubkey r) (dv_dh_issued_at r) (dv_dh_signature r)
           (dv_push r) (dv_push_target r)]> (devices d)), Ok ())
    else (d, Err ErrNotFound)
  | None => (d, Err ErrNotFound)
  end.

Definition UpsertDHIdentity (d : db) (deviceID pubKey signature : bytes) (issuedAt : Time) : outcome () :=
  match devices d !! deviceID with
  | Some r =>
    (set_devices d (<[deviceID :=
       mkDeviceRow (dv_account_id r) (dv_pubkey r) (dv_cert_issued_at r) (dv_cert_signature r) (dv_status r)
         (dv_revoked_at r) (dv_created_at r) (Some pubKey) (Some (formatTime issuedAt)) (Some signature)
         (dv_push r) (dv_push_target r)]> (devices d)), Ok ())
  | None => (d, Err ErrNotFound)
  end.

Definition with_push (r : device_row) (push : option (bytes * bytes * bytes)) (target : option (bytes * bytes)) : device_row :=
  mkDeviceRow (dv_account_id r) (dv_pubkey r) (dv_cert_issued_at r) (dv_cert_signature r) (dv_status r)
    (dv_revoked_at r) (dv_created_at r) (dv_dh_pubkey r) (dv_dh_issued_at r) (dv_dh_signature r) push target.

Definition SetDevicePushSubscription (d : db) (deviceID : bytes) (sub : option PushSubscription) : outcome () :=
  match devices d !! deviceID with
  | Some r =>
    let r' := match sub with
              | Some s => with_push r (Some (Endpoint s, P256dh s, PushAuth s)) None
              | None => with_push r None (dv_push_target r)
              end in
    (set_devices d (<[deviceID := r']> (devices d)), Ok ())
  | None => (d, Err ErrNotFound)
  end.
Definition SetDevicePushTarget (d : db) (deviceID : bytes) (target : option PushTarget) : outcome () :=
  match devices d !! deviceID with
  | Some r =>
    let r' := match target with
              | Some t => with_push r None (Some (Platform t, Token t))
              | None => with_push r (dv_push r) None
              end in
    (set_devices d (<[deviceID := r']> (devices d)), Ok ())
  | None => (d, Err ErrNotFound)
  end.

(** ** prekeys.go *)

Record SignedPrekey := mkSignedPrekey {
  SpDeviceID : bytes; SpKeyID : Z; SpPubKey : bytes; SpSignature : bytes; SpIssuedAt : Time; SpCreatedAt : Time;
}.
Definition UpsertSignedPrekey (d : db) (sp : SignedPrekey) : outcome () :=
  if present (devices d !! SpDeviceID sp) then
    (set_signed_prekeys d (<[SpDeviceID sp :=
       mkSignedPrekeyRow (SpKeyID sp) (SpPubKey sp) (SpSignature sp) (formatTime (SpIssuedAt sp))
         (formatTime (SpCreatedAt sp))]> (signed_prekeys d)), Ok ())
  else (d, Err (ErrStore "store: upserting signed prekey")).
Definition GetSignedPrekey (d : db) (deviceID : bytes) : res StoreError SignedPrekey :=
  match signed_prekeys d !! deviceID with
  | None => Err ErrNotFound
  | Some r =>
    issuedAt ← from_option (parseTime (sp_issued_at r)) (ErrStore "store: parsing signed prekey issued_at");
    createdAt ← from_option (parseTime (sp_created_at r)) (ErrStore "store: parsing signed prekey created_at");
    Ok (mkSignedPrekey deviceID (sp_key_id r) (sp_pubkey r) (sp_signature r) issuedAt createdAt)
  end.

Record OneTimePrekeyInput := mkOneTimeInput { OtKeyID : Z; OtPubKey : bytes }.

(** One INSERT per key; the first failure stops the loop. *)
Fixpoint AddOneTimePrekeys (d : db) (deviceID : bytes) (keys : list OneTimePrekeyInput) (now : Time) : outcome () :=
  match keys with
  | [] => (d, Ok ())
  | k :: keys =>
    if present (devices d !! deviceID) then
      let id := one_time_seq d + 1 in
      AddOneTimePrekeys
        (set_one_time d (one_time_prekeys d ++ [mkOneTimeRow id deviceID (OtKeyID k) (OtPubKey k) (formatTime now)]) id)
        deviceID keys now
    else (d, Err (ErrStore "store: adding one-time prekey"))
  end.
Definition DeleteOneTimePrekeys (d : db) (deviceID : bytes) : db :=
  set_one_time d (filter (λ r, ot_device_id r ≠ deviceID) (one_time_prekeys d)) (one_time_seq d).
Definition CountOneTimePrekeys (d : db) (deviceID : bytes) : Z :=
  zlen (filter (λ r, ot_device_id r = deviceID) (one_time_prekeys d)).

(** The row of the device with the least id goes. *)
Definition ClaimOneTimePrekey (d : db) (deviceID : bytes) : db * option OneTimePrekeyInput :=
  match list_find (λ r, ot_device_id r = deviceID) (one_time_prekeys d) with
  | None => (d, None)
  | Some (_, row) =>
    (set_one_time d (filter (λ r, ot_id r ≠ ot_id row) (one_time_prekeys d)) (one_time_seq d),
     Some (mkOneTimeInput (ot_key_id row) (ot_pubkey row)))
  end.

(** ** messages.go *)

Record Message := mkMessage {
  MessageID : bytes; SenderAccountID : bytes; SenderDeviceID : bytes; RecipientAccountID : bytes;
  RecipientDeviceID : bytes; Payload : bytes; SentAt : Time; ExpiresAt : Time;
}.
Definition message_to_row (m : Message) : message_row :=
  mkMessageRow (MessageID m) (SenderAccountID m) (SenderDeviceID m) (RecipientAccountID m) (RecipientDeviceID m)
    (Payload m) (formatTime (SentAt m)) (formatTime (ExpiresAt m)).
Definition CreateMessage (d : db) (m : Message) : outcome () :=
  if existsb (λ r, ms_id r =?b MessageID m) (messages d) then (d, Err ErrConflict)
  else if negb (present (devices d !! RecipientDeviceID m)) then (d, Err (ErrStore "store: creating message"))
  else (set_messages d (messages d ++ [message_to_row m]), Ok ()).
Definition CountPendingMessages (d : db) (recipientDeviceID : bytes) : Z :=
  zlen (filter (λ r, ms_recipient_device r = recipientDeviceID) (messages d)).
Definition CreateMessageUnderCap (d : db) (m : Message) (maxQueued : Z) : outcome () :=
  let count := CountPendingMessages d (RecipientDeviceID m) in
  if maxQueued <=? count then (d, Err ErrQueueFull) else CreateMessage d m.

Definition scanMessage (r : message_row) : res StoreError Message :=
  sentAt ← from_option (parseTime (ms_sent_at r)) (ErrStore "store: parsing message sent_at");
  expiresAt ← from_option (parseTime (ms_expires_at r)) (ErrStore "store: parsing message expires_at");
  Ok (mkMessage (ms_id r) (ms_sender_account r) (ms_sender_device r) (ms_recipient_account r)
        (ms_recipient_device r) (ms_payload r) sentAt expiresAt).
(** [ORDER BY sent_at ASC], through the index on (recipient_device_id, sent_at). *)
Definition sent_le (x y : message_row) : Prop := bytes_le (ms_sent_at x) (ms_sent_at y).
#[export] Instance sent_le_dec x y : Decision (sent_le x y).
Proof. unfold sent_le. apply _. Defined.
Definition ListPendingMessages (d : db) (recipientDeviceID : bytes) : res StoreError (list Message) :=
  scan_all scanMessage
    (merge_sort sent_le (filter (λ r, ms_recipient_device r = recipientDeviceID) (messages d))).

Definition DeleteMessage (d : db) (messageID recipientDeviceID : bytes) : outcome () :=
  let hit := λ r, ms_id r = messageID ∧ ms_recipient_device r = recipientDeviceID in
  match filter hit (messages d) with
  | [] => (d, Err ErrNotFound)
  | _ => (set_messages d (filter (λ r, ¬ hit r) (messages d)), Ok ())
  end.
Definition PurgeExpiredMessages (d : db) (now : Time) : db * Z :=
  let old := λ r, bytes_ltb (ms_expires_at r) (formatTime now) in
  (set_messages d (filter (λ r, old r = false) (messages d)),
   zlen (filter (λ r, old r = true) (messages d))).

(** ** setup.go *)

Definition hashToken (token : bytes) : bytes := hex_encode (sha256 token).
Definition setupTokenSymbols : Z := 8.
Definition MaxSetupTokenAttempts : Z := 10.

Section codes.
Context {UC : UnicodeCase}.

Definition NormalizeSetupToken (token : bytes) : bytes := Normalize token.

(** The token and whether it was created. *)
Definition InitSetupToken (rand_Read : Z → option bytes) (d : db) (now : Time) : outcome (bytes * bool) :=
  if present (setup_tokens d) then (d, Ok ([], false))
  else match Generate rand_Read setupTokenSymbols with
       | Ok token =>
         (set_setup d (Some (mkSetupRow (hashToken token) (formatTime now) None None 0)), Ok (token, true))
       | Err e => (d, Err (ErrStore "store: generating setup token"))
       | Panic => (d, Panic)
       end.
Definition ResetSetupToken (d : db) : db := set_setup d None.

Definition claimable (r : setup_row) (token : bytes) : bool :=
  (st_token_hash r =?b hashToken (NormalizeSetupToken token)) && negb (present (st_used_at r))
  && (st_failed_attempts r <? MaxSetupTokenAttempts).
Definition ClaimSetupToken (d : db) (token accountID : bytes) (now : Time) : outcome () :=
  match setup_tokens d with
  | Some r =>
    if claimable r token then
      if present (accounts d !! accountID) then
        (set_setup d (Some (mkSetupRow (st_token_hash r) (st_created_at r) (Some (formatTime now)) (Some accountID)
                              (st_failed_attempts r))), Ok ())
      else (d, Err (ErrStore "store: claiming setup token"))
    else (d, Err ErrInvalidToken)
  | None => (d, Err ErrInvalidToken)
  end.
Definition RecordFailedSetupTokenAttempt (d : db) : db :=
  match setup_tokens d with
  | Some r =>
    if present (st_used_at r) then d
    else set_setup d (Some (mkSetupRow (st_token_hash r) (st_created_at r) (st_used_at r) (st_used_by r)
                              (st_failed_attempts r + 1)))
  | None => d
  end.
Definition SetupTokenClaimed (d : db) : bool :=
  match setup_tokens d with Some r => present (st_used_at r) | None => false end.

(** ** invites.go *)

Definition inviteCodeSymbols : Z := 12.
Definition inviteCodeGroup : Z := 4.

Record InviteCode := mkInvite {
  CreatedByAccountID : bytes; InvCreatedAt : Time; InvExpiresAt : option Time; UsedAt : option Time;
  UsedByAccountID : option bytes;
}.

Definition CreateInviteCode (rand_Read : Z → option bytes) (d : db) (createdBy : bytes) (expiresAt : option Time)
    (now : Time) : outcome bytes :=
  match Generate rand_Read inviteCodeSymbols with
  | Ok code =>
    if present (invite_codes d !! hashToken code) || negb (present (accounts d !! createdBy)) then
      (d, Err (ErrStore "store: storing invite code"))
    else
      (set_invites d (<[hashToken code := mkInviteRow createdBy (formatTime now) (formatTime <$> expiresAt) None None]>
                        (invite_codes d)), Ok (Format code inviteCodeGroup))
  | Err e => (d, Err (ErrStore "store: generating invite code"))
  | Panic => (d, Panic)
  end.

Definition inviteCodeHash (code : bytes) : bytes := hashToken (Normalize code).

(** [expires_at IS NOT NULL AND expires_at <= ?] *)
Definition expired_at (now : bytes) (e : option bytes) : bool :=
  match e with Some e => bytes_leb e now | None => false end.

Definition PurgeExpiredInviteCodes (d : db) (now : Time) : db * Z :=
  let dead := λ x : bytes * invite_row,
    negb (present (iv_used_at x.2)) && expired_at (formatTime now) (iv_expires_at x.2) in
  (set_invites d (filter (λ x, dead x = false) (invite_codes d)),
   Z.of_nat (size (filter (λ x, dead x = true) (invite_codes d)))).

Definition GetInviteCode (d : db) (code : bytes) : res StoreError InviteCode :=
  match invite_codes d !! inviteCodeHash code with
  | None => Err ErrNotFound
  | Some r =>
    createdAt ← from_option (parseTime (iv_created_at r)) (ErrStore "store: parsing invite code created_at");
    expiresAt ← scan_time (iv_expires_at r) "store: parsing invite code expires_at";
    usedAt ← scan_time (iv_used_at r) "store: parsing invite code used_at";
    Ok (mkInvite (iv_created_by r) createdAt expiresAt usedAt (iv_used_by r))
  end.

(** Why the UPDATE of [ConsumeInviteCode] touched no row. *)
Definition invite_diagnosis (d : db) (code : bytes) (now : Time) : res StoreError () :=
  inv ← GetInviteCode d code;
  if present (UsedAt inv) then Err ErrInviteAlreadyUsed
  else match InvExpiresAt inv with
       | Some e => if negb (after e now) then Err ErrInviteExpired else Err ErrInviteAlreadyUsed
       | None => Err ErrInviteAlreadyUsed
       end.

(** The conditional UPDATE, then the diagnosis. *)
Definition ConsumeInviteCode (d : db) (code usedBy : bytes) (now : Time) : outcome () :=
  match invite_codes d !! inviteCodeHash code with
  | Some r =>
    if negb (present (iv_used_at r)) && negb (expired_at (formatTime now) (iv_expires_at r)) then
      if present (accounts d !! usedBy) then
        (set_invites d (<[inviteCodeHash code :=
            mkInviteRow (iv_created_by r) (iv_created_at r) (iv_expires_at r) (Some (formatTime now)) (Some usedBy)]>
            (invite_codes d)), Ok ())
      else (d, Err (ErrStore "store: consuming invite code"))
    else (d, invite_diagnosis d code now)
  | None => (d, invite_diagnosis d code now)
  end.
End codes.

(** ** blobs.go *)

Record Blob := mkBlob { BlobID : bytes; SizeBytes : Z; BlobCreatedAt : Time; BlobExpiresAt : Time }.

(** The INSERTs into [blob_recipients], stopping at the first failure. *)
Fixpoint insert_recipients (d : db) (blobID : bytes) (ids : list bytes) : outcome () :=
  match ids with
  | [] => (d, Ok ())
  | deviceID :: ids =>
    if bool_decide ((blobID, deviceID) ∈ blob_recipients d) || negb (present (devices d !! deviceID)) then
      (d, Err (ErrStore "store: adding blob recipient"))
    else insert_recipients (set_blobs d (blobs d) ({[(blobID, deviceID)]} ∪ blob_recipients d)) blobID ids
  end.
Definition CreateBlob (d : db) (b : Blob) (recipientDeviceIDs : list bytes) : outcome () :=
  if zlen recipientDeviceIDs =? 0 then (d, Err (ErrStore "store: creating blob: no recipients"))
  else if present (blobs d !! BlobID b) then (d, Err ErrConflict)
  else
    insert_recipients
      (set_blobs d (<[BlobID b := mkBlobRow (SizeBytes b) (formatTime (BlobCreatedAt b)) (formatTime (BlobExpiresAt b))]>
                      (blobs d)) (blob_recipients d))
      (BlobID b) recipientDeviceIDs.

(** The join of [blob_recipients] and [blobs] for one device. *)
Definition device_blobs (d : db) (deviceID : bytes) : list blob_row :=
  omap (λ x : bytes * bytes, if x.2 =?b deviceID then blobs d !! x.1 else None) (elements (blob_recipients d)).
Definition BlobUsage (d : db) (deviceID : bytes) : Z * Z :=
  let rows := device_blobs d deviceID in (zlen rows, foldr Z.add 0 (bl_size <$> rows)).
Definition TotalBlobBytes (d : db) : Z := foldr Z.add 0 ((λ x : bytes * blob_row, bl_size x.2) <$> map_to_list (blobs d)).

(** Which candidates fit: (stored, quotaExceeded). *)
Definition fits (d : db) (b : Blob) (maxBlobs maxBytesPerDevice : Z) (deviceID : bytes) : bool :=
  let '(count, totalBytes) := BlobUsage d deviceID in
  negb ((maxBlobs <=? count) || (maxBytesPerDevice <? i64 (totalBytes + SizeBytes b))).
Definition CreateBlobWithQuota (d : db) (b : Blob) (candidates : list bytes) (maxBlobs maxBytesPerDevice : Z)
    : outcome (list bytes * list bytes) :=
  let stored := filter (λ x, fits d b maxBlobs maxBytesPerDevice x = true) candidates in
  let exceeded := filter (λ x, fits d b maxBlobs maxBytesPerDevice x = false) candidates in
  if zlen stored =? 0 then (d, Ok ([], exceeded))
  else match CreateBlob d b stored with
       | (d, Ok _) => (d, Ok (stored, exceeded))
       | (d, Err e) => (d, Err e)
       | (d, Panic) => (d, Panic)
       end.

Definition scanBlob (id : bytes) (r : blob_row) : res StoreError Blob :=
  createdAt ← from_option (parseTime (bl_created_at r)) (ErrStore "store: parsing blob created_at");
  expiresAt ← from_option (parseTime (bl_expires_at r)) (ErrStore "store: parsing blob expires_at");
  Ok (mkBlob id (bl_size r) createdAt expiresAt).
Definition GetBlobForDevice (d : db) (blobID deviceID : bytes) : res StoreError Blob :=
  match blobs d !! blobID with
  | Some r => if bool_decide ((blobID, deviceID) ∈ blob_recipients d) then scanBlob blobID r else Err ErrNotFound
  | None => Err ErrNotFound
  end.

(** Whether the blob lost its last recipient. *)
Definition DeleteBlobForDevice (d : db) (blobID deviceID : bytes) : outcome bool :=
  if bool_decide ((blobID, deviceID) ∈ blob_recipients d) then
    let recipients := blob_recipients d ∖ {[(blobID, deviceID)]} in
    let remaining : gset (bytes * bytes) := filter (λ x, x.1 = blobID) recipients in
    if Nat.ltb 0 (size remaining) then (set_blobs d (blobs d) recipients, Ok false)
    else (set_blobs d (delete blobID (blobs d)) recipients, Ok true)
  else (d, Err ErrNotFound).
Definition DeleteBlobByID (d : db) (blobID : bytes) : db :=
  set_blobs d (delete blobID (blobs d)) (filter (λ x, x.1 ≠ blobID) (blob_recipients d)).
Definition BlobIDExists (d : db) (blobID : bytes) : bool := present (blobs d !! blobID).

(** [ORDER BY ... ASC LIMIT ?]; a negative limit is no limit. *)
Definition sql_limit {A} (n : Z) (l : list A) : list A := if n <? 0 then l else take (Z.to_nat n) l.
Definition blob_expiry_le (x y : bytes * blob_row) : Prop := bytes_le (bl_expires_at x.2) (bl_expires_at y.2).
#[export] Instance blob_expiry_le_dec x y : Decision (blob_expiry_le x y).
Proof. unfold blob_expiry_le. apply _. Defined.
Definition blob_created_le (x y : bytes * blob_row) : Prop := bytes_le (bl_created_at x.2) (bl_created_at y.2).
#[export] Instance blob_created_le_dec x y : Decision (blob_created_le x y).
Proof. unfold blob_created_le. apply _. Defined.
Definition ListExpiredBlobs (d : db) (now : Time) (limit : Z) : res StoreError (list Blob) :=
  scan_all (λ x : bytes * blob_row, scanBlob x.1 x.2)
    (sql_limit limit (merge_sort blob_expiry_le
       (filter (λ x, bytes_ltb (bl_expires_at x.2) (formatTime now) = true) (map_to_list (blobs d))))).
Definition unreferenced (d : db) (blobID : bytes) : bool :=
  bool_decide (∀ x, x ∈ blob_recipients d → x.1 ≠ blobID).
Definition ListUnreferencedBlobs (d : db) (limit : Z) : res StoreError (list Blob) :=
  scan_all (λ x : bytes * blob_row, scanBlob x.1 x.2)
    (sql_limit limit (merge_sort blob_created_le
       (filter (λ x, unreferenced d x.1 = true) (map_to_list (blobs d))))).

(** ** nonces.go *)

(** [INSERT OR IGNORE]: whether the pair is new. *)
Definition RecordNonce (d : db) (deviceID nonce : bytes) (requestTimestamp expiresAt : Time) : db * bool :=
  if present (used_nonces d !! (deviceID, nonce)) then (d, false)
  else (set_nonces d (<[(deviceID, nonce) := mkNonceRow (formatTime requestTimestamp) (formatTime expiresAt)]>
                        (used_nonces d)), true).
Definition PurgeExpiredNonces (d : db) (now : Time) : db * Z :=
  let old := λ x : (bytes * bytes) * nonce_row, bytes_ltb (nc_expires_at x.2) (formatTime now) in
  (set_nonces d (filter (λ x, old x = false) (used_nonces d)),
   Z.of_nat (size (filter (λ x, old x = true) (used_nonces d)))).
