(* ===== verification/StoreIntegrity.v ===== *)
(** * The database keeps its constraints

    Every repository function, run in any order from an empty database, leaves the
    unique and foreign-key constraints of the schema intact, account-id prefixes
    unambiguous, and every device with at most one way to be woken. *)

From S2P Require Import Prelude GoStr GoTime GoTimeParse Sha256 Humancode Store.

Record db_wf (d : db) : Prop := {
  wf_prefix id r : accounts d !! id = Some r → ac_id_prefix r = id_prefix id;
  wf_prefix_unique id id' r r' :
    accounts d !! id = Some r → accounts d !! id' = Some r' → ac_id_prefix r = ac_id_prefix r' → id = id';
  wf_device k r : devices d !! k = Some r → is_Some (accounts d !! dv_account_id r);
  wf_wake k r : devices d !! k = Some r → dv_push r = None ∨ dv_push_target r = None;
  wf_signed k r : signed_prekeys d !! k = Some r → is_Some (devices d !! k);
  wf_one_time r : r ∈ one_time_prekeys d → is_Some (devices d !! ot_device_id r) ∧ ot_id r ≤ one_time_seq d;
  wf_one_time_ids : StronglySorted Z.lt (ot_id <$> one_time_prekeys d);
  wf_message m : m ∈ messages d → is_Some (devices d !! ms_recipient_device m);
  wf_message_ids : NoDup (ms_id <$> messages d);
  wf_invite h r : invite_codes d !! h = Some r → is_Some (accounts d !! iv_created_by r);
  wf_invite_used h r u : invite_codes d !! h = Some r → iv_used_by r = Some u → is_Some (accounts d !! u);
  wf_setup r u : setup_tokens d = Some r → st_used_by r = Some u → is_Some (accounts d !! u);
  wf_blob b k : (b, k) ∈ blob_recipients d → is_Some (blobs d !! b) ∧ is_Some (devices d !! k);
}.

Lemma empty_db_wf : db_wf empty_db.
Proof. constructor; simpl; try done; try set_solver; constructor. Qed.

(** The account and device tables matter to the others only through their domains. *)
Lemma insert_is_Some {A} (m : gmap bytes A) i x k : is_Some (m !! k) → is_Some (<[i := x]> m !! k).
Proof. destruct (decide (k = i)) as [->|]; [by rewrite lookup_insert_eq|by rewrite lookup_insert_ne]. Qed.

Lemma present_Some {A} (o : option A) : present o = true ↔ is_Some o.
Proof. destruct o; simpl; split; done || (by intros [? ?]) || eauto. Qed.
Lemma present_None {A} (o : option A) : present o = false ↔ o = None.
Proof. by destruct o. Qed.

Ltac wf_table H := destruct H; constructor; cbn [fst snd negb accounts devices signed_prekeys one_time_prekeys one_time_seq
  messages invite_codes setup_tokens blobs blob_recipients set_accounts set_devices set_signed_prekeys set_one_time
  set_messages set_invites set_setup set_blobs set_nonces set_reports]; try done; eauto using insert_is_Some.

Lemma prefix_taken_false d p id r :
  prefix_taken d p = false → accounts d !! id = Some r → ac_id_prefix r ≠ p.
Proof.
  unfold prefix_taken. intros Hf Hr E. apply not_true_iff_false in Hf. apply Hf. apply existsb_exists.
  exists (id, r). split; [by apply list_elem_of_In, elem_of_map_to_list|by apply eqb_true].
Qed.

Lemma CreateAccount_wf d acc : db_wf d → db_wf (CreateAccount d acc).1.
Proof.
  intros H. unfold CreateAccount. destruct (_ || _) eqn:E; [done|]. apply orb_false_iff in E as [E1 E2].
  wf_table H.
  - intros id r [[<- <-]|[_ ?]]%lookup_insert_Some; [done|eauto].
  - intros id id' r r' [[<- <-]|[_ Hr]]%lookup_insert_Some [[<- <-]|[_ Hr']]%lookup_insert_Some Ep; eauto; exfalso.
    + by apply (prefix_taken_false _ _ _ _ E2 Hr').
    + by apply (prefix_taken_false _ _ _ _ E2 Hr).
Qed.

(** Updating an account in place keeps its prefix. *)
Lemma update_account_wf d id r r' :
  db_wf d → accounts d !! id = Some r → ac_id_prefix r' = ac_id_prefix r →
  db_wf (set_accounts d (<[id := r']> (accounts d))).
Proof.
  intros H Hr E. wf_table H.
  - intros i x [[<- <-]|[_ ?]]%lookup_insert_Some; [rewrite E|]; eauto.
  - intros i i' x x' [[<- <-]|[_ ?]]%lookup_insert_Some [[<- <-]|[_ ?]]%lookup_insert_Some; rewrite ?E; eauto.
Qed.

(** Updating a device in place keeps its account. *)
Lemma update_device_wf d k r r' :
  db_wf d → devices d !! k = Some r → dv_account_id r' = dv_account_id r →
  (dv_push r' = None ∨ dv_push_target r' = None) →
  db_wf (set_devices d (<[k := r']> (devices d))).
Proof.
  intros H Hr E Hw. wf_table H.
  - intros i x [[<- <-]|[_ ?]]%lookup_insert_Some; [rewrite E|]; eauto.
  - intros i x [[<- <-]|[_ ?]]%lookup_insert_Some; eauto.
  - intros x Hx. destruct (wf_one_time0 x Hx). eauto using insert_is_Some.
  - intros b x Hx. destruct (wf_blob0 b x Hx). eauto using insert_is_Some.
Qed.

Lemma CreateDevice_wf d x : db_wf d → db_wf (CreateDevice d x).1.
Proof.
  intros H. unfold CreateDevice. destruct (present (devices d !! _)); [done|].
  destruct (present (accounts d !! _)) eqn:E; [|done]. apply present_Some in E. simpl. wf_table H.
  - intros i y [[<- <-]|[_ ?]]%lookup_insert_Some; eauto.
  - intros i y [[<- <-]|[_ ?]]%lookup_insert_Some; eauto.
  - intros y Hy. destruct (wf_one_time0 y Hy). eauto using insert_is_Some.
  - intros b y Hy. destruct (wf_blob0 b y Hy). eauto using insert_is_Some.
Qed.

(** ** Deleting an account takes everything that hangs on it *)

Lemma sublist_fmap_filter {A B} (f : A → B) (P : A → Prop) `{∀ x, Decision (P x)} l :
  (f <$> filter P l) `sublist_of` (f <$> l).
Proof.
  induction l as [|x l IH]; [done|]. rewrite filter_cons. case_decide; simpl; by constructor.
Qed.
Lemma sorted_filter {A} (R : relation Z) (f : A → Z) (P : A → Prop) `{∀ x, Decision (P x)} l :
  StronglySorted R (f <$> l) → StronglySorted R (f <$> filter P l).
Proof.
  induction l as [|x l IH]; [done|]. rewrite fmap_cons. intros [Hf Hs]%StronglySorted_cons. rewrite filter_cons.
  case_decide; [|by apply IH]. simpl. constructor; [by apply IH|].
  eapply Forall_sublist_of; [|exact Hf]. apply sublist_fmap_filter.
Qed.
Lemma NoDup_fmap_filter {A B} (f : A → B) (P : A → Prop) `{∀ x, Decision (P x)} l :
  NoDup (f <$> l) → NoDup (f <$> filter P l).
Proof. intros H1. eapply sublist_NoDup; [exact H1|]. apply sublist_fmap_filter. Qed.

Lemma null_out_Some id o u : null_out id o = Some u → o = Some u ∧ u ≠ id.
Proof. destruct o as [x|]; simpl; [|done]. destruct (x =?b id) eqn:E; [done|]. intros [= ->]. by apply eqb_false in E. Qed.

Lemma DeleteAccount_wf d id : db_wf d → db_wf (DeleteAccount d id).1.
Proof.
  intros H. unfold DeleteAccount. destruct (accounts d !! id) as [ra|] eqn:Ea; [|done].
  cbv zeta. unfold DeleteReportsForAccount, cascade_devices. set (gone := dom _ : gset bytes).
  assert (∀ k, is_Some (devices d !! k) → k ∉ gone → is_Some (filter (λ x : bytes * device_row, x.1 ∉ gone) (devices d) !! k)) as Hd.
  { intros k [r Hr] Hg. exists r. by apply map_lookup_filter_Some. }
  assert (∀ k r, devices d !! k = Some r → k ∉ gone → dv_account_id r ≠ id) as Hacc.
  { intros k r Hr Hg E. apply Hg. unfold gone. apply elem_of_dom. exists r. by apply map_lookup_filter_Some. }
  assert (∀ a, is_Some (accounts d !! a) → a ≠ id → is_Some (delete id (accounts d) !! a)) as Ha.
  { intros a ? ?. by rewrite lookup_delete_ne. }
  wf_table H.
  - intros i r [_ Hr]%lookup_delete_Some. eauto.
  - intros i i' r r' [_ Hr]%lookup_delete_Some [_ Hr']%lookup_delete_Some. eauto.
  - intros k r [Hr Hg]%map_lookup_filter_Some. eauto.
  - intros k r [Hr Hg]%map_lookup_filter_Some. eauto.
  - intros k r [Hr Hg]%map_lookup_filter_Some. eauto.
  - intros r [Hg Hr]%list_elem_of_filter. destruct (wf_one_time0 r Hr). eauto.
  - by apply sorted_filter.
  - intros m [Hg Hm]%list_elem_of_filter. eauto.
  - by apply NoDup_fmap_filter.
  - intros h r (r0 & <- & Hr)%lookup_fmap_Some. apply map_lookup_filter_Some in Hr as [Hr Hc]. simpl in *. eauto.
  - intros h r u (r0 & <- & Hr)%lookup_fmap_Some [Hu Hne]%null_out_Some.
    apply map_lookup_filter_Some in Hr as [Hr Hc]. eauto.
  - intros r u (r0 & Hr & ->)%fmap_Some [Hu Hne]%null_out_Some. eauto.
  - intros b k [Hg Hx]%elem_of_filter. destruct (wf_blob0 b k Hx). eauto.
Qed.

(** ** Prekeys and messages *)

Lemma UpsertSignedPrekey_wf d sp : db_wf d → db_wf (UpsertSignedPrekey d sp).1.
Proof.
  intros H. unfold UpsertSignedPrekey. destruct (present _) eqn:E; [|done]. apply present_Some in E. wf_table H.
  intros k r [[<- _]|[_ ?]]%lookup_insert_Some; eauto.
Qed.

Lemma StronglySorted_snoc (R : relation Z) l x : StronglySorted R l → Forall (λ y, R y x) l → StronglySorted R (l ++ [x]).
Proof.
  intros Hs Hf. induction Hs as [|y l Hs IH Hy]; simpl; [repeat constructor|].
  apply Forall_cons in Hf as [Hyx Hf]. constructor; [by apply IH|]. apply Forall_app. split; [done|by constructor].
Qed.

Lemma AddOneTimePrekeys_wf d k keys now : db_wf d → db_wf (AddOneTimePrekeys d k keys now).1.
Proof.
  revert d. induction keys as [|x keys IH]; intros d H; [done|]. cbn [AddOneTimePrekeys].
  destruct (present _) eqn:E; [|done]. apply present_Some in E. cbv zeta. apply IH. wf_table H.
  - intros r [Hr| ->%list_elem_of_singleton]%elem_of_app; [|simpl; split; [done|lia]].
    destruct (wf_one_time0 r Hr). split; [done|lia].
  - rewrite fmap_app. apply StronglySorted_snoc; [done|]. apply Forall_fmap, Forall_forall. intros r Hr.
    simpl. destruct (wf_one_time0 r Hr). lia.
Qed.

Lemma filter_one_time_wf d (P : one_time_prekey_row → Prop) `{∀ x, Decision (P x)} :
  db_wf d → db_wf (set_one_time d (filter P (one_time_prekeys d)) (one_time_seq d)).
Proof.
  intros Hd. wf_table Hd.
  - intros r [_ Hr]%list_elem_of_filter. eauto.
  - by apply sorted_filter.
Qed.
Lemma filter_messages_wf d (P : message_row → Prop) `{∀ x, Decision (P x)} :
  db_wf d → db_wf (set_messages d (filter P (messages d))).
Proof.
  intros Hd. wf_table Hd.
  - intros r [_ Hr]%list_elem_of_filter. eauto.
  - by apply NoDup_fmap_filter.
Qed.

Lemma CreateMessage_wf d m : db_wf d → db_wf (CreateMessage d m).1.
Proof.
  intros H. unfold CreateMessage. destruct (existsb _ _) eqn:Eid; [done|].
  destruct (present _) eqn:E; [|done]. apply present_Some in E. wf_table H.
  - intros r [Hr| ->%list_elem_of_singleton]%elem_of_app; eauto.
  - rewrite fmap_app. apply NoDup_app. split_and!; [done| |apply NoDup_singleton].
    intros i Hi ->%list_elem_of_singleton. apply list_elem_of_fmap in Hi as (r & Ei & Hr).
    apply not_true_iff_false in Eid. apply Eid, existsb_exists. exists r. split; [by apply list_elem_of_In|].
    by apply eqb_true.
Qed.

(** ** Codes, blobs *)

Section codes.
Context {UC : UnicodeCase}.

Lemma InitSetupToken_wf rnd d now : db_wf d → db_wf (InitSetupToken rnd d now).1.
Proof.
  intros H. unfold InitSetupToken. destruct (present _); [done|]. destruct (Generate _ _); [|done..]. wf_table H.
  by intros r u [= <-].
Qed.
Lemma ClaimSetupToken_wf d tok a now : db_wf d → db_wf (ClaimSetupToken d tok a now).1.
Proof.
  intros H. unfold ClaimSetupToken. destruct (setup_tokens d) as [r|]; [|done]. destruct (claimable r tok); [|done].
  destruct (present _) eqn:E; [|done]. apply present_Some in E. wf_table H. intros r' u [= <-] [= <-]. done.
Qed.
Lemma RecordFailed_wf d : db_wf d → db_wf (RecordFailedSetupTokenAttempt d).
Proof.
  intros H. unfold RecordFailedSetupTokenAttempt. destruct (setup_tokens d) as [r|] eqn:Er; [|done].
  destruct (present _); [done|]. wf_table H. intros r' u [= <-]. simpl. eauto.
Qed.
Lemma CreateInviteCode_wf rnd d by_ e now : db_wf d → db_wf (CreateInviteCode rnd d by_ e now).1.
Proof.
  intros H. unfold CreateInviteCode. destruct (Generate _ _); [|done..]. destruct (_ || _) eqn:E; [done|].
  apply orb_false_iff in E as [_ E%negb_false_iff%present_Some]. wf_table H.
  - intros h r [[<- <-]|[_ ?]]%lookup_insert_Some; simpl; eauto.
  - intros h r u [[<- <-]|[_ ?]]%lookup_insert_Some; [done|eauto].
Qed.
Lemma ConsumeInviteCode_wf d c a now : db_wf d → db_wf (ConsumeInviteCode d c a now).1.
Proof.
  intros H. unfold ConsumeInviteCode. destruct (invite_codes d !! _) as [r0|] eqn:Er; [|done].
  destruct (_ && _); [|done]. destruct (present (accounts d !! a)) eqn:E; [|done]. apply present_Some in E. wf_table H.
  - intros h r [[<- <-]|[_ ?]]%lookup_insert_Some; simpl; eauto.
  - intros h r u [[<- <-]|[_ ?]]%lookup_insert_Some; [by intros [= <-]|eauto].
Qed.
Lemma filter_invites_wf d (P : bytes * invite_row → Prop) `{∀ x, Decision (P x)} :
  db_wf d → db_wf (set_invites d (filter P (invite_codes d))).
Proof.
  intros Hd. wf_table Hd.
  - intros h r [Hr _]%map_lookup_filter_Some. eauto.
  - intros h r u [Hr _]%map_lookup_filter_Some. eauto.
Qed.
End codes.

Lemma insert_recipients_wf d b ids :
  db_wf d → is_Some (blobs d !! b) → db_wf (insert_recipients d b ids).1.
Proof.
  revert d. induction ids as [|k ids IH]; intros d H Hb; [done|]. cbn [insert_recipients].
  destruct (_ || _) eqn:E; [done|]. apply orb_false_iff in E as [_ E%negb_false_iff%present_Some].
  apply IH; [|done]. wf_table H. intros b' k' [[= -> ->]%elem_of_singleton|?]%elem_of_union; eauto.
Qed.
Lemma CreateBlob_wf d b ids : db_wf d → db_wf (CreateBlob d b ids).1.
Proof.
  intros H. unfold CreateBlob. destruct (_ =? 0); [done|]. destruct (present _); [done|].
  apply insert_recipients_wf; [|cbn; rewrite lookup_insert_eq; eauto]. wf_table H.
  intros b' k Hx. destruct (wf_blob0 b' k Hx). eauto using insert_is_Some.
Qed.
Lemma CreateBlobWithQuota_wf d b ids n m : db_wf d → db_wf (CreateBlobWithQuota d b ids n m).1.
Proof.
  intros H. unfold CreateBlobWithQuota. destruct (_ =? 0); [done|].
  pose proof (CreateBlob_wf d b (filter (λ x, fits d b n m x = true) ids) H).
  destruct (CreateBlob _ _ _) as [d' []]; done.
Qed.
Lemma DeleteBlobForDevice_wf d b k : db_wf d → db_wf (DeleteBlobForDevice d b k).1.
Proof.
  intros H. unfold DeleteBlobForDevice. destruct (bool_decide _); [|done]. cbv zeta.
  destruct (Nat.ltb 0 _) eqn:E; wf_table H.
  - intros b' k' [Hx _]%elem_of_difference. eauto.
  - intros b' k' Hx. pose proof Hx as [Hx' _]%elem_of_difference. destruct (wf_blob0 b' k' Hx') as [Hb Hk].
    split; [|done]. rewrite lookup_delete_ne; [done|]. intros <-.
    apply Nat.ltb_ge in E. assert (size (filter (λ x : bytes * bytes, x.1 = b) (blob_recipients d ∖ {[(b, k)]})) = 0)%nat as Es by lia.
    apply size_empty_inv in Es. set_solver.
Qed.
Lemma DeleteBlobByID_wf d b : db_wf d → db_wf (DeleteBlobByID d b).
Proof.
  intros H. unfold DeleteBlobByID. wf_table H. intros b' k [Hne Hx]%elem_of_filter.
  destruct (wf_blob0 b' k Hx). split; [|done]. by rewrite lookup_delete_ne.
Qed.

(** ** Any sequence of operations *)

Inductive op :=
  | OCreateAccount (acc : Account) | OSetAccountRole (id role : bytes) | OSetAccountStatus (id status : bytes)
  | ODeleteAccount (id : bytes)
  | OCreateDevice (x : Device) | ORevokeDevice (acc dev : bytes) (at_ : Time)
  | OUpsertDHIdentity (dev pub sig : bytes) (at_ : Time)
  | OSetPush (dev : bytes) (sub : option PushSubscription) | OSetTarget (dev : bytes) (t : option PushTarget)
  | OUpsertSignedPrekey (sp : SignedPrekey) | OAddOneTime (dev : bytes) (keys : list OneTimePrekeyInput) (now : Time)
  | ODeleteOneTime (dev : bytes) | OClaimOneTime (dev : bytes)
  | OCreateMessage (m : Message) | OCreateUnderCap (m : Message) (cap : Z)
  | ODeleteMessage (id dev : bytes) | OPurgeMessages (now : Time)
  | OInitSetup (rnd : Z → option bytes) (now : Time) | OResetSetup | OClaimSetup (tok acc : bytes) (now : Time)
  | OFailedSetup
  | OCreateInvite (rnd : Z → option bytes) (acc : bytes) (e : option Time) (now : Time)
  | OConsumeInvite (code acc : bytes) (now : Time) | OPurgeInvites (now : Time)
  | OCreateBlob (b : Blob) (ids : list bytes) | OCreateBlobQuota (b : Blob) (ids : list bytes) (n m : Z)
  | ODeleteBlobFor (b dev : bytes) | ODeleteBlob (b : bytes)
  | ORecordNonce (dev nonce : bytes) (ts e : Time) | OPurgeNonces (now : Time).

Section ops.
Context {UC : UnicodeCase}.

Definition run_op (d : db) (o : op) : db :=
  match o with
  | OCreateAccount acc => (CreateAccount d acc).1
  | OSetAccountRole id role => (SetAccountRole d id role).1
  | OSetAccountStatus id st => (SetAccountStatus d id st).1
  | ODeleteAccount id => (DeleteAccount d id).1
  | OCreateDevice x => (CreateDevice d x).1
  | ORevokeDevice a k t => (RevokeDevice d a k t).1
  | OUpsertDHIdentity k p s t => (UpsertDHIdentity d k p s t).1
  | OSetPush k s => (SetDevicePushSubscription d k s).1
  | OSetTarget k t => (SetDevicePushTarget d k t).1
  | OUpsertSignedPrekey sp => (UpsertSignedPrekey d sp).1
  | OAddOneTime k keys now => (AddOneTimePrekeys d k keys now).1
  | ODeleteOneTime k => DeleteOneTimePrekeys d k
  | OClaimOneTime k => (ClaimOneTimePrekey d k).1
  | OCreateMessage m => (CreateMessage d m).1
  | OCreateUnderCap m cap => (CreateMessageUnderCap d m cap).1
  | ODeleteMessage i k => (DeleteMessage d i k).1
  | OPurgeMessages now => (PurgeExpiredMessages d now).1
  | OInitSetup rnd now => (InitSetupToken rnd d now).1
  | OResetSetup => ResetSetupToken d
  | OClaimSetup tok acc now => (ClaimSetupToken d tok acc now).1
  | OFailedSetup => RecordFailedSetupTokenAttempt d
  | OCreateInvite rnd a e now => (CreateInviteCode rnd d a e now).1
  | OConsumeInvite c a now => (ConsumeInviteCode d c a now).1
  | OPurgeInvites now => (PurgeExpiredInviteCodes d now).1
  | OCreateBlob b ids => (CreateBlob d b ids).1
  | OCreateBlobQuota b ids n m => (CreateBlobWithQuota d b ids n m).1
  | ODeleteBlobFor b k => (DeleteBlobForDevice d b k).1
  | ODeleteBlob b => DeleteBlobByID d b
  | ORecordNonce k n ts e => (RecordNonce d k n ts e).1
  | OPurgeNonces now => (PurgeExpiredNonces d now).1
  end.

Lemma devices_row_wf d k r f :
  db_wf d → devices d !! k = Some r → dv_account_id (f r) = dv_account_id r →
  dv_push (f r) = dv_push r → dv_push_target (f r) = dv_push_target r →
  db_wf (set_devices d (<[k := f r]> (devices d))).
Proof. intros H Hr E1 E2 E3. apply (update_device_wf d k r); [done..|]. rewrite E2, E3. by apply H with k. Qed.

Lemma run_op_wf d o : db_wf d → db_wf (run_op d o).
Proof.
  intros H. destruct o; cbn [run_op];
    auto using CreateAccount_wf, DeleteAccount_wf, CreateDevice_wf, UpsertSignedPrekey_wf, AddOneTimePrekeys_wf,
      CreateMessage_wf, InitSetupToken_wf, ClaimSetupToken_wf, RecordFailed_wf, CreateInviteCode_wf,
      ConsumeInviteCode_wf, CreateBlob_wf, CreateBlobWithQuota_wf, DeleteBlobForDevice_wf, DeleteBlobByID_wf.
  - unfold SetAccountRole. destruct (accounts d !! id) eqn:E; [|done]. by eapply update_account_wf.
  - unfold SetAccountStatus. destruct (accounts d !! id) eqn:E; [|done]. by eapply update_account_wf.
  - unfold RevokeDevice. destruct (devices d !! dev) as [r|] eqn:E; [|done]. destruct (_ && _); [|done].
    by eapply (devices_row_wf d dev r (λ _, _)).
  - unfold UpsertDHIdentity. destruct (devices d !! dev) as [r|] eqn:E; [|done].
    by eapply (devices_row_wf d dev r (λ _, _)).
  - unfold SetDevicePushSubscription. destruct (devices d !! dev) as [r|] eqn:E; [|done].
    eapply update_device_wf; [done..| |]; destruct sub; simpl; auto.
  - unfold SetDevicePushTarget. destruct (devices d !! dev) as [r|] eqn:E; [|done].
    eapply update_device_wf; [done..| |]; destruct t; simpl; auto.
  - by apply filter_one_time_wf.
  - unfold ClaimOneTimePrekey. destruct (list_find _ _) as [[? ?]|]; [|done]. by apply filter_one_time_wf.
  - unfold CreateMessageUnderCap. destruct (_ <=? _); [done|]. by apply CreateMessage_wf.
  - unfold DeleteMessage. destruct (filter _ _); [done|]. by apply filter_messages_wf.
  - by apply filter_messages_wf.
  - by wf_table H.
  - by apply filter_invites_wf.
  - unfold RecordNonce. destruct (present _); [done|]. by wf_table H.
  - unfold PurgeExpiredNonces. by wf_table H.
Qed.

Lemma run_ops_wf d ops : db_wf d → db_wf (foldl run_op d ops).
Proof.
  revert d. induction ops as [|o ops IH]; intros d Hd; [done|]. apply IH. by apply run_op_wf.
Qed.

(** C36: schema integrity: whatever repository functions run, in whatever order, the
    database keeps its foreign keys and unique constraints -- a deleted account
    takes its devices, their keys, queues and blob claims with it -- account-id
    prefixes stay unambiguous and every device has at most one way to be woken. *)
Theorem store_integrity ops : db_wf (foldl run_op empty_db ops).
Proof. apply run_ops_wf, empty_db_wf. Qed.
End ops.
