(* ===== verification/StoreCorrect.v ===== *)
(** * What the repository functions promise

    Registration and lookup of accounts, one-time prekeys handed out once, invite
    codes and the setup token spent once -- each across any other operations that
    run in between. *)

From S2P Require Import Prelude GoStr GoTime GoTimeParse Sha256 Humancode Store StoreIntegrity.

(** ** Accounts *)

(** Every stored creation time reads back. *)
Definition readable (d : db) : Prop :=
  ∀ id r, accounts d !! id = Some r → is_Some (parseTime (ac_created_at r)).

Definition to_second (t : Time) : Time := mkTime (t_sec t) 0 None 0.
Definition stored_account (acc : Account) : Account :=
  mkAccount (ID acc) (RootPubKey acc) (VersionMarker acc) (Status acc) (AccRole acc) (to_second (CreatedAt acc)).

Lemma GetAccount_Ok d id r : readable d → accounts d !! id = Some r → is_ok (GetAccount d id) = true.
Proof. intros Hr Ha. unfold GetAccount, scanAccount. rewrite Ha. destruct (Hr id r Ha) as [t ->]. done. Qed.

Lemma GetAccountByPrefix_row d id r :
  db_wf d → accounts d !! id = Some r → GetAccountByPrefix d (ac_id_prefix r) = scanAccount id r.
Proof.
  intros Hd Hr. unfold GetAccountByPrefix.
  destruct (list_find _ _) as [[i [id' r']]|] eqn:E.
  - apply list_find_Some in E as (Hin%list_elem_of_lookup_2 & Hp & _).
    apply elem_of_map_to_list in Hin. simpl in Hp.
    assert (id' = id) as -> by (by apply (wf_prefix_unique d Hd id' id r' r)). by simplify_eq.
  - apply list_find_None in E. rewrite Forall_forall in E. destruct (E (id, r)); [|done].
    by apply elem_of_map_to_list.
Qed.

(** Registering an account: [CreateAccount] reports [ErrConflict] exactly when the id
    is registered and [ErrIDPrefixConflict] exactly when only its five-character
    prefix is, changing nothing; otherwise the account can be looked up by id and
    by prefix, as it was given up to fractions of a second, and no other account
    is affected. *)
Theorem create_account_exact d acc :
  db_wf d → readable d → four_digit_year (unix_seconds (CreatedAt acc)) →
  let '(d', r) := CreateAccount d acc in
  match r with
  | Ok _ => accounts d !! ID acc = None ∧ GetAccount d' (ID acc) = Ok (stored_account acc) ∧
            GetAccountByPrefix d' (id_prefix (ID acc)) = Ok (stored_account acc) ∧
            (∀ id, id ≠ ID acc → GetAccount d' id = GetAccount d id)
  | Err e => d' = d ∧
      (e = ErrConflict ∧ is_Some (accounts d !! ID acc) ∨
       e = ErrIDPrefixConflict ∧ accounts d !! ID acc = None ∧
         ∃ id r, accounts d !! id = Some r ∧ id_prefix id = id_prefix (ID acc))
  | Panic => False
  end.
Proof.
  intros Hd Hr Hy. pose proof (CreateAccount_wf d acc Hd) as Hwf. unfold CreateAccount in *.
  destruct (_ || _) eqn:E.
  - destruct (accounts d !! ID acc) as [r|] eqn:Ea.
    + pose proof (GetAccount_Ok d (ID acc) r Hr Ea) as Hok. destruct (GetAccount d (ID acc)); [|done..]. eauto.
    + unfold GetAccount. rewrite Ea. split; [done|]. right. simpl in E. unfold prefix_taken in E.
      apply existsb_exists in E as ([id r] & Hin & Hp). cbn [snd] in Hp. apply (proj1 (eqb_true _ _)) in Hp. apply list_elem_of_In, elem_of_map_to_list in Hin.
      split_and!; [done..|]. exists id, r. split; [done|]. rewrite <- Hp. symmetry. by apply Hd.
  - apply orb_false_iff in E as [E1 _]. apply present_None in E1. cbn [fst] in Hwf.
    set (row := mkAccountRow _ _ _ _ _ _) in *. set (d' := set_accounts _ _) in *.
    assert (scanAccount (ID acc) row = Ok (stored_account acc)) as Hscan.
    { unfold scanAccount, row. cbn [ac_created_at ac_root_pubkey ac_version_marker ac_status ac_role].
      unfold parseTime, formatTime. by rewrite parse_rfc3339_format. }
    assert (accounts d' !! ID acc = Some row) as Hrow by (apply lookup_insert_eq).
    split_and!; [done|..].
    + unfold GetAccount. by rewrite Hrow.
    + change (id_prefix (ID acc)) with (ac_id_prefix row). by rewrite (GetAccountByPrefix_row d' (ID acc) row).
    + intros id Hne. unfold GetAccount, d'. simpl. by rewrite lookup_insert_ne.
Qed.

(** ** One-time prekeys *)

Definition pool (d : db) (dev : bytes) : list one_time_prekey_row :=
  filter (λ r, ot_device_id r = dev) (one_time_prekeys d).
Definition to_input (r : one_time_prekey_row) : OneTimePrekeyInput := mkOneTimeInput (ot_key_id r) (ot_pubkey r).

Lemma list_find_filter {A} (P : A → Prop) `{∀ x, Decision (P x)} (l : list A) :
  (snd <$> list_find P l) = head (filter P l).
Proof.
  induction l as [|x l IH]; [done|]. rewrite filter_cons. simpl. case_decide; [done|].
  rewrite <- IH. by destruct (list_find P l) as [[? ?]|].
Qed.

Lemma filter_ext_in {A} (P Q : A → Prop) `{∀ x, Decision (P x)} `{∀ x, Decision (Q x)} (l : list A) :
  (∀ x, x ∈ l → P x ↔ Q x) → filter P l = filter Q l.
Proof.
  induction l as [|x l IH]; intros Hpq; [done|]. rewrite !filter_cons, IH by (intros; apply Hpq; by right).
  specialize (Hpq x ltac:(left)). repeat case_decide; tauto.
Qed.

Lemma remove_id_filter (P : one_time_prekey_row → Prop) `{∀ x, Decision (P x)} (l : list one_time_prekey_row) r :
  NoDup (ot_id <$> l) → r ∈ l →
  filter P (filter (λ x, ot_id x ≠ ot_id r) l) = filter (λ x, x ≠ r) (filter P l).
Proof.
  intros Hnd Hr. rewrite !list_filter_filter. apply filter_ext_in. intros x Hx.
  split; intros [H1 H2]; split; try done; [by intros ->|].
  intros E. apply H1. by apply (NoDup_fmap_elem_inj ot_id l).
Qed.

Lemma sorted_NoDup l : StronglySorted Z.lt l → NoDup l.
Proof.
  induction 1 as [|x l Hs IH Hf]; constructor; [|done]. intros Hx. rewrite Forall_forall in Hf. specialize (Hf x Hx). lia.
Qed.

(** A claim takes the oldest key of the device's pool and touches no other. *)
Lemma ClaimOneTimePrekey_pool d dev :
  db_wf d → let '(d', r) := ClaimOneTimePrekey d dev in
  r = to_input <$> head (pool d dev) ∧ pool d' dev = tail (pool d dev) ∧
  (∀ k, k ≠ dev → pool d' k = pool d k).
Proof.
  intros Hd. unfold ClaimOneTimePrekey.
  pose proof (list_find_filter (λ r, ot_device_id r = dev) (one_time_prekeys d)) as Hh. fold (pool d dev) in Hh.
  destruct (list_find _ _) as [[i row]|] eqn:E; simpl in Hh.
  - apply list_find_Some in E as (Hin%list_elem_of_lookup_2 & Hdev & _).
    assert (NoDup (ot_id <$> one_time_prekeys d)) as Hnd by (by apply sorted_NoDup, Hd).
    destruct (pool d dev) as [|row' rest] eqn:Ep; [done|]. injection Hh as <-.
    split_and!; [done|..].
    + unfold pool. simpl. rewrite remove_id_filter by done. fold (pool d dev). rewrite Ep.
      assert (NoDup (ot_id <$> row :: rest)) as [Hr _]%NoDup_cons by (rewrite <- Ep; by apply NoDup_fmap_filter).
      rewrite filter_cons_False by auto. apply filter_all. apply Forall_forall. intros x Hx ->.
      apply Hr. by apply list_elem_of_fmap_2.
    + intros k Hk. unfold pool. simpl. rewrite remove_id_filter by done. apply filter_all, Forall_forall.
      intros x [Hx _]%list_elem_of_filter ->. congruence.
  - destruct (pool d dev) eqn:Ep; [|done]. done.
Qed.

(** The keys handed out by a series of claims, one device after the other. *)
Fixpoint claim_series (d : db) (devs : list bytes) : list (bytes * option OneTimePrekeyInput) :=
  match devs with
  | [] => []
  | dev :: devs => let '(d', r) := ClaimOneTimePrekey d dev in (dev, r) :: claim_series d' devs
  end.
Definition handed_to (dev : bytes) (l : list (bytes * option OneTimePrekeyInput)) : list OneTimePrekeyInput :=
  omap (λ x, if decide (x.1 = dev) then x.2 else None) l.

Lemma ClaimOneTimePrekey_wf d dev : db_wf d → db_wf (ClaimOneTimePrekey d dev).1.
Proof. intros H. unfold ClaimOneTimePrekey. destruct (list_find _ _) as [[? ?]|]; [|done]. by apply filter_one_time_wf. Qed.

(** One-time prekeys are handed out once: a series of claims, for any devices in any
    order, gives out the keys of each device's pool oldest first, each exactly once,
    and then none. *)
Theorem prekeys_claimed_once d devs dev :
  db_wf d →
  handed_to dev (claim_series d devs) =
  to_input <$> take (length (filter (λ x, x = dev) devs)) (pool d dev).
Proof.
  revert d. induction devs as [|x devs IH]; intros d Hd; [done|]. cbn [claim_series].
  pose proof (ClaimOneTimePrekey_pool d x Hd) as Hc. pose proof (ClaimOneTimePrekey_wf d x Hd) as Hd'.
  destruct (ClaimOneTimePrekey d x) as [d' r]. destruct Hc as (-> & Hp & Ho). simpl in Hd'.
  rewrite filter_cons. unfold handed_to. cbn [omap list_omap fst snd].
  fold (handed_to dev (claim_series d' devs)). rewrite IH by done. destruct (decide (x = dev)) as [->|Hne].
  - rewrite Hp. simpl. destruct (pool d dev) as [|p ps]; simpl; [by rewrite take_nil|done].
  - by rewrite Ho.
Qed.

(** ** Which operations touch which tables *)

Lemma AddOneTimePrekeys_frame d k keys now :
  let d' := (AddOneTimePrekeys d k keys now).1 in
  invite_codes d' = invite_codes d ∧ setup_tokens d' = setup_tokens d ∧ messages d' = messages d ∧
  devices d' = devices d ∧ blobs d' = blobs d ∧ blob_recipients d' = blob_recipients d.
Proof.
  revert d. induction keys as [|x keys IH]; intros d; [done|]. cbn [AddOneTimePrekeys].
  destruct (present _); [|done]. cbv zeta in *. set (d1 := set_one_time _ _ _). exact (IH d1).
Qed.
Lemma insert_recipients_frame d b ids :
  let d' := (insert_recipients d b ids).1 in
  invite_codes d' = invite_codes d ∧ setup_tokens d' = setup_tokens d ∧ messages d' = messages d ∧
  devices d' = devices d ∧ blobs d' = blobs d.
Proof.
  revert d. induction ids as [|x ids IH]; intros d; [done|]. cbn [insert_recipients].
  destruct (_ || _); [done|]. cbv zeta in *. set (d1 := set_blobs _ _ _). exact (IH d1).
Qed.
Lemma CreateBlob_frame d b ids :
  let d' := (CreateBlob d b ids).1 in
  invite_codes d' = invite_codes d ∧ setup_tokens d' = setup_tokens d ∧ messages d' = messages d ∧
  devices d' = devices d.
Proof.
  unfold CreateBlob. destruct (_ =? 0); [done|]. destruct (present _); [done|].
  destruct (insert_recipients_frame (set_blobs d (<[BlobID b := mkBlobRow (SizeBytes b) (formatTime (BlobCreatedAt b))
    (formatTime (BlobExpiresAt b))]> (blobs d)) (blob_recipients d)) (BlobID b) ids) as (? & ? & ? & ? & _). done.
Qed.
Lemma CreateBlobWithQuota_db d b ids n m :
  (CreateBlobWithQuota d b ids n m).1 = d ∨
  (CreateBlobWithQuota d b ids n m).1 = (CreateBlob d b (filter (λ x, fits d b n m x = true) ids)).1.
Proof.
  unfold CreateBlobWithQuota. destruct (_ =? 0); [by left|right]. by destruct (CreateBlob _ _ _) as [? []].
Qed.
Lemma CreateBlobWithQuota_frame d b ids n m :
  let d' := (CreateBlobWithQuota d b ids n m).1 in
  invite_codes d' = invite_codes d ∧ setup_tokens d' = setup_tokens d ∧ messages d' = messages d ∧
  devices d' = devices d.
Proof. destruct (CreateBlobWithQuota_db d b ids n m) as [-> | ->]; [done|apply CreateBlob_frame]. Qed.

(** Unfold the operation at hand and leave the cases that change something. *)
Ltac open_op :=
  cbn [run_op];
  unfold CreateAccount, SetAccountRole, SetAccountStatus, CreateDevice, RevokeDevice, UpsertDHIdentity,
    SetDevicePushSubscription, SetDevicePushTarget, UpsertSignedPrekey, DeleteOneTimePrekeys, ClaimOneTimePrekey,
    CreateMessageUnderCap, CreateMessage, DeleteMessage, PurgeExpiredMessages, InitSetupToken, ResetSetupToken,
    ClaimSetupToken, RecordFailedSetupTokenAttempt, CreateInviteCode, ConsumeInviteCode, PurgeExpiredInviteCodes,
    DeleteBlobForDevice, DeleteBlobByID, RecordNonce, PurgeExpiredNonces;
  repeat case_match.

Section spent_codes.
Context {UC : UnicodeCase}.

(** ** Invite codes *)

(** The code with this hash cannot be redeemed: it is used up, or unknown. *)
Definition dead_code (d : db) (h : bytes) : Prop :=
  ∀ r, invite_codes d !! h = Some r → is_Some (iv_used_at r).
Definition makes_code (o : op) (h : bytes) : Prop :=
  match o with
  | OCreateInvite rnd _ _ _ => ∃ code, Generate rnd inviteCodeSymbols = Ok code ∧ hashToken code = h
  | _ => False
  end.

Lemma dead_code_stays d o h : dead_code d h → ¬ makes_code o h → dead_code (run_op d o) h.
Proof.
  unfold dead_code. intros Hd Hn r.
  destruct o; try (open_op; by auto).
  - cbn [run_op]. unfold DeleteAccount. destruct (accounts d !! id); [|apply Hd]. simpl.
    rewrite lookup_fmap_Some. intros (r0 & <- & [Hr _]%map_lookup_filter_Some). simpl. by apply Hd.
  - cbn [run_op]. destruct (AddOneTimePrekeys_frame d dev keys now) as [-> _]. apply Hd.
  - cbn [run_op]. unfold CreateInviteCode. destruct (Generate rnd inviteCodeSymbols) as [code| |] eqn:E; [|apply Hd..].
    destruct (_ || _); [apply Hd|]. simpl. intros [[<- _]|[_ Hr]]%lookup_insert_Some; [|by apply Hd].
    exfalso. apply Hn. simpl. eauto.
  - cbn [run_op]. unfold ConsumeInviteCode. destruct (invite_codes d !! inviteCodeHash code) eqn:E; [|apply Hd].
    destruct (_ && _); [|apply Hd]. destruct (present _); [|apply Hd]. simpl.
    intros [[_ <-]|[_ Hr]]%lookup_insert_Some; [by eexists|by apply Hd].
  - cbn [run_op]. unfold PurgeExpiredInviteCodes. simpl. intros [Hr _]%map_lookup_filter_Some. by apply Hd.
  - cbn [run_op]. destruct (CreateBlob_frame d b ids) as [-> _]. apply Hd.
  - cbn [run_op]. destruct (CreateBlobWithQuota_frame d b ids n m) as [-> _]. apply Hd.
Qed.

Lemma invite_diagnosis_not_Ok d code now : invite_diagnosis d code now ≠ Ok ().
Proof.
  unfold invite_diagnosis. destruct (GetInviteCode d code) as [inv| |]; cbn [mbind res_bind]; [|done..].
  repeat case_match; done.
Qed.

Lemma dead_code_refused d code acc now :
  dead_code d (inviteCodeHash code) → (ConsumeInviteCode d code acc now).2 ≠ Ok ().
Proof.
  intros Hd. unfold ConsumeInviteCode.
  pose proof (invite_diagnosis_not_Ok d code now).
  destruct (invite_codes d !! inviteCodeHash code) as [r|] eqn:E; [|done].
  destruct (Hd r E) as [t ->]. done.
Qed.

(** An invite code is redeemed once: after a successful redemption the code, in any
    spelling, is refused for every account at every time, whatever the server did in
    between -- purges and deletions included -- short of issuing the same code anew. *)
Theorem invite_single_use d code acc now d' ops code' acc' now' :
  ConsumeInviteCode d code acc now = (d', Ok ()) →
  Forall (λ o, ¬ makes_code o (inviteCodeHash code)) ops → Normalize code' = Normalize code →
  (ConsumeInviteCode (foldl run_op d' ops) code' acc' now').2 ≠ Ok ().
Proof.
  intros Hc Hops Hn. apply dead_code_refused. unfold inviteCodeHash at 1. rewrite Hn. fold (inviteCodeHash code).
  assert (dead_code d' (inviteCodeHash code)) as Hd.
  { unfold ConsumeInviteCode in Hc. destruct (invite_codes d !! inviteCodeHash code) as [r|] eqn:E.
    - destruct (_ && _); [|by destruct (invite_diagnosis_not_Ok d code now); injection Hc].
      destruct (present (accounts d !! acc)); [|done]. injection Hc as <-. intros r'. simpl.
      rewrite lookup_insert_eq. intros [= <-]. by eexists.
    - by destruct (invite_diagnosis_not_Ok d code now); injection Hc. }
  clear Hc. revert d' Hd. induction Hops as [|o ops Ho Hops IH]; intros d' Hd; [done|].
  simpl. by apply IH, dead_code_stays.
Qed.

(** Text comparison of stored times is comparison of the seconds. *)
Lemma stored_leb t u :
  four_digit_year (unix_seconds t) → four_digit_year (unix_seconds u) →
  bytes_leb (formatTime t) (formatTime u) = (t_sec t <=? t_sec u).
Proof.
  intros Ht Hu. unfold formatTime, rfc3339. rewrite rfc3339_leb by done. unfold unix_seconds.
  destruct (Z.leb_spec (t_sec t - unix_to_internal) (t_sec u - unix_to_internal)), (Z.leb_spec (t_sec t) (t_sec u)); lia || done.
Qed.

(** The row of an invite as [CreateInviteCode] and [ConsumeInviteCode] write it. *)
Definition invite_row_of (createdBy : bytes) (createdAt : Time) (e used : option Time) (usedBy : option bytes) : invite_row :=
  mkInviteRow createdBy (formatTime createdAt) (formatTime <$> e) (formatTime <$> used) usedBy.
Definition year_ok (t : Time) : Prop := four_digit_year (unix_seconds t).

Lemma parse_format t : year_ok t → parseTime (formatTime t) = Some (to_second t).
Proof. apply parse_rfc3339_format. Qed.

Lemma scan_time_format o e :
  (∀ t, o = Some t → year_ok t) → scan_time (formatTime <$> o) e = Ok (to_second <$> o).
Proof.
  destruct o as [t|]; simpl; [|done]. intros H. by rewrite parse_format by (by apply H).
Qed.

(** Redeeming an invite code does what it says on every branch: an unknown code is
    [ErrNotFound], a used one [ErrInviteAlreadyUsed], one whose expiry second has
    come [ErrInviteExpired]; any other is redeemed, recording by whom and when. *)
Theorem consume_invite_exact d code acc now :
  year_ok now → t_mono now = None → 0 ≤ t_nsec now < second → is_Some (accounts d !! acc) →
  (invite_codes d !! inviteCodeHash code = None → ConsumeInviteCode d code acc now = (d, Err ErrNotFound)) ∧
  (∀ by_ at_ e used usedBy,
    invite_codes d !! inviteCodeHash code = Some (invite_row_of by_ at_ e used usedBy) →
    year_ok at_ → (∀ t, e = Some t → year_ok t) → (∀ t, used = Some t → year_ok t) →
    match used, e with
    | Some _, _ => ConsumeInviteCode d code acc now = (d, Err ErrInviteAlreadyUsed)
    | None, Some t =>
      if t_sec t <=? t_sec now then ConsumeInviteCode d code acc now = (d, Err ErrInviteExpired)
      else (ConsumeInviteCode d code acc now).2 = Ok () ∧
           invite_codes (ConsumeInviteCode d code acc now).1 !! inviteCodeHash code
             = Some (invite_row_of by_ at_ e (Some now) (Some acc))
    | None, None =>
      (ConsumeInviteCode d code acc now).2 = Ok () ∧
      invite_codes (ConsumeInviteCode d code acc now).1 !! inviteCodeHash code
        = Some (invite_row_of by_ at_ e (Some now) (Some acc))
    end).
Proof.
  intros Hnow Hm Hns Hacc. unfold ConsumeInviteCode, invite_diagnosis, GetInviteCode. split.
  { by intros ->. }
  intros by_ at_ e used usedBy Hrow Hat He Hu. rewrite Hrow.
  apply present_Some in Hacc. rewrite Hacc.
  unfold invite_row_of. cbn [iv_created_at iv_expires_at iv_used_at iv_created_by iv_used_by].
  rewrite (parse_format at_) by done.
  cbn [mbind res_bind Prelude.from_option]. rewrite !scan_time_format by done.
  cbn [mbind res_bind]. cbn [UsedAt InvExpiresAt].
  destruct used as [u|]; [done|]. destruct e as [t|]; cbn [fmap option_fmap option_map present negb andb expired_at].
  - rewrite stored_leb; [|by apply He|done]. destruct (t_sec t <=? t_sec now) eqn:E; cbn [negb].
    + unfold after, before, to_second. cbn [t_mono t_sec t_nsec]. rewrite Hm. apply Z.leb_le in E.
      destruct (Z.ltb_spec (t_sec now) (t_sec t)); [lia|].
      destruct (Z.ltb_spec (t_nsec now) 0); [lia|]. by destruct (t_sec now =? t_sec t).
    + split; [done|]. simpl. by rewrite lookup_insert_eq.
  - split; [done|]. simpl. by rewrite lookup_insert_eq.
Qed.

(** ** The setup token *)

(** Used up, or locked out by failed attempts. *)
Definition locked (d : db) : Prop :=
  ∃ r, setup_tokens d = Some r ∧ (is_Some (st_used_at r) ∨ MaxSetupTokenAttempts ≤ st_failed_attempts r).

Lemma locked_refused d tok acc now : locked d → ClaimSetupToken d tok acc now = (d, Err ErrInvalidToken).
Proof.
  intros (r & E & Hr). unfold ClaimSetupToken. rewrite E. unfold claimable.
  destruct Hr as [[t ->]|Hr]; [by rewrite andb_false_r|].
  by rewrite (proj2 (Z.ltb_ge _ _)), andb_false_r by done.
Qed.

Lemma locked_stays d o : locked d → o ≠ OResetSetup → locked (run_op d o).
Proof.
  intros (r & E & Hr) Hne.
  destruct o; try done; try (exists r; open_op; by auto).
  - cbn [run_op]. unfold DeleteAccount. destruct (accounts d !! id); [|by exists r].
    exists (clear_setup_used_by id r). simpl. rewrite E. done.
  - exists r. cbn [run_op]. by destruct (AddOneTimePrekeys_frame d dev keys now) as (_ & -> & _).
  - exists r. cbn [run_op]. unfold InitSetupToken. rewrite E. done.
  - cbn [run_op]. rewrite locked_refused by (by exists r). by exists r.
  - cbn [run_op]. unfold RecordFailedSetupTokenAttempt. rewrite E. destruct (present _) eqn:Eu; [by exists r|].
    eexists. split; [done|]. simpl. destruct Hr as [?|]; [by left|right; lia].
  - exists r. cbn [run_op]. by destruct (CreateBlob_frame d b ids) as (_ & -> & _).
  - exists r. cbn [run_op]. by destruct (CreateBlobWithQuota_frame d b ids n m) as (_ & -> & _).
Qed.

(** A failed attempt counts, whatever token was tried. *)
Definition failed_attempts (d : db) (n : nat) : db := Nat.iter n RecordFailedSetupTokenAttempt d.

Lemma failed_attempts_count d r n :
  setup_tokens d = Some r → st_used_at r = None →
  setup_tokens (failed_attempts d n) =
    Some (mkSetupRow (st_token_hash r) (st_created_at r) None (st_used_by r) (st_failed_attempts r + Z.of_nat n)).
Proof.
  intros E Hu. induction n as [|n IH].
  - simpl. rewrite E. destruct r; simpl in *. subst. do 2 f_equal. lia.
  - change (failed_attempts d (S n)) with (RecordFailedSetupTokenAttempt (failed_attempts d n)).
    unfold RecordFailedSetupTokenAttempt at 1. rewrite IH. simpl. do 2 f_equal. lia.
Qed.

(** The setup token is claimed once and guessed at most ten times: once it has been
    claimed, or ten failed attempts have been recorded, no token is accepted any
    more, for any account, whatever else runs, until the operator resets it. *)
Theorem setup_token_locks d tok acc now ops :
  Forall (λ o, o ≠ OResetSetup) ops →
  ((ClaimSetupToken d tok acc now).2 = Ok () →
   ∀ tok' acc' now', (ClaimSetupToken (foldl run_op (ClaimSetupToken d tok acc now).1 ops) tok' acc' now').2
                     = Err ErrInvalidToken) ∧
  ((∃ r, setup_tokens d = Some r ∧ 0 ≤ st_failed_attempts r) →
   ∀ tok' acc' now', (ClaimSetupToken (foldl run_op (failed_attempts d 10) ops) tok' acc' now').2
                     = Err ErrInvalidToken).
Proof.
  intros Hops.
  assert (∀ d, locked d → locked (foldl run_op d ops)) as Hs.
  { induction Hops as [|o ops Ho Hops IH]; intros d0 Hd; [done|]. apply IH. by apply locked_stays. }
  split.
  - intros Hc tok' acc' now'. rewrite locked_refused; [done|]. apply Hs. unfold ClaimSetupToken in *.
    destruct (setup_tokens d) as [r|]; [|done]. destruct (claimable r tok); [|done].
    destruct (present (accounts d !! acc)); [|done]. eexists. split; [done|]. left. by eexists.
  - intros (r & E & Hf) tok' acc' now'.
    rewrite locked_refused; [done|]. apply Hs. destruct (st_used_at r) as [u|] eqn:Eu.
    + exists r. split; [|left; by eexists]. clear Hs. assert (∀ n, setup_tokens (failed_attempts d n) = Some r) as Hn; [|apply Hn].
      intros n. induction n as [|n IH]; [done|].
      change (failed_attempts d (S n)) with (RecordFailedSetupTokenAttempt (failed_attempts d n)).
      unfold RecordFailedSetupTokenAttempt at 1. by rewrite IH, Eu.
    + eexists. split; [by apply (failed_attempts_count d r)|]. right. simpl. unfold MaxSetupTokenAttempts. lia.
Qed.
End spent_codes.
