(* ===== verification/StoreQueue.v ===== *)
(** * Queues, quotas and revocations over time

    Limits that hold after any sequence of operations, messages that stay queued
    until they are taken, revocations that are never undone, and the quota of attachments
    under uploads that race. *)

From S2P Require Import Prelude GoStr GoTime GoTimeParse Sha256 Humancode Store StoreIntegrity StoreCorrect.

Lemma sublist_filter_length {A} (P : A → Prop) `{∀ x, Decision (P x)} (l k : list A) :
  l `sublist_of` k → (length (filter P l) ≤ length (filter P k))%nat.
Proof. induction 1; rewrite ?filter_cons; repeat case_decide; simpl; lia. Qed.

Section queues.
Context {UC : UnicodeCase}.

(** ** The message queue *)

Definition enqueues (o : op) : option Message :=
  match o with OCreateMessage m => Some m | OCreateUnderCap m _ => Some m | _ => None end.

(** Only an enqueueing operation adds to the queue. *)
Lemma messages_sublist d o : enqueues o = None → messages (run_op d o) `sublist_of` messages d.
Proof.
  intros Ho. destruct o; try done; try (open_op; done).
  - cbn [run_op]. unfold DeleteAccount. destruct (accounts d !! id); [|done]. simpl. apply sublist_filter.
  - cbn [run_op]. by destruct (AddOneTimePrekeys_frame d dev keys now) as (_ & _ & -> & _).
  - cbn [run_op]. unfold DeleteMessage. destruct (filter _ _); [done|]. simpl. apply sublist_filter.
  - cbn [run_op]. simpl. apply sublist_filter.
  - cbn [run_op]. by destruct (CreateBlob_frame d b ids) as (_ & _ & -> & _).
  - cbn [run_op]. by destruct (CreateBlobWithQuota_frame d b ids n m) as (_ & _ & -> & _).
Qed.

Definition within_cap (cap : Z) (o : op) : Prop :=
  match o with OCreateMessage _ => False | OCreateUnderCap _ c => c ≤ cap | _ => True end.

(** A device's queue is bounded: as long as messages are enqueued through
    [CreateMessageUnderCap], no device ever has more than the cap queued, whatever
    senders do. *)
Theorem queue_bounded cap ops dev :
  0 ≤ cap → Forall (within_cap cap) ops →
  CountPendingMessages (foldl run_op empty_db ops) dev ≤ cap.
Proof.
  intros Hcap Hops.
  assert (∀ d, (∀ k, CountPendingMessages d k ≤ cap) → ∀ k, CountPendingMessages (foldl run_op d ops) k ≤ cap) as Hs;
    [|by apply Hs; intros k; unfold CountPendingMessages, zlen; simpl].
  induction Hops as [|o ops Ho Hops IH]; intros d Hd; [done|]. apply IH. intros k. clear IH.
  destruct (enqueues o) eqn:Ee.
  - destruct o; try done. injection Ee as ->. cbn [run_op]. unfold CreateMessageUnderCap.
    destruct (Z.leb_spec cap0 (CountPendingMessages d (RecipientDeviceID m))) as [|Hlt]; [apply Hd|].
    unfold CreateMessage. repeat (case_match; [apply Hd|]). simpl in Ho |- *. unfold CountPendingMessages in *. simpl.
    rewrite filter_app, zlen_app. destruct (decide (k = RecipientDeviceID m)) as [->|Hne].
    + rewrite (filter_cons_True _ (message_to_row m)) by done. rewrite filter_nil. unfold zlen in *. simpl. lia.
    + rewrite (filter_cons_False _ (message_to_row m)) by (simpl; congruence). rewrite filter_nil. unfold zlen in *.
      specialize (Hd k). simpl. lia.
  - specialize (Hd k). unfold CountPendingMessages, zlen in *.
    pose proof (sublist_filter_length (λ r, ms_recipient_device r = k) _ _ (messages_sublist d o Ee)). lia.
Qed.

(** What would take the message off the queue: its deletion by the recipient, a purge
    after its expiry, or the end of the recipient's account. *)
Definition takes (o : op) (m : Message) (owner : bytes) : Prop :=
  match o with
  | ODeleteMessage id dev => id = MessageID m ∧ dev = RecipientDeviceID m
  | OPurgeMessages now => t_sec (ExpiresAt m) < t_sec now
  | ODeleteAccount id => id = owner
  | _ => False
  end.
Definition sane_op (o : op) : Prop :=
  match o with
  | OCreateMessage m | OCreateUnderCap m _ => year_ok (SentAt m) ∧ year_ok (ExpiresAt m)
  | OPurgeMessages now => year_ok now
  | _ => True
  end.

Definition queued (d : db) (m : Message) (owner : bytes) : Prop :=
  message_to_row m ∈ messages d ∧ ∃ r, devices d !! RecipientDeviceID m = Some r ∧ dv_account_id r = owner.
Definition queue_readable (d : db) : Prop :=
  ∀ r, r ∈ messages d → ∃ m, r = message_to_row m ∧ year_ok (SentAt m) ∧ year_ok (ExpiresAt m).

(** A device keeps its account for as long as it exists. *)
Lemma device_owner d o k r :
  devices d !! k = Some r →
  (∃ id, o = ODeleteAccount id ∧ id = dv_account_id r) ∨
  ∃ r', devices (run_op d o) !! k = Some r' ∧ dv_account_id r' = dv_account_id r ∧
        (dv_status r = DeviceStatusRevoked → dv_status r' = DeviceStatusRevoked).
Proof.
  intros Hr.
  assert (∀ i x, (∀ r0, devices d !! i = Some r0 → dv_account_id x = dv_account_id r0 ∧
            (dv_status r0 = DeviceStatusRevoked → dv_status x = DeviceStatusRevoked)) →
          ∃ r', <[i := x]> (devices d) !! k = Some r' ∧ dv_account_id r' = dv_account_id r ∧
            (dv_status r = DeviceStatusRevoked → dv_status r' = DeviceStatusRevoked)) as Hins.
  { intros i x Hi. destruct (decide (i = k)) as [->|Hne].
    - exists x. rewrite lookup_insert_eq. destruct (Hi r Hr). done.
    - exists r. by rewrite lookup_insert_ne. }
  destruct o; try (right; exists r; open_op; done).
  - cbn [run_op]. unfold DeleteAccount. destruct (accounts d !! id) eqn:Ea; [|right; by exists r].
    destruct (decide (id = dv_account_id r)) as [->|Hne]; [left; eauto|right]. exists r. split; [|done]. simpl.
    apply map_lookup_filter_Some. split; [done|]. simpl. intros [r0 [Hr0 E]%map_lookup_filter_Some]%elem_of_dom.
    simpl in E. congruence.
  - right. cbn [run_op]. unfold CreateDevice. destruct (present _) eqn:E; [by exists r|]. apply present_None in E.
    destruct (negb _); [by exists r|]. apply Hins. intros r0 Hr0. congruence.
  - right. cbn [run_op]. unfold RevokeDevice. destruct (devices d !! dev) as [r0|] eqn:E; [|by exists r].
    destruct (_ && _); [|by exists r]. apply Hins. intros r1 [= <-]%(λ H, eq_trans (eq_sym E) H). done.
  - right. cbn [run_op]. unfold UpsertDHIdentity. destruct (devices d !! dev) as [r0|] eqn:E; [|by exists r].
    apply Hins. intros r1 Hr1. rewrite E in Hr1. by injection Hr1 as <-.
  - right. cbn [run_op]. unfold SetDevicePushSubscription. destruct (devices d !! dev) as [r0|] eqn:E; [|by exists r].
    apply Hins. intros r1 Hr1. rewrite E in Hr1. injection Hr1 as <-. by destruct sub.
  - right. cbn [run_op]. unfold SetDevicePushTarget. destruct (devices d !! dev) as [r0|] eqn:E; [|by exists r].
    apply Hins. intros r1 Hr1. rewrite E in Hr1. injection Hr1 as <-. by destruct t.
  - right. exists r. cbn [run_op]. by destruct (AddOneTimePrekeys_frame d dev keys now) as (_ & _ & _ & -> & _).
  - right. exists r. cbn [run_op]. by destruct (CreateBlob_frame d b ids) as (_ & _ & _ & ->).
  - right. exists r. cbn [run_op]. by destruct (CreateBlobWithQuota_frame d b ids n m) as (_ & _ & _ & ->).
Qed.

Lemma CreateMessage_messages d m :
  messages (CreateMessage d m).1 = messages d ∨ messages (CreateMessage d m).1 = messages d ++ [message_to_row m].
Proof. unfold CreateMessage. repeat (case_match; [by left|]). by right. Qed.

Lemma enqueue_messages d o m :
  enqueues o = Some m →
  messages (run_op d o) = messages d ∨ messages (run_op d o) = messages d ++ [message_to_row m].
Proof.
  destruct o; intros [= ->]; cbn [run_op]; [apply CreateMessage_messages|].
  unfold CreateMessageUnderCap. destruct (_ <=? _); [by left|apply CreateMessage_messages].
Qed.

Lemma queue_readable_stays d o : queue_readable d → sane_op o → queue_readable (run_op d o).
Proof.
  intros Hd Ho r Hr. destruct (enqueues o) as [m|] eqn:E.
  - assert (year_ok (SentAt m) ∧ year_ok (ExpiresAt m)) as Hm by (destruct o; try done; by injection E as ->).
    destruct (enqueue_messages d o m E) as [Em|Em]; rewrite Em in Hr; [by apply Hd|].
    apply elem_of_app in Hr as [Hr| ->%list_elem_of_singleton]; [by apply Hd|eauto].
  - apply Hd. by eapply elem_of_sublist, messages_sublist.
Qed.

Lemma queued_message_stays d o m owner :
  queued d m owner → year_ok (ExpiresAt m) → sane_op o → ¬ takes o m owner →
  message_to_row m ∈ messages (run_op d o).
Proof.
  intros [Hm (r & Hr & Ho)] Hy Hs Hn. destruct (enqueues o) as [m'|] eqn:E.
  { destruct (enqueue_messages d o m' E) as [-> | ->]; [done|]. apply elem_of_app. by left. }
  destruct o; try done; try (open_op; done).
  - cbn [run_op]. unfold DeleteAccount. destruct (accounts d !! id); [|done]. simpl.
    apply list_elem_of_filter. split; [|done]. simpl. intros [r0 [Hr0 E0]%map_lookup_filter_Some]%elem_of_dom.
    simpl in *. congruence.
  - cbn [run_op]. by destruct (AddOneTimePrekeys_frame d dev keys now) as (_ & _ & -> & _).
  - cbn [run_op]. unfold DeleteMessage. destruct (filter _ _); [done|]. simpl.
    apply list_elem_of_filter. split; [|done]. simpl. simpl in Hn. intros [? ?]. by apply Hn.
  - cbn [run_op]. simpl. apply list_elem_of_filter. split; [|done]. simpl. unfold bytes_ltb.
    rewrite stored_leb by done. apply negb_false_iff, Z.leb_le. simpl in Hn. lia.
  - cbn [run_op]. by destruct (CreateBlob_frame d b ids) as (_ & _ & -> & _).
  - cbn [run_op]. by destruct (CreateBlobWithQuota_frame d b ids n m0) as (_ & _ & -> & _).
Qed.

Lemma queued_stays d o m owner :
  queued d m owner → year_ok (ExpiresAt m) → sane_op o → ¬ takes o m owner → queued (run_op d o) m owner.
Proof.
  intros Hq Hy Hs Hn. split; [by apply (queued_message_stays d o m owner)|]. destruct Hq as [_ (r & Hr & Ho)].
  destruct (device_owner d o _ r Hr) as [(id & -> & ->)|(r' & Hr' & E & _)]; [|exists r'; by rewrite E].
  by destruct Hn.
Qed.

(** What reading the queue gives for the message. *)
Definition stored_message (m : Message) : Message :=
  mkMessage (MessageID m) (SenderAccountID m) (SenderDeviceID m) (RecipientAccountID m) (RecipientDeviceID m)
    (Payload m) (to_second (SentAt m)) (to_second (ExpiresAt m)).

Lemma scanMessage_row m : year_ok (SentAt m) → year_ok (ExpiresAt m) → scanMessage (message_to_row m) = Ok (stored_message m).
Proof. intros Hs He. unfold scanMessage. simpl. by rewrite !parse_format. Qed.

Lemma scan_all_Ok {A B} (scan : A → res StoreError B) l :
  (∀ x, x ∈ l → is_ok (scan x) = true) →
  ∃ k, scan_all scan l = Ok k ∧ ∀ x b, x ∈ l → scan x = Ok b → b ∈ k.
Proof.
  induction l as [|x l IH]; intros Hl; [exists []; split; [done|set_solver]|]. simpl.
  destruct (is_ok_ex (scan x)) as [b Hb]; [apply Hl; left|].
  destruct IH as (k & Hk & Hin); [intros y Hy; apply Hl; by right|]. rewrite Hb, Hk. cbn [mbind res_bind].
  exists (b :: k). split; [done|]. intros y b' [->|Hy]%elem_of_cons E; [|right; eauto].
  rewrite Hb in E. injection E as ->. left.
Qed.

Lemma ListPendingMessages_Ok d m :
  queue_readable d → message_to_row m ∈ messages d → year_ok (SentAt m) → year_ok (ExpiresAt m) →
  ∃ l, ListPendingMessages d (RecipientDeviceID m) = Ok l ∧ stored_message m ∈ l.
Proof.
  intros Hr Hm Hs He. unfold ListPendingMessages.
  destruct (scan_all_Ok scanMessage
    (merge_sort sent_le (filter (λ r, ms_recipient_device r = RecipientDeviceID m) (messages d)))) as (l & El & Hl).
  { intros x. rewrite merge_sort_Permutation. intros [_ Hx]%list_elem_of_filter.
    destruct (Hr x Hx) as (m' & -> & ? & ?). by rewrite scanMessage_row. }
  exists l. split; [done|]. apply (Hl (message_to_row m)); [|by apply scanMessage_row].
  rewrite merge_sort_Permutation. by apply list_elem_of_filter.
Qed.

(** C37: at-least-once delivery: a message accepted into a device's queue is listed for
    that device -- content intact, times to the second -- after any further
    operations, until the recipient deletes it, a purge runs past its expiry, or
    the recipient's account is deleted. *)
Theorem message_stays_queued d m cap owner ops :
  queue_readable d → year_ok (SentAt m) → year_ok (ExpiresAt m) →
  (∃ r, devices d !! RecipientDeviceID m = Some r ∧ dv_account_id r = owner) →
  (CreateMessageUnderCap d m cap).2 = Ok () →
  Forall (λ o, sane_op o ∧ ¬ takes o m owner) ops →
  ∃ l, ListPendingMessages (foldl run_op (CreateMessageUnderCap d m cap).1 ops) (RecipientDeviceID m) = Ok l ∧
       stored_message m ∈ l.
Proof.
  intros Hr Hs He Hdev Hok Hops.
  assert (queued (CreateMessageUnderCap d m cap).1 m owner) as Hq.
  { unfold CreateMessageUnderCap, CreateMessage in *. repeat case_match; try done. split; [|done].
    simpl. apply elem_of_app. right. by apply list_elem_of_singleton. }
  assert (queue_readable (CreateMessageUnderCap d m cap).1) as Hr'.
  { by apply (queue_readable_stays d (OCreateUnderCap m cap)). }
  clear Hok Hdev Hr. revert Hq Hr'. generalize (CreateMessageUnderCap d m cap).1 as d0.
  induction Hops as [|o ops [Ho Hn] Hops IH]; intros d0 Hq Hr.
  - by apply ListPendingMessages_Ok; [|apply Hq|..].
  - apply IH; [by apply queued_stays|by apply queue_readable_stays].
Qed.

(** ** Revocation *)

Definition revoked (d : db) (dev owner : bytes) : Prop :=
  ∃ r, devices d !! dev = Some r ∧ dv_account_id r = owner ∧ dv_status r = DeviceStatusRevoked.

Lemma RevokeDevice_revokes d acc dev t :
  (RevokeDevice d acc dev t).2 = Ok () → revoked (RevokeDevice d acc dev t).1 dev acc.
Proof.
  unfold RevokeDevice. destruct (devices d !! dev) as [r|]; [|done]. destruct (_ && _) eqn:E; [|done]. intros _.
  eexists. simpl. rewrite lookup_insert_eq. split; [done|]. simpl.
  apply andb_true_iff in E as [E%eqb_true_1 _]. done.
Qed.

Lemma revoked_stays d o dev owner : revoked d dev owner → o ≠ ODeleteAccount owner → revoked (run_op d o) dev owner.
Proof.
  intros (r & Hr & <- & Hs) Hn. destruct (device_owner d o dev r Hr) as [(id & -> & ->)|(r' & Hr' & E & Hs')]; [done|].
  exists r'. auto.
Qed.

(** Revocation is scoped and final: [RevokeDevice] succeeds only for an active device
    of the given account and leaves every other device as it was; from then on,
    whatever runs, the device is never active again for as long as the account
    exists. *)
Theorem revocation_final d acc dev t d' ops :
  RevokeDevice d acc dev t = (d', Ok ()) → Forall (λ o, o ≠ ODeleteAccount acc) ops →
  (∃ r, devices d !! dev = Some r ∧ dv_account_id r = acc ∧ dv_status r = DeviceStatusActive) ∧
  (∀ k, k ≠ dev → devices d' !! k = devices d !! k) ∧
  revoked (foldl run_op d' ops) dev acc.
Proof.
  intros Hrv Hops. pose proof (RevokeDevice_revokes d acc dev t) as Hd. rewrite Hrv in Hd. specialize (Hd eq_refl).
  unfold RevokeDevice in Hrv. destruct (devices d !! dev) as [r|] eqn:Er; [|done].
  destruct (_ && _) eqn:E; [|done]. apply andb_true_iff in E as [E1%eqb_true_1 E2%eqb_true_1]. split_and!.
  - eauto.
  - intros k Hk. injection Hrv as <-. simpl. by rewrite lookup_insert_ne.
  - clear Hrv. simpl in Hd. revert d' Hd. induction Hops as [|o ops Ho Hops IH]; intros d' Hd; [done|].
    apply IH. by apply revoked_stays.
Qed.
End queues.

(** ** Blob quotas

    However uploads race, the per-device limits on the number and the total size of
    undelivered blobs hold after every operation. *)

(** ** Sums over a finite set *)

Definition sum_by {A} (g : A → Z) (l : list A) : Z := foldr (λ x a, g x + a) 0 l.

Lemma sum_by_nonneg {A} (g : A → Z) l : (∀ x, x ∈ l → 0 ≤ g x) → 0 ≤ sum_by g l.
Proof.
  induction l as [|x l IH]; intros H; simpl; [lia|]. specialize (IH ltac:(set_solver)). specialize (H x ltac:(left)). lia.
Qed.
Lemma sum_by_perm {A} (g : A → Z) l k : l ≡ₚ k → sum_by g l = sum_by g k.
Proof. induction 1; simpl; lia. Qed.
Lemma sum_by_app {A} (g : A → Z) l k : sum_by g (l ++ k) = sum_by g l + sum_by g k.
Proof. induction l; simpl; lia. Qed.
Lemma sum_by_ext {A} (g g' : A → Z) l : (∀ x, x ∈ l → g x = g' x) → sum_by g l = sum_by g' l.
Proof. induction l as [|x l IH]; intros H; simpl; [done|]. rewrite H by left. rewrite IH by set_solver. done. Qed.
Lemma sum_by_nonzero {A} (g : A → Z) l : sum_by g l = sum_by g (filter (λ x, g x ≠ 0) l).
Proof. induction l as [|x l IH]; [done|]. rewrite filter_cons. simpl. case_decide; simpl; lia. Qed.

Definition total {A} `{Countable A} (g : A → Z) (R : gset A) : Z := sum_by g (elements R).

(** Fewer entries, or entries that weigh nothing, weigh no more. *)
Lemma total_mono {A} `{Countable A} (g g' : A → Z) (R R' : gset A) :
  (∀ x, x ∈ R → 0 ≤ g x) → (∀ x, x ∈ R' → g' x ≠ 0 → x ∈ R ∧ g' x = g x) → total g' R' ≤ total g R.
Proof.
  intros Hg Hsub. unfold total. rewrite sum_by_nonzero. set (l := filter _ _).
  assert (l ⊆+ elements R) as (k & Hk)%submseteq_Permutation.
  { apply NoDup_submseteq; [apply NoDup_filter, NoDup_elements|].
    intros x [Hx Hin%elem_of_elements]%list_elem_of_filter. apply elem_of_elements. by apply Hsub. }
  rewrite (sum_by_ext g' g l).
  - rewrite (sum_by_perm g _ _ Hk), sum_by_app. enough (0 ≤ sum_by g k) by lia.
    apply sum_by_nonneg. intros x Hx. apply Hg, elem_of_elements. rewrite Hk. apply elem_of_app. by right.
  - intros x [Hx Hin%elem_of_elements]%list_elem_of_filter. by apply Hsub.
Qed.
Lemma total_insert {A} `{Countable A} (g : A → Z) (R : gset A) x :
  x ∉ R → total g ({[x]} ∪ R) = g x + total g R.
Proof.
  intros Hx. unfold total. rewrite (sum_by_perm g _ _ (elements_union_singleton R x Hx)). done.
Qed.

(** ** Usage as a weighted sum *)

Definition held (d : db) (k : bytes) (x : bytes * bytes) : option blob_row :=
  if x.2 =?b k then blobs d !! x.1 else None.
Definition count_weight (d : db) (k : bytes) (x : bytes * bytes) : Z := if present (held d k x) then 1 else 0.
Definition byte_weight (d : db) (k : bytes) (x : bytes * bytes) : Z :=
  match held d k x with Some r => bl_size r | None => 0 end.

Lemma omap_count {A B} (f : A → option B) l : zlen (omap f l) = sum_by (λ x, if present (f x) then 1 else 0) l.
Proof.
  unfold zlen. induction l as [|x l IH]; [done|]. cbn [omap list_omap sum_by foldr].
  destruct (f x); cbn [present length]; rewrite ?Nat2Z.inj_succ; unfold omap, sum_by in IH |- *; lia.
Qed.
Lemma omap_sum {A} (f : A → option blob_row) l :
  foldr Z.add 0 (bl_size <$> omap f l) = sum_by (λ x, match f x with Some r => bl_size r | None => 0 end) l.
Proof.
  induction l as [|x l IH]; [done|]. cbn [omap list_omap sum_by foldr].
  destruct (f x); cbn [fmap list_fmap foldr]; unfold omap, sum_by, fmap in IH |- *; lia.
Qed.

Lemma BlobUsage_total d k :
  BlobUsage d k = (total (count_weight d k) (blob_recipients d), total (byte_weight d k) (blob_recipients d)).
Proof.
  unfold BlobUsage, device_blobs, total. fold (held d k). by rewrite omap_count, omap_sum.
Qed.

#[local] Arguments BlobUsage : simpl never.

Definition sizes_ok (d : db) : Prop := ∀ b r, blobs d !! b = Some r → 0 ≤ bl_size r < 2 ^ 62.

Lemma weights_nonneg d k x : sizes_ok d → 0 ≤ count_weight d k x ∧ 0 ≤ byte_weight d k x.
Proof.
  intros Hs. unfold count_weight, byte_weight. unfold held. destruct (x.2 =?b k); [|simpl; lia].
  destruct (blobs d !! x.1) as [r|] eqn:E; simpl; [|lia]. specialize (Hs _ _ E). lia.
Qed.

(** [d'] gives device [k] nothing that [d] did not. *)
Definition no_more (d d' : db) (k : bytes) : Prop :=
  ∀ x, x ∈ blob_recipients d' → x.2 = k → is_Some (blobs d' !! x.1) →
       x ∈ blob_recipients d ∧ blobs d' !! x.1 = blobs d !! x.1.

Lemma usage_no_more d d' k :
  sizes_ok d → no_more d d' k →
  (BlobUsage d' k).1 ≤ (BlobUsage d k).1 ∧ (BlobUsage d' k).2 ≤ (BlobUsage d k).2.
Proof.
  intros Hs Hn. rewrite !BlobUsage_total. simpl.
  assert (∀ x, x ∈ blob_recipients d' → held d' k x ≠ None → x ∈ blob_recipients d ∧ held d' k x = held d k x) as Hh.
  { intros x Hx. unfold held. destruct (x.2 =?b k) eqn:E; [|done]. apply eqb_true_1 in E. intros Hne.
    destruct (Hn x Hx E) as [? ->]; [by apply not_eq_None_Some|done]. }
  split; apply total_mono; intros x Hx; try (by apply weights_nonneg);
    unfold count_weight, byte_weight; intros Hne; destruct (Hh x Hx) as [? ->]; try done; intros E; by rewrite E in Hne.
Qed.

(** ** Recording an upload *)

Lemma insert_recipients_set d b ids x :
  x ∈ blob_recipients (insert_recipients d b ids).1 → x ∈ blob_recipients d ∨ x.1 = b ∧ x.2 ∈ ids.
Proof.
  revert d. induction ids as [|k ids IH]; intros d; [by left|]. cbn [insert_recipients].
  destruct (_ || _); [by left|]. intros [Hx|[? ?]]%IH; [|right; split; [done|by right]]. simpl in Hx.
  apply elem_of_union in Hx as [->%elem_of_singleton|]; [right; split; [done|left]|by left].
Qed.

Section upload.
Context (d : db) (b : Blob) (k : bytes) (Hwf : db_wf d) (Hsz : sizes_ok d) (Hb : 0 ≤ SizeBytes b < 2 ^ 62)
  (Hfresh : blobs d !! BlobID b = None).

Definition blob_to_row : blob_row := mkBlobRow (SizeBytes b) (formatTime (BlobCreatedAt b)) (formatTime (BlobExpiresAt b)).
(** The upload addressed to [k] alone. *)
Definition addressed : db :=
  set_blobs d (<[BlobID b := blob_to_row]> (blobs d)) ({[(BlobID b, k)]} ∪ blob_recipients d).

Lemma old_recipient x : x ∈ blob_recipients d → x.1 ≠ BlobID b.
Proof. destruct x as [c k']. intros Hx E. simpl in E. destruct (wf_blob d Hwf _ _ Hx) as [[r Hr] _]. congruence. Qed.

Lemma held_addressed x : x ∈ blob_recipients d → held addressed k x = held d k x.
Proof. intros Hx. unfold held. simpl. by rewrite lookup_insert_ne by (symmetry; by apply old_recipient). Qed.

Lemma BlobUsage_addressed :
  BlobUsage addressed k = (1 + (BlobUsage d k).1, SizeBytes b + (BlobUsage d k).2).
Proof.
  rewrite !BlobUsage_total. simpl.
  assert ((BlobID b, k) ∉ blob_recipients d) as Hn by (intros Hx; by apply (old_recipient _ Hx)).
  assert (held addressed k (BlobID b, k) = Some blob_to_row) as Eh.
  { unfold held. simpl. by rewrite eqb_refl, lookup_insert_eq. }
  rewrite !total_insert by done. unfold count_weight at 1, byte_weight at 1. rewrite Eh. simpl. f_equal; f_equal;
    apply sum_by_ext; intros x Hx%elem_of_elements; unfold count_weight, byte_weight; by rewrite held_addressed.
Qed.

Lemma addressed_sizes : sizes_ok addressed.
Proof. intros c r. simpl. intros [[_ <-]|[_ Hr]]%lookup_insert_Some; [done|eauto]. Qed.

(** What [CreateBlob] leaves device [k] with, whoever else it was addressed to. *)
Lemma upload_no_more ids :
  let d' := (insert_recipients (set_blobs d (<[BlobID b := blob_to_row]> (blobs d)) (blob_recipients d)) (BlobID b) ids).1 in
  no_more (if decide (k ∈ ids) then addressed else d) d' k.
Proof.
  intros d'. set (d1 := set_blobs _ _ _) in d'.
  assert (blobs d' = <[BlobID b := blob_to_row]> (blobs d)) as Hbl
    by (destruct (insert_recipients_frame d1 (BlobID b) ids) as (_ & _ & _ & _ & E); exact E).
  intros x Hx Hk _. rewrite Hbl. apply insert_recipients_set in Hx as [Hx|[E1 E2]].
  - simpl in Hx. case_decide; simpl; split; try done; [set_solver|].
    by rewrite lookup_insert_ne by (symmetry; by apply old_recipient).
  - rewrite decide_True by congruence. simpl. split; [|done]. destruct x as [? ?]. simpl in *. set_solver.
Qed.
End upload.

(** ** The quota *)

Definition in_quota (d : db) (N M : Z) : Prop := ∀ k, (BlobUsage d k).1 ≤ N ∧ (BlobUsage d k).2 ≤ M.
Definition quota_op (N M : Z) (o : op) : Prop :=
  match o with
  | OCreateBlob _ _ => False
  | OCreateBlobQuota b _ n m => n ≤ N ∧ m ≤ M ∧ 0 ≤ SizeBytes b < 2 ^ 62
  | _ => True
  end.

Lemma BlobUsage_nonneg d k : sizes_ok d → 0 ≤ (BlobUsage d k).2.
Proof. intros Hs. rewrite BlobUsage_total. simpl. apply sum_by_nonneg. intros x _. by apply weights_nonneg. Qed.

Lemma fits_spec d b n m k :
  sizes_ok d → 0 ≤ SizeBytes b < 2 ^ 62 → (BlobUsage d k).2 < 2 ^ 62 → fits d b n m k = true →
  (BlobUsage d k).1 + 1 ≤ n ∧ (BlobUsage d k).2 + SizeBytes b ≤ m.
Proof.
  intros Hs Hb Hu. pose proof (BlobUsage_nonneg d k Hs). unfold fits. destruct (BlobUsage d k) as [c t]. simpl in *.
  rewrite i64_small by lia. rewrite negb_true_iff, orb_false_iff, Z.leb_gt, Z.ltb_ge. lia.
Qed.

Lemma CreateBlob_quota d b ids N M :
  db_wf d → sizes_ok d → in_quota d N M → 0 ≤ SizeBytes b < 2 ^ 62 →
  (∀ k, k ∈ ids → (BlobUsage d k).1 + 1 ≤ N ∧ (BlobUsage d k).2 + SizeBytes b ≤ M) →
  in_quota (CreateBlob d b ids).1 N M ∧ sizes_ok (CreateBlob d b ids).1.
Proof.
  intros Hwf Hs Hq Hb Hids. unfold CreateBlob. destruct (_ =? 0); [done|].
  destruct (present (blobs d !! BlobID b)) eqn:Ef; [done|]. apply present_None in Ef. split.
  - intros k. pose proof (upload_no_more d b k Hwf Hs Hb Ef ids) as Hn. destruct (decide (k ∈ ids)) as [Hk|Hk].
    + apply usage_no_more in Hn; [|by apply addressed_sizes]. rewrite BlobUsage_addressed in Hn by done. cbn [fst snd] in Hn.
      specialize (Hids k Hk). destruct Hn as [H1 H2].
      split; (eapply Z.le_trans; [exact H1 || exact H2|lia]).
    + apply usage_no_more in Hn; [|done]. specialize (Hq k). destruct Hn as [H1 H2].
      split; (eapply Z.le_trans; [exact H1 || exact H2|lia]).
  - set (d1 := set_blobs _ _ _). destruct (insert_recipients_frame d1 (BlobID b) ids) as (_ & _ & _ & _ & E).
    intros c r. rewrite E. simpl. intros [[_ <-]|[_ Hr]]%lookup_insert_Some; [done|eauto].
Qed.

Section runs.
Context {UC : UnicodeCase}.

Definition uploads (o : op) : bool :=
  match o with OCreateBlob _ _ | OCreateBlobQuota _ _ _ _ => true | _ => false end.

(** Every other operation only ever takes blobs away. *)
Lemma blobs_shrink d o :
  uploads o = false →
  blobs (run_op d o) ⊆ blobs d ∧ blob_recipients (run_op d o) ⊆ blob_recipients d.
Proof.
  intros Ho. destruct o; try done; try (open_op; simpl; done).
  - cbn [run_op]. unfold DeleteAccount. destruct (accounts d !! id); [|done]. simpl. split; [done|set_solver].
  - cbn [run_op]. by destruct (AddOneTimePrekeys_frame d dev keys now) as (_ & _ & _ & _ & -> & ->).
  - cbn [run_op]. unfold DeleteBlobForDevice. repeat case_match; simpl; split; try done; try set_solver. apply delete_subseteq.
  - cbn [run_op]. simpl. split; [apply delete_subseteq|set_solver].
Qed.

(** C38: blob quotas hold: as long as uploads are recorded by [CreateBlobWithQuota], no
    device ever has more undelivered blobs or more bytes than its limits allow --
    however long the uploads took and however many raced to the same device. *)
Theorem quota_bounded N M ops k :
  0 ≤ N → 0 ≤ M < 2 ^ 62 → Forall (quota_op N M) ops →
  (BlobUsage (foldl run_op empty_db ops) k).1 ≤ N ∧ (BlobUsage (foldl run_op empty_db ops) k).2 ≤ M.
Proof.
  intros HN HM Hops.
  assert (∀ d, db_wf d → sizes_ok d → in_quota d N M → in_quota (foldl run_op d ops) N M) as Hs.
  2: { apply Hs; [apply empty_db_wf|done|]. intros k'. change (BlobUsage empty_db k') with (0, 0). cbn [fst snd]. lia. }
  induction Hops as [|o ops Ho Hops IH]; intros d Hwf Hs Hq; [done|]. simpl.
  enough (in_quota (run_op d o) N M ∧ sizes_ok (run_op d o)) as [? ?] by (apply IH; auto using run_op_wf).
  destruct (uploads o) eqn:Hd.
  2: { destruct (blobs_shrink d o Hd) as [Hbl Hrc]. split.
    + intros k'. destruct (usage_no_more d (run_op d o) k' Hs) as [? ?]; [|specialize (Hq k'); lia].
      intros x Hx _ [r Hr]. split; [set_solver|]. rewrite Hr. symmetry. by eapply lookup_weaken.
    + intros c r Hr. apply (Hs c). by eapply lookup_weaken. }
  destruct o; try done. destruct Ho as (Hn & Hm & Hb). cbn [run_op].
    destruct (CreateBlobWithQuota_db d b ids n m) as [-> | ->]; [done|]. apply CreateBlob_quota; try done.
    intros k' [Hf _]%list_elem_of_filter. specialize (Hq k'). apply fits_spec in Hf; [lia|done|done|lia].
Qed.
End runs.
