(* ===== verification/Auth.v ===== *)
(** * internal/auth: the request authentication middleware

    middleware.go and nonce_cache.go: a signed request is checked against the
    registered devices, its timestamp against the clock, and its nonce against an
    in-memory cache of 256 shards.  Time is an argument; the middleware's state is
    the cache. *)

From S2P Require Import Prelude GoStr GoTime GoTimeParse Sha256 Crypto Base64 HttpSig Store StoreIntegrity StoreQueue.

(** ** nonce_cache.go *)

Definition nonceShards : Z := 256.

(** hash/fnv, 32-bit FNV-1a. *)
Definition fnv32a (s : bytes) : Z := foldl (λ h b, u32 (Z.lxor h b * 16777619)) 2166136261 s.

(** Each shard maps a key to its expiry. *)
Abbreviation nonceCache := (list (gmap bytes Time)) (only parsing).
Definition newNonceCache : nonceCache := replicate (Z.to_nat nonceShards) ∅.

Definition shardFor (deviceID : bytes) : nat := Z.to_nat (Z.land (fnv32a deviceID) (nonceShards - 1)).
Definition nonceKey (deviceID nonce : bytes) : bytes := deviceID ++ [0] ++ nonce.
Definition seen (c : nonceCache) (deviceID nonce : bytes) : option Time :=
  default ∅ (c !! shardFor deviceID) !! nonceKey deviceID nonce.

Definition record (c : nonceCache) (deviceID nonce : bytes) (now expiresAt : Time) : nonceCache * bool :=
  let key := nonceKey deviceID nonce in
  let s := default ∅ (c !! shardFor deviceID) in
  if match s !! key with Some exp => after exp now | None => false end then (c, false)
  else (<[shardFor deviceID := <[key := expiresAt]> s]> c, true).

Definition purgeExpired (c : nonceCache) (now : Time) : nonceCache * Z :=
  ((λ s : gmap bytes Time, filter (λ x, after x.2 now = true) s) <$> c,
   foldr Z.add 0 ((λ s : gmap bytes Time, Z.of_nat (size (filter (λ x, after x.2 now = false) s))) <$> c)).

(** ** middleware.go *)

Definition MaxClockSkew : Z := 5 * 60 * second.

Record Middleware := mkMiddleware { nonces : list (gmap bytes Time); StreamedBodyPaths : list bytes }.
Definition NewMiddleware (paths : list bytes) : Middleware := mkMiddleware newNonceCache paths.
Definition set_nonce_cache (m : Middleware) (c : nonceCache) : Middleware := mkMiddleware c (StreamedBodyPaths m).

Definition PurgeNonces (m : Middleware) (now : Time) : Middleware * Z :=
  let '(c, n) := purgeExpired (nonces m) now in (set_nonce_cache m c, n).

Record Identity := mkIdentity { IdAccountID : bytes; IdDeviceID : bytes; IdRole : bytes }.

Definition HasSignatureHeaders (r : Request) : bool := is_ok (ParseRequestHeaders r).

Definition isStreamedBodyRequest (m : Middleware) (r : Request) : bool :=
  existsb (λ entry,
    let '(method, path, hasMethod) := cut 32 entry in
    if negb hasMethod then URL_Path r =?b entry
    else (Method r =?b method) && (URL_Path r =?b path)) (StreamedBodyPaths m).

Section auth.
Context {UC : UnicodeCase} {ED : Ed25519}.

Definition canonical_of (m : Middleware) (r : Request) (h : RequestSignatureHeaders) : res string bytes :=
  if isStreamedBodyRequest m r then
    let digest := Header_Get r HeaderBodyDigest in
    if digest =?b [] then Err "auth: missing body digest header on a streamed-body route"%string
    else
      let digest := strings_ToLower (trim_prefix (lit "sha256=") (trim_space digest)) in
      Ok (CanonicalStringWithBodyDigest (Method r) (URL_Path r) (URL_RawQuery r)
            (Timestamp h) (Nonce h) (KeyID h) digest)
  else
    body ← from_option (Body r) "auth: reading body"%string;
    Ok (CanonicalStringFromRequest r h body).

(** [authenticate] up to the signature check. *)
Definition check_signature (m : Middleware) (d : db) (now : Time) (r : Request)
    : res string (RequestSignatureHeaders * Time * Device) :=
  headers ← ParseRequestHeaders r;
  ts ← ParseTimestamp (Timestamp headers);
  if negb (WithinSkew ts now MaxClockSkew) then Err "auth: timestamp outside allowed skew"%string
  else
    device ← wrap_err (λ _, "auth: looking up device"%string) (GetDevice d (KeyID headers));
    if negb (DevStatus device =?b DeviceStatusActive) then Err "auth: device is not active"%string
    else
      canonical ← canonical_of m r headers;
      _ ← Verify canonical (Signature headers) (DevicePubKey device);
      Ok (headers, ts, device).

(** ... and after the nonce has been recorded. *)
Definition load_identity (d : db) (device : Device) : res string Identity :=
  account ← wrap_err (λ _, "auth: loading account"%string) (GetAccount d (AccountID device));
  if negb (Status account =?b AccountStatusActive) then Err "auth: account is not active"%string
  else Ok (mkIdentity (AccountID device) (DeviceID device) (AccRole account)).

Definition authenticate (m : Middleware) (d : db) (now : Time) (r : Request) : Middleware * res string Identity :=
  match check_signature m d now r with
  | Ok (headers, ts, device) =>
    let '(c, ok) := record (nonces m) (KeyID headers) (Nonce headers) now (time_add ts MaxClockSkew) in
    let m := set_nonce_cache m c in
    if negb ok then (m, Err "auth: replayed nonce"%string) else (m, load_identity d device)
  | Err e => (m, Err e)
  | Panic => (m, Panic)
  end.

Definition TryAuthenticate (m : Middleware) (d : db) (now : Time) (r : Request) : Middleware * res string Identity :=
  authenticate m d now r.

(** The handler [Require] builds: the identity the wrapped handler runs with, or the one 401 answer. *)
Inductive handled := Unauthorized | Serve (id : Identity) | Crash.
Definition RequireSigned (m : Middleware) (d : db) (now : Time) (r : Request) : Middleware * handled :=
  let '(m, res) := authenticate m d now r in
  (m, match res with Ok id => Serve id | Err _ => Unauthorized | Panic => Crash end).
End auth.
