(* ===== verification/AuthCorrect.v ===== *)
(** * Authentication is sound, complete and replay-proof

    What an accepted request proves, that a properly signed request is accepted, and
    that no accepted request is accepted again -- whatever other requests, purges and
    database changes come in between. *)

From S2P Require Import Prelude GoStr GoTime GoTimeParse Sha256 Crypto Base64 HttpSig Store StoreIntegrity StoreCorrect StoreQueue Auth.

(** ** The nonce cache *)

Definition cache_ok (c : list (gmap bytes Time)) : Prop := length c = 256%nat.

Lemma newNonceCache_ok : cache_ok newNonceCache.
Proof. apply length_replicate. Qed.

Lemma fnv32a_range s : 0 ≤ fnv32a s < 2 ^ 32.
Proof.
  unfold fnv32a. cut (∀ h, 0 ≤ h < 2 ^ 32 → 0 ≤ foldl (λ h b, u32 (Z.lxor h b * 16777619)) h s < 2 ^ 32).
  { intros H. apply H. lia. }
  induction s as [|b s IH]; intros h Hh; simpl; [done|]. apply IH. unfold u32. apply Z.mod_pos_bound. lia.
Qed.
Lemma shardFor_lt dev : (shardFor dev < 256)%nat.
Proof.
  unfold shardFor, nonceShards. pose proof (fnv32a_range dev). change (256 - 1) with (Z.ones 8). rewrite Z.land_ones by lia.
  pose proof (Z.mod_pos_bound (fnv32a dev) (2 ^ 8) ltac:(lia)). lia.
Qed.

Lemma record_ok c dev n now e : cache_ok c → cache_ok (record c dev n now e).1.
Proof. unfold cache_ok, record. intros Hl. case_match; [done|]. simpl. by rewrite length_insert. Qed.
Lemma purgeExpired_ok c now : cache_ok c → cache_ok (purgeExpired c now).1.
Proof. unfold cache_ok. simpl. by rewrite length_fmap. Qed.

(** Recording succeeds exactly when there is no unexpired record, and leaves one. *)
Lemma record_spec c dev n now e :
  cache_ok c →
  (record c dev n now e).2 = negb (match seen c dev n with Some x => after x now | None => false end) ∧
  ((record c dev n now e).2 = true → seen (record c dev n now e).1 dev n = Some e).
Proof.
  intros Hc. unfold record, seen. case_match eqn:E; [done|]. split; [done|]. intros _. simpl.
  rewrite list_lookup_insert_eq by (rewrite Hc; apply shardFor_lt). simpl. by rewrite lookup_insert_eq.
Qed.

(** An unexpired record survives the recording of any other nonce, and purges. *)
Lemma record_keeps c dev n x dev' n' now e :
  cache_ok c → seen c dev n = Some x → after x now = true → seen (record c dev' n' now e).1 dev n = Some x.
Proof.
  intros Hc Hs Ha. unfold record, seen in *. case_match eqn:E; [done|]. simpl.
  destruct (decide (shardFor dev' = shardFor dev)) as [Es|Es].
  - rewrite Es in *. rewrite list_lookup_insert_eq by (rewrite Hc; apply shardFor_lt). simpl.
    rewrite lookup_insert_ne; [done|]. intros Ek. rewrite Ek, Hs in E. congruence.
  - by rewrite list_lookup_insert_ne.
Qed.
Lemma purge_keeps c dev n x now : seen c dev n = Some x → after x now = true → seen (purgeExpired c now).1 dev n = Some x.
Proof.
  unfold seen. simpl. rewrite list_lookup_fmap. destruct (c !! shardFor dev); simpl; [|done].
  intros Hs Ha. by apply map_lookup_filter_Some.
Qed.

Section auth.
Context {UC : UnicodeCase} {ED : Ed25519}.

(** ** Soundness *)

Lemma check_signature_inv m d now r h ts dev :
  check_signature m d now r = Ok (h, ts, dev) →
  ParseRequestHeaders r = Ok h ∧ ParseTimestamp (Timestamp h) = Ok ts ∧ WithinSkew ts now MaxClockSkew = true ∧
  GetDevice d (KeyID h) = Ok dev ∧ DevStatus dev = DeviceStatusActive ∧
  ∃ c, canonical_of m r h = Ok c ∧ Verify c (Signature h) (DevicePubKey dev) = Ok ().
Proof.
  unfold check_signature. intros H. apply bind_Ok in H as (h' & Hh & H). apply bind_Ok in H as (ts' & Hts & H).
  destruct (WithinSkew ts' now MaxClockSkew) eqn:Es; [|done]. simpl in H. apply bind_Ok in H as (dev' & Hd & H).
  apply wrap_err_Ok in Hd. destruct (DevStatus dev' =?b DeviceStatusActive) eqn:Ea; [|done]. simpl in H.
  apply eqb_true_1 in Ea. apply bind_Ok in H as (c & Hc & H). apply bind_Ok in H as ([] & Hv & H).
  apply Ok_inj in H. injection H as <- <- <-. eauto 10.
Qed.

Lemma authenticate_inv m d now r m' id :
  authenticate m d now r = (m', Ok id) →
  ∃ h ts dev, check_signature m d now r = Ok (h, ts, dev) ∧
    record (nonces m) (KeyID h) (Nonce h) now (time_add ts MaxClockSkew) = (nonces m', true) ∧
    StreamedBodyPaths m' = StreamedBodyPaths m ∧ load_identity d dev = Ok id.
Proof.
  unfold authenticate. intros H. destruct (check_signature m d now r) as [[[h ts] dev]| |] eqn:Ec; [|done..].
  destruct (record _ _ _ _ _) as [c ok] eqn:Er. destruct ok; [|done]. simpl in H. injection H as <- H.
  exists h, ts, dev. auto.
Qed.

Lemma GetDevice_id d k dev : GetDevice d k = Ok dev → DeviceID dev = k ∧
  ∃ r, devices d !! k = Some r ∧ AccountID dev = dv_account_id r ∧ DevStatus dev = dv_status r ∧ DevicePubKey dev = dv_pubkey r.
Proof.
  unfold GetDevice, scanDeviceFields. destruct (devices d !! k) as [r|]; [|done]. intros H.
  repeat (apply bind_Ok in H as (? & _ & H)). apply Ok_inj in H as <-. simpl. split; [done|]. by exists r.
Qed.

(** The digest of the body that a request on a streamed route claims, as [canonical_of] reads it. *)
Definition claimed_digest (r : Request) : bytes := strings_ToLower (trim_prefix (lit "sha256=") (trim_space (Header_Get r HeaderBodyDigest))).
Lemma canonical_of_Ok m r h c : canonical_of m r h = Ok c →
  if isStreamedBodyRequest m r then Header_Get r HeaderBodyDigest ≠ [] ∧
    c = CanonicalStringWithBodyDigest (Method r) (URL_Path r) (URL_RawQuery r) (Timestamp h) (Nonce h) (KeyID h) (claimed_digest r)
  else ∃ body, Body r = Some body ∧ c = CanonicalString (Method r) (URL_Path r) (URL_RawQuery r) (Timestamp h) (Nonce h) (KeyID h) body.
Proof.
  unfold canonical_of. destruct (isStreamedBodyRequest m r); intros H.
  - destruct (Header_Get r HeaderBodyDigest =?b []) eqn:E; [done|]. apply eqb_false in E. by apply Ok_inj in H as <-.
  - apply bind_Ok in H as (body & Hb%from_option_Ok & H). apply Ok_inj in H as <-. by exists body.
Qed.
Lemma record_fresh c dev n now e c' : record c dev n now e = (c', true) → match seen c dev n with Some exp => after exp now = false | None => True end.
Proof. unfold record, seen. destruct (_ !! nonceKey dev n) as [x|]; [|done]. by destruct (after x now). Qed.

(** C20: what an accepted request proves: a registered, active device of an active account
    signed its method, path, query, timestamp, nonce and key id together with its body --
    or, on a route whose body is streamed and not yet read, together with the digest of the
    body that the request claims.  The timestamp is one the clock allows, the nonce cache
    held no unexpired record of the nonce, and the identity handed on is that device, its
    account and the account's role. *)
Theorem authenticate_sound m d now r m' id :
  authenticate m d now r = (m', Ok id) →
  ∃ dev acc ts sig canonical,
    Header_Get r HeaderKeyID = IdDeviceID id ∧
    GetDevice d (IdDeviceID id) = Ok dev ∧ DevStatus dev = DeviceStatusActive ∧ AccountID dev = IdAccountID id ∧
    GetAccount d (IdAccountID id) = Ok acc ∧ Status acc = AccountStatusActive ∧ AccRole acc = IdRole id ∧
    ParseTimestamp (Header_Get r HeaderTimestamp) = Ok ts ∧ WithinSkew ts now MaxClockSkew = true ∧
    match seen (nonces m) (IdDeviceID id) (Header_Get r HeaderNonce) with Some exp => after exp now = false | None => True end ∧
    b64_decode (Header_Get r HeaderSignature) = Some sig ∧ ed_verify (DevicePubKey dev) canonical sig = true ∧
    (if isStreamedBodyRequest m r then Header_Get r HeaderBodyDigest ≠ [] ∧
       canonical = CanonicalStringWithBodyDigest (Method r) (URL_Path r) (URL_RawQuery r) (Header_Get r HeaderTimestamp)
                     (Header_Get r HeaderNonce) (IdDeviceID id) (claimed_digest r)
     else ∃ body, Body r = Some body ∧
       canonical = CanonicalString (Method r) (URL_Path r) (URL_RawQuery r) (Header_Get r HeaderTimestamp)
                     (Header_Get r HeaderNonce) (IdDeviceID id) body).
Proof.
  intros H. apply authenticate_inv in H as (h & ts & dev & Hc & Hr & _ & Hid).
  apply check_signature_inv in Hc as (Hh & Hts & Hsk & Hd & Ha & c & Hcan%canonical_of_Ok & Hv).
  unfold ParseRequestHeaders in Hh. destruct (_ || _); [done|]. apply Ok_inj in Hh as <-. cbn [KeyID Timestamp Signature Nonce] in *.
  pose proof (GetDevice_id _ _ _ Hd) as [Eid _]. unfold load_identity in Hid. apply bind_Ok in Hid as (acc & Hacc & Hid).
  apply wrap_err_Ok in Hacc. destruct (Status acc =?b AccountStatusActive) eqn:Es; [|done]. simpl in Hid. apply eqb_true_1 in Es.
  apply Ok_inj in Hid as <-. cbn [IdAccountID IdDeviceID IdRole]. rewrite Eid. apply record_fresh in Hr.
  apply Verify_Ok_inv in Hv as (sig & Hs & Hv). exists dev, acc, ts, sig, c. auto 20.
Qed.

(** ** Completeness *)

(** A client that signs its request with its device key is let in: the request the
    client's [Sign] produced, arriving within five minutes with a nonce not seen
    before, from an active device of an active account, is accepted as that device. *)
Theorem signed_request_accepted m d now r dev acc priv t body sig :
  cache_ok (nonces m) → isStreamedBodyRequest m r = false → Body r = Some body →
  GetDevice d (DeviceID dev) = Ok dev → DevStatus dev = DeviceStatusActive → key_pair priv (DevicePubKey dev) →
  GetAccount d (AccountID dev) = Ok acc → Status acc = AccountStatusActive →
  time_sane t → time_sane now → Z.abs (t_sec t * second - instant now) ≤ MaxClockSkew →
  Sign (Method r) (URL_Path r) (URL_RawQuery r) body (DeviceID dev) t (Header_Get r HeaderNonce) priv = Ok sig →
  Header_Get r HeaderKeyID = DeviceID dev → Header_Get r HeaderTimestamp = FormatTimestamp t →
  Header_Get r HeaderSignature = sig → DeviceID dev ≠ [] → Header_Get r HeaderNonce ≠ [] →
  seen (nonces m) (DeviceID dev) (Header_Get r HeaderNonce) = None →
  (authenticate m d now r).2 = Ok (mkIdentity (AccountID dev) (DeviceID dev) (AccRole acc)).
Proof.
  intros Hc Hst Hb Hd Hact Hk Ha Has Ht Hnow Hskew Hsig HK HT HS Hne1 Hne2 Hseen.
  unfold Sign in Hsig. rewrite (Sign_Ok priv (DevicePubKey dev)) in Hsig by done. cbn [mbind res_bind] in Hsig.
  apply Ok_inj in Hsig. set (canon := CanonicalString _ _ _ _ _ _ _) in Hsig.
  assert (FormatTimestamp t ≠ []) as Hne3.
  { unfold FormatTimestamp, format_int, append_int. destruct (_ <? 0); [done|].
    intros E%(f_equal length). rewrite length_app, length_digits in E. simpl in E. lia. }
  assert (sig ≠ []) as Hne4.
  { intros ->. pose proof (b64_decode_encode (ed_sign priv canon) (ed_sign_bytes _ _)) as E.
    rewrite Hsig in E. injection E as E. pose proof (ed_sign_length priv canon) as El. by rewrite <- E in El. }
  assert (check_signature m d now r =
    Ok (mkSigHeaders (DeviceID dev) (FormatTimestamp t) (Header_Get r HeaderNonce) sig,
        time_unix (t_sec t - unix_to_internal), dev)) as Hchk.
  { unfold check_signature, ParseRequestHeaders. rewrite HK, HT, HS. cbn [KeyID Timestamp Nonce Signature].
    rewrite !(proj2 (eqb_false _ _)) by done. cbn [orb mbind res_bind KeyID Timestamp Nonce Signature].
    rewrite ParseTimestamp_format by apply Ht. cbn [mbind res_bind].
    assert (WithinSkew (time_unix (t_sec t - unix_to_internal)) now MaxClockSkew = true) as ->.
    { assert (time_unix (t_sec t - unix_to_internal) = mkTime (t_sec t) 0 None 0) as ->.
      { unfold time_unix, unix_to_internal. destruct Ht as [_ Ht]. rewrite i64_small by lia. f_equal. lia. }
      apply within_skew_exact; [|done|done|unfold MaxClockSkew, second; lia|].
      - destruct Ht as [[? ?] ?]. split; [|done]. split; [done|]. cbn [t_nsec]. unfold second. lia.
      - left. unfold instant at 2. cbn [t_sec t_nsec]. lia. }
    rewrite Hd. cbn [negb wrap_err mbind res_bind]. rewrite Hact, eqb_refl. cbn [negb].
    unfold canonical_of. rewrite Hst, Hb. cbn [Prelude.from_option mbind res_bind].
    unfold CanonicalStringFromRequest. cbn [KeyID Timestamp Nonce Signature]. fold canon. rewrite <- Hsig.
    rewrite (Sign_verifies priv) by done. done. }
  unfold authenticate. rewrite Hchk. cbn [KeyID Nonce].
  destruct (record_spec (nonces m) (DeviceID dev) (Header_Get r HeaderNonce) now
    (time_add (time_unix (t_sec t - unix_to_internal)) MaxClockSkew) Hc) as [E _]. rewrite Hseen in E. simpl in E.
  destruct (record _ _ _ _ _) as [c ok]. simpl in E. subst ok. simpl. unfold load_identity. rewrite Ha.
  cbn [wrap_err mbind res_bind]. by rewrite Has, eqb_refl.
Qed.

(** ** Replays *)

(** What the server does between two requests. *)
Inductive event := EvRequest (now : Time) (r : Request) | EvPurge (now : Time) | EvOp (o : op) | EvRestart.
Definition run_event (s : Middleware * db) (e : event) : Middleware * db :=
  match e with
  | EvRequest now r => ((authenticate s.1 s.2 now r).1, s.2)
  | EvPurge now => ((PurgeNonces s.1 now).1, s.2)
  | EvOp o => (s.1, run_op s.2 o)
  | EvRestart => (NewMiddleware (StreamedBodyPaths s.1), s.2)
  end.
(** The clock has not passed [now]. *)
Definition not_after (now : Time) (e : event) : Prop :=
  match e with
  | EvRequest t _ | EvPurge t => time_sane t ∧ instant t ≤ instant now
  | EvOp _ | EvRestart => True
  end.

Lemma authenticate_cache m d now r :
  nonces (authenticate m d now r).1 = nonces m ∨
  ∃ dev n e, nonces (authenticate m d now r).1 = (record (nonces m) dev n now e).1.
Proof.
  unfold authenticate. destruct (check_signature m d now r) as [[[h ts] dev]| |]; [|by left..]. right.
  exists (KeyID h), (Nonce h), (time_add ts MaxClockSkew). destruct (record _ _ _ _ _) as [c []]; done.
Qed.

Lemma run_event_keeps s e dev n x now :
  cache_ok (nonces s.1) → seen (nonces s.1) dev n = Some x → not_after now e → e ≠ EvRestart →
  t_mono x = None → time_wf x → instant now < instant x →
  cache_ok (nonces (run_event s e).1) ∧ seen (nonces (run_event s e).1) dev n = Some x.
Proof.
  intros Hc Hs He Hnr Hm Hw Hlt.
  assert (∀ t, time_sane t → instant t ≤ instant now → after x t = true) as Ha.
  { intros t [Ht _] Hle. unfold after. rewrite before_instant by auto. apply Z.ltb_lt. lia. }
  destruct e as [t r|t|o|]; cbn [run_event fst]; [..|done|done].
  - destruct He as [Ht Hle]. destruct (authenticate_cache s.1 s.2 t r) as [-> |(dev' & n' & e' & ->)]; [done|].
    split; [by apply record_ok|]. apply record_keeps; auto.
  - destruct He as [Ht Hle]. change (nonces (PurgeNonces s.1 t).1) with (purgeExpired (nonces s.1) t).1.
    split; [by apply purgeExpired_ok|]. apply purge_keeps; auto.
Qed.

Lemma run_events_keep s evs dev n x now :
  cache_ok (nonces s.1) → seen (nonces s.1) dev n = Some x → Forall (not_after now) evs → EvRestart ∉ evs →
  t_mono x = None → time_wf x → instant now < instant x →
  cache_ok (nonces (foldl run_event s evs).1) ∧ seen (nonces (foldl run_event s evs).1) dev n = Some x.
Proof.
  intros Hc Hs Hev Hnr Hm Hw Hlt. revert s Hc Hs. induction Hev as [|e evs He Hev IH]; intros s Hc Hs; [done|].
  apply not_elem_of_cons in Hnr as [Hne Hnr]. simpl. by apply IH; [|apply (run_event_keeps s e dev n x now)..].
Qed.

Lemma ParseTimestamp_mono s ts : ParseTimestamp s = Ok ts → t_mono ts = None.
Proof. unfold ParseTimestamp. intros H. apply bind_Ok in H as (sec & _ & H). by apply Ok_inj in H as <-. Qed.

(** C19: no replay while the server runs: once a request has been accepted, another one with
    the same device, timestamp and nonce is refused at every later time -- by the nonce cache
    while the timestamp is fresh, by the skew test afterwards -- whatever requests, purges
    and database changes come in between.  Two cases are excluded: a restart in between, which
    empties the cache, and the one instant the two tests leave open between
    them, exactly five minutes after the timestamp. *)
Theorem replay_refused m d now1 r m1 id ts evs now2 r' :
  cache_ok (nonces m) → authenticate m d now1 r = (m1, Ok id) →
  ParseTimestamp (Header_Get r HeaderTimestamp) = Ok ts → time_sane ts → time_sane now2 →
  Forall (not_after now2) evs → EvRestart ∉ evs →
  Header_Get r' HeaderKeyID = Header_Get r HeaderKeyID → Header_Get r' HeaderNonce = Header_Get r HeaderNonce →
  Header_Get r' HeaderTimestamp = Header_Get r HeaderTimestamp →
  instant now2 ≠ instant ts + MaxClockSkew →
  let s := foldl run_event (m1, d) evs in
  is_ok (authenticate s.1 s.2 now2 r').2 = false.
Proof.
  intros Hc Hauth Hts Hsane Hnow2 Hev Hnr HK HN HT Hne s.
  destruct (authenticate s.1 s.2 now2 r') as [m2 r2] eqn:E2. destruct r2 as [id2| |]; [exfalso|done..].
  apply authenticate_inv in E2 as (h2 & ts2 & dev2 & Hc2 & Hr2 & _ & _).
  apply check_signature_inv in Hc2 as (Hh2 & Hts2 & Hsk2 & _).
  apply authenticate_inv in Hauth as (h & ts1 & dev & Hc1 & Hr1 & _ & _).
  apply check_signature_inv in Hc1 as (Hh & Hts1 & _).
  unfold ParseRequestHeaders in Hh, Hh2. destruct (_ || _) in Hh; [done|]. destruct (_ || _) in Hh2; [done|].
  apply Ok_inj in Hh as <-. apply Ok_inj in Hh2 as <-. cbn [KeyID Timestamp Nonce] in *.
  rewrite HT, Hts in Hts2. apply Ok_inj in Hts2 as <-. rewrite Hts in Hts1. apply Ok_inj in Hts1 as <-.
  pose proof (ParseTimestamp_mono _ _ Hts) as Hmono.
  assert (- 2 ^ 63 ≤ MaxClockSkew < 2 ^ 63) as Hrange by (unfold MaxClockSkew, second; lia).
  destruct (time_add_instant ts MaxClockSkew Hsane Hrange) as [Ei Hw].
  assert (t_mono (time_add ts MaxClockSkew) = None) as Hm.
  { unfold time_add. rewrite Hmono. by repeat case_match. }
  apply within_skew_exact in Hsk2; [|done..|unfold MaxClockSkew, second; lia].
  assert (instant now2 < instant (time_add ts MaxClockSkew)) as Hlt.
  { rewrite Ei. unfold MaxClockSkew, second in *. lia. }
  destruct (run_events_keep (m1, d) evs (Header_Get r HeaderKeyID) (Header_Get r HeaderNonce)
    (time_add ts MaxClockSkew) now2) as [Hc2 Hs2]; try done.
  - simpl. pose proof (record_ok (nonces m) (Header_Get r HeaderKeyID) (Header_Get r HeaderNonce) now1 (time_add ts MaxClockSkew) Hc) as Hok.
    by rewrite Hr1 in Hok.
  - simpl. pose proof (record_spec (nonces m) (Header_Get r HeaderKeyID) (Header_Get r HeaderNonce) now1 (time_add ts MaxClockSkew) Hc) as [_ Hsp].
    rewrite Hr1 in Hsp. by apply Hsp.
  - fold s in Hc2, Hs2. rewrite HK, HN in Hr2.
    destruct (record_spec (nonces s.1) (Header_Get r HeaderKeyID) (Header_Get r HeaderNonce) now2 (time_add ts MaxClockSkew) Hc2) as [E _].
    rewrite Hr2, Hs2 in E. simpl in E. unfold after in E. rewrite before_instant in E by (auto; apply Hnow2).
    rewrite (proj2 (Z.ltb_lt _ _)) in E by done. done.
Qed.

(** ** Revoked devices *)

(** A revoked device is locked out: after [RevokeDevice] no request under its key is
    ever accepted again, whatever else the server does, restarts included, short of deleting the account. *)
Theorem revoked_locked_out m d acc dev t d' evs now r :
  RevokeDevice d acc dev t = (d', Ok ()) → Forall (λ e, e ≠ EvOp (ODeleteAccount acc)) evs →
  Header_Get r HeaderKeyID = dev →
  let s := foldl run_event (m, d') evs in is_ok (authenticate s.1 s.2 now r).2 = false.
Proof.
  intros Hrv Hev HK s. assert (revoked s.2 dev acc) as (row & Hrow & _ & Hst).
  { pose proof (RevokeDevice_revokes d acc dev t) as Hd. rewrite Hrv in Hd. specialize (Hd eq_refl). simpl in Hd.
    clear Hrv. unfold s. clear s. revert m d' Hd. induction Hev as [|e evs He Hev IH]; intros m d' Hd; [done|].
    destruct e as [t' r'|t'|o|]; simpl; [by apply IH..| |by apply IH]. apply IH. apply revoked_stays; [done|]. by intros ->. }
  destruct (authenticate s.1 s.2 now r) as [m2 r2] eqn:E2. destruct r2 as [id2| |]; [exfalso|done..].
  apply authenticate_inv in E2 as (h & ts & dv & Hc & _). apply check_signature_inv in Hc as (Hh & _ & _ & Hd & Ha & _).
  unfold ParseRequestHeaders in Hh. destruct (_ || _) in Hh; [done|]. apply Ok_inj in Hh as <-. cbn [KeyID] in Hd.
  apply GetDevice_id in Hd as [_ (row' & Hrow' & _ & Est & _)]. rewrite HK in Hrow'. simplify_eq.
  rewrite Est, Hst in Ha. done.
Qed.
End auth.
