(* ===== verification/ServerExamples.v ===== *)
(** * A small server, evaluated

    One account with one device, its keys and queue, an invite and a setup token, and
    signed requests against it. *)

From S2P Require Import Prelude GoStr GoTime GoTimeParse Sha256 Crypto Base64 Humancode HttpSig Store StoreIntegrity StoreCorrect StoreQueue Auth AuthCorrect.

Definition t0 : Time := time_unix 1750000000.
Definition seed0 : bytes := replicate 32 7.
Definition dev_pub : bytes := ed_pub seed0.
Definition dev_priv : bytes := seed0 ++ dev_pub.
Definition alice : Account := mkAccount (lit "paaaabbbbb") (replicate 32 1) 1 AccountStatusActive RoleAdmin t0.
Definition carol : Account := mkAccount (lit "pccccddddd") (replicate 32 2) 1 AccountStatusActive RoleUser t0.
Definition phone : Device :=
  mkDevice (lit "0011223344556677") (ID alice) dev_pub t0 (replicate 64 0) DeviceStatusActive None t0 [] None [] None None.
(** A fixed source of randomness. *)
Definition zeros (n : Z) : option bytes := Some (replicate (Z.to_nat n) 0).
Definition code0 : bytes := lit "000000000000".
Definition setup_ops : list op :=
  [OCreateAccount alice; OCreateAccount carol; OCreateDevice phone;
   OAddOneTime (DeviceID phone) [mkOneTimeInput 1 [10]; mkOneTimeInput 2 [20]] t0;
   OInitSetup zeros t0; OCreateInvite zeros (ID alice) (Some (time_unix 1750086400)) t0].
Definition db0 : db := foldl run_op empty_db setup_ops.

Lemma db0_wf : db_wf db0.
Proof. apply run_ops_wf, empty_db_wf. Qed.
(** Evaluated on demand only. *)
#[local] Opaque db0.

Lemma readable_by d :
  forallb (λ x : bytes * account_row, present (parseTime (ac_created_at x.2))) (map_to_list (accounts d)) = true →
  readable d.
Proof.
  intros HF id r Hr%elem_of_map_to_list. apply present_Some. rewrite forallb_forall in HF.
  apply (HF (id, r)). by apply list_elem_of_In.
Qed.
Lemma db0_readable : readable db0.
Proof. apply readable_by. by_vm. Qed.

Lemma sane_unix s : 0 ≤ s < 2 ^ 40 → time_sane (time_unix s).
Proof.
  intros H. unfold time_sane, time_wf, time_unix, unix_to_internal, second. cbn [t_sec t_nsec]. rewrite i64_small by lia. lia.
Qed.

Definition dave : Account := mkAccount (lit "peeeefffff") (replicate 32 3) 1 AccountStatusActive RoleUser t0.
Lemma create_account_exact_witness : GetAccountByPrefix (CreateAccount db0 dave).1 (lit "peeee") = Ok (stored_account dave).
Proof.
  pose proof (create_account_exact db0 dave db0_wf db0_readable) as H.
  assert (four_digit_year (unix_seconds (CreatedAt dave))) as Hy by (split; vm_compute; congruence).
  specialize (H Hy). destruct (CreateAccount db0 dave) as [d' r] eqn:E. destruct r as [u| |].
  - apply H.
  - apply (f_equal (λ x, is_ok x.2)) in E. vm_compute in E. discriminate E.
  - destruct H.
Defined.

Lemma prekeys_claimed_once_witness :
  handed_to (DeviceID phone) (claim_series db0 [DeviceID phone; lit "other"; DeviceID phone; DeviceID phone])
  = [mkOneTimeInput 1 [10]; mkOneTimeInput 2 [20]].
Proof. refine (eq_trans (prekeys_claimed_once db0 _ (DeviceID phone) db0_wf) _). by_vm. Defined.

Definition consumed : db := (ConsumeInviteCode db0 (lit "0000-0000-0000") (ID carol) t0).1.
Lemma invite_single_use_witness :
  (ConsumeInviteCode (foldl run_op consumed [OPurgeInvites (time_unix 1760000000)]) (lit "oooo oooo oooo") (ID alice) t0).2 ≠ Ok ().
Proof.
  apply (invite_single_use db0 (lit "0000-0000-0000") (ID carol) t0 consumed).
  - unfold consumed. assert ((ConsumeInviteCode db0 (lit "0000-0000-0000") (ID carol) t0).2 = Ok ()) as E by by_vm.
    destruct (ConsumeInviteCode _ _ _ _) as [d r]. simpl in E. rewrite E. reflexivity.
  - repeat constructor. intros [].
  - by_vm.
Defined.

Lemma consume_invite_exact_witness :
  ConsumeInviteCode db0 (lit "nothing") (ID carol) t0 = (db0, Err ErrNotFound) ∧
  ConsumeInviteCode db0 code0 (ID carol) (time_unix 1750086400) = (db0, Err ErrInviteExpired).
Proof.
  split.
  - refine (proj1 (consume_invite_exact db0 (lit "nothing") (ID carol) t0 _ _ _ _) _).
    + split; vm_compute; congruence.
    + reflexivity.
    + vm_compute; split; congruence.
    + apply present_Some. by_vm.
    + by_vm.
  - refine (proj2 (consume_invite_exact db0 code0 (ID carol) (time_unix 1750086400) _ _ _ _)
      (ID alice) t0 (Some (time_unix 1750086400)) None None _ _ _ _).
    + split; vm_compute; congruence.
    + reflexivity.
    + vm_compute; split; congruence.
    + apply present_Some. by_vm.
    + by_vm.
    + split; vm_compute; congruence.
    + intros t [= <-]. split; vm_compute; congruence.
    + intros t [=].
Defined.

Lemma setup_token_locks_witness :
  (ClaimSetupToken (foldl run_op (failed_attempts db0 10) [OFailedSetup; OInitSetup zeros t0]) (lit "00000000") (ID alice) t0).2
  = Err ErrInvalidToken.
Proof.
  refine (proj2 (setup_token_locks db0 [] [] t0 [OFailedSetup; OInitSetup zeros t0] _) _ _ _ _).
  - repeat constructor; discriminate.
  - eexists. split; [by_vm|]. simpl. lia.
Defined.

(** ** Queues and quotas *)

Definition hello : Message :=
  mkMessage (lit "m1") (ID carol) (lit "d2") (ID alice) (DeviceID phone) (lit "hi") t0 (time_unix 1752592000).
Definition hello2 : Message :=
  mkMessage (lit "m2") (ID carol) (lit "d2") (ID alice) (DeviceID phone) (lit "hi") t0 (time_unix 1752592000).
Definition flood : list op := setup_ops ++ [OCreateUnderCap hello 1; OCreateUnderCap hello2 1].

Lemma queue_bounded_witness : CountPendingMessages (foldl run_op empty_db flood) (DeviceID phone) ≤ 1.
Proof. apply queue_bounded; [lia|]. repeat constructor; simpl; lia. Defined.

Lemma year_ok_by t : (0 <=? civil_year (unix_seconds t / 86400)) && (civil_year (unix_seconds t / 86400) <? 10000) = true → year_ok t.
Proof. unfold year_ok, four_digit_year. rewrite andb_true_iff, Z.leb_le, Z.ltb_lt. done. Qed.

Lemma db0_queue : queue_readable db0.
Proof.
  assert (messages db0 = []) as E by by_vm. intros r. rewrite E. intros Hr. destruct (not_elem_of_nil r Hr).
Qed.

Definition quiet_ops : list op := [OCreateUnderCap hello2 5; OPurgeMessages (time_unix 1751000000); ODeleteMessage (lit "m2") (DeviceID phone)].
Lemma message_stays_queued_witness :
  ∃ l, ListPendingMessages (foldl run_op (CreateMessageUnderCap db0 hello 5).1 quiet_ops) (DeviceID phone) = Ok l ∧
       stored_message hello ∈ l.
Proof.
  apply (message_stays_queued db0 hello 5 (ID alice) quiet_ops).
  - apply db0_queue.
  - apply year_ok_by. by_vm.
  - apply year_ok_by. by_vm.
  - destruct (devices db0 !! RecipientDeviceID hello) as [r|] eqn:E.
    + exists r. split; [reflexivity|].
      assert (dv_account_id <$> devices db0 !! RecipientDeviceID hello = Some (ID alice)) as Ea by by_vm.
      rewrite E in Ea. injection Ea as Ea. exact Ea.
    + assert (present (devices db0 !! RecipientDeviceID hello) = true) as Ea by by_vm. rewrite E in Ea. discriminate Ea.
  - by_vm.
  - repeat constructor.
    + simpl. apply year_ok_by. by_vm.
    + simpl. apply year_ok_by. by_vm.
    + intros [].
    + simpl. apply year_ok_by. by_vm.
    + simpl. vm_compute. discriminate.
    + simpl. intros [E _]. vm_compute in E. discriminate E.
Defined.

Definition db_revoked : db := (RevokeDevice db0 (ID alice) (DeviceID phone) t0).1.
Lemma db_revoked_eq : RevokeDevice db0 (ID alice) (DeviceID phone) t0 = (db_revoked, Ok ()).
Proof.
  assert ((RevokeDevice db0 (ID alice) (DeviceID phone) t0).2 = Ok ()) as E by by_vm.
  unfold db_revoked. destruct (RevokeDevice _ _ _ _) as [d r]. simpl in E. by rewrite E.
Qed.
#[local] Opaque db_revoked.
Lemma revocation_final_witness :
  revoked (foldl run_op db_revoked [OCreateDevice phone; OSetAccountStatus (ID alice) AccountStatusActive]) (DeviceID phone) (ID alice).
Proof.
  apply (revocation_final db0 (ID alice) (DeviceID phone) t0 db_revoked
           [OCreateDevice phone; OSetAccountStatus (ID alice) AccountStatusActive] db_revoked_eq).
  repeat constructor; discriminate.
Defined.

Definition picture (i : bytes) : Blob := mkBlob i 700 t0 (time_unix 1752592000).
Definition uploads_ops : list op :=
  setup_ops ++ [OCreateBlobQuota (picture (lit "b1")) [DeviceID phone] 5 1000; OCreateBlobQuota (picture (lit "b2")) [DeviceID phone] 5 1000].
Lemma quota_bounded_witness :
  (BlobUsage (foldl run_op empty_db uploads_ops) (DeviceID phone)).1 ≤ 5 ∧
  (BlobUsage (foldl run_op empty_db uploads_ops) (DeviceID phone)).2 ≤ 1000.
Proof. apply quota_bounded; [lia|lia|]. repeat constructor; simpl; lia. Defined.

(** ** Signed requests *)

Definition no_streams : Middleware := NewMiddleware [lit "POST /v1/blobs"].
Definition signature0 : bytes :=
  match Sign (lit "GET") (lit "/v1/messages") [] [] (DeviceID phone) t0 (lit "n1") dev_priv with Ok s => s | _ => [] end.
Definition request0 : Request :=
  mkRequest (lit "GET") (lit "/v1/messages") []
    (list_to_map [(HeaderKeyID, [DeviceID phone]); (HeaderTimestamp, [FormatTimestamp t0]);
                  (HeaderNonce, [lit "n1"]); (HeaderSignature, [signature0])]) (Some []).
Definition alice_id : Identity := mkIdentity (ID alice) (DeviceID phone) RoleAdmin.

Lemma request0_accepted : ∃ m', authenticate no_streams db0 t0 request0 = (m', Ok alice_id).
Proof.
  assert ((authenticate no_streams db0 t0 request0).2 = Ok alice_id) as E by by_vm.
  destruct (authenticate _ _ _ _) as [m' r]. exists m'. simpl in E. by rewrite E.
Qed.

Lemma dev_key : key_pair dev_priv dev_pub.
Proof. exists seed0. by split. Qed.

Definition phone0 : Device := mkDevice (DeviceID phone) (ID alice) dev_pub (to_second t0) (replicate 64 0) DeviceStatusActive None
  (to_second t0) [] None [] None None.

Lemma signed_request_accepted_witness : (authenticate no_streams db0 t0 request0).2 = Ok alice_id.
Proof.
  refine (signed_request_accepted no_streams db0 t0 request0 phone0 alice dev_priv t0 [] signature0
            newNonceCache_ok _ _ _ _ dev_key _ _ _ _ _ _ _ _ _ _ _ _).
  - by_vm.
  - by_vm.
  - by_vm.
  - reflexivity.
  - by_vm.
  - reflexivity.
  - apply sane_unix. lia.
  - apply sane_unix. lia.
  - vm_compute. discriminate.
  - by_vm.
  - by_vm.
  - by_vm.
  - by_vm.
  - discriminate.
  - vm_compute. discriminate.
  - by_vm.
Defined.

Lemma authenticate_sound_witness :
  ∃ dev, GetDevice db0 (DeviceID phone) = Ok dev ∧ AccountID dev = ID alice.
Proof.
  destruct request0_accepted as [m' H].
  destruct (authenticate_sound no_streams db0 t0 request0 m' alice_id H) as (dev & acc & ts & sig & canonical & _ & Hd & _ & Ha & _).
  exists dev. split; [exact Hd|exact Ha].
Defined.

(** The same request again, a second later. *)
Definition t1 : Time := time_unix 1750000001.
Lemma replay_refused_witness :
  ∃ m', authenticate no_streams db0 t0 request0 = (m', Ok alice_id) ∧
    is_ok (authenticate (foldl run_event (m', db0) [EvPurge t1]).1 (foldl run_event (m', db0) [EvPurge t1]).2 t1 request0).2 = false.
Proof.
  destruct request0_accepted as [m' H]. exists m'. split; [exact H|].
  apply (replay_refused no_streams db0 t0 request0 m' alice_id t0 [EvPurge t1] t1 request0).
  - apply newNonceCache_ok.
  - exact H.
  - by_vm.
  - apply sane_unix. lia.
  - apply sane_unix. lia.
  - constructor; [|constructor]. split; [apply sane_unix; lia|reflexivity].
  - intros Hin%list_elem_of_singleton. discriminate Hin.
  - reflexivity.
  - reflexivity.
  - reflexivity.
  - vm_compute. discriminate.
Defined.
(** After a restart it is accepted again: the cache is in memory only. *)
Example replay_after_restart :
  (authenticate no_streams db0 t0 request0).2 = Ok alice_id ∧
  (authenticate (run_event ((authenticate no_streams db0 t0 request0).1, db0) EvRestart).1 db0 t1 request0).2 = Ok alice_id.
Proof. split; by_vm. Qed.

(** The instant left open: exactly five minutes after the timestamp the record counts
    as expired and the skew test still passes, so the request is accepted twice. *)
Definition t_edge : Time := time_unix 1750000300.
Example replay_at_the_edge :
  (authenticate no_streams db0 t0 request0).2 = Ok alice_id ∧
  (authenticate (authenticate no_streams db0 t0 request0).1 db0 t_edge request0).2 = Ok alice_id.
Proof. split; by_vm. Qed.

Lemma revoked_locked_out_witness :
  is_ok (authenticate no_streams (foldl run_op db_revoked [OCreateDevice phone]) t0 request0).2 = false.
Proof.
  apply (revoked_locked_out no_streams db0 (ID alice) (DeviceID phone) t0 db_revoked [EvOp (OCreateDevice phone)] t0 request0 db_revoked_eq).
  - repeat constructor. discriminate.
  - by_vm.
Defined.
