(* ===== verification/ProfileClaim.v ===== *)
(** * pkg/profileclaim: self-asserted profile names

    claim.go: the rules for a name, the byte layout a device signs, signing and
    verifying.  The layout has no tag of its own: a claim of a 30-byte name signs the
    same bytes as a DH identity certificate of pkg/devicecert. *)

From S2P Require Import Prelude GoStr GoTime Crypto DeviceCert.

Module Claim.

Definition MaxNameBytes : Z := 64.

Record t := mk { Name : bytes; DeviceID : bytes; IssuedAt : Time; Signature : bytes }.

(** [unicode.IsControl] *)
Definition is_control (r : Z) : bool := in_range 0 31 r || in_range 127 159 r.
Definition isBidiControl (r : Z) : bool :=
  (r =? 8206) || (r =? 8207) || in_range 8234 8238 r || in_range 8294 8297 r.

Definition NormalizeName (name : bytes) : bytes := trim_space name.

Fixpoint check_runes (rs : list Z) : res string () :=
  match rs with
  | [] => Ok ()
  | r :: rs =>
    if (r =? 10) || (r =? 13) || (r =? 9) then Err "profileclaim: name must not contain line breaks or tabs"%string
    else if is_control r then Err "profileclaim: name must not contain control character"%string
    else if isBidiControl r then Err "profileclaim: name must not contain bidirectional control character"%string
    else check_runes rs
  end.
Definition ValidateName (name : bytes) : res string () :=
  if MaxNameBytes <? zlen name then Err "profileclaim: name must be at most 64 bytes"%string
  else if negb (name =?b trim_space name) then
    Err "profileclaim: name must not start or end with whitespace"%string
  else check_runes (runes name).

Definition signingBytes (c : t) (accountID : bytes) : res string bytes :=
  if accountID =?b [] then Err "profileclaim: account id is required"%string
  else
    deviceIDRaw ← from_option (hex_decode (DeviceID c)) "profileclaim: device id must be hex-encoded"%string;
    if negb (zlen deviceIDRaw =? deviceIDBytes) then Err "profileclaim: device id must decode to 8 bytes"%string
    else Ok (writeLengthPrefixed accountID ++ deviceIDRaw ++ writeLengthPrefixed (Name c) ++
             writeLengthPrefixed (rfc3339 (IssuedAt c))).

Definition IsWithdrawal (c : t) : bool := Name c =?b [].
Definition SupersedesTime (c : t) (stored : Time) : bool := after (IssuedAt c) stored.

Section signatures.
Context {ED : Ed25519}.

Definition Sign (accountID deviceID name : bytes) (issuedAt : Time) (devicePriv : bytes) : res string t :=
  let name := NormalizeName name in
  _ ← ValidateName name;
  let c := mk name deviceID (truncate_second (utc issuedAt)) [] in
  buf ← signingBytes c accountID;
  sig ← ed25519_Sign devicePriv buf;
  Ok (mk name deviceID (truncate_second (utc issuedAt)) sig).

Definition Verify (c : t) (accountID devicePubKey : bytes) : res string () :=
  _ ← ValidateName (Name c);
  if negb (zlen (Signature c) =? ed25519_SignatureSize) then Err "profileclaim: signature must be 64 bytes"%string
  else if negb (zlen devicePubKey =? ed25519_PublicKeySize) then
    Err "profileclaim: device public key must be 32 bytes"%string
  else
    buf ← signingBytes c accountID;
    ok ← ed25519_Verify devicePubKey buf (Signature c);
    if negb ok then Err "profileclaim: signature verification failed"%string else Ok ().
End signatures.
End Claim.

Section claims.
Context {ED : Ed25519}.

Lemma Claim_Verify_Ok c acc pub :
  Claim.Verify c acc pub = Ok () ↔
  Claim.ValidateName (Claim.Name c) = Ok () ∧ zlen (Claim.Signature c) = 64 ∧ zlen pub = 32 ∧
  ∃ buf, Claim.signingBytes c acc = Ok buf ∧ ed_verify pub buf (Claim.Signature c) = true.
Proof.
  unfold Claim.Verify, ed25519_Verify, ed25519_SignatureSize, ed25519_PublicKeySize. split.
  - intros H. apply bind_Ok in H as ([] & Hv & H).
    destruct (Z.eqb_spec (zlen (Claim.Signature c)) 64) as [E1|]; [|done].
    destruct (Z.eqb_spec (zlen pub) 32) as [E2|]; [|done]. cbn [negb] in H.
    apply bind_Ok in H as (buf & Hb & H). cbn [andb mbind res_bind] in H.
    destruct (ed_verify pub buf (Claim.Signature c)) eqn:E; [|done]. eauto 10.
  - intros (-> & -> & -> & buf & -> & E). cbn. by rewrite E.
Qed.

Lemma Claim_Sign_Ok c acc dev name t priv :
  Claim.Sign acc dev name t priv = Ok c →
  ∃ buf, c = Claim.mk (trim_space name) dev (truncate_second (utc t)) (ed_sign priv buf) ∧
    Claim.ValidateName (trim_space name) = Ok () ∧ Claim.signingBytes c acc = Ok buf.
Proof.
  unfold Claim.Sign. intros H. apply bind_Ok in H as ([] & Hv & H). apply bind_Ok in H as (buf & Hb & H).
  apply bind_Ok in H as (sig & Hs & H). apply Ok_inj in H as <-. unfold ed25519_Sign in Hs.
  destruct (_ =? _); [|done]. apply Ok_inj in Hs as <-. exists buf. auto.
Qed.

Lemma Claim_signingBytes_Ok c acc buf :
  Claim.signingBytes c acc = Ok buf →
  acc ≠ [] ∧ ∃ raw, hex_decode (Claim.DeviceID c) = Some raw ∧ zlen raw = 8 ∧
    buf = writeLengthPrefixed acc ++ raw ++ writeLengthPrefixed (Claim.Name c) ++
          writeLengthPrefixed (rfc3339 (Claim.IssuedAt c)).
Proof.
  unfold Claim.signingBytes, deviceIDBytes. destruct (acc =?b []) eqn:E; [done|]. apply eqb_false in E.
  intros H. apply bind_Ok in H as (raw & Hr & H). apply from_option_Ok in Hr.
  destruct (Z.eqb_spec (zlen raw) 8); [|done]. apply Ok_inj in H as <-. eauto 10.
Qed.

Lemma ValidateName_short name : Claim.ValidateName name = Ok () → zlen name ≤ 64.
Proof. unfold Claim.ValidateName, Claim.MaxNameBytes. destruct (Z.ltb_spec 64 (zlen name)); [done|lia]. Qed.

(** A profile claim says what it says: a claim the owner's device signed verifies under
    that device's key for that account, carrying the trimmed name; and a signature
    that covers one claim covers no other -- account, device, name and second of
    issue are all in the signed bytes. *)
Theorem claim_binds acc dev name t priv pub c :
  key_pair priv pub → Claim.Sign acc dev name t priv = Ok c →
  Claim.Verify c acc pub = Ok () ∧ Claim.Name c = trim_space name ∧
  ∀ c' acc', Claim.Verify c' acc' pub = Ok () → zlen acc < 2 ^ 16 → zlen acc' < 2 ^ 16 →
    - 2 ^ 63 ≤ t_sec t < 2 ^ 63 → - 2 ^ 63 ≤ t_sec (Claim.IssuedAt c') < 2 ^ 63 →
    Claim.signingBytes c' acc' = Claim.signingBytes c acc →
    acc' = acc ∧ hex_decode (Claim.DeviceID c') = hex_decode dev ∧ Claim.Name c' = Claim.Name c ∧
    t_sec (Claim.IssuedAt c') = t_sec t.
Proof.
  intros Hk Hs. pose proof Hs as (buf & Ec & Hv & Hb)%Claim_Sign_Ok. split_and!.
  - apply Claim_Verify_Ok. rewrite Ec. cbn [Claim.Name Claim.Signature]. split_and!; [done|apply ed_sign_length|apply (key_pair_length _ _ Hk)|].
    exists buf. rewrite <- Ec. split; [done|]. destruct Hk as (seed & Hl & -> & ->). by apply ed_verify_sign.
  - by rewrite Ec.
  - intros c' acc' (Hv' & _ & _ & buf' & Hb' & _)%Claim_Verify_Ok Ha Ha' Ht Ht' E.
    rewrite Hb, Hb' in E. apply Ok_inj in E as ->.
    apply Claim_signingBytes_Ok in Hb as (_ & raw & Hr & Hl & Eb). apply Claim_signingBytes_Ok in Hb' as (_ & raw' & Hr' & Hl' & Eb').
    rewrite Eb in Eb'. apply ValidateName_short in Hv, Hv'.
    apply writeLengthPrefixed_inj in Eb' as [-> Eb']; [|done..].
    apply fixed_app_inj in Eb' as [-> Eb']; [|congruence].
    apply writeLengthPrefixed_inj in Eb' as [En Eb']; [|rewrite Ec; cbn [Claim.Name]; lia|lia].
    rewrite <- (app_nil_r (writeLengthPrefixed (rfc3339 (Claim.IssuedAt c)))) in Eb'.
    rewrite <- (app_nil_r (writeLengthPrefixed (rfc3339 (Claim.IssuedAt c')))) in Eb'.
    assert (t_sec (Claim.IssuedAt c) = t_sec t) as Et by (by rewrite Ec).
    apply writeLengthPrefixed_inj in Eb' as [Er _].
    + apply rfc3339_inj in Er. rewrite Hr'. rewrite Ec in Hr. cbn [Claim.DeviceID] in Hr. split_and!; congruence.
    + eapply Z.lt_trans; [apply rfc3339_short; by rewrite Et|lia].
    + eapply Z.lt_trans; [by apply rfc3339_short|lia].
Qed.

(** C40: profile claims and DH identity certificates are not separated: the signature on a
    claim of any 30-byte name is also a valid DH identity certificate of the same
    device, for the public key made of the name's length prefix and the name. *)
Theorem claim_doubles_as_dh_certificate c acc pub :
  Claim.Verify c acc pub = Ok () → zlen (Claim.Name c) = 30 →
  DHIdentityCertificate.Verify
    (DHIdentityCertificate.mk acc (Claim.DeviceID c) ([0; 30] ++ Claim.Name c) (Claim.IssuedAt c) (Claim.Signature c))
    pub = Ok ().
Proof.
  intros (_ & Hs & Hp & buf & Hb & Hv)%Claim_Verify_Ok Hn. apply verify_signed_Ok. exists buf. split_and!; try done.
  apply Claim_signingBytes_Ok in Hb as (_ & raw & Hr & Hl & ->).
  unfold DHIdentityCertificate.signingBytes, decodeDeviceID, x25519PubKeySize, deviceIDBytes.
  cbn [DHIdentityCertificate.DeviceID DHIdentityCertificate.DHPubKey DHIdentityCertificate.AccountID DHIdentityCertificate.IssuedAt].
  rewrite Hr. cbn [Prelude.from_option mbind res_bind]. rewrite Hl. cbn [negb Z.eqb Pos.eqb mbind res_bind].
  rewrite zlen_app, Hn. change (zlen [0; 30] + 30 =? 32) with true. cbn [negb].
  do 2 f_equal. unfold writeLengthPrefixed at 2. by rewrite Hn, <- !(assoc_L (++)).
Qed.
End claims.

(** ** Examples *)

Definition claim_seed : bytes := replicate 32 5.
Definition claim_pub : bytes := ed_pub claim_seed.
Definition claim_priv : bytes := claim_seed ++ claim_pub.
Definition long_name : bytes := lit "Andreas Behringer (Kassenwart)".
Definition claim_time : Time := time_unix 1750000000.
Definition claim0 : res string Claim.t :=
  Claim.Sign (lit "pabcdefghj") (lit "0011223344556677") (lit " Andreas Behringer (Kassenwart) ") claim_time claim_priv.

Lemma claim_pair : key_pair claim_priv claim_pub.
Proof. exists claim_seed. by split. Qed.

Lemma claim_binds_witness : ∃ c, claim0 = Ok c ∧ Claim.Verify c (lit "pabcdefghj") claim_pub = Ok () ∧ Claim.Name c = long_name.
Proof.
  destruct (is_ok_ex claim0) as [c H]; [vm_compute; reflexivity|]. exists c. split; [exact H|].
  destruct (claim_binds (lit "pabcdefghj") (lit "0011223344556677") (lit " Andreas Behringer (Kassenwart) ") claim_time
    claim_priv claim_pub c claim_pair H) as (Hv & Hn & _).
  split; [exact Hv|]. rewrite Hn. vm_compute. reflexivity.
Defined.

Definition claim1 : Claim.t := match claim0 with Ok c => c | _ => Claim.mk [] [] claim_time [] end.
Lemma claim_doubles_as_dh_certificate_witness :
  DHIdentityCertificate.Verify
    (DHIdentityCertificate.mk (lit "pabcdefghj") (Claim.DeviceID claim1) ([0; 30] ++ Claim.Name claim1)
       (Claim.IssuedAt claim1) (Claim.Signature claim1)) claim_pub = Ok ().
Proof. apply claim_doubles_as_dh_certificate; vm_compute; reflexivity. Defined.
