(* ===== verification/WakeCoalesce.v ===== *)
(** * internal/api/wakecoalesce.go: merging the wakes of one device

    The coalescer keeps a window per device.  A wake outside the window is sent at
    once, a wake inside it arms one trailing send.  Its methods run under a mutex and
    send, or start a timer, only after releasing it: each method is the new state
    together with the [action] the goroutine performs next, and [exec1] interleaves
    critical sections, outstanding actions, expiring timers and the clock. *)

From S2P Require Import Prelude GoStr GoTime.

Record wakeWindow := mkWindow { nextAllowed : Time; pending : bool }.
Record wakeCoalescer := mkCoalescer { window : Z; devices : gmap bytes wakeWindow }.

Definition newWakeCoalescer (window : Z) : wakeCoalescer := mkCoalescer window ∅.

(** The zero value of a window: [time.Time{}], nothing armed. *)
Definition zero_time : Time := mkTime 0 0 None 0.
Definition zero_window : wakeWindow := mkWindow zero_time false.

Inductive action := Send (deviceID : bytes) | AfterFunc (d : Z) (deviceID : bytes).
#[export] Instance action_eq_dec : EqDecision action.
Proof. solve_decision. Defined.

Definition with_devices (c : wakeCoalescer) (m : gmap bytes wakeWindow) : wakeCoalescer :=
  mkCoalescer (window c) m.

Definition wake (c : wakeCoalescer) (now : Time) (deviceID : bytes) : wakeCoalescer * list action :=
  if window c <=? 0 then (c, [Send deviceID])
  else
    let w := default zero_window (devices c !! deviceID) in
    if negb (before now (nextAllowed w)) then
      (with_devices c (<[deviceID := mkWindow (time_add now (window c)) (pending w)]> (devices c)), [Send deviceID])
    else if pending w then (with_devices c (<[deviceID := w]> (devices c)), [])
    else (with_devices c (<[deviceID := mkWindow (nextAllowed w) true]> (devices c)),
          [AfterFunc (time_sub (nextAllowed w) now) deviceID]).

Definition fire (c : wakeCoalescer) (now : Time) (deviceID : bytes) : wakeCoalescer * list action :=
  match devices c !! deviceID with
  | Some w =>
    if pending w then
      (with_devices c (<[deviceID := mkWindow (time_add now (window c)) false]> (devices c)), [Send deviceID])
    else (c, [])
  | None => (c, [])
  end.

(** [flush] ranging over the map in the order [l]. *)
Definition flush_one (cd : wakeCoalescer * list action) (deviceID : bytes) : wakeCoalescer * list action :=
  match devices cd.1 !! deviceID with
  | Some w =>
    if pending w then
      (with_devices cd.1 (<[deviceID := mkWindow (nextAllowed w) false]> (devices cd.1)), cd.2 ++ [Send deviceID])
    else cd
  | None => cd
  end.
Definition flush (c : wakeCoalescer) (l : list bytes) : wakeCoalescer * list action := foldl flush_one (c, []) l.

Definition evictIdle (c : wakeCoalescer) (now : Time) : wakeCoalescer :=
  with_devices c (filter (λ x, pending x.2 || negb (after now (nextAllowed x.2)) = true) (devices c)).

(** ** The running system

    [clock] is the monotonic clock; [wall] what the wall clock shows when it stands at
    a reading.  [todo] holds what goroutines have decided under the lock and not done
    yet, [timers] the deadline and device of every running timer, [sent] the wakes that
    went out, with their times. *)
Record system := mkSystem {
  co : wakeCoalescer; clock : Z; todo : list action; timers : list (Z * bytes); sent : list (Z * bytes);
}.

Inductive event :=
  | EWake (deviceID : bytes) | ERun (i : nat) | ETimer (i : nat)
  | EFlush (l : list bytes) | EEvict | ETick (d : Z).

Section system.
Variable wall : Z → Z * Z.

Definition now_at (clk : Z) : Time := mkTime (wall clk).1 (wall clk).2 (Some clk) 1.

Definition start (window : Z) : system := mkSystem (newWakeCoalescer window) 0 [] [] [].

(** A critical section that leaves [ca] behind. *)
Definition section (s : system) (timers : list (Z * bytes)) (ca : wakeCoalescer * list action) : system :=
  mkSystem ca.1 (clock s) (todo s ++ ca.2) timers (sent s).

Definition perform (s : system) (a : action) (rest : list action) : system :=
  match a with
  | Send dev => mkSystem (co s) (clock s) rest (timers s) (sent s ++ [(clock s, dev)])
  | AfterFunc d dev => mkSystem (co s) (clock s) rest (timers s ++ [(clock s + d, dev)]) (sent s)
  end.

Definition exec1 (s : system) (e : event) : option system :=
  match e with
  | EWake dev => Some (section s (timers s) (wake (co s) (now_at (clock s)) dev))
  | ERun i => a ← todo s !! i; Some (perform s a (delete i (todo s)))
  | ETimer i =>
    t ← timers s !! i;
    if t.1 <=? clock s then Some (section s (delete i (timers s)) (fire (co s) (now_at (clock s)) t.2)) else None
  | EFlush l =>
    if bool_decide (l ≡ₚ (map_to_list (devices (co s))).*1) then Some (section s (timers s) (flush (co s) l)) else None
  | EEvict => Some (mkSystem (evictIdle (co s) (now_at (clock s))) (clock s) (todo s) (timers s) (sent s))
  | ETick d => if 0 <=? d then Some (mkSystem (co s) (clock s + d) (todo s) (timers s) (sent s)) else None
  end.
Fixpoint exec (s : system) (es : list event) : option system :=
  match es with [] => Some s | e :: es => s' ← exec1 s e; exec s' es end.

Lemma exec_app s es es' : exec s (es ++ es') = (exec s es ≫= λ s', exec s' es').
Proof. revert s. induction es as [|e es IH]; intros s; [done|]. simpl. destruct (exec1 s e); simpl; auto. Qed.

(** ** No wake is lost *)

Definition armed_dev (c : wakeCoalescer) (dev : bytes) : bool :=
  match devices c !! dev with Some w => pending w | None => false end.
Definition coming (todo : list action) (timers : list (Z * bytes)) (dev : bytes) : Prop :=
  (∃ d, AfterFunc d dev ∈ todo) ∨ (∃ dl, (dl, dev) ∈ timers).
Definition timer_coming (s : system) (dev : bytes) : Prop := coming (todo s) (timers s) dev.

(** Everything armed has its timer. *)
Definition armed_ok (s : system) : Prop := ∀ dev, armed_dev (co s) dev = true → timer_coming s dev.

(** Since [base] wakes had gone out, [dev] has been woken or will be. *)
Definition owed (base : nat) (dev : bytes) (s : system) : Prop :=
  dev ∈ (drop base (sent s)).*2 ∨ Send dev ∈ todo s ∨ armed_dev (co s) dev = true.

Lemma armed_insert c dev w dev' :
  armed_dev (with_devices c (<[dev := w]> (devices c))) dev'
  = if decide (dev = dev') then pending w else armed_dev c dev'.
Proof.
  unfold armed_dev. simpl. destruct (decide (dev = dev')) as [->|]; [by rewrite lookup_insert_eq|].
  by rewrite lookup_insert_ne.
Qed.

Lemma wake_spec c now dev c' acts dev' :
  wake c now dev = (c', acts) →
  (armed_dev c' dev' = true → armed_dev c dev' = true ∨ ∃ d, AfterFunc d dev' ∈ acts)
  ∧ (armed_dev c dev' = true → armed_dev c' dev' = true)
  ∧ (Send dev ∈ acts ∨ armed_dev c' dev = true).
Proof.
  unfold wake. intros H.
  assert (pending (default zero_window (devices c !! dev)) = armed_dev c dev) as Hp.
  { unfold armed_dev. by destruct (devices c !! dev). }
  repeat case_match; simplify_eq; rewrite ?armed_insert; cbn [pending]; rewrite ?Hp;
    repeat case_decide; simplify_eq; split_and!; try set_solver by eauto; rewrite ?Hp in *; auto; congruence.
Qed.

Lemma fire_spec c now dev c' acts dev' :
  fire c now dev = (c', acts) →
  (armed_dev c' dev' = true → armed_dev c dev' = true ∧ dev' ≠ dev)
  ∧ (armed_dev c dev' = true → armed_dev c' dev' = true ∨ Send dev' ∈ acts).
Proof.
  unfold fire. intros H. destruct (devices c !! dev) as [w|] eqn:E; [destruct (pending w) eqn:Hp|];
    simplify_eq; rewrite ?armed_insert; cbn [pending].
  - split; case_decide; subst; [done|auto|..]; intros; [right; by apply list_elem_of_singleton|by left].
  - split; [|auto]. intros Ha. split; [done|]. intros ->. unfold armed_dev in Ha. rewrite E in Ha. congruence.
  - split; [|auto]. intros Ha. split; [done|]. intros ->. unfold armed_dev in Ha. by rewrite E in Ha.
Qed.

Lemma flush_spec c l acts0 c' acts dev :
  foldl flush_one (c, acts0) l = (c', acts) →
  (armed_dev c' dev = true → armed_dev c dev = true)
  ∧ (armed_dev c dev = true → armed_dev c' dev = true ∨ Send dev ∈ acts)
  ∧ (Send dev ∈ acts0 → Send dev ∈ acts).
Proof.
  revert c acts0. induction l as [|x l IH]; intros c acts0 H; simpl in H; [simplify_eq; auto|].
  unfold flush_one at 2 in H. cbn [fst snd] in H.
  destruct (devices c !! x) as [w|] eqn:E; [|by eauto]. destruct (pending w) eqn:Hp; [|by eauto].
  apply IH in H as (H1 & H2 & H3). rewrite armed_insert in H1, H2. cbn [pending] in *.
  assert (Send x ∈ acts0 ++ [Send x]) as Hx by set_solver.
  destruct (decide (x = dev)) as [->|]; split_and!; auto.
  - by intros ?%H1.
  - intros. apply H3. set_solver.
Qed.

Lemma evict_armed c now dev : armed_dev (evictIdle c now) dev = armed_dev c dev.
Proof.
  unfold armed_dev, evictIdle. simpl.
  destruct (devices c !! dev) as [w|] eqn:E; [|by rewrite map_lookup_filter_None_2 by auto].
  destruct (pending w) eqn:Hp.
  - rewrite (map_lookup_filter_Some_2 _ _ _ w); [done|done|]. simpl. by rewrite Hp.
  - destruct (filter _ _ !! dev) as [w'|] eqn:Ef; [|done].
    apply map_lookup_filter_Some in Ef as [Ef _]. congruence.
Qed.

Lemma elem_of_delete_1 {A} (l : list A) i x y : l !! i = Some x → y ∈ l → y = x ∨ y ∈ delete i l.
Proof.
  intros Hi Hy. apply delete_Permutation in Hi. rewrite Hi in Hy. set_solver.
Qed.

Lemma coming_mono todo todo' timers timers' dev :
  todo ⊆ todo' → timers ⊆ timers' → coming todo timers dev → coming todo' timers' dev.
Proof. unfold coming. intros Ht Hm [[d H]|[dl H]]; eauto. Qed.

Lemma coming_run todo i a timers dev : todo !! i = Some a → coming todo timers dev →
  coming (delete i todo) timers dev ∨ ∃ d, a = AfterFunc d dev.
Proof.
  intros Hi [[d H]|[dl H]]; [|left; right; eauto].
  destruct (elem_of_delete_1 _ _ _ _ Hi H); [eauto|left; left; eauto].
Qed.

Lemma coming_expire todo timers i t dev : timers !! i = Some t → coming todo timers dev → t.2 ≠ dev →
  coming todo (delete i timers) dev.
Proof.
  intros Hi [[d H]|[dl H]] Hne; [left; eauto|].
  destruct (elem_of_delete_1 _ _ _ _ Hi H); [simplify_eq; done|right; eauto].
Qed.

Lemma armed_ok_step s e s' : armed_ok s → exec1 s e = Some s' → armed_ok s'.
Proof.
  intros Hok H dev. specialize (Hok dev). unfold timer_coming in *.
  destruct e as [d|i|i|l| |d]; simpl in H.
  - destruct (wake (co s) (now_at (clock s)) d) as [c' acts] eqn:E. simplify_eq/=.
    destruct (wake_spec _ _ _ _ _ dev E) as (H1 & _ & _). intros [H|[x H]]%H1.
    + eapply coming_mono; [..|by apply Hok]; set_solver.
    + left. exists x. set_solver.
  - destruct (todo s !! i) as [a|] eqn:E; simplify_eq/=.
    intros Ha. assert (armed_dev (co s) dev = true) as Hd by (by destruct a).
    destruct (coming_run _ _ _ _ _ E (Hok Hd)) as [Hc|[d ->]].
    + eapply coming_mono; [..|exact Hc]; destruct a; set_solver.
    + right. exists (clock s + d). set_solver.
  - destruct (timers s !! i) as [t|] eqn:E; simplify_eq/=. case_match; simplify_eq.
    destruct (fire (co s) (now_at (clock s)) t.2) as [c' acts] eqn:Ef.
    destruct (fire_spec _ _ _ _ _ dev Ef) as [H1 _]. simpl.
    intros [Ha Hne]%H1. eapply coming_mono; [..|eapply coming_expire]; [|done|done|by apply Hok|done]. set_solver.
  - case_bool_decide; simplify_eq. destruct (flush (co s) l) as [c' acts] eqn:Ef.
    destruct (flush_spec _ _ _ _ _ dev Ef) as (H1 & _). simpl. intros Hc%H1%Hok.
    eapply coming_mono; [..|exact Hc]; set_solver.
  - simplify_eq/=. by rewrite evict_armed.
  - case_match; by simplify_eq/=.
Qed.

Lemma owed_step base dev s e s' : owed base dev s → (base ≤ length (sent s))%nat →
  exec1 s e = Some s' → owed base dev s' ∧ (base ≤ length (sent s'))%nat.
Proof.
  unfold owed. intros Ho Hb H.
  destruct e as [d|i|i|l| |d]; simpl in H.
  - destruct (wake (co s) (now_at (clock s)) d) as [c' acts] eqn:E. simplify_eq/=.
    destruct (wake_spec _ _ _ _ _ dev E) as (_ & H2 & _). rewrite elem_of_app. naive_solver.
  - destruct (todo s !! i) as [a|] eqn:E; simplify_eq/=. split; [|destruct a; simpl; rewrite ?length_app; lia].
    destruct Ho as [Hs|[Hin|Ha]]; [left|..|right; right; by destruct a].
    + destruct a; simpl; [|done]. rewrite drop_app_le, fmap_app by done. set_solver.
    + destruct (elem_of_delete_1 _ _ _ _ E Hin) as [<-|Hin']; [left|right; left; by destruct a].
      simpl. rewrite drop_app_le, fmap_app by done. set_solver.
  - destruct (timers s !! i) as [t|] eqn:E; simplify_eq/=. case_match; simplify_eq.
    destruct (fire (co s) (now_at (clock s)) t.2) as [c' acts] eqn:Ef.
    destruct (fire_spec _ _ _ _ _ dev Ef) as [_ H2]. simpl. rewrite elem_of_app. naive_solver.
  - case_bool_decide; simplify_eq. destruct (flush (co s) l) as [c' acts] eqn:Ef.
    destruct (flush_spec _ _ _ _ _ dev Ef) as (_ & H2 & _). simpl. rewrite elem_of_app. naive_solver.
  - simplify_eq/=. by rewrite evict_armed.
  - case_match; by simplify_eq/=.
Qed.

Lemma exec_armed_ok s es s' : armed_ok s → exec s es = Some s' → armed_ok s'.
Proof.
  revert s. induction es as [|e es IH]; intros s Hok H; simplify_eq/=; [done|].
  destruct (exec1 s e) as [s1|] eqn:E; simplify_eq/=. eauto using armed_ok_step.
Qed.

Lemma exec_owed base dev s es s' : owed base dev s → (base ≤ length (sent s))%nat →
  exec s es = Some s' → owed base dev s'.
Proof.
  revert s. induction es as [|e es IH]; intros s Ho Hb H; simplify_eq/=; [done|].
  destruct (exec1 s e) as [s1|] eqn:E; simplify_eq/=.
  destruct (owed_step _ _ _ _ _ Ho Hb E). eauto.
Qed.

Lemma start_armed_ok w : armed_ok (start w).
Proof. intros dev. unfold armed_dev. simpl. by rewrite lookup_empty. Qed.

(** C34: No wake is lost.  However wakes, timers, flushes, evictions and the
    goroutines' own steps interleave, once every decided action is done and every
    timer has run out, each device a wake was asked for has been woken after that
    wake. *)
Theorem no_wake_lost w before after dev s1 s2 :
  exec (start w) before = Some s1 → exec s1 (EWake dev :: after) = Some s2 →
  todo s2 = [] → timers s2 = [] →
  dev ∈ (drop (length (sent s1)) (sent s2)).*2.
Proof.
  intros H1 H2 Ht Hm. pose proof (exec_armed_ok _ _ _ (start_armed_ok w) H1) as Hok1.
  pose proof (exec_armed_ok _ _ _ Hok1 H2) as Hok2. simpl in H2.
  destruct (wake (co s1) (now_at (clock s1)) dev) as [c' acts] eqn:E.
  destruct (wake_spec _ _ _ _ _ dev E) as (_ & _ & Hw).
  eapply (exec_owed (length (sent s1)) dev) in H2 as Ho; simpl; [|unfold owed; simpl; rewrite elem_of_app; tauto|done].
  destruct Ho as [?|[Hin|Ha]]; [done|rewrite Ht in Hin; by apply elem_of_nil in Hin|].
  destruct (Hok2 dev Ha) as [[d Hd]|[d Hd]]; [rewrite Ht in Hd|rewrite Hm in Hd]; by apply elem_of_nil in Hd.
Qed.

(** ** The delay is at most one window

    A prompt run lets the clock move only when nothing decided is outstanding, and not
    past a timer. *)
Definition prompt (s : system) (e : event) : bool :=
  match e with
  | ETick d => bool_decide (todo s = []) && forallb (λ t, clock s + d <=? t.1) (timers s)
  | _ => true
  end.
Fixpoint exec_prompt (s : system) (es : list event) : option system :=
  match es with
  | [] => Some s
  | e :: es => if prompt s e then s' ← exec1 s e; exec_prompt s' es else None
  end.

Lemma exec1_clock s e s' : exec1 s e = Some s' → clock s ≤ clock s'.
Proof.
  destruct e as [d|i|i|l| |d]; simpl; intros H; try (simplify_eq/=; lia).
  - destruct (todo s !! i) as [[]|]; simplify_eq/=; lia.
  - destruct (timers s !! i); simplify_eq/=. case_match; simplify_eq/=; lia.
  - case_bool_decide; simplify_eq/=; lia.
  - case_match; simplify_eq/=. bool_prop. lia.
Qed.

Lemma exec_prompt_clock s es s' : exec_prompt s es = Some s' → clock s ≤ clock s'.
Proof.
  revert s. induction es as [|e es IH]; intros s H; simplify_eq/=; [lia|].
  case_match; simplify_eq. destruct (exec1 s e) eqn:E; simplify_eq/=.
  apply exec1_clock in E. apply IH in H. lia.
Qed.

Lemma exec_prompt_exec s es s' : exec_prompt s es = Some s' → exec s es = Some s'.
Proof.
  revert s. induction es as [|e es IH]; intros s H; simplify_eq/=; [done|].
  case_match; simplify_eq. destruct (exec1 s e) eqn:E; simplify_eq/=. auto.
Qed.

(** The wall clock does not show a year before the first. *)
Hypothesis wall_ok : ∀ clk, before (now_at clk) zero_time = false.

Record timely (w : Z) (s : system) : Prop := {
  tm_window : window (co s) = w;
  tm_clock : 0 ≤ clock s;
  tm_next dev x : devices (co s) !! dev = Some x → ∃ n, t_mono (nextAllowed x) = Some n ∧ n ≤ clock s + w;
  tm_todo d dev : AfterFunc d dev ∈ todo s → 0 ≤ d ≤ w;
  tm_timers dl dev : (dl, dev) ∈ timers s → clock s ≤ dl ≤ clock s + w;
}.

Lemma time_add_mono clk w : 0 ≤ clk → 0 < w → clk + w < 2 ^ 63 →
  t_mono (time_add (now_at clk) w) = Some (clk + w).
Proof.
  intros Hc Hw Hb. unfold time_add. destruct (if second <=? _ then _ else _) as [ds n]. simpl.
  rewrite i64_small, Z.eqb_refl by lia. done.
Qed.

Definition next_ok (w clk : Z) (m : gmap bytes wakeWindow) : Prop :=
  ∀ dev x, m !! dev = Some x → ∃ n, t_mono (nextAllowed x) = Some n ∧ n ≤ clk + w.
Lemma next_ok_insert w clk m dev x :
  next_ok w clk m → (∃ n, t_mono (nextAllowed x) = Some n ∧ n ≤ clk + w) → next_ok w clk (<[dev := x]> m).
Proof. intros Hm Hx dev' y [[<- <-]|[_ ?]]%lookup_insert_Some; eauto. Qed.

Lemma wake_timely w clk dev c c' acts :
  0 ≤ clk → 0 < w → clk + w < 2 ^ 63 → window c = w → next_ok w clk (devices c) →
  wake c (now_at clk) dev = (c', acts) →
  window c' = w ∧ next_ok w clk (devices c') ∧ ∀ d x, AfterFunc d x ∈ acts → 0 ≤ d ≤ w.
Proof.
  intros Hc Hw Hb Hwin Hn. unfold wake. rewrite Hwin. destruct (Z.leb_spec w 0) as [?|_]; [lia|].
  destruct (before (now_at clk) (nextAllowed (default zero_window (devices c !! dev)))) eqn:E; simpl.
  - destruct (devices c !! dev) as [x|] eqn:Ed; [|by rewrite wall_ok in E]. simpl in *.
    destruct (Hn _ _ Ed) as (n & Hm & Hle). unfold before in E. simpl in E. rewrite Hm in E. bool_prop.
    intros H. case_match; simplify_eq; (split; [done|split; [apply next_ok_insert; eauto|]]); intros d y; [set_solver|].
    intros [= -> ->]%list_elem_of_singleton. unfold time_sub. rewrite Hm. simpl.
    rewrite i64_small by lia. repeat case_match; bool_prop; lia.
  - intros H. simplify_eq. simpl. split; [done|]. split; [|set_solver].
    apply next_ok_insert; [done|]. simpl. rewrite time_add_mono by lia. eexists. split; [done|]. lia.
Qed.

Lemma fire_timely w clk dev c c' acts :
  0 ≤ clk → 0 < w → clk + w < 2 ^ 63 → window c = w → next_ok w clk (devices c) →
  fire c (now_at clk) dev = (c', acts) →
  window c' = w ∧ next_ok w clk (devices c') ∧ ∀ d x, AfterFunc d x ∉ acts.
Proof.
  intros Hc Hw Hb Hwin Hn. unfold fire. rewrite Hwin. intros H. repeat case_match; simplify_eq/=;
    (split; [done|split; [|set_solver]]); try done.
  apply next_ok_insert; [done|]. simpl. rewrite time_add_mono by lia. eexists. split; [done|]. lia.
Qed.

Lemma flush_timely w clk l c acts0 c' acts :
  next_ok w clk (devices c) → (∀ d x, AfterFunc d x ∉ acts0) → foldl flush_one (c, acts0) l = (c', acts) →
  window c' = window c ∧ next_ok w clk (devices c') ∧ ∀ d x, AfterFunc d x ∉ acts.
Proof.
  revert c acts0. induction l as [|y l IH]; intros c acts0 Hn Ha H; simpl in H; [by simplify_eq|].
  unfold flush_one at 2 in H. cbn [fst snd] in H. repeat case_match; try by eauto.
  apply IH in H; [done| |set_solver]. simpl. apply next_ok_insert; [done|]. simpl. eauto.
Qed.

Lemma timely_step w s e s' :
  0 < w → timely w s → exec1 s e = Some s' → prompt s e = true → clock s' + w < 2 ^ 63 → timely w s'.
Proof.
  intros Hw [Hwin Hc Hn Ht Hm] H Hp Hb. pose proof (exec1_clock _ _ _ H) as Hcl.
  change (next_ok w (clock s) (devices (co s))) in Hn.
  destruct e as [d|i|i|l| |d]; simpl in H.
  - destruct (wake (co s) (now_at (clock s)) d) as [c' acts] eqn:E. injection H as <-. simpl in *.
    apply (wake_timely w) in E as (? & ? & Ha); try done. split; simpl; try done.
    intros d' x [?|?]%elem_of_app; eauto.
  - destruct (todo s !! i) as [a|] eqn:E; [|done]. injection H as <-. simpl in *.
    assert (∀ x, x ∈ delete i (todo s) → x ∈ todo s) as Hdel.
    { intros x Hx. apply delete_Permutation in E. rewrite E. by right. }
    pose proof (list_elem_of_lookup_2 _ _ _ E) as Hin.
    destruct a as [x|d x]; split; simpl; eauto.
    intros dl y [?|[= -> ->]%list_elem_of_singleton]%elem_of_app; [eauto|]. specialize (Ht _ _ Hin). lia.
  - destruct (timers s !! i) as [t|] eqn:E; [|done]. simpl in H. case_match; [|done]. injection H as <-.
    destruct (fire (co s) (now_at (clock s)) t.2) as [c' acts] eqn:Ef.
    apply (fire_timely w) in Ef as (? & ? & Ha); try done. split; simpl; try done.
    + intros d x [?|?]%elem_of_app; [eauto|by destruct (Ha d x)].
    + intros dl x Hx. apply Hm with x. apply delete_Permutation in E. rewrite E. by right.
  - case_bool_decide; [|done]. injection H as <-. destruct (flush (co s) l) as [c' acts] eqn:Ef.
    apply (flush_timely w (clock s)) in Ef as (Hf & ? & Ha); [|done|set_solver]. split; simpl; try done; [congruence|].
    intros d x [?|?]%elem_of_app; [eauto|by destruct (Ha d x)].
  - injection H as <-. split; simpl; try done. intros dev x Hx. apply (Hn dev). by apply map_lookup_filter_Some in Hx as [? _].
  - case_match; [|done]. injection H as <-. simpl in *. bool_prop. destruct Hp as [->%bool_decide_eq_true Hp].
    split; simpl; [done|lia| | |].
    + intros dev x (n & ? & ?)%Hn. exists n. split; [done|lia].
    + intros d' x ?%elem_of_nil. done.
    + intros dl x Hx. rewrite forallb_forall in Hp.
      pose proof (Hp (dl, x) ltac:(by apply list_elem_of_In)) as Hle. bool_prop. simpl in Hle. specialize (Hm _ _ Hx). lia.
Qed.

(** [dev] was woken between [t] and [t + w], or is about to be. *)
Definition owed_by (base : nat) (t T : Z) (dev : bytes) (s : system) : Prop :=
  (∃ t', (t', dev) ∈ drop base (sent s) ∧ t ≤ t' ≤ T)
  ∨ (t ≤ clock s ≤ T
     ∧ (Send dev ∈ todo s
        ∨ (armed_dev (co s) dev = true
           ∧ ((∃ d, AfterFunc d dev ∈ todo s ∧ clock s + d ≤ T) ∨ ∃ dl, (dl, dev) ∈ timers s ∧ dl ≤ T)))).

Lemma owed_by_run base t T dev s i a :
  (base ≤ length (sent s))%nat → todo s !! i = Some a → owed_by base t T dev s →
  owed_by base t T dev (perform s a (delete i (todo s))).
Proof.
  intros Hb E. assert (∀ x, x ∈ drop base (sent s) → x ∈ drop base (sent (perform s a (delete i (todo s))))) as Hs.
  { intros x Hx. destruct a; simpl; [|done]. rewrite drop_app_le by done. set_solver. }
  intros [(t' & Ht' & ?)|(Hc & Ho)]; [left; eauto|].
  destruct Ho as [Hin|(Ha & [(d & Hin & ?)|(dl & Hin & ?)])].
  - destruct (elem_of_delete_1 _ _ _ _ E Hin) as [<-|?]; [left|right; destruct a; simpl; auto].
    exists (clock s). split; [|done]. simpl. rewrite drop_app_le by done. set_solver.
  - right. destruct (elem_of_delete_1 _ _ _ _ E Hin) as [<-|?].
    + simpl. split; [done|]. right. split; [done|]. right. exists (clock s + d). split; [set_solver|done].
    + destruct a; simpl; (split; [done|]); right; (split; [done|]); eauto.
  - right. destruct a; simpl; (split; [done|]); right; (split; [done|]); right; exists dl; (split; [set_solver|done]).
Qed.

Lemma owed_by_section base t T dev s tm ca :
  (armed_dev (co s) dev = true → armed_dev ca.1 dev = true ∨ Send dev ∈ ca.2) →
  (∀ dl, armed_dev ca.1 dev = true → (dl, dev) ∈ timers s → (dl, dev) ∈ tm) →
  owed_by base t T dev s → owed_by base t T dev (section s tm ca).
Proof.
  intros Hk Hm [?|(Hc & Ho)]; [by left|right; split; [done|]]. simpl.
  destruct Ho as [?|(Ha & Ht)]; [left; set_solver|].
  destruct (Hk Ha) as [Ha'|?]; [|left; set_solver].
  right. split; [done|]. destruct Ht as [(d & ? & ?)|(dl & ? & ?)]; [left; exists d; set_solver|right; exists dl; auto].
Qed.

Lemma owed_by_step w base t T dev s e s' :
  timely w s → (base ≤ length (sent s))%nat → prompt s e = true → exec1 s e = Some s' →
  owed_by base t T dev s → owed_by base t T dev s' ∧ (base ≤ length (sent s'))%nat.
Proof.
  intros Htm Hb Hp H Ho. destruct e as [d|i|i|l| |d]; simpl in H.
  - injection H as <-. split; [|done]. apply owed_by_section; [|done|done].
    destruct (wake (co s) (now_at (clock s)) d) as [c' acts] eqn:E.
    destruct (wake_spec _ _ _ _ _ dev E) as (_ & H2 & _). simpl. auto.
  - destruct (todo s !! i) as [a|] eqn:E; [|done]. injection H as <-. split; [by apply owed_by_run|].
    destruct a; simpl; rewrite ?length_app; lia.
  - destruct (timers s !! i) as [x|] eqn:E; [|done]. simpl in H. case_match; [|done]. injection H as <-.
    split; [|done]. destruct (fire (co s) (now_at (clock s)) x.2) as [c' acts] eqn:Ef.
    destruct (fire_spec _ _ _ _ _ dev Ef) as [H1 H2]. apply owed_by_section; [done| |done].
    intros dl [_ Hne]%H1 Hin. destruct (elem_of_delete_1 _ _ _ _ E Hin); [by subst|done].
  - case_bool_decide; [|done]. injection H as <-. split; [|done]. apply owed_by_section; [|done|done].
    destruct (flush (co s) l) as [c' acts] eqn:Ef. destruct (flush_spec _ _ _ _ _ dev Ef) as (_ & H2 & _). done.
  - injection H as <-. split; [|done]. unfold owed_by. simpl. by rewrite evict_armed.
  - case_match; [|done]. injection H as <-. split; [|done]. simpl in Hp. bool_prop.
    destruct Hp as [Hnil%bool_decide_eq_true Hp]. destruct Ho as [?|(Hc & Ho)]; [by left|right]. simpl. rewrite Hnil in *.
    destruct Ho as [?%elem_of_nil|(Ha & [(? & ?%elem_of_nil & _)|(dl & Hin & ?)])]; [done..|].
    rewrite forallb_forall in Hp. pose proof (Hp (dl, dev) ltac:(by apply list_elem_of_In)) as Hle. bool_prop.
    simpl in Hle. split; [lia|]. right. split; [done|]. right. eauto.
Qed.

Lemma exec_timely w s es s' :
  0 < w → timely w s → exec_prompt s es = Some s' → clock s' + w < 2 ^ 63 → timely w s'.
Proof.
  intros Hw. revert s. induction es as [|e es IH]; intros s Htm H Hb; simpl in H; [by injection H as <-|].
  case_match; [|done]. destruct (exec1 s e) as [s1|] eqn:E; [|done]. simpl in H.
  pose proof (exec_prompt_clock _ _ _ H). eapply IH; [|done|done]. eapply timely_step; [done..|]. lia.
Qed.

Lemma exec_owed_by w base t T dev s es s' :
  0 < w → timely w s → (base ≤ length (sent s))%nat → exec_prompt s es = Some s' → clock s' + w < 2 ^ 63 →
  owed_by base t T dev s → owed_by base t T dev s'.
Proof.
  intros Hw. revert s. induction es as [|e es IH]; intros s Htm Hl H Hb Ho; simpl in H; [by injection H as <-|].
  case_match eqn:Hp; [|done]. destruct (exec1 s e) as [s1|] eqn:E; [|done]. simpl in H.
  pose proof (exec_prompt_clock _ _ _ H).
  assert (timely w s1) by (eapply timely_step; [done..|]; lia).
  destruct (owed_by_step w base t T dev s e s1) as [? ?]; eauto.
Qed.

Lemma start_timely w : timely w (start w).
Proof. split; simpl; [done|lia|set_solver..]. Qed.

(** A wake goes out within one window.  When goroutines and timers run on time --
    the clock never passes an expired timer or an unfinished action -- a device is woken
    no later than one window after every wake asked for it. *)
Theorem wake_within_window w before after dev s1 s2 :
  0 < w → exec_prompt (start w) before = Some s1 → exec_prompt s1 (EWake dev :: after) = Some s2 →
  clock s2 + w < 2 ^ 63 → clock s1 + w < clock s2 →
  ∃ t, (t, dev) ∈ drop (length (sent s1)) (sent s2) ∧ clock s1 ≤ t ≤ clock s1 + w.
Proof.
  intros Hw H1 H2 Hb Hlate. pose proof (exec_prompt_clock _ _ _ H2) as Hcl.
  assert (timely w s1) as Htm by (eapply exec_timely; [done|apply start_timely|done|lia]).
  pose proof (exec_armed_ok _ _ _ (start_armed_ok w) (exec_prompt_exec _ _ _ H1)) as Hok. simpl in H2.
  set (s := section s1 (timers s1) (wake (co s1) (now_at (clock s1)) dev)) in *.
  assert (timely w s) as Htms by (eapply (timely_step w s1 (EWake dev)); [done..|simpl; lia]).
  pose proof (armed_ok_step _ (EWake dev) s Hok eq_refl dev) as Hoks.
  destruct (exec_owed_by w (length (sent s1)) (clock s1) (clock s1 + w) dev s after s2)
    as [?|[? _]]; try done; [|lia].
  right. split; [simpl; lia|]. unfold s in *. simpl in *.
  destruct (wake (co s1) (now_at (clock s1)) dev) as [c' acts] eqn:E.
  destruct (wake_spec _ _ _ _ _ dev E) as (_ & _ & [Hs|Ha]); [left; set_solver|right]. split; [done|].
  destruct (Hoks Ha) as [[d Hd]|[dl Hd]]; [left; exists d|right; exists dl]; (split; [done|]).
  - pose proof (tm_todo _ _ Htms _ _ Hd). lia.
  - pose proof (tm_timers _ _ Htms _ _ Hd). simpl in *. lia.
Qed.
End system.

(** ** Runs *)

Definition wall0 (clk : Z) : Z * Z := (63000000000 + Z.abs clk / second, Z.abs clk mod second).
Definition ms (n : Z) : Z := n * 1000000.
Definition phone : bytes := lit "phone".

Lemma wall0_ok clk : before (now_at wall0 clk) zero_time = false.
Proof.
  unfold before, now_at, wall0, second. simpl.
  assert (0 ≤ Z.abs clk / 1000000000) by (apply Z.div_pos; lia).
  destruct (Z.ltb_spec (63000000000 + Z.abs clk / 1000000000) 0), (Z.eqb_spec (63000000000 + Z.abs clk / 1000000000) 0);
    simpl; lia.
Qed.

(** Three wakes in one 5-second window: one goes out at once, one at its end. *)
Definition burst : list event :=
  [EWake phone; ERun 0; ETick (ms 1000); EWake phone; ERun 0; ETick (ms 1000); EWake phone;
   ETick (ms 3000); ETimer 0; ERun 0; ETick (ms 6000)].
Definition ran (es : list event) : system := default (start 0) (exec_prompt wall0 (start (ms 5000)) es).

Lemma no_wake_lost_witness :
  phone ∈ (drop (length (sent (ran (take 3 burst)))) (sent (ran burst))).*2.
Proof.
  apply (no_wake_lost wall0 (ms 5000) (take 3 burst) (drop 4 burst)); vm_compute; reflexivity.
Defined.

Lemma wake_within_window_witness :
  ∃ t, (t, phone) ∈ drop (length (sent (ran (take 3 burst)))) (sent (ran burst))
       ∧ clock (ran (take 3 burst)) ≤ t ≤ clock (ran (take 3 burst)) + ms 5000.
Proof.
  apply (wake_within_window wall0 wall0_ok (ms 5000) (take 3 burst) (drop 4 burst)); vm_compute; reflexivity.
Defined.

Example burst_sent : sent (ran burst) = [(0, phone); (ms 5000, phone)].
Proof. vm_compute. reflexivity. Qed.

(** A wake that comes when the window has closed and the trailing timer is due but has
    not run yet is sent at once, and the timer still sends its own: two wakes 2 ms apart
    in one window. *)
Example two_wakes_in_one_window :
  sent <$> exec wall0 (start (ms 5000))
    [EWake phone; ERun 0; ETick (ms 1000); EWake phone; ERun 0; ETick (ms 4000); EWake phone; ERun 0;
     ETick (ms 2); ETimer 0; ERun 0]
  = Some [(0, phone); (ms 5000, phone); (ms 5002, phone)].
Proof. vm_compute. reflexivity. Qed.
