(* ===== verification/Broker.v ===== *)
(** * internal/api/broker.go: live streams of queued messages

    The broker holds, per device, the channels of its open streams.  A channel is a
    name in a heap of channels (buffer and closed flag), as the slices of [subs] share
    them with the stream handlers.  Every method runs under the broker's mutex; a stream
    handler takes messages out of its channel at its own pace ([receive]). *)

From S2P Require Import Prelude.

Section broker.
Context {M : Type}.

Definition bufferSize : Z := 16.
Record chan := mkChan { buf : list M; closed : bool }.
Record messageBroker := mkBroker { subs : gmap bytes (list nat); chans : gmap nat chan; fresh_chan : nat }.

Definition newMessageBroker : messageBroker := mkBroker ∅ ∅ 0.

Definition streams (b : messageBroker) (deviceID : bytes) : list nat := default [] (subs b !! deviceID).

(** [None] is [errTooManyStreams]. *)
Definition subscribe (b : messageBroker) (deviceID : bytes) (maxPerDevice : Z) : messageBroker * option nat :=
  let c := fresh_chan b in
  let b := mkBroker (subs b) (<[c := mkChan [] false]> (chans b)) (S c) in
  if maxPerDevice <=? zlen (streams b deviceID) then (b, None)
  else (mkBroker (<[deviceID := streams b deviceID ++ [c]]> (subs b)) (chans b) (fresh_chan b), Some c).

(** The first occurrence of [c] goes. *)
Fixpoint remove_first (c : nat) (l : list nat) : list nat :=
  match l with [] => [] | x :: l => if Nat.eqb x c then l else x :: remove_first c l end.

(** Closing a closed channel panics. *)
Definition unsubscribe (b : messageBroker) (deviceID : bytes) (c : nat) : res () messageBroker :=
  let rest := remove_first c (streams b deviceID) in
  let subs' := if Nat.eqb (length rest) 0 then delete deviceID (subs b) else <[deviceID := rest]> (subs b) in
  match chans b !! c with
  | Some ch => if closed ch then Panic else Ok (mkBroker subs' (<[c := mkChan (buf ch) true]> (chans b)) (fresh_chan b))
  | None => Panic
  end.

Definition hasResponsiveSubscriber (b : messageBroker) (deviceID : bytes) : bool :=
  existsb (λ c, match chans b !! c with Some ch => zlen (buf ch) <? bufferSize | None => false end) (streams b deviceID).

(** One [select] with a default: a send on a closed channel panics, a full buffer is
    skipped. *)
Definition offer (m : M) (st : res () (gmap nat chan * bool)) (c : nat) : res () (gmap nat chan * bool) :=
  hd ← st;
  match hd.1 !! c with
  | None => Panic
  | Some ch =>
    if closed ch then Panic
    else if zlen (buf ch) <? bufferSize then Ok (<[c := mkChan (buf ch ++ [m]) false]> hd.1, true)
    else Ok hd
  end.
Definition publish (b : messageBroker) (deviceID : bytes) (m : M) : res () (messageBroker * bool) :=
  hd ← foldl (offer m) (Ok (chans b, false)) (streams b deviceID);
  Ok (mkBroker (subs b) hd.1 (fresh_chan b), hd.2).

(** A handler's receive: [None] when nothing is buffered. *)
Definition receive (b : messageBroker) (c : nat) : option (M * messageBroker) :=
  match chans b !! c with
  | Some (mkChan (m :: rest) cl) => Some (m, mkBroker (subs b) (<[c := mkChan rest cl]> (chans b)) (fresh_chan b))
  | _ => None
  end.

(** ** The broker's invariant *)

Record broker_wf (max : Z) (b : messageBroker) : Prop := {
  bw_open dev c : c ∈ streams b dev → ∃ ch, chans b !! c = Some ch ∧ closed ch = false;
  bw_fresh c : (fresh_chan b ≤ c)%nat → chans b !! c = None;
  bw_nodup dev : NoDup (streams b dev);
  bw_owner dev dev' c : c ∈ streams b dev → c ∈ streams b dev' → dev = dev';
  bw_max dev : zlen (streams b dev) ≤ Z.max 0 max;
  bw_nonempty dev : subs b !! dev ≠ Some [];
  bw_buf c ch : chans b !! c = Some ch → zlen (buf ch) ≤ bufferSize;
}.

Lemma new_broker_wf max : broker_wf max newMessageBroker.
Proof.
  split; unfold streams; simpl; intros; rewrite ?lookup_empty in *; simpl in *; try done.
  - by apply elem_of_nil in H.
  - constructor.
  - by apply elem_of_nil in H.
  - unfold zlen. simpl. lia.
Qed.

Lemma streams_insert b ch f dev l dev' :
  streams (mkBroker (<[dev := l]> (subs b)) ch f) dev' = if decide (dev = dev') then l else streams b dev'.
Proof.
  unfold streams. simpl. destruct (decide (dev = dev')) as [->|]; [by rewrite lookup_insert_eq|].
  by rewrite lookup_insert_ne.
Qed.

Lemma remove_first_perm c l : c ∈ l → l ≡ₚ c :: remove_first c l.
Proof.
  induction l as [|x l IH]; simpl; intros Hc; [by apply elem_of_nil in Hc|].
  destruct (Nat.eqb_spec x c) as [->|Hne]; [done|]. apply elem_of_cons in Hc as [->|Hc]; [done|].
  rewrite (IH Hc) at 1. constructor.
Qed.
Lemma remove_first_notin c l : c ∉ l → remove_first c l = l.
Proof.
  induction l as [|x l IH]; simpl; [done|]. intros Hc.
  destruct (Nat.eqb_spec x c) as [->|]; [set_solver|]. rewrite IH; set_solver.
Qed.
Lemma remove_first_elem c l x : x ∈ remove_first c l → x ∈ l.
Proof.
  destruct (decide (c ∈ l)) as [Hc|Hc]; [|by rewrite remove_first_notin].
  intros Hx. rewrite (remove_first_perm c l Hc). by right.
Qed.

Lemma subscribe_wf max b dev b' r : broker_wf max b → subscribe b dev max = (b', r) → broker_wf max b'.
Proof.
  intros [Ho Hf Hn Hw Hm He Hb]. unfold subscribe. intros H.
  assert (∀ d c, c ∈ streams b d → (c < fresh_chan b)%nat) as Hlt.
  { intros d c Hc. destruct (Ho d c Hc) as (ch & Hch & _). destruct (Nat.lt_ge_cases c (fresh_chan b)); [done|].
    rewrite Hf in Hch; done. }
  assert (∀ c, (S (fresh_chan b) ≤ c)%nat → <[fresh_chan b := mkChan [] false]> (chans b) !! c = None) as Hf'.
  { intros c Hc. rewrite lookup_insert_ne by lia. apply Hf. lia. }
  assert (∀ d c, c ∈ streams b d → ∃ ch, <[fresh_chan b := mkChan [] false]> (chans b) !! c = Some ch ∧ closed ch = false) as Ho'.
  { intros d c Hc. rewrite lookup_insert_ne; [by eapply Ho|]. specialize (Hlt _ _ Hc). lia. }
  assert (∀ c ch, <[fresh_chan b := mkChan [] false]> (chans b) !! c = Some ch → zlen (buf ch) ≤ bufferSize) as Hb'.
  { intros c ch [[_ <-]|[_ ?]]%lookup_insert_Some; [done|eauto]. }
  change (streams (mkBroker (subs b) (<[fresh_chan b := mkChan [] false]> (chans b)) (S (fresh_chan b))) dev)
    with (streams b dev) in H. simpl in H.
  destruct (Z.leb_spec max (zlen (streams b dev))); simplify_eq; [by split|].
  split; simpl; try done; intros *; rewrite ?streams_insert; repeat case_decide; simplify_eq; try by eauto.
  - intros [?| ->%list_elem_of_singleton]%elem_of_app; [by eauto|]. exists (mkChan [] false). by rewrite lookup_insert_eq.
  - apply NoDup_app. split_and!; [done| |apply NoDup_singleton].
    intros c Hc ->%list_elem_of_singleton. specialize (Hlt _ _ Hc). lia.
  - intros [?| ->%list_elem_of_singleton]%elem_of_app Hx; [by eauto|]. specialize (Hlt _ _ Hx). lia.
  - intros Hx [?| ->%list_elem_of_singleton]%elem_of_app; [by eauto|]. specialize (Hlt _ _ Hx). lia.
  - rewrite zlen_app. unfold zlen at 2. simpl. lia.
  - intros [[_ Hnil]|[_ ?]]%lookup_insert_Some; [by apply app_nil in Hnil as []|by eapply He].
Qed.

Lemma unsubscribe_wf max b dev c :
  broker_wf max b → c ∈ streams b dev → ∃ b', unsubscribe b dev c = Ok b' ∧ broker_wf max b'.
Proof.
  intros Hwf Hc. destruct (bw_open _ _ Hwf _ _ Hc) as (ch & Hch & Hcl). unfold unsubscribe. rewrite Hch, Hcl.
  eexists. split; [done|]. destruct Hwf as [Ho Hf Hn Hw Hm He Hb].
  set (rest := remove_first c (streams b dev)) in *. pose proof (remove_first_perm _ _ Hc) as Hp. fold rest in Hp.
  assert (NoDup (c :: rest)) as Hnd by (rewrite <- Hp; apply Hn).
  apply NoDup_cons in Hnd as [Hnot Hnd].
  set (b' := mkBroker _ _ _).
  assert (∀ d, streams b' d = if decide (dev = d) then rest else streams b d) as Hst.
  { intros d. unfold streams, b'. simpl. destruct (Nat.eqb_spec (length rest) 0) as [E|E]; case_decide; subst.
    - rewrite lookup_delete_eq. by apply length_zero_iff_nil in E.
    - by rewrite lookup_delete_ne.
    - by rewrite lookup_insert_eq.
    - by rewrite lookup_insert_ne. }
  assert (∀ d x, x ∈ streams b' d → x ∈ streams b d ∧ x ≠ c) as Hin.
  { intros d x. rewrite Hst. case_decide; subst.
    - intros Hx. split; [rewrite Hp; by right|]. by intros ->.
    - intros Hx. split; [done|]. intros ->. eauto. }
  split.
  - intros d x [Hx Hne]%Hin. simpl. rewrite lookup_insert_ne by done. by eapply Ho.
  - intros x Hx. simpl in *. rewrite lookup_insert_ne; [by apply Hf|]. intros ->. by rewrite Hf in Hch.
  - intros d. rewrite Hst. case_decide; [done|apply Hn].
  - intros d d' x [Hx _]%Hin [Hx' _]%Hin. eauto.
  - intros d. rewrite Hst. case_decide; [|apply Hm]. specialize (Hm dev). apply Permutation_length in Hp.
    unfold zlen in *. simpl in Hp. lia.
  - intros d. unfold b'. simpl. destruct (Nat.eqb_spec (length rest) 0) as [E|E].
    + intros [_ ?]%lookup_delete_Some. by eapply He.
    + intros [[_ Hnil]|[_ ?]]%lookup_insert_Some; [by rewrite Hnil in E|by eapply He].
  - intros x y. simpl. intros [[<- <-]|[_ ?]]%lookup_insert_Some; simpl; eauto.
Qed.

(** What one offer does to the heap. *)
Definition accept (m : M) (ch : chan) : chan :=
  if zlen (buf ch) <? bufferSize then mkChan (buf ch ++ [m]) false else ch.
Definition room (h : gmap nat chan) (c : nat) : bool :=
  match h !! c with Some ch => zlen (buf ch) <? bufferSize | None => false end.

Lemma offers_spec m l h d :
  (∀ c, c ∈ l → ∃ ch, h !! c = Some ch ∧ closed ch = false) → NoDup l →
  ∃ h', foldl (offer m) (Ok (h, d)) l = Ok (h', d || existsb (room h) l)
        ∧ ∀ c, h' !! c = if bool_decide (c ∈ l) then accept m <$> h !! c else h !! c.
Proof.
  revert h d. induction l as [|x l IH]; intros h d Ho Hnd; cbn [foldl existsb].
  { exists h. rewrite orb_false_r. by split. }
  apply NoDup_cons in Hnd as [Hx Hnd]. destruct (Ho x ltac:(left)) as (ch & Hch & Hcl).
  unfold offer at 2. cbn [mbind res_bind fst]. rewrite Hch, Hcl.
  assert (room h x = (zlen (buf ch) <? bufferSize)) as Hr by (unfold room; by rewrite Hch).
  set (h1 := if zlen (buf ch) <? bufferSize then <[x := mkChan (buf ch ++ [m]) false]> h else h).
  assert (h1 !! x = Some (accept m ch)) as Hx1.
  { unfold h1, accept. case_match; [by rewrite lookup_insert_eq|done]. }
  assert (∀ c, c ≠ x → h1 !! c = h !! c) as Hne.
  { intros c Hc. unfold h1. case_match; [by rewrite lookup_insert_ne|done]. }
  destruct (IH h1 (d || room h x)) as (h' & Hf & Hl).
  { intros c Hc. rewrite Hne by (by intros ->). apply Ho. by right. }
  { done. }
  exists h'. split.
  - rewrite orb_assoc. replace (existsb (room h) l) with (existsb (room h1) l); [rewrite <- Hf|].
    + rewrite Hr. unfold h1. case_match; [by rewrite orb_true_r|by rewrite orb_false_r].
    + clear -Hx Hne. induction l as [|y l IH]; [done|]. simpl. rewrite IH by set_solver. f_equal.
      unfold room. rewrite Hne; [done|set_solver].
  - intros c. rewrite Hl. destruct (decide (c = x)) as [->|Hc].
    + rewrite bool_decide_false, bool_decide_true, Hx1, Hch by (done || left). done.
    + rewrite Hne by done. repeat case_bool_decide; set_solver.
Qed.

Lemma accept_open m ch : closed ch = false → closed (accept m ch) = false.
Proof. unfold accept. by case_match. Qed.
Lemma accept_bound m ch : zlen (buf ch) ≤ bufferSize → zlen (buf (accept m ch)) ≤ bufferSize.
Proof.
  unfold accept. destruct (Z.ltb_spec (zlen (buf ch)) bufferSize); [|done]. cbn [buf]. rewrite zlen_app.
  change (zlen [m]) with 1. lia.
Qed.

(** Publishing never panics; every subscriber with room takes the message at the end
    of its buffer, and the result says whether one did. *)
Lemma publish_spec max b dev m :
  broker_wf max b →
  ∃ b', publish b dev m = Ok (b', hasResponsiveSubscriber b dev) ∧ broker_wf max b' ∧ subs b' = subs b
        ∧ fresh_chan b' = fresh_chan b
        ∧ ∀ c, chans b' !! c = if bool_decide (c ∈ streams b dev) then accept m <$> chans b !! c else chans b !! c.
Proof.
  intros Hwf. destruct (offers_spec m (streams b dev) (chans b) false) as (h' & Hf & Hl);
    [intros c; apply (bw_open _ _ Hwf)|apply (bw_nodup _ _ Hwf)|].
  unfold publish. rewrite Hf. simpl. eexists. split; [done|]. split_and!; try done.
  destruct Hwf as [Ho Hf' Hn Hw Hm He Hb]. split; try done; simpl.
  - intros d c Hc. destruct (Ho d c Hc) as (ch & Hch & Hcl). rewrite Hl, Hch. case_bool_decide; simpl; eauto using accept_open.
  - intros c Hc. rewrite Hl. apply Hf' in Hc as Hnone. rewrite Hnone. by case_bool_decide.
  - intros c ch. rewrite Hl. case_bool_decide; [|by eauto]. intros (ch0 & ? & ->)%fmap_Some. eauto using accept_bound.
Qed.

Lemma receive_wf max b c m b' : broker_wf max b → receive b c = Some (m, b') → broker_wf max b'.
Proof.
  unfold receive. intros [Ho Hf Hn Hw Hm He Hb] H.
  destruct (chans b !! c) as [[[|x rest] cl]|] eqn:E; simplify_eq. split; try done; simpl.
  - intros d x Hx. destruct (Ho d x Hx) as (ch & Hch & Hcl). destruct (decide (c = x)) as [->|].
    + rewrite lookup_insert_eq. simplify_eq. eauto.
    + rewrite lookup_insert_ne by done. eauto.
  - intros x Hx. rewrite lookup_insert_ne; [by apply Hf|]. intros ->. by rewrite Hf in E.
  - intros x ch [[<- <-]|[_ ?]]%lookup_insert_Some; [|by eauto]. apply Hb in E. unfold zlen in *. simpl in *. lia.
Qed.

(** ** Runs

    Streams open and close, messages are published and handlers read, in any order; a
    handler closes its own stream once.  The history records what was published, when
    each stream began and what it read. *)
Inductive event := BSub (dev : bytes) | BUnsub (dev : bytes) (c : nat) | BPub (dev : bytes) (m : M) | BRecv (c : nat).
Record history := mkHistory {
  br : messageBroker; published : list (bytes * M); since : gmap nat (bytes * nat); got : gmap nat (list M);
}.
Definition no_history : history := mkHistory newMessageBroker [] ∅ ∅.

Definition run1 (max : Z) (s : history) (e : event) : res () history :=
  match e with
  | BSub dev =>
    let '(b, r) := subscribe (br s) dev max in
    Ok (match r with
        | Some c => mkHistory b (published s) (<[c := (dev, length (published s))]> (since s)) (<[c := []]> (got s))
        | None => mkHistory b (published s) (since s) (got s)
        end)
  | BUnsub dev c =>
    if bool_decide (c ∈ streams (br s) dev) then
      b ← unsubscribe (br s) dev c; Ok (mkHistory b (published s) (since s) (got s))
    else Ok s
  | BPub dev m =>
    bd ← publish (br s) dev m; Ok (mkHistory bd.1 (published s ++ [(dev, m)]) (since s) (got s))
  | BRecv c =>
    match receive (br s) c with
    | Some (m, b) => Ok (mkHistory b (published s) (since s) (<[c := default [] (got s !! c) ++ [m]]> (got s)))
    | None => Ok s
    end
  end.
Definition run (max : Z) (s : history) (es : list event) : res () history :=
  foldl (λ r e, s ← r; run1 max s e) (Ok s) es.

Definition to_device (dev : bytes) (l : list (bytes * M)) : list M :=
  omap (λ x : bytes * M, if x.1 =?b dev then Some x.2 else None) l.

Record faithful (max : Z) (s : history) : Prop := {
  fa_wf : broker_wf max (br s);
  fa_owner c dev : c ∈ streams (br s) dev → ∃ n, since s !! c = Some (dev, n);
  fa_fresh c : (fresh_chan (br s) ≤ c)%nat → since s !! c = None;
  fa_since c dev n : since s !! c = Some (dev, n) → (n ≤ length (published s))%nat
    ∧ ∃ ch, chans (br s) !! c = Some ch
        ∧ default [] (got s !! c) ++ buf ch `sublist_of` to_device dev (drop n (published s));
}.

Lemma to_device_snoc dev n l x : (n ≤ length l)%nat →
  to_device dev (drop n (l ++ [x])) = to_device dev (drop n l) ++ (if x.1 =?b dev then [x.2] else []).
Proof. intros Hn. rewrite drop_app_le by done. unfold to_device. rewrite omap_app. simpl. by destruct (x.1 =?b dev). Qed.

Lemma faithful_sub max s dev : faithful max s → ∃ s', run1 max s (BSub dev) = Ok s' ∧ faithful max s'.
Proof.
  intros [Hwf Ho Hf Hs]. simpl. destruct (subscribe (br s) dev max) as [b r] eqn:E. eexists. split; [done|].
  pose proof (subscribe_wf _ _ _ _ _ Hwf E) as Hwf'. unfold subscribe in E. cbn [subs fresh_chan chans] in E.
  change (streams _ dev) with (streams (br s) dev) in E.
  assert (∀ c x, since s !! c = Some x → c ≠ fresh_chan (br s)) as Hne.
  { intros c x Hx ->. by rewrite Hf in Hx. }
  destruct (max <=? zlen (streams (br s) dev)); simplify_eq; split; simpl; try done.
  - intros c Hc. apply Hf. simpl in Hc. lia.
  - intros c d n Hc. destruct (Hs _ _ _ Hc) as (? & ch & ? & ?). split; [done|].
    rewrite lookup_insert_ne by (by apply not_eq_sym, (Hne _ _ Hc)). eauto.
  - intros c d. rewrite streams_insert. destruct (decide (dev = d)) as [->|].
    + intros [Hc| ->%list_elem_of_singleton]%elem_of_app; [|rewrite lookup_insert_eq; eauto].
      destruct (Ho _ _ Hc) as [n Hn]. rewrite lookup_insert_ne by (by apply not_eq_sym, (Hne _ _ Hn)). eauto.
    + intros Hc. destruct (Ho _ _ Hc) as [n' Hn]. rewrite lookup_insert_ne by (by apply not_eq_sym, (Hne _ _ Hn)). eauto.
  - intros c Hc. rewrite lookup_insert_ne by lia. apply Hf. lia.
  - intros c d n [[<- [= <- <-]]|[Hcn Hc]]%lookup_insert_Some.
    + split; [done|]. exists (mkChan [] false). rewrite !lookup_insert_eq. split; [done|]. simpl. apply sublist_nil_l.
    + destruct (Hs _ _ _ Hc) as (? & ch & ? & ?). split; [done|]. rewrite !lookup_insert_ne by done. eauto.
Qed.

Lemma faithful_pub max s dev m : faithful max s → ∃ s', run1 max s (BPub dev m) = Ok s' ∧ faithful max s'.
Proof.
  intros [Hwf Ho Hf Hs]. simpl. destruct (publish_spec max (br s) dev m Hwf) as (b' & -> & Hwf' & Hsub & Hfr & Hl).
  simpl. eexists. split; [done|]. split; simpl; try done.
  - intros c d. unfold streams. rewrite Hsub. apply Ho.
  - rewrite Hfr. apply Hf.
  - intros c d n Hc. destruct (Hs _ _ _ Hc) as (Hn & ch & Hch & Hsl).
    split; [rewrite length_app; lia|]. rewrite to_device_snoc by done. simpl. rewrite Hl, Hch. case_bool_decide as Hin.
    + destruct (Ho _ _ Hin) as [n' Hn']. simplify_eq. rewrite eqb_refl. simpl. eexists. split; [done|].
      unfold accept. destruct (zlen (buf ch) <? bufferSize); simpl; [|by apply sublist_inserts_r]. rewrite (assoc_L app). by apply sublist_app.
    + eexists. split; [done|]. by apply sublist_inserts_r.
Qed.

Lemma faithful_unsub max s dev c : faithful max s → ∃ s', run1 max s (BUnsub dev c) = Ok s' ∧ faithful max s'.
Proof.
  intros Hfa. simpl. case_bool_decide as Hc; [|by eauto]. destruct Hfa as [Hwf Ho Hf Hs].
  destruct (unsubscribe_wf max (br s) dev c Hwf Hc) as (b' & E & Hwf'). rewrite E. simpl. eexists. split; [done|].
  unfold unsubscribe in E. destruct (chans (br s) !! c) as [ch|] eqn:Ech; [|done]. destruct (closed ch); [done|].
  injection E as <-. split; simpl; try done.
  - intros x d Hx. apply (Ho x d). revert Hx. unfold streams. simpl.
    destruct (Nat.eqb_spec (length (remove_first c (default [] (subs (br s) !! dev)))) 0);
      destruct (decide (dev = d)) as [->|]; rewrite ?lookup_delete_eq, ?lookup_insert_eq, ?lookup_delete_ne, ?lookup_insert_ne by done; simpl;
      try done; [by intros ?%elem_of_nil|by intros ?%remove_first_elem].
  - intros x d n Hx. destruct (Hs _ _ _ Hx) as (? & ch' & ? & ?). split; [done|].
    destruct (decide (c = x)) as [->|]; [rewrite lookup_insert_eq; simplify_eq|rewrite lookup_insert_ne by done]; eauto.
Qed.

Lemma faithful_recv max s c : faithful max s → ∃ s', run1 max s (BRecv c) = Ok s' ∧ faithful max s'.
Proof.
  intros Hfa. simpl. destruct (receive (br s) c) as [[m b]|] eqn:E; [|by eauto]. eexists. split; [done|].
  destruct Hfa as [Hwf Ho Hf Hs]. pose proof (receive_wf _ _ _ _ _ Hwf E) as Hwf'. unfold receive in E.
  destruct (chans (br s) !! c) as [[[|y rest] cl]|] eqn:Ech; simplify_eq. split; simpl; try done.
  intros x d n Hx. destruct (Hs _ _ _ Hx) as (? & ch' & ? & Hsl). split; [done|]. destruct (decide (c = x)) as [->|].
  - rewrite !lookup_insert_eq. simplify_eq/=. eexists. split; [done|]. simpl. by rewrite <- (assoc_L app).
  - rewrite !lookup_insert_ne by done. eauto.
Qed.

(** C35: The broker is safe and its streams are honest.  However streams open, close
    and read and messages are published, nothing panics (no send on or second close of a
    closed channel), no device holds more streams than allowed, and what a stream has
    read followed by what is buffered for it is, in order and without repetition, part of
    what was published to its device since it opened. *)
Theorem broker_safe max es :
  ∃ s, run max no_history es = Ok s ∧ (∀ dev, zlen (streams (br s) dev) ≤ Z.max 0 max)
       ∧ ∀ c dev n, since s !! c = Some (dev, n) → ∃ ch, chans (br s) !! c = Some ch
           ∧ default [] (got s !! c) ++ buf ch `sublist_of` to_device dev (drop n (published s)).
Proof.
  assert (∃ s, run max no_history es = Ok s ∧ faithful max s) as (s & -> & Hfa).
  { unfold run. induction es as [|e es IH] using rev_ind.
    - simpl. eexists. split; [done|]. split; simpl; try done; [apply new_broker_wf|].
      intros c dev Hc. unfold streams in Hc. simpl in Hc. rewrite lookup_empty in Hc. by apply elem_of_nil in Hc.
    - destruct IH as (s & Hs & Hfa). rewrite foldl_app, Hs. cbn [foldl mbind res_bind].
      destruct e; eauto using faithful_sub, faithful_pub, faithful_unsub, faithful_recv. }
  exists s. split_and!; [done|apply (bw_max _ _ (fa_wf _ _ Hfa))|]. intros c dev n Hc.
  by destruct (fa_since _ _ Hfa _ _ _ Hc) as (_ & ch & ? & ?); eauto.
Qed.
End broker.
Arguments chan : clear implicits.
Arguments messageBroker : clear implicits.
