(* ===== verification/Delivery.v ===== *)
(** * internal/api/messages.go: from a request to the recipient's device

    [enqueueMessage] is the path every message takes on the recipient's server: it
    checks the recipient, queues the message under the cap, and hands it to a live
    stream or, when none takes it, asks for a push wake.  The handlers around it, single
    and batched, and the sending of a wake are here too.

    push.go and pushclient.go: what a wake's answer does to the registration, the signed
    request to the gateway, and the addresses an endpoint may not lead to.

    The clock readings of a call are arguments, and [AddDate] in the server's location is
    the class [Calendar].  A handler takes its decoded body. *)

From S2P Require Import Prelude GoStr GoTime GoTimeParse Sha256 Humancode Crypto Base64 HttpSig WakeCoalesce Broker Store StoreIntegrity StoreQueue Auth.

(** [t.AddDate(0, 0, days)]: in UTC a day is 86400 seconds. *)
Class Calendar := add_days : Time → Z → Time.

(** The settings of internal/config the handlers read. *)
Record Config := mkConfig {
  MaxQueuedMessagesPerDevice : Z; MessageRetentionDays : Z; MaxBatchMessages : Z; MaxStreamsPerDevice : Z;
  PushGatewayURL : bytes;
}.

Record API := mkAPI { DB : db; broker : messageBroker Message; wakes : wakeCoalescer }.

(** The HTTP status and error code (empty on success) of a reply. *)
Record reply := mkReply { http_status : Z; http_code : bytes }.

Inductive body A := Decoded (a : A) | TooLarge | Malformed.
Arguments Decoded {A} a.
Arguments TooLarge {A}.
Arguments Malformed {A}.
Definition decodeJSONBody {A} (b : body A) : reply + A :=
  match b with
  | Decoded a => inr a
  | TooLarge => inl (mkReply 413 (lit "payload_too_large"))
  | Malformed => inl (mkReply 400 (lit "invalid_request"))
  end.

(** [Decoded]: the bytes that could be read; [Malformed]: reading failed. *)
Definition readBody {A} (b : body A) : reply + A :=
  match b with
  | Decoded a => inr a
  | TooLarge => inl (mkReply 413 (lit "payload_too_large"))
  | Malformed => inl (mkReply 400 (lit "invalid_request"))
  end.

Record enqueueRequest := mkEnqueue {
  RqMessageID : bytes; RqSenderAccountID : bytes; RqSenderDeviceID : bytes;
  RqRecipientAccountID : bytes; RqRecipientDeviceID : bytes; RqPayload : bytes;
}.

Inductive enqueueOutcome :=
  | enqueueQueued | enqueueInvalid | enqueueUnknownRecipient | enqueueDuplicate | enqueueQueueFull
  | enqueueInternalError.
#[export] Instance enqueueOutcome_eq_dec : EqDecision enqueueOutcome.
Proof. solve_decision. Defined.
Definition outcome_string (o : enqueueOutcome) : bytes :=
  match o with
  | enqueueQueued => lit "queued" | enqueueInvalid => lit "invalid"
  | enqueueUnknownRecipient => lit "unknown_recipient" | enqueueDuplicate => lit "duplicate"
  | enqueueQueueFull => lit "queue_full" | enqueueInternalError => lit "internal_error"
  end.
Definition asError (o : enqueueOutcome) : reply :=
  match o with
  | enqueueInvalid => mkReply 400 (lit "invalid_request")
  | enqueueUnknownRecipient => mkReply 404 (lit "unknown_recipient")
  | enqueueDuplicate => mkReply 409 (lit "message_exists")
  | enqueueQueueFull => mkReply 429 (lit "recipient_queue_full")
  | _ => mkReply 500 (lit "internal")
  end.

Section api.
Context {CA : Calendar} (cfg : Config).

Definition wakeDevice (a : API) (wnow : Time) (device : Device) : API * list action :=
  let wa := wake (wakes a) wnow (DeviceID device) in (mkAPI (DB a) (broker a) wa.1, wa.2).

Definition queueAndNotify (a : API) (wnow : Time) (msg : Message) (recipientDevice : Device)
    : res () (API * list action) :=
  '(b, delivered) ← publish (broker a) (RecipientDeviceID msg) msg;
  let a := mkAPI (DB a) b (wakes a) in
  if (delivered : bool) then Ok (a, []) else Ok (wakeDevice a wnow recipientDevice).

(** The transaction commits only when the insert succeeded. *)
Definition createMessageUnderCap (d : db) (msg : Message) : db * res StoreError () :=
  CreateMessageUnderCap d msg (MaxQueuedMessagesPerDevice cfg).

Definition invalid_request (req : enqueueRequest) : bool :=
  (zlen (RqMessageID req) =? 0) || (zlen (RqRecipientDeviceID req) =? 0) || (zlen (RqPayload req) =? 0)
  || (trim_space (RqPayload req) =?b lit "null").

Definition enqueueMessage (a : API) (now wnow : Time) (req : enqueueRequest)
    : res () (API * list action * enqueueOutcome) :=
  if invalid_request req then Ok (a, [], enqueueInvalid)
  else match GetDevice (DB a) (RqRecipientDeviceID req) with
  | Err ErrNotFound => Ok (a, [], enqueueUnknownRecipient)
  | Ok recipientDevice =>
    if negb (DevStatus recipientDevice =?b DeviceStatusActive) then Ok (a, [], enqueueUnknownRecipient)
    else if negb (zlen (RqRecipientAccountID req) =? 0)
            && negb (RqRecipientAccountID req =?b AccountID recipientDevice) then Ok (a, [], enqueueInvalid)
    else match GetAccount (DB a) (AccountID recipientDevice) with
    | Err ErrNotFound => Ok (a, [], enqueueUnknownRecipient)
    | Ok recipientAccount =>
      if negb (Status recipientAccount =?b AccountStatusActive) then Ok (a, [], enqueueUnknownRecipient)
      else
        let msg := mkMessage (RqMessageID req) (RqSenderAccountID req) (RqSenderDeviceID req)
                     (AccountID recipientDevice) (RqRecipientDeviceID req) (RqPayload req) now
                     (add_days now (MessageRetentionDays cfg)) in
        match createMessageUnderCap (DB a) msg with
        | (d, Ok _) =>
          aa ← queueAndNotify (mkAPI d (broker a) (wakes a)) wnow msg recipientDevice;
          Ok (aa.1, aa.2, enqueueQueued)
        | (_, Err ErrQueueFull) => Ok (a, [], enqueueQueueFull)
        | (_, Err ErrConflict) => Ok (a, [], enqueueDuplicate)
        | _ => Ok (a, [], enqueueInternalError)
        end
    | _ => Ok (a, [], enqueueInternalError)
    end
  | _ => Ok (a, [], enqueueInternalError)
  end.

Record sendMessageRequest := mkSend {
  SMessageID : bytes; SRecipientAccountID : bytes; SRecipientDeviceID : bytes; SPayload : bytes;
}.
Definition enqueue_of (identity : Identity) (r : sendMessageRequest) : enqueueRequest :=
  mkEnqueue (SMessageID r) (IdAccountID identity) (IdDeviceID identity) (SRecipientAccountID r)
    (SRecipientDeviceID r) (SPayload r).

Definition handleSendMessage (a : API) (now wnow : Time) (identity : option Identity) (b : body sendMessageRequest)
    : res () (API * list action * reply) :=
  match identity with
  | None => Ok (a, [], mkReply 500 (lit "internal"))
  | Some identity =>
    match decodeJSONBody b with
    | inl r => Ok (a, [], r)
    | inr req =>
      o ← enqueueMessage a now wnow (enqueue_of identity req);
      Ok (o.1.1, o.1.2, if o.2 =?b enqueueQueued then mkReply 202 [] else asError o.2)
    end
  end.

Definition checkBatchSize (count : Z) : option reply :=
  if count =? 0 then Some (mkReply 400 (lit "invalid_request"))
  else if MaxBatchMessages cfg <? count then Some (mkReply 400 (lit "batch_too_large"))
  else None.

(** The items in order, with the two clock readings of each; (message id, status) per item. *)
Fixpoint enqueue_batch (a : API) (identity : Identity) (items : list (sendMessageRequest * (Time * Time)))
    : res () (API * list action * list (bytes * bytes)) :=
  match items with
  | [] => Ok (a, [], [])
  | (item, (now, wnow)) :: items =>
    o ← enqueueMessage a now wnow (enqueue_of identity item);
    r ← enqueue_batch o.1.1 identity items;
    Ok (r.1.1, o.1.2 ++ r.1.2, (SMessageID item, outcome_string o.2) :: r.2)
  end.
Definition handleSendMessageBatch (a : API) (identity : option Identity)
    (b : body (list (sendMessageRequest * (Time * Time)))) : res () (API * list action * (reply + list (bytes * bytes))) :=
  match identity with
  | None => Ok (a, [], inl (mkReply 500 (lit "internal")))
  | Some identity =>
    match decodeJSONBody b with
    | inl r => Ok (a, [], inl r)
    | inr items =>
      match checkBatchSize (zlen items) with
      | Some r => Ok (a, [], inl r)
      | None => r ← enqueue_batch a identity items; Ok (r.1, inr r.2)
      end
    end
  end.

Definition handleListMessages (a : API) (identity : Identity) : res StoreError (list Message) :=
  ListPendingMessages (DB a) (IdDeviceID identity).
Definition handleDeleteMessage (a : API) (identity : Identity) (messageID : bytes) : API * reply :=
  match DeleteMessage (DB a) messageID (IdDeviceID identity) with
  | (d, Ok _) => (mkAPI d (broker a) (wakes a), mkReply 200 [])
  | (_, Err ErrNotFound) => (a, mkReply 404 (lit "not_found"))
  | _ => (a, mkReply 500 (lit "internal"))
  end.

(** [handleMessageStream] in its two steps against the shared state: it lists what is
    pending, and only then subscribes. *)
Definition stream_list (a : API) (identity : Identity) : res StoreError (list Message) :=
  ListPendingMessages (DB a) (IdDeviceID identity).
Definition stream_subscribe (a : API) (identity : Identity) : API * (reply + nat) :=
  match subscribe (broker a) (IdDeviceID identity) (MaxStreamsPerDevice cfg) with
  | (b, Some c) => (mkAPI (DB a) b (wakes a), inr c)
  | (b, None) => (mkAPI (DB a) b (wakes a), inl (mkReply 429 (lit "too_many_streams")))
  end.

(** ** dispatchWake: the wake itself, and what a dead address does (push.go) *)

Inductive wakeRequest := WebPush (sub : PushSubscription) | ViaGateway (target : PushTarget) | NoWake.
Definition dispatchWake (d : db) (deviceID : bytes) : wakeRequest :=
  match GetDevice d deviceID with
  | Ok device =>
    match Push device, DevPushTarget device with
    | Some sub, _ => WebPush sub
    | None, Some target => if negb (zlen (PushGatewayURL cfg) =? 0) then ViaGateway target else NoWake
    | None, None => NoWake
    end
  | _ => NoWake
  end.

(** The database after the reply; [None] is a request that failed. *)
Definition notifyPush (d : db) (deviceID : bytes) (status : option Z) : db :=
  match status with
  | Some s => if (s =? 404) || (s =? 410) then (SetDevicePushSubscription d deviceID None).1 else d
  | None => d
  end.
Definition notifyPushViaGateway (d : db) (deviceID : bytes) (status : option Z) : db :=
  match status with
  | Some s => if s =? 410 then (SetDevicePushTarget d deviceID None).1 else d
  | None => d
  end.
End api.

(** ** What a queued message brings about *)

Section correct.
Context {CA : Calendar} (cfg : Config).

Definition message_of (a : API) (now : Time) (req : enqueueRequest) (dv : Device) : Message :=
  mkMessage (RqMessageID req) (RqSenderAccountID req) (RqSenderDeviceID req) (AccountID dv) (RqRecipientDeviceID req)
    (RqPayload req) now (add_days now (MessageRetentionDays cfg)).

(** The recipient [dv] exists and is active, as is its account, the request names it
    consistently, its queue has room and the message id is new. *)
Record acceptable (a : API) (req : enqueueRequest) (dv : Device) : Prop := {
  ac_valid : invalid_request req = false;
  ac_device : GetDevice (DB a) (RqRecipientDeviceID req) = Ok dv;
  ac_dev_active : DevStatus dv = DeviceStatusActive;
  ac_named : RqRecipientAccountID req = [] ∨ RqRecipientAccountID req = AccountID dv;
  ac_account : ∃ acc, GetAccount (DB a) (AccountID dv) = Ok acc ∧ Status acc = AccountStatusActive;
  ac_room : CountPendingMessages (DB a) (RqRecipientDeviceID req) < MaxQueuedMessagesPerDevice cfg;
  ac_new : ∀ r, r ∈ messages (DB a) → ms_id r ≠ RqMessageID req;
}.

(** A stream of the device took [m] at the end of its buffer. *)
Definition taken_live (a a' : API) (dev : bytes) (m : Message) : Prop :=
  ∃ c ch, c ∈ streams (broker a) dev ∧ chans (broker a') !! c = Some ch ∧ last (buf ch) = Some m.

Lemma GetDevice_present d k x : GetDevice d k = Ok x → present (devices d !! k) = true ∧ DeviceID x = k.
Proof.
  unfold GetDevice, scanDeviceFields. destruct (devices d !! k); [|done]. intros H. split; [done|].
  res_inv H. by simplify_eq.
Qed.

Lemma zlen_zero {A} (l : list A) : (zlen l =? 0) = true ↔ l = [].
Proof. rewrite Z.eqb_eq. split; [apply zlen_nil_inv|by intros ->]. Qed.

Lemma existsb_ids (l : list message_row) id :
  existsb (λ r, ms_id r =?b id) l = false ↔ ∀ r, r ∈ l → ms_id r ≠ id.
Proof.
  rewrite <- not_true_iff_false, existsb_exists. setoid_rewrite eqb_true. setoid_rewrite <- list_elem_of_In. naive_solver.
Qed.

Lemma queueAndNotify_spec max a wnow msg dv :
  broker_wf max (broker a) → RecipientDeviceID msg = DeviceID dv →
  ∃ a' acts, queueAndNotify a wnow msg dv = Ok (a', acts) ∧ broker_wf max (broker a') ∧ DB a' = DB a
    ∧ (taken_live a a' (DeviceID dv) msg ∧ wakes a' = wakes a ∧ acts = []
       ∨ hasResponsiveSubscriber (broker a) (DeviceID dv) = false
         ∧ (∀ c, chans (broker a') !! c = chans (broker a) !! c)
         ∧ (wakes a', acts) = wake (wakes a) wnow (DeviceID dv)).
Proof.
  intros Hwf Hdev. unfold queueAndNotify. rewrite Hdev.
  destruct (publish_spec max (broker a) (DeviceID dv) msg Hwf) as (b' & -> & Hwf' & _ & _ & Hl). simpl.
  destruct (hasResponsiveSubscriber (broker a) (DeviceID dv)) eqn:Hr.
  - do 2 eexists. split; [done|]. split_and!; [done..|]. left. split; [|done].
    unfold hasResponsiveSubscriber in Hr. apply existsb_exists in Hr as (c & Hc%list_elem_of_In & Hroom).
    destruct (chans (broker a) !! c) as [ch|] eqn:Ech; [|done]. exists c, (accept msg ch). simpl.
    split; [done|]. rewrite Hl, bool_decide_true, Ech by done. split; [done|]. unfold accept. rewrite Hroom. simpl.
    by rewrite last_snoc.
  - do 2 eexists. split; [done|]. simpl. split_and!; [done..|]. right. split_and!; [done| |by destruct (wake _ _ _)].
    intros c. rewrite Hl. case_bool_decide as Hc; [|done]. destruct (chans (broker a) !! c) as [ch|] eqn:Ech; [|done].
    simpl. f_equal. unfold accept.
    assert ((zlen (buf ch) <? bufferSize) = false) as ->; [|done].
    destruct (zlen (buf ch) <? bufferSize) eqn:E; [|done]. exfalso.
    unfold hasResponsiveSubscriber in Hr. apply not_true_iff_false in Hr. apply Hr. apply existsb_exists.
    exists c. split; [by apply list_elem_of_In|]. by rewrite Ech.
Qed.

(** [a'] and [acts] are what queueing [req] for [dv] leaves: the message is the last row,
    and a live stream has it or the device is woken. *)
Definition announced (a a' : API) (acts : list action) (now wnow : Time) (req : enqueueRequest) (dv : Device) : Prop :=
  DB a' = set_messages (DB a) (messages (DB a) ++ [message_to_row (message_of a now req dv)])
  ∧ (taken_live a a' (DeviceID dv) (message_of a now req dv) ∧ wakes a' = wakes a ∧ acts = []
     ∨ hasResponsiveSubscriber (broker a) (DeviceID dv) = false
       ∧ (wakes a', acts) = wake (wakes a) wnow (DeviceID dv)).

Definition enqueue_post (max : Z) (a : API) (now wnow : Time) (req : enqueueRequest)
    (r : API * list action * enqueueOutcome) : Prop :=
  let '(a', acts, o) := r in
  broker_wf max (broker a')
  ∧ (o = enqueueQueued ↔ ∃ dv, acceptable a req dv)
  ∧ (o ≠ enqueueQueued → a' = a ∧ acts = [])
  ∧ (o = enqueueQueued → ∃ dv, acceptable a req dv ∧ announced a a' acts now wnow req dv).

Lemma enqueue_refused max a now wnow req o :
  broker_wf max (broker a) → o ≠ enqueueQueued → (∀ dv, ¬ acceptable a req dv) →
  ∃ r, @Ok () _ (a, [] : list action, o) = Ok r ∧ enqueue_post max a now wnow req r.
Proof. intros Hwf Ho Hn. eexists. split; [done|]. split_and!; try done; naive_solver. Qed.

Lemma acceptable_account a req dv' dv :
  acceptable a req dv' → GetDevice (DB a) (RqRecipientDeviceID req) = Ok dv →
  ∃ acc, GetAccount (DB a) (AccountID dv) = Ok acc ∧ Status acc = AccountStatusActive.
Proof. intros [_ Hd _ _ Ha _ _] Hd'. rewrite Hd in Hd'. by injection Hd' as <-. Qed.

Lemma enqueue_total max a now wnow req :
  broker_wf max (broker a) →
  ∃ r, enqueueMessage cfg a now wnow req = Ok r ∧ enqueue_post max a now wnow req r.
Proof.
  intros Hwf. pose proof (enqueue_refused max a now wnow req) as Hno.
  unfold enqueueMessage. destruct (invalid_request req) eqn:Ev; [apply Hno; [done|done|intros dv []; congruence]|].
  destruct (GetDevice (DB a) (RqRecipientDeviceID req)) as [dv|e|] eqn:Ed;
    [|destruct e; (apply Hno; [done|done|intros dv []; congruence])|apply Hno; [done|done|intros dv []; congruence]].
  destruct (eqb (DevStatus dv) DeviceStatusActive) eqn:Ea; simpl; bool_prop;
    [|apply Hno; [done|done|intros dv' []; congruence]].
  destruct (negb (zlen (RqRecipientAccountID req) =? 0) && negb (RqRecipientAccountID req =?b AccountID dv)) eqn:En.
  { bool_prop. destruct En as [En1 En2]. apply Hno; [done|done|]. intros dv' [_ Hd _ [Hnil|Hnamed] _ _ _].
    - by rewrite Hnil in En1.
    - rewrite Ed in Hd. by injection Hd as <-. }
  destruct (GetAccount (DB a) (AccountID dv)) as [acc|e|] eqn:Eacc;
    [|destruct e; (apply Hno; [done|done|intros dv' (? & ? & ?)%(acceptable_account _ _ _ dv); [congruence|done]])
     |apply Hno; [done|done|intros dv' (? & ? & ?)%(acceptable_account _ _ _ dv); [congruence|done]]].
  destruct (eqb (Status acc) AccountStatusActive) eqn:Es; simpl; bool_prop;
    [|apply Hno; [done|done|intros dv' (? & ? & ?)%(acceptable_account _ _ _ dv); [congruence|done]]].
  destruct (GetDevice_present _ _ _ Ed) as [Hp Hid].
  fold (message_of a now req dv). set (msg := message_of a now req dv).
  unfold createMessageUnderCap, CreateMessageUnderCap. simpl.
  destruct (Z.leb_spec (MaxQueuedMessagesPerDevice cfg) (CountPendingMessages (DB a) (RqRecipientDeviceID req))).
  { apply Hno; [done|done|]. intros dv' []. lia. }
  unfold CreateMessage. simpl. rewrite Hp. simpl. destruct (existsb _ _) eqn:Ex.
  { apply Hno; [done|done|]. intros dv' []. apply existsb_ids in ac_new0. congruence. }
  pose proof (proj1 (existsb_ids _ _) Ex) as Hnew.
  assert (acceptable a req dv) as Hacc.
  { split; try done; [|eauto]. destruct En as [En|En]; [left; by apply zlen_nil_inv|by right]. }
  destruct (queueAndNotify_spec max (mkAPI (set_messages (DB a) (messages (DB a) ++ [message_to_row msg])) (broker a) (wakes a))
              wnow msg dv) as (a' & acts & -> & Hwf' & Hdb & Hn); [done|by rewrite Hid|].
  simpl. eexists. split; [done|]. split_and!; try done; [naive_solver|].
  intros _. exists dv. split; [done|]. split; [by rewrite Hdb|]. naive_solver.
Qed.

(** Every enqueued message is announced.  A message is queued exactly when its
    recipient is an active device of an active account, named consistently, with room in
    its queue and an unused message id; it is then the last row of the queue, and either a
    live stream of the device has taken it or no stream has room and the device is woken.
    Otherwise nothing changes at all. *)
Theorem enqueue_exact max a now wnow req :
  broker_wf max (broker a) →
  ∃ a' acts o, enqueueMessage cfg a now wnow req = Ok (a', acts, o)
    ∧ broker_wf max (broker a')
    ∧ (o = enqueueQueued ↔ ∃ dv, acceptable a req dv)
    ∧ (o ≠ enqueueQueued → a' = a ∧ acts = [])
    ∧ (o = enqueueQueued → ∃ dv, acceptable a req dv ∧ announced a a' acts now wnow req dv).
Proof. intros Hwf. destruct (enqueue_total max a now wnow req Hwf) as ([[a' acts] o] & H & Hp). by exists a', acts, o. Qed.

Lemma scan_all_elem {A B} (scan : A → res StoreError B) l bs b :
  scan_all scan l = Ok bs → b ∈ bs → ∃ x, x ∈ l ∧ scan x = Ok b.
Proof.
  revert bs. induction l as [|x l IH]; intros bs H Hb; simpl in H; [simplify_eq; by apply elem_of_nil in Hb|].
  res_inv H. simplify_eq. apply elem_of_cons in Hb as [->|Hb]; [exists x|]; [split; [left|done]|].
  destruct (IH _ H1 Hb) as (y & ? & ?). exists y. split; [by right|done].
Qed.

Lemma listed_row d dev l m : ListPendingMessages d dev = Ok l → m ∈ l →
  ∃ r, r ∈ messages d ∧ ms_id r = MessageID m ∧ ms_recipient_device r = dev.
Proof.
  intros H Hm. destruct (scan_all_elem _ _ _ _ H Hm) as (r & Hr & Hs).
  rewrite merge_sort_Permutation, list_elem_of_filter in Hr. destruct Hr as [Hdev Hr]. exists r.
  unfold scanMessage in Hs. res_inv Hs. by simplify_eq.
Qed.

(** A stream can miss a message.  The stream handler lists what is pending before
    it subscribes; a message queued between the two is in neither: not in the list it
    writes first, and not in the channel it then reads -- it stays in the queue, and all the
    device gets is a push wake. *)
Theorem stream_gap max a identity now wnow req pending a1 acts a2 c :
  broker_wf max (broker a) → RqRecipientDeviceID req = IdDeviceID identity →
  streams (broker a) (IdDeviceID identity) = [] →
  stream_list a identity = Ok pending →
  enqueueMessage cfg a now wnow req = Ok (a1, acts, enqueueQueued) →
  stream_subscribe cfg a1 identity = (a2, inr c) →
  (∀ m, m ∈ pending → MessageID m ≠ RqMessageID req)
  ∧ (∃ ch, chans (broker a2) !! c = Some ch ∧ buf ch = [])
  ∧ (∃ r, r ∈ messages (DB a2) ∧ ms_id r = RqMessageID req ∧ ms_recipient_device r = IdDeviceID identity)
  ∧ (wakes a2, acts) = wake (wakes a) wnow (IdDeviceID identity).
Proof.
  intros Hwf Hdev Hnone Hl He Hs.
  destruct (enqueue_total max a now wnow req Hwf) as (r & Hr & Hpost). rewrite He in Hr. injection Hr as <-.
  destruct Hpost as (_ & _ & _ & Hq). destruct (Hq eq_refl) as (dv & [_ Hd _ _ _ _ Hnew] & Hdb & Hann).
  destruct (GetDevice_present _ _ _ Hd) as [_ Hid]. rewrite Hdev in Hid.
  unfold stream_subscribe in Hs. destruct (subscribe _ _ _) as [b [c'|]] eqn:Esub; simplify_eq/=.
  split_and!.
  - intros m Hm. destruct (listed_row _ _ _ _ Hl Hm) as (r & Hr & <- & _). by apply Hnew.
  - unfold subscribe in Esub. case_match; simplify_eq/=. rewrite lookup_insert_eq. eauto.
  - rewrite Hdb. simpl. eexists. split; [apply elem_of_app; right; by apply list_elem_of_singleton|]. done.
  - destruct Hann as [[(x & ch & Hx & _) _]|[_ Hw]].
    + rewrite Hid, Hnone in Hx. by apply elem_of_nil in Hx.
    + by rewrite Hid in Hw.
Qed.
End correct.

(** ** internal/api/pushclient.go: where a wake may go *)

Module PushClient.

(** [net.IP]: 4 or 16 bytes.  [To4] also takes the last four of [::ffff:0:0/96]. *)
Definition v4InV6Prefix : bytes := replicate 10 0 ++ [255; 255].
Definition To4 (ip : bytes) : option bytes :=
  if (length ip =? 4)%nat then Some ip
  else if (length ip =? 16)%nat && has_prefix v4InV6Prefix ip then Some (drop 12 ip) else None.
Definition at_ (ip : bytes) (i : nat) : Z := default 0 (ip !! i).
Definition IPv6unspecified : bytes := replicate 16 0.
Definition IPv6loopback : bytes := replicate 15 0 ++ [1].
Definition IsUnspecified (ip : bytes) : bool := match To4 ip with Some ip4 => ip4 =?b [0; 0; 0; 0] | None => ip =?b IPv6unspecified end.
Definition IsLoopback (ip : bytes) : bool := match To4 ip with Some ip4 => at_ ip4 0 =? 127 | None => ip =?b IPv6loopback end.
Definition IsPrivate (ip : bytes) : bool :=
  match To4 ip with
  | Some ip4 => (at_ ip4 0 =? 10) || (at_ ip4 0 =? 172) && (Z.land (at_ ip4 1) 240 =? 16) || (at_ ip4 0 =? 192) && (at_ ip4 1 =? 168)
  | None => (length ip =? 16)%nat && (Z.land (at_ ip 0) 254 =? 252)
  end.
Definition IsMulticast (ip : bytes) : bool :=
  match To4 ip with Some ip4 => Z.land (at_ ip4 0) 240 =? 224 | None => (length ip =? 16)%nat && (at_ ip 0 =? 255) end.
Definition IsInterfaceLocalMulticast (ip : bytes) : bool := (length ip =? 16)%nat && (at_ ip 0 =? 255) && (Z.land (at_ ip 1) 15 =? 1).
Definition IsLinkLocalMulticast (ip : bytes) : bool :=
  match To4 ip with
  | Some ip4 => (at_ ip4 0 =? 224) && (at_ ip4 1 =? 0) && (at_ ip4 2 =? 0)
  | None => (length ip =? 16)%nat && (at_ ip 0 =? 255) && (Z.land (at_ ip 1) 15 =? 2)
  end.
Definition IsLinkLocalUnicast (ip : bytes) : bool :=
  match To4 ip with
  | Some ip4 => (at_ ip4 0 =? 169) && (at_ ip4 1 =? 254)
  | None => (length ip =? 16)%nat && (at_ ip 0 =? 254) && (Z.land (at_ ip 1) 192 =? 128)
  end.

Definition isBlockedPushIP (ip : bytes) : bool :=
  IsLoopback ip || IsLinkLocalUnicast ip || IsLinkLocalMulticast ip || IsInterfaceLocalMulticast ip || IsMulticast ip || IsPrivate ip || IsUnspecified ip.
(** The dialer's [Control], with [net.SplitHostPort] and [net.ParseIP] as arguments. *)
Definition Control (SplitHostPort ParseIP : bytes → option bytes) (address : bytes) : res string () :=
  host ← from_option (SplitHostPort address) "missing port in address"%string;
  match ParseIP host with
  | None => Err "push: refusing to connect to a non-public address"%string
  | Some ip => guard_err (negb (isBlockedPushIP ip)) "push: refusing to connect to a non-public address"%string
  end.

(** ** The blocked addresses as intervals *)

Definition number (ip : bytes) : Z := fold_left (λ n b, 256 * n + b) ip 0.
(** The numbers that share the first [len] of [width] bits with [base]. *)
Definition in_net (width base len n : Z) : bool := (base <=? n) && (n <? base + 2 ^ (width - len)).
(** 0.0.0.0, 10/8, 127/8, 169.254/16, 172.16/12, 192.168/16, 224/4 *)
Definition blocked4 (n : Z) : bool :=
  (n =? 0) || in_net 32 (10 * 2 ^ 24) 8 n || in_net 32 (127 * 2 ^ 24) 8 n || in_net 32 (169 * 2 ^ 24 + 254 * 2 ^ 16) 16 n ||
  in_net 32 (172 * 2 ^ 24 + 16 * 2 ^ 16) 12 n || in_net 32 (192 * 2 ^ 24 + 168 * 2 ^ 16) 16 n || in_net 32 (224 * 2 ^ 24) 4 n.
(** ::, ::1, fc00::/7, fe80::/10, ff00::/8, and what is blocked of ::ffff:0:0/96 *)
Definition mapped : Z := 65535 * 2 ^ 32.
Definition blocked16 (n : Z) : bool :=
  (n =? 0) || (n =? 1) || in_net 128 (252 * 2 ^ 120) 7 n || in_net 128 (254 * 2 ^ 120 + 128 * 2 ^ 112) 10 n || in_net 128 (255 * 2 ^ 120) 8 n ||
  in_net 128 mapped 96 n && blocked4 (n - mapped).

Lemma all_bytes (P : Z → bool) : forallb P (seqZ 0 256) = true → ∀ b, is_byte b → P b = true.
Proof. intros H b Hb. rewrite forallb_forall in H. apply H, list_elem_of_In, elem_of_seqZ. unfold is_byte in Hb. lia. Qed.
(** A mask on a byte is an interval. *)
Lemma mask_interval m v lo hi : forallb (λ b, Bool.eqb (Z.land b m =? v) ((lo <=? b) && (b <? hi))) (seqZ 0 256) = true →
  ∀ b, is_byte b → (Z.land b m =? v) = (lo <=? b) && (b <? hi).
Proof. intros H b Hb. apply Bool.eqb_prop. by apply (all_bytes _ H). Qed.
Lemma mask_240_16 b : is_byte b → (Z.land b 240 =? 16) = (16 <=? b) && (b <? 32).
Proof. apply mask_interval. vm_compute. done. Qed.
Lemma mask_240_224 b : is_byte b → (Z.land b 240 =? 224) = (224 <=? b) && (b <? 240).
Proof. apply mask_interval. vm_compute. done. Qed.
Lemma mask_254_252 b : is_byte b → (Z.land b 254 =? 252) = (252 <=? b) && (b <? 254).
Proof. apply mask_interval. vm_compute. done. Qed.
Lemma mask_192_128 b : is_byte b → (Z.land b 192 =? 128) = (128 <=? b) && (b <? 192).
Proof. apply mask_interval. vm_compute. done. Qed.

Ltac unfold_blocked :=
  unfold isBlockedPushIP, IsLoopback, IsLinkLocalUnicast, IsLinkLocalMulticast, IsInterfaceLocalMulticast, IsMulticast, IsPrivate, IsUnspecified.
Lemma number_app l k : number (l ++ k) = number l * 256 ^ Z.of_nat (length k) + number k.
Proof.
  unfold number. rewrite fold_left_app. generalize (fold_left (λ n b, 256 * n + b) l 0). induction k as [|b k IH] using rev_ind; intros n; [cbn; lia|].
  rewrite !fold_left_app. cbn [fold_left]. rewrite IH, length_app. cbn [length]. rewrite Nat.add_1_r, Nat2Z.inj_succ, Z.pow_succ_r by lia. lia.
Qed.
Lemma number_snoc l b : number (l ++ [b]) = 256 * number l + b.
Proof. rewrite number_app. change (256 ^ Z.of_nat (length [b])) with 256. change (number [b]) with b. lia. Qed.
Lemma number_bounds l : is_bytes l → 0 ≤ number l < 256 ^ Z.of_nat (length l).
Proof.
  induction l as [|b l IH] using rev_ind; intros H; [cbn; lia|]. apply Forall_app in H as [Hl [Hb _]%Forall_cons]. specialize (IH Hl). rewrite number_snoc, length_app.
  cbn [length]. rewrite Nat.add_1_r, Nat2Z.inj_succ, Z.pow_succ_r by lia. unfold is_byte in Hb. lia.
Qed.
Lemma number_inj l k : is_bytes l → is_bytes k → length l = length k → number l = number k → l = k.
Proof.
  revert k. induction l as [|b l IH] using rev_ind; intros k Hl Hk Hlen Hn; [by destruct k|].
  destruct k as [|c k _] using rev_ind; [rewrite length_app in Hlen; cbn in Hlen; lia|]. rewrite !length_app in Hlen. cbn in Hlen.
  apply Forall_app in Hl as [Hl [Hb _]%Forall_cons]. apply Forall_app in Hk as [Hk [Hc _]%Forall_cons]. rewrite !number_snoc in Hn. unfold is_byte in *.
  assert (number l = number k ∧ b = c) as [Hlk ->] by lia. by rewrite (IH k) by (try done; lia).
Qed.
Lemma number_eqb l k : is_bytes l → is_bytes k → length l = length k → (l =?b k) = (number l =? number k).
Proof. intros Hl Hk Hlen. apply eq_true_iff_eq. rewrite eqb_true, Z.eqb_eq. split; [by intros ->|by apply number_inj]. Qed.

(** A network of at most one or two bytes is a condition on the first bytes. *)
Lemma in_net_first w lo len a r : 0 ≤ r < 2 ^ w → 0 ≤ len ≤ 8 → in_net (w + 8) (lo * 2 ^ w) len (a * 2 ^ w + r) = (lo <=? a) && (a <? lo + 2 ^ (8 - len)).
Proof.
  intros Hr Hl. unfold in_net. replace (w + 8 - len) with (w + (8 - len)) by lia. assert (0 ≤ w) by (destruct (Z.le_gt_cases 0 w); [done|rewrite Z.pow_neg_r in Hr by lia; lia]).
  rewrite Z.pow_add_r by lia. set (k := 2 ^ (8 - len)). f_equal; apply eq_true_iff_eq; rewrite ?Z.leb_le, ?Z.ltb_lt; nia.
Qed.
Lemma in_net_second w lo lo2 len a b r : 0 ≤ r < 2 ^ w → 0 ≤ len ≤ 8 → 0 ≤ lo2 → lo2 + 2 ^ (8 - len) ≤ 256 → is_byte b →
  in_net (w + 16) (lo * 2 ^ (w + 8) + lo2 * 2 ^ w) (8 + len) (a * 2 ^ (w + 8) + b * 2 ^ w + r) = (a =? lo) && ((lo2 <=? b) && (b <? lo2 + 2 ^ (8 - len))).
Proof.
  intros Hr Hl H2 H3 Hb. assert (0 ≤ w) by (destruct (Z.le_gt_cases 0 w); [done|rewrite Z.pow_neg_r in Hr by lia; lia]). unfold in_net.
  replace (w + 16 - (8 + len)) with (w + (8 - len)) by lia. rewrite !Z.pow_add_r by lia. change (2 ^ 8) with 256. unfold is_byte in Hb.
  set (k := 2 ^ (8 - len)) in *. set (p := 2 ^ w) in *. apply eq_true_iff_eq. rewrite !andb_true_iff, !Z.leb_le, !Z.ltb_lt, Z.eqb_eq. split.
  - intros [Hx Hy]. assert ((lo * 256 + lo2) * p < (a * 256 + b + 1) * p) as Hp by lia. assert ((a * 256 + b) * p < (lo * 256 + lo2 + k) * p) as Hq by lia.
    apply Z.mul_lt_mono_pos_r in Hp; [|lia]. apply Z.mul_lt_mono_pos_r in Hq; lia.
  - intros [-> [Hx Hy]]. split; nia.
Qed.

Ltac bytes_of := unfold is_bytes; rewrite !Forall_cons; split_and!; first [done|apply Forall_nil_2|unfold is_byte; lia].
Lemma blocked4_nets a b c d : is_bytes [a; b; c; d] → blocked4 (number [a; b; c; d]) =
  ([a; b; c; d] =?b [0; 0; 0; 0]) || (a =? 10) || (a =? 127) || (a =? 169) && (b =? 254) || (a =? 172) && ((16 <=? b) && (b <? 32)) || (a =? 192) && (b =? 168) || (224 <=? a) && (a <? 240).
Proof.
  intros H. rewrite number_eqb by (first [done|bytes_of]). unfold is_bytes in H. rewrite !Forall_cons in H. destruct H as (Ha & Hb & Hc & Hd & _).
  assert (0 ≤ number [b; c; d] < 2 ^ 24) as Hr by (apply (number_bounds [b; c; d]); bytes_of).
  assert (0 ≤ number [c; d] < 2 ^ 16) as Hr' by (apply (number_bounds [c; d]); bytes_of).
  assert (number [a; b; c; d] = a * 2 ^ 24 + number [b; c; d]) as H1 by (unfold number; cbn [fold_left]; lia).
  assert (number [a; b; c; d] = a * 2 ^ 24 + b * 2 ^ 16 + number [c; d]) as H2 by (unfold number; cbn [fold_left]; lia).
  unfold blocked4. f_equal; [f_equal; [f_equal; [f_equal; [f_equal; [f_equal|]|]|]|]|].
  - rewrite H1. etransitivity; [apply (in_net_first 24); lia|]. change (2 ^ (8 - 8)) with 1. lia.
  - rewrite H1. etransitivity; [apply (in_net_first 24); lia|]. change (2 ^ (8 - 8)) with 1. lia.
  - rewrite H2. etransitivity; [apply (in_net_second 16 169 254 8); first [done|lia]|]. change (2 ^ (8 - 8)) with 1. lia.
  - rewrite H2. apply (in_net_second 16 172 16 4); first [done|lia].
  - rewrite H2. etransitivity; [apply (in_net_second 16 192 168 8); first [done|lia]|]. change (2 ^ (8 - 8)) with 1. lia.
  - rewrite H1. apply (in_net_first 24 224 4); lia.
Qed.
Lemma blocked4_spec ip : is_bytes ip → length ip = 4%nat → isBlockedPushIP ip = blocked4 (number ip).
Proof.
  intros H Hl. destruct ip as [|a [|b [|c [|d [|]]]]]; try done. rewrite blocked4_nets by done. unfold is_bytes in H. rewrite !Forall_cons in H. destruct H as (Ha & Hb & Hc & Hd & _).
  unfold_blocked. cbn -[Z.land Z.eqb eqb]. rewrite mask_240_16, mask_240_224 by done. destruct ([a; b; c; d] =?b [0; 0; 0; 0]); [by rewrite !orb_true_r|]. lia.
Qed.

Lemma has_prefix_take p s : has_prefix p s = (take (length p) s =?b p).
Proof.
  revert s. induction p as [|a p IH]; intros s; [symmetry; by apply eqb_true|]. destruct s as [|b s]; [done|]. cbn [has_prefix length take]. rewrite IH.
  apply eq_true_iff_eq. rewrite andb_true_iff, Z.eqb_eq, !eqb_true. split; [intros [-> ->]; done|by intros [= -> ->]].
Qed.
Lemma mapped_prefix ip : is_bytes ip → length ip = 16%nat → has_prefix v4InV6Prefix ip = in_net 128 mapped 96 (number ip) ∧
  (in_net 128 mapped 96 (number ip) = true → number ip - mapped = number (drop 12 ip)).
Proof.
  intros H Hl. pose proof (number_app (take 12 ip) (drop 12 ip)) as Hn. rewrite take_drop, length_drop, Hl in Hn. change (256 ^ Z.of_nat (16 - 12)) with (2 ^ 32) in Hn.
  assert (is_bytes (take 12 ip)) as H1 by by apply Forall_take. pose proof (number_bounds (drop 12 ip) (Forall_drop _ _ _ H)) as Hb. rewrite length_drop, Hl in Hb.
  change (256 ^ Z.of_nat (16 - 12)) with (2 ^ 32) in Hb. unfold in_net, mapped. change (2 ^ (128 - 96)) with (2 ^ 32).
  rewrite has_prefix_take. change (length v4InV6Prefix) with 12%nat.
  rewrite number_eqb; [|done|unfold v4InV6Prefix; cbn [replicate app]; bytes_of|rewrite length_take, Hl; done]. change (number v4InV6Prefix) with 65535.
  split; lia.
Qed.
Lemma blocked_mapped ip : length ip = 16%nat → has_prefix v4InV6Prefix ip = true → isBlockedPushIP ip = isBlockedPushIP (drop 12 ip).
Proof.
  intros Hl Hp. assert (To4 ip = Some (drop 12 ip)) as H1 by (unfold To4; by rewrite Hl, Hp). assert (length (drop 12 ip) = 4%nat) as Hd by (rewrite length_drop; lia).
  assert (To4 (drop 12 ip) = Some (drop 12 ip)) as H2 by (unfold To4; by rewrite Hd). unfold_blocked. rewrite H1, H2, Hd. cbn [Nat.eqb andb].
  assert (at_ ip 0 = 0) as ->; [|by rewrite andb_false_r]. rewrite has_prefix_take, eqb_true in Hp. rewrite <- (take_drop 12 ip). change (length v4InV6Prefix) with 12%nat in Hp. by rewrite Hp.
Qed.
Lemma blocked_v6 a b ip : is_bytes (a :: b :: ip) → length ip = 14%nat → has_prefix v4InV6Prefix (a :: b :: ip) = false →
  isBlockedPushIP (a :: b :: ip) = (number (a :: b :: ip) =? 0) || (number (a :: b :: ip) =? 1) || (252 <=? a) && (a <? 254) || (a =? 254) && ((128 <=? b) && (b <? 192)) || (a =? 255).
Proof.
  intros H Hl Hp. assert (length (a :: b :: ip) = 16%nat) as Hl' by (cbn; lia). assert (To4 (a :: b :: ip) = None) as H1 by (unfold To4; by rewrite Hl', Hp).
  unfold_blocked. rewrite H1, Hl'. cbn [Nat.eqb andb]. change (at_ (a :: b :: ip) 0) with a. change (at_ (a :: b :: ip) 1) with b.
  assert (is_bytes IPv6unspecified ∧ is_bytes IPv6loopback) as [? ?] by (split; cbn [IPv6unspecified IPv6loopback replicate app]; bytes_of).
  rewrite !number_eqb by done. change (number IPv6unspecified) with 0. change (number IPv6loopback) with 1.
  apply Forall_cons in H as [Ha [Hb _]%Forall_cons]. rewrite mask_254_252, mask_192_128 by done. lia.
Qed.
Lemma blocked16_spec ip : is_bytes ip → length ip = 16%nat → isBlockedPushIP ip = blocked16 (number ip).
Proof.
  intros H Hl. destruct (mapped_prefix ip H Hl) as [Hp Hm]. unfold blocked16. destruct (in_net 128 mapped 96 (number ip)) eqn:E.
  - cbn [andb]. rewrite Hm, <- blocked4_spec, blocked_mapped by first [done|by apply Forall_drop|by rewrite length_drop, Hl].
    assert (65535 * 2 ^ 32 ≤ number ip < 65536 * 2 ^ 32) as Hn by (unfold in_net, mapped in E; change (2 ^ (128 - 96)) with (2 ^ 32) in E; lia).
    unfold in_net. rewrite !(proj2 (Z.leb_gt _ _)) by (cbn; lia). rewrite !(proj2 (Z.eqb_neq _ _)) by lia. done.
  - rewrite andb_false_l, orb_false_r. destruct ip as [|a [|b ip]]; [done..|]. rewrite blocked_v6 by (cbn in Hl; first [done|lia]).
    pose proof (proj1 (Forall_cons _ _ _) H) as [_ H1]. pose proof (proj1 (Forall_cons _ _ _) H1) as [Hb H2]. 
    pose proof (number_bounds (b :: ip) H1) as Hr1. pose proof (number_bounds ip H2) as Hr2. cbn [length] in *. assert (length ip = 14%nat) as Hl' by lia. rewrite Hl' in Hr1, Hr2.
    assert (number (a :: b :: ip) = a * 2 ^ 120 + number (b :: ip)) as N1. { etransitivity; [apply (number_app [a])|]. cbn [length]. by rewrite Hl'. }
    assert (number (a :: b :: ip) = a * 2 ^ 120 + b * 2 ^ 112 + number ip) as N2. { rewrite N1, <- Z.add_assoc. f_equal. etransitivity; [apply (number_app [b])|]. by rewrite Hl'. }
    f_equal; [f_equal; [f_equal|]|].
    + rewrite N1. symmetry. apply (in_net_first 120 252 7); [exact Hr1|lia].
    + rewrite N2. symmetry. apply (in_net_second 112 254 128 2); first [exact Hr2|done|lia].
    + rewrite N1. symmetry. etransitivity; [apply (in_net_first 120 255 8); [exact Hr1|lia]|]. change (2 ^ (8 - 8)) with 1. lia.
Qed.

(** Which addresses a wake never reaches.  An address of either family is refused if and only if it lies in one of the networks
    listed, and writing an address of the old family in the new one changes nothing. *)
Theorem blocked_networks ip : is_bytes ip → (length ip = 4%nat → isBlockedPushIP ip = blocked4 (number ip) ∧ isBlockedPushIP (v4InV6Prefix ++ ip) = isBlockedPushIP ip)
  ∧ (length ip = 16%nat → isBlockedPushIP ip = blocked16 (number ip)).
Proof.
  intros H. split; intros Hl; [|by apply blocked16_spec]. split; [by apply blocked4_spec|]. rewrite blocked_mapped; [done|by rewrite length_app, Hl|].
  rewrite has_prefix_take. apply eqb_true. by rewrite take_app_length.
Qed.

Lemma blocked_networks_witness : isBlockedPushIP (v4InV6Prefix ++ [169; 254; 169; 254]) = true ∧ isBlockedPushIP [100; 64; 0; 1] = false ∧ blocked4 (number [172; 31; 255; 255]) = true.
Proof.
  assert (is_bytes [169; 254; 169; 254]) as H1 by bytes_of. assert (is_bytes [172; 31; 255; 255]) as H2 by bytes_of. split_and!; [|done|].
  - by rewrite (proj2 (proj1 (blocked_networks _ H1) eq_refl)).
  - by rewrite <- (proj1 (proj1 (blocked_networks _ H2) eq_refl)).
Defined.

(** ** The request to the gateway (push.go) *)

Section gateway.
Context {ED : Ed25519} (RelayPubKey RelayPrivKey : bytes) (Marshal : PushTarget → bytes).

Definition gateway_path : bytes := lit "/v1/push/send".
(** [randomNonce], of the 16 bytes read from the random source *)
Definition randomNonce (raw : bytes) : bytes := hex_encode raw.
(** What reaches the gateway, whose base URL ends in its host; [json.Marshal] of two strings does not fail. *)
Definition gatewayRequest (target : PushTarget) (ts : Time) (raw : bytes) : res string Request :=
  let body := Marshal target in
  let keyID := b64_encode RelayPubKey in
  let nonce := randomNonce raw in
  sig ← HttpSig.Sign (lit "POST") gateway_path [] body keyID ts nonce RelayPrivKey;
  Ok (mkRequest (lit "POST") gateway_path [] (<[HeaderSignature := [sig]]> (<[HeaderNonce := [nonce]]> (<[HeaderTimestamp := [FormatTimestamp ts]]>
    (<[HeaderKeyID := [keyID]]> {[lit "Content-Type" := [lit "application/json"]]})))) (Some body)).

Lemma b64_encode_nonempty s : is_bytes s → s ≠ [] → (b64_encode s =?b []) = false.
Proof. intros Hs Hne. rewrite <- not_true_iff_false, eqb_true. intros E. pose proof (b64_decode_encode s Hs) as H. rewrite E in H. by injection H as <-. Qed.
(** The gateway can check the request by itself: the key is in it, and the signature over what it reads verifies under that key. *)
Theorem gateway_request_verifies target ts raw : key_pair RelayPrivKey RelayPubKey → is_bytes RelayPubKey → raw ≠ [] → - 2 ^ 62 ≤ t_sec ts < 2 ^ 62 →
  ∃ r h, gatewayRequest target ts raw = Ok r ∧ ParseRequestHeaders r = Ok h ∧ b64_decode (KeyID h) = Some RelayPubKey ∧
    HttpSig.Verify (CanonicalStringFromRequest r h (Marshal target)) (Signature h) RelayPubKey = Ok ().
Proof.
  intros Hk Hb Hr Ht. unfold gatewayRequest, HttpSig.Sign. rewrite (Sign_Ok _ RelayPubKey) by done. cbn [mbind res_bind]. do 2 eexists. split; [done|].
  unfold ParseRequestHeaders, Header_Get. cbn [ReqHeader]. simplify_map_eq. cbn [KeyID Timestamp Nonce Signature].
  rewrite b64_encode_nonempty; [|done|intros ->; by apply key_pair_length in Hk as [_ ?]].
  assert ((FormatTimestamp ts =?b []) = false) as ->. { rewrite <- not_true_iff_false, eqb_true. intros E. pose proof (ParseTimestamp_format ts Ht) as H. rewrite E in H. done. }
  assert ((randomNonce raw =?b []) = false) as -> by (by destruct raw).
  rewrite b64_encode_nonempty; [|apply ed_sign_bytes|intros E; by pose proof (ed_sign_length RelayPrivKey (CanonicalString (lit "POST") gateway_path [] (FormatTimestamp ts) (randomNonce raw) (b64_encode RelayPubKey) (Marshal target))) as H; rewrite E in H].
  split; [done|]. cbn [KeyID Signature]. split; [by apply b64_decode_encode|]. by apply Sign_verifies.
Qed.
End gateway.

End PushClient.
