(* ===== verification/Federation.v ===== *)
(** * Federation: senders of other servers

    The settings row and the blocklist of internal/store (settings.go, federation.go), the
    check of a foreign sender (internal/api/federation_sender.go), the federated message
    handlers (federation.go) and the admin's blocklist (federation_admin.go).  Neither table
    refers to the others, so they are a record of their own beside [db].

    Key generation (webpush-go, crypto/ed25519) is an argument. *)

From S2P Require Import Prelude GoStr GoTime GoTimeParse Sha256 Humancode Crypto Base64 Bech32m Address DeviceCert HttpSig WakeCoalesce Broker Store StoreIntegrity StoreQueue Auth AuthCorrect Delivery.

(** ** server_settings and federation_blocklist *)

Record settings_row := mkSettings {
  registration_policy : bytes; federation_enabled : option Z;
  vapid_keys : option (bytes * bytes); relay_identity : option (bytes * bytes);
}.
Record block_row := mkBlock { blocked_at : bytes; blocked_by : bytes; block_reason : option bytes }.
Record fed := mkFed { server_settings : option settings_row; federation_blocklist : gmap bytes block_row }.

Definition set_settings (f : fed) (r : settings_row) : fed := mkFed (Some r) (federation_blocklist f).

Definition InitRegistrationPolicy (f : fed) (defaultPolicy : bytes) : fed :=
  match server_settings f with
  | Some _ => f
  | None => set_settings f (mkSettings defaultPolicy None None None)
  end.
Definition GetRegistrationPolicy (f : fed) : res StoreError bytes :=
  match server_settings f with
  | Some r => Ok (registration_policy r)
  | None => Err (ErrStore "store: reading registration policy")
  end.
Definition SetRegistrationPolicy (f : fed) (policy : bytes) : fed :=
  match server_settings f with
  | Some r => set_settings f (mkSettings policy (federation_enabled r) (vapid_keys r) (relay_identity r))
  | None => f
  end.

Definition boolToInt (b : bool) : Z := if b then 1 else 0.
Definition with_federation (r : settings_row) (b : bool) : settings_row :=
  mkSettings (registration_policy r) (Some (boolToInt b)) (vapid_keys r) (relay_identity r).
Definition InitFederationEnabled (f : fed) (defaultEnabled : bool) : fed * res StoreError () :=
  match server_settings f with
  | None => (f, Err (ErrStore "store: checking for existing federation setting"))
  | Some r =>
    if present (federation_enabled r) then (f, Ok ()) else (set_settings f (with_federation r defaultEnabled), Ok ())
  end.
(** An unseeded value reads as enabled. *)
Definition GetFederationEnabled (f : fed) : res StoreError bool :=
  match server_settings f with
  | None => Err (ErrStore "store: reading federation setting")
  | Some r => Ok (match federation_enabled r with None => true | Some v => negb (v =? 0) end)
  end.
Definition SetFederationEnabled (f : fed) (enabled : bool) : fed :=
  match server_settings f with Some r => set_settings f (with_federation r enabled) | None => f end.

(** [generate]: the key pair (public, private), [None] on failure. *)
Definition InitVAPIDKeys (f : fed) (generate : option (bytes * bytes)) : fed * res StoreError () :=
  match server_settings f with
  | None => (f, Err (ErrStore "store: checking for existing vapid keys"))
  | Some r =>
    if present (vapid_keys r) then (f, Ok ())
    else match generate with
         | None => (f, Err (ErrStore "store: generating vapid keys"))
         | Some k => (set_settings f (mkSettings (registration_policy r) (federation_enabled r) (Some k) (relay_identity r)), Ok ())
         end
  end.
Definition GetVAPIDKeys (f : fed) : res StoreError (bytes * bytes) :=
  match server_settings f with
  | Some r => from_option (vapid_keys r) (ErrStore "store: reading vapid keys")
  | None => Err (ErrStore "store: reading vapid keys")
  end.
Definition InitRelayIdentity (f : fed) (generate : option (bytes * bytes)) : fed * res StoreError () :=
  match server_settings f with
  | None => (f, Err (ErrStore "store: checking for existing relay identity"))
  | Some r =>
    if present (relay_identity r) then (f, Ok ())
    else match generate with
         | None => (f, Err (ErrStore "store: generating relay identity"))
         | Some (pub, priv) =>
           (set_settings f (mkSettings (registration_policy r) (federation_enabled r) (vapid_keys r)
                              (Some (b64_encode pub, b64_encode priv))), Ok ())
         end
  end.
Definition GetRelayIdentity (f : fed) : res StoreError (bytes * bytes) :=
  match server_settings f with
  | Some r =>
    k ← from_option (relay_identity r) (ErrStore "store: reading relay identity");
    pub ← from_option (b64_decode k.1) (ErrStore "store: decoding relay public key");
    priv ← from_option (b64_decode k.2) (ErrStore "store: decoding relay private key");
    Ok (pub, priv)
  | None => Err (ErrStore "store: reading relay identity")
  end.

Definition IsFederationBlocked (f : fed) (accountID : bytes) : bool := present (federation_blocklist f !! accountID).
Definition BlockFederationSender (f : fed) (accountID blockedBy : bytes) (reason : option bytes) (at_ : Time) : fed :=
  mkFed (server_settings f) (<[accountID := mkBlock (formatTime at_) blockedBy reason]> (federation_blocklist f)).
Definition UnblockFederationSender (f : fed) (accountID : bytes) : fed * res StoreError () :=
  if present (federation_blocklist f !! accountID)
  then (mkFed (server_settings f) (delete accountID (federation_blocklist f)), Ok ())
  else (f, Err ErrNotFound).
(** [ORDER BY blocked_at DESC]. *)
Record FederationBlockEntry := mkBlockEntry { FbAccountID : bytes; FbBlockedAt : Time; FbBlockedBy : bytes; FbReason : option bytes }.
Definition blocked_ge (x y : bytes * block_row) : Prop := bytes_le (blocked_at y.2) (blocked_at x.2).
#[export] Instance blocked_ge_dec x y : Decision (blocked_ge x y).
Proof. unfold blocked_ge. apply _. Defined.
Definition ListFederationBlocklist (f : fed) : res StoreError (list FederationBlockEntry) :=
  scan_all (λ x : bytes * block_row,
    t ← from_option (parseTime (blocked_at x.2)) (ErrStore "store: parsing federation blocklist blocked_at");
    Ok (mkBlockEntry x.1 t (blocked_by x.2) (block_reason x.2)))
    (merge_sort blocked_ge (map_to_list (federation_blocklist f))).

(** ** federation_sender.go *)

Record federationDeviceCertDTO := mkCertDTO { FcDeviceID : bytes; FcDevicePubKey : bytes; FcIssuedAt : bytes; FcSignature : bytes }.
Record federatedSenderClaim := mkClaim {
  ClAccountID : bytes; ClRootPubKey : bytes; ClDeviceCert : federationDeviceCertDTO; ClRequestBody : bytes; ClBodyDigest : bytes;
}.
Record federatedSender := mkSender { FsAccountID : bytes; FsDeviceID : bytes; FsDevicePubKey : bytes }.

(** dto.go *)
Definition decodeBase64Key (s : bytes) (expectedLen : Z) : option bytes :=
  raw ← b64_decode s; if zlen raw =? expectedLen then Some raw else None.

Section sender.
Context {UC : UnicodeCase} {ED : Ed25519}.

Definition bad (code : string) : reply := mkReply 400 (lit code).
Definition unauthorized : reply := mkReply 401 (lit "unauthorized").
Definition internal : reply := mkReply 500 (lit "internal").
(** Any failure of the call is the reply [r]. *)
Definition or_reply {E A} (x : res E A) (r : reply) : res reply A :=
  match x with Ok a => Ok a | Err _ => Err r | Panic => Panic end.
Definition check (b : bool) (r : reply) : res reply () := guard_err b r.

Definition certificate_of (claim : federatedSenderClaim) (devicePub sig : bytes) (issuedAt : Time) : DeviceCertificate.t :=
  DeviceCertificate.mk (ClAccountID claim) (FcDeviceID (ClDeviceCert claim)) devicePub issuedAt sig.

Definition claim_canonical (r : Request) (headers : RequestSignatureHeaders) (claim : federatedSenderClaim) : bytes :=
  if negb (zlen (ClBodyDigest claim) =? 0) then
    CanonicalStringWithBodyDigest (Method r) (URL_Path r) (URL_RawQuery r) (Timestamp headers) (Nonce headers)
      (KeyID headers) (ClBodyDigest claim)
  else CanonicalStringFromRequest r headers (ClRequestBody claim).

(** Everything up to the blocklist: the canonical account id, the device key and the
    request's headers and timestamp. *)
Definition verify_chain (now : Time) (r : Request) (claim : federatedSenderClaim)
    : res reply (bytes * bytes * RequestSignatureHeaders * Time) :=
  senderRootPub ← from_option (decodeBase64Key (ClRootPubKey claim) ed25519_PublicKeySize) (bad "invalid_request");
  valid ← or_reply (Address.Verify (ClAccountID claim) senderRootPub) (bad "invalid_request");
  _ ← check valid (bad "invalid_request");
  canonicalAccountID ← or_reply (Address.Normalize (ClAccountID claim)) (bad "invalid_request");
  senderDevicePub ← from_option (decodeBase64Key (FcDevicePubKey (ClDeviceCert claim)) ed25519_PublicKeySize) (bad "invalid_request");
  certIssuedAt ← from_option (time_parse (FcIssuedAt (ClDeviceCert claim))) (bad "invalid_request");
  certSig ← from_option (decodeBase64Key (FcSignature (ClDeviceCert claim)) ed25519_SignatureSize) (bad "invalid_request");
  headers ← or_reply (ParseRequestHeaders r) unauthorized;
  _ ← check (KeyID headers =?b b64_encode senderDevicePub) unauthorized;
  ts ← or_reply (ParseTimestamp (Timestamp headers)) unauthorized;
  _ ← check (WithinSkew ts now MaxClockSkew) unauthorized;
  _ ← or_reply (DeviceCertificate.Verify (certificate_of claim senderDevicePub certSig certIssuedAt) senderRootPub)
        (bad "invalid_certificate");
  _ ← or_reply (HttpSig.Verify (claim_canonical r headers claim) (Signature headers) senderDevicePub) unauthorized;
  Ok (canonicalAccountID, senderDevicePub, headers, ts).

Definition verifyFederatedSender (d : db) (f : fed) (now : Time) (r : Request) (claim : federatedSenderClaim)
    : db * res reply federatedSender :=
  match verify_chain now r claim with
  | Ok (canonicalAccountID, senderDevicePub, headers, ts) =>
    if IsFederationBlocked f canonicalAccountID then (d, Err (mkReply 403 (lit "forbidden")))
    else
      let '(d, nonceOK) := RecordNonce d (KeyID headers) (Nonce headers) ts (time_add ts MaxClockSkew) in
      if nonceOK then (d, Ok (mkSender canonicalAccountID (FcDeviceID (ClDeviceCert claim)) senderDevicePub))
      else (d, Err unauthorized)
  | Err e => (d, Err e)
  | Panic => (d, Panic)
  end.

(** ** federation.go (internal/api) *)

Record federationMessageRequest := mkFedMessage {
  FmSenderAccountID : bytes; FmSenderRootPubKey : bytes; FmSenderDeviceCert : federationDeviceCertDTO;
  FmItem : sendMessageRequest;
}.
Definition empty (s : bytes) : bool := zlen s =? 0.

(** A request body: its bytes and, when they decode, the request.  A handler is given what
    [readBody] makes of the stream. *)
Record rawBody A := mkRaw { raw_bytes : bytes; raw_decoded : option A }.
#[global] Arguments mkRaw {A} _ _.
#[global] Arguments raw_bytes {A} _.
#[global] Arguments raw_decoded {A} _.

Definition federation_on (f : fed) : res reply () :=
  enabled ← or_reply (GetFederationEnabled f) internal;
  check enabled (mkReply 404 (lit "federation_disabled")).

Context {CA : Calendar} (cfg : Config).

Definition handleReceiveFederatedMessage (a : API) (f : fed) (now enq wnow : Time) (r : Request)
    (b : reply + rawBody federationMessageRequest) : res () (API * list action * reply) :=
  match federation_on f with
  | Err e => Ok (a, [], e)
  | Panic => Panic
  | Ok _ =>
    match b with
    | inl e => Ok (a, [], e)
    | inr b =>
      match raw_decoded b with
      | None => Ok (a, [], bad "invalid_request")
      | Some req =>
        let it := FmItem req in
        if empty (FmSenderAccountID req) || empty (FmSenderRootPubKey req) || empty (FcDeviceID (FmSenderDeviceCert req))
           || empty (SRecipientDeviceID it) || empty (SMessageID it) || empty (SPayload it)
        then Ok (a, [], bad "invalid_request")
        else
          match verifyFederatedSender (DB a) f now r
                  (mkClaim (FmSenderAccountID req) (FmSenderRootPubKey req) (FmSenderDeviceCert req) (raw_bytes b) []) with
          | (d, Ok sender) =>
            o ← enqueueMessage cfg (mkAPI d (broker a) (wakes a)) enq wnow
                  (mkEnqueue (SMessageID it) (FsAccountID sender) (FsDeviceID sender) (SRecipientAccountID it)
                     (SRecipientDeviceID it) (SPayload it));
            Ok (o.1.1, o.1.2, if o.2 =?b enqueueQueued then mkReply 202 [] else asError o.2)
          | (d, Err e) => Ok (mkAPI d (broker a) (wakes a), [], e)
          | (_, Panic) => Panic
          end
      end
    end
  end.

(** The batch: (sender, items with their clock readings). *)
Definition handleReceiveFederatedMessageBatch (a : API) (f : fed) (now : Time) (r : Request)
    (b : reply + rawBody (federationMessageRequest * list (sendMessageRequest * (Time * Time))))
    : res () (API * list action * (reply + list (bytes * bytes))) :=
  match federation_on f with
  | Err e => Ok (a, [], inl e)
  | Panic => Panic
  | Ok _ =>
    match b with
    | inl e => Ok (a, [], inl e)
    | inr b =>
      match raw_decoded b with
      | None => Ok (a, [], inl (bad "invalid_request"))
      | Some (req, items) =>
        if empty (FmSenderAccountID req) || empty (FmSenderRootPubKey req) || empty (FcDeviceID (FmSenderDeviceCert req))
        then Ok (a, [], inl (bad "invalid_request"))
        else match checkBatchSize cfg (zlen items) with
        | Some e => Ok (a, [], inl e)
        | None =>
          match verifyFederatedSender (DB a) f now r
                  (mkClaim (FmSenderAccountID req) (FmSenderRootPubKey req) (FmSenderDeviceCert req) (raw_bytes b) []) with
          | (d, Ok sender) =>
            o ← enqueue_batch cfg (mkAPI d (broker a) (wakes a)) (mkIdentity (FsAccountID sender) (FsDeviceID sender) []) items;
            Ok (o.1, inr o.2)
          | (d, Err e) => Ok (mkAPI d (broker a) (wakes a), [], inl e)
          | (_, Panic) => Panic
          end
        end
      end
    end
  end.

(** ** federation_admin.go *)

Definition handleBlockFederationSender (f : fed) (now : Time) (identity : Identity) (accountID : bytes)
    (reason : option bytes) : fed * reply :=
  if negb (IdRole identity =?b RoleAdmin) then (f, mkReply 403 (lit "forbidden"))
  else if empty accountID then (f, bad "invalid_request")
  else match Address.Normalize accountID with
       | Ok canonical => (BlockFederationSender f canonical (IdAccountID identity) reason now, mkReply 200 [])
       | _ => (f, bad "invalid_request")
       end.
Definition handleListFederationBlocklist (f : fed) (identity : Identity) : reply + list FederationBlockEntry :=
  if negb ((IdRole identity =?b RoleAdmin) || (IdRole identity =?b RoleModerator)) then inl (mkReply 403 (lit "forbidden"))
  else match ListFederationBlocklist f with Ok l => inr l | _ => inl internal end.
Definition handleUnblockFederationSender (f : fed) (identity : Identity) (accountID : bytes) : fed * reply :=
  if negb (IdRole identity =?b RoleAdmin) then (f, mkReply 403 (lit "forbidden"))
  else match Address.Normalize accountID with
       | Ok canonical =>
         match UnblockFederationSender f canonical with
         | (f, Ok _) => (f, mkReply 200 [])
         | (f, Err ErrNotFound) => (f, mkReply 404 (lit "not_found"))
         | (f, _) => (f, internal)
         end
       | _ => (f, mkReply 404 (lit "not_found"))
       end.
End sender.
