(* ===== verification/FederationCorrect.v ===== *)
(** * What an accepted foreign sender proves

    The identity chain of [verifyFederatedSender] is sound, an accepted request is never
    accepted again (its nonce is in the database, so a restart does not help either), and
    a block cannot be evaded by spelling the account id differently. *)

From S2P Require Import Prelude GoStr GoTime GoTimeParse Sha256 Humancode Crypto Base64 Bech32m Address DeviceCert HttpSig WakeCoalesce Broker Store StoreIntegrity StoreCorrect StoreQueue Auth AuthCorrect Delivery Federation.

Lemma or_reply_Ok {E A} (x : res E A) r a : or_reply x r = Ok a → x = Ok a.
Proof. by destruct x; simpl; intros [= ->]. Qed.
Lemma check_Ok b r u : check b r = Ok u → b = true.
Proof. by destruct b. Qed.

Section correct.
Context {UC : UnicodeCase} {ED : Ed25519}.

(** Everything the chain has established when it succeeds. *)
Record chain_ok (now : Time) (r : Request) (claim : federatedSenderClaim) (id pub : bytes) (h : RequestSignatureHeaders)
    (ts : Time) : Prop := {
  ch_headers : ParseRequestHeaders r = Ok h;
  ch_key : KeyID h = b64_encode pub;
  ch_ts : ParseTimestamp (Timestamp h) = Ok ts;
  ch_skew : WithinSkew ts now MaxClockSkew = true;
  ch_id : Address.Normalize (ClAccountID claim) = Ok id;
  ch_pub : zlen pub = ed25519_PublicKeySize;
  ch_signed : HttpSig.Verify (claim_canonical r h claim) (Signature h) pub = Ok ();
  ch_chain : ∃ root sig issued,
    b64_decode (ClRootPubKey claim) = Some root ∧ Address.Verify (ClAccountID claim) root = Ok true ∧
    DeviceCertificate.Verify (certificate_of claim pub sig issued) root = Ok ();
}.

Lemma decodeBase64Key_Some s n raw : decodeBase64Key s n = Some raw → b64_decode s = Some raw ∧ zlen raw = n.
Proof. unfold decodeBase64Key. destruct (b64_decode s) as [x|]; simpl; [|done]. case_match; [|done]. intros [= ->]. split; [done|lia]. Qed.

Lemma verify_chain_inv now r claim id pub h ts :
  verify_chain now r claim = Ok (id, pub, h, ts) → chain_ok now r claim id pub h ts.
Proof.
  unfold verify_chain. intros H.
  apply bind_Ok in H as (root & Hroot%from_option_Ok%decodeBase64Key_Some & H).
  apply bind_Ok in H as (v & Hv%or_reply_Ok & H). apply bind_Ok in H as (u & Hb%check_Ok & H). subst v.
  apply bind_Ok in H as (id' & Hid%or_reply_Ok & H).
  apply bind_Ok in H as (pub' & [_ Hpub]%from_option_Ok%decodeBase64Key_Some & H).
  apply bind_Ok in H as (issued & _ & H). apply bind_Ok in H as (sig & _ & H).
  apply bind_Ok in H as (h' & Hh%or_reply_Ok & H). apply bind_Ok in H as (u1 & Hk%check_Ok%eqb_true_1 & H).
  apply bind_Ok in H as (ts' & Hts%or_reply_Ok & H). apply bind_Ok in H as (u2 & Hsk%check_Ok & H).
  apply bind_Ok in H as ([] & Hcert%or_reply_Ok & H). apply bind_Ok in H as ([] & Hsig%or_reply_Ok & H).
  apply Ok_inj in H. injection H as <- <- <- <-. destruct Hroot as [Hroot _].
  split; try done. by exists root, sig, issued.
Qed.

Lemma verifyFederatedSender_inv d f now r claim d' s :
  verifyFederatedSender d f now r claim = (d', Ok s) →
  ∃ h ts, chain_ok now r claim (FsAccountID s) (FsDevicePubKey s) h ts ∧ FsDeviceID s = FcDeviceID (ClDeviceCert claim) ∧
    IsFederationBlocked f (FsAccountID s) = false ∧
    RecordNonce d (KeyID h) (Nonce h) ts (time_add ts MaxClockSkew) = (d', true).
Proof.
  unfold verifyFederatedSender. destruct (verify_chain now r claim) as [[[[id pub] h] ts]| |] eqn:Ec; [|done..].
  apply verify_chain_inv in Ec. destruct (IsFederationBlocked f id) eqn:Eb; [done|].
  destruct (RecordNonce _ _ _ _ _) as [d1 ok] eqn:Er. destruct ok; [|done]. intros [= <- <-]. by exists h, ts.
Qed.

(** C21: what an accepted foreign sender proves.  The account id it is known under is the
    canonical spelling of the claimed one and is certified by the root key; that root key
    signed a certificate for exactly the device id and device key reported; the key signed
    this request's method, path, query, timestamp, nonce and key id, which names it, together with
    the body -- or, where the caller passes a digest because the body is yet to be streamed, as
    for an upload, together with that digest; the timestamp is fresh, the account is not
    blocked, and the nonce had not been used and is now on record. *)
Theorem federated_sender_sound d f now r claim d' s :
  verifyFederatedSender d f now r claim = (d', Ok s) →
  ∃ root cert issued ts sig,
    Address.Normalize (ClAccountID claim) = Ok (FsAccountID s) ∧
    b64_decode (ClRootPubKey claim) = Some root ∧ Address.Verify (ClAccountID claim) root = Ok true ∧
    DeviceCertificate.Verify (DeviceCertificate.mk (ClAccountID claim) (FsDeviceID s) (FsDevicePubKey s) issued cert) root = Ok () ∧
    Header_Get r HeaderKeyID = b64_encode (FsDevicePubKey s) ∧
    ParseTimestamp (Header_Get r HeaderTimestamp) = Ok ts ∧ WithinSkew ts now MaxClockSkew = true ∧
    b64_decode (Header_Get r HeaderSignature) = Some sig ∧
    ed_verify (FsDevicePubKey s)
      (CanonicalStringWithBodyDigest (Method r) (URL_Path r) (URL_RawQuery r) (Header_Get r HeaderTimestamp)
         (Header_Get r HeaderNonce) (Header_Get r HeaderKeyID)
         (if ClBodyDigest claim =?b [] then hex_encode (sha256 (ClRequestBody claim)) else ClBodyDigest claim)) sig = true ∧
    federation_blocklist f !! FsAccountID s = None ∧
    used_nonces d !! (Header_Get r HeaderKeyID, Header_Get r HeaderNonce) = None ∧
    d' = set_nonces d (<[(Header_Get r HeaderKeyID, Header_Get r HeaderNonce) :=
                          mkNonceRow (formatTime ts) (formatTime (time_add ts MaxClockSkew))]> (used_nonces d)).
Proof.
  intros H. apply verifyFederatedSender_inv in H as (h & ts & [Hh Hk Hts Hsk Hid _ Hsig Hchain] & Hdev & Hblk & Hn).
  destruct Hchain as (root & cert & issued & Hroot & Hver & Hcert).
  unfold ParseRequestHeaders in Hh. destruct (_ || _) in Hh; [done|]. apply Ok_inj in Hh as <-. cbn [KeyID Timestamp Signature Nonce] in *.
  apply Verify_Ok_inv in Hsig as (sig & Hs & Hv). unfold certificate_of in Hcert. rewrite <- Hdev in Hcert.
  unfold RecordNonce in Hn. destruct (used_nonces d !! _) eqn:En in Hn; [done|]. injection Hn as <-.
  unfold IsFederationBlocked in Hblk. destruct (federation_blocklist f !! _) eqn:Eb in Hblk; [done|].
  exists root, cert, issued, ts, sig. split_and!; try done. revert Hv. unfold claim_canonical. cbn [KeyID Timestamp Nonce].
  destruct (ClBodyDigest claim) as [|b digest]; [done|]. by rewrite (proj2 (eqb_false (b :: digest) [])).
Qed.

(** ** Replays *)

(** Between two requests: other foreign requests under any settings, and any operation of
    the repository, purges included. *)
Inductive fed_event := FedRequest (f : fed) (now : Time) (r : Request) (claim : federatedSenderClaim) | FedOp (o : op).
Definition run_fed (d : db) (e : fed_event) : db :=
  match e with
  | FedRequest f now r claim => (verifyFederatedSender d f now r claim).1
  | FedOp o => run_op d o
  end.
(** Purges run with a clock that has not passed [now]. *)
Definition purge_not_after (now : Time) (e : fed_event) : Prop :=
  match e with FedOp (OPurgeNonces t) => year_ok t ∧ t_sec t ≤ t_sec now | _ => True end.


Lemma AddOneTimePrekeys_nonces d k keys now : used_nonces (AddOneTimePrekeys d k keys now).1 = used_nonces d.
Proof.
  revert d. induction keys as [|x keys IH]; intros d; [done|]. cbn [AddOneTimePrekeys].
  destruct (present _); [|done]. cbv zeta. set (d1 := set_one_time _ _ _). exact (IH d1).
Qed.
Lemma insert_recipients_nonces d b ids : used_nonces (insert_recipients d b ids).1 = used_nonces d.
Proof.
  revert d. induction ids as [|x ids IH]; intros d; [done|]. cbn [insert_recipients].
  destruct (_ || _); [done|]. cbv zeta. set (d1 := set_blobs _ _ _). exact (IH d1).
Qed.
Lemma CreateBlob_nonces d b ids : used_nonces (CreateBlob d b ids).1 = used_nonces d.
Proof.
  unfold CreateBlob. destruct (_ =? 0); [done|]. destruct (present _); [done|].
  pose proof (insert_recipients_nonces (set_blobs d (<[BlobID b := mkBlobRow (SizeBytes b) (formatTime (BlobCreatedAt b))
    (formatTime (BlobExpiresAt b))]> (blobs d)) (blob_recipients d)) (BlobID b) ids) as E.
  by destruct (insert_recipients _ _ _) as [? []].
Qed.

Lemma RecordNonce_keeps d k row dev n ts e :
  used_nonces d !! k = Some row → used_nonces (RecordNonce d dev n ts e).1 !! k = Some row.
Proof.
  intros Hk. unfold RecordNonce. destruct (used_nonces d !! (dev, n)) eqn:E; [done|]. simpl.
  rewrite lookup_insert_ne; [done|]. congruence.
Qed.

(** No operation but a late enough purge removes a nonce. *)
Lemma run_op_keeps_nonce d o k row :
  used_nonces d !! k = Some row →
  (∀ t, o = OPurgeNonces t → bytes_ltb (nc_expires_at row) (formatTime t) = false) →
  used_nonces (run_op d o) !! k = Some row.
Proof.
  intros Hk Hp. destruct o; try (open_op; by auto).
  - cbn [run_op]. unfold DeleteAccount. by destruct (accounts d !! id).
  - cbn [run_op]. by rewrite AddOneTimePrekeys_nonces.
  - cbn [run_op]. by rewrite CreateBlob_nonces.
  - cbn [run_op]. destruct (CreateBlobWithQuota_db d b ids n m) as [-> | ->]; [done|by rewrite CreateBlob_nonces].
  - by apply RecordNonce_keeps.
  - cbn [run_op]. unfold PurgeExpiredNonces. simpl. apply map_lookup_filter_Some_2; [done|]. simpl. by apply Hp.
Qed.

Lemma run_fed_keeps_nonce d e k row now x :
  used_nonces d !! k = Some row → nc_expires_at row = formatTime x → year_ok x → t_sec now ≤ t_sec x →
  purge_not_after now e → used_nonces (run_fed d e) !! k = Some row.
Proof.
  intros Hk Hx Hyx Hle He. destruct e as [f t r claim|o]; cbn [run_fed].
  - unfold verifyFederatedSender. destruct (verify_chain t r claim) as [[[[id pub] h] ts]| |]; [|done..].
    destruct (IsFederationBlocked f id); [done|].
    pose proof (RecordNonce_keeps d k row (KeyID h) (Nonce h) ts (time_add ts MaxClockSkew) Hk) as H.
    by destruct (RecordNonce _ _ _ _ _) as [? []].
  - apply run_op_keeps_nonce; [done|]. intros t ->. destruct He as [Hy Ht]. rewrite Hx. unfold bytes_ltb.
    rewrite stored_leb by done. apply negb_false_iff, Z.leb_le. lia.
Qed.

Lemma run_feds_keep_nonce d evs k row now x :
  used_nonces d !! k = Some row → nc_expires_at row = formatTime x → year_ok x → t_sec now ≤ t_sec x →
  Forall (purge_not_after now) evs → used_nonces (foldl run_fed d evs) !! k = Some row.
Proof.
  intros Hk Hx Hy Hle Hev. revert d Hk. induction Hev as [|e evs He Hev IH]; intros d Hk; [done|].
  simpl. apply IH. by eapply run_fed_keeps_nonce.
Qed.

(** The clock's second when a timestamp is still accepted is not past its expiry's. *)
Lemma fresh_before_expiry ts now :
  time_sane ts → time_sane now → t_mono ts = None → WithinSkew ts now MaxClockSkew = true →
  t_sec now ≤ t_sec (time_add ts MaxClockSkew).
Proof.
  intros Hts Hnow Hm Hsk.
  assert (- 2 ^ 63 ≤ MaxClockSkew < 2 ^ 63) as Hrange by (unfold MaxClockSkew, second; lia).
  destruct (time_add_instant ts MaxClockSkew Hts Hrange) as [Ei [_ Hw]].
  apply within_skew_exact in Hsk; [|done..|unfold MaxClockSkew, second; lia].
  destruct Hnow as [[_ Hn] _]. unfold instant, MaxClockSkew, second in *. lia.
Qed.

(** No replay of a foreign request.  Once a request has been accepted, no request with
    the same key id, nonce and timestamp is accepted again -- at any later time, under any
    settings, after any other requests, repository operations and purges whose clock has
    not passed the present: the nonce is on record until the timestamp is stale. *)
Theorem federated_replay_refused d f now1 r claim d1 s ts evs f2 now2 r2 claim2 :
  verifyFederatedSender d f now1 r claim = (d1, Ok s) →
  ParseTimestamp (Header_Get r HeaderTimestamp) = Ok ts → time_sane ts → year_ok (time_add ts MaxClockSkew) →
  time_sane now2 → Forall (purge_not_after now2) evs →
  Header_Get r2 HeaderKeyID = Header_Get r HeaderKeyID → Header_Get r2 HeaderNonce = Header_Get r HeaderNonce →
  Header_Get r2 HeaderTimestamp = Header_Get r HeaderTimestamp →
  is_ok (verifyFederatedSender (foldl run_fed d1 evs) f2 now2 r2 claim2).2 = false.
Proof.
  intros H1 Hts Hsane Hyear Hnow2 Hev HK HN HT.
  destruct (verifyFederatedSender (foldl run_fed d1 evs) f2 now2 r2 claim2) as [d2 [s2| |]] eqn:E2; [exfalso|done..].
  apply verifyFederatedSender_inv in E2 as (h2 & ts2 & [Hh2 _ Hts2 Hsk2 _ _ _ _] & _ & _ & Hn2).
  apply verifyFederatedSender_inv in H1 as (h & ts1 & [Hh _ Hts1 _ _ _ _ _] & _ & _ & Hn1).
  unfold ParseRequestHeaders in Hh, Hh2. destruct (_ || _) in Hh; [done|]. destruct (_ || _) in Hh2; [done|].
  apply Ok_inj in Hh as <-. apply Ok_inj in Hh2 as <-. cbn [KeyID Timestamp Nonce] in *.
  rewrite HT, Hts in Hts2. apply Ok_inj in Hts2 as <-. rewrite Hts in Hts1. apply Ok_inj in Hts1 as <-.
  assert (used_nonces d1 !! (Header_Get r HeaderKeyID, Header_Get r HeaderNonce) =
          Some (mkNonceRow (formatTime ts) (formatTime (time_add ts MaxClockSkew)))) as Hrow.
  { unfold RecordNonce in Hn1. destruct (present _); [done|]. injection Hn1 as <-. simpl. by rewrite lookup_insert_eq. }
  eapply (run_feds_keep_nonce _ evs _ _ now2) in Hrow; [|done|done|apply fresh_before_expiry; by eauto using ParseTimestamp_mono|done].
  unfold RecordNonce in Hn2. rewrite HK, HN, Hrow in Hn2. done.
Qed.

(** ** The blocklist *)

(** What changes the settings and the blocklist while the server runs. *)
Inductive fed_change :=
  | FcBlock (now : Time) (admin : Identity) (id : bytes) (reason : option bytes)
  | FcUnblock (admin : Identity) (id : bytes)
  | FcFederation (enabled : bool) | FcPolicy (policy : bytes).
Definition run_change (f : fed) (c : fed_change) : fed :=
  match c with
  | FcBlock now admin id reason => (handleBlockFederationSender f now admin id reason).1
  | FcUnblock admin id => (handleUnblockFederationSender f admin id).1
  | FcFederation b => SetFederationEnabled f b
  | FcPolicy p => SetRegistrationPolicy f p
  end.
Definition unblocks (id : bytes) (c : fed_change) : Prop :=
  match c with FcUnblock _ id' => Address.Normalize id' = Address.Normalize id | _ => False end.

Lemma run_change_keeps_block f c id n :
  Address.Normalize id = Ok n → ¬ unblocks id c → IsFederationBlocked f n = true →
  IsFederationBlocked (run_change f c) n = true.
Proof.
  intros Hn Hc Hb. unfold IsFederationBlocked in *. destruct c as [now admin id' reason|admin id'|b|p]; cbn [run_change].
  - unfold handleBlockFederationSender. repeat case_match; try done. simpl.
    destruct (decide (a = n)) as [->|Hne]; [by rewrite lookup_insert_eq|by rewrite lookup_insert_ne].
  - unfold handleUnblockFederationSender, UnblockFederationSender. case_match; [done|].
    destruct (Address.Normalize id') as [n'| |] eqn:En; [|done..]. destruct (present (_ !! n')); [|done]. simpl.
    rewrite lookup_delete_ne; [done|]. intros ->. apply Hc. simpl. congruence.
  - unfold SetFederationEnabled. by case_match.
  - unfold SetRegistrationPolicy. by case_match.
Qed.

(** A block holds for every spelling.  After an admin blocks an account id given in any
    spelling, no request from an id with the same canonical form is accepted -- hyphens, case
    and spacing do not matter -- whatever else admins change, until one of them unblocks
    that account. *)
Theorem block_not_evaded f now admin id reason f1 changes d now2 r claim :
  handleBlockFederationSender f now admin id reason = (f1, mkReply 200 []) →
  Forall (λ c, ¬ unblocks id c) changes → Address.Normalize (ClAccountID claim) = Address.Normalize id →
  is_ok (verifyFederatedSender d (foldl run_change f1 changes) now2 r claim).2 = false.
Proof.
  intros Hb Hch Hn.
  destruct (verifyFederatedSender d (foldl run_change f1 changes) now2 r claim) as [d2 [s| |]] eqn:E; [exfalso|done..].
  apply verifyFederatedSender_inv in E as (h & ts & [_ _ _ _ Hid _ _ _] & _ & Hblk & _).
  assert (IsFederationBlocked f1 (FsAccountID s) = true) as H1.
  { unfold handleBlockFederationSender in Hb. destruct (negb _); [done|]. destruct (empty id); [done|].
    rewrite <- Hn, Hid in Hb. injection Hb as <-. unfold IsFederationBlocked. simpl. by rewrite lookup_insert_eq. }
  apply not_true_iff_false in Hblk. apply Hblk. clear Hblk Hb. revert f1 H1.
  induction Hch as [|c changes Hc Hch IH]; intros f1 H1; [done|]. simpl. apply IH.
  apply (run_change_keeps_block _ _ id); [congruence|done..].
Qed.
End correct.
