(* ===== verification/Prekeys.v ===== *)
(** * Prekeys: upload, claim, and the claimant's check

    internal/api/prekeys.go (the three handlers) and [verifyBundle] of
    pkg/client/prekeys_api.go, which is what the initiator of a session does with the
    bundle.  The handlers change the database one statement at a time, without a
    transaction: [handler] threads it, and a failure keeps what was already written. *)

From S2P Require Import Prelude GoStr GoTime GoTimeParse Sha256 Humancode Ratchet Crypto Base64 Address DeviceCert HttpSig WakeCoalesce Broker Store StoreIntegrity StoreQueue Auth Delivery Federation.

(** ** The handlers' effect: the database so far, and a reply or a value *)

Definition handler (A : Type) : Type := db → db * res reply A.
#[export] Instance handler_ret : MRet handler := λ A a d, (d, Ok a).
#[export] Instance handler_bind : MBind handler := λ A B f m d,
  match m d with (d, Ok a) => f a d | (d, Err e) => (d, Err e) | (d, Panic) => (d, Panic) end.
Definition hlift {A} (x : res reply A) : handler A := λ d, (d, x).
(** A statement of internal/store; its failure is answered with [onErr]. *)
Definition stmt {A} (o : db → db * res StoreError A) (onErr : StoreError → reply) : handler A := λ d,
  let '(d, x) := o d in (d, match x with Ok a => Ok a | Err e => Err (onErr e) | Panic => Panic end).
Definition query {A} (o : db → res StoreError A) (onErr : StoreError → reply) : handler A := stmt (λ d, (d, o d)) onErr.

Definition not_found_or (code : string) (e : StoreError) : reply :=
  match e with ErrNotFound => mkReply 404 (lit code) | _ => internal end.

(** ** dto.go *)

Record dhIdentityCertDTO := mkDHCert { DhPubKey : bytes; DhIssuedAt : bytes; DhSignature : bytes }.
Record signedPrekeyDTO := mkSPK {
  PkKeyID : Z; PkDHIdentityPubKey : bytes; PkPubKey : bytes; PkIssuedAt : bytes; PkSignature : bytes;
}.
Record oneTimePrekeyDTO := mkOTP { OpKeyID : Z; OpPubKey : bytes }.
Record uploadPrekeysRequest := mkUpload {
  UpDHIdentityCert : option dhIdentityCertDTO; UpSignedPrekey : signedPrekeyDTO; UpOneTimePrekeys : list oneTimePrekeyDTO;
  UpReplace : bool;
}.
Record prekeyBundleResponse := mkBundle {
  BuDeviceID : bytes; BuDHIdentityPubKey : bytes; BuDHIdentityCert : dhIdentityCertDTO; BuSignedPrekey : signedPrekeyDTO;
  BuOneTimePrekey : option oneTimePrekeyDTO; BuOmitted : bytes;
}.
Record claimPrekeyBundleRequest := mkClaimReq {
  CrAccountID : bytes; CrRootPubKey : bytes; CrDeviceCert : federationDeviceCertDTO;
}.
Definition oneTimePrekeyOmittedPoolEmpty : bytes := lit "pool_empty".
Definition oneTimePrekeyOmittedUnauthenticated : bytes := lit "unauthenticated".

Section prekeys.
Context {UC : UnicodeCase} {ED : Ed25519}.

(** ** handleUploadPrekeys *)

(** A DH identity certificate, checked and stored: the new key. *)
Definition upload_dh_identity (identity : Identity) (deviceID : bytes) (device : Device) (c : dhIdentityCertDTO) : handler bytes :=
  dhPub ← hlift (from_option (decodeBase64Key (DhPubKey c) x25519PubKeySize) (bad "invalid_request"));
  issuedAt ← hlift (from_option (time_parse (DhIssuedAt c)) (bad "invalid_request"));
  sig ← hlift (from_option (decodeBase64Key (DhSignature c) ed25519_SignatureSize) (bad "invalid_request"));
  _ ← hlift (or_reply (DHIdentityCertificate.Verify
        (DHIdentityCertificate.mk (IdAccountID identity) deviceID dhPub issuedAt sig) (DevicePubKey device))
        (bad "invalid_certificate"));
  _ ← stmt (λ d, UpsertDHIdentity d deviceID dhPub sig issuedAt) (λ _, internal);
  mret dhPub.

Definition upload_signed_prekey (identity : Identity) (deviceID : bytes) (device : Device) (now : Time) (dhIdentityPubKey : bytes)
    (p : signedPrekeyDTO) : handler () :=
  spkPub ← hlift (from_option (decodeBase64Key (PkPubKey p) x25519PubKeySize) (bad "invalid_request"));
  spkDHIdentityPub ← hlift (from_option (decodeBase64Key (PkDHIdentityPubKey p) x25519PubKeySize) (bad "invalid_request"));
  _ ← hlift (check (spkDHIdentityPub =?b dhIdentityPubKey) (bad "invalid_request"));
  spkIssuedAt ← hlift (from_option (time_parse (PkIssuedAt p)) (bad "invalid_request"));
  spkSig ← hlift (from_option (decodeBase64Key (PkSignature p) ed25519_SignatureSize) (bad "invalid_request"));
  _ ← hlift (or_reply (SignedPrekeyCertificate.Verify
        (SignedPrekeyCertificate.mk (IdAccountID identity) deviceID (PkKeyID p) spkDHIdentityPub spkPub spkIssuedAt spkSig)
        (DevicePubKey device)) (bad "invalid_certificate"));
  stmt (λ d, UpsertSignedPrekey d (mkSignedPrekey deviceID (PkKeyID p) spkPub spkSig spkIssuedAt now)) (λ _, internal).

Fixpoint decode_one_time (keys : list oneTimePrekeyDTO) : res reply (list OneTimePrekeyInput) :=
  match keys with
  | [] => Ok []
  | k :: keys =>
    pub ← from_option (decodeBase64Key (OpPubKey k) x25519PubKeySize) (bad "invalid_request");
    rest ← decode_one_time keys;
    Ok (mkOneTimeInput (OpKeyID k) pub :: rest)
  end.
Definition upload_one_time (deviceID : bytes) (now : Time) (keys : list oneTimePrekeyDTO) : handler () :=
  match keys with
  | [] => mret ()
  | _ =>
    inputs ← hlift (decode_one_time keys);
    stmt (λ d, AddOneTimePrekeys d deviceID inputs now) (λ _, internal)
  end.

Definition handleUploadPrekeys (now : Time) (identity : Identity) (deviceID : bytes) (b : option uploadPrekeysRequest)
    : handler reply :=
  _ ← hlift (check (IdDeviceID identity =?b deviceID) (mkReply 403 (lit "forbidden")));
  req ← hlift (from_option b (bad "invalid_request"));
  device ← query (λ d, GetDevice d deviceID) (not_found_or "not_found");
  dhIdentityPubKey ← match UpDHIdentityCert req with
                     | Some c => upload_dh_identity identity deviceID device c
                     | None => mret (DHIdentityPubKey device)
                     end;
  _ ← hlift (check (negb (empty dhIdentityPubKey)) (bad "invalid_request"));
  _ ← upload_signed_prekey identity deviceID device now dhIdentityPubKey (UpSignedPrekey req);
  _ ← stmt (λ d, (if UpReplace req then DeleteOneTimePrekeys d deviceID else d, Ok ())) (λ _, internal);
  _ ← upload_one_time deviceID now (UpOneTimePrekeys req);
  mret (mkReply 200 []).

Definition handleGetPrekeyStatus (d : db) (identity : Identity) (deviceID : bytes) : reply + Z :=
  if negb (IdDeviceID identity =?b deviceID) then inl (mkReply 403 (lit "forbidden"))
  else inr (CountOneTimePrekeys d deviceID).

(** ** handleClaimPrekeyBundle *)

Definition lowOneTimePrekeyThreshold : Z := 3.
Record bundleClaimant := mkClaimant { BcAccountID : bytes; Identified : bool }.
Definition anonymous : bundleClaimant := mkClaimant [] false.

(** [b] is what [readBody] gives ([inl]: it has answered), with its JSON decoding. *)
Definition authenticateBundleClaimant (m : Middleware) (d : db) (f : fed) (now : Time) (r : Request)
    (b : reply + rawBody claimPrekeyBundleRequest) : Middleware * db * res reply bundleClaimant :=
  match b with
  | inl e => (m, d, Err e)
  | inr b =>
    let r := mkRequest (Method r) (URL_Path r) (URL_RawQuery r) (ReqHeader r) (Some (raw_bytes b)) in
    let local (_ : ()) :=
      if negb (HasSignatureHeaders r) then (m, d, Ok anonymous)
      else match TryAuthenticate m d now r with
           | (m, Ok identity) => (m, d, Ok (mkClaimant (IdAccountID identity) true))
           | (m, Err _) => (m, d, Err unauthorized)
           | (m, Panic) => (m, d, Panic)
           end in
    if 0 <? zlen (trim_space (raw_bytes b)) then
      match raw_decoded b with
      | None => (m, d, Err (bad "invalid_request"))
      | Some req =>
        if negb (empty (CrAccountID req)) || negb (empty (CrRootPubKey req)) || negb (empty (FcDeviceID (CrDeviceCert req))) then
          match federation_on f with
          | Ok _ =>
            match verifyFederatedSender d f now r
                    (mkClaim (CrAccountID req) (CrRootPubKey req) (CrDeviceCert req) (raw_bytes b) []) with
            | (d, Ok sender) => (m, d, Ok (mkClaimant (FsAccountID sender) true))
            | (d, Err e) => (m, d, Err e)
            | (d, Panic) => (m, d, Panic)
            end
          | Err e => (m, d, Err e)
          | Panic => (m, d, Panic)
          end
        else local ()
      end
    else local ()
  end.

Definition bundle_of (deviceID : bytes) (device : Device) (dhIssuedAt : Time) (spk : SignedPrekey)
    (claimed : option OneTimePrekeyInput) (identified : bool) : prekeyBundleResponse :=
  let dh := b64_encode (DHIdentityPubKey device) in
  mkBundle deviceID dh (mkDHCert dh (rfc3339 dhIssuedAt) (b64_encode (DHIdentitySignature device)))
    (mkSPK (SpKeyID spk) dh (b64_encode (SpPubKey spk)) (rfc3339 (SpIssuedAt spk)) (b64_encode (SpSignature spk)))
    ((λ k, mkOTP (OtKeyID k) (b64_encode (OtPubKey k))) <$> claimed)
    (if present claimed then [] else if identified then oneTimePrekeyOmittedPoolEmpty else oneTimePrekeyOmittedUnauthenticated).

(** The response dereferences the device's [DHIdentityIssuedAt]. *)
Definition claim_for (a : API) (wnow : Time) (deviceID : bytes) (claimant : bundleClaimant)
    : res () (API * list action * (reply + prekeyBundleResponse)) :=
  match GetDevice (DB a) deviceID with
  | Err ErrNotFound => Ok (a, [], inl (mkReply 404 (lit "unknown_device")))
  | Ok device =>
    if negb (DevStatus device =?b DeviceStatusActive) || empty (DHIdentityPubKey device) then
      Ok (a, [], inl (mkReply 404 (lit "no_prekey_bundle")))
    else match GetSignedPrekey (DB a) deviceID with
    | Err ErrNotFound => Ok (a, [], inl (mkReply 404 (lit "no_prekey_bundle")))
    | Ok spk =>
      let '(d, claimed) := if Identified claimant then ClaimOneTimePrekey (DB a) deviceID else (DB a, None) in
      let a := mkAPI d (broker a) (wakes a) in
      let aa := if present claimed && negb (hasResponsiveSubscriber (broker a) deviceID)
                   && (CountOneTimePrekeys d deviceID <? lowOneTimePrekeyThreshold)
                then wakeDevice a wnow device else (a, []) in
      match DHIdentityIssuedAt device with
      | None => Panic
      | Some issued => Ok (aa.1, aa.2, inr (bundle_of deviceID device issued spk claimed (Identified claimant)))
      end
    | _ => Ok (a, [], inl internal)
    end
  | _ => Ok (a, [], inl internal)
  end.

Definition handleClaimPrekeyBundle (m : Middleware) (a : API) (f : fed) (now wnow : Time) (r : Request) (deviceID : bytes)
    (b : reply + rawBody claimPrekeyBundleRequest)
    : res () (Middleware * API * list action * (reply + prekeyBundleResponse)) :=
  match authenticateBundleClaimant m (DB a) f now r b with
  | (m, d, Ok claimant) =>
    x ← claim_for (mkAPI d (broker a) (wakes a)) wnow deviceID claimant;
    Ok (m, x.1.1, x.1.2, x.2)
  | (m, d, Err e) => Ok (m, mkAPI d (broker a) (wakes a), [], inl e)
  | (_, _, Panic) => Panic
  end.

(** ** verifyBundle (pkg/client) *)

Record PeerEndpoint := mkPeer { PeAccountID : bytes; PeDeviceID : bytes; PeDevicePub : bytes; PeServer : bytes }.
(** [ecdh.X25519().NewPublicKey] checks the length only. *)
Definition NewPublicKey (raw : bytes) : res string bytes :=
  if zlen raw =? 32 then Ok raw else Err "crypto/ecdh: invalid public key"%string.

Definition verifyBundle (b : prekeyBundleResponse) (peer : PeerEndpoint) : res string Ratchet.RemoteBundle :=
  dhPub ← from_option (b64_decode (BuDHIdentityPubKey b)) "client: decoding dh identity key"%string;
  dhIssuedAt ← from_option (time_parse (DhIssuedAt (BuDHIdentityCert b))) "client: parsing dh identity certificate date"%string;
  dhSig ← from_option (b64_decode (DhSignature (BuDHIdentityCert b))) "client: decoding dh identity signature"%string;
  _ ← DHIdentityCertificate.Verify
        (DHIdentityCertificate.mk (PeAccountID peer) (PeDeviceID peer) dhPub dhIssuedAt dhSig) (PeDevicePub peer);
  spkPub ← from_option (b64_decode (PkPubKey (BuSignedPrekey b))) "client: decoding signed prekey"%string;
  spkDHPub ← from_option (b64_decode (PkDHIdentityPubKey (BuSignedPrekey b))) "client: decoding signed prekey's dh identity key"%string;
  spkIssuedAt ← from_option (time_parse (PkIssuedAt (BuSignedPrekey b))) "client: parsing signed prekey certificate date"%string;
  spkSig ← from_option (b64_decode (PkSignature (BuSignedPrekey b))) "client: decoding signed prekey signature"%string;
  _ ← SignedPrekeyCertificate.Verify
        (SignedPrekeyCertificate.mk (PeAccountID peer) (PeDeviceID peer) (PkKeyID (BuSignedPrekey b)) spkDHPub spkPub spkIssuedAt spkSig)
        (PeDevicePub peer);
  _ ← guard_err (spkDHPub =?b dhPub) "client: certificates disagree about the dh identity key"%string;
  dhKey ← NewPublicKey dhPub;
  spkKey ← NewPublicKey spkPub;
  otp ← match BuOneTimePrekey b with
        | None => Ok None
        | Some k =>
          otpkPub ← from_option (b64_decode (OpPubKey k)) "client: decoding one-time prekey"%string;
          key ← NewPublicKey otpkPub;
          Ok (Some (OpKeyID k, key))
        end;
  Ok (Ratchet.mkBundle dhKey (PkKeyID (BuSignedPrekey b)) spkKey (fst <$> otp) (snd <$> otp)).
End prekeys.
