(* ===== verification/PrekeysCorrect.v ===== *)
(** * A published bundle is one its claimant accepts

    After an accepted upload the bundle the server hands out passes [verifyBundle] at the
    claimant, and carries the keys uploaded; an anonymous claim consumes nothing. *)

From S2P Require Import Prelude GoStr GoTime GoTimeParse Sha256 Humancode Ratchet Crypto Base64 Address DeviceCert HttpSig WakeCoalesce Broker Store StoreIntegrity StoreCorrect StoreQueue Auth AuthCorrect Delivery Federation FederationCorrect Prekeys.

(** ** Inverting the handlers *)

Lemma hbind_Ok {A B} (m : handler A) (f : A → handler B) d d' b :
  (m ≫= f) d = (d', Ok b) → ∃ d1 a, m d = (d1, Ok a) ∧ f a d1 = (d', Ok b).
Proof. unfold mbind, handler_bind. destruct (m d) as [d1 [a| |]]; [|done..]. eauto. Qed.
Lemma hlift_Ok {A} (x : res reply A) d d' a : hlift x d = (d', Ok a) → d' = d ∧ x = Ok a.
Proof. by intros [= -> ->]. Qed.
Lemma stmt_Ok {A} (o : db → db * res StoreError A) e d d' a : stmt o e d = (d', Ok a) → o d = (d', Ok a).
Proof. unfold stmt. destruct (o d) as [d1 [x| |]]; by intros [= -> ->]. Qed.
Lemma query_Ok {A} (o : db → res StoreError A) e d d' a : query o e d = (d', Ok a) → d' = d ∧ o d = Ok a.
Proof. unfold query. intros H%stmt_Ok. by injection H as -> ->. Qed.

(** Peel one step of a handler that succeeded. *)
Tactic Notation "hstep" hyp(H) "as" simple_intropattern(a) simple_intropattern(E) :=
  let d := fresh "d" in
  apply hbind_Ok in H as (d & a & E & H);
  first [apply hlift_Ok in E as [-> E] | apply query_Ok in E as [-> E] | apply stmt_Ok in E | idtac].

Section correct.
Context {UC : UnicodeCase} {ED : Ed25519}.

(** ** What is stored for a device *)

(** The device's DH identity key is certified by its own key. *)
Definition dh_certified (dev : bytes) (r : device_row) : Prop :=
  ∀ k, dv_dh_pubkey r = Some k →
  ∃ iss sig, dv_dh_issued_at r = Some (formatTime iss) ∧ year_ok iss ∧ dv_dh_signature r = Some sig ∧ is_bytes k ∧ is_bytes sig ∧
    DHIdentityCertificate.Verify (DHIdentityCertificate.mk (dv_account_id r) dev k iss sig) (dv_pubkey r) = Ok ().
(** ... and its signed prekey by that key, for the DH identity on file. *)
Definition spk_certified (dev : bytes) (r : device_row) (s : signed_prekey_row) : Prop :=
  ∃ k iss created, dv_dh_pubkey r = Some k ∧ sp_issued_at s = formatTime iss ∧ year_ok iss ∧
    sp_created_at s = formatTime created ∧ year_ok created ∧ is_bytes (sp_pubkey s) ∧ is_bytes (sp_signature s) ∧
    SignedPrekeyCertificate.Verify
      (SignedPrekeyCertificate.mk (dv_account_id r) dev (sp_key_id s) k (sp_pubkey s) iss (sp_signature s)) (dv_pubkey r) = Ok ().
Definition one_time_ok (d : db) (dev : bytes) : Prop :=
  ∀ o, o ∈ one_time_prekeys d → ot_device_id o = dev → zlen (ot_pubkey o) = 32 ∧ is_bytes (ot_pubkey o).

Record bundle_certified (d : db) (dev : bytes) : Prop := {
  bc_dh : ∀ r, devices d !! dev = Some r → dh_certified dev r;
  bc_spk : ∀ r s, devices d !! dev = Some r → signed_prekeys d !! dev = Some s → spk_certified dev r s;
  bc_otp : one_time_ok d dev;
}.

(** ** The upload *)

Lemma decodeBase64Key_bytes s n raw : decodeBase64Key s n = Some raw → zlen raw = n ∧ is_bytes raw.
Proof. intros [Hd Hl]%decodeBase64Key_Some. eauto using b64_decode_bytes. Qed.

Lemma upload_dh_identity_inv identity dev device c d d' k :
  upload_dh_identity identity dev device c d = (d', Ok k) →
  ∃ iss sig, time_parse (DhIssuedAt c) = Some iss ∧ b64_decode (DhPubKey c) = Some k ∧ zlen k = 32 ∧ is_bytes k ∧ is_bytes sig ∧
    DHIdentityCertificate.Verify (DHIdentityCertificate.mk (IdAccountID identity) dev k iss sig) (DevicePubKey device) = Ok () ∧
    UpsertDHIdentity d dev k sig iss = (d', Ok ()).
Proof.
  unfold upload_dh_identity. intros H.
  hstep H as k' E1. apply from_option_Ok in E1. hstep H as iss E2. apply from_option_Ok in E2.
  hstep H as sig E3. apply from_option_Ok, decodeBase64Key_bytes in E3. hstep H as u E4. apply or_reply_Ok in E4.
  hstep H as u' E5. injection H as <- <-. destruct u, u'.
  pose proof (decodeBase64Key_Some _ _ _ E1) as [E1' _]. apply decodeBase64Key_bytes in E1 as [].
  exists iss, sig. by destruct E3.
Qed.

Lemma upload_signed_prekey_inv identity dev device now k p d d' :
  upload_signed_prekey identity dev device now k p d = (d', Ok ()) →
  ∃ pub iss sig, time_parse (PkIssuedAt p) = Some iss ∧ b64_decode (PkPubKey p) = Some pub ∧ zlen pub = 32 ∧ is_bytes pub ∧ is_bytes sig ∧
    SignedPrekeyCertificate.Verify (SignedPrekeyCertificate.mk (IdAccountID identity) dev (PkKeyID p) k pub iss sig)
      (DevicePubKey device) = Ok () ∧
    UpsertSignedPrekey d (mkSignedPrekey dev (PkKeyID p) pub sig iss now) = (d', Ok ()).
Proof.
  unfold upload_signed_prekey. intros H.
  hstep H as pub E1. apply from_option_Ok in E1. hstep H as dh E2.
  hstep H as u0 E3. apply check_Ok, eqb_true_1 in E3. subst dh.
  hstep H as iss E4. apply from_option_Ok in E4. hstep H as sig E5. apply from_option_Ok, decodeBase64Key_bytes in E5.
  hstep H as u E6. apply or_reply_Ok in E6. apply stmt_Ok in H. destruct u.
  pose proof (decodeBase64Key_Some _ _ _ E1) as [E1' _]. apply decodeBase64Key_bytes in E1 as [].
  exists pub, iss, sig. by destruct E5.
Qed.

Lemma decode_one_time_ok keys inputs :
  decode_one_time keys = Ok inputs → Forall (λ k, zlen (OtPubKey k) = 32 ∧ is_bytes (OtPubKey k)) inputs.
Proof.
  revert inputs. induction keys as [|k keys IH]; intros inputs H; [by injection H as <-; constructor|].
  cbn [decode_one_time] in H. apply bind_Ok in H as (pub & E%from_option_Ok%decodeBase64Key_bytes & H).
  apply bind_Ok in H as (rest & E' & H). apply Ok_inj in H as <-. constructor; [done|by apply IH].
Qed.

Lemma AddOneTimePrekeys_ok d dev keys now :
  one_time_ok d dev → Forall (λ k, zlen (OtPubKey k) = 32 ∧ is_bytes (OtPubKey k)) keys →
  one_time_ok (AddOneTimePrekeys d dev keys now).1 dev.
Proof.
  intros Hd HF. revert d Hd. induction HF as [|k keys Hk HF IH]; intros d Hd; [done|]. cbn [AddOneTimePrekeys].
  destruct (present _); [|done]. cbv zeta. apply IH. intros o Ho Hdev. simpl in Ho.
  apply elem_of_app in Ho as [Ho| ->%list_elem_of_singleton]; [by apply Hd|done].
Qed.

Lemma AddOneTimePrekeys_signed d dev keys now : signed_prekeys (AddOneTimePrekeys d dev keys now).1 = signed_prekeys d.
Proof.
  revert d. induction keys as [|x keys IH]; intros d; [done|]. cbn [AddOneTimePrekeys].
  destruct (present _); [|done]. cbv zeta. set (d1 := set_one_time _ _ _). exact (IH d1).
Qed.

Lemma upload_one_time_inv dev now keys d d' :
  upload_one_time dev now keys d = (d', Ok ()) → one_time_ok d dev →
  one_time_ok d' dev ∧ devices d' = devices d ∧ signed_prekeys d' = signed_prekeys d.
Proof.
  unfold upload_one_time. destruct keys as [|k keys]; [by intros [= <-]|]. intros H Hok.
  hstep H as inputs E. apply decode_one_time_ok in E. apply stmt_Ok in H.
  pose proof (AddOneTimePrekeys_ok d dev inputs now Hok E) as H1.
  pose proof (AddOneTimePrekeys_frame d dev inputs now) as (_ & _ & _ & H2 & _).
  pose proof (AddOneTimePrekeys_signed d dev inputs now) as H3. by rewrite H in *.
Qed.

(** The times the certificates name have a four-digit year (in UTC), so that what is
    stored can be read back. *)
Definition years_ok (req : uploadPrekeysRequest) : Prop :=
  (∀ c t, UpDHIdentityCert req = Some c → time_parse (DhIssuedAt c) = Some t → year_ok t) ∧
  (∀ t, time_parse (PkIssuedAt (UpSignedPrekey req)) = Some t → year_ok t).

Lemma dh_step identity dev device req d d1 k :
  match UpDHIdentityCert req with Some c => upload_dh_identity identity dev device c | None => mret (DHIdentityPubKey device) end d
    = (d1, Ok k) →
  GetDevice d dev = Ok device → IdAccountID identity = AccountID device → years_ok req → empty k = false →
  (∀ r, devices d !! dev = Some r → dh_certified dev r) →
  one_time_prekeys d1 = one_time_prekeys d ∧ signed_prekeys d1 = signed_prekeys d ∧
  ∃ r, devices d1 !! dev = Some r ∧ dv_dh_pubkey r = Some k ∧ dv_account_id r = AccountID device ∧
    dv_pubkey r = DevicePubKey device ∧ dh_certified dev r.
Proof.
  intros H Hd Hacc Hy Hk Hc. pose proof (GetDevice_id _ _ _ Hd) as [_ (r & Hr & Ha & _ & Hp)].
  destruct (UpDHIdentityCert req) as [c|] eqn:Ec.
  - apply upload_dh_identity_inv in H as (iss & sig & Hiss & _ & _ & Hb & Hsb & Hv & Hup).
    unfold UpsertDHIdentity in Hup. rewrite Hr in Hup. injection Hup as <-. split_and!; [done..|]. simpl.
    rewrite lookup_insert_eq. eexists. split; [done|]. simpl. split_and!; [done..|].
    intros k' [= <-]. simpl. exists iss, sig. split_and!; try done; [by eapply (proj1 Hy)|]. by rewrite <- Ha, <- Hacc, <- Hp.
  - injection H as <- <-. split_and!; [done..|]. exists r. split_and!; [done| |done|done|by apply Hc].
    unfold GetDevice in Hd. rewrite Hr in Hd. unfold scanDeviceFields in Hd. res_inv Hd. injection Hd as <-. simpl in *.
    destruct (Z.ltb_spec 0 (zlen (default [] (dv_dh_pubkey r)))) as [?|?].
    + res_inv Hd3. injection Hd3 as <-. simpl in *. by destruct (dv_dh_pubkey r).
    + injection Hd3 as <-. done.
Qed.

(** What the upload of [req] leaves in the tables. *)
Definition published (d : db) (dev : bytes) (device : Device) (req : uploadPrekeysRequest) : Prop :=
  ∃ r s k, devices d !! dev = Some r ∧ dv_dh_pubkey r = Some k ∧ k ≠ [] ∧ dv_account_id r = AccountID device ∧
    dv_pubkey r = DevicePubKey device ∧ dh_certified dev r ∧
    signed_prekeys d !! dev = Some s ∧ spk_certified dev r s ∧ sp_key_id s = PkKeyID (UpSignedPrekey req) ∧
    b64_decode (PkPubKey (UpSignedPrekey req)) = Some (sp_pubkey s) ∧ zlen (sp_pubkey s) = 32 ∧ zlen k = 32 ∧
    one_time_ok d dev.

Lemma dh_verify_len c pub : DHIdentityCertificate.Verify c pub = Ok () → zlen (DHIdentityCertificate.DHPubKey c) = 32.
Proof.
  intros (buf & H & _)%verify_signed_Ok. unfold DHIdentityCertificate.signingBytes in H. apply bind_Ok in H as (? & _ & H).
  destruct (Z.eqb_spec (zlen (DHIdentityCertificate.DHPubKey c)) x25519PubKeySize) as [E|]; [|done]. by rewrite E.
Qed.

Lemma upload_publishes now identity dev req d d' device rep :
  handleUploadPrekeys now identity dev (Some req) d = (d', Ok rep) →
  GetDevice d dev = Ok device → IdAccountID identity = AccountID device → years_ok req → year_ok now →
  (∀ r, devices d !! dev = Some r → dh_certified dev r) → one_time_ok d dev →
  rep = mkReply 200 [] ∧ published d' dev device req.
Proof.
  intros H Hd Hacc Hy Hnow Hdh Hot. unfold handleUploadPrekeys in H.
  hstep H as u0 E0. hstep H as req' E1. apply Ok_inj in E1 as <-. hstep H as device' E2. rewrite Hd in E2. apply Ok_inj in E2 as <-.
  apply hbind_Ok in H as (d1 & k & E3 & H). hstep H as u1 E4. apply check_Ok, negb_true_iff in E4.
  apply hbind_Ok in H as (d2 & [] & E5 & H). hstep H as u2 E6. apply hbind_Ok in H as (d4 & [] & E7 & H).
  injection H as <- <-. split; [done|].
  destruct (dh_step _ _ _ _ _ _ _ E3 Hd Hacc Hy E4 Hdh) as (Eot & Esp & r & Hr & Hk & Ha & Hp & Hc).
  apply upload_signed_prekey_inv in E5 as (pub & iss & sig & Hiss & Hpub & Hl & Hb & Hsb & Hv & Hup).
  unfold UpsertSignedPrekey in Hup. simpl in Hup. rewrite Hr in Hup. simpl in Hup. injection Hup as <-.
  injection E6 as <-. set (row := mkSignedPrekeyRow _ _ _ _ _) in *.
  apply upload_one_time_inv in E7 as (Hot' & Edev & Esp').
  2:{ destruct (UpReplace req); simpl; intros o Ho; [apply list_elem_of_filter in Ho as [Ho _]; done|].
      simpl in Ho. rewrite Eot in Ho. by apply Hot. }
  destruct (Hc k Hk) as (i' & s' & _ & _ & _ & _ & _ & Hlen%dh_verify_len). simpl in Hlen.
  exists r, row, k. rewrite Edev, Esp'.
  assert (signed_prekeys (if UpReplace req then DeleteOneTimePrekeys (set_signed_prekeys d1 (<[dev:=row]> (signed_prekeys d1))) dev
    else set_signed_prekeys d1 (<[dev:=row]> (signed_prekeys d1))) !! dev = Some row) as ->
    by (destruct (UpReplace req); simpl; by rewrite lookup_insert_eq).
  split_and!; try done; [by destruct (UpReplace req)|by intros ->|].
  exists k, iss, now. simpl. rewrite Ha, Hp, <- Hacc. split_and!; try done. by apply (proj2 Hy).
Qed.

(** ** The claim *)

Lemma time_parse_stored t : year_ok t → time_parse (rfc3339 (to_second t)) = Some (to_second t).
Proof.
  intros Hy. rewrite rfc3339_body_whole.
  change (rfc3339_body (unix_seconds (to_second t)) ++ [90]) with (rfc3339_nano (to_second t)).
  apply time_parse_nano; [exact Hy|]. unfold second. simpl. lia.
Qed.

Lemma dh_verify_second acc dev k t sig pub :
  DHIdentityCertificate.Verify (DHIdentityCertificate.mk acc dev k t sig) pub = Ok () →
  DHIdentityCertificate.Verify (DHIdentityCertificate.mk acc dev k (to_second t) sig) pub = Ok ().
Proof. done. Qed.
Lemma spk_verify_second acc dev id k p t sig pub :
  SignedPrekeyCertificate.Verify (SignedPrekeyCertificate.mk acc dev id k p t sig) pub = Ok () →
  SignedPrekeyCertificate.Verify (SignedPrekeyCertificate.mk acc dev id k p (to_second t) sig) pub = Ok ().
Proof. done. Qed.

(** The device as it reads back. *)
Lemma published_device d dev device req x :
  published d dev device req → GetDevice d dev = Ok x →
  ∃ k iss sig, DHIdentityPubKey x = k ∧ zlen k = 32 ∧ DHIdentityIssuedAt x = Some (to_second iss) ∧ year_ok iss ∧
    DHIdentitySignature x = sig ∧ is_bytes k ∧ is_bytes sig ∧ AccountID x = AccountID device ∧ DevicePubKey x = DevicePubKey device ∧
    DHIdentityCertificate.Verify (DHIdentityCertificate.mk (AccountID device) dev k iss sig) (DevicePubKey device) = Ok () ∧
    (∃ r, devices d !! dev = Some r ∧ dv_dh_pubkey r = Some k).
Proof.
  intros (r & s & k & Hr & Hk & Hne & Ha & Hp & Hc & _ & _ & _ & _ & _ & Hlen & _) Hx.
  destruct (Hc k Hk) as (iss & sig & Hi & Hy & Hs & Hkb & Hsb & Hv).
  unfold GetDevice in Hx. rewrite Hr in Hx. unfold scanDeviceFields in Hx. rewrite Hk, Hi, Hs in Hx.
  cbn [default] in Hx. simpl in Hx. rewrite (proj2 (Z.ltb_lt 0 (zlen k))) in Hx by lia. rewrite parse_format in Hx by done.
  simpl in Hx. res_inv Hx. injection Hx as <-. simpl. exists k, iss, sig. rewrite <- Ha, <- Hp. split_and!; eauto.
Qed.

Lemma claimed_key_ok d dev k d' : one_time_ok d dev → ClaimOneTimePrekey d dev = (d', Some k) →
  zlen (OtPubKey k) = 32 ∧ is_bytes (OtPubKey k).
Proof.
  intros Hok. unfold ClaimOneTimePrekey. destruct (list_find _ _) as [[i o]|] eqn:E; [|done]. intros [= <- <-]. simpl.
  apply list_find_Some in E as (E%list_elem_of_lookup_2 & Hdev & _). by apply Hok.
Qed.

Lemma verifyBundle_intro b peer dh t sig n spk t' sig' otp :
  PkKeyID (BuSignedPrekey b) = n →
  b64_decode (BuDHIdentityPubKey b) = Some dh → time_parse (DhIssuedAt (BuDHIdentityCert b)) = Some t →
  b64_decode (DhSignature (BuDHIdentityCert b)) = Some sig → b64_decode (PkPubKey (BuSignedPrekey b)) = Some spk →
  b64_decode (PkDHIdentityPubKey (BuSignedPrekey b)) = Some dh → time_parse (PkIssuedAt (BuSignedPrekey b)) = Some t' →
  b64_decode (PkSignature (BuSignedPrekey b)) = Some sig' →
  DHIdentityCertificate.Verify (DHIdentityCertificate.mk (PeAccountID peer) (PeDeviceID peer) dh t sig) (PeDevicePub peer) = Ok () →
  SignedPrekeyCertificate.Verify (SignedPrekeyCertificate.mk (PeAccountID peer) (PeDeviceID peer) (PkKeyID (BuSignedPrekey b)) dh
    spk t' sig') (PeDevicePub peer) = Ok () →
  zlen dh = 32 → zlen spk = 32 →
  match BuOneTimePrekey b with
  | None => Ok None
  | Some k => otpkPub ← from_option (b64_decode (OpPubKey k)) "client: decoding one-time prekey"%string;
              key ← NewPublicKey otpkPub; Ok (Some (OpKeyID k, key))
  end = Ok otp →
  verifyBundle b peer = Ok (Ratchet.mkBundle dh n spk (fst <$> otp) (snd <$> otp)).
Proof.
  intros <- E1 E2 E3 E4 E5 E6 E7 V1 V2 L1 L2 Eo. unfold verifyBundle.
  rewrite E1, E2, E3, E4, E5, E6, E7;
    cbn [Prelude.from_option mbind res_bind]; rewrite V1; cbn [mbind res_bind]; rewrite V2; cbn [mbind res_bind].
  rewrite eqb_refl. cbn [guard_err mbind res_bind].
  assert (∀ x, zlen x = 32 → NewPublicKey x = Ok x) as N by (intros x Ex; unfold NewPublicKey; by rewrite Ex).
  rewrite (N dh) by done. cbn [mbind res_bind]. rewrite (N spk) by done. cbn [mbind res_bind]. by rewrite Eo.
Qed.

Lemma bundle_accepted d dev device req x issued spk claimed ident server :
  published d dev device req → GetDevice d dev = Ok x → DHIdentityIssuedAt x = Some issued → GetSignedPrekey d dev = Ok spk →
  (∀ k, claimed = Some k → zlen (OtPubKey k) = 32 ∧ is_bytes (OtPubKey k)) →
  verifyBundle (bundle_of dev x issued spk claimed ident) (mkPeer (AccountID device) dev (DevicePubKey device) server)
  = Ok (Ratchet.mkBundle (DHIdentityPubKey x) (SpKeyID spk) (SpPubKey spk) (OtKeyID <$> claimed) (OtPubKey <$> claimed)).
Proof.
  intros Hpub Hx Hiss Hspk Hcl.
  destruct (published_device _ _ _ _ _ Hpub Hx) as (k & iss & sig & Ek & Hlen & Ei & Hy & Es & Hkb & Hsb & Ea & Ep & Hv & r' & Hr' & Hk').
  rewrite Hiss in Ei. injection Ei as ->.
  destruct Hpub as (r & s & k0 & Hr & _ & _ & Ha & Hp & _ & Hs & (k1 & iss1 & cr & Hk1 & Hi1 & Hy1 & Hc1 & Hyc & Hb1 & Hb2 & Hv1) & _ & _ & Hl1 & _).
  assert (k1 = k) as -> by congruence. rewrite Ha, Hp in Hv1.
  unfold GetSignedPrekey in Hspk. rewrite Hs, Hi1, Hc1, !parse_format in Hspk by done. simpl in Hspk. apply Ok_inj in Hspk as <-.
  rewrite Ek.
  replace (OtKeyID <$> claimed) with (fst <$> ((λ k, (OtKeyID k, OtPubKey k)) <$> claimed)) by (by destruct claimed).
  replace (OtPubKey <$> claimed) with (snd <$> ((λ k, (OtKeyID k, OtPubKey k)) <$> claimed)) by (by destruct claimed).
  eapply (verifyBundle_intro _ _ k (to_second iss) sig _ _ (to_second iss1)).
  all: unfold bundle_of; cbn [BuDHIdentityPubKey BuDHIdentityCert BuSignedPrekey BuOneTimePrekey DhIssuedAt DhSignature PkKeyID
    PkDHIdentityPubKey PkPubKey PkIssuedAt PkSignature PeAccountID PeDeviceID PeDevicePub SpKeyID SpPubKey SpIssuedAt SpSignature];
    rewrite ?Ek, ?Es, ?b64_decode_encode by done; try done.
  - by apply time_parse_stored.
  - by apply time_parse_stored.
  - destruct claimed as [c|]; [|done]. destruct (Hcl c eq_refl) as [Hcl1 Hcl2]. simpl. rewrite b64_decode_encode by done. simpl.
    unfold NewPublicKey. by rewrite Hcl1.
Qed.

(** C29: a published bundle is accepted by whoever claims it.  After an upload the server
    answered with 200, every claim of the device's bundle while it is active is answered
    with one, and the claimant's [verifyBundle] accepts it under the device's key: it holds
    the signed prekey just uploaded, the DH identity that prekey was signed for, and at most
    one one-time prekey. *)
Theorem uploaded_bundle_verifies now identity dev req d d' rep device claimant b w wnow server :
  handleUploadPrekeys now identity dev (Some req) d = (d', Ok rep) →
  GetDevice d dev = Ok device → IdAccountID identity = AccountID device → years_ok req → year_ok now →
  (∀ r, devices d !! dev = Some r → dh_certified dev r) → one_time_ok d dev →
  (∃ x, GetDevice d' dev = Ok x ∧ DevStatus x = DeviceStatusActive) →
  rep = mkReply 200 [] ∧
  ∃ a' acts bundle remote, claim_for (mkAPI d' b w) wnow dev claimant = Ok (a', acts, inr bundle) ∧
    verifyBundle bundle (mkPeer (AccountID device) dev (DevicePubKey device) server) = Ok remote ∧
    Ratchet.SignedPrekeyID remote = PkKeyID (UpSignedPrekey req) ∧
    Some (Ratchet.SignedPrekeyPub remote) = b64_decode (PkPubKey (UpSignedPrekey req)) ∧
    (Identified claimant = false → Ratchet.OneTimePrekeyPub remote = None ∧ DB a' = d' ∧ acts = []).
Proof.
  intros H Hd Hacc Hy Hnow Hdh Hot (x & Hx & Hact).
  destruct (upload_publishes _ _ _ _ _ _ _ _ H Hd Hacc Hy Hnow Hdh Hot) as [-> Hpub]. split; [done|].
  destruct (published_device _ _ _ _ _ Hpub Hx) as (k & iss & _ & Ek & Hlen & Ei & _).
  pose proof Hpub as (r & s & k0 & _ & _ & _ & _ & _ & _ & Hs & (k1 & i1 & c1 & _ & Ei1 & Hy1 & Ec1 & Hyc & _) & Ekey & Epk & _ & _ & Hotp).
  destruct (GetSignedPrekey d' dev) as [spk| |] eqn:Espk.
  2,3: unfold GetSignedPrekey in Espk; rewrite Hs, Ei1, Ec1, !parse_format in Espk by done; done.
  assert (SpKeyID spk = sp_key_id s ∧ SpPubKey spk = sp_pubkey s) as [Es1 Es2].
  { unfold GetSignedPrekey in Espk. rewrite Hs, Ei1, Ec1, !parse_format in Espk by done. simpl in Espk. by apply Ok_inj in Espk as <-. }
  unfold claim_for. cbn [DB broker wakes]. rewrite Hx, Hact, eqb_refl, Ek. unfold empty. rewrite Hlen. cbn [negb orb].
  change (32 =? 0) with false. cbv iota. rewrite Espk, Ei.
  destruct (if Identified claimant then ClaimOneTimePrekey d' dev else (d', None)) as [d2 claimed] eqn:Ecl.
  do 4 eexists. split; [done|]. split.
  { eapply bundle_accepted; try done. intros c ->. destruct (Identified claimant); [|done]. by eapply claimed_key_ok. }
  cbn [Ratchet.SignedPrekeyID Ratchet.SignedPrekeyPub Ratchet.OneTimePrekeyPub]. rewrite Es1, Es2. split_and!; [done|done|].
  intros Hid. rewrite Hid in Ecl. by injection Ecl as <- <-.
Qed.

(** ** Who may spend a one-time prekey *)

(** The request as the claim's authentication sees it, its body restored. *)
Definition with_body (r : Request) (body : bytes) : Request :=
  mkRequest (Method r) (URL_Path r) (URL_RawQuery r) (ReqHeader r) (Some body).

Lemma verifyFederatedSender_prekeys d f now r claim :
  one_time_prekeys (verifyFederatedSender d f now r claim).1 = one_time_prekeys d.
Proof.
  unfold verifyFederatedSender. destruct (verify_chain now r claim) as [[[[id pub] h] ts]| |]; [|done..].
  destruct (IsFederationBlocked f id); [done|]. unfold RecordNonce. by destruct (present _).
Qed.

(** Whoever is identified has proved it, in one of the two forms. *)
Lemma claimant_identified m d f now r b m' d' c :
  authenticateBundleClaimant m d f now r b = (m', d', Ok c) →
  one_time_prekeys d' = one_time_prekeys d ∧
  (Identified c = true →
   ∃ body, b = inr body ∧
     ((∃ id, authenticate m d now (with_body r (raw_bytes body)) = (m', Ok id) ∧ IdAccountID id = BcAccountID c)
      ∨ ∃ claim s, verifyFederatedSender d f now (with_body r (raw_bytes body)) claim = (d', Ok s) ∧
                   ClRequestBody claim = raw_bytes body ∧ ClBodyDigest claim = [] ∧ FsAccountID s = BcAccountID c)).
Proof.
  unfold authenticateBundleClaimant. destruct b as [e|body]; [done|]. cbv zeta. fold (with_body r (raw_bytes body)).
  set (r' := with_body r (raw_bytes body)).
  assert ((if negb (HasSignatureHeaders r') then (m, d, Ok anonymous)
     else match TryAuthenticate m d now r' with
          | (m0, Ok identity) => (m0, d, Ok (mkClaimant (IdAccountID identity) true))
          | (m0, Err _) => (m0, d, Err unauthorized)
          | (m0, Panic) => (m0, d, Panic)
          end) = (m', d', Ok c) →
     one_time_prekeys d' = one_time_prekeys d ∧
     (Identified c = true → ∃ id, authenticate m d now r' = (m', Ok id) ∧ IdAccountID id = BcAccountID c)) as Hlocal.
  { destruct (HasSignatureHeaders r'); simpl; [|by intros [= <- <- <-]].
    unfold TryAuthenticate. destruct (authenticate m d now r') as [m1 [id| |]]; try done. intros [= <- <- <-]. eauto. }
  destruct (0 <? zlen (trim_space (raw_bytes body))).
  - destruct (raw_decoded body) as [req|]; [|done]. destruct (_ || _).
    + destruct (federation_on f) as [u| |]; try done. destruct (verifyFederatedSender _ _ _ _ _) as [d1 [s| |]] eqn:Ev; try done.
      intros [= <- <- <-]. split.
      * pose proof (verifyFederatedSender_prekeys d f now r' (mkClaim (CrAccountID req) (CrRootPubKey req) (CrDeviceCert req) (raw_bytes body) [])) as E.
        by rewrite Ev in E.
      * intros _. exists body. split; [done|]. right. do 2 eexists. by split_and!.
    + intros [H1 H2]%Hlocal. split; [done|]. intros Hi. exists body. split; [done|]. left. by apply H2.
  - intros [H1 H2]%Hlocal. split; [done|]. intros Hi. exists body. split; [done|]. left. by apply H2.
Qed.

Lemma claim_for_anonymous a wnow dev c a' acts o :
  claim_for a wnow dev c = Ok (a', acts, o) → Identified c = false → DB a' = DB a ∧ wakes a' = wakes a ∧ acts = [].
Proof.
  intros H Hi. unfold claim_for in H. rewrite Hi in H. destruct a as [d b w]. simpl in *. repeat case_match; by simplify_eq/=.
Qed.

(** Only an identified claimant spends a one-time prekey or causes a wake.  When a claim
    changes the pool of one-time prekeys, or wakes a device, then the request was
    authenticated: signed by a registered device of this server, or carrying an identity
    chain that verified.  Credentials that do not verify are refused, not ignored. *)
Theorem prekey_only_identified m a f now wnow r dev b m' a' acts o :
  handleClaimPrekeyBundle m a f now wnow r dev b = Ok (m', a', acts, o) →
  one_time_prekeys (DB a') ≠ one_time_prekeys (DB a) ∨ wakes a' ≠ wakes a ∨ acts ≠ [] →
  ∃ body, b = inr body ∧
    ((∃ id, (authenticate m (DB a) now (with_body r (raw_bytes body))).2 = Ok id)
     ∨ ∃ claim s, (verifyFederatedSender (DB a) f now (with_body r (raw_bytes body)) claim).2 = Ok s
                  ∧ ClRequestBody claim = raw_bytes body).
Proof.
  intros H Hch. unfold handleClaimPrekeyBundle in H.
  destruct (authenticateBundleClaimant m (DB a) f now r b) as [[m1 d1] [c|e|]] eqn:Ea; [| |done].
  - apply bind_Ok in H as ([[a1 acts1] o1] & Hc & H). apply Ok_inj in H. injection H as <- <- <- <-.
    destruct (claimant_identified _ _ _ _ _ _ _ _ _ Ea) as [E1 Hid]. destruct (Identified c) eqn:Ei.
    + destruct (Hid eq_refl) as (body & -> & [(id & Hau & _)|(claim & s & Hv & Hb & _)]); exists body; (split; [done|]).
      * left. exists id. by rewrite Hau.
      * right. exists claim, s. by rewrite Hv.
    + exfalso. destruct (claim_for_anonymous _ _ _ _ _ _ _ Hc Ei) as (Ed & Ew & Eac). simpl in *. rewrite Ed, Ew, Eac, E1 in Hch. tauto.
  - exfalso. apply Ok_inj in H. injection H as <- <- <- <-. simpl in *. destruct Hch as [Hch|[?|?]]; [|done..]. apply Hch.
    clear Hch. unfold authenticateBundleClaimant in Ea. destruct b as [e'|body]; [by injection Ea as <- <-|].
    cbv zeta in Ea. unfold TryAuthenticate in Ea. repeat case_match; try by simplify_eq/=.
    all: match goal with E : verifyFederatedSender ?d ?f ?n ?r ?c = _ |- _ =>
           pose proof (verifyFederatedSender_prekeys d f n r c) as Hp; rewrite E in Hp; by simplify_eq/= end.
Qed.
End correct.
