(* ===== verification/Accounts.v ===== *)
(** * Accounts, devices, recovery and administration

    The handlers of internal/api/accounts.go, bootstrap.go, devices.go, recover.go,
    invites.go and admin.go, over the tables of [Store] and the settings of [Federation].
    A handler takes its decoded body ([None]: malformed JSON) and the identity the
    authentication middleware put into the context. *)

From S2P Require Import Prelude GoStr GoTime GoTimeParse Sha256 Humancode Crypto Base64 Address DeviceCert HttpSig WakeCoalesce Broker Store StoreIntegrity StoreQueue Auth Delivery Federation Prekeys.

(** ** dto.go *)

Record registerAccountRequest := mkRegister {
  RgRootPubKey : bytes; RgDeviceID : bytes; RgDevicePubKey : bytes; RgIssuedAt : bytes; RgSignature : bytes;
  RgInviteCode : option bytes;
}.
Record bootstrapClaimRequest := mkBootstrap {
  BsSetupToken : bytes; BsRootPubKey : bytes; BsDeviceID : bytes; BsDevicePubKey : bytes; BsIssuedAt : bytes; BsSignature : bytes;
}.
Record addDeviceRequest := mkAddDevice {
  AdAccountID : bytes; AdDeviceID : bytes; AdDevicePubKey : bytes; AdIssuedAt : bytes; AdSignature : bytes;
}.
Record recoverAccountRequest := mkRecover { RvDeviceID : bytes; RvDevicePubKey : bytes; RvIssuedAt : bytes; RvSignature : bytes }.
Record revokeDeviceRequest := mkRevoke { RkAccountID : bytes; RkDeviceID : bytes; RkRevokedAt : bytes; RkSignature : bytes }.
Record setPushEndpointRequest := mkPushReq { PqEndpoint : option bytes; PqP256dh : option bytes; PqAuth : option bytes }.
Record setPushTargetRequest := mkTargetReq { TqPlatform : option bytes; TqToken : option bytes }.

Record deviceResponse := mkDeviceResponse {
  DrDeviceID : bytes; DrDevicePubKey : bytes; DrIssuedAt : bytes; DrSignature : bytes; DrStatus : bytes; DrRevokedAt : option bytes;
}.
Record accountResponse := mkAccountResponse { ArID : bytes; ArRootPubKey : bytes; ArDevices : list deviceResponse }.
Definition deviceResponseFrom (d : Device) : deviceResponse :=
  mkDeviceResponse (DeviceID d) (b64_encode (DevicePubKey d)) (rfc3339 (CertIssuedAt d)) (b64_encode (CertSignature d))
    (DevStatus d) (rfc3339 <$> RevokedAt d).
Definition accountResponseFrom (id rootPubKey : bytes) (devices : list Device) : accountResponse :=
  mkAccountResponse id (b64_encode rootPubKey) (deviceResponseFrom <$> devices).

(** Statements between [Begin] and [Commit]; a failure rolls all of them back. *)
Definition in_tx {A} (m : handler A) : handler A := λ d,
  match m d with (d', Ok a) => (d', Ok a) | (_, Err e) => (d, Err e) | (_, Panic) => (d, Panic) end.

Definition conflict (code : string) : reply := mkReply 409 (lit code).
Definition forbidden : reply := mkReply 403 (lit "forbidden").

(** The certificate fields as stored, and a new active device made of them. *)
Record enrolment := mkEnrolment { EnDeviceID : bytes; EnDevicePub : bytes; EnIssuedAt : Time; EnSignature : bytes }.
Definition new_device (accountID : bytes) (e : enrolment) (now : Time) : Device :=
  mkDevice (EnDeviceID e) accountID (EnDevicePub e) (EnIssuedAt e) (EnSignature e) DeviceStatusActive None now [] None [] None None.

Definition create_account_error (e : StoreError) : reply :=
  match e with ErrIDPrefixConflict => conflict "id_prefix_taken" | ErrConflict => conflict "account_exists" | _ => internal end.
Definition create_device_error (e : StoreError) : reply :=
  match e with ErrConflict => conflict "device_exists" | _ => internal end.

Section handlers.
Context {UC : UnicodeCase} {ED : Ed25519}.

(** ** accounts.go *)

Definition verify_enrolment (accountID : bytes) (e : enrolment) (rootPub : bytes) : res reply () :=
  or_reply (DeviceCertificate.Verify (DeviceCertificate.mk accountID (EnDeviceID e) (EnDevicePub e) (EnIssuedAt e) (EnSignature e)) rootPub)
    (bad "invalid_certificate").

(** The checks both ways of registering begin with: the account id and root key, and
    the first device. *)
Definition decode_registration (rootPubKey deviceID devicePubKey issuedAt signature : bytes) : res reply (bytes * bytes * enrolment) :=
  rootPub ← from_option (decodeBase64Key rootPubKey ed25519_PublicKeySize) (bad "invalid_request");
  devicePub ← from_option (decodeBase64Key devicePubKey ed25519_PublicKeySize) (bad "invalid_request");
  issued ← from_option (time_parse issuedAt) (bad "invalid_request");
  sig ← from_option (decodeBase64Key signature ed25519_SignatureSize) (bad "invalid_request");
  accountID ← or_reply (Address.DeriveID rootPub) (bad "invalid_request");
  let e := mkEnrolment deviceID devicePub issued sig in
  _ ← verify_enrolment accountID e rootPub;
  Ok (accountID, rootPub, e).

Definition PolicyOpen : bytes := lit "open".
Definition PolicyInvite : bytes := lit "invite".
Definition PolicyClosed : bytes := lit "closed".

Definition new_account (id rootPub role : bytes) (now : Time) : Account :=
  mkAccount id rootPub CurrentVersion AccountStatusActive role now.
Definition consume_error (e : StoreError) : reply :=
  match e with
  | ErrNotFound => mkReply 404 (lit "invite_not_found")
  | ErrInviteExpired => mkReply 410 (lit "invite_expired")
  | ErrInviteAlreadyUsed => mkReply 410 (lit "invite_used")
  | _ => internal
  end.

Definition handleRegisterAccount (f : fed) (now : Time) (b : option registerAccountRequest) : handler accountResponse :=
  req ← hlift (from_option b (bad "invalid_request"));
  x ← hlift (decode_registration (RgRootPubKey req) (RgDeviceID req) (RgDevicePubKey req) (RgIssuedAt req) (RgSignature req));
  let '(accountID, rootPub, e) := x in
  policy ← hlift (or_reply (GetRegistrationPolicy f) internal);
  _ ← hlift (check (negb (policy =?b PolicyClosed)) (mkReply 403 (lit "registration_closed")));
  _ ← hlift (check (negb (policy =?b PolicyInvite) || negb (empty (default [] (RgInviteCode req)))) (mkReply 403 (lit "invite_required")));
  let device := new_device accountID e now in
  _ ← in_tx (
    _ ← stmt (λ d, CreateAccount d (new_account accountID rootPub RoleUser now)) create_account_error;
    _ ← stmt (λ d, CreateDevice d device) create_device_error;
    if policy =?b PolicyInvite
    then stmt (λ d, ConsumeInviteCode d (default [] (RgInviteCode req)) accountID now) consume_error
    else mret ());
  mret (accountResponseFrom accountID rootPub [device]).

Definition handleGetAccount (d : db) (id : bytes) : res reply accountResponse :=
  let stripped := StripSeparators id in
  acc ← (if zlen stripped =? PrefixLength then
           _ ← check (ValidCharset stripped) (bad "invalid_request");
           match GetAccountByPrefix d stripped with Ok a => Ok a | Err e => Err (not_found_or "not_found" e) | Panic => Panic end
         else
           normalized ← or_reply (Address.Normalize id) (bad "invalid_request");
           match GetAccount d normalized with Ok a => Ok a | Err e => Err (not_found_or "not_found" e) | Panic => Panic end);
  devices ← or_reply (ListDevicesByAccount d (ID acc)) internal;
  Ok (accountResponseFrom (ID acc) (RootPubKey acc) devices).

(** ** admin.go *)

Definition requireAdminOrModerator (identity : Identity) : res reply () :=
  check ((IdRole identity =?b RoleAdmin) || (IdRole identity =?b RoleModerator)) forbidden.
Definition requireAdmin (identity : Identity) : res reply () := check (IdRole identity =?b RoleAdmin) forbidden.

Definition wouldRemoveLastActiveAdmin (d : db) (target : Account) : bool :=
  if negb (AccRole target =?b RoleAdmin) || negb (Status target =?b AccountStatusActive) then false
  else CountActiveAdmins d <=? 1.

(** The three changes an account can see, decided on first and then written: the handlers
    run the two without a transaction. *)
Inductive account_change := ChangeRole (id role : bytes) | ChangeStatus (id status : bytes) | ChangeDelete (id : bytes).
Definition write_change (c : account_change) : handler () :=
  match c with
  | ChangeRole id role => stmt (λ d, SetAccountRole d id role) (λ _, internal)
  | ChangeStatus id status => stmt (λ d, SetAccountStatus d id status) (λ _, internal)
  | ChangeDelete id => stmt (λ d, DeleteAccount d id) (λ _, internal)
  end.
Definition get_target (d : db) (id : bytes) : res reply Account :=
  match GetAccount d id with Ok a => Ok a | Err e => Err (not_found_or "not_found" e) | Panic => Panic end.

Definition decide_role (identity : Identity) (id : bytes) (b : option bytes) (d : db) : res reply account_change :=
  _ ← requireAdmin identity;
  req ← from_option b (bad "invalid_request");
  let '(role, ok) := ParseRole req in
  _ ← check ok (bad "invalid_role");
  target ← get_target d id;
  _ ← check ((role =?b RoleAdmin) || negb (wouldRemoveLastActiveAdmin d target)) (conflict "last_admin");
  Ok (ChangeRole id role).
Definition decide_status (identity : Identity) (id status : bytes) (d : db) : res reply account_change :=
  _ ← requireAdminOrModerator identity;
  target ← get_target d id;
  _ ← check ((IdRole identity =?b RoleAdmin) || (AccRole target =?b RoleUser)) forbidden;
  _ ← check ((status =?b AccountStatusActive) || negb (wouldRemoveLastActiveAdmin d target)) (conflict "last_admin");
  Ok (ChangeStatus id status).
Definition decide_delete (identity : Identity) (id : bytes) (d : db) : res reply account_change :=
  _ ← requireAdmin identity;
  target ← get_target d id;
  _ ← check (negb (wouldRemoveLastActiveAdmin d target)) (conflict "last_admin");
  Ok (ChangeDelete id).
Definition decide_delete_own (identity : Identity) (id : bytes) (d : db) : res reply account_change :=
  _ ← check (id =?b IdAccountID identity) forbidden;
  target ← get_target d (IdAccountID identity);
  _ ← check (negb (wouldRemoveLastActiveAdmin d target)) (conflict "last_admin");
  Ok (ChangeDelete (IdAccountID identity)).

Definition decide_then_write (decide : db → res reply account_change) : handler reply := λ d,
  match decide d with
  | Ok c => (_ ← write_change c; mret (mkReply 200 [])) d
  | Err e => (d, Err e)
  | Panic => (d, Panic)
  end.
Definition handleSetAccountRole (identity : Identity) (id : bytes) (b : option bytes) : handler reply := decide_then_write (decide_role identity id b).
Definition setAccountStatus (identity : Identity) (id status : bytes) : handler reply := decide_then_write (decide_status identity id status).
Definition handleBlockAccount (identity : Identity) (id : bytes) : handler reply := setAccountStatus identity id AccountStatusDisabled.
Definition handleUnblockAccount (identity : Identity) (id : bytes) : handler reply := setAccountStatus identity id AccountStatusActive.
Definition handleDeleteAccount (identity : Identity) (id : bytes) : handler reply := decide_then_write (decide_delete identity id).
Definition handleDeleteOwnAccount (identity : Identity) (id : bytes) : handler reply := decide_then_write (decide_delete_own identity id).

Definition handleGetRegistrationPolicy (f : fed) (identity : Identity) : res reply bytes :=
  _ ← requireAdminOrModerator identity; or_reply (GetRegistrationPolicy f) internal.
Definition handleSetRegistrationPolicy (f : fed) (identity : Identity) (b : option bytes) : fed * res reply bytes :=
  match (_ ← requireAdmin identity; policy ← from_option b (bad "invalid_request");
         _ ← check ((policy =?b PolicyOpen) || (policy =?b PolicyInvite) || (policy =?b PolicyClosed)) (bad "invalid_policy");
         Ok policy) with
  | Ok policy => (SetRegistrationPolicy f policy, Ok policy)
  | Err e => (f, Err e)
  | Panic => (f, Panic)
  end.
Definition handleGetFederationEnabled (f : fed) (identity : Identity) : res reply bool :=
  _ ← requireAdminOrModerator identity; or_reply (GetFederationEnabled f) internal.
Definition handleSetFederationEnabled (f : fed) (identity : Identity) (b : option bool) : fed * res reply bool :=
  match (_ ← requireAdmin identity; from_option b (bad "invalid_request")) with
  | Ok enabled => (SetFederationEnabled f enabled, Ok enabled)
  | Err e => (f, Err e)
  | Panic => (f, Panic)
  end.

(** ** bootstrap.go *)

Definition invalid_token : reply := mkReply 401 (lit "invalid_token").
(** A wrong token is recorded after the rollback, so that the count survives it. *)
Definition handleBootstrapClaim (now : Time) (b : option bootstrapClaimRequest) : handler accountResponse := λ d,
  match (req ← from_option b (bad "invalid_request");
         x ← decode_registration (BsRootPubKey req) (BsDeviceID req) (BsDevicePubKey req) (BsIssuedAt req) (BsSignature req);
         Ok (BsSetupToken req, x)) with
  | Ok (token, (accountID, rootPub, e)) =>
    let device := new_device accountID e now in
    match CreateAccount d (new_account accountID rootPub RoleAdmin now) with
    | (d1, Ok _) =>
      match CreateDevice d1 device with
      | (d2, Ok _) =>
        match ClaimSetupToken d2 token accountID now with
        | (d3, Ok _) => (d3, Ok (accountResponseFrom accountID rootPub [device]))
        | (_, Err ErrInvalidToken) => (RecordFailedSetupTokenAttempt d, Err invalid_token)
        | (_, Err _) => (d, Err internal)
        | (_, Panic) => (d, Panic)
        end
      | (_, Err e) => (d, Err (create_device_error e))
      | (_, Panic) => (d, Panic)
      end
    | (_, Err e) => (d, Err (create_account_error e))
    | (_, Panic) => (d, Panic)
    end
  | Err e => (d, Err e)
  | Panic => (d, Panic)
  end.

(** ** devices.go *)

Definition handleAddDevice (now : Time) (identity : Identity) (b : option addDeviceRequest) : handler deviceResponse :=
  req ← hlift (from_option b (bad "invalid_request"));
  _ ← hlift (check (AdAccountID req =?b IdAccountID identity) forbidden);
  devicePub ← hlift (from_option (decodeBase64Key (AdDevicePubKey req) ed25519_PublicKeySize) (bad "invalid_request"));
  issuedAt ← hlift (from_option (time_parse (AdIssuedAt req)) (bad "invalid_request"));
  sig ← hlift (from_option (decodeBase64Key (AdSignature req) ed25519_SignatureSize) (bad "invalid_request"));
  account ← query (λ d, GetAccount d (AdAccountID req)) (not_found_or "not_found");
  let e := mkEnrolment (AdDeviceID req) devicePub issuedAt sig in
  _ ← hlift (verify_enrolment (AdAccountID req) e (RootPubKey account));
  let device := new_device (AdAccountID req) e now in
  _ ← stmt (λ d, CreateDevice d device) create_device_error;
  mret (deviceResponseFrom device).

Definition handleRevokeDevice (identity : Identity) (pathDeviceID : bytes) (b : option revokeDeviceRequest) : handler reply :=
  req ← hlift (from_option b (bad "invalid_request"));
  _ ← hlift (check (RkDeviceID req =?b pathDeviceID) (bad "invalid_request"));
  _ ← hlift (check (RkAccountID req =?b IdAccountID identity) forbidden);
  revokedAt ← hlift (from_option (time_parse (RkRevokedAt req)) (bad "invalid_request"));
  sig ← hlift (from_option (decodeBase64Key (RkSignature req) ed25519_SignatureSize) (bad "invalid_request"));
  account ← query (λ d, GetAccount d (RkAccountID req)) (not_found_or "not_found");
  _ ← hlift (or_reply (DeviceRevocation.Verify (DeviceRevocation.mk (RkAccountID req) (RkDeviceID req) revokedAt sig)
        (RootPubKey account)) (bad "invalid_revocation"));
  _ ← stmt (λ d, RevokeDevice d (IdAccountID identity) (RkDeviceID req) revokedAt) (not_found_or "not_found");
  mret (mkReply 200 []).

Definition all_set {A} (l : list (option A)) : bool := forallb present l.
Definition none_set {A} (l : list (option A)) : bool := forallb (λ o, negb (present o)) l.

(** [https_host s]: [url.Parse] succeeds with scheme "https" and a host. *)
Definition handleSetPushEndpoint (https_host : bytes → bool) (identity : Identity) (deviceID : bytes) (b : option setPushEndpointRequest)
    : handler reply :=
  _ ← hlift (check (IdDeviceID identity =?b deviceID) forbidden);
  req ← hlift (from_option b (bad "invalid_request"));
  let fields := [PqEndpoint req; PqP256dh req; PqAuth req] in
  _ ← hlift (check (none_set fields || all_set fields) (bad "invalid_request"));
  sub ← hlift (match PqEndpoint req, PqP256dh req, PqAuth req with
               | Some ep, Some p, Some au =>
                 _ ← check (https_host ep) (bad "invalid_request");
                 _ ← check (negb (empty p || empty au)) (bad "invalid_request");
                 Ok (Some (mkPush ep p au))
               | _, _, _ => Ok None
               end);
  _ ← stmt (λ d, SetDevicePushSubscription d deviceID sub) (not_found_or "not_found");
  mret (mkReply 200 []).

Definition PushPlatformFCM : bytes := lit "fcm".
Definition PushPlatformAPNS : bytes := lit "apns".
Definition handleSetPushTarget (identity : Identity) (deviceID : bytes) (b : option setPushTargetRequest) : handler reply :=
  _ ← hlift (check (IdDeviceID identity =?b deviceID) forbidden);
  req ← hlift (from_option b (bad "invalid_request"));
  let fields := [TqPlatform req; TqToken req] in
  _ ← hlift (check (none_set fields || all_set fields) (bad "invalid_request"));
  target ← hlift (match TqPlatform req, TqToken req with
                  | Some p, Some t =>
                    _ ← check ((p =?b PushPlatformFCM) || (p =?b PushPlatformAPNS)) (bad "invalid_request");
                    _ ← check (negb (empty t)) (bad "invalid_request");
                    Ok (Some (mkTarget p t))
                  | _, _ => Ok None
                  end);
  _ ← stmt (λ d, SetDevicePushTarget d deviceID target) (not_found_or "not_found");
  mret (mkReply 200 []).

(** ** recover.go *)

Definition verifyRootSignature (now : Time) (r : Request) (body : bytes) (account : Account) (d : db) : db * bool :=
  match (headers ← or_reply (ParseRequestHeaders r) unauthorized;
         _ ← check (KeyID headers =?b b64_encode (RootPubKey account)) unauthorized;
         ts ← or_reply (ParseTimestamp (Timestamp headers)) unauthorized;
         _ ← check (WithinSkew ts now MaxClockSkew) unauthorized;
         _ ← or_reply (HttpSig.Verify (CanonicalStringFromRequest r headers body) (Signature headers) (RootPubKey account)) unauthorized;
         Ok (headers, ts)) with
  | Ok (headers, ts) => RecordNonce d (KeyID headers) (Nonce headers) ts (time_add ts MaxClockSkew)
  | _ => (d, false)
  end.

(** The devices that were there before the new one, revoked one by one; one that is gone
    by now is passed over. *)
Fixpoint revoke_others (accountID newDevice : bytes) (now : Time) (existing : list Device) : handler () :=
  match existing with
  | [] => mret ()
  | x :: rest =>
    _ ← (if (DeviceID x =?b newDevice) || negb (DevStatus x =?b DeviceStatusActive) then mret ()
         else λ d, match RevokeDevice d accountID (DeviceID x) now with
                   | (d, Ok _) | (d, Err ErrNotFound) => (d, Ok ())
                   | (d, Err _) => (d, Err internal)
                   | (d, Panic) => (d, Panic)
                   end);
    revoke_others accountID newDevice now rest
  end.

Definition handleRecoverAccount (now : Time) (r : Request) (pathID : bytes) (b : reply + rawBody recoverAccountRequest)
    : handler accountResponse :=
  id ← hlift (or_reply (Address.Normalize pathID) (bad "invalid_request"));
  account ← query (λ d, GetAccount d id) (not_found_or "not_found");
  body ← hlift (match b with inl e => Err e | inr x => Ok x end);
  req ← hlift (from_option (raw_decoded body) (bad "invalid_request"));
  _ ← hlift (check (negb (empty (RvDeviceID req) || empty (RvDevicePubKey req) || empty (RvIssuedAt req) || empty (RvSignature req)))
        (bad "invalid_request"));
  ok ← (λ d, let '(d, ok) := verifyRootSignature now r (raw_bytes body) account d in (d, Ok ok));
  _ ← hlift (check ok unauthorized);
  _ ← hlift (check (Status account =?b AccountStatusActive) forbidden);
  devicePub ← hlift (from_option (decodeBase64Key (RvDevicePubKey req) ed25519_PublicKeySize) (bad "invalid_request"));
  issuedAt ← hlift (from_option (time_parse (RvIssuedAt req)) (bad "invalid_request"));
  sig ← hlift (from_option (decodeBase64Key (RvSignature req) ed25519_SignatureSize) (bad "invalid_request"));
  let e := mkEnrolment (RvDeviceID req) devicePub issuedAt sig in
  _ ← hlift (verify_enrolment (ID account) e (RootPubKey account));
  _ ← in_tx (
    existing ← query (λ d, ListDevicesByAccount d (ID account)) (λ _, internal);
    _ ← stmt (λ d, CreateDevice d (new_device (ID account) e now)) create_device_error;
    revoke_others (ID account) (RvDeviceID req) now existing);
  devices ← query (λ d, ListDevicesByAccount d (ID account)) (λ _, internal);
  mret (accountResponseFrom (ID account) (RootPubKey account) devices).

(** ** invites.go *)

(** An empty body is the zero request. *)
Inductive invite_body := InviteEmpty | InviteBad | InviteBody (expires_at : option bytes).
Definition handleCreateInvite {CA : Calendar} (rand_Read : Z → option bytes) (InviteExpiryDays : Z) (now : Time) (identity : Identity)
    (b : invite_body) : handler (bytes * option bytes) :=
  _ ← hlift (requireAdminOrModerator identity);
  req ← hlift (match b with InviteBad => Err (bad "invalid_request") | InviteEmpty => Ok None | InviteBody e => Ok e end);
  expiresAt ← hlift (if negb (empty (default [] req))
                     then t ← from_option (time_parse (default [] req)) (bad "invalid_request"); Ok (Some t)
                     else Ok (if 0 <? InviteExpiryDays then Some (add_days now InviteExpiryDays) else None));
  code ← stmt (λ d, CreateInviteCode rand_Read d (IdAccountID identity) expiresAt now) (λ _, internal);
  mret (code, rfc3339 <$> expiresAt).
End handlers.
