(* ===== verification/Reports.v ===== *)
(** * Abuse reports on the server

    internal/store/reports.go: the table with one row per reporter and reported account.
    internal/api/reports.go: filing and withdrawing a report from here and from another
    server, the moderation queue, and resolving a case.

    [json.Marshal] of the kept claims is an argument; it fails for no claim that was
    decoded from JSON. *)

From S2P Require Import Prelude GoStr GoTime GoTimeParse Sha256 Humancode Crypto Base64 Bech32m Address Config DeviceCert ProfileClaim HttpSig WakeCoalesce Broker Store StoreIntegrity StoreCorrect StoreQueue Auth AuthCorrect Delivery Federation Prekeys PrekeysCorrect Accounts.

Module Reports.

(** ** internal/store/reports.go *)

Definition ReportOpen : bytes := lit "open".
Definition ReportActioned : bytes := lit "actioned".
Definition ReportDismissed : bytes := lit "dismissed".
Definition ReportAbusive : bytes := lit "abusive".
Definition ReportSpam : bytes := lit "spam".
Definition ReportHarassment : bytes := lit "harassment".
Definition ReportFraud : bytes := lit "fraud".
Definition ReportOther : bytes := lit "other".
Definition ValidReportCategory (c : bytes) : bool := bool_decide (c ∈ [ReportSpam; ReportHarassment; ReportFraud; ReportOther]).
Definition ValidReportOutcome (o : bytes) : bool := bool_decide (o ∈ [ReportActioned; ReportDismissed; ReportAbusive]).

Record Report := mkReport {
  RpID : Z; ReportedID : bytes; ReportedServer : bytes; ReporterID : bytes; ReporterServer : bytes;
  Category : bytes; Evidence : option bytes; EvidenceVerified : bool; State : bytes;
  RpCreatedAt : Time; RpUpdatedAt : Time; ResolvedBy : option bytes; ResolvedAt : option Time;
}.

(** The columns of the unique index. *)
Definition pair_of (x : report_row) : bytes * bytes * (bytes * bytes) :=
  (rp_reporter_id x, rp_reporter_server x, (rp_reported_id x, rp_reported_server x)).
Definition report_pair (r : Report) : bytes * bytes * (bytes * bytes) :=
  (ReporterID r, ReporterServer r, (ReportedID r, ReportedServer r)).
(** The id SQLite gives a row of an [INTEGER PRIMARY KEY]: one above the largest in the table. *)
Definition next_id (l : list report_row) : Z := 1 + foldr Z.max 0 (rp_id <$> l).

Definition reopened (r : Report) (now : Time) (x : report_row) : report_row :=
  mkReportRow (rp_id x) (rp_reported_id x) (rp_reported_server x) (rp_reporter_id x) (rp_reporter_server x)
    (Category r) (Evidence r) (EvidenceVerified r) ReportOpen (rp_created_at x) (formatTime now) None None.
Definition new_row (id : Z) (r : Report) (now : Time) : report_row :=
  mkReportRow id (ReportedID r) (ReportedServer r) (ReporterID r) (ReporterServer r)
    (Category r) (Evidence r) (EvidenceVerified r) ReportOpen (formatTime now) (formatTime now) None None.
(** [INSERT ... ON CONFLICT ... DO UPDATE] *)
Definition SaveReport (d : db) (r : Report) (now : Time) : outcome () :=
  (set_reports d
     (if bool_decide (report_pair r ∈ pair_of <$> reports d)
      then (λ x, if bool_decide (pair_of x = report_pair r) then reopened r now x else x) <$> reports d
      else reports d ++ [new_row (next_id (reports d)) r now]), Ok ()).
Definition WithdrawReport (d : db) (reporterID reporterServer reportedID reportedServer : bytes) : outcome () :=
  let key := (reporterID, reporterServer, (reportedID, reportedServer)) in
  if bool_decide (key ∈ pair_of <$> reports d) then (set_reports d (filter (λ x, pair_of x ≠ key) (reports d)), Ok ())
  else (d, Err ErrNotFound).
Definition open_by (reporterID reporterServer : bytes) (x : report_row) : Prop :=
  rp_reporter_id x = reporterID ∧ rp_reporter_server x = reporterServer ∧ rp_state x = ReportOpen.
#[export] Instance open_by_dec i s x : Decision (open_by i s x).
Proof. unfold open_by. apply _. Defined.
Definition CountOpenReportsBy (d : db) (reporterID reporterServer : bytes) : Z :=
  zlen (filter (open_by reporterID reporterServer) (reports d)).

Definition resolved (outcome resolvedBy : bytes) (now : Time) (x : report_row) : report_row :=
  mkReportRow (rp_id x) (rp_reported_id x) (rp_reported_server x) (rp_reporter_id x) (rp_reporter_server x)
    (rp_category x) (rp_evidence x) (rp_verified x) outcome (rp_created_at x) (formatTime now) (Some resolvedBy) (Some (formatTime now)).
Definition ResolveReport (d : db) (id : Z) (verdict resolvedBy : bytes) (now : Time) : outcome () :=
  if bool_decide (id ∈ rp_id <$> reports d)
  then (set_reports d ((λ x, if rp_id x =? id then resolved verdict resolvedBy now x else x) <$> reports d), Ok ())
  else (d, Err ErrNotFound).

Definition scanReport (x : report_row) : res StoreError Report :=
  createdAt ← from_option (parseTime (rp_created_at x)) (ErrStore "store: parsing report created_at");
  updatedAt ← from_option (parseTime (rp_updated_at x)) (ErrStore "store: parsing report updated_at");
  resolvedAt ← match rp_resolved_at x with
               | None => Ok None
               | Some s => t ← from_option (parseTime s) (ErrStore "store: parsing report resolved_at"); Ok (Some t)
               end;
  Ok (mkReport (rp_id x) (rp_reported_id x) (rp_reported_server x) (rp_reporter_id x) (rp_reporter_server x)
        (rp_category x) (rp_evidence x) (rp_verified x) (rp_state x) createdAt updatedAt (rp_resolved_by x) resolvedAt).
Definition scanReports (l : list report_row) : res StoreError (list Report) := scan_all scanReport l.
Definition GetReport (d : db) (id : Z) : res StoreError Report :=
  l ← scanReports (filter (λ x, rp_id x = id) (reports d));
  match l with [] => Err ErrNotFound | r :: _ => Ok r end.

(** The accounts a moderator does not moderate. *)
Definition staff_row (d : db) (id server : bytes) : bool :=
  (server =?b []) && match accounts d !! id with Some a => (ac_role a =?b RoleModerator) || (ac_role a =?b RoleAdmin) | None => false end.
(** [ORDER BY created_at DESC]; among equal times the order of the table. *)
Definition newer (x y : report_row) : Prop := bytes_le (rp_created_at y) (rp_created_at x).
#[export] Instance newer_dec x y : Decision (newer x y).
Proof. unfold newer. apply _. Defined.
Definition ListReports (d : db) (openOnly staffVisible : bool) : res StoreError (list Report) :=
  scanReports (merge_sort newer (filter (λ x,
    (openOnly = true → rp_state x = ReportOpen) ∧ (staffVisible = false → staff_row d (rp_reported_id x) (rp_reported_server x) = false)) (reports d))).

Record ReportCounts := mkCounts { Local : Z; RcFederated : Z; Filed : Z; Abusive : Z }.
(** One group of the first query, and one of the second; the counters of an account are read from both. *)
Definition about (id : bytes) (local : bool) (l : list report_row) : Z :=
  zlen (filter (λ x, rp_reported_id x = id ∧ rp_reported_server x = [] ∧ rp_state x = ReportOpen ∧ (rp_reporter_server x =?b []) = local) l).
Definition filed (id state : bytes) (l : list report_row) : Z :=
  zlen (filter (λ x, rp_reporter_id x = id ∧ rp_reporter_server x = [] ∧ rp_state x = state) l).
Definition counted (x : report_row) : list bytes :=
  (if (rp_reported_server x =?b []) && (rp_state x =?b ReportOpen) then [rp_reported_id x] else []) ++
  (if (rp_reporter_server x =?b []) && ((rp_state x =?b ReportOpen) || (rp_state x =?b ReportAbusive)) then [rp_reporter_id x] else []).
Definition ReportCountsByAccount (d : db) : gmap bytes ReportCounts :=
  let l := reports d in
  list_to_map ((λ id, (id, mkCounts (about id true l) (about id false l) (filed id ReportOpen l) (filed id ReportAbusive l))) <$> (l ≫= counted)).

Definition PurgeReportsBefore (d : db) (cutoff : Time) : db * Z :=
  let old := λ x, bytes_ltb (rp_created_at x) (formatTime cutoff) in
  (set_reports d (filter (λ x, old x = false) (reports d)), zlen (filter (λ x, old x = true) (reports d))).

(** ** internal/api/reports.go *)

Definition maxOpenReportsPerReporter : Z := 20.
Definition maxEvidenceClaims : Z := 10.

Record reportRequest := mkReportRequest { RqReported : bytes; RqCategory : bytes; RqEvidence : list Claim.t }.
Record federatedReportRequest := mkFederatedRequest {
  RqReport : reportRequest; FqSenderAccountID : bytes; FqSenderServer : bytes; FqSenderRootPubKey : bytes;
  FqSenderDeviceCert : federationDeviceCertDTO;
}.
Record reportResponse := mkReportResponse {
  RsID : Z; RsReported : bytes; RsReporter : bytes; RsCategory : bytes; RsState : bytes; RsEvidence : option bytes;
  RsEvidenceVerified : bool; RsCreatedAt : bytes; RsUpdatedAt : bytes; RsResolvedBy : option bytes; RsResolvedAt : option bytes;
}.
Definition reportResponseFrom (r : Report) : reportResponse :=
  mkReportResponse (RpID r) (Address_String (mkAddress (ReportedID r) (ReportedServer r)))
    (Address_String (mkAddress (ReporterID r) (ReporterServer r))) (Category r) (State r) (Evidence r) (EvidenceVerified r)
    (rfc3339 (utc (RpCreatedAt r))) (rfc3339 (utc (RpUpdatedAt r))) (ResolvedBy r) ((λ t, rfc3339 (utc t)) <$> ResolvedAt r).

(** [strconv.ParseInt(s, 10, 64)] *)
Definition digit (c : Z) : bool := in_range 48 57 c.
Definition parse_int64 (s : bytes) : option Z :=
  let '(neg, ds) := match s with 45 :: ds => (true, ds) | 43 :: ds => (false, ds) | _ => (false, s) end in
  if (ds =?b []) || negb (forallb digit ds) then None
  else let n := foldl (λ acc c, 10 * acc + (c - 48)) 0 ds in
       let n := if (neg : bool) then - n else n in
       if in_range (- 2 ^ 63) (2 ^ 63 - 1) n then Some n else None.


Section api.
Context {UC : UnicodeCase} {ED : Ed25519} {NU : NetURL}.
Variables (cfg : ServerConfig.t) (json_claims : list Claim.t → bytes).

Definition created : reply := mkReply 201 [].
Definition done_ok : reply := mkReply 200 [].

Definition reportsEnabled : res reply () := check (ServerConfig.ReportsEnabled cfg) (mkReply 404 (lit "reports_disabled")).

(** The claimed home server, which may not be empty. *)
Definition federatedReporter (claimed : bytes) : res reply bytes :=
  let server := NormalizeServer claimed in
  _ ← check (negb (server =?b [])) (bad "invalid_request");
  _ ← check (match url_parse server with Some u => negb (Host u =?b []) | None => false end) (bad "invalid_request");
  Ok server.

(** [kept = kept[:0]] shares its array with [claims]: the loop reads entry [i] of the array it
    overwrites at [n].  Keys of the map are device ids. *)
Fixpoint keep_claims (steps i n : nat) (keys : gmap bytes bytes) (accountID : bytes) (arr : list Claim.t) : res reply (list Claim.t) :=
  match steps with
  | O => Ok (take n arr)
  | S steps =>
    match arr !! i with
    | None => Panic
    | Some c =>
      match keys !! Claim.DeviceID c with
      | None => keep_claims steps (S i) n keys accountID arr
      | Some key =>
        match Claim.Verify c accountID key with
        | Panic => Panic
        | Err _ => keep_claims steps (S i) n keys accountID arr
        | Ok _ => keep_claims steps (S i) (S n) keys accountID (<[n := c]> arr)
        end
      end
    end
  end.
Definition checkEvidence (d : db) (reported : Address) (claims : list Claim.t) : res reply (option bytes * bool) :=
  match claims with
  | [] => Ok (None, false)
  | _ =>
    if Server reported =?b [] then
      devices ← or_reply (ListDevicesByAccount d (Address.ID reported)) internal;
      let keys := list_to_map ((λ x, (DeviceID x, DevicePubKey x)) <$> reverse devices) in
      kept ← keep_claims (length claims) 0 0 keys (Address.ID reported) claims;
      match kept with [] => Ok (None, false) | _ => Ok (Some (json_claims kept), true) end
    else Ok (Some (json_claims claims), false)
  end.

(** A reporter who has an account here is filed as local. *)
Definition reporter_home (d : db) (reporterID reporterServer : bytes) : res reply bytes :=
  if reporterServer =?b [] then Ok []
  else match GetAccount d reporterID with
       | Ok _ => Ok []
       | Err ErrNotFound => Ok reporterServer
       | Err _ => Err internal
       | Panic => Panic
       end.
Definition target_exists (d : db) (reported : Address) : res reply () :=
  if Server reported =?b [] then
    match GetAccount d (Address.ID reported) with Ok _ => Ok () | Err e => Err (not_found_or "not_found" e) | Panic => Panic end
  else Ok ().
Definition saveReport (now : Time) (req : reportRequest) (reporterID reporterServer : bytes) : handler reply := λ d,
  (home ← hlift (reporter_home d reporterID reporterServer);
   _ ← hlift (check (ValidReportCategory (RqCategory req)) (bad "invalid_request"));
   reported ← hlift (or_reply (ParseFull (RqReported req)) (bad "invalid_request"));
   _ ← hlift (check (negb ((Address.ID reported =?b reporterID) && (Server reported =?b home))) forbidden);
   _ ← hlift (check (negb (maxEvidenceClaims <? zlen (RqEvidence req))) (bad "invalid_request"));
   _ ← hlift (target_exists d reported);
   _ ← hlift (check (negb (maxOpenReportsPerReporter <=? CountOpenReportsBy d reporterID home)) (conflict "report_limit"));
   ev ← hlift (checkEvidence d reported (RqEvidence req));
   _ ← stmt (λ d, SaveReport d (mkReport 0 (Address.ID reported) (Server reported) reporterID home (RqCategory req) ev.1 ev.2 []
                                  zero_time zero_time None None) now) (λ _, internal);
   mret created) d.

Definition handleCreateReport (now : Time) (identity : option Identity) (b : reply + option reportRequest) : handler reply :=
  _ ← hlift reportsEnabled;
  identity ← hlift (from_option identity unauthorized);
  raw ← hlift (match b with inl e => Err e | inr x => Ok x end);
  req ← hlift (from_option raw (bad "invalid_request"));
  saveReport now req (IdAccountID identity) [].

(** The sender of a federated request, checked against the bytes of the body. *)
Definition sender_claim (raw : bytes) (req : federatedReportRequest) : federatedSenderClaim :=
  mkClaim (FqSenderAccountID req) (FqSenderRootPubKey req) (FqSenderDeviceCert req) raw [].
Definition decoded_report (b : reply + rawBody federatedReportRequest) : res reply (bytes * federatedReportRequest) :=
  raw ← match b with inl e => Err e | inr x => Ok x end;
  req ← from_option (raw_decoded raw) (bad "invalid_request");
  Ok (raw_bytes raw, req).
Definition handleCreateFederatedReport (f : fed) (vnow now : Time) (r : Request) (b : reply + rawBody federatedReportRequest) : handler reply :=
  _ ← hlift reportsEnabled;
  _ ← hlift (federation_on f);
  x ← hlift (decoded_report b);
  let req := x.2 in
  _ ← hlift (check (negb (empty (FqSenderAccountID req) || empty (FqSenderRootPubKey req) || empty (FcDeviceID (FqSenderDeviceCert req)))) (bad "invalid_request"));
  sender ← (λ d, verifyFederatedSender d f vnow r (sender_claim x.1 req));
  reported ← hlift (or_reply (ParseFull (RqReported (RqReport req))) (bad "invalid_request"));
  _ ← hlift (check (Server reported =?b []) (bad "invalid_request"));
  server ← hlift (federatedReporter (FqSenderServer req));
  saveReport now (RqReport req) (FsAccountID sender) server.

Definition withdrawReport (reportedRaw reporterID reporterServer : bytes) : handler reply :=
  reported ← hlift (or_reply (ParseFull reportedRaw) (bad "invalid_request"));
  _ ← stmt (λ d, WithdrawReport d reporterID reporterServer (Address.ID reported) (Server reported)) (not_found_or "not_found");
  mret done_ok.
Definition handleWithdrawReport (identity : option Identity) (reported : bytes) : handler reply :=
  _ ← hlift reportsEnabled;
  identity ← hlift (from_option identity unauthorized);
  withdrawReport reported (IdAccountID identity) [].
Definition handleWithdrawFederatedReport (f : fed) (vnow : Time) (r : Request) (reported : bytes) (b : reply + rawBody federatedReportRequest) : handler reply :=
  _ ← hlift reportsEnabled;
  _ ← hlift (federation_on f);
  x ← hlift (decoded_report b);
  sender ← (λ d, verifyFederatedSender d f vnow r (sender_claim x.1 x.2));
  server ← hlift (federatedReporter (FqSenderServer x.2));
  withdrawReport reported (FsAccountID sender) server.

Definition handleListReports (identity : Identity) (state : bytes) (d : db) : res reply (list reportResponse) :=
  _ ← reportsEnabled;
  _ ← requireAdminOrModerator identity;
  l ← or_reply (ListReports d (state =?b ReportOpen) (IdRole identity =?b RoleAdmin)) internal;
  Ok (fmap (M := list) reportResponseFrom l).

Definition isLocalStaff (d : db) (id server : bytes) : res reply bool :=
  if negb (server =?b []) then Ok false
  else match GetAccount d id with
       | Ok a => Ok ((AccRole a =?b RoleAdmin) || (AccRole a =?b RoleModerator))
       | Err ErrNotFound => Ok false
       | Err _ => Err internal
       | Panic => Panic
       end.
Definition mayActOnReport (d : db) (identity : Identity) (report : Report) (outcome : bytes) : res reply () :=
  if IdRole identity =?b RoleAdmin then Ok ()
  else
    staff ← isLocalStaff d (ReportedID report) (ReportedServer report);
    _ ← check (negb staff) forbidden;
    if outcome =?b ReportAbusive then
      staff ← isLocalStaff d (ReporterID report) (ReporterServer report);
      check (negb staff) forbidden
    else Ok ().
(** What is checked, and the write that follows it: two statements outside a transaction. *)
Definition decide_resolve (identity : Identity) (id : bytes) (b : reply + option bytes) (d : db) : res reply (Z * bytes) :=
  _ ← reportsEnabled;
  _ ← requireAdminOrModerator identity;
  id ← from_option (parse_int64 id) (bad "invalid_request");
  raw ← match b with inl e => Err e | inr x => Ok x end;
  outcome ← from_option raw (bad "invalid_request");
  _ ← check (ValidReportOutcome outcome) (bad "invalid_request");
  report ← match GetReport d id with Ok r => Ok r | Err e => Err (not_found_or "not_found" e) | Panic => Panic end;
  _ ← mayActOnReport d identity report outcome;
  Ok (id, outcome).
Definition handleResolveReport (now : Time) (identity : Identity) (id : bytes) (b : reply + option bytes) : handler reply := λ d,
  (x ← hlift (decide_resolve identity id b d);
   _ ← stmt (λ d, ResolveReport d x.1 x.2 (IdAccountID identity) now) (λ _, internal);
   mret done_ok) d.
End api.
End Reports.
