(* ===== verification/Migrations.v ===== *)
(** * internal/store/migrate.go: bringing the schema up to date

    The scanner that splits a migration into statements, compared with an automaton that
    reads one character at a time, and the run over the embedded files.

    What SQLite makes of a statement is an argument: the database it leaves, or an error.
    The files are a list of names and contents. *)

From S2P Require Import Prelude GoStr GoTime GoTimeParse Address Store Reports.

(** ** splitStatements *)

(** [strings.IndexByte] and [strings.Index] *)
Fixpoint index_byte (c : Z) (s : bytes) : option nat :=
  match s with [] => None | b :: s => if b =? c then Some O else S <$> index_byte c s end.
Fixpoint index_str (sub s : bytes) : option nat :=
  if has_prefix sub s then Some O else match s with [] => None | _ :: s => S <$> index_str sub s end.
Definition dashes : bytes := lit "--".
Definition comment_open : bytes := lit "/*".
Definition comment_close : bytes := lit "*/".
Definition statement (s : bytes) : list bytes := let trimmed := trim_space s in if trimmed =?b [] then [] else [trimmed].
Definition slice (s : bytes) (start stop : nat) : bytes := take (stop - start) (drop start s).

(** The loop: [i] is where it looks, [start] where the statement began; [None] when it runs out of steps. *)
Fixpoint scan (steps : nat) (script : bytes) (i start : nat) (statements : list bytes) : option (list bytes) :=
  match steps with
  | O => None
  | S steps =>
    let rest := drop i script in
    let past_end := S (length script) in
    match rest with
    | [] => Some (statements ++ statement (drop start script))
    | c :: after =>
      if has_prefix dashes rest then scan steps script (match index_byte 10 rest with Some next => S (i + next) | None => past_end end) start statements
      else if has_prefix comment_open rest then
        scan steps script (match index_str comment_close (drop 2 rest) with Some next => S (i + (2 + next + 1)) | None => past_end end) start statements
      else if c =? 39 then scan steps script (match index_byte 39 after with Some next => S (i + (1 + next)) | None => past_end end) start statements
      else if c =? 59 then scan steps script (S i) (S i) (statements ++ statement (slice script start i))
      else scan steps script (S i) start statements
    end
  end.
Definition splitStatements (script : bytes) : list bytes := default [] (scan (S (length script)) script 0 0 []).

(** ** Migrate *)

Definition is_sql (name : bytes) : bool := has_prefix (reverse (lit ".sql")) (reverse name).
Definition migrationFilenames (files : list (bytes * bytes)) : list bytes := merge_sort bytes_le (filter (λ n, is_sql n = true) files.*1).
Definition versionFromFilename (name : bytes) : res string Z :=
  let '(prefix, _, ok) := cut 95 name in
  if negb ok then Err "store: migration filename missing version prefix"%string
  else from_option (Reports.parse_int64 prefix) "store: migration filename has non-numeric version prefix"%string.

Section migrate.
(** The rest of the database, and what executing a statement does to it. *)
Context {W : Type} (exec : bytes → W → option W) (files : list (bytes * bytes)).
Record schema := mkSchema { schema_migrations : list (Z * bytes); tables : W }.

Fixpoint exec_all (stmts : list bytes) (w : W) : option W := match stmts with [] => Some w | s :: stmts => exec s w ≫= exec_all stmts end.
Definition contents (name : bytes) : option bytes := x ← list_find (λ x : bytes * bytes, x.1 = name) files; Some x.2.2.
(** One transaction: a failure leaves everything as it was. *)
Definition applyMigration (st : schema) (name : bytes) (version : Z) : schema * res string () :=
  match contents name with
  | None => (st, Err "store: reading migration"%string)
  | Some c =>
    match exec_all (splitStatements c) (tables st) with
    | None => (st, Err "store: applying migration"%string)
    | Some w =>
      if bool_decide (version ∈ (schema_migrations st).*1) then (st, Err "store: recording migration"%string)
      else (mkSchema (schema_migrations st ++ [(version, name)]) w, Ok ())
    end
  end.
Fixpoint migrate_each (applied : list Z) (names : list bytes) (st : schema) : schema * res string () :=
  match names with
  | [] => (st, Ok ())
  | name :: names =>
    match versionFromFilename name with
    | Ok version =>
      if bool_decide (version ∈ applied) then migrate_each applied names st
      else match applyMigration st name version with
           | (st, Ok _) => migrate_each applied names st
           | (st, e) => (st, e)
           end
    | Err e => (st, Err e)
    | Panic => (st, Panic)
    end
  end.
Definition Migrate (st : schema) : schema * res string () := migrate_each (schema_migrations st).*1 (migrationFilenames files) st.
End migrate.

(** ** Character by character *)

Inductive mode := Code | Line | Opening | Block | Closing | Quoted.
Definition starts (c : Z) (s : bytes) : bool := match s with b :: _ => b =? c | [] => false end.
(** The text between the semicolons of the code: those in comments and in literals do not count. *)
Fixpoint lex (m : mode) (cur s : bytes) : list bytes :=
  match s with
  | [] => [cur]
  | c :: s =>
    match m with
    | Code =>
      if (c =? 45) && starts 45 s then lex Line (cur ++ [c]) s
      else if (c =? 47) && starts 42 s then lex Opening (cur ++ [c]) s
      else if c =? 39 then lex Quoted (cur ++ [c]) s
      else if c =? 59 then cur :: lex Code [] s
      else lex Code (cur ++ [c]) s
    | Line => lex (if c =? 10 then Code else Line) (cur ++ [c]) s
    | Opening => lex Block (cur ++ [c]) s
    | Block => lex (if (c =? 42) && starts 47 s then Closing else Block) (cur ++ [c]) s
    | Closing => lex Code (cur ++ [c]) s
    | Quoted => lex (if c =? 39 then Code else Quoted) (cur ++ [c]) s
    end
  end.

Lemma two_chars a b c s : has_prefix [a; b] (c :: s) = (c =? a) && starts b s.
Proof. cbn. rewrite (Z.eqb_sym a c). destruct s as [|x s]; cbn; [by rewrite andb_false_r|]. by rewrite (Z.eqb_sym b x), andb_true_r. Qed.
Lemma lex_until m c cur s : (∀ cur b s, lex m cur (b :: s) = lex (if b =? c then Code else m) (cur ++ [b]) s) →
  lex m cur s = match index_byte c s with Some n => lex Code (cur ++ take (S n) s) (drop (S n) s) | None => [cur ++ s] end.
Proof.
  intros Hm. revert cur. induction s as [|b s IH]; intros cur; [by rewrite app_nil_r; destruct m|]. rewrite Hm. cbn [index_byte]. destruct (b =? c); [done|].
  rewrite IH. destruct (index_byte c s) as [n|]; cbn [fmap option_fmap option_map take drop]; by rewrite <- (assoc_L app).
Qed.
Lemma lex_block cur s : lex Block cur s = match index_str comment_close s with Some n => lex Code (cur ++ take (n + 2) s) (drop (n + 2) s) | None => [cur ++ s] end.
Proof.
  revert cur. induction s as [|c s IH]; intros cur; [by rewrite app_nil_r|]. cbn [lex]. unfold index_str. fold index_str. change comment_close with [42; 47]. rewrite two_chars.
  destruct ((c =? 42) && starts 47 s) eqn:E.
  - destruct s as [|b s]; [by rewrite andb_false_r in E|]. cbn [lex Nat.add take drop]. by rewrite <- (assoc_L app).
  - rewrite IH. change [42; 47] with comment_close. destruct (index_str comment_close s) as [n|]; cbn [fmap option_fmap option_map Nat.add take drop]; by rewrite <- (assoc_L app).
Qed.

Lemma slice_grows s start i k : (start ≤ i)%nat → slice s start (i + k) = slice s start i ++ take k (drop i s).
Proof.
  intros H. unfold slice. replace (i + k - start)%nat with (i - start + k)%nat by lia. rewrite <- take_take_drop, drop_drop.
  by replace (start + (i - start))%nat with i by lia.
Qed.
Lemma slice_rest s start i : (start ≤ i)%nat → slice s start i ++ drop i s = drop start s.
Proof. intros H. unfold slice. replace (drop i s) with (drop (i - start) (drop start s)); [apply take_drop|]. rewrite drop_drop. f_equal. lia. Qed.
Lemma slice_past s start i : (length s ≤ i)%nat → slice s start i = drop start s.
Proof. intros H. unfold slice. apply take_ge. rewrite length_drop. lia. Qed.

Lemma scan_lex steps script i start acc : (start ≤ i)%nat → (1 ≤ steps)%nat → (S (length script) ≤ steps + i)%nat →
  scan steps script i start acc = Some (acc ++ (lex Code (slice script start i) (drop i script) ≫= statement)).
Proof.
  revert i start acc. induction steps as [|steps IH]; intros i start acc Hs Hn Hf; [lia|]. cbn [scan]. cbv zeta.
  destruct (drop i script) as [|c after] eqn:Er.
  { assert (length script ≤ i)%nat as Hi by (apply (f_equal length) in Er; rewrite length_drop in Er; cbn in Er; lia).
    cbn [lex mbind list_bind]. by rewrite slice_past, app_nil_r by done. }
  assert (i < length script)%nat as Hi by (apply (f_equal length) in Er; rewrite length_drop in Er; cbn in Er; lia).
  assert (∀ j, (i < j)%nat → scan steps script j start acc = Some (acc ++ (lex Code (slice script start j) (drop j script) ≫= statement))) as Hgo by (intros j Hj; apply IH; lia).
  assert (scan steps script (S (length script)) start acc = Some (acc ++ ([slice script start i ++ c :: after] ≫= statement))) as Hend.
  { rewrite Hgo, drop_ge, slice_past by lia. cbn [lex]. by rewrite <- Er, slice_rest. }
  assert (∀ k, (0 < k)%nat → scan steps script (i + k) start acc = Some (acc ++ (lex Code (slice script start i ++ take k (c :: after)) (drop k (c :: after)) ≫= statement))) as Hk.
  { intros k Hk. rewrite Hgo, slice_grows, Er, <- drop_drop, Er by lia. done. }
  change dashes with [45; 45]. change comment_open with [47; 42]. rewrite !two_chars. cbn [lex].
  destruct ((c =? 45) && starts 45 after) eqn:Ed.
  { apply andb_true_iff in Ed as [->%Z.eqb_eq _]. change (lex Line (slice script start i ++ [45]) after) with (lex Line (slice script start i) (45 :: after)).
    rewrite (lex_until Line 10) by done. destruct (index_byte 10 (45 :: after)) as [n|]; [|exact Hend]. rewrite <- Nat.add_succ_r. apply Hk. lia. }
  destruct ((c =? 47) && starts 42 after) eqn:Ec.
  { apply andb_true_iff in Ec as [->%Z.eqb_eq Ea]. destruct after as [|b after]; [done|]. cbn [drop]. rewrite drop_0. cbn [lex]. rewrite lex_block, <- !(assoc_L app). cbn [app].
    destruct (index_str comment_close after) as [n|]; [|exact Hend]. replace (S (i + (2 + n + 1))) with (i + (S (S (n + 2))))%nat by lia. rewrite <- (assoc_L app). apply Hk. lia. }
  destruct (Z.eqb_spec c 39) as [->|Hq].
  { rewrite (lex_until Quoted 39) by done. rewrite <- !(assoc_L app). destruct (index_byte 39 after) as [n|]; [|exact Hend].
    replace (S (i + (1 + n))) with (i + (S (S n)))%nat by lia. rewrite <- (assoc_L app). apply Hk. lia. }
  destruct (Z.eqb_spec c 59) as [->|Hc].
  { rewrite IH by lia. rewrite bind_cons, (assoc_L app). do 3 f_equal. unfold slice. rewrite Nat.sub_diag. cbn [take]. f_equal. replace (S i) with (i + 1)%nat by lia. by rewrite <- drop_drop, Er. }
  replace (S i) with (i + 1)%nat by lia. apply Hk. lia.
Qed.
(** The text the pieces came from. *)
Definition rejoin (l : list bytes) : bytes := match l with [] => [] | p :: ps => p ++ mjoin ((λ q, 59 :: q) <$> ps) end.
Lemma lex_nonempty m cur s : lex m cur s ≠ [].
Proof. revert m cur. induction s as [|c s IH]; intros m cur; [done|]. destruct m; cbn [lex]; try apply IH. do 3 (case_match; [apply IH|]). case_match; [done|apply IH]. Qed.
Lemma lex_rejoin m cur s : rejoin (lex m cur s) = cur ++ s.
Proof.
  assert (∀ l, l ≠ [] → mjoin ((λ q, 59 :: q) <$> l) = 59 :: rejoin l) as Hne by (intros [|p ps]; done).
  revert m cur. induction s as [|c s IH]; intros m cur; [cbn; by rewrite !app_nil_r|]. cbn [lex].
  assert (∀ m, rejoin (lex m (cur ++ [c]) s) = cur ++ c :: s) as Hgo by (intros m'; by rewrite IH, <- (assoc_L app)).
  destruct m; try apply Hgo. do 3 (case_match; [apply Hgo|]). case_match; [|apply Hgo]. cbn [rejoin]. rewrite Hne, IH by apply lex_nonempty. f_equal. cbn. f_equal. symmetry. by apply Z.eqb_eq.
Qed.

(** C30: the scanner splits where the code ends a statement.  It finds the same statements as reading the script character by character,
    where a semicolon in a line comment, a block comment or a literal does not count; and nothing of the script is
    lost: the pieces, put together again, are the script. *)
Theorem statements_of_script script : splitStatements script = (lex Code [] script ≫= statement) ∧ rejoin (lex Code [] script) = script.
Proof. split; [|apply lex_rejoin]. unfold splitStatements. rewrite scan_lex by lia. done. Qed.

(** ** The run over the files *)

Section run.
Context {W : Type} (exec : bytes → W → option W) (files : list (bytes * bytes)).

(** What is still to be applied, in the order of the names, and the statements of some of it. *)
Definition pending (applied : list Z) (names : list bytes) : list (Z * bytes) :=
  omap (λ name, match versionFromFilename name with Ok v => if bool_decide (v ∈ applied) then None else Some (v, name) | _ => None end) names.
Definition statements_of (name : bytes) : list bytes := default [] (splitStatements <$> contents files name).

Lemma exec_all_app l k (w : W) : exec_all exec (l ++ k) w = exec_all exec l w ≫= exec_all exec k.
Proof. revert w. induction l as [|s l IH]; intros w; [done|]. cbn. destruct (exec s w); [apply IH|done]. Qed.
Lemma applyMigration_Ok st name version st' u : applyMigration exec files st name version = (st', Ok u) →
  version ∉ (schema_migrations st).*1 ∧ schema_migrations st' = schema_migrations st ++ [(version, name)] ∧ exec_all exec (statements_of name) (tables st) = Some (tables st').
Proof. unfold applyMigration, statements_of. intros H. repeat case_match; simplify_eq/=. by case_bool_decide. Qed.
Lemma applyMigration_failed st name version st' r : applyMigration exec files st name version = (st', r) → r ≠ Ok () → st' = st.
Proof. unfold applyMigration. intros H Hr. repeat case_match; by simplify_eq/=. Qed.

Lemma migrate_each_applied applied names st : (∀ name, name ∈ names → ∃ v, versionFromFilename name = Ok v ∧ v ∈ applied) →
  migrate_each exec files applied names st = (st, Ok ()).
Proof.
  induction names as [|name names IH]; intros H; [done|]. cbn. destruct (H name) as (v & -> & Hv); [left|]. rewrite bool_decide_true by done.
  apply IH. intros n Hn. apply H. by right.
Qed.
Definition outcome (applied : list Z) (names : list bytes) (st st' : schema) (r : res string ()) (done : list (Z * bytes)) : Prop :=
  schema_migrations st' = schema_migrations st ++ done ∧ exec_all exec (done ≫= λ x, statements_of x.2) (tables st) = Some (tables st') ∧
  (NoDup (schema_migrations st).*1 → NoDup (schema_migrations st').*1) ∧
  (r = Ok () → done = pending applied names ∧ ∀ name, name ∈ names → ∃ v, versionFromFilename name = Ok v ∧ (v ∈ applied ∨ v ∈ done.*1)).
Lemma outcome_stopped applied names st r : r ≠ Ok () → ∃ done, done `prefix_of` pending applied names ∧ outcome applied names st st r done.
Proof. intros Hr. exists []. unfold outcome. rewrite app_nil_r. repeat split; try done; apply prefix_nil. Qed.
Lemma migrate_each_prefix applied names st : ∃ done, done `prefix_of` pending applied names ∧
  let '(st', r) := migrate_each exec files applied names st in outcome applied names st st' r done.
Proof.
  revert st. induction names as [|name names IH]; intros st.
  { exists []. cbn. unfold outcome. rewrite app_nil_r. repeat split; try done. by intros name ?%not_elem_of_nil. }
  pose proof (outcome_stopped applied (name :: names)) as Hstop. unfold outcome in *.
  cbn [migrate_each]. unfold pending in *. cbn [omap list_omap] in *. destruct (versionFromFilename name) as [v|e|] eqn:Ev; [|by apply Hstop..].
  case_bool_decide as Hv.
  { destruct (IH st) as (d & Hp & H). exists d. split; [done|]. destruct (migrate_each _ _ _ names st) as [st' r]. destruct H as (H1 & H2 & H3 & H4). repeat split; try done.
    { by apply H4. } intros n [->|Hn]%elem_of_cons; [eauto|]. by apply H4. }
  destruct (applyMigration exec files st name v) as [st1 r1] eqn:Ea. destruct r1 as [[]|e|]; [|apply applyMigration_failed in Ea as ->; [by apply Hstop|done]..].
  apply applyMigration_Ok in Ea as (Hnew & H1 & H2). destruct (IH st1) as (d & Hp & H). exists ((v, name) :: d). split; [by apply prefix_cons|].
  destruct (migrate_each _ _ _ names st1) as [st' r]. destruct H as (K1 & K2 & K3 & K4). split_and!.
  - by rewrite K1, H1, <- (assoc_L app).
  - rewrite bind_cons, exec_all_app. cbn [snd]. by rewrite H2.
  - intros Hnd. apply K3. rewrite H1, fmap_app. apply NoDup_app. split_and!; [done| |apply NoDup_singleton]. intros x Hx ->%list_elem_of_singleton. done.
  - intros Hr. destruct (K4 Hr) as [-> K5]. split; [done|]. intros n [->|Hn]%elem_of_cons; [exists v; split; [done|]; right; left|].
    destruct (K5 n Hn) as (v' & Hv' & [?|?]); exists v'; split; [done| |done|]; [by left|]. right. by right.
Qed.

(** The schema only moves forward.  Whatever comes of a run, the versions recorded are the old ones and the first
    few of the pending migrations in the order of their names, the tables are what their statements make of the
    old tables, no version is recorded twice; a run that succeeds has applied all of them, and the next one changes nothing. *)
Theorem migrations_forward st : let st' := (Migrate exec files st).1 in let todo := pending (schema_migrations st).*1 (migrationFilenames files) in
  ∃ done, done `prefix_of` todo ∧ schema_migrations st' = schema_migrations st ++ done ∧
  exec_all exec (done ≫= λ x, statements_of x.2) (tables st) = Some (tables st') ∧
  (NoDup (schema_migrations st).*1 → NoDup (schema_migrations st').*1) ∧
  ((Migrate exec files st).2 = Ok () → done = todo ∧ Migrate exec files st' = (st', Ok ())).
Proof.
  intros st' todo. destruct (migrate_each_prefix (schema_migrations st).*1 (migrationFilenames files) st) as (d & Hp & H). exists d. split; [done|].
  unfold st', Migrate. destruct (migrate_each _ _ _ _ st) as [st1 r]. cbn [fst snd]. destruct H as (H1 & H2 & H3 & H4). split_and!; try done.
  intros Hr. destruct (H4 Hr) as [Hd H5]. split; [done|]. apply migrate_each_applied. intros n Hn. destruct (H5 n Hn) as (v & ? & Hv). exists v. split; [done|].
  rewrite H1, fmap_app. apply elem_of_app. tauto.
Qed.
End run.

(** The comment that broke a migration, a doubled quote, and a script whose last statement has no semicolon. *)
Example split_comment : splitStatements (lit "-- updates the evidence; it never adds
CREATE TABLE t (a TEXT DEFAULT 'it''s; so'); /* a;b */ DROP TABLE u") =
  [lit "-- updates the evidence; it never adds
CREATE TABLE t (a TEXT DEFAULT 'it''s; so')"; lit "/* a;b */ DROP TABLE u"].
Proof. vm_compute. reflexivity. Qed.
(** Three files out of order, one of them no migration: the two run in the order of their names, once. *)
Example migrate_twice :
  let files := [(lit "0002_b.sql", lit "B; C"); (lit "README", []); (lit "0001_a.sql", lit "A;")] in
  let exec s (w : list bytes) := Some (w ++ [s]) in
  let st := mkSchema [(1, lit "0001_a.sql"); (2, lit "0002_b.sql")] [lit "A"; lit "B"; lit "C"] in
  Migrate exec files (mkSchema [] []) = (st, Ok ()) ∧ Migrate exec files st = (st, Ok ()).
Proof. vm_compute. done. Qed.
