(* ===== verification/License.v ===== *)
(** * The attestation a server carries (internal/api/license.go, checkAttestation of cmd/server)

    The check at start-up, which only logs, and the one behind the administrators' license
    page, which is to say the same.  The trusted issuers, a variable of pkg/attest, and the
    clock are arguments. *)

From S2P Require Import Prelude GoStr GoTime GoTimeParse Base64 Crypto Address Attest HttpSig Store Auth Delivery Federation FederationCorrect Accounts Config.

Record licenseStatusResponse := mkLicense {
  LsAttested : bool; LsTier : bytes; LsSeats : Z; LsExpiresAt : bytes; LsActiveAccounts : Z; LsOverLimit : bool;
}.

(** What start-up logs. *)
Inductive attestation_log :=
  | NotConfigured | LogMalformed (e : string) | NoIssuers | NotGenuine (e : string) | GenuineNoDomain (a : Attestation.t)
  | NotCurrent (e : string) | LogVerified (a : Attestation.t).

Section license.
Context {UC : UnicodeCase} {ED : Ed25519}.

Definition currentAttestation (trusted : list bytes) (cfg : ServerConfig.t) (now : Time) : res string (option Attestation.t) :=
  if ServerConfig.Attestation cfg =?b [] then Ok None
  else
    match Attestation.Decode (ServerConfig.Attestation cfg) with
    | Panic => Panic
    | Err _ => Ok None
    | Ok a =>
      if Nat.eqb (length trusted) 0 then Ok None
      else
        match Attestation.Verify a trusted with
        | Panic => Panic
        | Err _ => Ok None
        | Ok _ =>
          if ServerConfig.Domain cfg =?b [] then Ok (Some a)
          else match Attestation.Valid a (ServerConfig.Domain cfg) now with Panic => Panic | Err _ => Ok None | Ok _ => Ok (Some a) end
        end
    end.

Definition checkAttestation (trusted : list bytes) (cfg : ServerConfig.t) (now : Time) : res string attestation_log :=
  if ServerConfig.Attestation cfg =?b [] then Ok NotConfigured
  else
    match Attestation.Decode (ServerConfig.Attestation cfg) with
    | Panic => Panic
    | Err e => Ok (LogMalformed e)
    | Ok a =>
      if Nat.eqb (length trusted) 0 then Ok NoIssuers
      else
        match Attestation.Verify a trusted with
        | Panic => Panic
        | Err e => Ok (NotGenuine e)
        | Ok _ =>
          if ServerConfig.Domain cfg =?b [] then Ok (GenuineNoDomain a)
          else match Attestation.Valid a (ServerConfig.Domain cfg) now with Panic => Panic | Err e => Ok (NotCurrent e) | Ok _ => Ok (LogVerified a) end
        end
    end.

Definition handleGetLicenseStatus (trusted : list bytes) (cfg : ServerConfig.t) (now : Time) (d : db) (identity : Identity) : res reply licenseStatusResponse :=
  _ ← requireAdmin identity;
  let activeAccounts := CountActiveAccounts d in
  match currentAttestation trusted cfg now with
  | Ok (Some a) =>
    Ok (mkLicense true (Attestation.Tier a) (Attestation.Seats a) (rfc3339 (utc (Attestation.ExpiresAt a))) activeAccounts
          ((0 <? Attestation.Seats a) && (Attestation.Seats a <? u32 activeAccounts)))
  | Panic => Panic
  | _ => Ok (mkLicense false [] 0 [] activeAccounts false)
  end.

(** The attestation a log line stands behind. *)
Definition vouched (l : attestation_log) : option Attestation.t := match l with GenuineNoDomain a | LogVerified a => Some a | _ => None end.

Lemma attestation_Verify_no_panic a trusted : Attestation.Verify a trusted ≠ Panic.
Proof.
  unfold Attestation.Verify. destruct (Attestation.signingBytes a) as [buf|e|] eqn:E; [|done|].
  - cbn [mbind res_bind]. destruct (negb _); [done|]. destruct (negb _); [done|]. apply AttestationCorrect.signingBytes_Ok in E as (_ & _ & _ & _ & Hk & _).
    destruct (Verify_not_Panic (E := string) (Attestation.IssuerKey a) buf (Attestation.Signature a) Hk) as [ok ->]. cbn [mbind res_bind]. by destruct ok.
  - unfold Attestation.signingBytes in E. repeat (destruct (_ : bool) in E; [done|]). done.
Qed.
Lemma Valid_no_panic a dom now : Attestation.Valid a dom now ≠ Panic.
Proof. unfold Attestation.Valid. repeat (destruct (_ : bool); [done|]). done. Qed.
Lemma from_option_no_panic {E A B} (o : option A) (e : E) (f : A → res E B) : (∀ x, f x ≠ Panic) → (from_option o e ≫= f) ≠ Panic.
Proof. intros H. by destruct o as [x|]; [apply H|]. Qed.
Lemma Decode_no_panic token : Attestation.Decode token ≠ Panic.
Proof.
  apply from_option_no_panic. intros raw. unfold Attestation.parse.
  apply from_option_no_panic. intros [v r]. cbv zeta. destruct (_ && _); [done|].
  do 3 (apply from_option_no_panic; intros [? ?]). destruct (_ <=? _).
  all: try (destruct (readUint32 _) as [[? ?]|]; [|done]); cbn [from_option mbind res_bind].
  all: do 4 (apply from_option_no_panic; intros [? ?]); by destruct (negb _).
Qed.

(** The license page and the start-up check agree.  Whatever the token, the issuers, the domain and the
    clock, the server neither panics in the one nor in the other, and the page shows an attestation exactly when
    start-up logged it as genuine, and that one; so nothing that is malformed, signed by
    nobody trusted, or out of date for a known domain is shown. *)
Theorem license_mirrors_startup trusted cfg now :
  ∃ l, checkAttestation trusted cfg now = Ok l ∧ currentAttestation trusted cfg now = Ok (vouched l) ∧
    ∀ a, vouched l = Some a → Attestation.Decode (ServerConfig.Attestation cfg) = Ok a ∧ Attestation.Verify a trusted = Ok () ∧
      (ServerConfig.Domain cfg ≠ [] → Attestation.Valid a (ServerConfig.Domain cfg) now = Ok ()).
Proof.
  unfold checkAttestation, currentAttestation. destruct (_ =?b []); [by eexists|].
  pose proof (Decode_no_panic (ServerConfig.Attestation cfg)) as Hd. revert Hd. destruct (Attestation.Decode _) as [a|e|]; intros Hd; [|by eexists|done].
  destruct (Nat.eqb _ _); [by eexists|]. pose proof (attestation_Verify_no_panic a trusted) as Hv. revert Hv. destruct (Attestation.Verify a trusted) as [[]|e|] eqn:Ev; intros Hv; [|by eexists|done].
  destruct (ServerConfig.Domain cfg =?b []) eqn:Ed.
  { eexists. split; [done|]. split; [done|]. intros a' [= <-]. split_and!; [done..|]. intros Hne. destruct Hne. by apply eqb_true. }
  pose proof (Valid_no_panic a (ServerConfig.Domain cfg) now) as Hw. revert Hw. destruct (Attestation.Valid _ _ _) as [[]|e|] eqn:Ew; intros Hw; [|by eexists|done].
  eexists. split; [done|]. split; [done|]. by intros a' [= <-].
Qed.

(** The page is for administrators, and its warning is exact while the accounts fit 32 bits. *)
Theorem license_warning_exact trusted cfg now d identity r :
  CountActiveAccounts d < 2 ^ 32 → handleGetLicenseStatus trusted cfg now d identity = Ok r →
  IdRole identity = RoleAdmin ∧ LsActiveAccounts r = CountActiveAccounts d ∧
  (LsOverLimit r = true ↔ LsAttested r = true ∧ 0 < LsSeats r < CountActiveAccounts d).
Proof.
  intros Hn H. unfold handleGetLicenseStatus in H. apply bind_Ok in H as ([] & Ha & H).
  assert (IdRole identity = RoleAdmin) as Hr. { unfold requireAdmin in Ha. by apply check_Ok, eqb_true_1 in Ha. }
  assert (u32 (CountActiveAccounts d) = CountActiveAccounts d) as Hu by (unfold u32; apply Z.mod_small; pose proof (zlen_nonneg (filter (λ x : bytes * account_row, ac_status x.2 = AccountStatusActive) (map_to_list (accounts d)))); unfold CountActiveAccounts in *; lia).
  destruct (currentAttestation trusted cfg now) as [[a|]|e|]; [| | |done]; apply Ok_inj in H as <-; cbn; (split; [done|]); (split; [done|]); [|naive_solver..].
  rewrite Hu, andb_true_iff, !Z.ltb_lt. naive_solver.
Qed.
End license.
