(* ===== verification/BlobServer.v ===== *)
(** * Attachments on the server (internal/blobstore, internal/api/blobs.go, the sweeps of cmd/server)

    The blob directory is a map from ids to the contents of committed files: a write that
    does not get as far as the rename leaves nothing there.  Disk operations that the
    operating system refuses are not modelled; a request body that ends early, or that the
    server cuts off, is.  [r.URL.Query()] is an argument, the values of the repeated
    parameter. *)

From S2P Require Import Prelude GoStr GoTime GoTimeParse Sha256 Base64 Crypto Address HttpSig Store Auth Delivery Federation Config.

(** ** blobstore.go *)

Definition blob_id_char (c : Z) : bool := in_range 48 57 c || in_range 97 102 c.
Definition validateBlobID (blobID : bytes) : bool := (zlen blobID =? 64) && forallb blob_id_char blobID.
(** [raw]: what [rand.Read] filled in. *)
Definition NewBlobID (raw : option bytes) : option bytes := hex_encode <$> raw.

(** A request body: its bytes, and what follows them. *)
Inductive stream_end := AtEOF | CutOff | Broken.
Record stream := mkStream { StData : bytes; StEnd : stream_end }.
Inductive put_err := PutInvalidID | PutRead (e : stream_end) | PutExceeds | PutMismatch.

(** [io.CopyBuffer] of an [io.LimitReader]: once [limit] bytes are read the rest is not looked at. *)
Definition copy_limited (src : stream) (limit : Z) : res put_err bytes :=
  if limit <=? 0 then Ok []
  else if limit <=? zlen (StData src) then Ok (take (Z.to_nat limit) (StData src))
  else match StEnd src with AtEOF => Ok (StData src) | e => Err (PutRead e) end.

Definition files : Type := gmap bytes bytes.

Section blobstore.
Context {UC : UnicodeCase}.
Definition Put (f : files) (blobID : bytes) (src : stream) (expectedDigest : bytes) (maxBytes : Z) : files * res put_err (Z * bytes) :=
  match (_ ← guard_err (validateBlobID blobID) PutInvalidID;
         data ← copy_limited src (i64 (maxBytes + 1));
         _ ← guard_err (negb (maxBytes <? zlen data)) PutExceeds;
         let digest := hex_encode (sha256 data) in
         _ ← guard_err ((expectedDigest =?b []) || equal_fold digest expectedDigest) PutMismatch;
         Ok (data, digest)) with
  | Ok (data, digest) => (<[blobID := data]> f, Ok (zlen data, digest))
  | Err e => (f, Err e)
  | Panic => (f, Panic)
  end.
Inductive open_err := OpenInvalidID | OpenNotFound.
Definition Open (f : files) (blobID : bytes) : res open_err bytes :=
  if negb (validateBlobID blobID) then Err OpenInvalidID else from_option (f !! blobID) OpenNotFound.
(** The error of an id that is not one is only logged by the callers. *)
Definition Remove (f : files) (blobID : bytes) : files := if validateBlobID blobID then delete blobID f else f.
Definition EachStoredID (f : files) : list bytes := (map_to_list f).*1.
(** [SweepTmp] on the temporary files with their times of change: what stays, and how many went. *)
Definition SweepTmp (tmp : list (bytes * Time)) (olderThan : Z) (now : Time) : list (bytes * Time) * Z :=
  let old := λ x : bytes * Time, olderThan <? time_sub now x.2 in
  (filter (λ x, old x = false) tmp, zlen (filter (λ x, old x = true) tmp)).
End blobstore.

(** ** internal/api/blobs.go *)

Inductive blobRecipientOutcome := blobStored | blobUnknownRecipient | blobQuotaExceeded | blobInternalError.
#[export] Instance blobRecipientOutcome_eq : EqDecision blobRecipientOutcome.
Proof. solve_decision. Defined.
Definition blob_outcome_string (o : blobRecipientOutcome) : bytes :=
  lit match o with blobStored => "stored" | blobUnknownRecipient => "unknown_recipient" | blobQuotaExceeded => "quota_exceeded" | blobInternalError => "internal_error" end.
Definition asError (o : blobRecipientOutcome) : reply :=
  match o with
  | blobUnknownRecipient => mkReply 404 (lit "unknown_recipient")
  | blobQuotaExceeded => mkReply 429 (lit "blob_quota_exceeded")
  | _ => internal
  end.

Record blobUploadResponse := mkUploaded { BuBlobID : bytes; BuSize : Z; BuExpiresAt : bytes; BuRecipients : list (bytes * bytes) }.
(** A reply with an error code, or a status with a body. *)
Inductive upload_reply := Refused (r : reply) | Answered_with (status : Z) (b : blobUploadResponse).

Record blob_server := mkBlobServer { BsDB : db; BsFiles : files }.

Section api.
Context {UC : UnicodeCase} {CA : Calendar} (cfg : ServerConfig.t).

Definition is_hex_char (c : Z) : bool := in_range 48 57 c || in_range 97 102 c || in_range 65 70 c.
Definition parseBlobDigest (r : Request) : res reply bytes :=
  let raw := Header_Get r HeaderBodyDigest in
  if raw =?b [] then Err (bad "invalid_request")
  else
    let digest := trim_prefix (lit "sha256=") (trim_space raw) in
    if negb (zlen digest =? 64) || negb (forallb is_hex_char digest) then Err (bad "invalid_request") else Ok (strings_ToLower digest).

Fixpoint dedup_values (seen : list bytes) (values : list bytes) : res reply (list bytes) :=
  match values with
  | [] => Ok []
  | v :: values =>
    if v =?b [] then Err (bad "invalid_request")
    else if bool_decide (v ∈ seen) then dedup_values seen values
    else ids ← dedup_values (v :: seen) values; Ok (v :: ids)
  end.
Definition parseBlobRecipients (values : list bytes) : res reply (list bytes) :=
  ids ← dedup_values [] values;
  if zlen ids =? 0 then Err (bad "invalid_request")
  else if ServerConfig.MaxBlobRecipients cfg <? zlen ids then Err (bad "too_many_recipients")
  else Ok ids.

Definition checkBlobRecipient (d : db) (deviceID : bytes) : blobRecipientOutcome * Z :=
  match GetDevice d deviceID with
  | Err ErrNotFound => (blobUnknownRecipient, 0)
  | Ok device =>
    if negb (DevStatus device =?b DeviceStatusActive) then (blobUnknownRecipient, 0)
    else
      let '(count, totalBytes) := BlobUsage d deviceID in
      if (ServerConfig.MaxBlobsPerDevice cfg <=? count) || (ServerConfig.MaxBlobBytesPerDevice cfg <=? totalBytes) then (blobQuotaExceeded, 0)
      else (blobStored, ServerConfig.MaxBlobBytesPerDevice cfg - totalBytes)
  | _ => (blobInternalError, 0)
  end.

Definition blobRecipientResults (recipients : list bytes) (outcomes : list blobRecipientOutcome) : list (bytes * bytes) :=
  zip recipients (blob_outcome_string <$> outcomes).
Definition writeBlobUploadFailure (recipients : list bytes) (outcomes : list blobRecipientOutcome) : upload_reply :=
  match outcomes with
  | [o] => Refused (asError o)
  | _ => Answered_with 200 (mkUploaded [] 0 [] (blobRecipientResults recipients outcomes))
  end.

(** What the checks before the first byte of the body leave: the recipients with their
    outcomes, and the most the stream may hold. *)
Record upload_plan := mkPlan { UpDigest : bytes; UpRecipients : list bytes; UpOutcomes : list blobRecipientOutcome; UpMax : Z }.
Definition candidates (p : upload_plan) : list bytes := (filter (λ x : bytes * blobRecipientOutcome, x.2 = blobStored) (zip (UpRecipients p) (UpOutcomes p))).*1.

Definition storage_full : reply := mkReply 507 (lit "storage_full").
Definition upload_begin (d : db) (r : Request) (values : list bytes) : upload_reply + upload_plan :=
  match (_ ← check (ServerConfig.BlobsEnabled cfg) (mkReply 404 (lit "not_found"));
         _ ← check (negb ((0 <? ServerConfig.MaxBlobBytesTotal cfg) && (ServerConfig.MaxBlobBytesTotal cfg <=? TotalBlobBytes d))) storage_full;
         digest ← parseBlobDigest r;
         recipients ← parseBlobRecipients values;
         Ok (digest, recipients)) with
  | Ok (digest, recipients) =>
    let checks := checkBlobRecipient d <$> recipients in
    let headroom := foldr Z.max 0 (snd <$> filter (λ x, x.1 = blobStored) checks) in
    if forallb (λ x, negb (x.1 =?b blobStored)) checks then inl (writeBlobUploadFailure recipients (fst <$> checks))
    else inr (mkPlan digest recipients (fst <$> checks) (Z.min (ServerConfig.MaxBlobBytes cfg) headroom))
  | Err e => inl (Refused e)
  | Panic => inl (Refused internal)
  end.
Definition put_failed (e : put_err) : reply :=
  match e with
  | PutRead CutOff | PutExceeds => mkReply 413 (lit "payload_too_large")
  | PutMismatch => bad "digest_mismatch"
  | _ => internal
  end.

Inductive record_err := errBlobStorageFull | RecordFailed.
(** One transaction: an error leaves the tables as they were. *)
Definition recordBlobWithQuota (d : db) (b : Blob) (ids : list bytes) : db * res record_err (list bytes * list bytes) :=
  if (0 <? ServerConfig.MaxBlobBytesTotal cfg) && (ServerConfig.MaxBlobBytesTotal cfg <? i64 (TotalBlobBytes d + SizeBytes b)) then (d, Err errBlobStorageFull)
  else match CreateBlobWithQuota d b ids (ServerConfig.MaxBlobsPerDevice cfg) (ServerConfig.MaxBlobBytesPerDevice cfg) with
       | (d', Ok x) => (d', Ok x)
       | (_, Err _) => (d, Err RecordFailed)
       | (_, Panic) => (d, Panic)
       end.

(** The outcomes after the transaction has decided. *)
Definition final_outcomes (p : upload_plan) (quotaExceeded : list bytes) : list blobRecipientOutcome :=
  (λ x : bytes * blobRecipientOutcome, if (x.2 =?b blobStored) && bool_decide (x.1 ∈ quotaExceeded) then blobQuotaExceeded else x.2) <$> zip (UpRecipients p) (UpOutcomes p).
Definition upload_commit (p : upload_plan) (blobID : bytes) (written : Z) (now : Time) (s : blob_server) : blob_server * upload_reply :=
  let expiresAt := add_days now (ServerConfig.BlobRetentionDays cfg) in
  match recordBlobWithQuota (BsDB s) (mkBlob blobID written now expiresAt) (candidates p) with
  | (d, Ok (stored, quotaExceeded)) =>
    let outcomes := final_outcomes p quotaExceeded in
    if zlen stored =? 0 then (mkBlobServer d (Remove (BsFiles s) blobID), writeBlobUploadFailure (UpRecipients p) outcomes)
    else (mkBlobServer d (BsFiles s),
          Answered_with (if zlen (UpRecipients p) =? 1 then 201 else 200)
            (mkUploaded blobID written (rfc3339 (utc expiresAt)) (blobRecipientResults (UpRecipients p) outcomes)))
  | (d, Err e) =>
    (mkBlobServer d (Remove (BsFiles s) blobID), Refused match e with errBlobStorageFull => storage_full | RecordFailed => internal end)
  | (d, Panic) => (mkBlobServer d (BsFiles s), Refused internal)
  end.

(** The shared body of both upload routes; [raw] is the random part of the id. *)
Definition storeUploadedBlob (r : Request) (values : list bytes) (body : stream) (raw : option bytes) (now : Time) (s : blob_server) : blob_server * upload_reply :=
  match upload_begin (BsDB s) r values with
  | inl e => (s, e)
  | inr p =>
    match NewBlobID raw with
    | None => (s, Refused internal)
    | Some blobID =>
      match Put (BsFiles s) blobID body (UpDigest p) (UpMax p) with
      | (f, Ok (written, _)) => upload_commit p blobID written now (mkBlobServer (BsDB s) f)
      | (f, Err e) => (mkBlobServer (BsDB s) f, Refused (put_failed e))
      | (f, Panic) => (mkBlobServer (BsDB s) f, Refused internal)
      end
    end
  end.
Definition handleUploadBlob (identity : option Identity) (r : Request) (values : list bytes) (body : stream) (raw : option bytes) (now : Time) (s : blob_server)
    : blob_server * upload_reply :=
  match identity with None => (s, Refused internal) | Some _ => storeUploadedBlob r values body raw now s end.

Definition header_claim (r : Request) (digest : bytes) : federatedSenderClaim :=
  mkClaim (Header_Get r (lit "Freizone-Sender-Account-Id")) (Header_Get r (lit "Freizone-Sender-Root-Pub-Key"))
    (mkCertDTO (Header_Get r (lit "Freizone-Sender-Device-Id")) (Header_Get r (lit "Freizone-Sender-Device-Pub-Key"))
       (Header_Get r (lit "Freizone-Sender-Cert-Issued-At")) (Header_Get r (lit "Freizone-Sender-Cert-Signature"))) [] digest.
Definition handleUploadFederatedBlob {ED : Ed25519} (f : fed) (r : Request) (values : list bytes) (body : stream) (raw : option bytes) (vnow now : Time) (s : blob_server)
    : res () (blob_server * upload_reply) :=
  match (_ ← federation_on f; parseBlobDigest r) with
  | Err e => Ok (s, Refused e)
  | Panic => Panic
  | Ok digest =>
    match verifyFederatedSender (BsDB s) f vnow r (header_claim r digest) with
    | (d, Ok _) => Ok (storeUploadedBlob r values body raw now (mkBlobServer d (BsFiles s)))
    | (d, Err e) => Ok (mkBlobServer d (BsFiles s), Refused e)
    | (_, Panic) => Panic
    end
  end.

(** What is served is the file; ranges and conditions are [http.ServeContent]'s. *)
Definition handleDownloadBlob (identity : Identity) (blobID : bytes) (s : blob_server) : res reply bytes :=
  match GetBlobForDevice (BsDB s) blobID (IdDeviceID identity) with
  | Err ErrNotFound => Err (mkReply 404 (lit "not_found"))
  | Err _ => Err internal
  | Panic => Panic
  | Ok _ =>
    match Open (BsFiles s) blobID with
    | Ok data => Ok data
    | Err OpenNotFound => Err (mkReply 404 (lit "not_found"))
    | Err OpenInvalidID => Err internal
    | Panic => Panic
    end
  end.

Definition deleteBlobClaim (d : db) (blobID deviceID : bytes) : db * res StoreError bool :=
  match DeleteBlobForDevice d blobID deviceID with (d', Ok u) => (d', Ok u) | (_, e) => (d, e) end.
Definition handleDeleteBlob (identity : Identity) (blobID : bytes) (s : blob_server) : blob_server * reply :=
  match deleteBlobClaim (BsDB s) blobID (IdDeviceID identity) with
  | (d, Ok unref) => (mkBlobServer d (if unref : bool then Remove (BsFiles s) blobID else BsFiles s), mkReply 204 [])
  | (d, Err ErrNotFound) => (mkBlobServer d (BsFiles s), mkReply 404 (lit "not_found"))
  | (d, _) => (mkBlobServer d (BsFiles s), internal)
  end.

(** ** The cleanup of cmd/server *)

Definition blobCleanupBatchSize : Z := 500.
(** Of each listed blob, the file and then the row. *)
Definition retire (s : blob_server) (blobID : bytes) : blob_server :=
  if validateBlobID blobID then mkBlobServer (DeleteBlobByID (BsDB s) blobID) (Remove (BsFiles s) blobID) else s.
Definition retire_listed (l : res StoreError (list Blob)) (s : blob_server) : blob_server :=
  match l with Ok bs => foldl retire s (BlobID <$> bs) | _ => s end.
Definition sweepOrphanBlobs (s : blob_server) : blob_server :=
  mkBlobServer (BsDB s) (foldl Remove (BsFiles s) (filter (λ id, BlobIDExists (BsDB s) id = false) (EachStoredID (BsFiles s)))).
(** One tick; [sweep] when the hours since the last sweep of orphans have added up. *)
Definition cleanup_tick (now : Time) (sweep : bool) (s : blob_server) : blob_server :=
  let s := retire_listed (ListExpiredBlobs (BsDB s) now blobCleanupBatchSize) s in
  let s := retire_listed (ListUnreferencedBlobs (BsDB s) blobCleanupBatchSize) s in
  if sweep then sweepOrphanBlobs s else s.
End api.
