(* ===== verification/BlobServerCorrect.v ===== *)
(** * Attachments on the server: what an upload leaves, and which files stay

    An upload answered with an id can be fetched by exactly the devices it was stored for;
    and, with uploads, deletions and sweeps running at the same time, a row has its file. *)

From S2P Require Import Prelude GoStr GoTime GoTimeParse Sha256 Base64 Crypto Address HttpSig Store StoreIntegrity StoreCorrect Auth Delivery Federation FederationCorrect Config BlobServer.

(** ** Creating the rows *)

Lemma insert_recipients_Ok d id ids d' : insert_recipients d id ids = (d', Ok ()) →
  blobs d' = blobs d ∧ ∀ x, x ∈ blob_recipients d' ↔ x ∈ blob_recipients d ∨ x.1 = id ∧ x.2 ∈ ids.
Proof.
  revert d. induction ids as [|k ids IH]; intros d H; cbn [insert_recipients] in H.
  { injection H as <-. split; [done|]. intros x. split; [by left|]. intros [?|[_ ?%elem_of_nil]]; done. }
  destruct (_ || _); [done|]. apply IH in H as [-> H]. split; [done|]. intros x. rewrite H. cbn [set_blobs blob_recipients].
  rewrite elem_of_union, elem_of_singleton, elem_of_cons. destruct x as [a b]. cbn. naive_solver.
Qed.
Lemma CreateBlob_Ok d b ids d' : CreateBlob d b ids = (d', Ok ()) →
  blobs d !! BlobID b = None ∧
  blobs d' = <[BlobID b := mkBlobRow (SizeBytes b) (formatTime (BlobCreatedAt b)) (formatTime (BlobExpiresAt b))]> (blobs d) ∧
  ∀ x, x ∈ blob_recipients d' ↔ x ∈ blob_recipients d ∨ x.1 = BlobID b ∧ x.2 ∈ ids.
Proof.
  unfold CreateBlob. destruct (zlen ids =? 0); [done|]. destruct (blobs d !! BlobID b) as [r|]; [done|]. cbn [present].
  intros [E H]%insert_recipients_Ok. done.
Qed.

Section api.
Context {UC : UnicodeCase} {CA : Calendar} (cfg : ServerConfig.t).

Lemma recordBlobWithQuota_Ok d b ids d' (st ex : list bytes) : recordBlobWithQuota cfg d b ids = (d', Ok (st, ex)) →
  (∀ k, k ∈ ids → k ∈ st ∧ k ∉ ex ∨ k ∉ st ∧ k ∈ ex) ∧ (∀ k, k ∈ st ∨ k ∈ ex → k ∈ ids) ∧
  (st = [] ∧ d' = d ∨ st ≠ [] ∧ CreateBlob d b st = (d', Ok ())).
Proof.
  unfold recordBlobWithQuota. destruct (_ && _); [done|]. unfold CreateBlobWithQuota.
  set (fit := fits d b _ _). set (good := filter (λ x, fit x = true) ids). set (over := filter (λ x, fit x = false) ids).
  assert ((∀ k, k ∈ ids → k ∈ good ∧ k ∉ over ∨ k ∉ good ∧ k ∈ over) ∧ ∀ k, k ∈ good ∨ k ∈ over → k ∈ ids) as [H1 H2].
  { unfold good, over. split; intros k; rewrite !list_elem_of_filter; [destruct (fit k); naive_solver|naive_solver]. }
  destruct (zlen good =? 0) eqn:Ez.
  { intros [= <- <- <-]. assert (good = []) as Hg by (apply zlen_nil_inv; by apply Z.eqb_eq). rewrite Hg in H1, H2. auto. }
  destruct (CreateBlob d b good) as [d1 [[]|e|]] eqn:Ec; [|done|done]. intros [= <- <- <-]. split; [done|]. split; [done|]. right. split; [|done].
  intros Hg. by rewrite Hg in Ez.
Qed.
Lemma recordBlobWithQuota_fails d b ids d' e : recordBlobWithQuota cfg d b ids = (d', e) → is_ok e = false → d' = d.
Proof. unfold recordBlobWithQuota. destruct (_ && _); [by intros [= <- <-]|]. destruct (CreateBlobWithQuota _ _ _ _ _) as [d1 [x|x|]]; by intros [= <- <-]. Qed.

(** ** What [Put] writes *)

Lemma copy_limited_whole src limit data : 1 ≤ limit → copy_limited src limit = Ok data → zlen data < limit → data = StData src.
Proof.
  intros Hl. unfold copy_limited. destruct (Z.leb_spec limit 0); [lia|]. destruct (Z.leb_spec limit (zlen (StData src))) as [Hd|].
  - intros <-%Ok_inj Hlt. unfold zlen in *. rewrite length_take in Hlt. lia.
  - destruct (StEnd src); [|done..]. by intros <-%Ok_inj.
Qed.
Lemma Put_Ok f id src digest maxBytes f' n h : 0 ≤ maxBytes < 2 ^ 63 - 1 → Put f id src digest maxBytes = (f', Ok (n, h)) →
  validateBlobID id = true ∧ f' = <[id := StData src]> f ∧ n = zlen (StData src) ∧ n ≤ maxBytes ∧
  (digest ≠ [] → equal_fold (hex_encode (sha256 (StData src))) digest = true).
Proof.
  intros Hm. unfold Put. destruct (validateBlobID id); cbn [guard_err mbind res_bind]; [|done].
  destruct (copy_limited src (i64 (maxBytes + 1))) as [data| |] eqn:Ec; cbn [mbind res_bind]; [|done|done].
  destruct (Z.ltb_spec maxBytes (zlen data)) as [|Hle]; cbn [negb guard_err mbind res_bind]; [done|].
  destruct (digest =?b []) eqn:Ed; cbn [orb].
  - cbn [guard_err mbind res_bind]. intros [= <- <- <-]. rewrite i64_small in Ec by lia. apply copy_limited_whole in Ec as <-; [|lia..].
    split_and!; try done. intros Hne. destruct Hne. by apply eqb_true.
  - destruct (equal_fold _ digest) eqn:Ef; cbn [guard_err mbind res_bind]; [|done]. intros [= <- <- <-].
    rewrite i64_small in Ec by lia. apply copy_limited_whole in Ec as <-; [|lia..]. done.
Qed.
Lemma Put_files f id src digest maxBytes f' e : Put f id src digest maxBytes = (f', e) → is_ok e = false → f' = f.
Proof. unfold Put. destruct (_ ≫= _) as [[x y]|x|]; by intros [= <- <-]. Qed.

(** ** An upload and its downloads *)

Lemma upload_begin_plan d r values p : upload_begin cfg d r values = inr p →
  parseBlobDigest r = Ok (UpDigest p) ∧ length (UpOutcomes p) = length (UpRecipients p) ∧ UpMax p ≤ ServerConfig.MaxBlobBytes cfg ∧
  (0 ≤ ServerConfig.MaxBlobBytes cfg → 0 ≤ UpMax p).
Proof.
  unfold upload_begin. destruct (check (ServerConfig.BlobsEnabled cfg) _) as [[]| |]; cbn [mbind res_bind]; [|done..]. destruct (check _ _) as [[]| |]; cbn [mbind res_bind]; [|done..].
  destruct (parseBlobDigest r) as [digest| |]; cbn [mbind res_bind]; [|done..]. destruct (parseBlobRecipients cfg values) as [ids| |]; cbn [mbind res_bind]; [|done..].
  destruct (forallb _ _); [done|]. intros [= <-]. cbn [UpDigest UpOutcomes UpRecipients UpMax]. split_and!; [done|by rewrite !length_fmap|lia|].
  intros H0. apply Z.min_glb; [done|]. generalize (snd <$> filter (λ x, x.1 = blobStored) (checkBlobRecipient cfg d <$> ids)). intros l. induction l as [|x l IH]; cbn; lia.
Qed.
Lemma digest_not_empty r digest : parseBlobDigest r = Ok digest → digest ≠ [].
Proof.
  unfold parseBlobDigest. destruct (_ =?b []); [done|]. set (x := trim_prefix _ _). destruct (Z.eqb_spec (zlen x) 64) as [Hl|]; [|done]. cbn [negb orb].
  destruct (forallb is_hex_char x) eqn:Ef; [|done]. intros <-%Ok_inj. rewrite strings_ToLower_ascii.
  - intros E%(f_equal length). rewrite length_fmap in E. cbn in E. unfold zlen in Hl. lia.
  - apply Forall_forall. intros c Hc. rewrite forallb_forall in Ef. apply list_elem_of_In, Ef in Hc. unfold is_hex_char, in_range in Hc.
    rewrite !orb_true_iff, !andb_true_iff, !Z.leb_le in Hc. lia.
Qed.

Lemma outcome_stored o : blob_outcome_string o = blob_outcome_string blobStored ↔ o = blobStored.
Proof. split; [|by intros ->]. by destruct o. Qed.
Lemma zip_fst_fmap {A B C} (l : list (A * B)) (f : A * B → C) : zip l.*1 (f <$> l) = (λ x, (x.1, f x)) <$> l.
Proof. induction l as [|x l IH]; [done|]. cbn. by f_equal. Qed.
(** The recipients reported as stored are the ones stored. *)
Lemma reported_stored (p : upload_plan) (st ex : list bytes) k : length (UpOutcomes p) = length (UpRecipients p) →
  (∀ k, k ∈ candidates p → k ∈ st ∧ k ∉ ex ∨ k ∉ st ∧ k ∈ ex) → (∀ k, k ∈ st ∨ k ∈ ex → k ∈ candidates p) →
  (k, blob_outcome_string blobStored) ∈ blobRecipientResults (UpRecipients p) (final_outcomes p ex) ↔ k ∈ st.
Proof.
  intros Hl H1 H2. unfold blobRecipientResults, final_outcomes. set (l := zip (UpRecipients p) (UpOutcomes p)).
  assert (UpRecipients p = l.*1) as -> by (unfold l; rewrite fst_zip by lia; done).
  assert (∀ x, x ∈ candidates p ↔ (x, blobStored) ∈ l) as Hc.
  { intros x. unfold candidates. fold l. rewrite list_elem_of_fmap. split.
    - intros ([a o] & -> & [Ho Hin]%list_elem_of_filter). cbn in Ho |- *. by rewrite <- Ho.
    - intros Hin. exists (x, blobStored). split; [done|]. by apply list_elem_of_filter. }
  rewrite <- list_fmap_compose.
  rewrite zip_fst_fmap, list_elem_of_fmap. split.
  - intros ([a o] & E & Hin). unfold compose in E. cbn [fst snd] in E. injection E as -> E. symmetry in E. apply outcome_stored in E.
    destruct (o =?b blobStored) eqn:Eo; [|cbn in E; by rewrite E in Eo]. apply eqb_true in Eo as ->. cbn [andb] in E. destruct (bool_decide (a ∈ ex)) eqn:Ex; [done|].
    apply bool_decide_eq_false in Ex. apply Hc, H1 in Hin. tauto.
  - intros Hst. pose proof (H2 k (or_introl Hst)) as Hin. exists (k, blobStored). split; [|by apply Hc].
    unfold compose. cbn [fst snd]. assert (k ∉ ex) as Hex by (destruct (H1 k Hin); tauto). rewrite bool_decide_eq_false_2 by done. done.
Qed.

Lemma hex_id k : is_bytes k → zlen k = 32 → validateBlobID (hex_encode k) = true.
Proof.
  intros Hb Hl. unfold validateBlobID. apply andb_true_iff. split.
  - apply Z.eqb_eq. unfold zlen in *. rewrite length_hex_encode. lia.
  - clear Hl. induction Hb as [|c k Hc _ IH]; [done|]. unfold is_byte in Hc. cbn [hex_encode forallb].
    assert (∀ d, 0 ≤ d < 16 → blob_id_char (hex_char d) = true) as Hh.
    { intros d Hd. unfold blob_id_char, hex_char, in_range. destruct (Z.ltb_spec d 10); rewrite orb_true_iff, !andb_true_iff, !Z.leb_le; lia. }
    rewrite !Hh by (Z.to_euclidean_division_equations; lia). done.
Qed.

(** What the last phase leaves when it answers with an id. *)
Lemma upload_commit_answers p id n now s s' status resp : upload_commit cfg p id n now s = (s', Answered_with status resp) → BuBlobID resp ≠ [] →
  ∃ st ex d, BuBlobID resp = id ∧ BuSize resp = n ∧ BuRecipients resp = blobRecipientResults (UpRecipients p) (final_outcomes p ex) ∧ s' = mkBlobServer d (BsFiles s) ∧
    (∀ k, k ∈ candidates p → k ∈ st ∧ k ∉ ex ∨ k ∉ st ∧ k ∈ ex) ∧ (∀ k, k ∈ st ∨ k ∈ ex → k ∈ candidates p) ∧
    CreateBlob (BsDB s) (mkBlob id n now (add_days now (ServerConfig.BlobRetentionDays cfg))) st = (d, Ok ()).
Proof.
  unfold upload_commit. destruct (recordBlobWithQuota _ _ _ _) as [d [[st ex]|e|]] eqn:Er; [|done|done]. apply recordBlobWithQuota_Ok in Er as (H1 & H2 & H3).
  destruct (zlen st =? 0) eqn:Ez.
  { intros H Hne. exfalso. apply Hne. unfold writeBlobUploadFailure in H. destruct (final_outcomes p ex) as [|o [|o' l]]; [injection H as _ _ <-; done|done|injection H as _ _ <-; done]. }
  intros [= <- <- <-] _. destruct H3 as [[-> _]|[_ Hc]]; [done|]. exists st, ex, d. done.
Qed.

Definition device_identity (k : bytes) : Identity := mkIdentity [] k [].

(** C25: what is uploaded is what is fetched.  When an upload is answered with an id, every recipient reported as
    stored fetches exactly the uploaded bytes under it, their number is the reported size and their SHA-256 the one
    the sender signed; to every other device the id does not exist. *)
Theorem upload_served r values body k now s s' status resp :
  db_wf (BsDB s) → 0 ≤ ServerConfig.MaxBlobBytes cfg < 2 ^ 63 - 1 → is_bytes k → zlen k = 32 → year_ok now → year_ok (add_days now (ServerConfig.BlobRetentionDays cfg)) →
  storeUploadedBlob cfg r values body (Some k) now s = (s', Answered_with status resp) → BuBlobID resp ≠ [] →
  BuBlobID resp = hex_encode k ∧ BuSize resp = zlen (StData body) ∧ zlen (StData body) ≤ ServerConfig.MaxBlobBytes cfg ∧
  (∃ digest, parseBlobDigest r = Ok digest ∧ equal_fold (hex_encode (sha256 (StData body))) digest = true) ∧
  ∀ dev, handleDownloadBlob (device_identity dev) (BuBlobID resp) s' =
    if bool_decide ((dev, blob_outcome_string blobStored) ∈ BuRecipients resp) then Ok (StData body) else Err (mkReply 404 (lit "not_found")).
Proof.
  intros Hwf Hmax Hkb Hkl Hy Hye H Hne. unfold storeUploadedBlob in H. destruct (upload_begin cfg (BsDB s) r values) as [e|p] eqn:Eb.
  { injection H as <- ->. exfalso. apply Hne. revert Eb. unfold upload_begin. destruct (_ ≫= _) as [[digest ids]| |]; [|done|done].
    destruct (forallb _ _); [|done]. unfold writeBlobUploadFailure. intros [= E]. destruct (fst <$> _) as [|o [|o' l]]; [by injection E as _ <-|done|by injection E as _ <-]. }
  apply upload_begin_plan in Eb as (Hd & Hlen & Hm & Hm0). cbn [NewBlobID fmap option_fmap option_map] in H.
  destruct (Put (BsFiles s) (hex_encode k) body (UpDigest p) (UpMax p)) as [f [[n h]|e|]] eqn:Ep; [|done|done].
  apply Put_Ok in Ep as (_ & -> & -> & Hn & Hdig); [|lia].
  apply upload_commit_answers in H as (st & ex & d & Eid & En & Er & -> & H1 & H2 & Hc); [|done]. cbn [BsDB BsFiles] in *.
  apply CreateBlob_Ok in Hc as (Hnone & Hrows & Hrec). cbn [BlobID SizeBytes BlobCreatedAt BlobExpiresAt] in *.
  split_and!; [done..|lia|exists (UpDigest p); split; [done|]; by eapply Hdig, digest_not_empty|]. intros dev. unfold handleDownloadBlob. cbn [BsDB BsFiles IdDeviceID device_identity]. rewrite Eid, Er.
  unfold GetBlobForDevice. rewrite Hrows, lookup_insert_eq.
  assert ((hex_encode k, dev) ∈ blob_recipients d ↔ dev ∈ st) as Hin.
  { rewrite Hrec. cbn. split; [|by right]. intros [Hold|[_ ?]]; [|done]. destruct (wf_blob _ Hwf _ _ Hold) as [[x Hx] _]. by rewrite Hnone in Hx. }
  rewrite (bool_decide_ext _ _ (reported_stored p st ex dev Hlen H1 H2)). destruct (decide (dev ∈ st)) as [Hs|Hs].
  - rewrite !bool_decide_eq_true_2 by tauto. unfold scanBlob. cbn [bl_created_at bl_expires_at bl_size]. rewrite !parse_format by done. cbn [from_option mbind res_bind].
    unfold Open. rewrite hex_id by done. cbn [negb]. rewrite (lookup_insert_eq (BsFiles s)). done.
  - rewrite !bool_decide_eq_false_2 by tauto. done.
Qed.
End api.

(** ** Uploads, deletions and sweeps at the same time

    Each step is one transaction on the tables or one operation on the directory: an upload
    writes its file and later its rows, a deletion drops rows and later the file, the
    cleanup unlinks a listed file and later drops its row, and the sweep of orphans looks
    up every file first and unlinks those it found without a row afterwards. *)

(** The tables, the directory, and what is under way: uploads between file and rows, files that
    a deletion is about to unlink, blobs the cleanup has listed, files the sweep has found
    without a row -- and which of those belonged to an upload under way.  [SyPut] is what
    was ever written, by id. *)
Record sys := mkSys {
  SyDB : db; SyFiles : files; SyPut : gmap bytes bytes; SyPending : gset bytes; SyDropping : gset bytes;
  SyCleaning : gset bytes; SyOrphans : gset bytes; SyRaced : gset bytes;
}.

Section races.
Context {UC : UnicodeCase} {CA : Calendar} (cfg : ServerConfig.t).

Inductive step : sys → sys → Prop :=
  (** An id of 32 random bytes was never used before. *)
  | step_put S id src digest maxBytes f n h : SyPut S !! id = None → 0 ≤ maxBytes < 2 ^ 63 - 1 →
      Put (SyFiles S) id src digest maxBytes = (f, Ok (n, h)) →
      step S (mkSys (SyDB S) f (<[id := StData src]> (SyPut S)) ({[id]} ∪ SyPending S) (SyDropping S) (SyCleaning S) (SyOrphans S) (SyRaced S))
  | step_commit S id p data now s' ans : id ∈ SyPending S → SyPut S !! id = Some data →
      upload_commit cfg p id (zlen data) now (mkBlobServer (SyDB S) (SyFiles S)) = (s', ans) →
      step S (mkSys (BsDB s') (BsFiles s') (SyPut S) (SyPending S ∖ {[id]}) (SyDropping S) (SyCleaning S) (SyOrphans S) (SyRaced S))
  | step_claim S id dev d' (unref : bool) : deleteBlobClaim (SyDB S) id dev = (d', Ok unref) →
      step S (mkSys d' (SyFiles S) (SyPut S) (SyPending S) (if unref then {[id]} ∪ SyDropping S else SyDropping S) (SyCleaning S) (SyOrphans S) (SyRaced S))
  | step_drop S id : id ∈ SyDropping S →
      step S (mkSys (SyDB S) (Remove (SyFiles S) id) (SyPut S) (SyPending S) (SyDropping S) (SyCleaning S) (SyOrphans S) (SyRaced S))
  | step_list S now l b : ListExpiredBlobs (SyDB S) now blobCleanupBatchSize = Ok l ∨ ListUnreferencedBlobs (SyDB S) blobCleanupBatchSize = Ok l → b ∈ l →
      step S (mkSys (SyDB S) (SyFiles S) (SyPut S) (SyPending S) (SyDropping S) ({[BlobID b]} ∪ SyCleaning S) (SyOrphans S) (SyRaced S))
  | step_unlink S id : id ∈ SyCleaning S →
      step S (mkSys (SyDB S) (Remove (SyFiles S) id) (SyPut S) (SyPending S) (SyDropping S) (SyCleaning S) (SyOrphans S) (SyRaced S))
  | step_retire S id : id ∈ SyCleaning S →
      step S (mkSys (DeleteBlobByID (SyDB S) id) (SyFiles S) (SyPut S) (SyPending S) (SyDropping S) (SyCleaning S) (SyOrphans S) (SyRaced S))
  | step_find S id : id ∈ EachStoredID (SyFiles S) → BlobIDExists (SyDB S) id = false →
      step S (mkSys (SyDB S) (SyFiles S) (SyPut S) (SyPending S) (SyDropping S) (SyCleaning S) ({[id]} ∪ SyOrphans S)
                (if bool_decide (id ∈ SyPending S) then {[id]} ∪ SyRaced S else SyRaced S))
  | step_sweep S id : id ∈ SyOrphans S →
      step S (mkSys (SyDB S) (Remove (SyFiles S) id) (SyPut S) (SyPending S) (SyDropping S) (SyCleaning S) (SyOrphans S) (SyRaced S))
  (** Any other operation on the tables. *)
  | step_other S o : blobs (run_op (SyDB S) o) = blobs (SyDB S) →
      step S (mkSys (run_op (SyDB S) o) (SyFiles S) (SyPut S) (SyPending S) (SyDropping S) (SyCleaning S) (SyOrphans S) (SyRaced S)).

Definition start (d : db) : sys := mkSys d ∅ ∅ ∅ ∅ ∅ ∅ ∅.

Record blobs_inv (S : sys) : Prop := {
  inv_row id r : blobs (SyDB S) !! id = Some r → id ∉ SyPending S ∧ id ∉ SyDropping S ∧ (id ∈ SyOrphans S → id ∈ SyRaced S) ∧
    ∃ data, SyPut S !! id = Some data ∧ bl_size r = zlen data ∧ (SyFiles S !! id = Some data ∨ id ∈ SyCleaning S ∨ id ∈ SyRaced S);
  inv_pending id : id ∈ SyPending S → blobs (SyDB S) !! id = None ∧ id ∉ SyDropping S ∧ id ∉ SyCleaning S ∧ (id ∈ SyOrphans S → id ∈ SyRaced S) ∧
    ∃ data, SyPut S !! id = Some data ∧ (SyFiles S !! id = Some data ∨ id ∈ SyRaced S);
  inv_put id : id ∈ SyDropping S ∨ id ∈ SyCleaning S ∨ id ∈ SyOrphans S → is_Some (SyPut S !! id);
  inv_file id data : SyFiles S !! id = Some data → SyPut S !! id = Some data;
}.

Lemma Remove_ne f id k : k ≠ id → Remove f id !! k = f !! k.
Proof. intros H. unfold Remove. destruct (validateBlobID id); [|done]. by rewrite (lookup_delete_ne f). Qed.
Lemma Remove_Some f id k data : Remove f id !! k = Some data → f !! k = Some data.
Proof. unfold Remove. destruct (validateBlobID id); [|done]. intros H. apply (lookup_delete_Some f) in H. tauto. Qed.

(** A file may go when its row is being cleaned up, was overtaken, or does not exist. *)
Lemma inv_remove S id : blobs_inv S → (is_Some (blobs (SyDB S) !! id) → id ∈ SyCleaning S ∨ id ∈ SyRaced S) → (id ∈ SyPending S → id ∈ SyRaced S) →
  blobs_inv (mkSys (SyDB S) (Remove (SyFiles S) id) (SyPut S) (SyPending S) (SyDropping S) (SyCleaning S) (SyOrphans S) (SyRaced S)).
Proof.
  intros [Ir Ip Iu If] Hr Hp. constructor; cbn [SyDB SyFiles SyPut SyPending SyDropping SyCleaning SyOrphans SyRaced].
  - intros k r Hk. destruct (Ir k r Hk) as (? & ? & ? & data & Hd & Hs & Hf). split_and!; [done..|]. exists data. split_and!; [done..|].
    destruct (decide (k = id)) as [->|]; [right; by apply Hr; eexists|]. by rewrite Remove_ne.
  - intros k Hk. destruct (Ip k Hk) as (? & ? & ? & ? & data & Hd & Hf). split_and!; [done..|]. exists data. split; [done|].
    destruct (decide (k = id)) as [->|]; [right; by apply Hp|]. by rewrite Remove_ne.
  - done.
  - intros k data Hk%Remove_Some. by apply If.
Qed.

(** Rows of blobs that were there. *)
Lemma inv_rows S d' : blobs_inv S → (∀ id r, blobs d' !! id = Some r → blobs (SyDB S) !! id = Some r) →
  blobs_inv (mkSys d' (SyFiles S) (SyPut S) (SyPending S) (SyDropping S) (SyCleaning S) (SyOrphans S) (SyRaced S)).
Proof.
  intros [Ir Ip Iu If] H. constructor; cbn [SyDB SyFiles SyPut SyPending SyDropping SyCleaning SyOrphans SyRaced]; [| |done|done].
  - intros id r Hr. by apply Ir, H.
  - intros id Hi. destruct (Ip id Hi) as (Hn & Hrest). split; [|done]. destruct (blobs d' !! id) as [r|] eqn:E; [|done]. apply H in E. by rewrite Hn in E.
Qed.

Lemma inv_put_step S id src digest maxBytes f n h : blobs_inv S → SyPut S !! id = None → 0 ≤ maxBytes < 2 ^ 63 - 1 → Put (SyFiles S) id src digest maxBytes = (f, Ok (n, h)) →
  blobs_inv (mkSys (SyDB S) f (<[id := StData src]> (SyPut S)) ({[id]} ∪ SyPending S) (SyDropping S) (SyCleaning S) (SyOrphans S) (SyRaced S)).
Proof.
  intros [Ir Ip Iu If] Hn Hm (_ & -> & _ & _ & _)%Put_Ok; [|done].
  assert (∀ k, is_Some (SyPut S !! k) → k ≠ id) as Hne by (intros k [x Hx] ->; by rewrite Hn in Hx).
  constructor; cbn [SyDB SyFiles SyPut SyPending SyDropping SyCleaning SyOrphans SyRaced].
  - intros k r Hk. destruct (Ir k r Hk) as (? & ? & ? & data & Hd & Hs & Hf). assert (k ≠ id) by (by apply Hne; eexists).
    split_and!; [set_solver|done..|]. exists data. rewrite lookup_insert_ne, (lookup_insert_ne (SyFiles S)) by done. done.
  - intros k [->%elem_of_singleton|Hk]%elem_of_union.
    + split_and!.
      * destruct (blobs (SyDB S) !! id) as [r|] eqn:E; [|done]. destruct (Ir id r E) as (_ & _ & _ & data & Hd & _). by rewrite Hn in Hd.
      * intros Hi. destruct (Hne id); [by apply Iu; left|done].
      * intros Hi. destruct (Hne id); [by apply Iu; right; left|done].
      * intros Hi. destruct (Hne id); [by apply Iu; right; right|done].
      * exists (StData src). rewrite lookup_insert_eq, (lookup_insert_eq (SyFiles S)). by split; [|left].
    + destruct (Ip k Hk) as (? & ? & ? & ? & data & Hd & Hf). assert (k ≠ id) by (by apply Hne; eexists). split_and!; [done..|].
      exists data. rewrite lookup_insert_ne, (lookup_insert_ne (SyFiles S)) by done. done.
  - intros k Hk. rewrite lookup_insert_ne; [by apply Iu|]. intros <-. by destruct (Hne id (Iu id Hk)).
  - intros k data. destruct (decide (k = id)) as [->|]; [by rewrite lookup_insert_eq, (lookup_insert_eq (SyFiles S))|].
    rewrite lookup_insert_ne, (lookup_insert_ne (SyFiles S)) by done. apply If.
Qed.

(** An upload that ends is no longer under way. *)
Lemma inv_done S id : blobs_inv S →
  blobs_inv (mkSys (SyDB S) (SyFiles S) (SyPut S) (SyPending S ∖ {[id]}) (SyDropping S) (SyCleaning S) (SyOrphans S) (SyRaced S)).
Proof.
  intros [Ir Ip Iu If]. constructor; cbn [SyDB SyFiles SyPut SyPending SyDropping SyCleaning SyOrphans SyRaced]; [| |done|done].
  - intros k r Hk. destruct (Ir k r Hk) as (? & H). split; [set_solver|done].
  - intros k [Hk _]%elem_of_difference. by apply Ip.
Qed.
Lemma inv_commit S id data d b st : blobs_inv S → id ∈ SyPending S → SyPut S !! id = Some data → BlobID b = id → SizeBytes b = zlen data → CreateBlob (SyDB S) b st = (d, Ok ()) →
  blobs_inv (mkSys d (SyFiles S) (SyPut S) (SyPending S ∖ {[id]}) (SyDropping S) (SyCleaning S) (SyOrphans S) (SyRaced S)).
Proof.
  intros [Ir Ip Iu If] Hi Hd <- Hs (Hn & E & _)%CreateBlob_Ok. constructor; cbn [SyDB SyFiles SyPut SyPending SyDropping SyCleaning SyOrphans SyRaced]; [| |done|done].
  - intros k r. rewrite E. destruct (decide (k = BlobID b)) as [->|].
    + rewrite lookup_insert_eq. intros [= <-]. destruct (Ip _ Hi) as (_ & Hdr & _ & Ho & data' & Hd' & Hf). assert (data' = data) as -> by congruence.
      split_and!; [set_solver|done|done|]. exists data. cbn [bl_size]. tauto.
    + rewrite lookup_insert_ne by done. intros Hk. destruct (Ir k r Hk) as (? & H). split; [set_solver|done].
  - intros k [Hk Hne%not_elem_of_singleton]%elem_of_difference. rewrite E, lookup_insert_ne by done. by apply Ip.
Qed.
Lemma inv_commit_step S id p data now s' ans : blobs_inv S → id ∈ SyPending S → SyPut S !! id = Some data →
  upload_commit cfg p id (zlen data) now (mkBlobServer (SyDB S) (SyFiles S)) = (s', ans) →
  blobs_inv (mkSys (BsDB s') (BsFiles s') (SyPut S) (SyPending S ∖ {[id]}) (SyDropping S) (SyCleaning S) (SyOrphans S) (SyRaced S)).
Proof.
  intros I Hi Hd. assert (blobs (SyDB S) !! id = None) as Hn by (by apply (inv_pending S I)).
  assert (blobs_inv (mkSys (SyDB S) (Remove (SyFiles S) id) (SyPut S) (SyPending S ∖ {[id]}) (SyDropping S) (SyCleaning S) (SyOrphans S) (SyRaced S))) as Hrm.
  { pose proof (inv_remove _ id (inv_done S id I)) as H. cbn in H. apply H; [rewrite Hn; by intros [? ?]|set_solver]. }
  unfold upload_commit. cbn [BsDB BsFiles]. destruct (recordBlobWithQuota cfg (SyDB S) _ (candidates p)) as [d [[st ex]|e|]] eqn:Er.
  - apply recordBlobWithQuota_Ok in Er as (_ & _ & [[-> ->]|[Hne Hc]]); [change (zlen (@nil bytes) =? 0) with true; cbn iota; by intros [= <- <-]|].
    destruct (Z.eqb_spec (zlen st) 0) as [Hz|_]; [by apply zlen_nil_inv in Hz|]. intros [= <- <-]. cbn [BsDB BsFiles]. exact (inv_commit S id data d (mkBlob id (zlen data) now (add_days now (ServerConfig.BlobRetentionDays cfg))) st I Hi Hd eq_refl eq_refl Hc).
  - apply recordBlobWithQuota_fails in Er as ->; [|done]. by intros [= <- <-].
  - apply recordBlobWithQuota_fails in Er as ->; [|done]. intros [= <- <-]. cbn [BsDB BsFiles]. by apply inv_done.
Qed.

Lemma listed_blob_row d now l b : ListExpiredBlobs d now blobCleanupBatchSize = Ok l ∨ ListUnreferencedBlobs d blobCleanupBatchSize = Ok l → b ∈ l → is_Some (blobs d !! BlobID b).
Proof.
  assert (∀ x, x ∈ map_to_list (blobs d) → ∀ c, scanBlob x.1 x.2 = Ok c → is_Some (blobs d !! BlobID c)) as Hrow.
  { intros [id r] Hx%elem_of_map_to_list c Hc. unfold scanBlob in Hc. apply bind_Ok in Hc as (? & _ & Hc). apply bind_Ok in Hc as (? & _ & Hc). apply Ok_inj in Hc as <-. cbn. by eexists. }
  assert (∀ n (k : list (bytes * blob_row)) x, x ∈ sql_limit n k → x ∈ k) as Hlim.
  { intros n k x. unfold sql_limit. destruct (n <? 0); [done|]. intros Hx. by apply elem_of_take in Hx as (i & Hi & _); apply list_elem_of_lookup_2 in Hi. }
  intros [H|H] Hb; destruct (scan_all_elem _ _ _ _ H Hb) as (x & Hx & Hc); apply Hlim in Hx; rewrite merge_sort_Permutation in Hx;
    apply list_elem_of_filter in Hx as [_ Hx]; by apply (Hrow x).
Qed.
Lemma deleteBlobClaim_rows d id dev d' unref : deleteBlobClaim d id dev = (d', Ok unref) → blobs d' = if unref : bool then delete id (blobs d) else blobs d.
Proof.
  unfold deleteBlobClaim, DeleteBlobForDevice. destruct (bool_decide _); [|done]. destruct (Nat.ltb _ _); by intros [= <- <-].
Qed.
Lemma deleteBlobClaim_row d id dev d' unref : db_wf d → deleteBlobClaim d id dev = (d', Ok unref) → is_Some (blobs d !! id).
Proof.
  unfold deleteBlobClaim, DeleteBlobForDevice. intros Hwf. destruct (bool_decide _) eqn:E; [|done]. intros _. apply bool_decide_eq_true in E. by apply (wf_blob d Hwf) in E as [? _].
Qed.
Lemma inv_unclaimed S id : blobs_inv S → blobs (SyDB S) !! id = None → id ∉ SyPending S → is_Some (SyPut S !! id) →
  blobs_inv (mkSys (SyDB S) (SyFiles S) (SyPut S) (SyPending S) ({[id]} ∪ SyDropping S) (SyCleaning S) (SyOrphans S) (SyRaced S)).
Proof.
  intros [Ir Ip Iu If] Hn Hp Hu. constructor; cbn [SyDB SyFiles SyPut SyPending SyDropping SyCleaning SyOrphans SyRaced].
  - intros k r Hk. destruct (Ir k r Hk) as (? & ? & ?). assert (k ≠ id) by (intros ->; congruence). split; [done|]. split; [set_solver|done].
  - intros k Hk. destruct (Ip k Hk) as (? & ? & ?). assert (k ≠ id) by (intros ->; done). split; [done|]. split; [set_solver|done].
  - intros k [[->%elem_of_singleton|Hk]%elem_of_union|Hk]; [done|apply Iu; by left|apply Iu; by right].
  - done.
Qed.
Lemma inv_listed S id : blobs_inv S → is_Some (blobs (SyDB S) !! id) →
  blobs_inv (mkSys (SyDB S) (SyFiles S) (SyPut S) (SyPending S) (SyDropping S) ({[id]} ∪ SyCleaning S) (SyOrphans S) (SyRaced S)).
Proof.
  intros [Ir Ip Iu If] [r0 Hr0]. constructor; cbn [SyDB SyFiles SyPut SyPending SyDropping SyCleaning SyOrphans SyRaced].
  - intros k r Hk. destruct (Ir k r Hk) as (? & ? & ? & data & ? & ? & Hf). split_and!; [done..|]. exists data. split_and!; [done..|]. set_solver.
  - intros k Hk. destruct (Ip k Hk) as (Hnone & ? & ? & ?). assert (k ≠ id) by (intros ->; congruence). split_and!; [done|done|set_solver|tauto|tauto].
  - intros k [Hk|[[->%elem_of_singleton|Hk]%elem_of_union|Hk]]; [apply Iu; by left| |apply Iu; by right; left|apply Iu; by right; right].
    destruct (Ir _ _ Hr0) as (_ & _ & _ & data & Hd & _). by eexists.
  - done.
Qed.
Lemma inv_found S id : blobs_inv S → id ∈ EachStoredID (SyFiles S) → BlobIDExists (SyDB S) id = false →
  blobs_inv (mkSys (SyDB S) (SyFiles S) (SyPut S) (SyPending S) (SyDropping S) (SyCleaning S) ({[id]} ∪ SyOrphans S)
               (if bool_decide (id ∈ SyPending S) then {[id]} ∪ SyRaced S else SyRaced S)).
Proof.
  intros [Ir Ip Iu If] Hf He. set (raced := if bool_decide _ then _ else _).
  assert (SyRaced S ⊆ raced) as Hsub by (unfold raced; destruct (bool_decide _); set_solver).
  assert (blobs (SyDB S) !! id = None) as Hn by (unfold BlobIDExists in He; by destruct (blobs (SyDB S) !! id)).
  constructor; cbn [SyDB SyFiles SyPut SyPending SyDropping SyCleaning SyOrphans SyRaced].
  - intros k r Hk. destruct (Ir k r Hk) as (? & ? & ? & data & ? & ? & ?). assert (k ≠ id) by (intros ->; congruence). split_and!; [done|done|set_solver|]. exists data. split_and!; [done..|]. set_solver.
  - intros k Hk. destruct (Ip k Hk) as (? & ? & ? & Ho & data & ? & ?). split_and!; [done..| |exists data; set_solver].
    intros [->%elem_of_singleton|Hko]%elem_of_union; [unfold raced; rewrite bool_decide_eq_true_2 by done; set_solver|by apply Hsub, Ho].
  - intros k [Hk|[Hk|[->%elem_of_singleton|Hk]%elem_of_union]]; [apply Iu; by left|apply Iu; by right; left| |apply Iu; by right; right].
    unfold EachStoredID in Hf. apply list_elem_of_fmap in Hf as ([k x] & -> & Hx%elem_of_map_to_list). cbn. apply If in Hx. by eexists.
  - done.
Qed.

Lemma step_wf S S' : step S S' → db_wf (SyDB S) → db_wf (SyDB S').
Proof.
  destruct 1 as [|S id p data now s' ans Hi Hd Hc|S id dev d' unref Hc| | | | | | |]; cbn [SyDB]; intros Hwf; try done.
  - revert Hc. unfold upload_commit. cbn [BsDB BsFiles]. destruct (recordBlobWithQuota cfg (SyDB S) _ (candidates p)) as [d [[st ex]|e|]] eqn:Er.
    + apply recordBlobWithQuota_Ok in Er as (_ & _ & [[-> ->]|[_ Hcb]]); [change (zlen (@nil bytes) =? 0) with true; cbn iota; by intros [= <- <-]|].
      pose proof (CreateBlob_wf (SyDB S) (mkBlob id (zlen data) now (add_days now (ServerConfig.BlobRetentionDays cfg))) st Hwf) as Hw. rewrite Hcb in Hw. destruct (zlen st =? 0); by intros [= <- <-].
    + apply recordBlobWithQuota_fails in Er as ->; [|done]. by intros [= <- <-].
    + apply recordBlobWithQuota_fails in Er as ->; [|done]. by intros [= <- <-].
  - pose proof (DeleteBlobForDevice_wf (SyDB S) id dev Hwf) as Hw. revert Hc. unfold deleteBlobClaim. destruct (DeleteBlobForDevice _ _ _) as [d1 [u|e|]]; by intros [= <- <-].
  - by apply DeleteBlobByID_wf.
  - by apply run_op_wf.
Qed.
Lemma step_inv S S' : step S S' → db_wf (SyDB S) → blobs_inv S → blobs_inv S'.
Proof.
  destruct 1 as [S id src digest maxBytes f n h Hn Hm Hp|S id p data now s' ans Hi Hd Hc|S id dev d' unref Hc|S id Hi|S now l b Hl Hb|S id Hi|S id Hi|S id Hf He|S id Hi|S o Hd]; intros Hwf I.
  - by eapply inv_put_step.
  - by eapply inv_commit_step.
  - pose proof (deleteBlobClaim_rows _ _ _ _ _ Hc) as Er. destruct (deleteBlobClaim_row _ _ _ _ _ Hwf Hc) as [r Hr]. destruct (inv_row S I id r Hr) as (Hp & _ & _ & data & Hdata & _).
    assert (blobs_inv (mkSys d' (SyFiles S) (SyPut S) (SyPending S) (SyDropping S) (SyCleaning S) (SyOrphans S) (SyRaced S))) as I'.
    { apply inv_rows; [done|]. intros k x. rewrite Er. destruct unref; [|done]. intros Hk%lookup_delete_Some. tauto. }
    destruct unref; [|done]. pose proof (inv_unclaimed _ id I') as H. cbn in H. apply H; [by rewrite Er, lookup_delete_eq|done|by eexists].
  - apply inv_remove; [done|intros [r Hr]; by apply (inv_row S I) in Hr as (_ & ? & _)|intros Hp; by apply (inv_pending S I) in Hp as (_ & ? & _)].
  - apply inv_listed; [done|]. by eapply listed_blob_row.
  - apply inv_remove; [done|by left|intros Hp; by apply (inv_pending S I) in Hp as (_ & _ & ? & _)].
  - apply inv_rows; [done|]. intros k r. unfold DeleteBlobByID. cbn [set_blobs blobs]. intros Hk%lookup_delete_Some. tauto.
  - by apply inv_found.
  - apply inv_remove; [done|intros [r Hr]; apply (inv_row S I) in Hr; right; tauto|intros Hp; apply (inv_pending S I) in Hp; tauto].
  - apply inv_rows; [done|]. intros k r. by rewrite Hd.
Qed.

(** C26: a blob that is listed can be fetched.  However uploads, deletions, device removals, the cleanup and the sweep of orphans
    interleave, every row has its file, with the bytes that were uploaded and the size it says -- unless the
    cleanup has listed the blob as expired or claimed by nobody, or the sweep of orphans had found the file while
    its upload was still between file and rows. *)
Theorem rows_have_files d S : db_wf d → blobs d = ∅ → rtc step (start d) S →
  ∀ id r, blobs (SyDB S) !! id = Some r →
    ∃ data, SyPut S !! id = Some data ∧ bl_size r = zlen data ∧ (SyFiles S !! id = Some data ∨ id ∈ SyCleaning S ∨ id ∈ SyRaced S).
Proof.
  intros Hwf Hb Hr. assert (db_wf (SyDB S) ∧ blobs_inv S) as [_ I].
  { remember (start d) as S0 eqn:E0. assert (db_wf (SyDB S0) ∧ blobs_inv S0) as H0.
    { subst S0. split; [done|]. constructor; cbn; [by rewrite Hb|set_solver..|done]. }
    clear E0. induction Hr as [S|S S1 S2 Hs _ IH]; [done|]. destruct H0 as [Hw I]. apply IH. split; [by eapply step_wf|by eapply step_inv]. }
  intros id r Hrow. destruct (inv_row S I id r Hrow) as (_ & _ & _ & H). exact H.
Qed.
End races.
