(* ===== verification/AccountsCorrect.v ===== *)
(** * What the account handlers keep

    A small program logic for handlers, and the invariant every request keeps: account ids
    are derived from their root keys, and every device on file was certified by the root key
    of its account. *)

From S2P Require Import Prelude GoStr GoTime GoTimeParse Sha256 Humancode Crypto Base64 Address DeviceCert HttpSig WakeCoalesce Broker Store StoreIntegrity StoreCorrect StoreQueue Auth AuthCorrect Delivery Federation FederationCorrect Prekeys PrekeysCorrect Accounts.

(** ** Handlers as commands

    [keeps I P m Q]: from a database with [P], the handler ends with [Q] of its result, or
    refuses and leaves a database with [I]. *)

Definition keeps {A} (I P : db → Prop) (m : handler A) (Q : A → db → Prop) : Prop :=
  ∀ d, P d → match m d with (d', Ok a) => Q a d' | (d', _) => I d' end.

Section logic.
Context (I : db → Prop).

Lemma keeps_bind {A B} P (m : handler A) Q (f : A → handler B) R :
  keeps I P m Q → (∀ a, keeps I (Q a) (f a) R) → keeps I P (m ≫= f) R.
Proof.
  intros Hm Hf d Hd. specialize (Hm d Hd). unfold mbind, handler_bind. destruct (m d) as [d1 [a| |]]; [|done..]. by apply Hf.
Qed.
Lemma keeps_ret {A} (P : db → Prop) (a : A) (Q : A → db → Prop) : (∀ d, P d → Q a d) → keeps I P (mret a) Q.
Proof. intros H d Hd. by apply H. Qed.
Lemma keeps_hlift {A} (P : db → Prop) (x : res reply A) : (∀ d, P d → I d) → keeps I P (hlift x) (λ a d, P d ∧ x = Ok a).
Proof. intros H d Hd. unfold hlift. destruct x; auto. Qed.
Lemma keeps_stmt {A} (P : db → Prop) (o : db → db * res StoreError A) e (Q : A → db → Prop) :
  (∀ d, P d → match o d with (d', Ok a) => Q a d' | (d', _) => I d' end) → keeps I P (stmt o e) Q.
Proof. intros H d Hd. specialize (H d Hd). unfold stmt. by destruct (o d) as [d' [a| |]]. Qed.
Lemma keeps_query {A} (P : db → Prop) (o : db → res StoreError A) e :
  (∀ d, P d → I d) → keeps I P (query o e) (λ a d, P d ∧ o d = Ok a).
Proof. intros H. apply keeps_stmt. intros d Hd. destruct (o d); auto. Qed.
Lemma keeps_tx {A} (P : db → Prop) (m : handler A) Q : (∀ d, P d → I d) → keeps (λ _, True) P m Q → keeps I P (in_tx m) Q.
Proof. intros HI H d Hd. specialize (H d Hd). unfold in_tx. destruct (m d) as [d' [a| |]]; auto. Qed.
Lemma keeps_weaken {A} (P P' : db → Prop) (m : handler A) Q : (∀ d, P d → P' d) → keeps I P' m Q → keeps I P m Q.
Proof. intros HP H d Hd. by apply H, HP. Qed.
Lemma keeps_inv {A} (m : handler A) d : keeps I I m (λ _, I) → I d → I (m d).1.
Proof. intros H Hd. specialize (H d Hd). by destruct (m d) as [? []]. Qed.
Lemma keeps_check {A} (x : res reply A) : keeps I I (hlift x) (λ _, I).
Proof. intros d Hd. unfold hlift. by destruct x. Qed.
End logic.

(** One step of a handler that only checks. *)
Ltac kcheck := eapply keeps_bind; [first [apply keeps_hlift; intros ? ?; naive_solver | apply keeps_query; intros ? ?; naive_solver]|intros ?].

Ltac kskip := eapply keeps_bind; [apply keeps_check|intros ?; cbv beta].

(** ** The registry *)

Section registry.
Context {UC : UnicodeCase} {ED : Ed25519}.

Definition stored_time (s : bytes) : Prop := ∃ t, s = formatTime t ∧ year_ok t.

Record device_certified (k : bytes) (r : device_row) (root : bytes) : Prop := {
  dc_cert : ∃ iss, dv_cert_issued_at r = formatTime iss ∧ year_ok iss ∧
    DeviceCertificate.Verify (DeviceCertificate.mk (dv_account_id r) k (dv_pubkey r) iss (dv_cert_signature r)) root = Ok ();
  dc_bytes : is_bytes (dv_pubkey r) ∧ is_bytes (dv_cert_signature r);
  dc_created : stored_time (dv_created_at r);
  dc_revoked : ∀ s, dv_revoked_at r = Some s → stored_time s;
  dc_dh : dh_certified k r;
}.
Record registry (d : db) : Prop := {
  rg_wf : db_wf d;
  rg_account id r : accounts d !! id = Some r →
    Address.DeriveID (ac_root_pubkey r) = Ok id ∧ is_bytes (ac_root_pubkey r) ∧ stored_time (ac_created_at r);
  rg_device k r : devices d !! k = Some r →
    ∃ a, accounts d !! dv_account_id r = Some a ∧ device_certified k r (ac_root_pubkey a);
}.

Lemma registry_empty : registry empty_db.
Proof. split; [apply empty_db_wf|done|done]. Qed.
Lemma registry_frame d d' : registry d → db_wf d' → accounts d' = accounts d → devices d' = devices d → registry d'.
Proof. intros [? ? ?] ? Ea Ed. split; rewrite ?Ea, ?Ed; done. Qed.

(** Replacing a device's row by one with the same certificate. *)
Lemma registry_device d k r r' : registry d → devices d !! k = Some r → dv_account_id r' = dv_account_id r →
  (∀ root, device_certified k r root → device_certified k r' root) →
  db_wf (set_devices d (<[k := r']> (devices d))) → registry (set_devices d (<[k := r']> (devices d))).
Proof.
  intros [? Ha Hd] Hr Eacc Hc Hwf. split; [done|done|]. simpl. intros i x [[<- <-]|[? Hx]]%lookup_insert_Some; [|by apply Hd].
  destruct (Hd k r Hr) as (a & Hacc & Hcert). exists a. rewrite Eacc. split; [done|by apply Hc].
Qed.

(** Replacing an account's row by one with the same key and creation time. *)
Lemma registry_account d id r r' : registry d → accounts d !! id = Some r → ac_id_prefix r' = ac_id_prefix r →
  ac_root_pubkey r' = ac_root_pubkey r → ac_created_at r' = ac_created_at r →
  registry (set_accounts d (<[id := r']> (accounts d))).
Proof.
  intros [? Ha Hd] Hr E1 E2 E3. split; [by eapply update_account_wf| |]; simpl.
  - intros i x [[<- <-]|[? Hx]]%lookup_insert_Some; [rewrite E2, E3|]; by apply Ha.
  - intros k x Hx. destruct (Hd k x Hx) as (a & Hacc & Hcert). destruct (decide (dv_account_id x = id)) as [E|E].
    + exists r'. rewrite E, lookup_insert_eq, E2. rewrite E in Hacc. split; [done|]. congruence.
    + exists a. by rewrite lookup_insert_ne.
Qed.

(** ** The statements *)

Lemma registry_create_account d acc : registry d → Address.DeriveID (RootPubKey acc) = Ok (ID acc) → is_bytes (RootPubKey acc) →
  year_ok (CreatedAt acc) → registry (CreateAccount d acc).1.
Proof.
  intros Hr Hid Hb Hy. pose proof (CreateAccount_wf d acc (rg_wf _ Hr)) as Hwf. destruct Hr as [? Ha Hd]. unfold CreateAccount in *.
  destruct (_ || _) eqn:E; [done|]. apply orb_false_iff in E as [E _]. split; [done| |]; simpl.
  - intros i x [[<- <-]|[? Hx]]%lookup_insert_Some; [|by apply Ha]. simpl. split_and!; [done..|]. by exists (CreatedAt acc).
  - intros k x Hx. destruct (Hd k x Hx) as (a & Hacc & Hcert). exists a. split; [|done].
    rewrite lookup_insert_ne; [done|]. intros E'. rewrite E' in E. by rewrite Hacc in E.
Qed.

(** A device whose certificate verifies under the root key of its account. *)
Definition certifies (e : enrolment) (accountID root : bytes) : Prop :=
  year_ok (EnIssuedAt e) ∧ is_bytes (EnDevicePub e) ∧ is_bytes (EnSignature e) ∧ verify_enrolment accountID e root = Ok ().
Lemma registry_create_device d accountID e now a : registry d → accounts d !! accountID = Some a → certifies e accountID (ac_root_pubkey a) →
  year_ok now → registry (CreateDevice d (new_device accountID e now)).1.
Proof.
  intros Hr Hacc (Hy & Hb1 & Hb2 & Hv) Hn. pose proof (CreateDevice_wf d (new_device accountID e now) (rg_wf _ Hr)) as Hwf.
  destruct Hr as [? Ha Hd]. unfold CreateDevice in *. destruct (present (devices d !! _)); [done|]. destruct (negb _); [done|].
  split; [done|done|]. simpl. intros k x [[<- <-]|[? Hx]]%lookup_insert_Some; [|by apply Hd]. exists a. split; [done|].
  split; simpl; try done.
  - exists (EnIssuedAt e). split_and!; [done..|]. unfold verify_enrolment in Hv. by apply or_reply_Ok in Hv.
  - by exists now.
Qed.

Lemma registry_revoke d acc k t : registry d → year_ok t → registry (RevokeDevice d acc k t).1.
Proof.
  intros Hr Hy. pose proof (run_op_wf d (ORevokeDevice acc k t) (rg_wf _ Hr)) as Hwf. cbn [run_op] in Hwf. unfold RevokeDevice in *.
  destruct (devices d !! k) as [r|] eqn:E; [|done]. destruct (_ && _); [|done]. simpl in *. eapply registry_device; [done..| |done].
  intros root []. split; simpl; try done. intros s [= <-]. by exists t.
Qed.
Lemma registry_dh d k pub sig t r : registry d → devices d !! k = Some r → year_ok t → is_bytes pub → is_bytes sig →
  DHIdentityCertificate.Verify (DHIdentityCertificate.mk (dv_account_id r) k pub t sig) (dv_pubkey r) = Ok () →
  registry (UpsertDHIdentity d k pub sig t).1.
Proof.
  intros Hr E Hy Hb1 Hb2 Hv. pose proof (run_op_wf d (OUpsertDHIdentity k pub sig t) (rg_wf _ Hr)) as Hwf. cbn [run_op] in Hwf.
  unfold UpsertDHIdentity in *. rewrite E in *. simpl in *. eapply registry_device; [done..| |done].
  intros root []. split; simpl; try done. intros k' [= <-]. simpl. by exists t, sig.
Qed.
Lemma registry_push d k sub : registry d → registry (SetDevicePushSubscription d k sub).1.
Proof.
  intros Hr. pose proof (run_op_wf d (OSetPush k sub) (rg_wf _ Hr)) as Hwf. cbn [run_op] in Hwf. unfold SetDevicePushSubscription in *.
  destruct (devices d !! k) as [r|] eqn:E; [|done]. destruct sub; eapply registry_device; try done; by intros root [].
Qed.
Lemma registry_target d k t : registry d → registry (SetDevicePushTarget d k t).1.
Proof.
  intros Hr. pose proof (run_op_wf d (OSetTarget k t) (rg_wf _ Hr)) as Hwf. cbn [run_op] in Hwf. unfold SetDevicePushTarget in *.
  destruct (devices d !! k) as [r|] eqn:E; [|done]. destruct t; eapply registry_device; try done; by intros root [].
Qed.
Lemma registry_role d id role : registry d → registry (SetAccountRole d id role).1.
Proof. intros Hr. unfold SetAccountRole. destruct (accounts d !! id) as [r|] eqn:E; [|done]. by eapply registry_account. Qed.
Lemma registry_status d id st : registry d → registry (SetAccountStatus d id st).1.
Proof. intros Hr. unfold SetAccountStatus. destruct (accounts d !! id) as [r|] eqn:E; [|done]. by eapply registry_account. Qed.
Lemma registry_delete d id : registry d → registry (DeleteAccount d id).1.
Proof.
  intros Hr. pose proof (DeleteAccount_wf d id (rg_wf _ Hr)) as Hwf. destruct Hr as [? Ha Hd]. unfold DeleteAccount in *.
  destruct (accounts d !! id) as [ra|] eqn:Ea; [|done]. cbv zeta in *. split; [done| |]; simpl.
  - intros i x [_ Hx]%lookup_delete_Some. by apply Ha.
  - intros k x [Hx Hg]%map_lookup_filter_Some. destruct (Hd k x Hx) as (a & Hacc & Hc). exists a. split; [|done].
    rewrite lookup_delete_ne; [done|]. intros E. apply Hg, elem_of_dom. exists x. by apply map_lookup_filter_Some.
Qed.

(** The operations that touch neither accounts nor devices. *)
Definition quiet (o : op) : bool :=
  match o with
  | OCreateAccount _ | OSetAccountRole _ _ | OSetAccountStatus _ _ | ODeleteAccount _ | OCreateDevice _ | ORevokeDevice _ _ _
  | OUpsertDHIdentity _ _ _ _ | OSetPush _ _ | OSetTarget _ _ => false
  | _ => true
  end.
Lemma AddOneTimePrekeys_accounts d k keys now : accounts (AddOneTimePrekeys d k keys now).1 = accounts d.
Proof.
  revert d. induction keys as [|x keys IH]; intros d; [done|]. cbn [AddOneTimePrekeys].
  destruct (present _); [|done]. cbv zeta. set (d1 := set_one_time _ _ _). exact (IH d1).
Qed.
Lemma insert_recipients_accounts d b ids : accounts (insert_recipients d b ids).1 = accounts d.
Proof.
  revert d. induction ids as [|x ids IH]; intros d; [done|]. cbn [insert_recipients].
  destruct (_ || _); [done|]. cbv zeta. set (d1 := set_blobs _ _ _). exact (IH d1).
Qed.
Lemma CreateBlob_accounts d b ids : accounts (CreateBlob d b ids).1 = accounts d.
Proof. unfold CreateBlob. repeat (case_match; try done); pose proof insert_recipients_accounts as H'; by rewrite H'. Qed.
Lemma quiet_frame d o : quiet o = true → accounts (run_op d o) = accounts d ∧ devices (run_op d o) = devices d.
Proof.
  destruct o; intros Hq; try done; cbn [run_op].
  - unfold UpsertSignedPrekey. by case_match.
  - pose proof (AddOneTimePrekeys_frame d dev keys now) as H. split; [apply AddOneTimePrekeys_accounts|apply H].
  - unfold ClaimOneTimePrekey. by repeat case_match.
  - unfold CreateMessage. by repeat case_match.
  - unfold CreateMessageUnderCap, CreateMessage. by repeat case_match.
  - unfold DeleteMessage. by repeat case_match.
  - unfold InitSetupToken. by repeat case_match.
  - unfold ClaimSetupToken. by repeat case_match.
  - unfold RecordFailedSetupTokenAttempt. by repeat case_match.
  - unfold CreateInviteCode. by repeat case_match.
  - unfold ConsumeInviteCode. by repeat case_match.
  - pose proof (CreateBlob_frame d b ids) as H. split; [apply CreateBlob_accounts|apply H].
  - pose proof (CreateBlobWithQuota_frame d b ids n m) as H. split; [|apply H].
    destruct (CreateBlobWithQuota_db d b ids n m) as [-> | ->]; [done|apply CreateBlob_accounts].
  - unfold DeleteBlobForDevice. by repeat case_match.
  - unfold RecordNonce. by repeat case_match.
Qed.
Lemma registry_quiet d o : quiet o = true → registry d → registry (run_op d o).
Proof. intros Hq Hr. destruct (quiet_frame d o Hq). eapply registry_frame; eauto. apply run_op_wf, Hr. Qed.

(** ** The handlers *)

(** The times a request states have, in UTC, a four-digit year: others cannot be stored. *)
Definition year_of (s : bytes) : Prop := ∀ t, time_parse s = Some t → year_ok t.

Lemma GetAccount_row d id acc : GetAccount d id = Ok acc →
  ID acc = id ∧ ∃ row, accounts d !! id = Some row ∧ ac_root_pubkey row = RootPubKey acc ∧ ac_status row = Status acc ∧ ac_role row = AccRole acc.
Proof.
  unfold GetAccount. destruct (accounts d !! id) as [row|]; [|done]. unfold scanAccount. intros H.
  apply bind_Ok in H as (t & _ & H). apply Ok_inj in H as <-. split; [done|]. by exists row.
Qed.

Lemma decode_registration_inv root dev pub issued sig id rootPub e :
  decode_registration root dev pub issued sig = Ok (id, rootPub, e) →
  Address.DeriveID rootPub = Ok id ∧ is_bytes rootPub ∧ EnDeviceID e = dev ∧ (year_of issued → certifies e id rootPub).
Proof.
  unfold decode_registration. intros H. apply bind_Ok in H as (rp & E1%from_option_Ok%decodeBase64Key_bytes & H).
  apply bind_Ok in H as (dp & E2%from_option_Ok%decodeBase64Key_bytes & H). apply bind_Ok in H as (iss & E3%from_option_Ok & H).
  apply bind_Ok in H as (sg & E4%from_option_Ok%decodeBase64Key_bytes & H). apply bind_Ok in H as (i & E5%or_reply_Ok & H).
  apply bind_Ok in H as ([] & E6 & H). injection H as <- <- <-. destruct E1, E2, E4. split_and!; [done..|].
  intros Hy. split_and!; [by apply Hy|done..].
Qed.

Lemma create_account_then_device d id rootPub role e now d1 :
  registry d → Address.DeriveID rootPub = Ok id → is_bytes rootPub → certifies e id rootPub → year_ok now →
  CreateAccount d (new_account id rootPub role now) = (d1, Ok ()) →
  registry d1 ∧ registry (CreateDevice d1 (new_device id e now)).1.
Proof.
  intros Hr Hid Hb Hc Hn E.
  assert (registry d1) as Hr1 by (change d1 with (d1, @Ok StoreError () ()).1; rewrite <- E; by apply registry_create_account).
  split; [done|]. unfold CreateAccount in E. destruct (_ || _); [by case_match|]. injection E as <-.
  eapply registry_create_device; [done|simpl; by rewrite lookup_insert_eq|done|done].
Qed.

Lemma register_keeps f now b : year_ok now → (∀ req, b = Some req → year_of (RgIssuedAt req)) →
  keeps registry registry (handleRegisterAccount f now b) (λ _, registry).
Proof.
  intros Hn Hy. unfold handleRegisterAccount. kcheck. kcheck. destruct a0 as [[id root] e]. do 3 kcheck.
  eapply (keeps_bind _ _ _ (λ _, registry)); [|intros ?; by apply keeps_ret]. apply keeps_tx; [naive_solver|].
  eapply (keeps_bind _ _ _ (λ _ d1, registry d1 ∧ registry (CreateDevice d1 (new_device id e now)).1)).
  { apply keeps_stmt. intros d (((((Hr & Hb) & Hdec) & _) & _) & _).
    destruct (CreateAccount d _) as [d1 [[]| |]] eqn:E; [|done..].
    apply from_option_Ok in Hb as ->. apply decode_registration_inv in Hdec as (? & ? & ? & Hc).
    eapply create_account_then_device; eauto. }
  intros _. eapply (keeps_bind _ _ _ (λ _, registry)).
  { apply keeps_stmt. intros d [_ Hd]. by destruct (CreateDevice d _) as [d1 [[]| |]]. }
  intros _. destruct (_ =?b _); [|by apply keeps_ret]. apply keeps_stmt. intros d Hd.
  pose proof (registry_quiet d (OConsumeInvite (default [] (RgInviteCode a)) id now) eq_refl Hd) as H. cbn [run_op] in H.
  by destruct (ConsumeInviteCode d _ id now) as [d1 [[]| |]].
Qed.

Lemma bootstrap_keeps now b d : year_ok now → (∀ req, b = Some req → year_of (BsIssuedAt req)) → registry d →
  registry (handleBootstrapClaim now b d).1.
Proof.
  intros Hn Hy Hr. unfold handleBootstrapClaim.
  destruct (from_option b _ ≫= _) as [[token [[id root] e]]| |] eqn:E; [|done..].
  apply bind_Ok in E as (req & ->%from_option_Ok & E). apply bind_Ok in E as (x & Hdec & E). injection E as _ ->.
  apply decode_registration_inv in Hdec as (? & ? & _ & Hc). cbv zeta.
  destruct (CreateAccount d _) as [d1 [[]| |]] eqn:E1; [|done..].
  destruct (create_account_then_device _ _ _ _ _ _ _ Hr H H0 (Hc (Hy _ eq_refl)) Hn E1) as [Hr1 Hr2].
  destruct (CreateDevice d1 _) as [d2 [[]| |]]; [|done..].
  pose proof (registry_quiet d2 (OClaimSetup token id now) eq_refl Hr2) as Hq. cbn [run_op] in Hq.
  destruct (ClaimSetupToken d2 token id now) as [d3 [[]| e'|]]; [done| |done].
  destruct e'; try done. by apply (registry_quiet d OFailedSetup).
Qed.

Lemma add_device_keeps now identity b : year_ok now → (∀ req, b = Some req → year_of (AdIssuedAt req)) →
  keeps registry registry (handleAddDevice now identity b) (λ _, registry).
Proof.
  intros Hn Hy. unfold handleAddDevice. do 6 kcheck. cbv zeta. kcheck. eapply (keeps_bind _ _ _ (λ _, registry)); [|intros _; by apply keeps_ret].
  apply keeps_stmt. intros d (((((((Hr & Hb) & _) & H1) & H2) & H3) & Hacc) & Hv).
  apply from_option_Ok in Hb as ->. apply from_option_Ok, decodeBase64Key_bytes in H1 as []. apply from_option_Ok in H2.
  apply from_option_Ok, decodeBase64Key_bytes in H3 as []. apply GetAccount_row in Hacc as (_ & r & E & Eroot & _). destruct a5.
  assert (registry (CreateDevice d (new_device (AdAccountID a) (mkEnrolment (AdDeviceID a) a1 a2 a3) now)).1) as Hd.
  { eapply registry_create_device; [exact Hr|exact E| |exact Hn]. rewrite Eroot. split_and!; try done. by apply (Hy _ eq_refl). }
  by destruct (CreateDevice d _) as [d1 [[]| |]].
Qed.

Lemma revoke_keeps identity path b : (∀ req, b = Some req → year_of (RkRevokedAt req)) →
  keeps registry registry (handleRevokeDevice identity path b) (λ _, registry).
Proof.
  intros Hy. unfold handleRevokeDevice. do 7 kcheck. eapply (keeps_bind _ _ _ (λ _, registry)); [|intros _; by apply keeps_ret].
  apply keeps_stmt. intros d (((((((Hr & Hb) & _) & _) & H1) & _) & _) & _). apply from_option_Ok in Hb as ->. apply from_option_Ok in H1.
  pose proof (registry_revoke d (IdAccountID identity) (RkDeviceID a) a2 Hr (Hy _ eq_refl _ H1)) as Hd.
  by destruct (RevokeDevice d _ _ _) as [d1 [[]| |]].
Qed.

Lemma push_endpoint_keeps h identity dev b : keeps registry registry (handleSetPushEndpoint h identity dev b) (λ _, registry).
Proof.
  unfold handleSetPushEndpoint. do 4 kcheck. eapply (keeps_bind _ _ _ (λ _, registry)); [|intros _; by apply keeps_ret].
  apply keeps_stmt. intros d ((((Hr & _) & _) & _) & _). pose proof (registry_push d dev a2 Hr) as Hd.
  by destruct (SetDevicePushSubscription d _ _) as [d1 [[]| |]].
Qed.
Lemma push_target_keeps identity dev b : keeps registry registry (handleSetPushTarget identity dev b) (λ _, registry).
Proof.
  unfold handleSetPushTarget. do 4 kcheck. eapply (keeps_bind _ _ _ (λ _, registry)); [|intros _; by apply keeps_ret].
  apply keeps_stmt. intros d ((((Hr & _) & _) & _) & _). pose proof (registry_target d dev a2 Hr) as Hd.
  by destruct (SetDevicePushTarget d _ _) as [d1 [[]| |]].
Qed.

Lemma change_keeps decide : keeps registry registry (decide_then_write decide) (λ _, registry).
Proof.
  intros d Hr. unfold decide_then_write. destruct (decide d) as [c| |]; [|done..].
  enough (registry (write_change c d).1) as H.
  { unfold mbind, handler_bind. by destruct (write_change c d) as [d1 [[]| |]]. }
  destruct c; cbn [write_change]; unfold stmt.
  - pose proof (registry_role d id role Hr) as H. by destruct (SetAccountRole d id role) as [d1 [[]| |]].
  - pose proof (registry_status d id status Hr) as H. by destruct (SetAccountStatus d id status) as [d1 [[]| |]].
  - pose proof (registry_delete d id Hr) as H. by destruct (DeleteAccount d id) as [d1 [[]| |]].
Qed.

Lemma revoke_others_keeps acc new now l : year_ok now → keeps (λ _, True) registry (revoke_others acc new now l) (λ _, registry).
Proof.
  intros Hn. induction l as [|x l IH]; [by apply keeps_ret|]. cbn [revoke_others]. eapply (keeps_bind _ _ _ (λ _, registry)); [|intros _; exact IH].
  destruct (_ || _); [by apply keeps_ret|]. intros d Hr. pose proof (registry_revoke d acc (DeviceID x) now Hr Hn) as Hd.
  destruct (RevokeDevice d acc (DeviceID x) now) as [d1 [[]|[]|]]; done.
Qed.

Lemma verifyRootSignature_frame now r body acc d : ∃ o, (verifyRootSignature now r body acc d).1 = d ∨
  quiet o = true ∧ (verifyRootSignature now r body acc d).1 = run_op d o.
Proof.
  unfold verifyRootSignature. destruct (or_reply _ _ ≫= _) as [[h ts]| |].
  - exists (ORecordNonce (KeyID h) (Nonce h) ts (time_add ts MaxClockSkew)). by right.
  - exists OFailedSetup. by left.
  - exists OFailedSetup. by left.
Qed.

Lemma recover_keeps now r path b : year_ok now →
  (∀ x req, b = inr x → raw_decoded x = Some req → year_of (RvIssuedAt req)) →
  keeps registry registry (handleRecoverAccount now r path b) (λ _, registry).
Proof.
  intros Hn Hy. unfold handleRecoverAccount. kcheck. eapply keeps_bind; [apply keeps_query; naive_solver|]. intros account.
  eapply keeps_bind; [apply keeps_hlift; naive_solver|]. intros body. eapply keeps_bind; [apply keeps_hlift; naive_solver|]. intros req. kcheck.
  eapply (keeps_bind _ _ _ (λ ok d, registry d ∧ (∃ row, accounts d !! ID account = Some row ∧ ac_root_pubkey row = RootPubKey account) ∧
    year_of (RvIssuedAt req))).
  { intros d (((((Hr & Hid) & Hacc) & Hb) & Hreq) & _). apply from_option_Ok in Hreq. destruct b as [?|x]; [done|]. apply Ok_inj in Hb as ->.
    destruct (verifyRootSignature_frame now r (raw_bytes body) account d) as (o & Ho).
    destruct (verifyRootSignature now r (raw_bytes body) account d) as [d1 ok]. simpl in Ho.
    assert (registry d1 ∧ accounts d1 = accounts d) as [Hr1 Ed].
    { destruct Ho as [->|[Hq ->]]; [done|]. split; [by apply registry_quiet|by apply quiet_frame]. }
    split_and!; [done| |by eapply Hy]. apply GetAccount_row in Hacc as (-> & row & ? & ? & _). exists row. by rewrite Ed. }
  intros ok. kcheck. kcheck. eapply keeps_bind; [apply keeps_hlift; naive_solver|]. intros pub.
  eapply keeps_bind; [apply keeps_hlift; naive_solver|]. intros iss. eapply keeps_bind; [apply keeps_hlift; naive_solver|]. intros sig.
  eapply keeps_bind; [apply keeps_hlift; naive_solver|]. intros [].
  eapply (keeps_bind _ _ _ (λ _, registry)); [|intros _; kcheck; apply keeps_ret; naive_solver].
  apply keeps_tx; [naive_solver|]. eapply keeps_bind; [apply keeps_query; done|]. intros existing.
  eapply (keeps_bind _ _ _ (λ _, registry)); [|intros _; by apply revoke_others_keeps].
  apply keeps_stmt. intros d ((((((((Hr & (row & Hrow & Eroot) & Hyr) & _) & _) & H1) & H2) & H3) & Hv) & _).
  apply from_option_Ok, decodeBase64Key_bytes in H1 as []. apply from_option_Ok in H2. apply from_option_Ok, decodeBase64Key_bytes in H3 as [].
  assert (registry (CreateDevice d (new_device (ID account) (mkEnrolment (RvDeviceID req) pub iss sig) now)).1) as Hd.
  { eapply registry_create_device; [exact Hr|exact Hrow| |done]. rewrite Eroot. split_and!; try done. by apply Hyr. }
  by destruct (CreateDevice d _) as [d1 [[]| |]].
Qed.

(** ** Prekey uploads *)

(** The identity the middleware hands on is a device on file, of the account it names. *)
Definition genuine (d : db) (identity : Identity) : Prop :=
  ∃ r a, devices d !! IdDeviceID identity = Some r ∧ dv_account_id r = IdAccountID identity ∧ dv_status r = DeviceStatusActive ∧
    accounts d !! IdAccountID identity = Some a ∧ ac_status a = AccountStatusActive ∧ ac_role a = IdRole identity.
Lemma authenticate_genuine m d now r m' identity : authenticate m d now r = (m', Ok identity) → genuine d identity.
Proof.
  intros (h & ts & dev & Hc & _ & _ & Hid)%authenticate_inv. apply check_signature_inv in Hc as (_ & _ & _ & Hd & Ha & _).
  apply GetDevice_id in Hd as (Eid & row & Hrow & Eacc & Est & _). unfold load_identity in Hid. apply bind_Ok in Hid as (acc & Hacc & Hid).
  apply wrap_err_Ok in Hacc. destruct (Status acc =?b AccountStatusActive) eqn:Es; [|done]. apply eqb_true_1 in Es. apply Ok_inj in Hid as <-.
  apply GetAccount_row in Hacc as (_ & a & Hrowa & _ & Esa & Er). exists row, a. simpl. rewrite Eid. split_and!; congruence.
Qed.

Lemma keeps_quiet {A} (o : db → op) (s : db → db * res StoreError A) e :
  (∀ d, quiet (o d) = true) → (∀ d, (s d).1 = run_op d (o d)) → keeps registry registry (stmt s e) (λ _, registry).
Proof.
  intros Hq Hs. apply keeps_stmt. intros d Hd. pose proof (registry_quiet d (o d) (Hq d) Hd) as H. rewrite <- Hs in H.
  by destruct (s d) as [d' []].
Qed.

Definition upload_years (req : uploadPrekeysRequest) : Prop := ∀ c, UpDHIdentityCert req = Some c → year_of (DhIssuedAt c).

(** The upload writes the devices table only for the DH identity. *)
Lemma upload_keeps now identity dev b : (∀ req, b = Some req → upload_years req) →
  keeps registry (λ d, registry d ∧ genuine d identity) (handleUploadPrekeys now identity dev b) (λ _, registry).
Proof.
  intros Hy. unfold handleUploadPrekeys. kcheck. eapply keeps_bind; [apply keeps_hlift; naive_solver|]. intros req.
  eapply keeps_bind; [apply keeps_query; naive_solver|]. intros device.
  eapply (keeps_bind _ _ _ (λ _, registry)); [|intros k].
  { destruct (UpDHIdentityCert req) as [c|] eqn:Ec; [|apply keeps_ret; naive_solver].
    unfold upload_dh_identity. eapply keeps_bind; [apply keeps_hlift; naive_solver|]. intros pub.
    eapply keeps_bind; [apply keeps_hlift; naive_solver|]. intros iss. eapply keeps_bind; [apply keeps_hlift; naive_solver|]. intros sig.
    eapply keeps_bind; [apply keeps_hlift; naive_solver|]. intros [].
    eapply (keeps_bind _ _ _ (λ _, registry)); [|intros _; by apply keeps_ret]. apply keeps_stmt.
    intros d (((((((( Hr & Hg) & Hdev) & Hb) & Hget) & H1) & H2) & H3) & Hv). apply from_option_Ok in Hb as ->.
    apply from_option_Ok, decodeBase64Key_bytes in H1 as []. apply from_option_Ok in H2. apply from_option_Ok, decodeBase64Key_bytes in H3 as [].
    apply or_reply_Ok in Hv. apply check_Ok, eqb_true_1 in Hdev as <-. destruct Hg as (row & acc & Hrow & Eacc & _).
    apply GetDevice_id in Hget as (_ & row' & Hrow' & _ & _ & Ep). rewrite Hrow in Hrow'. injection Hrow' as <-.
    assert (registry (UpsertDHIdentity d (IdDeviceID identity) pub sig iss).1) as Hd.
    { eapply registry_dh; [done|exact Hrow|by eapply (Hy _ eq_refl)|done|done|]. by rewrite Eacc, <- Ep. }
    by destruct (UpsertDHIdentity d _ _ _ _) as [d1 [[]| |]]. }
  kskip. eapply (keeps_bind _ _ _ (λ _, registry)); [|intros ?].
  { unfold upload_signed_prekey. do 6 kskip. eapply (keeps_quiet (λ _, OUpsertSignedPrekey _)); [done|]. intros d. cbn [run_op]. reflexivity. }
  eapply (keeps_bind _ _ _ (λ _, registry)); [|intros ?].
  { apply keeps_stmt. intros d Hd. destruct (UpReplace req); [|done]. by apply (registry_quiet d (ODeleteOneTime dev)). }
  eapply (keeps_bind _ _ _ (λ _, registry)); [|intros ?; by apply keeps_ret]. unfold upload_one_time.
  destruct (UpOneTimePrekeys req); [by apply keeps_ret|]. kskip. eapply (keeps_quiet (λ _, OAddOneTime dev _ now)); [done|]. intros d. cbn [run_op]. reflexivity.
Qed.

End registry.
