(* ===== verification/ReportsCorrect.v ===== *)
(** * Abuse reports: what holds of the table and of its moderation

    The invariant of the table under every operation of the server, what filing a report
    does to the counters, and how far a moderator reaches. *)

From S2P Require Import Prelude GoStr GoTime GoTimeParse Sha256 Humancode Crypto Base64 Bech32m Address Config DeviceCert ProfileClaim HttpSig WakeCoalesce Broker Store StoreIntegrity StoreCorrect StoreQueue Auth AuthCorrect Delivery Federation FederationCorrect Prekeys PrekeysCorrect Accounts AccountsCorrect Reports.
Import Reports.

(** ** The evidence that is kept *)

Section evidence.
Context {ED : Ed25519}.

Lemma claim_Verify_not_Panic c acc key : Claim.Verify c acc key ≠ Panic.
Proof.
  unfold Claim.Verify. assert (Claim.ValidateName (Claim.Name c) ≠ Panic) as Hn.
  { unfold Claim.ValidateName. repeat case_match; try done. generalize (runes (Claim.Name c)). intros rs. induction rs as [|r rs IH]; [done|].
    cbn [Claim.check_runes]. repeat case_match; done. }
  destruct (Claim.ValidateName _); [|done|done]. cbn [mbind res_bind]. destruct (negb (zlen (Claim.Signature c) =? _)); [done|].
  destruct (zlen key =? ed25519_PublicKeySize) eqn:Ek; [|done]. cbn [negb].
  unfold Claim.signingBytes. destruct (acc =?b []); [done|]. destruct (hex_decode _) as [b|]; [|done]. cbn [from_option mbind res_bind].
  destruct (negb (zlen b =? deviceIDBytes)); [done|]. cbn [mbind res_bind]. unfold ed25519_Verify. rewrite Ek. cbn [mbind res_bind].
  by case_match.
Qed.

(** A claim a device of the account signed. *)
Definition verified (keys : gmap bytes bytes) (acc : bytes) (c : Claim.t) : Prop :=
  ∃ key, keys !! Claim.DeviceID c = Some key ∧ Claim.Verify c acc key = Ok ().
#[export] Instance verified_dec keys acc c : Decision (verified keys acc c).
Proof.
  destruct (keys !! Claim.DeviceID c) as [key|] eqn:E; [|right; intros (k & H & _); congruence].
  destruct (Claim.Verify c acc key) as [[]|e|] eqn:V; [left; by exists key|right; intros (k & H & H'); congruence..].
Defined.

(** The loop overwrites the array it reads, behind the place it reads from: it keeps exactly
    the claims that verify, in their order, and stays within the array. *)
Lemma keep_claims_from keys acc claims steps i n arr K :
  length arr = length claims → drop i arr = drop i claims → take n arr = K → length K = n → (n ≤ i)%nat → (i + steps = length claims)%nat →
  keep_claims steps i n keys acc arr = Ok (K ++ filter (verified keys acc) (drop i claims)).
Proof.
  revert i n arr K. induction steps as [|steps IH]; intros i n arr K Hl Hd Ht Hn Hle Hi; cbn [keep_claims].
  { rewrite drop_ge by lia. cbn. by rewrite app_nil_r, Ht. }
  destruct (lookup_lt_is_Some_2 claims i ltac:(lia)) as [c Hc].
  assert (arr !! i = Some c) as Ha.
  { rewrite <- (Nat.add_0_r i), <- lookup_drop, Hd, lookup_drop, Nat.add_0_r. done. }
  assert (∀ arr', drop i arr' = drop i claims → drop (S i) arr' = drop (S i) claims) as Hstep.
  { intros arr' H. replace (S i) with (i + 1)%nat by lia. by rewrite <- !drop_drop, H. }
  rewrite Ha, (drop_S _ c) by done. cbn [filter list_filter]. unfold decide at 1.
  destruct (verified_dec keys acc c) as [(key & Ek & Ev)|Hno].
  - rewrite Ek, Ev. rewrite (IH (S i) (S n) _ (K ++ [c])); [by rewrite <- app_assoc|by rewrite length_insert| |  |rewrite length_app; cbn; lia|lia|lia].
    + rewrite drop_insert_lt by lia. by apply Hstep.
    + rewrite (take_S_r _ _ c) by (apply list_lookup_insert_eq; lia). by rewrite take_insert_ge, Ht by lia.
  - destruct (keys !! Claim.DeviceID c) as [key|] eqn:Ek; [|apply IH; auto; lia].
    destruct (Claim.Verify c acc key) as [[]|e|] eqn:Ev; [destruct Hno; by exists key|apply IH; auto; lia|by apply claim_Verify_not_Panic in Ev].
Qed.
Lemma keep_claims_filter keys acc claims : keep_claims (length claims) 0 0 keys acc claims = Ok (filter (verified keys acc) claims).
Proof. by rewrite (keep_claims_from keys acc claims _ _ _ _ []) by (try done; lia). Qed.
End evidence.

(** ** The table *)

Lemma eqb_sym {A} `{EqDecision A} (x y : A) : (x =?b y) = (y =?b x).
Proof. unfold eqb. by apply bool_decide_ext. Qed.


(** An update by a unique key changes the one row that has it. *)
Lemma update_at {A K} `{EqDecision K} (k : A → K) key (g : A → A) (l : list A) : NoDup (k <$> l) → key ∈ k <$> l →
  ∃ l1 x l2, l = l1 ++ x :: l2 ∧ k x = key ∧ (∀ y, y ∈ l1 ++ l2 → k y ≠ key) ∧
    ((λ y, if bool_decide (k y = key) then g y else y) <$> l) = l1 ++ g x :: l2.
Proof.
  intros Hnd (x & Hk & (l1 & l2 & ->)%list_elem_of_split)%list_elem_of_fmap. exists l1, x, l2.
  assert (∀ y, y ∈ l1 ++ l2 → k y ≠ key) as Hno.
  { intros y Hy Hky. rewrite fmap_app, fmap_cons, <- Permutation_middle, NoDup_cons, <- fmap_app in Hnd. destruct Hnd as [Hnd _].
    apply Hnd, list_elem_of_fmap. exists y. split; [congruence|done]. }
  split_and!; [done|done|done|]. rewrite fmap_app, fmap_cons, (bool_decide_true (k x = key)) by done.
  f_equal; [|f_equal]; (rewrite <- list_fmap_id; apply list_fmap_ext; intros i y Hy%list_elem_of_lookup_2; rewrite bool_decide_false; [done|]; apply Hno; set_solver).
Qed.

Lemma where_id {A} (k : A → Z) id (g : A → A) (l : list A) : ((λ y, if k y =? id then g y else y) <$> l) = ((λ y, if bool_decide (k y = id) then g y else y) <$> l).
Proof. apply list_fmap_ext. intros ? y _. case_bool_decide as E; [by rewrite (proj2 (Z.eqb_eq _ _) E)|by rewrite (proj2 (Z.eqb_neq _ _) E)]. Qed.

Lemma below_next_id l x : x ∈ l → rp_id x < next_id l.
Proof. unfold next_id. induction 1 as [x l|x y l _ IH]; cbn [fmap list_fmap foldr]; [lia|]. unfold fmap in *. lia. Qed.

Definition report_states : list bytes := [ReportOpen; ReportActioned; ReportDismissed; ReportAbusive].
Record row_ok (x : report_row) : Prop := {
  ro_category : ValidReportCategory (rp_category x) = true;
  ro_state : rp_state x ∈ report_states;
  ro_resolved : rp_state x = ReportOpen ↔ rp_resolved_by x = None;
  ro_other : (rp_reporter_id x, rp_reporter_server x) ≠ (rp_reported_id x, rp_reported_server x);
  ro_verified : rp_verified x = true → rp_reported_server x = [] ∧ is_Some (rp_evidence x);
}.
Definition open_count (l : list report_row) (id server : bytes) : Z := zlen (filter (open_by id server) l).
Record table_ok (l : list report_row) : Prop := {
  tb_pairs : NoDup (pair_of <$> l);
  tb_ids : NoDup (rp_id <$> l);
  tb_rows : Forall row_ok l;
  tb_cap id server : open_count l id server ≤ maxOpenReportsPerReporter;
}.

Lemma open_count_app l k id server : open_count (l ++ k) id server = open_count l id server + open_count k id server.
Proof. unfold open_count. by rewrite filter_app, zlen_app. Qed.
Lemma open_count_one x id server : open_count [x] id server = if bool_decide (open_by id server x) then 1 else 0.
Proof. unfold open_count. cbn. unfold decide. by destruct (open_by_dec id server x); [rewrite bool_decide_true by done|rewrite bool_decide_false by done]. Qed.
Lemma open_count_cons x l id server : open_count (x :: l) id server = open_count [x] id server + open_count l id server.
Proof. apply (open_count_app [x] l). Qed.
Lemma open_count_filter (P : report_row → Prop) `{!∀ x, Decision (P x)} l id server : open_count (filter P l) id server ≤ open_count l id server.
Proof.
  induction l as [|x l IH]; [done|]. rewrite open_count_cons, filter_cons. destruct (decide (P x)); [rewrite open_count_cons; lia|].
  rewrite open_count_one. case_bool_decide; lia.
Qed.

Lemma table_filter (P : report_row → Prop) `{!∀ x, Decision (P x)} l : table_ok l → table_ok (filter P l).
Proof.
  intros [Hp Hi Hr Hc]. constructor.
  - by apply NoDup_fmap_filter.
  - by apply NoDup_fmap_filter.
  - rewrite Forall_forall in Hr |- *. intros x [_ Hx]%list_elem_of_filter. by apply Hr.
  - intros id server. etrans; [apply open_count_filter|apply Hc].
Qed.
Lemma table_swap l1 x y l2 : pair_of y = pair_of x → rp_id y = rp_id x → row_ok y →
  (∀ id server, open_by id server y → open_count (l1 ++ x :: l2) id server < maxOpenReportsPerReporter ∨ open_by id server x) →
  table_ok (l1 ++ x :: l2) → table_ok (l1 ++ y :: l2).
Proof.
  intros Hp Hi Hr Hc [Tp Ti Tr Tc]. constructor.
  - revert Tp. by rewrite !fmap_app, !fmap_cons, Hp.
  - revert Ti. by rewrite !fmap_app, !fmap_cons, Hi.
  - rewrite Forall_app, Forall_cons in Tr |- *. naive_solver.
  - intros id server. specialize (Tc id server). specialize (Hc id server). rewrite open_count_app, open_count_cons, open_count_one in Tc, Hc |- *.
    destruct (bool_decide_reflect (open_by id server y)) as [Hy|Hy]; destruct (bool_decide_reflect (open_by id server x)); try lia. destruct (Hc Hy); [lia|done].
Qed.

Lemma table_save d r now : table_ok (reports d) → ValidReportCategory (Category r) = true → (ReporterID r, ReporterServer r) ≠ (ReportedID r, ReportedServer r) →
  (EvidenceVerified r = true → ReportedServer r = [] ∧ is_Some (Evidence r)) →
  CountOpenReportsBy d (ReporterID r) (ReporterServer r) < maxOpenReportsPerReporter → table_ok (reports (SaveReport d r now).1).
Proof.
  intros T Hcat Hself Hev Hcap. cbn [SaveReport fst set_reports reports]. case_bool_decide as Hin.
  - destruct (update_at pair_of _ (reopened r now) _ (tb_pairs _ T) Hin) as (l1 & x & l2 & El & Ek & _ & ->).
    pose proof (tb_rows _ T) as Tr. rewrite El in T, Tr. apply (table_swap l1 x); [done|done| |  |exact T].
    + rewrite Forall_app, Forall_cons in Tr. destruct Tr as (_ & [_ _ _ Hx _] & _). unfold report_pair, pair_of in Ek. injection Ek as E1 E2 E3 E4.
      constructor; cbn; [done|apply list_elem_of_here|done|done|]. intros H%Hev. by rewrite E4.
    + intros id server (H1 & H2 & _). cbn in H1, H2. unfold report_pair, pair_of in Ek. injection Ek as E1 E2 E3 E4. left.
      unfold CountOpenReportsBy in Hcap. rewrite El in Hcap. unfold open_count. by rewrite <- H1, <- H2, E1, E2.
  - destruct T as [Tp Ti Tr Tc]. constructor.
    + rewrite fmap_app. apply NoDup_app. split_and!; [done| |apply NoDup_singleton]. intros p Hp ->%list_elem_of_singleton. by apply Hin.
    + rewrite fmap_app. apply NoDup_app. split_and!; [done| |apply NoDup_singleton]. intros p (y & -> & Hy)%list_elem_of_fmap E%list_elem_of_singleton.
      apply below_next_id in Hy. cbn in E. lia.
    + rewrite Forall_app, Forall_singleton. split; [done|]. constructor; cbn; [done|apply list_elem_of_here|done|done|exact Hev].
    + intros id server. rewrite open_count_app, open_count_one. specialize (Tc id server). destruct (bool_decide_reflect (open_by id server (new_row (next_id (reports d)) r now))) as [Ho|_]; [|lia].
      destruct Ho as (H1 & H2 & _). cbn in H1, H2. subst. unfold CountOpenReportsBy in Hcap. unfold open_count in *. lia.
Qed.
Lemma table_resolve d id verdict by_ now : table_ok (reports d) → ValidReportOutcome verdict = true → table_ok (reports (ResolveReport d id verdict by_ now).1).
Proof.
  intros T Hv. unfold ResolveReport. case_bool_decide as Hin; [|done]. cbn [fst set_reports reports].
  destruct (update_at rp_id id (resolved verdict by_ now) _ (tb_ids _ T) Hin) as (l1 & x & l2 & El & Ek & _ & Eu).
  rewrite where_id.
  rewrite Eu. pose proof (tb_rows _ T) as Tr. rewrite El in T, Tr. assert (verdict ≠ ReportOpen) as Hno by (intros ->; vm_compute in Hv; done).
  unfold ValidReportOutcome in Hv. apply bool_decide_eq_true in Hv.
  apply (table_swap l1 x); [done|done| |  |exact T].
  - rewrite Forall_app, Forall_cons in Tr. destruct Tr as (_ & [H1 H2 H3 H4 H5] & _). constructor; cbn; [done| |naive_solver|done|done].
    unfold report_states. by apply list_elem_of_further.
  - intros i s (_ & _ & H). by destruct Hno.
Qed.
Lemma table_withdraw d a b e g : table_ok (reports d) → table_ok (reports (WithdrawReport d a b e g).1).
Proof. intros T. unfold WithdrawReport. case_bool_decide; [|done]. by apply table_filter. Qed.
Lemma DeleteAccount_reports d id : reports (DeleteAccount d id).1 = reports d ∨ reports (DeleteAccount d id).1 = reports (DeleteReportsForAccount d id).
Proof. unfold DeleteAccount. repeat case_match; cbn; auto. Qed.
Lemma table_delete_account d id : table_ok (reports d) → table_ok (reports (DeleteAccount d id).1).
Proof. intros T. destruct (DeleteAccount_reports d id) as [-> | ->]; [done|]. by apply table_filter. Qed.

(** ** What is served *)

Section served.
Context {UC : UnicodeCase} {ED : Ed25519} {NU : NetURL}.
Variables (cfg : ServerConfig.t) (json_claims : list Claim.t → bytes).

(** The report that a request which passed all checks stores. *)
Definition filed_report (req : reportRequest) (reporterID home : bytes) (reported : Address) (ev : option bytes * bool) : Report :=
  mkReport 0 (Address.ID reported) (Server reported) reporterID home (RqCategory req) ev.1 ev.2 [] zero_time zero_time None None.
Record accepted (d : db) (req : reportRequest) (reporterID reporterServer home : bytes) (reported : Address) (ev : option bytes * bool) : Prop := {
  ac_home : reporter_home d reporterID reporterServer = Ok home;
  ac_category : ValidReportCategory (RqCategory req) = true;
  ac_reported : ParseFull (RqReported req) = Ok reported;
  ac_other : (reporterID, home) ≠ (Address.ID reported, Server reported);
  ac_few : zlen (RqEvidence req) ≤ maxEvidenceClaims;
  ac_exists : target_exists d reported = Ok ();
  ac_below : CountOpenReportsBy d reporterID home < maxOpenReportsPerReporter;
  ac_evidence : checkEvidence json_claims d reported (RqEvidence req) = Ok ev;
}.
Lemma saveReport_Ok now req rid rs d d' a : saveReport json_claims now req rid rs d = (d', Ok a) →
  ∃ home reported ev, accepted d req rid rs home reported ev ∧ a = created ∧ d' = (SaveReport d (filed_report req rid home reported ev) now).1.
Proof.
  unfold saveReport. intros H. hstep H as home Eh. hstep H as [] Ec. hstep H as reported Er. hstep H as [] Es.
  hstep H as [] El. hstep H as [] Et. hstep H as [] En. hstep H as ev Ee. hstep H as [] Ew. injection H as <- <-.
  apply check_Ok in Ec, Es, El, En.
  exists home, reported, ev. split; [|done]. constructor; try done.
  - unfold or_reply in Er. destruct (ParseFull _) as [x| |]; [|done..]. by injection Er as ->.
  - intros [= -> ->]. by rewrite !eqb_refl in Es.
  - apply negb_true_iff, Z.ltb_ge in El. lia.
  - apply negb_true_iff, Z.leb_gt in En. lia.
Qed.
Lemma saveReport_total now req rid rs d home reported ev : accepted d req rid rs home reported ev →
  saveReport json_claims now req rid rs d = ((SaveReport d (filed_report req rid home reported ev) now).1, Ok created).
Proof.
  intros [Hh Hc Hr Ho Hf Ht Hb He]. unfold saveReport, mbind, handler_bind, hlift. rewrite Hh, Hc, Hr. cbn [check guard_err or_reply].
  destruct ((Address.ID reported =?b rid) && (Server reported =?b home)) eqn:E.
  { apply andb_true_iff in E as [E1 E2]. apply eqb_true_1 in E1, E2. destruct Ho. congruence. }
  cbn [negb check guard_err]. rewrite (proj2 (Z.ltb_ge _ _)) by lia. cbn [negb check guard_err]. rewrite Ht. rewrite (proj2 (Z.leb_gt _ _)) by lia. cbn [negb check guard_err].
  rewrite He. done.
Qed.
Lemma saveReport_refused now req rid rs d d' a : saveReport json_claims now req rid rs d = (d', a) → (∀ x, a ≠ Ok x) → d' = d.
Proof.
  unfold saveReport, mbind, handler_bind, hlift, stmt, mret, handler_ret. intros H Hno. revert H. repeat case_match; intros [= <- <-]; try done; simplify_eq; try done.
  all: by destruct (Hno created).
Qed.
Lemma checkEvidence_verified d reported claims ev : checkEvidence json_claims d reported claims = Ok ev → ev.2 = true → Server reported = [] ∧ is_Some ev.1.
Proof.
  unfold checkEvidence. destruct claims as [|c claims]; [intros [= <-]; done|]. destruct (Server reported =?b []) eqn:E; [|by intros [= <-]].
  apply eqb_true_1 in E. intros H. apply bind_Ok in H as (devices & _ & H). apply bind_Ok in H as (kept & _ & H). destruct kept; injection H as <-; [done|]. eauto.
Qed.

Local Notation I := (λ d, table_ok (reports d)).
Lemma saveReport_keeps now req rid rs : keeps I I (saveReport json_claims now req rid rs) (λ _, I).
Proof.
  intros d T. destruct (saveReport json_claims now req rid rs d) as [d' [a|e|]] eqn:E; [|by apply saveReport_refused in E as ->..].
  apply saveReport_Ok in E as (home & reported & ev & [Hh Hc Hr Ho Hf Ht Hb He] & _ & ->). apply table_save; try done.
  cbn [filed_report EvidenceVerified ReportedServer Evidence]. by apply (checkEvidence_verified d reported (RqEvidence req)).
Qed.
Lemma verifyFederatedSender_tables d f now r claim : reports (verifyFederatedSender d f now r claim).1 = reports d ∧ accounts (verifyFederatedSender d f now r claim).1 = accounts d.
Proof.
  unfold verifyFederatedSender. destruct (verify_chain now r claim) as [[[[c p] h] ts]| |]; [|done..]. destruct (IsFederationBlocked f c); [done|].
  unfold RecordNonce. repeat case_match; simplify_eq; done.
Qed.
Lemma verify_keeps f now r claim : keeps I I (λ d, verifyFederatedSender d f now r claim) (λ _, I).
Proof. intros d T. pose proof (proj1 (verifyFederatedSender_tables d f now r claim)) as E. destruct (verifyFederatedSender d f now r claim) as [d' []]; cbn in E; by rewrite E. Qed.
Lemma withdraw_keeps raw rid rs : keeps I I (withdrawReport raw rid rs) (λ _, I).
Proof.
  unfold withdrawReport. kskip. apply (keeps_bind _ _ _ (λ _, I)); [|intros ?; by apply keeps_ret]. apply keeps_stmt. intros d T.
  pose proof (table_withdraw d rid rs (Address.ID a) (Server a) T) as H. by destruct (WithdrawReport d rid rs _ _) as [d' []].
Qed.

(** One request, or one of the other things that happen to the table. *)
Inductive report_step : db → db → Prop :=
  | step_create now identity b d : report_step d (handleCreateReport cfg json_claims now identity b d).1
  | step_federated f vnow now r b d : report_step d (handleCreateFederatedReport cfg json_claims f vnow now r b d).1
  | step_withdraw identity reported d : report_step d (handleWithdrawReport cfg identity reported d).1
  | step_withdraw_federated f vnow r reported b d : report_step d (handleWithdrawFederatedReport cfg f vnow r reported b d).1
  | step_resolve now identity id b d : report_step d (handleResolveReport cfg now identity id b d).1
  | step_delete_account id d : report_step d (DeleteAccount d id).1
  | step_purge cutoff d : report_step d (PurgeReportsBefore d cutoff).1
  | step_other d d' : reports d' = reports d → report_step d d'.

Lemma resolve_keeps now identity id b : keeps I I (handleResolveReport cfg now identity id b) (λ _, I).
Proof.
  intros d T. unfold handleResolveReport. destruct (decide_resolve cfg identity id b d) as [[k o]| |] eqn:E; [|done..]. unfold mbind at 1, handler_bind at 1, hlift.
  assert (ValidReportOutcome o = true) as Hv.
  { unfold decide_resolve in E. apply bind_Ok in E as ([] & _ & E). apply bind_Ok in E as ([] & _ & E). apply bind_Ok in E as (? & _ & E). apply bind_Ok in E as (? & _ & E).
    apply bind_Ok in E as (? & _ & E). apply bind_Ok in E as ([] & Hc & E). apply bind_Ok in E as (? & _ & E). apply bind_Ok in E as ([] & _ & E). injection E as <- <-. by apply check_Ok in Hc. }
  pose proof (table_resolve d k o (IdAccountID identity) now T Hv) as H. unfold mbind, handler_bind, stmt. cbn [fst snd]. by destruct (ResolveReport d k o _ now) as [d' []].
Qed.
Lemma report_step_ok d d' : report_step d d' → table_ok (reports d) → table_ok (reports d').
Proof.
  intros S T. destruct S as [now identity b d|f vnow now r b d|identity reported d|f vnow r reported b d|now identity id b d|id d|cutoff d|d d' E].
  - revert d T. intros d. apply (keeps_inv I). unfold handleCreateReport. do 4 kskip. apply saveReport_keeps.
  - revert d T. intros d. apply (keeps_inv I). unfold handleCreateFederatedReport. do 4 kskip.
    apply (keeps_bind _ _ _ (λ _, I)); [apply verify_keeps|intros ?]. do 3 kskip. apply saveReport_keeps.
  - revert d T. intros d. apply (keeps_inv I). unfold handleWithdrawReport. do 2 kskip. apply withdraw_keeps.
  - revert d T. intros d. apply (keeps_inv I). unfold handleWithdrawFederatedReport. do 3 kskip.
    apply (keeps_bind _ _ _ (λ _, I)); [apply verify_keeps|intros ?]. kskip. apply withdraw_keeps.
  - revert d T. intros d. apply (keeps_inv I). apply resolve_keeps.
  - by apply table_delete_account.
  - by apply table_filter.
  - by rewrite E.
Qed.

(** The table of reports stays in order.  Whatever requests are served one after the other, from here and from
    other servers, with accounts deleted and old cases purged in between: a reporter under one home server has one case
    against an account; ids are unique; each case has a known category, is open or resolved with a resolver,
    never names its own reporter, and has verified evidence only about a local account; and nobody has more than
    20 cases open under one home server. *)
Theorem report_table_in_order d d' : reports d = [] → rtc report_step d d' →
  NoDup (pair_of <$> reports d') ∧ NoDup (rp_id <$> reports d') ∧ Forall row_ok (reports d') ∧
  ∀ id server, CountOpenReportsBy d' id server ≤ maxOpenReportsPerReporter.
Proof.
  intros E Hr. assert (table_ok (reports d')) as [H1 H2 H3 H4]; [|done].
  assert (table_ok (reports d)) as T by (rewrite E; constructor; [apply NoDup_nil_2|apply NoDup_nil_2|done|done]).
  clear E. induction Hr as [d|d d1 d2 S _ IH]; [done|]. by eapply IH, report_step_ok.
Qed.

(** ** The counters *)

Lemma SaveReport_shape d r now : table_ok (reports d) → ∃ l1 old y l2,
  reports d = l1 ++ option_list old ++ l2 ∧ reports (SaveReport d r now).1 = l1 ++ y :: l2 ∧
  pair_of y = report_pair r ∧ rp_state y = ReportOpen ∧ rp_category y = Category r ∧ rp_evidence y = Evidence r ∧ rp_verified y = EvidenceVerified r ∧
  rp_updated_at y = formatTime now ∧ (∀ x, old = Some x → pair_of x = report_pair r) ∧ ∀ x, x ∈ l1 ++ l2 → pair_of x ≠ report_pair r.
Proof.
  intros T. cbn [SaveReport fst set_reports reports]. case_bool_decide as Hin.
  - destruct (update_at pair_of _ (reopened r now) _ (tb_pairs _ T) Hin) as (l1 & x & l2 & El & Ek & Hno & ->).
    exists l1, (Some x), (reopened r now x), l2. split_and!; try done. by intros ? [= <-].
  - exists (reports d), None, (new_row (next_id (reports d)) r now), []. cbn [option_list app]. rewrite !app_nil_r. split_and!; try done.
    intros x Hx E. apply Hin. rewrite <- E. by apply list_elem_of_fmap_2.
Qed.

(** An open case of this reporter against this account. *)
Definition stands (l : list report_row) (key : bytes * bytes * (bytes * bytes)) : bool :=
  existsb (λ x, bool_decide (pair_of x = key) && (rp_state x =?b ReportOpen)) l.
Lemma stands_app l k key : stands (l ++ k) key = stands l key || stands k key.
Proof. apply existsb_app. Qed.
Lemma stands_none l key : (∀ x, x ∈ l → pair_of x ≠ key) → stands l key = false.
Proof. induction l as [|x l IH]; intros H; [done|]. cbn. rewrite bool_decide_false by (apply H; set_solver). apply IH. set_solver. Qed.

Lemma about_app id local l k : about id local (l ++ k) = about id local l + about id local k.
Proof. unfold about. by rewrite filter_app, zlen_app. Qed.
Lemma about_one id local x : about id local [x] =
  if (rp_reported_id x =?b id) && (rp_reported_server x =?b []) && (rp_state x =?b ReportOpen) && ((rp_reporter_server x =?b []) =?b local) then 1 else 0.
Proof.
  unfold about. rewrite filter_cons, filter_nil. case_decide as H.
  - destruct H as (-> & -> & -> & ->). by rewrite !eqb_refl.
  - destruct (_ && _) eqn:E; [|done]. destruct H. rewrite !andb_true_iff, !eqb_true in E. tauto.
Qed.

Definition counts_of (d : db) (id : bytes) : ReportCounts := default (mkCounts 0 0 0 0) (ReportCountsByAccount d !! id).
Lemma tabulated {A} (f : bytes → A) (l : list bytes) id :
  (list_to_map ((λ i, (i, f i)) <$> l) : gmap bytes A) !! id = if bool_decide (id ∈ l) then Some (f id) else None.
Proof.
  induction l as [|i l IH]; [done|]. cbn [fmap list_fmap list_to_map foldr]. change (foldr _ _ _) with (list_to_map ((λ i, (i, f i)) <$> l) : gmap bytes A).
  destruct (decide (i = id)) as [->|Hne]; [rewrite lookup_insert_eq, bool_decide_true by set_solver; done|]. rewrite lookup_insert_ne, IH by done. by apply bool_decide_ext || (repeat case_bool_decide; set_solver).
Qed.
Lemma none_counted (P : report_row → Prop) `{!∀ x, Decision (P x)} l : (∀ x, x ∈ l → ¬ P x) → zlen (filter P l) = 0.
Proof. induction l as [|x l IH]; intros Hno; [done|]. rewrite filter_cons_False by (apply Hno; set_solver). apply IH. set_solver. Qed.
Lemma counts_of_rows d id : counts_of d id = mkCounts (about id true (reports d)) (about id false (reports d)) (filed id ReportOpen (reports d)) (filed id ReportAbusive (reports d)).
Proof.
  unfold counts_of, ReportCountsByAccount. rewrite (tabulated (λ id, mkCounts _ _ _ _)). case_bool_decide as H; [done|]. cbn [default].
  assert (∀ x, x ∈ reports d → id ∉ counted x) as Hno by (intros x Hx Hi; apply H, list_elem_of_bind; eauto).
  unfold about, filed. rewrite !none_counted; [done|..]; intros x Hx Hp; apply (Hno x Hx); unfold counted, ReportOpen, ReportAbusive in *.
  - destruct Hp as (-> & -> & ->). rewrite !eqb_refl, orb_true_r. cbn. set_solver.
  - destruct Hp as (-> & -> & ->). rewrite !eqb_refl. cbn. set_solver.
  - destruct Hp as (-> & -> & -> & _). rewrite !eqb_refl. cbn. set_solver.
  - destruct Hp as (-> & -> & -> & _). rewrite !eqb_refl. cbn. set_solver.
Qed.

(** C27: one reporter counts once.  A report that passes the checks of [accepted] is answered 201, also when it updates an
    earlier one; it then stands as an open case with what was reported, and all other cases are as they were.  Only accounts of
    this server have counters, one of the open cases of reporters here and one of those of reporters elsewhere.  When the reported
    account is one of them, the counter of the reporter's kind rises by one exactly if no case of this reporter about it was
    open -- so a case that had been resolved counts again once it is reported again -- and every other counter stays.
    A refused report changes nothing. *)
Theorem report_counts_once now req rid rs d : table_ok (reports d) →
  (∀ d' a, saveReport json_claims now req rid rs d = (d', a) → (∀ x, a ≠ Ok x) → d' = d) ∧
  ∀ home reported ev, accepted d req rid rs home reported ev →
    let key := (rid, home, (Address.ID reported, Server reported)) in
    ∃ d', saveReport json_claims now req rid rs d = (d', Ok created) ∧
      (∃ x, x ∈ reports d' ∧ pair_of x = key ∧ rp_state x = ReportOpen ∧ rp_category x = RqCategory req ∧ (rp_evidence x, rp_verified x) = ev) ∧
      (∀ x, pair_of x ≠ key → x ∈ reports d' ↔ x ∈ reports d) ∧
      ∀ id, let more := negb (stands (reports d) key) && (Server reported =?b []) && (id =?b Address.ID reported) in
        Local (counts_of d' id) = Local (counts_of d id) + (if more && (home =?b []) then 1 else 0) ∧
        RcFederated (counts_of d' id) = RcFederated (counts_of d id) + (if more && negb (home =?b []) then 1 else 0).
Proof.
  intros T. split; [intros d' a; apply saveReport_refused|]. intros home reported ev Ha key.
  destruct (SaveReport_shape d (filed_report req rid home reported ev) now T) as (l1 & old & y & l2 & E & E' & Hp & Hs & Hc & He & Hv & _ & Hold & Hno).
  eexists. split; [by apply saveReport_total|]. rewrite E'. split.
  { exists y. split_and!; [set_solver|done|done|done|]. rewrite He, Hv. by destruct ev. }
  split. { intros x Hx. rewrite E. rewrite !elem_of_app, elem_of_cons. destruct old as [x'|]; cbn [option_list]; [|set_solver]. specialize (Hold x' eq_refl). set_solver. }
  intros id more. rewrite !counts_of_rows, E'. cbn [Local RcFederated]. rewrite E.
  assert (more = negb (stands (option_list old) key) && (Server reported =?b []) && (id =?b Address.ID reported)) as ->.
  { unfold more. rewrite E, !stands_app, (stands_none l1), (stands_none l2), orb_false_r; [done|intros x Hx; apply Hno; set_solver..]. }
  assert (∀ local, about id local (option_list old) + (if negb (stands (option_list old) key) && (Server reported =?b []) && (id =?b Address.ID reported) && ((home =?b []) =?b local) then 1 else 0) = about id local [y]) as Hy.
  { intros local. rewrite about_one. unfold pair_of, report_pair in Hp. cbn in Hp. injection Hp as E1 E2 E3 E4. rewrite E2, E3, E4, Hs, eqb_refl, andb_true_r.
    rewrite (eqb_sym (Address.ID reported)). destruct old as [x|]; cbn [option_list].
    - specialize (Hold x eq_refl). unfold pair_of, report_pair in Hold. cbn in Hold. change (option_list (Some x)) with [x]. rewrite about_one. cbn [stands existsb]. rewrite bool_decide_true by exact Hold.
      injection Hold as F1 F2 F3 F4. rewrite F2, F3, F4, (eqb_sym (Address.ID reported)), orb_false_r. destruct (rp_state x =?b ReportOpen), (Server reported =?b []), (id =?b _), (_ =?b local); done.
    - cbn. destruct (Server reported =?b []), (id =?b _), (_ =?b local); done. }
  assert (∀ b : bool, (b =?b true) = b ∧ (b =?b false) = negb b) as Hb by (intros []; done).
  pose proof (Hy true) as Ht. pose proof (Hy false) as Hf. rewrite (proj1 (Hb _)) in Ht. rewrite (proj2 (Hb _)) in Hf.
  rewrite !about_app. change (y :: l2) with ([y] ++ l2). rewrite !about_app. lia.
Qed.

(** ** How far a moderator reaches *)

Lemma scan_all_Forall2 {A B} (scan : A → res StoreError B) l k : scan_all scan l = Ok k → Forall2 (λ x b, scan x = Ok b) l k.
Proof.
  revert k. induction l as [|x l IH]; intros k H; cbn in H; [by injection H as <-|]. apply bind_Ok in H as (b & Hb & H). apply bind_Ok in H as (bs & Hbs & H).
  injection H as <-. constructor; [done|by apply IH].
Qed.
Lemma scanReport_Ok x r : scanReport x = Ok r →
  RpID r = rp_id x ∧ (ReportedID r, ReportedServer r) = (rp_reported_id x, rp_reported_server x) ∧ (ReporterID r, ReporterServer r) = (rp_reporter_id x, rp_reporter_server x).
Proof. unfold scanReport. intros H. apply bind_Ok in H as (? & _ & H). apply bind_Ok in H as (? & _ & H). apply bind_Ok in H as (? & _ & H). by injection H as <-. Qed.
Lemma isLocalStaff_row d id server b : isLocalStaff d id server = Ok b → staff_row d id server = b.
Proof.
  unfold isLocalStaff, staff_row, GetAccount. destruct (server =?b []); [|by intros [= <-]]. cbn [negb andb]. destruct (accounts d !! id) as [a|]; [|by intros [= <-]].
  unfold scanAccount. destruct (parseTime _); [|done]. cbn [from_option mbind res_bind AccRole]. intros [= <-]. apply orb_comm.
Qed.
(** Where the case is that the id names. *)
Lemma GetReport_Ok d id r : GetReport d id = Ok r → ∃ x, x ∈ reports d ∧ rp_id x = id ∧ scanReport x = Ok r.
Proof.
  unfold GetReport. intros H. apply bind_Ok in H as (l & Hl & H). apply scan_all_Forall2 in Hl. destruct l as [|r' l]; [done|]. injection H as <-.
  apply Forall2_cons_inv_r in Hl as (x & xs & Hx & _ & E). exists x.
  assert (x ∈ filter (λ x, rp_id x = id) (reports d)) as [Hi Hin]%list_elem_of_filter by (rewrite E; apply list_elem_of_here). done.
Qed.
Lemma decide_resolve_Ok identity id b d k o : decide_resolve cfg identity id b d = Ok (k, o) →
  (IdRole identity = RoleAdmin ∨ IdRole identity = RoleModerator) ∧ parse_int64 id = Some k ∧ ValidReportOutcome o = true ∧
  ∃ r, GetReport d k = Ok r ∧ mayActOnReport d identity r o = Ok ().
Proof.
  unfold decide_resolve. intros E. apply bind_Ok in E as ([] & _ & E). apply bind_Ok in E as ([] & Hr & E). apply bind_Ok in E as (k' & Hk & E). apply bind_Ok in E as (? & _ & E).
  apply bind_Ok in E as (o' & _ & E). apply bind_Ok in E as ([] & Hc & E). apply bind_Ok in E as (r & Hg & E). apply bind_Ok in E as ([] & Hm & E). injection E as <- <-.
  apply check_Ok in Hc, Hr. rewrite orb_true_iff, !eqb_true in Hr. split_and!; [done| |done|].
  - destruct (parse_int64 id); [by injection Hk as ->|done].
  - exists r. split; [|done]. by destruct (GetReport d k') as [r'| |]; [injection Hg as ->|..].
Qed.
Lemma mayActOnReport_Ok d identity r o : mayActOnReport d identity r o = Ok () → IdRole identity ≠ RoleAdmin →
  staff_row d (ReportedID r) (ReportedServer r) = false ∧ (o = ReportAbusive → staff_row d (ReporterID r) (ReporterServer r) = false).
Proof.
  unfold mayActOnReport. intros H Hno. destruct (IdRole identity =?b RoleAdmin) eqn:E; [by apply eqb_true_1 in E|].
  apply bind_Ok in H as (st & Hs & H). apply bind_Ok in H as ([] & Hc & H). apply check_Ok in Hc. apply isLocalStaff_row in Hs. split; [rewrite Hs; by apply negb_true_iff|].
  intros ->. rewrite eqb_refl in H. apply bind_Ok in H as (st' & Hs' & H). apply check_Ok in H. apply isLocalStaff_row in Hs'. rewrite Hs'. by apply negb_true_iff.
Qed.

(** C28: a moderator's reach stops at the members.  What a moderator lists are cases that are not about an administrator or
    moderator of this server, and an administrator's list leaves out no case; a resolution is made by one of the two, marks
    exactly the case its id names, and by a moderator neither one about staff nor, as abusive, one filed by
    staff. *)
Theorem moderators_stop_at_members identity d : table_ok (reports d) →
  (∀ state l, handleListReports cfg identity state d = Ok l →
     (∀ r, r ∈ l → ∃ x, x ∈ reports d ∧ RsID r = rp_id x ∧ (IdRole identity ≠ RoleAdmin → staff_row d (rp_reported_id x) (rp_reported_server x) = false)) ∧
     (∀ x, x ∈ reports d → IdRole identity = RoleAdmin → (state = ReportOpen → rp_state x = ReportOpen) → ∃ r, r ∈ l ∧ RsID r = rp_id x)) ∧
  (∀ now id b d' a, handleResolveReport cfg now identity id b d = (d', Ok a) →
     (IdRole identity = RoleAdmin ∨ IdRole identity = RoleModerator) ∧
     ∃ l1 x l2 verdict, ValidReportOutcome verdict = true ∧ parse_int64 id = Some (rp_id x) ∧
       reports d = l1 ++ x :: l2 ∧ reports d' = l1 ++ resolved verdict (IdAccountID identity) now x :: l2 ∧
       (IdRole identity ≠ RoleAdmin → staff_row d (rp_reported_id x) (rp_reported_server x) = false ∧
          (verdict = ReportAbusive → staff_row d (rp_reporter_id x) (rp_reporter_server x) = false))).
Proof.
  intros T. split.
  - intros state l H. unfold handleListReports in H. apply bind_Ok in H as ([] & _ & H). apply bind_Ok in H as ([] & _ & H). apply bind_Ok in H as (k & Hk & H). injection H as <-.
    unfold ListReports, scanReports in Hk. destruct (scan_all scanReport _) as [k'| |] eqn:Es; [|done..]. injection Hk as ->. apply scan_all_Forall2 in Es. split.
    + intros r (r' & -> & Hr)%list_elem_of_fmap. apply list_elem_of_lookup in Hr as [i Hi]. destruct (Forall2_lookup_r _ _ _ _ _ Es Hi) as (x & Hx & Sx).
      apply list_elem_of_lookup_2 in Hx. rewrite merge_sort_Permutation in Hx. apply list_elem_of_filter in Hx as [[_ Hst] Hx]. exists x.
      apply scanReport_Ok in Sx as (E & _). split_and!; [done|exact E|]. intros Hno. apply Hst. by apply eqb_false.
    + intros x Hx Ha Hst. assert (x ∈ merge_sort newer (filter (λ x, ((state =?b ReportOpen) = true → rp_state x = ReportOpen) ∧
        ((IdRole identity =?b RoleAdmin) = false → staff_row d (rp_reported_id x) (rp_reported_server x) = false)) (reports d))) as Hin.
      { rewrite merge_sort_Permutation. apply list_elem_of_filter. split; [|done]. split; [intros E; apply Hst; by apply eqb_true_1|]. rewrite Ha, eqb_refl. done. }
      apply list_elem_of_lookup in Hin as [i Hi]. destruct (Forall2_lookup_l _ _ _ _ _ Es Hi) as (r & Hr & Sx). exists (reportResponseFrom r).
      split; [apply list_elem_of_fmap_2; by eapply list_elem_of_lookup_2|]. apply scanReport_Ok in Sx as (E & _). exact E.
  - intros now id b d' a H. unfold handleResolveReport in H. hstep H as [k o] E. hstep H as [] Ew. injection H as <- <-. cbn [fst snd] in Ew.
    apply decide_resolve_Ok in E as (Hrole & Hk & Hv & r & Hg & Hm). split; [done|]. apply GetReport_Ok in Hg as (x & Hx & Hid & Hs).
    unfold ResolveReport in Ew. rewrite bool_decide_true in Ew by (rewrite <- Hid; by apply list_elem_of_fmap_2). apply (f_equal fst) in Ew. cbn [fst] in Ew.
    rewrite <- Ew. cbn [set_reports reports].
    destruct (update_at rp_id k (resolved o (IdAccountID identity) now) _ (tb_ids _ T)) as (l1 & x' & l2 & El & Ek & Hno & Eu); [rewrite <- Hid; by apply list_elem_of_fmap_2|].
    assert (x' = x) as -> . { rewrite El in Hx. apply elem_of_app in Hx. rewrite elem_of_cons in Hx. destruct (decide (x = x')) as [->|Hne]; [done|]. destruct (Hno x); [set_solver|done]. }
    exists l1, x, l2, o. split_and!; [done|by rewrite Hid|done| |].
    + by rewrite <- Eu, where_id.
    + intros Hna. destruct (mayActOnReport_Ok _ _ _ _ Hm Hna) as [H1 H2]. apply scanReport_Ok in Hs as (_ & E1 & E2). injection E1 as E1 E1'. injection E2 as E2 E2'.
      by rewrite <- E1, <- E1', <- E2, <- E2'.
Qed.
End served.
