(* ===== verification/Statistics.v ===== *)
(** * What an operator is shown

    internal/store/activity.go and stats.go: the aggregates over the tables, and the table of
    snapshots.  internal/api/stats.go: the figures of the moment with the storage forecast, and
    their history.  The account list of internal/api/admin.go, the public status of
    server_status.go, and the snapshot that cmd/server takes every six hours.

    Sizes from the file system are arguments, [None] where asking failed.  The sums of SQLite
    are exact: it reports an overflow as an error, and no table comes near it. *)

From S2P Require Import Prelude GoStr GoTime GoTimeParse Sha256 Humancode Crypto Base64 Bech32m Address Config DeviceCert ProfileClaim HttpSig WakeCoalesce Broker Store StoreIntegrity StoreCorrect StoreQueue Auth AuthCorrect Delivery Federation FederationCorrect Prekeys PrekeysCorrect Accounts AccountsCorrect Reports ReportsCorrect.

Definition sum (l : list Z) : Z := foldr Z.add 0 l.

(** ** activity.go *)

Record AccountActivity := mkActivity { PendingMessages : Z; OldestPendingAt : Time; AcBlobCount : Z; AcBlobBytes : Z; AcDeviceCount : Z }.
Definition no_activity : AccountActivity := mkActivity 0 zero_time 0 0 0.

Definition pending_of (d : db) (id : bytes) : list message_row := filter (λ r, ms_recipient_account r = id) (messages d).
(** [MIN(sent_at)] *)
Definition smallest (s : bytes) (l : list bytes) : bytes := foldr (λ x m, if bytes_leb x m then x else m) s l.
Definition oldest_pending (d : db) (id : bytes) : res StoreError Time :=
  match ms_sent_at <$> pending_of d id with
  | [] => Ok zero_time
  | s :: l => from_option (parseTime (smallest s l)) (ErrStore "store: parsing oldest pending sent_at")
  end.
Definition devices_of (d : db) (id : bytes) : list bytes := (filter (λ x : bytes * device_row, dv_account_id x.2 = id) (map_to_list (devices d))).*1.
(** The two groups of an account: its queue, and its devices joined with their blobs. *)
Definition activity_of (d : db) (id : bytes) : res StoreError AccountActivity :=
  t ← oldest_pending d id;
  let devs := devices_of d id in
  Ok (mkActivity (zlen (pending_of d id)) t (sum ((λ k, (BlobUsage d k).1) <$> devs)) (sum ((λ k, (BlobUsage d k).2) <$> devs)) (zlen devs)).
Definition AccountActivityByAccount (d : db) : res StoreError (gmap bytes AccountActivity) :=
  l ← scan_all (λ id, a ← activity_of d id; Ok (id, a))
        (remove_dups ((ms_recipient_account <$> messages d) ++ ((λ x : bytes * device_row, dv_account_id x.2) <$> map_to_list (devices d))));
  Ok (list_to_map l).
Definition InviterByAccount (d : db) : gmap bytes bytes :=
  list_to_map (omap (λ x : bytes * invite_row, u ← iv_used_by x.2; Some (u, iv_created_by x.2)) (map_to_list (invite_codes d))).

(** ** stats.go of the store *)

Record StatsSnapshot := mkSnapshot {
  SnID : Z; CapturedAt : Time; AccountCount : Z; ActiveAccountCount : Z; DeviceCount : Z; BlobCount : Z; BlobBytes : Z; DBBytes : Z;
  PendingMessageCount : Z; DiskFreeBytes : Z; DiskTotalBytes : Z; SnFederationEnabled : bool; FederationBlocklistCount : Z;
}.
Definition ComputeCurrentStats (d : db) (f : fed) : res StoreError StatsSnapshot :=
  federationEnabled ← GetFederationEnabled f;
  Ok (mkSnapshot 0 zero_time (zlen (map_to_list (accounts d))) (zlen (filter (λ x : bytes * account_row, ac_status x.2 = AccountStatusActive) (map_to_list (accounts d))))
        (zlen (map_to_list (devices d))) (zlen (map_to_list (blobs d))) (TotalBlobBytes d) 0 (zlen (messages d)) 0 0 federationEnabled
        (zlen (map_to_list (federation_blocklist f)))).

(** The table, which refers to no other; ids are never given again. *)
Record snapshot_row := mkSnapshotRow { sn_id : Z; sn_captured_at : bytes; sn_data : StatsSnapshot; sn_federation : Z }.
Record history := mkHistory { hs_rows : list snapshot_row; hs_seq : Z }.
Definition InsertStatsSnapshot (h : history) (s : StatsSnapshot) : history :=
  mkHistory (hs_rows h ++ [mkSnapshotRow (hs_seq h + 1) (formatTime (CapturedAt s)) s (boolToInt (SnFederationEnabled s))]) (hs_seq h + 1).
Definition scanStatsSnapshot (x : snapshot_row) : res StoreError StatsSnapshot :=
  let s := sn_data x in
  t ← from_option (parseTime (sn_captured_at x)) (ErrStore "store: parsing stats snapshot captured_at");
  Ok (mkSnapshot (sn_id x) t (AccountCount s) (ActiveAccountCount s) (DeviceCount s) (BlobCount s) (BlobBytes s) (DBBytes s)
        (PendingMessageCount s) (DiskFreeBytes s) (DiskTotalBytes s) (negb (sn_federation x =? 0)) (FederationBlocklistCount s)).
Definition captured_le (x y : snapshot_row) : Prop := bytes_le (sn_captured_at x) (sn_captured_at y).
#[export] Instance captured_le_dec x y : Decision (captured_le x y).
Proof. unfold captured_le. apply _. Defined.
Definition StatsHistory (h : history) (since : Time) : res StoreError (list StatsSnapshot) :=
  scan_all scanStatsSnapshot (merge_sort captured_le (filter (λ x, bytes_leb (formatTime since) (sn_captured_at x) = true) (hs_rows h))).
Definition PruneStatsSnapshots (h : history) (olderThan : Time) : history * Z :=
  let old x := bytes_ltb (sn_captured_at x) (formatTime olderThan) in
  (mkHistory (filter (λ x, old x = false) (hs_rows h)) (hs_seq h), zlen (filter (λ x, old x = true) (hs_rows h))).

Record BlobExpiryBucket := mkBucket { Day : bytes; BkBytes : Z; BkCount : Z }.
Definition blob_rows (d : db) : list blob_row := (map_to_list (blobs d)).*2.
Definition expiry_day (r : blob_row) : bytes := take 10 (bl_expires_at r).
Definition bucket (rows : list blob_row) (day : bytes) : BlobExpiryBucket :=
  let here := filter (λ r, expiry_day r = day) rows in mkBucket day (sum (bl_size <$> here)) (zlen here).
Definition BlobExpiryBuckets (d : db) : list BlobExpiryBucket :=
  bucket (blob_rows d) <$> merge_sort bytes_le (remove_dups (expiry_day <$> blob_rows d)).
Definition BlobBytesCreatedSince (d : db) (since : Time) : Z :=
  sum (bl_size <$> filter (λ r, bytes_leb (formatTime since) (bl_created_at r) = true) (blob_rows d)).

(** ** stats.go of the api *)

Definition maxStatsHistoryDays : Z := 2 * 365.
Definition defaultStatsHistoryDays : Z := 90.
Record storageForecastPoint := mkPoint { PtAt : bytes; PtBytes : Z }.
Record storageForecastResponse := mkForecast {
  RetentionDays : Z; InflowWindowDays : Z; InflowBytesPerDay : Z; EquilibriumBytes : Z; Drain : list storageForecastPoint; WithInflow : list storageForecastPoint;
}.
Record serverStatsResponse := mkStatsResponse { SrSnapshot : StatsSnapshot; SrCapturedAt : bytes; SrForecast : option storageForecastResponse }.
Definition serverStatsResponseFrom (s : StatsSnapshot) : serverStatsResponse := mkStatsResponse s (rfc3339 (utc (CapturedAt s))) None.

(** [Format("2006-01-02")] of a UTC time. *)
Definition date_of_unix (s : Z) : bytes :=
  let z := s / 86400 in append_int (civil_year z) 4 ++ [45] ++ append_int (civil_month z) 2 ++ [45] ++ append_int (civil_day z) 2.
Definition bytesStillStoredOn (buckets : list BlobExpiryBucket) (at_ : Time) : Z :=
  let day := date_of_unix (unix_seconds at_) in
  foldl (λ remaining b, if bytes_leb day (Day b) then i64 (remaining + BkBytes b) else remaining) 0 buckets.

Section stats.
Context {CA : Calendar} (cfg : ServerConfig.t).

Definition CurrentStatsSnapshot (d : db) (f : fed) (db_file : option Z) (disk : option (Z * Z)) (now : Time) : res StoreError StatsSnapshot :=
  s ← ComputeCurrentStats d f;
  let '(free, total) := default (0, 0) disk in
  Ok (mkSnapshot (SnID s) now (AccountCount s) (ActiveAccountCount s) (DeviceCount s) (BlobCount s) (BlobBytes s) (default 0 db_file)
        (PendingMessageCount s) (i64 free) (i64 total) (SnFederationEnabled s) (FederationBlocklistCount s)).

Definition remaining_on (buckets : list BlobExpiryBucket) (snapshot : StatsSnapshot) (day : Z) : Z :=
  if 0 <? day then bytesStillStoredOn buckets (add_days (CapturedAt snapshot) day) else BlobBytes snapshot.
Definition forecast_point (snapshot : StatsSnapshot) (day value : Z) : storageForecastPoint :=
  mkPoint (rfc3339 (utc (add_days (CapturedAt snapshot) day))) value.
Definition storageForecast (d : db) (snapshot : StatsSnapshot) : option storageForecastResponse :=
  let retentionDays := ServerConfig.BlobRetentionDays cfg in
  if retentionDays <=? 0 then None
  else
    let buckets := BlobExpiryBuckets d in
    let inflowWindowDays := Z.max 1 (Z.min 7 (Z.quot retentionDays 2)) in
    let inflowBytes := BlobBytesCreatedSince d (add_days (CapturedAt snapshot) (- inflowWindowDays)) in
    let inflowPerDay := Z.quot inflowBytes inflowWindowDays in
    let days := seqZ 0 (retentionDays + 2) in
    Some (mkForecast retentionDays inflowWindowDays inflowPerDay (i64 (inflowPerDay * retentionDays))
      ((λ day, forecast_point snapshot day (remaining_on buckets snapshot day)) <$> days)
      ((λ day, forecast_point snapshot day (i64 (remaining_on buckets snapshot day + i64 (inflowPerDay * Z.min day retentionDays)))) <$> days)).

Definition handleGetServerStats (identity : Identity) (d : db) (f : fed) (db_file : option Z) (disk : option (Z * Z)) (now : Time) : res reply serverStatsResponse :=
  _ ← requireAdmin identity;
  s ← or_reply (CurrentStatsSnapshot d f db_file disk now) internal;
  let r := serverStatsResponseFrom s in
  Ok (mkStatsResponse (SrSnapshot r) (SrCapturedAt r) (storageForecast d s)).
(** [strconv.Atoi] on a 64-bit platform. *)
Definition history_days (v : bytes) : res reply Z :=
  days ← (if v =?b [] then Ok defaultStatsHistoryDays
          else n ← from_option (Reports.parse_int64 v) (bad "invalid_request"); _ ← check (negb (n <=? 0)) (bad "invalid_request"); Ok n);
  Ok (Z.min days maxStatsHistoryDays).
Definition handleGetServerStatsHistory (identity : Identity) (h : history) (v : bytes) (now : Time) : res reply (list StatsSnapshot) :=
  _ ← requireAdmin identity;
  days ← history_days v;
  or_reply (StatsHistory h (add_days now (- days))) internal.

(** ** server_status.go *)

Record serverStatusResponse := mkStatus {
  StClaimed : bool; StRegistrationPolicy : bytes; StFederationEnabled : bool; StBlobsEnabled : bool; StMaxBlobBytes : Z; StMaxBlobRecipients : Z;
  StBatchMessages : bool; StMaxBatchMessages : Z; StAttestation : bytes; StReportsEnabled : bool;
}.
Definition handleGetServerStatus (d : db) (f : fed) : res reply serverStatusResponse :=
  policy ← or_reply (GetRegistrationPolicy f) internal;
  federationEnabled ← or_reply (GetFederationEnabled f) internal;
  Ok (mkStatus (SetupTokenClaimed d) policy federationEnabled (ServerConfig.BlobsEnabled cfg) (ServerConfig.MaxBlobBytes cfg)
        (ServerConfig.MaxBlobRecipients cfg) true (ServerConfig.MaxBatchMessages cfg) (ServerConfig.Attestation cfg) (ServerConfig.ReportsEnabled cfg)).

(** ** The account list *)

Record adminAccountResponse := mkAdminAccount {
  AaID : bytes; AaRole : bytes; AaStatus : bytes; AaCreatedAt : bytes; AaPendingMessages : Z; AaOldestPendingAt : option bytes; AaBlobCount : Z;
  AaBlobBytes : Z; AaBlobBytesLimit : Z; AaDeviceCount : Z; AaInvitedBy : option bytes; AaReports : Reports.ReportCounts;
}.
Definition adminAccountResponseFrom (acc : Account) (activity : AccountActivity) (maxBlobBytesPerDevice : Z) (invitedBy : bytes) (reports : Reports.ReportCounts) : adminAccountResponse :=
  mkAdminAccount (Store.ID acc) (AccRole acc) (Status acc) (rfc3339 (utc (CreatedAt acc))) (PendingMessages activity)
    (if is_zero (OldestPendingAt activity) then None else Some (rfc3339 (utc (OldestPendingAt activity)))) (AcBlobCount activity) (AcBlobBytes activity)
    (i64 (maxBlobBytesPerDevice * AcDeviceCount activity)) (AcDeviceCount activity) (if invitedBy =?b [] then None else Some invitedBy) reports.
Definition no_counts : Reports.ReportCounts := Reports.mkCounts 0 0 0 0.
Definition is_staff (role : bytes) : bool := (role =?b RoleAdmin) || (role =?b RoleModerator).
Definition handleListAccounts (identity : Identity) (d : db) : res reply (list adminAccountResponse) :=
  _ ← requireAdminOrModerator identity;
  accs ← or_reply (ListAccounts d) internal;
  activity ← or_reply (AccountActivityByAccount d) internal;
  let admin := IdRole identity =?b RoleAdmin in
  let inviters : gmap bytes bytes := if admin then InviterByAccount d else ∅ in
  let counts : gmap bytes Reports.ReportCounts := if ServerConfig.ReportsEnabled cfg then Reports.ReportCountsByAccount d else ∅ in
  Ok (fmap (M := list) (λ acc, adminAccountResponseFrom acc (default no_activity (activity !! Store.ID acc)) (ServerConfig.MaxBlobBytesPerDevice cfg)
        (default [] (inviters !! Store.ID acc))
        (if negb admin && is_staff (AccRole acc) then no_counts else default no_counts (counts !! Store.ID acc))) accs).
End stats.

(** ** The ticker of cmd/server *)

Definition statsSnapshotRetention : Z := 2 * 365 * 24 * 3600 * second.
Definition takeStatsSnapshot (d : db) (f : fed) (db_file : option Z) (disk : option (Z * Z)) (now : Time) (h : history) : history :=
  match CurrentStatsSnapshot d f db_file disk now with
  | Ok s => (PruneStatsSnapshots (InsertStatsSnapshot h s) (time_add (CapturedAt s) (- statsSnapshotRetention))).1
  | _ => h
  end.

(** ** The account list is honest and discreet *)

Lemma sum_bound {A} (f : A → Z) M l : (∀ x, x ∈ l → f x ≤ M) → sum (f <$> l) ≤ M * zlen l.
Proof.
  induction l as [|x l IH]; intros H; [unfold sum, zlen; cbn; lia|]. rewrite fmap_cons. unfold sum, zlen in *. cbn [foldr length]. rewrite Nat2Z.inj_succ, Z.mul_succ_r.
  pose proof (H x (list_elem_of_here _ _)). assert (foldr Z.add 0 (f <$> l) ≤ M * Z.of_nat (length l)) by (apply IH; set_solver). lia.
Qed.
Lemma activity_listed d m id a : AccountActivityByAccount d = Ok m → m !! id = Some a → activity_of d id = Ok a.
Proof.
  unfold AccountActivityByAccount. intros H Hl. apply bind_Ok in H as (l & Hs & H). apply Ok_inj in H as <-. apply elem_of_list_to_map_2 in Hl.
  apply scan_all_Forall2 in Hs. apply list_elem_of_lookup in Hl as [i Hi]. destruct (Forall2_lookup_r _ _ _ _ _ Hs Hi) as (k & _ & E).
  apply bind_Ok in E as (a' & Ha & E). by injection E as -> ->.
Qed.

(** What the account list shows.  With every device within its quota, no account is shown above the limit it is measured against, revoked
    devices included; and a moderator is shown neither who invited an account nor any report counter of an
    administrator or moderator. *)
Theorem account_list_sound {UC : UnicodeCase} cfg identity d l r :
  0 ≤ ServerConfig.MaxBlobBytesPerDevice cfg → (∀ k, (BlobUsage d k).2 ≤ ServerConfig.MaxBlobBytesPerDevice cfg) →
  ServerConfig.MaxBlobBytesPerDevice cfg * zlen (map_to_list (devices d)) < 2 ^ 63 →
  handleListAccounts cfg identity d = Ok l → r ∈ l →
  AaBlobBytes r ≤ AaBlobBytesLimit r ∧
  (IdRole identity ≠ RoleAdmin → IdRole identity = RoleModerator ∧ AaInvitedBy r = None ∧ (AaRole r = RoleAdmin ∨ AaRole r = RoleModerator → AaReports r = no_counts)).
Proof.
  intros HM Hq Hbig H Hr. unfold handleListAccounts in H. apply bind_Ok in H as ([] & Hrole & H). apply bind_Ok in H as (accs & _ & H). apply bind_Ok in H as (activity & Ha & H).
  apply Ok_inj in H as <-. apply list_elem_of_fmap in Hr as (acc & -> & _). apply check_Ok in Hrole. rewrite orb_true_iff, !eqb_true in Hrole. split.
  - cbn [adminAccountResponseFrom AaBlobBytes AaBlobBytesLimit]. set (M := ServerConfig.MaxBlobBytesPerDevice cfg) in *.
    destruct (activity !! Store.ID acc) as [a|] eqn:El; cbn [default]; [|cbn; rewrite Z.mul_0_r; by vm_compute].
    destruct (AccountActivityByAccount d) as [m| |] eqn:Em; [|done..]. injection Ha as ->. pose proof (activity_listed d activity (Store.ID acc) a Em El) as E.
    unfold activity_of in E. apply bind_Ok in E as (t & _ & E). injection E as <-. cbn.
    set (devs := devices_of d (Store.ID acc)). assert (zlen devs ≤ zlen (map_to_list (devices d))) as Hlen.
    { unfold devs, devices_of, zlen. rewrite length_fmap. apply Nat2Z.inj_le, length_filter. }
    assert (0 ≤ zlen devs) as H0 by (unfold zlen; lia).
    pose proof (Z.mul_le_mono_nonneg_l _ _ M HM Hlen). pose proof (Z.mul_nonneg_nonneg M _ HM H0). rewrite i64_small by lia. apply (sum_bound (λ k, (BlobUsage d k).2)). auto.
  - intros Hna. destruct Hrole as [|Hmod]; [done|]. split; [done|]. rewrite (proj2 (eqb_false _ _) Hna). cbn [adminAccountResponseFrom AaInvitedBy AaRole AaReports negb andb].
    rewrite lookup_empty. split; [done|]. intros [-> | ->]; done.
Qed.

(** ** The forecast *)

Lemma sum_app l k : sum (l ++ k) = sum l + sum k.
Proof. unfold sum. induction l as [|x l IH]; [done|]. cbn. rewrite IH. lia. Qed.
Lemma sum_nonneg l : Forall (λ x, 0 ≤ x) l → 0 ≤ sum l.
Proof. induction 1 as [|x l Hx Hl IH]; [done|]. unfold sum in *. cbn. lia. Qed.
(** Counting by groups counts each row once. *)
Definition kept_size (P : bytes → bool) (rows : list blob_row) : Z := sum (bl_size <$> filter (λ r, P (expiry_day r) = true) rows).
Lemma kept_size_cons P r rows : kept_size P (r :: rows) = (if P (expiry_day r) then bl_size r else 0) + kept_size P rows.
Proof. unfold kept_size. rewrite filter_cons. case_decide as H; [rewrite H|]; [done|]. by destruct (P (expiry_day r)). Qed.
Lemma bucket_cons r rows day : BkBytes (bucket (r :: rows) day) = (if bool_decide (expiry_day r = day) then bl_size r else 0) + BkBytes (bucket rows day).
Proof. unfold bucket. cbn [BkBytes]. rewrite filter_cons. case_decide as H; [by rewrite bool_decide_true|by rewrite bool_decide_false]. Qed.
Lemma sum_hits x n (days : list bytes) : NoDup days → sum ((λ day, if bool_decide (x = day) then n else 0) <$> days) = if bool_decide (x ∈ days) then n else 0.
Proof.
  induction 1 as [|day days Hni Hnd IH]; [done|]. unfold sum, fmap in *. cbn. rewrite IH. destruct (decide (x = day)) as [->|Hne].
  - rewrite bool_decide_true by done. rewrite (bool_decide_false (day ∈ days)), bool_decide_true by set_solver. lia.
  - rewrite bool_decide_false by done. rewrite Z.add_0_l. apply (f_equal (λ b : bool, if b then n else 0)). apply bool_decide_ext. set_solver.
Qed.
Lemma sum_plus {A} (f g : A → Z) l : sum ((λ x, f x + g x) <$> l) = sum (f <$> l) + sum (g <$> l).
Proof. unfold sum, fmap. induction l as [|x l IH]; [done|]. cbn. rewrite IH. lia. Qed.
Lemma sum_by_day (P : bytes → bool) days rows : NoDup days → (∀ r, r ∈ rows → expiry_day r ∈ days) →
  sum ((λ day, BkBytes (bucket rows day)) <$> filter (λ day, P day = true) days) = kept_size P rows.
Proof.
  intros Hnd. induction rows as [|r rows IH]; intros Hin.
  { unfold kept_size. cbn. unfold sum, fmap. induction (filter _ days) as [|x l IHl]; [done|]. cbn. exact IHl. }
  rewrite kept_size_cons, <- IH by set_solver.
  rewrite (list_fmap_ext _ (λ day, (if bool_decide (expiry_day r = day) then bl_size r else 0) + BkBytes (bucket rows day))) by (intros; apply bucket_cons).
  rewrite sum_plus, sum_hits by (by apply NoDup_filter). f_equal. assert (expiry_day r ∈ days) as Hd by set_solver.
  destruct (P (expiry_day r)) eqn:EP; [rewrite bool_decide_true|rewrite bool_decide_false]; [done| |done|]; rewrite list_elem_of_filter; [done|by rewrite EP; intros []].
Qed.

(** Dates order as the days do. *)
Lemma date_length s : four_digit_year s → length (date_of_unix s) = 10%nat.
Proof.
  intros H. unfold date_of_unix, four_digit_year in *. pose proof (civil_month_range (s / 86400)). pose proof (civil_day_range (s / 86400)).
  rewrite (append_int_small _ 4), !(append_int_small _ 2) by (try done; change (10 ^ Z.of_nat 2) with 100; lia). by rewrite !length_app, !length_digits.
Qed.
Lemma rfc3339_date s : ∃ t, rfc3339_of_unix s = date_of_unix s ++ t.
Proof. unfold rfc3339_of_unix, date_of_unix. eexists. rewrite <- !(assoc_L app). reflexivity. Qed.
Definition midnight : bytes := [84] ++ append_int 0 2 ++ [58] ++ append_int 0 2 ++ [58] ++ append_int 0 2 ++ [90].
Lemma rfc3339_midnight z : rfc3339_of_unix (86400 * z) = date_of_unix (86400 * z) ++ midnight.
Proof.
  unfold rfc3339_of_unix, date_of_unix, midnight. rewrite (Z.mul_comm 86400 z), Z.mod_mul by lia. rewrite <- !(assoc_L app). reflexivity.
Qed.
Lemma date_day s : date_of_unix s = date_of_unix (86400 * (s / 86400)).
Proof. unfold date_of_unix. by rewrite (Z.mul_comm 86400), Z.div_mul by lia. Qed.
Lemma day_of_date s t : four_digit_year s → take 10 (date_of_unix s ++ t) = date_of_unix s.
Proof. intros H. rewrite <- (date_length s H). apply take_app_length. Qed.
Lemma date_leb s u : four_digit_year s → four_digit_year u → bytes_leb (date_of_unix s) (date_of_unix u) = (s / 86400 <=? u / 86400).
Proof.
  intros Hs Hu. assert (∀ x, four_digit_year x → four_digit_year (86400 * (x / 86400))) as Hm by (intros x; unfold four_digit_year; by rewrite (Z.mul_comm 86400), Z.div_mul by lia).
  assert (bytes_leb (date_of_unix s) (date_of_unix u) = bytes_leb (rfc3339_of_unix (86400 * (s / 86400))) (rfc3339_of_unix (86400 * (u / 86400)))) as ->.
  - rewrite !rfc3339_midnight, <- !date_day, bytes_leb_app_eqlen by (by rewrite !date_length). rewrite bytes_le_refl, andb_true_r. unfold bytes_ltb.
    destruct (bytes_leb (date_of_unix s) (date_of_unix u)) eqn:E1; destruct (bytes_leb (date_of_unix u) (date_of_unix s)) eqn:E2; cbn [negb orb]; try done; symmetry.
    + apply eqb_true. by apply bytes_le_antisymm.
    + apply eqb_false. intros E. rewrite E in E1, E2. congruence.
    + destruct (bytes_le_total (date_of_unix s) (date_of_unix u)) as [E|E]; unfold bytes_le in E; congruence.
  - rewrite rfc3339_leb by auto. destruct (Z.leb_spec (s / 86400) (u / 86400)); [apply Z.leb_le; lia|apply Z.leb_gt; lia].
Qed.

(** What the buckets say is what the rows say. *)
Lemma still_stored (P : bytes → bool) buckets acc : Forall (λ b, 0 ≤ BkBytes b) buckets → 0 ≤ acc → acc + sum (BkBytes <$> buckets) < 2 ^ 63 →
  foldl (λ remaining b, if P (Day b) then i64 (remaining + BkBytes b) else remaining) acc buckets = acc + sum (BkBytes <$> filter (λ b, P (Day b) = true) buckets).
Proof.
  intros Hb. revert acc. induction Hb as [|b bs Hb Hbs IH]; intros acc Ha Hs; [cbn; lia|]. cbn [foldl]. rewrite fmap_cons in Hs. change (sum (BkBytes b :: ?l)) with (BkBytes b + sum l) in Hs.
  assert (0 ≤ sum (BkBytes <$> bs)) as Hn by (apply sum_nonneg, Forall_fmap; exact Hbs). rewrite filter_cons. case_decide as E.
  - rewrite E, i64_small, IH by lia. rewrite fmap_cons. change (sum (BkBytes b :: ?l)) with (BkBytes b + sum l). lia.
  - destruct (P (Day b)); [done|]. apply IH; lia.
Qed.
Lemma filter_every {A} (l : list A) : filter (λ _, true = true) l = l.
Proof. induction l as [|x l IH]; [done|]. by rewrite filter_cons_True, IH. Qed.
Lemma buckets_filter (P : bytes → bool) rows (days : list bytes) : BkBytes <$> filter (λ b, P (Day b) = true) (bucket rows <$> days) = (λ day, BkBytes (bucket rows day)) <$> filter (λ day, P day = true) days.
Proof.
  induction days as [|x days IH]; [done|]. rewrite fmap_cons, !filter_cons. change (Day (bucket rows x)) with x. destruct (decide (P x = true)); [rewrite !fmap_cons; f_equal|]; exact IH.
Qed.
Lemma kept_all rows : kept_size (λ _, true) rows = sum (bl_size <$> rows).
Proof. unfold kept_size. by rewrite filter_every. Qed.
Lemma kept_mono (P Q : bytes → bool) rows : Forall (λ r, 0 ≤ bl_size r) rows → (∀ r, r ∈ rows → Q (expiry_day r) = true → P (expiry_day r) = true) → kept_size Q rows ≤ kept_size P rows.
Proof.
  induction 1 as [|r rows Hr Hrs IH]; intros H; [done|]. rewrite !kept_size_cons. assert (kept_size Q rows ≤ kept_size P rows) by (apply IH; set_solver).
  pose proof (H r (list_elem_of_here _ _)) as Hq. destruct (Q (expiry_day r)); [rewrite Hq by done; lia|]. destruct (P (expiry_day r)); lia.
Qed.
Section forecast.
Context {CA : Calendar} (cfg : ServerConfig.t) (d : db) (now : Time).
Local Notation R := (ServerConfig.BlobRetentionDays cfg).
(** The calendar of the server is UTC, as far as the forecast looks. *)
Hypothesis utc_days : ∀ n, 0 ≤ n ≤ R + 1 → unix_seconds (add_days now n) = unix_seconds now + 86400 * n ∧ four_digit_year (unix_seconds now + 86400 * n).
Hypothesis sizes : sizes_ok d.
Hypothesis total_fits : TotalBlobBytes d < 2 ^ 63.

Lemma rows_nonneg : Forall (λ r, 0 ≤ bl_size r) (blob_rows d).
Proof. apply Forall_forall. intros r (x & -> & Hx)%list_elem_of_fmap. destruct x as [id r]. apply elem_of_map_to_list in Hx. by apply sizes in Hx as [H _]. Qed.
Lemma total_rows : TotalBlobBytes d = sum (bl_size <$> blob_rows d).
Proof. unfold TotalBlobBytes, blob_rows, sum. by rewrite <- list_fmap_compose. Qed.
Definition stored_on (day : Z) : Z := kept_size (bytes_leb (date_of_unix (unix_seconds now + 86400 * day))) (blob_rows d).
Lemma bucket_days : NoDup (merge_sort bytes_le (remove_dups (expiry_day <$> blob_rows d))) ∧
  ∀ r, r ∈ blob_rows d → expiry_day r ∈ merge_sort bytes_le (remove_dups (expiry_day <$> blob_rows d)).
Proof.
  split; [rewrite merge_sort_Permutation; apply NoDup_remove_dups|]. intros r Hr. rewrite merge_sort_Permutation. apply elem_of_remove_dups, list_elem_of_fmap_2. done.
Qed.
Lemma bytesStillStoredOn_rows day : 0 ≤ day ≤ R + 1 → bytesStillStoredOn (BlobExpiryBuckets d) (add_days now day) = stored_on day.
Proof.
  intros Hd. destruct (utc_days day Hd) as [Eu _]. destruct bucket_days as [Hnd Hin]. unfold bytesStillStoredOn, stored_on. rewrite (still_stored (bytes_leb _)); [|..|].
  - rewrite Eu, Z.add_0_l. unfold BlobExpiryBuckets. rewrite (buckets_filter (bytes_leb _)). by apply sum_by_day.
  - apply Forall_fmap, Forall_forall. intros x _. cbn. apply sum_nonneg, Forall_fmap. apply Forall_forall. intros r [_ Hr]%list_elem_of_filter. pose proof rows_nonneg as Hn. rewrite Forall_forall in Hn. by apply Hn.
  - done.
  - rewrite Z.add_0_l. pose proof (sum_by_day (λ _, true) _ (blob_rows d) Hnd Hin) as E. rewrite <- (buckets_filter (λ _, true)) in E.
    rewrite kept_all, <- total_rows in E. fold (BlobExpiryBuckets d) in E. rewrite filter_every in E. lia.
Qed.
Lemma stored_on_falls i j : 0 ≤ i ≤ j → j ≤ R + 1 → stored_on j ≤ stored_on i.
Proof.
  intros Hi Hj. apply kept_mono; [apply rows_nonneg|]. intros r _ Hq. destruct (utc_days i ltac:(lia)) as [_ Yi]. destruct (utc_days j ltac:(lia)) as [_ Yj].
  eapply (bytes_le_trans _ _ _ _ Hq). Unshelve. unfold bytes_le. rewrite date_leb by done. apply Z.leb_le, Z.div_le_mono; lia.
Qed.
Lemma stored_on_total i : stored_on i ≤ TotalBlobBytes d.
Proof. rewrite total_rows, <- kept_all. by apply kept_mono; [apply rows_nonneg|]. Qed.
Lemma kept_none (P : bytes → bool) rows : (∀ r, r ∈ rows → P (expiry_day r) = false) → kept_size P rows = 0.
Proof. induction rows as [|r rows IH]; intros H; [done|]. rewrite kept_size_cons, (H r) by apply list_elem_of_here. rewrite IH by set_solver. done. Qed.
Lemma all_gone : 0 ≤ R → (∀ r, r ∈ blob_rows d → ∃ e, bl_expires_at r = rfc3339_of_unix e ∧ four_digit_year e ∧ e ≤ unix_seconds now + 86400 * R) → stored_on (R + 1) = 0.
Proof.
  intros HR H. apply kept_none. intros r Hr. destruct (H r Hr) as (e & Ee & Ye & Hle).
  destruct (utc_days (R + 1) ltac:(lia)) as [_ Yu]. unfold expiry_day. rewrite Ee. destruct (rfc3339_date e) as [t ->]. rewrite day_of_date, date_leb by done. apply Z.leb_gt.
  apply Z.lt_le_trans with (e / 86400 + 1); [lia|]. rewrite <- Z.div_add by lia. apply Z.div_le_mono; lia.
Qed.

(** The storage forecast.  It starts at what is stored; on every later day it shows exactly the bytes of the attachments that expire on that day
    or later, and so never rises; and where nothing outlives the configured retention, it ends, one day past it, at nothing, and the
    projection with new uploads at the level it names as the equilibrium. *)
Theorem forecast_drains snapshot fc : CapturedAt snapshot = now → BlobBytes snapshot = TotalBlobBytes d → storageForecast cfg d snapshot = Some fc →
  let drain := PtBytes <$> Drain fc in
  drain !! 0%nat = Some (TotalBlobBytes d) ∧ length drain = Z.to_nat (R + 2) ∧
  (∀ i x, (0 < i)%nat → drain !! i = Some x → x = stored_on (Z.of_nat i)) ∧
  (∀ i j x y, (i ≤ j)%nat → drain !! i = Some x → drain !! j = Some y → y ≤ x) ∧
  ((∀ r, r ∈ blob_rows d → ∃ e, bl_expires_at r = rfc3339_of_unix e ∧ four_digit_year e ∧ e ≤ unix_seconds now + 86400 * R) →
   last drain = Some 0 ∧ last (PtBytes <$> WithInflow fc) = Some (EquilibriumBytes fc)).
Proof.
  intros Hnow Hb H drain. unfold storageForecast in H. destruct (Z.leb_spec R 0) as [|HR]; [done|]. injection H as <-. cbn [Drain WithInflow EquilibriumBytes] in *.
  set (rem := remaining_on (BlobExpiryBuckets d) snapshot) in *. assert (drain = rem <$> seqZ 0 (R + 2)) as -> by (unfold drain; by rewrite <- list_fmap_compose).
  assert (∀ i x, (rem <$> seqZ 0 (R + 2)) !! i = Some x → Z.of_nat i ≤ R + 1 ∧ x = if decide (i = 0%nat) then TotalBlobBytes d else stored_on (Z.of_nat i)) as Hat.
  { intros i x Hx. apply list_lookup_fmap_Some in Hx as (k & -> & [-> Hk]%lookup_seqZ). split; [lia|]. unfold rem, remaining_on. rewrite Hnow. destruct (decide (i = 0%nat)) as [->|Hi]; [done|].
    rewrite (proj2 (Z.ltb_lt _ _)), Z.add_0_l by lia. apply bytesStillStoredOn_rows. lia. }
  assert ((rem <$> seqZ 0 (R + 2)) !! 0%nat = Some (TotalBlobBytes d)) as H0.
  { rewrite list_lookup_fmap, lookup_seqZ_lt by lia. cbn. unfold rem, remaining_on. cbn. by rewrite Hb. }
  split; [done|]. split; [by rewrite length_fmap, length_seqZ|]. split; [intros i x Hi Hx; apply Hat in Hx as [_ ->]; by destruct (decide (i = 0%nat)); [lia|]|]. split.
  - intros i j x y Hij [_ ->]%Hat [Hj ->]%Hat. destruct (decide (j = 0%nat)) as [->|]; [by destruct (decide (i = 0%nat)); [|lia]|]. destruct (decide (i = 0%nat)); [apply stored_on_total|apply stored_on_falls; lia].
  - intros Hexp. assert (rem (R + 1) = 0) as Hend.
    { unfold rem, remaining_on. rewrite (proj2 (Z.ltb_lt _ _)), Hnow, bytesStillStoredOn_rows by lia. apply all_gone; [lia|done]. }
    assert (∀ g : Z → Z, last (g <$> seqZ 0 (R + 2)) = Some (g (R + 1))) as Hlast.
    { intros g. rewrite last_lookup, length_fmap, length_seqZ, list_lookup_fmap. replace (Nat.pred (Z.to_nat (R + 2))) with (Z.to_nat (R + 1)) by lia.
      rewrite lookup_seqZ_lt by lia. cbn [fmap option_fmap option_map]. do 2 f_equal. lia. }
    rewrite Hlast, Hend. split; [done|]. rewrite <- list_fmap_compose. unfold compose. cbn [forecast_point PtBytes]. rewrite Hlast. fold rem. rewrite Hend, Z.add_0_l, (Z.min_r (R + 1) R) by lia.
    f_equal. apply i64_small, i64_range.
Qed.
End forecast.
