(* ===== verification/ServerAuthority.v ===== *)
(** * Who may change which account

    Exactly which requests create an account, change one or delete one, and with whose
    authority; and that a server which has an administrator keeps one.
    Last, recovery: what it takes and what it leaves. *)

From S2P Require Import Prelude GoStr GoTime GoTimeParse Sha256 Humancode Crypto Base64 Address DeviceCert HttpSig WakeCoalesce Broker Store StoreIntegrity StoreCorrect StoreQueue Auth AuthCorrect Delivery Federation FederationCorrect Prekeys PrekeysCorrect Accounts AccountsCorrect Server.

(** ** Handlers that leave the accounts alone *)

Definition accounts_are (A : gmap bytes account_row) (d : db) : Prop := accounts d = A.
Lemma steady_stmt {B} A (o : db → db * res StoreError B) e : (∀ d, accounts (o d).1 = accounts d) →
  keeps (accounts_are A) (accounts_are A) (stmt o e) (λ _, accounts_are A).
Proof.
  intros H. apply keeps_stmt. intros d Hd. specialize (H d). unfold accounts_are in *.
  destruct (o d) as [d' [? | ? |]]; cbn [fst] in H; congruence.
Qed.
Lemma steady_query {B} A (o : db → res StoreError B) e : keeps (accounts_are A) (accounts_are A) (query o e) (λ _, accounts_are A).
Proof. by apply steady_stmt. Qed.
Lemma steady_ret {B} A (b : B) : keeps (accounts_are A) (accounts_are A) (mret b) (λ _, accounts_are A).
Proof. by apply keeps_ret. Qed.
Lemma steady_tx {B} A (m : handler B) : keeps (accounts_are A) (accounts_are A) m (λ _, accounts_are A) →
  keeps (accounts_are A) (accounts_are A) (in_tx m) (λ _, accounts_are A).
Proof. intros H d Hd. specialize (H d Hd). unfold in_tx. by destruct (m d) as [d' []]. Qed.

Lemma CreateDevice_accounts d x : accounts (CreateDevice d x).1 = accounts d.
Proof. unfold CreateDevice. by repeat case_match. Qed.
Lemma RevokeDevice_accounts d a k t : accounts (RevokeDevice d a k t).1 = accounts d.
Proof. unfold RevokeDevice. by repeat case_match. Qed.
Lemma UpsertDHIdentity_accounts d k p s t : accounts (UpsertDHIdentity d k p s t).1 = accounts d.
Proof. unfold UpsertDHIdentity. by repeat case_match. Qed.
Lemma SetPush_accounts d k s : accounts (SetDevicePushSubscription d k s).1 = accounts d.
Proof. unfold SetDevicePushSubscription. by repeat case_match. Qed.
Lemma SetTarget_accounts d k s : accounts (SetDevicePushTarget d k s).1 = accounts d.
Proof. unfold SetDevicePushTarget. by repeat case_match. Qed.

(** One statement or check of a handler at a time. *)
Ltac steady_step :=
  match goal with
  | |- keeps _ _ (hlift _) _ => apply keeps_check
  | |- keeps _ _ (query _ _) _ => apply steady_query
  | |- keeps _ _ (mret _) _ => apply steady_ret
  | |- keeps _ _ (in_tx _) _ => apply steady_tx
  | |- keeps _ _ (stmt _ _) _ => apply steady_stmt; intros ?
  | |- keeps _ (accounts_are ?A) (_ ≫= _) _ => apply (keeps_bind _ _ _ (λ _, accounts_are A)); [|intros ?]
  | |- keeps _ _ (match ?x with _ => _ end) _ => destruct x
  end.

Section authority.
Context {UC : UnicodeCase} {ED : Ed25519} {CA : Calendar}.

Lemma add_device_steady A now identity b : keeps (accounts_are A) (accounts_are A) (handleAddDevice now identity b) (λ _, accounts_are A).
Proof. unfold handleAddDevice. repeat (cbv zeta; steady_step). apply CreateDevice_accounts. Qed.
Lemma revoke_steady A identity dev b : keeps (accounts_are A) (accounts_are A) (handleRevokeDevice identity dev b) (λ _, accounts_are A).
Proof. unfold handleRevokeDevice. repeat (cbv zeta; steady_step). apply RevokeDevice_accounts. Qed.
Lemma push_steady A h identity dev b : keeps (accounts_are A) (accounts_are A) (handleSetPushEndpoint h identity dev b) (λ _, accounts_are A).
Proof. unfold handleSetPushEndpoint. repeat (cbv zeta; steady_step). apply SetPush_accounts. Qed.
Lemma target_steady A identity dev b : keeps (accounts_are A) (accounts_are A) (handleSetPushTarget identity dev b) (λ _, accounts_are A).
Proof. unfold handleSetPushTarget. repeat (cbv zeta; steady_step). apply SetTarget_accounts. Qed.
Lemma invite_steady A rnd days now identity b : keeps (accounts_are A) (accounts_are A) (handleCreateInvite rnd days now identity b) (λ _, accounts_are A).
Proof.
  unfold handleCreateInvite. repeat (cbv zeta; steady_step).
  match goal with |- accounts (CreateInviteCode _ ?d ?acc ?e _).1 = _ => by apply (quiet_frame d (OCreateInvite rnd acc e now)) end.
Qed.
Lemma upload_steady A now identity dev b : keeps (accounts_are A) (accounts_are A) (handleUploadPrekeys now identity dev b) (λ _, accounts_are A).
Proof.
  unfold handleUploadPrekeys, upload_dh_identity, upload_signed_prekey, upload_one_time. repeat (cbv zeta; steady_step).
  all: try apply UpsertDHIdentity_accounts; try apply AddOneTimePrekeys_accounts.
  all: try match goal with |- accounts (UpsertSignedPrekey ?d ?sp).1 = _ => by apply (quiet_frame d (OUpsertSignedPrekey sp)) end.
  by destruct (UpReplace _).
Qed.
Lemma revoke_others_steady A acc new now l : keeps (accounts_are A) (accounts_are A) (revoke_others acc new now l) (λ _, accounts_are A).
Proof.
  induction l as [|x l IH]; cbn [revoke_others]; [apply steady_ret|]. steady_step; [|exact IH].
  destruct (_ || _); [apply steady_ret|]. intros d Hd. pose proof (RevokeDevice_accounts d acc (DeviceID x) now) as H.
  unfold accounts_are in *. destruct (RevokeDevice d acc (DeviceID x) now) as [d1 [[]|[]|]]; cbn [fst] in H; congruence.
Qed.
Lemma recover_steady A now r path b : keeps (accounts_are A) (accounts_are A) (handleRecoverAccount now r path b) (λ _, accounts_are A).
Proof.
  unfold handleRecoverAccount. repeat (cbv zeta; steady_step).
  - intros d Hd. pose proof (verifyRootSignature_frame now r (raw_bytes a1) a0 d) as (o & Ho).
    destruct (verifyRootSignature _ _ _ _ d) as [d1 ok]. cbn [fst] in Ho. unfold accounts_are in *.
    destruct Ho as [-> |[Hq ->]]; [done|]. by rewrite (proj1 (quiet_frame d o Hq)).
  - apply CreateDevice_accounts.
  - apply revoke_others_steady.
Qed.
(** ** Changes to existing accounts *)

Definition change_accounts (c : account_change) (A : gmap bytes account_row) : gmap bytes account_row :=
  match c with
  | ChangeRole id role => alter (with_role role) id A
  | ChangeStatus id status => alter (with_status status) id A
  | ChangeDelete id => delete id A
  end.
Lemma alter_Some {A} (f : A → A) (m : gmap bytes A) i x : m !! i = Some x → alter f i m = <[i := f x]> m.
Proof.
  intros H. apply map_eq. intros j. destruct (decide (i = j)) as [<-|Hn].
  - by rewrite lookup_alter_eq, H, lookup_insert_eq.
  - by rewrite lookup_alter_ne, lookup_insert_ne.
Qed.
Lemma alter_None {A} (f : A → A) (m : gmap bytes A) i : m !! i = None → alter f i m = m.
Proof.
  intros H. apply map_eq. intros j. destruct (decide (i = j)) as [<-|Hn]; [by rewrite lookup_alter_eq, H|by rewrite lookup_alter_ne].
Qed.
Lemma write_change_accounts c d : accounts (write_change c d).1 = change_accounts c (accounts d).
Proof.
  destruct c as [id role|id st|id]; cbn [write_change change_accounts]; unfold stmt.
  - unfold SetAccountRole. destruct (accounts d !! id) as [r|] eqn:E; simpl; [by rewrite (alter_Some _ _ _ r)|by rewrite alter_None].
  - unfold SetAccountStatus. destruct (accounts d !! id) as [r|] eqn:E; simpl; [by rewrite (alter_Some _ _ _ r)|by rewrite alter_None].
  - unfold DeleteAccount. destruct (accounts d !! id) as [r|] eqn:E; simpl; [done|by rewrite delete_id].
Qed.
Lemma decide_then_write_accounts decide d : accounts (decide_then_write decide d).1 = accounts d ∨
  ∃ c, decide d = Ok c ∧ accounts (decide_then_write decide d).1 = change_accounts c (accounts d).
Proof.
  unfold decide_then_write. destruct (decide d) as [c| |]; [|by left..]. right. exists c. split; [done|].
  rewrite <- write_change_accounts. unfold mbind, handler_bind. by destruct (write_change c d) as [d1 []].
Qed.

(** The change a signed request has decided on. *)
Definition decided (identity : Identity) (e : endpoint) (d : db) (c : account_change) : Prop :=
  match e with
  | ESetRole id b => decide_role identity id b d = Ok c
  | EBlock id => decide_status identity id AccountStatusDisabled d = Ok c
  | EUnblock id => decide_status identity id AccountStatusActive d = Ok c
  | EDelete id => decide_delete identity id d = Ok c
  | EDeleteOwn id => decide_delete_own identity id d = Ok c
  | _ => False
  end.
Lemma steady_run {B} (m : handler B) d : (∀ A, keeps (accounts_are A) (accounts_are A) m (λ _, accounts_are A)) → accounts (m d).1 = accounts d.
Proof. intros H. specialize (H (accounts d) d eq_refl). by destruct (m d) as [d1 []]. Qed.
Lemma endpoint_accounts now identity e d f : accounts (run_endpoint now identity e d f).1 = accounts d ∨
  ∃ c, decided identity e d c ∧ accounts (run_endpoint now identity e d f).1 = change_accounts c (accounts d).
Proof.
  destruct e; cbn [run_endpoint fst decided]; try (by left); try apply decide_then_write_accounts; left; apply steady_run; intros A.
  - apply add_device_steady.
  - apply revoke_steady.
  - apply push_steady.
  - apply target_steady.
  - apply upload_steady.
  - apply invite_steady.
Qed.

(** ** Registration *)

Lemma keeps_any {B} P (m : handler B) : keeps (λ _, True) P m (λ _ _, True).
Proof. intros d _. by destruct (m d) as [? []]. Qed.
Lemma tx_Ok {B} (m : handler B) d d' a : in_tx m d = (d', Ok a) → m d = (d', Ok a).
Proof. unfold in_tx. destruct (m d) as [d1 [x| |]]; by intros [= -> ->]. Qed.

(** A database that is left as it was unless the handler succeeds. *)
Lemma register_atomic f now b d d' x : handleRegisterAccount f now b d = (d', x) → is_ok x = false → d' = d.
Proof.
  assert (keeps (λ d', d' = d) (λ d', d' = d) (handleRegisterAccount f now b) (λ _ _, True)) as H.
  { unfold handleRegisterAccount. do 2 (eapply keeps_bind; [apply keeps_check|intros ?]). destruct a0 as [[id root] e].
    do 3 (eapply keeps_bind; [apply keeps_check|intros ?]). eapply (keeps_bind _ _ _ (λ _ _, True)); [|intros ?; by apply keeps_ret].
    apply keeps_tx; [done|]. apply keeps_any. }
  specialize (H d eq_refl). intros E Hx. rewrite E in H. by destruct x.
Qed.

Definition registered (d d' : db) (id root role : bytes) (now : Time) : Prop :=
  Address.DeriveID root = Ok id ∧ accounts d !! id = None ∧
  accounts d' = <[id := mkAccountRow (id_prefix id) root CurrentVersion AccountStatusActive role (formatTime now)]> (accounts d).
Definition invite_spent (d d' : db) (code id : bytes) (now : Time) : Prop :=
  ∃ row, invite_codes d !! inviteCodeHash code = Some row ∧ iv_used_at row = None ∧ expired_at (formatTime now) (iv_expires_at row) = false ∧
    invite_codes d' !! inviteCodeHash code
      = Some (mkInviteRow (iv_created_by row) (iv_created_at row) (iv_expires_at row) (Some (formatTime now)) (Some id)).

Lemma CreateAccount_Ok d acc d' : CreateAccount d acc = (d', Ok ()) → accounts d !! ID acc = None ∧ invite_codes d' = invite_codes d ∧
  setup_tokens d' = setup_tokens d ∧ accounts d' = <[ID acc := mkAccountRow (id_prefix (ID acc)) (RootPubKey acc) (VersionMarker acc) (Status acc)
    (AccRole acc) (formatTime (CreatedAt acc))]> (accounts d).
Proof.
  unfold CreateAccount. destruct (present (accounts d !! ID acc)) eqn:E; cbn [orb]; [by destruct (GetAccount _ _)|].
  destruct (prefix_taken _ _); [by destruct (GetAccount _ _)|]. intros [= <-]. apply present_None in E. done.
Qed.
Lemma CreateDevice_frame d x d' : CreateDevice d x = (d', Ok ()) → accounts d' = accounts d ∧ invite_codes d' = invite_codes d ∧ setup_tokens d' = setup_tokens d.
Proof. unfold CreateDevice. destruct (present _); [done|]. destruct (negb _); [done|]. by intros [= <-]. Qed.

Lemma register_inv f now b d d' resp : handleRegisterAccount f now b d = (d', Ok resp) →
  ∃ req id root policy, b = Some req ∧ registered d d' id root RoleUser now ∧ GetRegistrationPolicy f = Ok policy ∧ policy ≠ PolicyClosed ∧
    (policy = PolicyInvite → invite_spent d d' (default [] (RgInviteCode req)) id now).
Proof.
  unfold handleRegisterAccount. intros H. hstep H as req E1. apply from_option_Ok in E1 as ->. hstep H as x E2. destruct x as [[id root] e].
  apply decode_registration_inv in E2 as (Hid & _). hstep H as policy E3. apply or_reply_Ok in E3. hstep H as u E4.
  apply check_Ok, negb_true_iff, eqb_false in E4. hstep H as u' E5. apply hbind_Ok in H as (d3 & u'' & Htx & H). injection H as <- <-.
  apply tx_Ok in Htx. hstep Htx as v1 C1. hstep Htx as v2 C2. destruct v1, v2.
  apply CreateAccount_Ok in C1 as (Hnew & Ei1 & _ & Ea1). apply CreateDevice_frame in C2 as (Ea2 & Ei2 & _).
  exists req, id, root, policy. cbn [ID RootPubKey VersionMarker Status AccRole CreatedAt new_account] in *.
  destruct (policy =?b PolicyInvite) eqn:Ep.
  - apply stmt_Ok in Htx. destruct u''. pose proof (quiet_frame d1 (OConsumeInvite (default [] (RgInviteCode req)) id now) eq_refl) as [Ea3 _].
    cbn [run_op] in Ea3. rewrite Htx in Ea3. cbn [fst] in Ea3. split_and!; [done|split_and!; [done|done|congruence]|done|done|]. intros _.
    unfold ConsumeInviteCode in Htx. rewrite Ei2, Ei1 in Htx. destruct (invite_codes d !! _) as [row|] eqn:Er.
    2:{ injection Htx as _ Hd. by apply invite_diagnosis_not_Ok in Hd. }
    destruct (negb _ && negb _) eqn:Eu; [|injection Htx as _ Hd; by apply invite_diagnosis_not_Ok in Hd].
    apply andb_true_iff in Eu as [Eu1%negb_true_iff%present_None Eu2%negb_true_iff]. destruct (present _); [|done]. injection Htx as <-.
    exists row. split_and!; [done..|]. simpl. by rewrite lookup_insert_eq.
  - injection Htx as <- _. split_and!; [done|split_and!; [done|done|congruence]|done|done|]. intros ->. by rewrite eqb_refl in Ep.
Qed.

Definition token_spent (d d' : db) (token id : bytes) (now : Time) : Prop :=
  ∃ row, setup_tokens d = Some row ∧ claimable row token = true ∧
    setup_tokens d' = Some (mkSetupRow (st_token_hash row) (st_created_at row) (Some (formatTime now)) (Some id) (st_failed_attempts row)).
(** Whatever a bootstrap claim does, the accounts change only when the token was right. *)
Lemma bootstrap_inv now b d : accounts (handleBootstrapClaim now b d).1 = accounts d ∨
  ∃ req id root, b = Some req ∧ registered d (handleBootstrapClaim now b d).1 id root RoleAdmin now ∧
    token_spent d (handleBootstrapClaim now b d).1 (BsSetupToken req) id now.
Proof.
  unfold handleBootstrapClaim. destruct (from_option b _ ≫= _) as [[token [[id root] e]]| |] eqn:E; [|by left..].
  apply bind_Ok in E as (req & ->%from_option_Ok & E). apply bind_Ok in E as (x & Hdec & E). injection E as <- ->.
  apply decode_registration_inv in Hdec as (Hid & _). cbv zeta.
  destruct (CreateAccount d _) as [d1 [[]| |]] eqn:C1; [|by left..]. destruct (CreateDevice d1 _) as [d2 [[]| |]] eqn:C2; [|by left..].
  apply CreateAccount_Ok in C1 as (Hnew & _ & Es1 & Ea1). apply CreateDevice_frame in C2 as (Ea2 & _ & Es2).
  cbn [ID RootPubKey VersionMarker Status AccRole CreatedAt new_account] in *.
  unfold ClaimSetupToken. rewrite Es2, Es1. destruct (setup_tokens d) as [row|] eqn:Et.
  - destruct (claimable row (BsSetupToken req)) eqn:Ec; [|left; unfold RecordFailedSetupTokenAttempt; rewrite Et; by destruct (present _)].
    destruct (present _); [|by left]. right. exists req, id, root. split; [done|]. split; [by split_and!; [..|simpl; congruence]|]. by exists row.
  - left. unfold RecordFailedSetupTokenAttempt. by rewrite Et.
Qed.

(** Accounts are created only by registration or by the setup token.  An account that was
    not there before a request has an id derived from its root key and is active, and either it
    is an ordinary user registered while the policy was not closed -- and, where it asks for an
    invite, with a code that existed, was unused and had not expired, and is used up now -- or it is
    an administrator who presented the setup token, unused and not locked, which is spent now. *)
Theorem registration_gated s q id r :
  accounts (si_db s) !! id = None → accounts (si_db (serve s q)) !! id = Some r →
  Address.DeriveID (ac_root_pubkey r) = Ok id ∧ ac_status r = AccountStatusActive ∧
  ((∃ now req policy, q = Register now (Some req) ∧ ac_role r = RoleUser ∧
      GetRegistrationPolicy (si_fed s) = Ok policy ∧ policy ≠ PolicyClosed ∧
      (policy = PolicyInvite → invite_spent (si_db s) (si_db (serve s q)) (default [] (RgInviteCode req)) id now))
   ∨ (∃ now req, q = Bootstrap now (Some req) ∧ ac_role r = RoleAdmin ∧
      token_spent (si_db s) (si_db (serve s q)) (BsSetupToken req) id now)).
Proof.
  intros Hnone Hsome. destruct q as [now rq e|now b|now b|now rq path b|o]; cbn [serve si_db] in *.
  - exfalso. unfold RequireSigned in Hsome. destruct (authenticate _ _ _ _) as [m [identity| |]]; [|simpl in Hsome; congruence..].
    pose proof (endpoint_accounts now identity e (si_db s) (si_fed s)) as H. destruct (run_endpoint _ _ _ _ _) as [d f]. simpl in *.
    destruct H as [H|(c & _ & H)]; rewrite H in Hsome; [congruence|].
    destruct c as [i role|i st|i]; simpl in Hsome; [apply lookup_alter_Some in Hsome; naive_solver..|apply lookup_delete_Some in Hsome; naive_solver].
  - destruct (handleRegisterAccount (si_fed s) now b (si_db s)) as [d' [resp| |]] eqn:E; simpl in *.
    2,3: apply register_atomic in E as ->; [congruence|done].
    apply register_inv in E as (req & i & root & policy & -> & (Hid & _ & Ea) & Hp & Hc & Hi). rewrite Ea in Hsome.
    apply lookup_insert_Some in Hsome as [[<- <-]|[_ ?]]; [|congruence]. simpl. split_and!; [done..|]. left. by exists now, req, policy.
  - destruct (bootstrap_inv now b (si_db s)) as [E|(req & i & root & -> & (Hid & _ & Ea) & Ht)]; [rewrite E in Hsome; congruence|].
    rewrite Ea in Hsome. apply lookup_insert_Some in Hsome as [[<- <-]|[_ ?]]; [|congruence]. simpl. split_and!; [done..|]. right. by exists now, req.
  - exfalso. rewrite (steady_run (handleRecoverAccount now rq path b)) in Hsome by (intros; apply recover_steady). congruence.
  - exfalso. destruct (quiet o) eqn:E; [|congruence]. rewrite (proj1 (quiet_frame (si_db s) o E)) in Hsome. congruence.
Qed.

(** ** Who changes an account *)

(** The rules of the permission matrix. *)
Definition authorised (identity : Identity) (id : bytes) (before : account_row) (after : option account_row) : Prop :=
  IdRole identity = RoleAdmin
  ∨ (IdRole identity = RoleModerator ∧ ac_role before = RoleUser ∧ ∃ st, after = Some (with_status st before))
  ∨ (IdAccountID identity = id ∧ after = None).

Lemma requireAdmin_Ok identity u : requireAdmin identity = Ok u → IdRole identity = RoleAdmin.
Proof. unfold requireAdmin. by intros H%check_Ok%eqb_true_1. Qed.
Lemma get_target_Ok d id t : get_target d id = Ok t → GetAccount d id = Ok t.
Proof. unfold get_target. by destruct (GetAccount d id); intros [= ->]. Qed.

Lemma decided_authorised identity e d c id r : decided identity e d c → accounts d !! id = Some r →
  change_accounts c (accounts d) !! id = Some r ∨ authorised identity id r (change_accounts c (accounts d) !! id).
Proof.
  assert (∀ i st, decide_status identity i st d = Ok c → accounts d !! id = Some r →
    change_accounts c (accounts d) !! id = Some r ∨ authorised identity id r (change_accounts c (accounts d) !! id)) as Hst.
  { intros i st H Hr. apply bind_Ok in H as (u & H1%check_Ok & H). apply bind_Ok in H as (t & H2%get_target_Ok & H).
    apply bind_Ok in H as (u' & H3%check_Ok & H). apply bind_Ok in H as (u'' & _ & H). apply Ok_inj in H as <-. simpl.
    apply GetAccount_row in H2 as (_ & row & Hrow & _ & _ & Erole).
    destruct (decide (i = id)) as [->|Hne]; [|left; by rewrite lookup_alter_ne]. right. rewrite lookup_alter_eq, Hr. simpl.
    rewrite Hr in Hrow. injection Hrow as <-. apply orb_true_iff in H3 as [H3%eqb_true_1|H3%eqb_true_1]; [by left|].
    apply orb_true_iff in H1 as [H1%eqb_true_1|H1%eqb_true_1]; [by left|]. right. left. split_and!; [done|congruence|by exists st]. }
  destruct e; cbn [decided]; try done; intros H Hr.
  - apply bind_Ok in H as (u & H1%requireAdmin_Ok & _). right. by left.
  - by eapply Hst.
  - by eapply Hst.
  - apply bind_Ok in H as (u & H1%requireAdmin_Ok & _). right. by left.
  - apply bind_Ok in H as (u & _ & H). apply bind_Ok in H as (t & _ & H). apply bind_Ok in H as (u' & _ & H). apply Ok_inj in H as <-. simpl.
    destruct (decide (IdAccountID identity = id)) as [<-|Hne].
    + right. right. right. split; [done|]. by rewrite lookup_delete_eq.
    + left. by rewrite lookup_delete_ne.
Qed.

(** C24: no account changes without authority.  Whenever a request alters or deletes an account,
    it was signed by an active device of an active account that is an administrator; or a
    moderator's, and then only the status of an ordinary user changed; or the account's own, and
    then it was deleted.  In particular no one but an administrator changes a role, and no public
    request -- registration, bootstrap, recovery -- touches an existing account. *)
Theorem account_changes_authorised s q id r :
  accounts (si_db s) !! id = Some r → accounts (si_db (serve s q)) !! id ≠ Some r →
  ∃ now rq e m identity, q = Signed now rq e ∧ authenticate (si_auth s) (si_db s) now rq = (m, Ok identity) ∧
    genuine (si_db s) identity ∧ authorised identity id r (accounts (si_db (serve s q)) !! id).
Proof.
  intros Hr Hne. destruct q as [now rq e|now b|now b|now rq path b|o]; cbn [serve si_db] in *.
  - unfold RequireSigned in *. destruct (authenticate _ _ _ _) as [m [identity| |]] eqn:Ea; [|done..].
    exists now, rq, e, m, identity. split_and!; [done|done|by eapply authenticate_genuine|].
    pose proof (endpoint_accounts now identity e (si_db s) (si_fed s)) as H. destruct (run_endpoint _ _ _ _ _) as [d f]. simpl in *.
    destruct H as [H|(c & Hc & H)]; rewrite H in *; [done|]. by destruct (decided_authorised _ _ _ _ _ _ Hc Hr).
  - exfalso. destruct (handleRegisterAccount (si_fed s) now b (si_db s)) as [d' [resp| |]] eqn:E; simpl in *.
    2,3: apply register_atomic in E as ->; done.
    apply register_inv in E as (req & i & root & policy & -> & (_ & Hn & Ea) & _). rewrite Ea, lookup_insert_ne in Hne; [done|congruence].
  - exfalso. destruct (bootstrap_inv now b (si_db s)) as [E|(req & i & root & -> & (_ & Hn & Ea) & _)]; [by rewrite E in Hne|].
    rewrite Ea, lookup_insert_ne in Hne; [done|congruence].
  - exfalso. by rewrite (steady_run (handleRecoverAccount now rq path b)) in Hne by (intros; apply recover_steady).
  - exfalso. destruct (quiet o) eqn:E; [|done]. by rewrite (proj1 (quiet_frame (si_db s) o E)) in Hne.
Qed.

(** ** The last administrator *)

Definition has_admin (A : gmap bytes account_row) : Prop := ∃ id r, A !! id = Some r ∧ is_active_admin r = true.

Lemma another_admin d id : 1 < CountActiveAdmins d → ∃ id' r, id' ≠ id ∧ accounts d !! id' = Some r ∧ is_active_admin r = true.
Proof.
  unfold CountActiveAdmins. intros H. set (l := filter _ _) in H.
  assert (NoDup (fst <$> l)) as Hnd by (apply NoDup_fmap_filter; rewrite fmap_fst_map_to_list_NoDup || apply NoDup_fst_map_to_list).
  assert (∀ x, x ∈ l → accounts d !! x.1 = Some x.2 ∧ is_active_admin x.2 = true) as Hl.
  { intros [i x] Hx. apply list_elem_of_filter in Hx as [Ha Hx]. by apply elem_of_map_to_list in Hx. }
  destruct l as [|[i1 r1] [|[i2 r2] l]]; [done|done|]. destruct (decide (i1 = id)) as [->|Hne].
  - exists i2, r2. destruct (Hl (i2, r2)) as [? ?]; [set_solver|]. split_and!; [|done..]. intros ->.
    apply NoDup_cons in Hnd as [Hx _]. set_solver.
  - exists i1, r1. destruct (Hl (i1, r1)) as [? ?]; [set_solver|]. by split_and!.
Qed.

Lemma keeps_admin d id target f : has_admin (accounts d) → GetAccount d id = Ok target → wouldRemoveLastActiveAdmin d target = false →
  has_admin (partial_alter f id (accounts d)).
Proof.
  intros (i & r & Hi & Ha) Hg Hw. apply GetAccount_row in Hg as (_ & row & Hrow & _ & Es & Er).
  assert (∃ i' r', i' ≠ id ∧ accounts d !! i' = Some r' ∧ is_active_admin r' = true) as (i' & r' & Hne & Hi' & Ha').
  { unfold wouldRemoveLastActiveAdmin in Hw. destruct (_ || _) eqn:E.
    - exists i, r. split_and!; [|done..]. intros ->. rewrite Hi in Hrow. injection Hrow as <-. unfold is_active_admin in Ha.
      rewrite Er, Es in Ha. apply andb_true_iff in Ha as [Ha1 Ha2]. rewrite Ha1, Ha2 in E. done.
    - apply another_admin. lia. }
  exists i', r'. by rewrite lookup_partial_alter_ne.
Qed.
Lemma alter_keeps_admin A id g : has_admin A → (∀ r, is_active_admin r = true → is_active_admin (g r) = true) → has_admin (alter g id A).
Proof.
  intros (i & r & Hi & Ha) Hg. destruct (decide (id = i)) as [->|Hne].
  - exists i, (g r). rewrite lookup_alter_eq, Hi. auto.
  - exists i, r. by rewrite lookup_alter_ne.
Qed.

Lemma decided_keeps_admin identity e d c : decided identity e d c → has_admin (accounts d) → has_admin (change_accounts c (accounts d)).
Proof.
  intros H Ha. destruct e; cbn [decided] in H; try done.
  - apply bind_Ok in H as (u & _ & H). apply bind_Ok in H as (req & _ & H). destruct (ParseRole req) as [role ok]. apply bind_Ok in H as (u' & _ & H).
    apply bind_Ok in H as (t & Ht%get_target_Ok & H). apply bind_Ok in H as (u'' & Hl%check_Ok & H). apply Ok_inj in H as <-. simpl.
    apply orb_true_iff in Hl as [->%eqb_true_1|Hl%negb_true_iff]; [|by eapply keeps_admin].
    apply alter_keeps_admin; [done|]. intros r [_ Hr]%andb_true_iff. apply andb_true_iff. by split.
  - apply bind_Ok in H as (u & _ & H). apply bind_Ok in H as (t & Ht%get_target_Ok & H). apply bind_Ok in H as (u' & _ & H).
    apply bind_Ok in H as (u'' & Hl%check_Ok & H). apply Ok_inj in H as <-. simpl. apply orb_true_iff in Hl as [Hl|Hl%negb_true_iff]; [done|].
    by eapply keeps_admin.
  - apply bind_Ok in H as (u & _ & H). apply bind_Ok in H as (t & Ht%get_target_Ok & H). apply bind_Ok in H as (u' & _ & H).
    apply bind_Ok in H as (u'' & _ & H). apply Ok_inj in H as <-. simpl.
    apply alter_keeps_admin; [done|]. intros r [Hr _]%andb_true_iff. apply andb_true_iff. by split.
  - apply bind_Ok in H as (u & _ & H). apply bind_Ok in H as (t & Ht%get_target_Ok & H). apply bind_Ok in H as (u' & Hl%check_Ok%negb_true_iff & H).
    apply Ok_inj in H as <-. by eapply keeps_admin.
  - apply bind_Ok in H as (u & _ & H). apply bind_Ok in H as (t & Ht%get_target_Ok & H). apply bind_Ok in H as (u' & Hl%check_Ok%negb_true_iff & H).
    apply Ok_inj in H as <-. by eapply keeps_admin.
Qed.

Lemma serve_keeps_admin s q : has_admin (accounts (si_db s)) → has_admin (accounts (si_db (serve s q))).
Proof.
  intros Ha. destruct q as [now rq e|now b|now b|now rq path b|o]; cbn [serve si_db].
  - unfold RequireSigned. destruct (authenticate _ _ _ _) as [m [identity| |]]; [|done..].
    pose proof (endpoint_accounts now identity e (si_db s) (si_fed s)) as H. destruct (run_endpoint _ _ _ _ _) as [d f]. simpl in *.
    destruct H as [-> |(c & Hc & ->)]; [done|]. by eapply decided_keeps_admin.
  - destruct (handleRegisterAccount (si_fed s) now b (si_db s)) as [d' [resp| |]] eqn:E; simpl.
    2,3: apply register_atomic in E as ->; done.
    apply register_inv in E as (req & i & root & policy & _ & (_ & Hn & ->) & _). destruct Ha as (i' & r & Hi & Hr).
    exists i', r. rewrite lookup_insert_ne; [done|congruence].
  - destruct (bootstrap_inv now b (si_db s)) as [-> |(req & i & root & _ & (_ & Hn & ->) & _)]; [done|]. destruct Ha as (i' & r & Hi & Hr).
    exists i', r. rewrite lookup_insert_ne; [done|congruence].
  - by rewrite (steady_run (handleRecoverAccount now rq path b)) by (intros; apply recover_steady).
  - destruct (quiet o) eqn:E; [|done]. by rewrite (proj1 (quiet_frame (si_db s) o E)).
Qed.

(** C23: a server keeps an administrator.  Once there is an active administrator -- the first
    bootstrap claim makes one -- there is one after every sequence of requests handled one
    after the other, whoever sends them: no demotion, block or deletion, of oneself or of
    others, removes the last one. *)
Theorem last_admin_stays s qs : has_admin (accounts (si_db s)) → has_admin (accounts (si_db (foldl serve s qs))).
Proof. revert s. induction qs as [|q qs IH]; intros s Ha; [done|]. by apply IH, serve_keeps_admin. Qed.

(** The check and the write are two statements, so two requests at once can both pass the
    check: two administrators who demote each other at the same time leave none. *)
Lemma demoted_together d a b ra rb :
  a ≠ b → GetAccount d a = Ok ra → GetAccount d b = Ok rb → AccRole ra = RoleAdmin → AccRole rb = RoleAdmin → 1 < CountActiveAdmins d →
  (∀ i r, accounts d !! i = Some r → is_active_admin r = true → i = a ∨ i = b) →
  ∃ c1 c2, decide_role (mkIdentity a [] RoleAdmin) b (Some RoleUser) d = Ok c1 ∧ decide_role (mkIdentity b [] RoleAdmin) a (Some RoleUser) d = Ok c2 ∧
    ¬ has_admin (accounts (write_change c2 (write_change c1 d).1).1).
Proof.
  intros Hne Ha Hb Era Erb Hc Honly. exists (ChangeRole b RoleUser), (ChangeRole a RoleUser).
  assert (∀ i j t, GetAccount d j = Ok t → decide_role (mkIdentity i [] RoleAdmin) j (Some RoleUser) d = Ok (ChangeRole j RoleUser)) as Hd.
  { intros i j t Ht. unfold decide_role, get_target. rewrite Ht. cbn. unfold wouldRemoveLastActiveAdmin.
    destruct (_ || negb (Status t =?b _)); [done|]. by rewrite (proj2 (Z.leb_gt _ _) Hc). }
  split_and!; [by eapply Hd|by eapply Hd|]. rewrite !write_change_accounts. simpl. intros (i & r & Hi & Hadm).
  apply lookup_alter_Some in Hi as [(<- & r1 & _ & ->)|[Hna Hi]]; [done|].
  apply lookup_alter_Some in Hi as [(<- & r1 & _ & ->)|[Hnb Hi]]; [done|]. destruct (Honly i r Hi Hadm); congruence.
Qed.

End authority.

(** ** Account recovery

    What [handleRecoverAccount] has checked when it succeeds, and what it leaves: one active
    device, the new one. *)

(** ** Listing and revoking *)

Lemma scan_all_complete {A B} (scan : A → res StoreError B) l bs x : scan_all scan l = Ok bs → x ∈ l → ∃ b, scan x = Ok b ∧ b ∈ bs.
Proof.
  revert bs. induction l as [|y l IH]; intros bs H Hx; [by apply elem_of_nil in Hx|]. cbn [scan_all] in H.
  apply bind_Ok in H as (b & Hb & H). apply bind_Ok in H as (bs' & Hbs & H). apply Ok_inj in H as <-.
  apply elem_of_cons in Hx as [->|Hx]; [exists b; split; [done|left]|]. destruct (IH _ Hbs Hx) as (b' & ? & ?). exists b'. split; [done|by right].
Qed.
Lemma ListDevices_complete d acc l k r : ListDevicesByAccount d acc = Ok l → devices d !! k = Some r → dv_account_id r = acc →
  ∃ x, x ∈ l ∧ DeviceID x = k ∧ DevStatus x = dv_status r.
Proof.
  unfold ListDevicesByAccount, account_devices. intros H Hr Ha.
  destruct (scan_all_complete _ _ _ (k, r) H) as (x & Hx & Hin).
  { rewrite merge_sort_Permutation. apply list_elem_of_filter. split; [done|]. by apply elem_of_map_to_list. }
  exists x. split; [done|]. assert (GetDevice d k = Ok x) as Hg by (unfold GetDevice; by rewrite Hr).
  apply GetDevice_id in Hg as (? & r' & Hr' & _ & ? & _). split; congruence.
Qed.

Definition revoked_row (now : Time) (r : device_row) : device_row :=
  mkDeviceRow (dv_account_id r) (dv_pubkey r) (dv_cert_issued_at r) (dv_cert_signature r) DeviceStatusRevoked
    (Some (formatTime now)) (dv_created_at r) (dv_dh_pubkey r) (dv_dh_issued_at r) (dv_dh_signature r) (dv_push r) (dv_push_target r).

(** Each device is left alone or revoked; those of other accounts and the new one are left
    alone; the active ones on the list are not left active. *)
Record revoked_to (acc new : bytes) (now : Time) (l : list Device) (D D' : gmap bytes device_row) : Prop := {
  rv_each k r' : D' !! k = Some r' → ∃ r, D !! k = Some r ∧ (r' = r ∨ r' = revoked_row now r ∧ dv_account_id r = acc ∧ k ≠ new);
  rv_kept k r : D !! k = Some r → dv_account_id r ≠ acc ∨ k = new → D' !! k = Some r;
  rv_done k r' x : D' !! k = Some r' → dv_account_id r' = acc → k ≠ new → x ∈ l → DeviceID x = k → DevStatus x = DeviceStatusActive →
    dv_status r' ≠ DeviceStatusActive;
}.

Lemma RevokeDevice_cases d acc k now :
  (∃ r, devices d !! k = Some r ∧ dv_account_id r = acc ∧ dv_status r = DeviceStatusActive ∧
     RevokeDevice d acc k now = (set_devices d (<[k := revoked_row now r]> (devices d)), Ok ()))
  ∨ RevokeDevice d acc k now = (d, Err ErrNotFound) ∧
    ∀ r, devices d !! k = Some r → dv_account_id r = acc → dv_status r ≠ DeviceStatusActive.
Proof.
  unfold RevokeDevice. destruct (devices d !! k) as [r|]; [|right; split; [done|by intros]].
  destruct (dv_account_id r =?b acc) eqn:E1; cbn [andb].
  - destruct (dv_status r =?b DeviceStatusActive) eqn:E2.
    + left. exists r. apply eqb_true_1 in E1, E2. done.
    + right. split; [done|]. apply eqb_false in E2. by intros ? [= <-] _.
  - right. split; [done|]. apply eqb_false in E1. by intros ? [= <-].
Qed.

Lemma revoke_others_spec acc new now l d : ∃ d', revoke_others acc new now l d = (d', Ok ()) ∧ revoked_to acc new now l (devices d) (devices d').
Proof.
  revert d. induction l as [|x l IH]; intros d; cbn [revoke_others].
  { exists d. split; [done|]. split; [eauto|done|]. intros k r' x _ _ _ []%elem_of_nil. }
  unfold mbind, handler_bind. destruct (_ || _) eqn:E.
  - destruct (IH d) as (d' & E' & [H1 H2 H3]). exists d'. unfold mret, handler_ret. split; [done|]. split; [done|done|].
    intros k r' y Hr' Ha Hk [->|Hy]%elem_of_cons Hid Hst; [|by eapply H3]. exfalso.
    apply orb_true_iff in E as [E%eqb_true_1|E%negb_true_iff%eqb_false]; congruence.
  - apply orb_false_iff in E as [E1%eqb_false E2%negb_false_iff%eqb_true_1].
    destruct (RevokeDevice_cases d acc (DeviceID x) now) as [(r & Hr & Hacc & Hst & ->)|[-> Hna]].
    + destruct (IH (set_devices d (<[DeviceID x := revoked_row now r]> (devices d)))) as (d' & E' & [H1 H2 H3]). exists d'. split; [done|].
      simpl in H1, H2. split.
      * intros k r' Hr'. destruct (H1 k r' Hr') as (r0 & [[<- <-]|[Hne Hr0]]%lookup_insert_Some & Hc); [|by eauto].
        exists r. split; [done|]. right. split; [|done]. destruct Hc as [->|(-> & _ & _)]; done.
      * intros k r0 Hr0 Hk. apply H2; [|done]. rewrite lookup_insert_ne; [done|]. intros <-. destruct Hk; congruence.
      * intros k r' y Hr' Ha Hk [->|Hy]%elem_of_cons Hid Hst'; [|by eapply H3]. subst k.
        destruct (H1 _ _ Hr') as (r0 & Hr0 & Hc). rewrite lookup_insert_eq in Hr0. injection Hr0 as <-.
        destruct Hc as [->|(-> & _)]; done.
    + destruct (IH d) as (d' & E' & [H1 H2 H3]). exists d'. split; [done|]. split; [done|done|].
      intros k r' y Hr' Ha Hk [->|Hy]%elem_of_cons Hid Hst'; [|by eapply H3]. subst k. destruct (H1 _ _ Hr') as (r0 & Hr0 & [->|(-> & _)]); [|done].
      by apply Hna.
Qed.

Section recovery.
Context {UC : UnicodeCase} {ED : Ed25519}.

(** ** The root signature *)

Lemma verifyRootSignature_true now r body acc d d' : verifyRootSignature now r body acc d = (d', true) →
  ∃ ts sig, Header_Get r HeaderKeyID = b64_encode (RootPubKey acc) ∧ ParseTimestamp (Header_Get r HeaderTimestamp) = Ok ts ∧
    WithinSkew ts now MaxClockSkew = true ∧ b64_decode (Header_Get r HeaderSignature) = Some sig ∧
    ed_verify (RootPubKey acc) (CanonicalString (Method r) (URL_Path r) (URL_RawQuery r) (Header_Get r HeaderTimestamp)
      (Header_Get r HeaderNonce) (Header_Get r HeaderKeyID) body) sig = true ∧
    used_nonces d !! (Header_Get r HeaderKeyID, Header_Get r HeaderNonce) = None ∧ devices d' = devices d ∧ accounts d' = accounts d ∧
    present (used_nonces d' !! (Header_Get r HeaderKeyID, Header_Get r HeaderNonce)) = true.
Proof.
  unfold verifyRootSignature. destruct (or_reply _ _ ≫= _) as [[h ts]| |] eqn:E; [|done..]. intros Hn.
  apply bind_Ok in E as (h' & Hh%or_reply_Ok & E). apply bind_Ok in E as (u & Hk%check_Ok%eqb_true_1 & E).
  apply bind_Ok in E as (ts' & Hts%or_reply_Ok & E). apply bind_Ok in E as (u' & Hsk%check_Ok & E).
  apply bind_Ok in E as (u'' & Hv%or_reply_Ok & E). injection E as -> ->. unfold ParseRequestHeaders in Hh. destruct (_ || _); [done|].
  apply Ok_inj in Hh as <-. cbn [KeyID Timestamp Signature Nonce] in *. destruct u''. apply Verify_Ok_inv in Hv as (sig & Hs & Hv).
  unfold RecordNonce in Hn. destruct (present _) eqn:Ep; [done|]. injection Hn as <-. apply present_None in Ep.
  exists ts, sig. split_and!; try done. simpl. by rewrite lookup_insert_eq.
Qed.

(** C22: recovery is the root key's, and complete.  When a recovery succeeds, the request -- its
    method, path, query, timestamp, nonce and whole body -- was signed by the root key of the
    account named in the path, freshly and with an unused nonce; the account is active; the
    new device is certified by that root key and is now the only active device of the account;
    the devices of all other accounts, and every account, are as they were. *)
Theorem recovery_exact now r path b d d' resp :
  handleRecoverAccount now r path b d = (d', Ok resp) →
  ∃ id acc body req ts sig e,
    Address.Normalize path = Ok id ∧ GetAccount d id = Ok acc ∧ Status acc = AccountStatusActive ∧ b = inr body ∧ raw_decoded body = Some req ∧
    Header_Get r HeaderKeyID = b64_encode (RootPubKey acc) ∧
    ParseTimestamp (Header_Get r HeaderTimestamp) = Ok ts ∧ WithinSkew ts now MaxClockSkew = true ∧
    b64_decode (Header_Get r HeaderSignature) = Some sig ∧
    ed_verify (RootPubKey acc) (CanonicalString (Method r) (URL_Path r) (URL_RawQuery r) (Header_Get r HeaderTimestamp)
      (Header_Get r HeaderNonce) (Header_Get r HeaderKeyID) (raw_bytes body)) sig = true ∧
    used_nonces d !! (Header_Get r HeaderKeyID, Header_Get r HeaderNonce) = None ∧
    EnDeviceID e = RvDeviceID req ∧ verify_enrolment id e (RootPubKey acc) = Ok () ∧ devices d !! RvDeviceID req = None ∧
    (∃ row, devices d' !! RvDeviceID req = Some row ∧ dv_account_id row = id ∧ dv_pubkey row = EnDevicePub e ∧ dv_status row = DeviceStatusActive) ∧
    (∀ k row, devices d' !! k = Some row → dv_account_id row = id → dv_status row = DeviceStatusActive → k = RvDeviceID req) ∧
    (∀ k row, devices d !! k = Some row → dv_account_id row ≠ id → devices d' !! k = Some row) ∧ accounts d' = accounts d.
Proof.
  unfold handleRecoverAccount. intros H. hstep H as id E1. apply or_reply_Ok in E1. hstep H as acc E2. apply get_target_Ok in E2. hstep H as body E3.
  hstep H as req E4. apply from_option_Ok in E4. hstep H as u5 E5. clear E5. apply hbind_Ok in H as (d1 & ok & E6 & H). hstep H as u7 E7. apply check_Ok in E7 as ->.
  hstep H as u8 E8. apply check_Ok, eqb_true_1 in E8. hstep H as pub E9. hstep H as iss E10. hstep H as sg E11. cbv zeta in H. hstep H as u12 E12.
  apply hbind_Ok in H as (d2 & u13 & Htx & H). hstep H as l2 E14. injection H as <- _. destruct b as [?|b']; [done|]. apply Ok_inj in E3 as ->.
  destruct (verifyRootSignature now r (raw_bytes body) acc d) as [d1' ok] eqn:Ev. injection E6 as -> ->.
  apply verifyRootSignature_true in Ev as (ts & sig & V1 & V2 & V3 & V4 & V5 & V6 & V7 & V8 & _).
  apply tx_Ok in Htx. hstep Htx as ex L1. apply (or_reply_Ok _ internal) in L1. hstep Htx as u15 C. pose proof (GetAccount_row _ _ _ E2) as (Eid & row & Hrow & _).
  set (e := mkEnrolment (RvDeviceID req) pub iss sg) in *. rewrite Eid in *. destruct u12, u15.
  unfold CreateDevice in C. destruct (present (devices d1 !! _)) eqn:Ep; [done|]. apply present_None in Ep. destruct (negb _); [done|].
  injection C as <-. cbn [new_device DeviceID EnDeviceID AccountID DevicePubKey CertIssuedAt CertSignature DevStatus DevCreatedAt e EnDevicePub EnIssuedAt EnSignature] in *.
  set (d3 := set_devices _ _) in Htx. destruct (revoke_others_spec id (RvDeviceID req) now ex d3) as (d4 & Er & [R1 R2 R3]).
  rewrite Er in Htx. injection Htx as <- _. exists id, acc, body, req, ts, sig, e. rewrite <- V7.
  assert (∀ k r', devices d3 !! k = Some r' → k ≠ RvDeviceID req → devices d1 !! k = Some r') as Hold.
  { intros k r' Hk Hne. unfold d3 in Hk. simpl in Hk. by rewrite lookup_insert_ne in Hk. }
  split_and!; try done.
  - eexists. split; [apply R2; [unfold d3; simpl; by rewrite lookup_insert_eq|by right]|done].
  - intros k r' Hk Ha Hst. destruct (decide (k = RvDeviceID req)) as [|Hne]; [done|]. exfalso.
    destruct (R1 k r' Hk) as (r0 & Hr0 & [->|(-> & _)]); [|done]. pose proof (Hold k r0 Hr0 Hne) as Hr1.
    destruct (ListDevices_complete _ _ _ _ _ L1 Hr1 Ha) as (x & Hx & Hid & Hsx). by apply (R3 k r0 x Hk Ha Hne Hx Hid); [congruence|].
  - intros k r' Hk Ha. apply R2; [|by left]. unfold d3. simpl. rewrite lookup_insert_ne; [done|]. intros <-. congruence.
  - rewrite <- V8. pose proof (steady_run _ d3 (λ A, revoke_others_steady A id (RvDeviceID req) now ex)) as Hs. by rewrite Er in Hs.
Qed.
End recovery.
