(* ===== verification/Resolve.v ===== *)
(** * The key directory and the client that reads it

    [ResolvePeer] of pkg/client/peers_resolve.go: from an address to a device whose
    certificate verifies.  The request itself is an argument: what the server answered.
    Against a server that handled its requests as [Server] does, the answer for an account
    resolves to its first active device; against any server, an endpoint is certified by the
    root key it came with, and nothing else. *)

From S2P Require Import Prelude GoStr GoTime GoTimeParse Sha256 Humancode Crypto Base64 Bech32m Address DeviceCert HttpSig WakeCoalesce Broker Store StoreIntegrity StoreCorrect StoreQueue Auth AuthCorrect Delivery Federation FederationCorrect Prekeys PrekeysCorrect Accounts AccountsCorrect Server.

Section resolve.
Context {UC : UnicodeCase} {ED : Ed25519}.

(** One device of the answer: the endpoint, when it is active and everything decodes and
    verifies. *)
Definition verified_device (accountID rootPub server : bytes) (d : deviceResponse) : option PeerEndpoint :=
  if negb (DrStatus d =?b DeviceStatusActive) then None
  else
    devicePub ← b64_decode (DrDevicePubKey d);
    issuedAt ← time_parse (DrIssuedAt d);
    sig ← b64_decode (DrSignature d);
    if is_ok (DeviceCertificate.Verify (DeviceCertificate.mk accountID (DrDeviceID d) devicePub issuedAt sig) rootPub)
    then Some (mkPeer accountID (DrDeviceID d) devicePub server) else None.
Fixpoint first_verified (accountID rootPub server : bytes) (l : list deviceResponse) : option PeerEndpoint :=
  match l with
  | [] => None
  | d :: l => match verified_device accountID rootPub server d with Some p => Some p | None => first_verified accountID rootPub server l end
  end.

Definition no_device : string := "client: no active device with a certificate that verifies".
Definition normalised_query (addressOrPrefix : bytes) : bytes := match Address.Normalize addressOrPrefix with Ok n => n | _ => addressOrPrefix end.
(** The two checks of an answer. *)
Definition check_answer (server : bytes) (acc : accountResponse) : res string PeerEndpoint :=
  rootPub ← from_option (b64_decode (ArRootPubKey acc)) "client: decoding root key"%string;
  ok ← Address.Verify (ArID acc) rootPub;
  _ ← guard_err ok "client: account does not match the root key it was served with"%string;
  from_option (first_verified (ArID acc) rootPub server (ArDevices acc)) no_device.
Definition ResolvePeer (get : bytes → bytes → res string accountResponse) (addressOrPrefix server : bytes) : res string PeerEndpoint :=
  get server (normalised_query addressOrPrefix) ≫= check_answer server.

(** ** What an endpoint proves *)

Lemma first_verified_Some acc root server l p : first_verified acc root server l = Some p →
  ∃ d, d ∈ l ∧ verified_device acc root server d = Some p.
Proof.
  induction l as [|d l IH]; [done|]. cbn [first_verified]. destruct (verified_device _ _ _ d) as [p'|] eqn:E.
  - intros [= <-]. exists d. split; [left|done].
  - intros (x & ? & ?)%IH. exists x. split; [by right|done].
Qed.

(** A resolved endpoint is certified, but not by the address that was asked for.  Whatever
    the server answered, the endpoint's account id is derived from the root key in the answer,
    and that key certified the endpoint's device and device key.  The answer is not compared with
    the address: the same answer resolves any other address to the same endpoint. *)
Theorem resolved_not_bound get address server p :
  ResolvePeer get address server = Ok p →
  ∃ acc rootPub issued sig,
    b64_decode (ArRootPubKey acc) = Some rootPub ∧ Address.Verify (PeAccountID p) rootPub = Ok true ∧ PeServer p = server ∧
    DeviceCertificate.Verify (DeviceCertificate.mk (PeAccountID p) (PeDeviceID p) (PeDevicePub p) issued sig) rootPub = Ok () ∧
    ∀ other, ResolvePeer (λ _ _, Ok acc) other server = Ok p.
Proof.
  unfold ResolvePeer, check_answer. intros H. apply bind_Ok in H as (acc & _ & H). pose proof H as Hsame.
  apply bind_Ok in H as (root & Hroot%from_option_Ok & H). apply bind_Ok in H as (ok & Hok & H). apply bind_Ok in H as (u & Hg & H).
  destruct ok; [|done]. apply from_option_Ok, first_verified_Some in H as (d & _ & Hd). unfold verified_device in Hd.
  destruct (negb _); [done|]. apply bind_Some in Hd as (pub & Hpub & Hd). apply bind_Some in Hd as (iss & Hiss & Hd).
  apply bind_Some in Hd as (sig & Hsig & Hd). destruct (DeviceCertificate.Verify _ _) as [[]| |] eqn:Hv; [|done..]. injection Hd as <-.
  exists acc, root, iss, sig. by split_and!.
Qed.

(** ** A directory kept by the handlers *)

Lemma derived_id root id : Address.DeriveID root = Ok id →
  Address.Normalize id = Ok id ∧ StripSeparators id = id ∧ zlen id = idLength ∧ Address.Verify id root = Ok true.
Proof.
  intros Hd. destruct (derive_certifies _ _ _ Hd) as (Hl & Hn & _ & Hv & _). split_and!; [done| |done|done].
  apply DeriveIDVersion_Ok in Hd as (Hs & _ & ->). pose proof (id_symbols_syms _ root Hs) as HF.
  rewrite StripSeparators_ascii by (by apply charset_ascii). by apply strip_charset.
Qed.

Lemma scan_certified k r root : device_certified k r root → ∃ x iss, scanDeviceFields k r = Ok x ∧ DeviceID x = k ∧
  DevStatus x = dv_status r ∧ DevicePubKey x = dv_pubkey r ∧ CertSignature x = dv_cert_signature r ∧ CertIssuedAt x = to_second iss ∧ year_ok iss ∧
  DeviceCertificate.Verify (DeviceCertificate.mk (dv_account_id r) k (dv_pubkey r) (to_second iss) (dv_cert_signature r)) root = Ok ().
Proof.
  intros [(iss & Ei & Hy & Hv) _ (t & Et & Hyt) Hrev Hdh]. unfold scanDeviceFields. rewrite Ei, Et, !parse_format by done. cbn [Prelude.from_option mbind res_bind].
  assert (∃ o, scan_time (dv_revoked_at r) "store: parsing device revoked_at" = Ok o) as [o Ho].
  { destruct (dv_revoked_at r) as [s|]; [|by eexists]. destruct (Hrev s eq_refl) as (t' & -> & Hy'). simpl. rewrite parse_format by done. by eexists. }
  rewrite Ho. cbn [mbind res_bind]. destruct (dv_dh_pubkey r) as [dh|] eqn:Edh; cbn [default].
  - destruct (Hdh dh Edh) as (i & sg & Hi & Hyi & Hsg & _). rewrite Hi. simpl. rewrite parse_format by done. simpl.
    destruct (0 <? zlen dh); do 2 eexists; (split; [done|]); by split_and!.
  - do 2 eexists. split; [done|]. by split_and!.
Qed.

Definition is_active (x : bytes * device_row) : Prop := dv_status x.2 = DeviceStatusActive.
#[local] Instance is_active_dec x : Decision (is_active x).
Proof. unfold is_active. apply _. Defined.

Lemma resolve_device k r x iss id root server :
  DeviceID x = k → DevStatus x = dv_status r → DevicePubKey x = dv_pubkey r → CertSignature x = dv_cert_signature r → CertIssuedAt x = to_second iss →
  year_ok iss → is_bytes (dv_pubkey r) → is_bytes (dv_cert_signature r) →
  DeviceCertificate.Verify (DeviceCertificate.mk id k (dv_pubkey r) (to_second iss) (dv_cert_signature r)) root = Ok () →
  verified_device id root server (deviceResponseFrom x) = if decide (is_active (k, r)) then Some (mkPeer id k (dv_pubkey r) server) else None.
Proof.
  intros E1 E2 E3 E4 E5 Hy Hb1 Hb2 Hv. unfold verified_device, deviceResponseFrom. cbn [DrStatus DrDevicePubKey DrIssuedAt DrSignature DrDeviceID].
  rewrite E1, E2, E3, E4, E5. unfold is_active. cbn [snd]. case_decide as Hd.
  - rewrite Hd, eqb_refl. cbn [negb]. rewrite !b64_decode_encode by done. cbn [mbind option_bind].
    rewrite time_parse_stored by done. cbn [mbind option_bind]. by rewrite Hv.
  - by rewrite (proj2 (eqb_false _ _) Hd).
Qed.

(** The rows of one account, as read and as resolved. *)
Lemma resolve_rows id root server (l : list (bytes * device_row)) :
  Forall (λ x, dv_account_id x.2 = id ∧ device_certified x.1 x.2 root) l →
  ∃ xs, scan_all (λ x : bytes * device_row, scanDeviceFields x.1 x.2) l = Ok xs ∧
    first_verified id root server (deviceResponseFrom <$> xs) = (λ x, mkPeer id x.1 (dv_pubkey x.2) server) <$> (snd <$> list_find is_active l).
Proof.
  induction 1 as [|[k r] l [Ha Hc] HF (xs & Exs & Efv)]; [by exists []|]. cbn [fst snd] in *.
  destruct (scan_certified k r root Hc) as (x & iss & Ex & E1 & E2 & E3 & E4 & E5 & Hy & Hv). exists (x :: xs). cbn [scan_all fst snd]. rewrite Ex, Exs.
  split; [done|]. rewrite fmap_cons. cbn [first_verified]. rewrite Ha in Hv.
  rewrite (resolve_device k r x iss id root server E1 E2 E3 E4 E5 Hy (proj1 (dc_bytes _ _ _ Hc)) (proj2 (dc_bytes _ _ _ Hc)) Hv).
  cbn [list_find]. case_decide; [done|]. rewrite Efv. by destruct (list_find is_active l) as [[i y]|].
Qed.

Context {CA : Calendar}.

(** The directory answers what its readers accept.  After any sequence of requests, the
    answer for an account on file passes every check of the client: the id matches the root
    key, and the address resolves to the account's first active device with the key on file --
    or to none, exactly when the account has no active device. *)
Theorem directory_verifies m f qs id r server :
  Forall sane qs → accounts (si_db (foldl serve (mkSite m empty_db f) qs)) !! id = Some r →
  let d := si_db (foldl serve (mkSite m empty_db f) qs) in
  ResolvePeer (λ _ p, wrap_err (λ _, "client: request failed"%string) (handleGetAccount d p)) id server
  = match list_find is_active (account_devices d id) with
    | Some (_, (k, row)) => Ok (mkPeer id k (dv_pubkey row) server)
    | None => Err no_device
    end.
Proof.
  intros Hs Hr d. change (accounts d !! id = Some r) in Hr. assert (registry d) as Hreg by (apply serve_all_registry; [apply registry_empty|done]).
  destruct (rg_account d Hreg id r Hr) as (Hid & Hb & t & Et & Hyt). destruct (derived_id _ _ Hid) as (Hn & Hst & Hl & Hv).
  assert (Forall (λ x : bytes * device_row, dv_account_id x.2 = id ∧ device_certified x.1 x.2 (ac_root_pubkey r)) (account_devices d id)) as HF.
  { unfold account_devices. apply Forall_forall. intros [k row] Hk. rewrite merge_sort_Permutation in Hk.
    apply list_elem_of_filter in Hk as [Ha Hk%elem_of_map_to_list]. cbn [fst snd] in *. split; [done|].
    destruct (rg_device d Hreg k row Hk) as (a & Hacc & Hc). rewrite Ha in Hacc. rewrite Hr in Hacc. by injection Hacc as <-. }
  destruct (resolve_rows id (ac_root_pubkey r) server _ HF) as (xs & Exs & Efv).
  assert (handleGetAccount d id = Ok (accountResponseFrom id (ac_root_pubkey r) xs)) as Hget.
  { unfold handleGetAccount. rewrite Hst, Hl. change (idLength =? PrefixLength) with false. cbv iota. rewrite Hn. cbn [or_reply mbind res_bind].
    unfold GetAccount. rewrite Hr. unfold scanAccount. rewrite Et, parse_format by done. cbn [Prelude.from_option mbind res_bind ID RootPubKey].
    unfold ListDevicesByAccount. by rewrite Exs. }
  unfold ResolvePeer, normalised_query. rewrite Hn, Hget. unfold check_answer. cbn [wrap_err mbind res_bind accountResponseFrom ArID ArRootPubKey ArDevices].
  rewrite b64_decode_encode by done. cbn [Prelude.from_option mbind res_bind]. rewrite Hv. cbn [mbind res_bind guard_err]. rewrite Efv.
  by destruct (list_find is_active (account_devices d id)) as [[i [k row]]|].
Qed.
End resolve.
