(* ===== verification/ApiExamples.v ===== *)
(** * Deliveries, foreign senders and accounts, evaluated

    Messages to the phone of the small server of ServerExamples.v, and a sender of another
    server with its certificate and signed request; registrations, a recovery and what the
    directory answers. *)

From S2P Require Import Prelude GoStr GoTime GoTimeParse Sha256 Humancode Ratchet Crypto Base64 Bech32m Address DeviceCert HttpSig WakeCoalesce Broker Store StoreIntegrity StoreCorrect StoreQueue Auth AuthCorrect ServerExamples Delivery Federation FederationCorrect Prekeys PrekeysCorrect Accounts AccountsCorrect Server ServerAuthority Resolve.

#[local] Instance utc_calendar : Calendar := λ t n, time_add t (n * 86400 * second).
Definition cfg0 : Config := mkConfig 5 30 100 2 [].
Definition api0 : API := mkAPI db0 newMessageBroker (newWakeCoalescer (5 * second)).
Definition to_phone : enqueueRequest :=
  mkEnqueue (lit "m9") (ID carol) (lit "d2") [] (DeviceID phone) (lit "sealed").

Lemma api0_wf : broker_wf 2 (broker api0).
Proof. apply new_broker_wf. Qed.

Definition queued_to : res () (API * list action * enqueueOutcome) := enqueueMessage cfg0 api0 t0 t0 to_phone.

Lemma enqueue_exact_witness : ∃ a' acts, queued_to = Ok (a', acts, enqueueQueued) ∧ zlen (messages (DB a')) = 1.
Proof.
  destruct (enqueue_exact cfg0 2 api0 t0 t0 to_phone api0_wf) as (a' & acts & o & H & _ & _ & _ & Hq).
  exists a', acts. unfold queued_to. rewrite H.
  assert (o = enqueueQueued) as ->.
  { assert ((x ← queued_to; Ok x.2) = Ok enqueueQueued) as E by by_vm. unfold queued_to in E. rewrite H in E.
    injection E as E. exact E. }
  split; [reflexivity|]. destruct (Hq eq_refl) as (dv & _ & Hdb & _). rewrite Hdb. by_vm.
Defined.

Definition opened : API * (reply + nat) :=
  match queued_to with Ok (a, _, _) => stream_subscribe cfg0 a alice_id | _ => (api0, inl (mkReply 0 [])) end.
Definition api1 : API := match queued_to with Ok (a, _, _) => a | _ => api0 end.
Definition acts1 : list action := match queued_to with Ok (_, acts, _) => acts | _ => [] end.
Lemma queued_to_eq : queued_to = Ok (api1, acts1, enqueueQueued).
Proof.
  unfold api1, acts1. assert ((x ← queued_to; Ok x.2) = Ok enqueueQueued) as E by by_vm.
  destruct queued_to as [[[a acts] o]| |]; [|discriminate..]. injection E as E. simpl in E. by rewrite E.
Qed.

(** The message is in the queue, and neither in what the stream first lists nor in its
    channel. *)
Lemma stream_gap_witness :
  ∃ a2 c ch, stream_subscribe cfg0 api1 alice_id = (a2, inr c) ∧ chans (broker a2) !! c = Some ch ∧ buf ch = [].
Proof.
  destruct (stream_subscribe cfg0 api1 alice_id) as [a2 o] eqn:E.
  assert (match (stream_subscribe cfg0 api1 alice_id).2 with inr _ => true | inl _ => false end = true) as Eo by by_vm.
  rewrite E in Eo. destruct o as [?|c]; [discriminate|]. exists a2, c.
  destruct (stream_gap cfg0 2 api0 alice_id t0 t0 to_phone [] api1 acts1 a2 c api0_wf) as (_ & (ch & Hc & Hb) & _).
  - by_vm.
  - by_vm.
  - by_vm.
  - exact queued_to_eq.
  - exact E.
  - exists ch. split; [reflexivity|]. split; [exact Hc|exact Hb].
Defined.

(** ** A sender of another server *)

Definition root_seed : bytes := replicate 32 11.
Definition root_priv : bytes := root_seed ++ ed_pub root_seed.
Definition far_seed : bytes := replicate 32 12.
Definition far_priv : bytes := far_seed ++ ed_pub far_seed.
Definition far_id : bytes := Eval vm_compute in match DeriveID (ed_pub root_seed) with Ok i => i | _ => [] end.
Definition far_dev : bytes := lit "8899aabbccddeeff".
Definition far_cert : bytes :=
  match DeviceCertificate.SignDeviceCertificate far_id far_dev (ed_pub far_seed) t0 root_priv with
  | Ok c => DeviceCertificate.Signature c | _ => [] end.
Definition far_body : bytes := lit "{}".
Definition far_key : bytes := b64_encode (ed_pub far_seed).
Definition far_sig : bytes :=
  match Sign (lit "POST") (lit "/v1/federation/messages") [] far_body far_key t0 (lit "n7") far_priv with Ok s => s | _ => [] end.
Definition far_request : Request :=
  mkRequest (lit "POST") (lit "/v1/federation/messages") []
    (list_to_map [(HeaderKeyID, [far_key]); (HeaderTimestamp, [FormatTimestamp t0]);
                  (HeaderNonce, [lit "n7"]); (HeaderSignature, [far_sig])]) (Some far_body).
Definition far_claim : federatedSenderClaim :=
  mkClaim far_id (b64_encode (ed_pub root_seed))
    (mkCertDTO far_dev (b64_encode (ed_pub far_seed)) (rfc3339 t0) (b64_encode far_cert)) far_body [].
Definition open_fed : fed := mkFed (Some (mkSettings (lit "open") (Some 1) None None)) ∅.

Lemma far_accepted : ∃ d1, verifyFederatedSender db0 open_fed t0 far_request far_claim = (d1, Ok (mkSender far_id far_dev (ed_pub far_seed))).
Proof.
  assert ((verifyFederatedSender db0 open_fed t0 far_request far_claim).2 = Ok (mkSender far_id far_dev (ed_pub far_seed))) as E by by_vm.
  destruct (verifyFederatedSender _ _ _ _ _) as [d1 o]. exists d1. simpl in E. by rewrite E.
Qed.

Lemma federated_sender_sound_witness : ∃ d1, used_nonces d1 !! (far_key, lit "n7") ≠ None ∧
  verifyFederatedSender db0 open_fed t0 far_request far_claim = (d1, Ok (mkSender far_id far_dev (ed_pub far_seed))).
Proof.
  destruct far_accepted as [d1 H]. exists d1. split; [|exact H].
  destruct (federated_sender_sound db0 open_fed t0 far_request far_claim d1 _ H)
    as (root & cert & issued & ts & sig & _ & _ & _ & _ & _ & _ & _ & _ & _ & _ & _ & ->).
  change (Header_Get far_request HeaderKeyID) with far_key. change (Header_Get far_request HeaderNonce) with (lit "n7").
  cbn [used_nonces set_nonces]. rewrite lookup_insert_eq. discriminate.
Defined.

(** Purged at the last second at which its timestamp is accepted, it is still refused. *)
Lemma federated_replay_refused_witness :
  ∃ d1, is_ok (verifyFederatedSender (foldl run_fed d1 [FedOp (OPurgeNonces t_edge)]) open_fed t_edge far_request far_claim).2 = false.
Proof.
  destruct far_accepted as [d1 H]. exists d1.
  apply (federated_replay_refused db0 open_fed t0 far_request far_claim d1 _ t0 [FedOp (OPurgeNonces t_edge)] open_fed t_edge
           far_request far_claim H).
  - by_vm.
  - apply sane_unix. lia.
  - apply year_ok_by. by_vm.
  - apply sane_unix. lia.
  - constructor; [|constructor]. split; [apply year_ok_by; by_vm|reflexivity].
  - reflexivity.
  - reflexivity.
  - reflexivity.
Defined.

(** Blocked in display spelling, refused in the canonical one. *)
Definition blocked_fed : fed := (handleBlockFederationSender open_fed t0 alice_id (FormatForDisplay far_id) None).1.
Lemma block_not_evaded_witness :
  is_ok (verifyFederatedSender db0 (foldl run_change blocked_fed [FcFederation true; FcUnblock alice_id (lit "q2xjx")]) t0 far_request far_claim).2 = false.
Proof.
  apply (block_not_evaded open_fed t0 alice_id (FormatForDisplay far_id) None blocked_fed
           [FcFederation true; FcUnblock alice_id (lit "q2xjx")] db0 t0 far_request far_claim).
  - by_vm.
  - repeat constructor.
    + intros [].
    + intros E. vm_compute in E. discriminate E.
  - by_vm.
Defined.

(** ** Prekeys of the phone *)

Definition dh_pub (n : Z) : bytes := replicate 32 n.
Definition dh_dto (n : Z) : dhIdentityCertDTO :=
  mkDHCert (b64_encode (dh_pub n)) (rfc3339 t0)
    (match DHIdentityCertificate.SignDHIdentityCertificate (ID alice) (DeviceID phone) (dh_pub n) t0 dev_priv with
     | Ok c => b64_encode (DHIdentityCertificate.Signature c) | _ => [] end).
Definition spk_dto (n : Z) : signedPrekeyDTO :=
  mkSPK 7 (b64_encode (dh_pub n)) (b64_encode (dh_pub 40)) (rfc3339 t0)
    (match SignedPrekeyCertificate.SignSignedPrekeyCertificate (ID alice) (DeviceID phone) 7 (dh_pub n) (dh_pub 40) t0 dev_priv with
     | Ok c => b64_encode (SignedPrekeyCertificate.Signature c) | _ => [] end).
Definition upload0 : uploadPrekeysRequest := mkUpload (Some (dh_dto 30)) (spk_dto 30) [mkOTP 5 (b64_encode (dh_pub 50))] true.
Definition uploaded (req : uploadPrekeysRequest) (d : db) : db := (handleUploadPrekeys t0 alice_id (DeviceID phone) (Some req) d).1.
(** The phone without the short test keys of [db0]. *)
Definition db1 : db := DeleteOneTimePrekeys db0 (DeviceID phone).
Definition someone : bundleClaimant := mkClaimant (ID carol) true.
Definition phone_peer : PeerEndpoint := mkPeer (ID alice) (DeviceID phone) dev_pub [].

Lemma upload0_accepted : handleUploadPrekeys t0 alice_id (DeviceID phone) (Some upload0) db1 = (uploaded upload0 db1, Ok (mkReply 200 [])).
Proof.
  unfold uploaded. assert ((handleUploadPrekeys t0 alice_id (DeviceID phone) (Some upload0) db1).2 = Ok (mkReply 200 [])) as E by by_vm.
  destruct (handleUploadPrekeys _ _ _ _ _) as [d o]. simpl in E. by rewrite E.
Qed.

Lemma uploaded_bundle_verifies_witness :
  ∃ a' acts bundle remote,
    claim_for (mkAPI (uploaded upload0 db1) newMessageBroker (newWakeCoalescer (5 * second))) t0 (DeviceID phone) someone
      = Ok (a', acts, inr bundle) ∧ verifyBundle bundle phone_peer = Ok remote ∧ Ratchet.SignedPrekeyID remote = 7.
Proof.
  destruct (uploaded_bundle_verifies t0 alice_id (DeviceID phone) upload0 db1 (uploaded upload0 db1) (mkReply 200 []) phone0 someone
    newMessageBroker (newWakeCoalescer (5 * second)) t0 [] upload0_accepted) as (_ & a' & acts & bundle & remote & H1 & H2 & H3 & _).
  - by_vm.
  - reflexivity.
  - split.
    + intros c t [= <-]. intros E. assert (t = to_second t0) as ->. { vm_compute in E. injection E as <-. by_vm. }
      apply year_ok_by. by_vm.
    + intros t E. assert (t = to_second t0) as ->. { vm_compute in E. injection E as <-. by_vm. }
      apply year_ok_by. by_vm.
  - apply year_ok_by. by_vm.
  - intros r Hr k Hk. assert (dv_dh_pubkey <$> devices db1 !! DeviceID phone = Some None) as E by by_vm.
    rewrite Hr in E. injection E as E. rewrite Hk in E. discriminate E.
  - intros o Ho _. assert (one_time_prekeys db1 = []) as E by by_vm. rewrite E in Ho. destruct (not_elem_of_nil _ Ho).
  - assert ((x ← GetDevice (uploaded upload0 db1) (DeviceID phone); Ok (DevStatus x)) = Ok DeviceStatusActive) as E by by_vm.
    destruct (GetDevice (uploaded upload0 db1) (DeviceID phone)) as [x| |]; [|discriminate..]. exists x. split; [reflexivity|].
    injection E as E. exact E.
  - exists a', acts, bundle, remote. split; [exact H1|]. split; [exact H2|exact H3].
Defined.

(** An upload that rotates the DH identity but whose signed prekey is still bound to the
    old one is refused with 400 -- after the new identity has been stored.  From then on
    the bundle handed out does not verify: nobody can start a session with the device. *)
Definition rotation : uploadPrekeysRequest := mkUpload (Some (dh_dto 31)) (spk_dto 30) [] false.
Definition bundle_check (d : db) : option (res string Ratchet.RemoteBundle) :=
  match claim_for (mkAPI d newMessageBroker (newWakeCoalescer (5 * second))) t0 (DeviceID phone) someone with
  | Ok (_, _, inr b) => Some (verifyBundle b phone_peer)
  | _ => None
  end.
Example refused_upload_breaks_bundle :
  (is_ok <$> bundle_check (uploaded upload0 db1)) = Some true ∧
  (handleUploadPrekeys t0 alice_id (DeviceID phone) (Some rotation) (uploaded upload0 db1)).2 = Err (bad "invalid_request") ∧
  (is_ok <$> bundle_check (uploaded rotation (uploaded upload0 db1))) = Some false.
Proof. split_and!; by_vm. Qed.

(** The same way an upload that is to replace the pool by a malformed one empties it. *)
Definition bad_pool : uploadPrekeysRequest := mkUpload None (spk_dto 30) [mkOTP 6 (lit "!")] true.
Example refused_upload_empties_pool :
  CountOneTimePrekeys (uploaded upload0 db1) (DeviceID phone) = 1 ∧
  (handleUploadPrekeys t0 alice_id (DeviceID phone) (Some bad_pool) (uploaded upload0 db1)).2 = Err (bad "invalid_request") ∧
  CountOneTimePrekeys (uploaded bad_pool (uploaded upload0 db1)) (DeviceID phone) = 0.
Proof. split_and!; by_vm. Qed.

(** ** A claim *)

Definition claim_path : bytes := lit "/v1/devices/0011223344556677/prekey-bundle".
Definition claim_sig : bytes :=
  match Sign (lit "POST") claim_path [] [] (DeviceID phone) t0 (lit "n8") dev_priv with Ok s => s | _ => [] end.
Definition claim_request : Request :=
  mkRequest (lit "POST") claim_path []
    (list_to_map [(HeaderKeyID, [DeviceID phone]); (HeaderTimestamp, [FormatTimestamp t0]);
                  (HeaderNonce, [lit "n8"]); (HeaderSignature, [claim_sig])]) (Some []).
Definition api2 : API := mkAPI (uploaded upload0 db1) newMessageBroker (newWakeCoalescer (5 * second)).
Definition claimed_by (r : Request) : res () (Middleware * API * list action * (reply + prekeyBundleResponse)) :=
  handleClaimPrekeyBundle no_streams api2 open_fed t0 t0 r (DeviceID phone) (inr (mkRaw [] None)).

Lemma prekey_only_identified_witness :
  ∃ id, (authenticate no_streams (DB api2) t0 (with_body claim_request [])).2 = Ok id.
Proof.
  destruct (claimed_by claim_request) as [[[[m' a'] acts] o]| |] eqn:E.
  - pose proof E as E'. unfold claimed_by in E'.
    destruct (prekey_only_identified no_streams api2 open_fed t0 t0 claim_request (DeviceID phone) (inr (mkRaw [] None)) m' a' acts o E')
      as (body & [= <-] & [H|(claim & s & H & _)]).
    + left. assert ((x ← claimed_by claim_request; Ok (zlen (one_time_prekeys (DB x.1.1.2)))) = Ok 0) as E2 by by_vm.
      rewrite E in E2. injection E2 as E2. simpl in E2. intros Eq. rewrite Eq in E2. vm_compute in E2. discriminate E2.
    + exact H.
    + exists alice_id. by_vm.
  - assert (is_ok (claimed_by claim_request) = true) as E2 by by_vm. rewrite E in E2. discriminate E2.
  - assert (is_ok (claimed_by claim_request) = true) as E2 by by_vm. rewrite E in E2. discriminate E2.
Defined.

(** Without signature headers the bundle comes without a one-time prekey. *)
Example anonymous_claim :
  (x ← claimed_by (mkRequest (lit "POST") claim_path [] ∅ (Some []));
   Ok (match x.2 with inr b => Some (BuOneTimePrekey b, BuOmitted b) | inl _ => None end,
       CountOneTimePrekeys (DB x.1.1.2) (DeviceID phone)))
  = Ok (Some (None, oneTimePrekeyOmittedUnauthenticated), 1).
Proof. by_vm. Qed.

(** ** Accounts on a small server, evaluated

    Registration, administration and recovery against the servers of ServerExamples.v and
    ApiExamples.v. *)

#[local] Instance utc : Calendar := λ t n, time_add t (n * 86400 * second).

(** ** Registering *)

Definition join : request :=
  Register t0 (Some (mkRegister (b64_encode (ed_pub root_seed)) far_dev (b64_encode (ed_pub far_seed)) (rfc3339 t0) (b64_encode far_cert) None)).
Abbreviation joined := (foldl serve (mkSite no_streams empty_db open_fed) [join]).

Lemma join_sane : sane join.
Proof.
  split; [apply year_ok_by; by_vm|]. intros req [= <-] t Ht. assert (time_parse (rfc3339 t0) = Some t0) as E by by_vm.
  change (time_parse (rfc3339 t0) = Some t) in Ht. rewrite E in Ht. injection Ht as <-. apply year_ok_by. by_vm.
Qed.
Definition far_row : account_row := Eval vm_compute in
  mkAccountRow (id_prefix far_id) (ed_pub root_seed) CurrentVersion AccountStatusActive RoleUser (formatTime t0).
Lemma joined_row : accounts (si_db joined) !! far_id = Some far_row.
Proof. by_vm. Qed.

Lemma registration_gated_witness : Address.DeriveID (ed_pub root_seed) = Ok far_id ∧ ac_role far_row = RoleUser.
Proof.
  destruct (registration_gated (mkSite no_streams empty_db open_fed) join far_id far_row eq_refl joined_row) as (Hid & _ & _).
  split; [exact Hid|reflexivity].
Defined.

(** ** The directory *)

Lemma directory_verifies_witness :
  ResolvePeer (λ _ p, wrap_err (λ _, "client: request failed"%string) (handleGetAccount (si_db joined) p)) far_id []
  = Ok (mkPeer far_id far_dev (ed_pub far_seed) []).
Proof.
  pose proof (directory_verifies no_streams open_fed [join] far_id far_row [] (Forall_cons_2 _ _ _ join_sane (Forall_nil_2 _)) joined_row) as H.
  cbv zeta in H. rewrite H. by_vm.
Defined.

(** Asked for another account, the same answer is accepted. *)
Definition answer : res string accountResponse := wrap_err (λ _, "client: request failed"%string) (handleGetAccount (si_db joined) far_id).
Lemma resolved_not_bound_witness : ∃ acc, ResolvePeer (λ _ _, Ok acc) (ID alice) [] = Ok (mkPeer far_id far_dev (ed_pub far_seed) []).
Proof.
  destruct (resolved_not_bound (λ _ _, answer) far_id [] (mkPeer far_id far_dev (ed_pub far_seed) [])) as (acc & root & iss & sig & _ & _ & _ & _ & H).
  - by_vm.
  - exists acc. apply H.
Defined.

(** ** Administration *)

Definition admin_site : site := mkSite no_streams db0 open_fed.
Definition block_carol : request := Signed t0 request0 (EBlock (ID carol)).

Definition carol_row : account_row := Eval vm_compute in
  mkAccountRow (id_prefix (ID carol)) (RootPubKey carol) 1 AccountStatusActive RoleUser (formatTime t0).
Lemma account_changes_authorised_witness :
  ∃ m identity, authenticate no_streams db0 t0 request0 = (m, Ok identity) ∧ authorised identity (ID carol) carol_row
    (accounts (si_db (serve admin_site block_carol)) !! ID carol).
Proof.
  destruct (account_changes_authorised admin_site block_carol (ID carol) carol_row) as (now & rq & e & m & identity & E & Ha & _ & Hau).
  - by_vm.
  - vm_compute. discriminate.
  - injection E as <- <- _. exists m, identity. split; [exact Ha|exact Hau].
Defined.

Lemma last_admin_stays_witness :
  has_admin (accounts (si_db (foldl serve admin_site [block_carol; Signed t0 request0 (EDeleteOwn (ID alice)); Other OResetSetup]))).
Proof.
  apply last_admin_stays. exists (ID alice), (mkAccountRow (id_prefix (ID alice)) (RootPubKey alice) 1 AccountStatusActive RoleAdmin (formatTime t0)).
  split; by_vm.
Defined.

(** Two administrators demote each other at once. *)
Definition two_admins : db := (SetAccountRole db0 (ID carol) RoleAdmin).1.
Example no_admin_left :
  ∃ c1 c2, decide_role (mkIdentity (ID alice) [] RoleAdmin) (ID carol) (Some RoleUser) two_admins = Ok c1 ∧
    decide_role (mkIdentity (ID carol) [] RoleAdmin) (ID alice) (Some RoleUser) two_admins = Ok c2 ∧
    CountActiveAdmins (write_change c2 (write_change c1 two_admins).1).1 = 0.
Proof. exists (ChangeRole (ID carol) RoleUser), (ChangeRole (ID alice) RoleUser). split_and!; by_vm. Qed.

(** ** Recovery *)

Definition new_seed : bytes := replicate 32 13.
Definition new_dev : bytes := lit "0123456789abcdef".
Definition new_cert : bytes :=
  match DeviceCertificate.SignDeviceCertificate far_id new_dev (ed_pub new_seed) t0 root_priv with
  | Ok c => DeviceCertificate.Signature c | _ => [] end.
Definition recover_body : rawBody recoverAccountRequest :=
  mkRaw (lit "{}") (Some (mkRecover new_dev (b64_encode (ed_pub new_seed)) (rfc3339 t0) (b64_encode new_cert))).
Definition root_key : bytes := b64_encode (ed_pub root_seed).
Definition recover_path : bytes := lit "/v1/accounts/" ++ far_id ++ lit "/recover".
Definition recover_sig : bytes :=
  match Sign (lit "POST") recover_path [] (lit "{}") root_key t0 (lit "n8") root_priv with Ok s => s | _ => [] end.
Definition recover_request : Request :=
  mkRequest (lit "POST") recover_path []
    (list_to_map [(HeaderKeyID, [root_key]); (HeaderTimestamp, [FormatTimestamp t0]); (HeaderNonce, [lit "n8"]); (HeaderSignature, [recover_sig])])
    (Some (lit "{}")).

Lemma recovery_exact_witness :
  ∃ d' resp, handleRecoverAccount t0 recover_request (FormatForDisplay far_id) (inr recover_body) (si_db joined) = (d', Ok resp) ∧
    ∀ k row, devices d' !! k = Some row → dv_account_id row = far_id → dv_status row = DeviceStatusActive → k = new_dev.
Proof.
  assert (is_ok (handleRecoverAccount t0 recover_request (FormatForDisplay far_id) (inr recover_body) (si_db joined)).2 = true) as E by by_vm.
  destruct (handleRecoverAccount t0 recover_request (FormatForDisplay far_id) (inr recover_body) (si_db joined)) as [d' o] eqn:H.
  destruct o as [resp| |]; [|discriminate..]. exists d', resp. split; [reflexivity|].
  destruct (recovery_exact t0 recover_request (FormatForDisplay far_id) (inr recover_body) (si_db joined) d' resp H)
    as (id & acc & body & req & ts & sig & e & Hn & _ & _ & Hb & Hr & _ & _ & _ & _ & _ & _ & _ & _ & _ & _ & Honly & _).
  assert (Normalize (FormatForDisplay far_id) = Ok far_id) as Hf by by_vm. rewrite Hf in Hn. injection Hn as <-.
  injection Hb as <-. injection Hr as <-. exact Honly.
Defined.
