(* ===== verification/BlobExamples.v ===== *)
(** * Attachments and attestations, evaluated

    An upload for one known and one unknown device, the sweep that overtakes an upload, a
    limit nothing fits under, and an attestation of this server. *)

From S2P Require Import Prelude GoStr GoTime GoTimeParse Sha256 Base64 Crypto Address Attest HttpSig Store StoreIntegrity StoreCorrect StoreQueue Auth AuthCorrect ServerExamples Delivery Federation Config BlobServer BlobServerCorrect.

#[local] Instance utc_days : Calendar := λ t n, time_add t (n * 86400 * second).
#[local] Instance host : HostFormats := {| ParseDuration _ := None; filepath_Join a b := a ++ 47 :: b |}.

(** Evaluated on demand only. *)
#[local] Opaque db0.

Definition config_from (env : list (string * string)) : option ServerConfig.t :=
  match ServerConfig.Load (λ name, default [] (list_find (λ x, lit x.1 = name) env ≫= λ x, Some (lit x.2.2))) with Ok c => Some c | _ => None end.
Definition blank_config : ServerConfig.t :=
  ServerConfig.mk [] [] [] [] [] [] [] [] [] 0 0 ServerConfig.LevelInfo [] 0 false 0 0 0 0 false false false 0 [] 0 0 0 0 0 0 [].
Definition config : ServerConfig.t := default blank_config (config_from []).

Definition picture : bytes := lit "hello".
Definition upload_request : Request :=
  mkRequest (lit "POST") (lit "/v1/blobs") [] {[ HeaderBodyDigest := [lit "sha256=" ++ hex_encode (sha256 picture)] ]} None.
Definition id_bytes : bytes := replicate 32 171.
Definition blob_id : bytes := hex_encode id_bytes.
Definition before_upload : blob_server := mkBlobServer db0 ∅.
Definition recipients_named : list bytes := [DeviceID phone; lit "nobody"; DeviceID phone].
Definition after_upload : blob_server * upload_reply :=
  storeUploadedBlob config upload_request recipients_named (mkStream picture AtEOF) (Some id_bytes) t0 before_upload.
Definition upload_answer : blobUploadResponse := match after_upload.2 with Answered_with _ b => b | Refused _ => mkUploaded [] 0 [] [] end.

Lemma answered_200 {A} (x : A * upload_reply) : match x.2 with Answered_with n _ => n | Refused _ => 0 end = 200 →
  x = (x.1, Answered_with 200 (match x.2 with Answered_with _ b => b | Refused _ => mkUploaded [] 0 [] [] end)).
Proof. destruct x as [a [r|n b]]; [done|cbn; by intros ->]. Qed.

Example upload_reports : BuRecipients upload_answer = [(DeviceID phone, lit "stored"); (lit "nobody", lit "unknown_recipient")].
Proof. by_vm. Qed.
Lemma upload_served_witness : handleDownloadBlob (device_identity (DeviceID phone)) (BuBlobID upload_answer) after_upload.1 = Ok (StData (mkStream picture AtEOF)).
Proof.
  assert (0 ≤ ServerConfig.MaxBlobBytes config < 2 ^ 63 - 1) as Hm by (split; vm_compute; congruence).
  assert (is_bytes id_bytes) as Hb by (apply Forall_replicate; by vm_compute).
  assert (year_ok t0) as Hy by (apply year_ok_by; by_vm).
  assert (year_ok (add_days t0 (ServerConfig.BlobRetentionDays config))) as Hy' by (apply year_ok_by; by_vm).
  assert (storeUploadedBlob config upload_request recipients_named (mkStream picture AtEOF) (Some id_bytes) t0 before_upload = (after_upload.1, Answered_with 200 upload_answer)) as Hs by (apply (answered_200 after_upload); by_vm).
  assert (BuBlobID upload_answer ≠ []) as Hn by (vm_compute; congruence).
  assert (zlen id_bytes = 32) as Hl by by_vm.
  assert (bool_decide ((DeviceID phone, blob_outcome_string blobStored) ∈ BuRecipients upload_answer) = true) as Hd by by_vm.
  pose proof (proj2 (proj2 (proj2 (proj2 (upload_served config upload_request recipients_named (mkStream picture AtEOF) id_bytes t0 before_upload _ _ _ db0_wf Hm Hb Hl Hy Hy' Hs Hn)))) (DeviceID phone)) as H.
  rewrite Hd in H. exact H.
Defined.

(** ** The sweep that overtakes an upload *)

Definition plan : upload_plan := match upload_begin config db0 upload_request recipients_named with inr p => p | inl _ => mkPlan [] [] [] 0 end.
(** The file is there, the rows are not yet. *)
Definition written : files := (Put ∅ blob_id (mkStream picture AtEOF) (UpDigest plan) (UpMax plan)).1.
Definition found_orphan : bool := bool_decide (blob_id ∈ EachStoredID written) && negb (BlobIDExists db0 blob_id).
Definition committed : blob_server := (upload_commit config plan blob_id 5 t0 (mkBlobServer db0 written)).1.
Definition swept : blob_server := mkBlobServer (BsDB committed) (Remove (BsFiles committed) blob_id).
(** The upload was answered as stored, and nobody can fetch it. *)
Example sweep_loses_upload : found_orphan = true ∧ is_ok (GetBlobForDevice (BsDB swept) blob_id (DeviceID phone)) = true ∧
  handleDownloadBlob (device_identity (DeviceID phone)) blob_id swept = Err (mkReply 404 (lit "not_found")).
Proof. split_and!; by_vm. Qed.

Definition sys0 : sys := start db0.
Definition sys1 : sys := mkSys db0 written (<[blob_id := StData (mkStream picture AtEOF)]> ∅) ({[blob_id]} ∪ ∅) ∅ ∅ ∅ ∅.
Definition sys2 : sys := mkSys (BsDB committed) (BsFiles committed) (SyPut sys1) (SyPending sys1 ∖ {[blob_id]}) ∅ ∅ ∅ ∅.
Lemma upload_steps : rtc (step config) sys0 sys2.
Proof.
  apply (rtc_l _ _ sys1).
  - assert (Put (SyFiles sys0) blob_id (mkStream picture AtEOF) (UpDigest plan) (UpMax plan) = (written, Ok (5, hex_encode (sha256 picture)))) as Hp by by_vm.
    assert (0 ≤ UpMax plan < 2 ^ 63 - 1) as Hm by (split; vm_compute; congruence). exact (step_put config sys0 blob_id _ _ _ _ _ _ eq_refl Hm Hp).
  - apply rtc_once. assert (blob_id ∈ SyPending sys1) as Hi by (apply elem_of_union; left; by apply elem_of_singleton).
    assert (SyPut sys1 !! blob_id = Some picture) as Hd by by_vm.
    assert (upload_commit config plan blob_id (zlen picture) t0 (mkBlobServer (SyDB sys1) (SyFiles sys1)) = (committed, (upload_commit config plan blob_id 5 t0 (mkBlobServer db0 written)).2)) as Hc by (change (zlen picture) with 5; apply surjective_pairing).
    exact (step_commit config sys1 blob_id plan picture t0 _ _ Hi Hd Hc).
Qed.
Lemma rows_have_files_witness : ∃ data, SyPut sys2 !! blob_id = Some data ∧ (SyFiles sys2 !! blob_id = Some data ∨ blob_id ∈ SyCleaning sys2 ∨ blob_id ∈ SyRaced sys2).
Proof.
  assert (blobs db0 = ∅) as Hb by by_vm.
  assert (blobs (SyDB sys2) !! blob_id = Some (mkBlobRow 5 (formatTime t0) (formatTime (add_days t0 14)))) as Hr by by_vm.
  pose proof (rows_have_files config db0 sys2 db0_wf Hb upload_steps blob_id _ Hr) as (data & Hp & _ & Hf). exists data. exact (conj Hp Hf).
Defined.

(** ** A limit that loads and that nothing fits under *)

(** With both limits at the largest int64, the limit of the reader wraps and every upload reads as empty. *)
Definition wide_open : option ServerConfig.t :=
  config_from [("FREIZONE_MAX_BLOB_BYTES", "9223372036854775807"); ("FREIZONE_MAX_BLOB_BYTES_PER_DEVICE", "9223372036854775807")]%string.
Example no_upload_fits : (λ c, (storeUploadedBlob c upload_request recipients_named (mkStream picture AtEOF) (Some id_bytes) t0 before_upload).2) <$> wide_open
  = Some (Refused (mkReply 400 (lit "digest_mismatch"))).
Proof. by_vm. Qed.

(** ** An attestation *)

Definition our_domain : bytes := lit " Chat.Example.org ".
Definition attested : Attestation.t :=
  match Attestation.Sign our_domain (lit "community") (lit "Example") 50 t0 (time_unix 1760000000) dev_priv with
  | Ok a => a | _ => Attestation.mk 0 [] [] [] 0 t0 t0 [] [] end.
Lemma dev_key_pair : key_pair dev_priv dev_pub.
Proof. exists seed0. split; [by_vm|]. split; reflexivity. Qed.
Lemma attestation_arrives_witness : ∃ token, Attestation.Encode attested = Ok token ∧ Attestation.Decode token = Ok (AttestationCorrect.canonical attested)
  ∧ Attestation.Verify (AttestationCorrect.canonical attested) [dev_pub] = Ok ().
Proof.
  assert (is_ascii our_domain) as Ha by (apply (bool_decide_eq_true_1 (is_ascii our_domain)); by_vm).
  assert (Attestation.Sign our_domain (lit "community") (lit "Example") 50 t0 (time_unix 1760000000) dev_priv = Ok attested) as Hs by by_vm.
  assert (0 ≤ 50 < 2 ^ 32) as H50 by lia.
  pose proof (AttestationCorrect.attestation_arrives our_domain (lit "community") (lit "Example") 50 t0 (time_unix 1760000000) dev_priv dev_pub attested
    dev_key_pair Ha (lit_is_bytes _) (lit_is_bytes _) H50 Hs) as (token & He & Hd & _ & _ & Hv & _).
  exists token. split; [exact He|]. split; [exact Hd|]. apply Hv. left.
Defined.
