(* ===== verification/ClientLog.v ===== *)
(** * pkg/client/store.go: the account's files

    Small files are replaced whole; what grows with history is a log of one JSON record per
    line.  A file is its bytes, [None] when it does not exist.  encoding/json is the class
    [Json]: what the sources rely on of [json.Marshal], [json.Unmarshal] and [json.Valid]
    for a record type, each of which is a struct and so encodes to an object.  Failures of
    the operating system are not modelled, the death of the process in the middle of an
    append is ([torn]). *)

From S2P Require Import Prelude GoStr.

Class Json (R : Type) := {
  json_Marshal : R → bytes;
  json_Unmarshal : bytes → option R;
  json_Valid : bytes → bool;
  (** the values that survive: strings of valid UTF-8, times with a four-digit year, ... *)
  encodable : R → Prop;
  marshal_ne r : json_Marshal r ≠ [];
  marshal_line r : Forall (λ c, c ≠ 10 ∧ c ≠ 13) (json_Marshal r);
  marshal_trim r : trim_space (json_Marshal r) = json_Marshal r;
  marshal_valid r : json_Valid (json_Marshal r) = true;
  unmarshal_marshal r : encodable r → json_Unmarshal (json_Marshal r) = Some r;
  (** a proper prefix of an object is not JSON, the empty text included *)
  prefix_invalid r k : (k < length (json_Marshal r))%nat → json_Valid (take k (json_Marshal r)) = false;
}.

(** ** Paths *)

Definition contains_any (s set : bytes) : bool := existsb (λ c, bool_decide (c ∈ set)) s.
Definition safeElement (e : bytes) : res string () :=
  if (zlen e =? 0) || (e =?b lit ".") || (e =?b lit "..") || contains_any e [47; 92]
  then Err "client: refusing unsafe path element"%string else Ok ().
(** [filepath.Join] of elements that passed the check, under a clean root. *)
Definition store_path (root : bytes) (elems : list bytes) : res string bytes :=
  _ ← mapM safeElement elems;
  Ok (mjoin (root :: ((λ e, 47 :: e) <$> elems))).

(** ** Lines *)

(** [bytes.Split] at one byte. *)
Fixpoint split_on (c : Z) (s : bytes) : list bytes :=
  match s with
  | [] => [[]]
  | b :: s' =>
    if b =? c then [] :: split_on c s'
    else match split_on c s' with [] => [[b]] | p :: ps => (b :: p) :: ps end
  end.
Fixpoint take_while {A} (p : A → bool) (l : list A) : list A :=
  match l with [] => [] | x :: l' => if p x then x :: take_while p l' else [] end.
Definition drop_cr (l : bytes) : bytes :=
  match last l with Some 13 => take (length l - 1) l | _ => l end.

(** [bufio.Scanner] with [ScanLines]: no empty last line, a carriage return before the
    newline dropped, and nothing from the first line on that does not fit the buffer. *)
Definition scan_lines (max : Z) (s : bytes) : list bytes :=
  let ps := split_on 10 s in
  let ps := match last ps with Some [] => take (length ps - 1) ps | _ => ps end in
  drop_cr <$> take_while (λ p, zlen p <? max) ps.

Definition containsNewline (b : bytes) : bool := existsb (λ c, (c =? 10) || (c =? 13)) b.
Definition maxLogLine : Z := 4 * 1024 * 1024.
Definition maxTailBytes : Z := 512 * 1024.

Section logs.
Context {R : Type} {J : Json R}.

Definition writeJSON (value : R) : option bytes := Some (json_Marshal value).
(** (found, value) *)
Definition readJSON (f : option bytes) : res string (option R) :=
  match f with
  | None => Ok None
  | Some raw => match json_Unmarshal raw with Some v => Ok (Some v) | None => Err "client: decoding"%string end
  end.

Definition appendLine (f : option bytes) (record : R) : option bytes * res string () :=
  let raw := json_Marshal record in
  if (zlen raw =? 0) || containsNewline raw then (f, Err "client: record is not one line"%string)
  else (Some (default [] f ++ raw ++ [10]), Ok ()).

(** The lines [visit] is called with. *)
Definition readLines (f : option bytes) : list bytes :=
  match f with
  | None => []
  | Some s => filter (λ l, negb (zlen l =? 0) && json_Valid l = true) (scan_lines maxLogLine s)
  end.

(** The whole file [rewriteLog] puts in place of the old one. *)
Definition rewriteLog (records : list R) : option bytes := Some (mjoin ((λ r, json_Marshal r ++ [10]) <$> records)).

Definition countLines (f : option bytes) : Z :=
  match f with None => 0 | Some s => zlen (filter (λ c, c = 10) s) end.

(** Newest first. *)
Definition tailLines (f : option bytes) : list bytes * bool :=
  match f with
  | None => ([], false)
  | Some s =>
    let start := if maxTailBytes <? zlen s then zlen s - maxTailBytes else 0 in
    let raw := split_on 10 (drop (Z.to_nat start) s) in
    let raw := if 0 <? start then tail raw else raw in
    let lines := filter (λ l, negb (zlen l =? 0) && json_Valid l = true) (trim_space <$> reverse raw) in
    (lines, 0 <? zlen lines)
  end.

(** An append cut short: the process died after [k] bytes of the line. *)
Definition torn (f : option bytes) (record : R) (k : nat) : option bytes :=
  Some (default [] f ++ take k (json_Marshal record)).

(** ** A log read back *)

(** The file of the lines [ls]. *)
Definition file_of (ls : list bytes) : bytes := mjoin ((λ l, l ++ [10]) <$> ls).
Record good_line (l : bytes) : Prop := {
  gl_line : Forall (λ c, c ≠ 10 ∧ c ≠ 13) l;
  gl_ne : l ≠ [];
  gl_valid : json_Valid l = true;
  gl_trim : trim_space l = l;
  gl_short : zlen l < maxLogLine;
}.
Definition intact (f : option bytes) (ls : list bytes) : Prop :=
  default [] f = file_of ls ∧ Forall good_line ls.

Lemma split_on_app c l s : Forall (λ b, b ≠ c) l → split_on c (l ++ c :: s) = l :: split_on c s.
Proof.
  induction 1 as [|b l Hb Hl IH]; simpl; [by rewrite Z.eqb_refl|].
  rewrite (proj2 (Z.eqb_neq b c)) by done. by rewrite IH.
Qed.
Lemma split_on_single c l : Forall (λ b, b ≠ c) l → split_on c l = [l].
Proof. induction 1 as [|b l Hb Hl IH]; simpl; [done|]. rewrite (proj2 (Z.eqb_neq b c)) by done. by rewrite IH. Qed.

Lemma split_file ls r : Forall (Forall (λ b, b ≠ 10)) ls → Forall (λ b, b ≠ 10) r →
  split_on 10 (file_of ls ++ r) = ls ++ [r].
Proof.
  intros Hls Hr. induction Hls as [|l ls Hl Hls IH]; [by apply split_on_single|].
  unfold file_of. simpl. rewrite <- !(assoc_L app). simpl. rewrite split_on_app by done. f_equal. exact IH.
Qed.

Lemma file_of_app ls ks : file_of (ls ++ ks) = file_of ls ++ file_of ks.
Proof. unfold file_of. by rewrite fmap_app, join_app. Qed.

Lemma good_lines_no_nl ls : Forall good_line ls → Forall (Forall (λ b, b ≠ 10)) ls.
Proof. intros H. eapply Forall_impl; [exact H|]. intros l []. eapply Forall_impl; [done|]. by intros c []. Qed.

Lemma drop_cr_id l : Forall (λ c, c ≠ 10 ∧ c ≠ 13) l → drop_cr l = l.
Proof.
  intros H. unfold drop_cr. destruct (last l) as [c|] eqn:E; [|done].
  assert (c ≠ 13) as Hc. { apply last_Some_elem_of in E. rewrite Forall_forall in H. by apply H. }
  destruct c as [|p|p]; try done. do 4 (destruct p; try done).
Qed.

Lemma take_while_all {A} (p : A → bool) l : Forall (λ x, p x = true) l → take_while p l = l.
Proof. induction 1 as [|x l Hx Hl IH]; simpl; [done|]. by rewrite Hx, IH. Qed.
Lemma take_while_app {A} (p : A → bool) l k : Forall (λ x, p x = true) l → take_while p (l ++ k) = l ++ take_while p k.
Proof. induction 1 as [|x l Hx Hl IH]; simpl; [done|]. by rewrite Hx, IH. Qed.

Lemma good_short ls : Forall good_line ls → Forall (λ p, (zlen p <? maxLogLine) = true) ls.
Proof. intros H. eapply Forall_impl; [exact H|]. intros l []. by apply Z.ltb_lt. Qed.
Lemma good_cr ls : Forall good_line ls → drop_cr <$> ls = ls.
Proof. induction 1 as [|l ls [] Hls IH]; [done|]. cbn [fmap list_fmap]. by rewrite drop_cr_id, IH. Qed.
Lemma good_kept ls : Forall good_line ls → filter (λ l, negb (zlen l =? 0) && json_Valid l = true) ls = ls.
Proof.
  intros H. apply filter_all. eapply Forall_impl; [done|]. intros l []. rewrite gl_valid0.
  rewrite (proj2 (Z.eqb_neq _ _)); [done|]. by intros E%zlen_nil_inv.
Qed.

Lemma scan_file ls r :
  Forall good_line ls → Forall (λ b, b ≠ 10) r →
  scan_lines maxLogLine (file_of ls ++ r) =
  ls ++ (if decide (r = []) then [] else drop_cr <$> take_while (λ p, zlen p <? maxLogLine) [r]).
Proof.
  intros Hls Hr. unfold scan_lines. rewrite split_file by (done || by apply good_lines_no_nl).
  rewrite last_snoc. destruct (decide (r = [])) as [->|Hne].
  - rewrite length_app. simpl. replace (length ls + 1 - 1)%nat with (length ls) by lia. rewrite take_app_length.
    rewrite take_while_all by by apply good_short. by rewrite good_cr, (right_id_L [] (++)).
  - destruct r as [|b r]; [done|]. rewrite take_while_app, fmap_app, good_cr by (done || by apply good_short). done.
Qed.

(** A log reads back as the lines written. *)
Lemma readLines_intact f ls : intact f ls → readLines f = ls.
Proof.
  intros [Hf Hls]. destruct f as [s|]; simpl in *.
  - subst s. pose proof (scan_file ls [] Hls ltac:(done)) as E. rewrite !(right_id_L [] (++)) in E.
    rewrite decide_True in E by done. rewrite E, (right_id_L [] (++)). by apply good_kept.
  - destruct ls as [|l ls]; [done|]. unfold file_of in Hf. simpl in Hf. by destruct l.
Qed.

(** A record whose encoding is short enough to be read back. *)
Definition short (r : R) : Prop := zlen (json_Marshal r) < maxLogLine.
Definition short_b (r : R) : bool := zlen (json_Marshal r) <? maxLogLine.
Lemma short_by r : short_b r = true → short r.
Proof. unfold short_b, short. apply Z.ltb_lt. Qed.

Lemma marshal_good r : short r → good_line (json_Marshal r).
Proof. split; [apply marshal_line|apply marshal_ne|apply marshal_valid|apply marshal_trim|done]. Qed.

Lemma containsNewline_marshal r : containsNewline (json_Marshal r) = false.
Proof.
  apply not_true_iff_false. unfold containsNewline. rewrite existsb_exists. intros (c & Hc%list_elem_of_In & He).
  pose proof (marshal_line r) as H. rewrite Forall_forall in H. destruct (H c Hc). bool_prop. naive_solver.
Qed.

(** Appending never fails, and adds exactly one line. *)
Lemma appendLine_Ok f r : appendLine f r = (Some (default [] f ++ json_Marshal r ++ [10]), Ok ()).
Proof.
  unfold appendLine. rewrite containsNewline_marshal. destruct (Z.eqb_spec (zlen (json_Marshal r)) 0) as [E|E]; [|done].
  by apply zlen_nil_inv, marshal_ne in E.
Qed.
Lemma appendLine_intact f ls r : intact f ls → short r → intact (appendLine f r).1 (ls ++ [json_Marshal r]).
Proof.
  intros [Hf Hls] Hr. rewrite appendLine_Ok. split; simpl.
  - rewrite Hf, file_of_app. unfold file_of at 3. simpl. by rewrite (right_id_L [] (++)).
  - apply Forall_app. split; [done|]. constructor; [by apply marshal_good|constructor].
Qed.
Lemma rewriteLog_intact rs : Forall short rs → intact (rewriteLog rs) (json_Marshal <$> rs).
Proof.
  intros H. split; simpl.
  - unfold file_of. by rewrite <- list_fmap_compose.
  - apply Forall_fmap. eapply Forall_impl; [exact H|]. apply marshal_good.
Qed.
Lemma no_file_intact : intact None [].
Proof. split; [done|constructor]. Qed.

(** A file whose append was cut short reads back as if it had not been begun, unless only
    the newline is missing. *)
Lemma readLines_torn f ls r k :
  intact f ls → short r → (k ≤ length (json_Marshal r))%nat →
  readLines (torn f r k) = ls ++ (if decide (k = length (json_Marshal r)) then [json_Marshal r] else []).
Proof.
  intros [Hf Hls] Hr Hk. unfold torn. simpl. rewrite Hf.
  assert (Forall (λ b, b ≠ 10) (take k (json_Marshal r))) as Hnl.
  { apply Forall_take. eapply Forall_impl; [apply marshal_line|]. by intros c []. }
  rewrite scan_file by done. rewrite filter_app, good_kept by done. f_equal.
  case_decide as Hne; [|cbn [take_while]; destruct (zlen (take k (json_Marshal r)) <? maxLogLine) eqn:El].
  - rewrite decide_False; [done|]. intros ->. rewrite take_ge in Hne by done. by apply marshal_ne in Hne.
  - cbn [fmap list_fmap]. rewrite drop_cr_id by (apply Forall_take, marshal_line).
    case_decide as Hd.
    + rewrite take_ge by lia. apply good_kept. constructor; [by apply marshal_good|constructor].
    + rewrite filter_cons_False; [done|]. rewrite prefix_invalid by lia. by rewrite andb_false_r.
  - apply Z.ltb_ge in El. unfold short, zlen in *. rewrite length_take in El. lia.
Qed.

(** A line that is not JSON is skipped. *)
Lemma readLines_bad_line ls g :
  Forall good_line ls → Forall (λ c, c ≠ 10 ∧ c ≠ 13) g → json_Valid g = false →
  readLines (Some (file_of ls ++ g ++ [10])) = ls.
Proof.
  intros Hls Hg Hv. unfold readLines, scan_lines.
  assert (file_of ls ++ g ++ [10] = file_of (ls ++ [g]) ++ []) as ->.
  { rewrite file_of_app, (right_id_L [] (++)). unfold file_of at 3. simpl. by rewrite (right_id_L [] (++)). }
  assert (Forall (λ b, b ≠ 10) g) as Hg' by (eapply Forall_impl; [exact Hg|]; by intros c []).
  rewrite split_file; [|apply Forall_app; split; [by apply good_lines_no_nl|by constructor]|constructor].
  rewrite last_snoc, length_app. cbn [length]. replace (length (ls ++ [g]) + 1 - 1)%nat with (length (ls ++ [g])) by lia.
  rewrite take_app_length, take_while_app, fmap_app, good_cr, filter_app, good_kept by (done || by apply good_short).
  cbn [take_while]. destruct (zlen g <? maxLogLine); simpl; [|by rewrite app_nil_r].
  rewrite drop_cr_id by done. rewrite filter_cons_False; [by rewrite app_nil_r|]. by rewrite Hv, andb_false_r.
Qed.

(** ** The tail *)

Lemma drop_file n ls : Forall (Forall (λ b, b ≠ 10)) ls →
  ∃ r k, drop n (file_of ls) = r ++ file_of (drop k ls) ∧
         (r = [] ∧ (n = 0%nat → k = 0%nat) ∨ n ≠ 0%nat ∧ ∃ l, r = l ++ [10] ∧ Forall (λ b, b ≠ 10) l).
Proof.
  intros H. revert n. induction H as [|l ls Hl Hls IH]; intros n.
  { exists [], 0%nat. split; [by destruct n|by left]. }
  destruct n as [|n]; [exists [], 0%nat; auto|].
  change (file_of (l :: ls)) with ((l ++ [10]) ++ file_of ls).
  destruct (decide (S n ≤ length l)%nat) as [Hn|Hn].
  - exists (drop (S n) l ++ [10]), 1%nat. simpl. rewrite drop_0. split.
    + rewrite <- !(assoc_L app), drop_app_le by done. done.
    + right. split; [done|]. exists (drop (S n) l). split; [done|]. by apply Forall_drop.
  - rewrite drop_app_ge, length_app by (rewrite length_app; simpl; lia). cbn [length]. destruct (IH (S n - (length l + 1))%nat) as (r & k & E & Hr).
    exists r, (S k). rewrite E. split; [done|]. destruct Hr as [[-> _]|[_ Hr]]; [left; split; [done|lia]|by right].
Qed.

Lemma good_trim ls : Forall good_line ls → trim_space <$> ls = ls.
Proof. induction 1 as [|l ls [] Hls IH]; [done|]. cbn [fmap list_fmap]. by rewrite gl_trim0, IH. Qed.

(** What [tailLines] finds is a suffix of the log, newest line first. *)
Lemma tailLines_intact f ls : intact f ls → ∃ k, tailLines f = (reverse (drop k ls), negb (zlen (drop k ls) =? 0)).
Proof.
  intros [Hf Hls]. destruct f as [s|]; simpl in *.
  2:{ exists (length ls). rewrite drop_ge by done. done. }
  subst s. set (start := if maxTailBytes <? zlen (file_of ls) then _ else _).
  assert (trim_space [] = []) as Et by done.
  assert (∀ rest, Forall good_line rest →
    filter (λ l, negb (zlen l =? 0) && json_Valid l = true) (trim_space <$> reverse (rest ++ [[]])) = reverse rest) as Hfin.
  { intros rest Hr. rewrite reverse_app, reverse_singleton. cbn [app fmap list_fmap]. rewrite Et, filter_cons_False by done.
    rewrite good_trim by by apply Forall_reverse. apply good_kept. by apply Forall_reverse. }
  assert (∀ k rest, rest = drop k ls → (reverse rest, 0 <? zlen (reverse rest)) = (reverse (drop k ls), negb (zlen (drop k ls) =? 0))) as Hpair.
  { intros k rest ->. f_equal. unfold zlen. rewrite length_reverse. destruct (length (drop k ls)); [done|].
    rewrite (proj2 (Z.eqb_neq _ _)) by lia. apply Z.ltb_lt. lia. }
  destruct (drop_file (Z.to_nat start) ls (good_lines_no_nl _ Hls)) as (r & k & Ed & Hr). rewrite Ed.
  assert (Forall good_line (drop k ls)) as Hdk by by apply Forall_drop.
  assert (split_on 10 (file_of (drop k ls)) = drop k ls ++ [[]]) as Es.
  { pose proof (split_file (drop k ls) [] (good_lines_no_nl _ Hdk) ltac:(done)) as E. by rewrite (right_id_L [] (++)) in E. }
  destruct Hr as [[-> Hk]|(Hn & l & -> & Hl)].
  - simpl. rewrite Es. destruct (0 <? start) eqn:E0.
    + destruct (drop k ls) as [|x rest] eqn:Edk.
      * simpl. exists (length ls). rewrite drop_ge by done. done.
      * cbn [app tail]. apply Forall_cons in Hdk as [_ Hrest]. rewrite Hfin by done. exists (S k).
        apply (Hpair (S k) rest). rewrite <- Nat.add_1_r, <- drop_drop, Edk. done.
    + rewrite Hfin by done. exists k. by apply Hpair.
  - rewrite <- (assoc_L app). simpl. rewrite split_on_app, Es by done. destruct (0 <? start) eqn:E0.
    + cbn [tail]. rewrite Hfin by done. exists k. by apply Hpair.
    + exfalso. apply Z.ltb_ge in E0. assert (start = 0) as Hs0.
      { unfold start in *. destruct (Z.ltb_spec maxTailBytes (zlen (file_of ls))); lia. }
      by rewrite Hs0 in Hn.
Qed.
End logs.
