(* ===== verification/ClientDedup.v ===== *)
(** * pkg/client/dedup.go: each message once

    The log of handled message ids with its bounded memory, and the persistent counts of
    failed decryptions.  [Dedup] is what the client holds in memory, [disk] the two files. *)

From S2P Require Import Prelude GoStr ClientLog.

Definition MaxProcessedMessageIDs : Z := 500.
Definition MaxDecryptAttempts : Z := 3.
Definition processedCompactAt : Z := 2 * MaxProcessedMessageIDs.

Record processedRecord := mkProcessed { PrID : bytes }.
Record failuresFile := mkFailuresFile { FOrder : list bytes; FCounts : gmap bytes Z }.

Record Dedup := mkDedup {
  processedIDs : gset bytes; processedOrder : list bytes; processedLines : Z;
  failures : gmap bytes Z; failureOrder : list bytes;
}.
Record disk := mkDisk { processed_log : option bytes; failures_json : option bytes }.

Definition with_processed (c : Dedup) (ids : gset bytes) (order : list bytes) (lines : Z) : Dedup :=
  mkDedup ids order lines (failures c) (failureOrder c).
Definition with_failures (c : Dedup) (f : gmap bytes Z) (order : list bytes) : Dedup :=
  mkDedup (processedIDs c) (processedOrder c) (processedLines c) f order.

Section dedup.
Context {JP : Json processedRecord} {JF : Json failuresFile}.

(** ** Handled ids *)

Definition visit_processed (st : gset bytes * list bytes * Z) (raw : bytes) : gset bytes * list bytes * Z :=
  match json_Unmarshal raw with
  | Some rec =>
    if zlen (PrID rec) =? 0 then st
    else
      let '(ids, order, lines) := st in
      if bool_decide (PrID rec ∈ ids) then (ids, order, lines + 1)
      else ({[PrID rec]} ∪ ids, order ++ [PrID rec], lines + 1)
  | None => st
  end.

Definition evictProcessed (c : Dedup) : Dedup :=
  if zlen (processedOrder c) <=? MaxProcessedMessageIDs then c
  else
    let n := Z.to_nat (zlen (processedOrder c) - MaxProcessedMessageIDs) in
    with_processed c (processedIDs c ∖ list_to_set (take n (processedOrder c))) (drop n (processedOrder c)) (processedLines c).

Definition compactProcessed (c : Dedup) (d : disk) : Dedup * disk :=
  (with_processed c (processedIDs c) (processedOrder c) (zlen (processedOrder c)),
   mkDisk (rewriteLog (mkProcessed <$> processedOrder c)) (failures_json d)).

Definition compact_if_grown (c : Dedup) (d : disk) : Dedup * disk :=
  if processedCompactAt <? processedLines c then compactProcessed c d else (c, d).

Definition loadProcessed (c : Dedup) (d : disk) : Dedup * disk :=
  let '(ids, order, lines) := foldl visit_processed (∅, [], 0) (readLines (R := processedRecord) (processed_log d)) in
  compact_if_grown (evictProcessed (with_processed c ids order lines)) d.

Definition WasMessageProcessed (c : Dedup) (id : bytes) : bool := bool_decide (id ∈ processedIDs c).
Definition CountProcessedMessages (c : Dedup) : Z := zlen (processedOrder c).

(** ** Failed decryptions *)

Definition loadFailures (c : Dedup) (d : disk) : res string Dedup :=
  stored ← readJSON (R := failuresFile) (failures_json d);
  Ok (match stored with Some f => with_failures c (FCounts f) (FOrder f) | None => with_failures c ∅ [] end).

Definition saveFailures (c : Dedup) (d : disk) : Dedup * disk :=
  let order := filter (λ id, present (failures c !! id) = true) (failureOrder c) in
  (with_failures c (failures c) order, mkDisk (processed_log d) (writeJSON (mkFailuresFile order (failures c)))).

Fixpoint trim_failures (f : gmap bytes Z) (order : list bytes) : gmap bytes Z * list bytes :=
  match order with
  | [] => (f, [])
  | id :: rest => if MaxProcessedMessageIDs <? zlen order then trim_failures (delete id f) rest else (f, order)
  end.

Definition RecordDecryptFailure (c : Dedup) (d : disk) (id : bytes) : Dedup * disk * bool :=
  let attempts := default 0 (failures c !! id) + 1 in
  if MaxDecryptAttempts <=? attempts then (saveFailures (with_failures c (delete id (failures c)) (failureOrder c)) d, true)
  else
    let order := if present (failures c !! id) then failureOrder c else failureOrder c ++ [id] in
    let fo := trim_failures (<[id := attempts]> (failures c)) order in
    (saveFailures (with_failures c fo.1 fo.2) d, false).

Definition MarkMessageProcessed (c : Dedup) (d : disk) (id : bytes) : Dedup * disk * res string () :=
  let cd :=
    if WasMessageProcessed c id then (c, d, Ok ())
    else match appendLine (processed_log d) (mkProcessed id) with
         | (log, Ok _) =>
           let c := with_processed c ({[id]} ∪ processedIDs c) (processedOrder c ++ [id]) (processedLines c + 1) in
           (compact_if_grown (evictProcessed c) (mkDisk log (failures_json d)), Ok ())
         | (log, e) => (c, mkDisk log (failures_json d), e)
         end in
  match cd with
  | (c, d, Ok _) =>
    if present (failures c !! id) then (saveFailures (with_failures c (delete id (failures c)) (failureOrder c)) d, Ok ())
    else (c, d, Ok ())
  | r => r
  end.

(** What a newly opened client holds. *)
Definition empty_dedup : Dedup := mkDedup ∅ [] 0 ∅ [].
Definition reopen (d : disk) : res string (Dedup * disk) :=
  let '(c, d) := loadProcessed empty_dedup d in
  c ← loadFailures c d; Ok (c, d).

(** ** Runs *)

Inductive event := EMark (id : bytes) | EFail (id : bytes) | ERestart.
Definition step (s : Dedup * disk) (e : event) : res string (Dedup * disk) :=
  match e with
  | EMark id => let '(c, d, r) := MarkMessageProcessed s.1 s.2 id in _ ← r; Ok (c, d)
  | EFail id => Ok (RecordDecryptFailure s.1 s.2 id).1
  | ERestart => reopen s.2
  end.
Fixpoint steps (s : Dedup * disk) (es : list event) : res string (Dedup * disk) :=
  match es with [] => Ok s | e :: es => s ← step s e; steps s es end.
Definition fresh_client : Dedup * disk := (empty_dedup, mkDisk None None).

(** The specification: the last 500 ids marked, in order. *)
Definition last_n {A} (n : nat) (l : list A) : list A := drop (length l - n) l.
Definition remember (mem : list bytes) (id : bytes) : list bytes :=
  if bool_decide (id ∈ mem) then mem else last_n 500 (mem ++ [id]).
Fixpoint marked (es : list event) : list bytes :=
  match es with [] => [] | EMark id :: es => id :: marked es | _ :: es => marked es end.
Definition spec (es : list event) : list bytes := foldl remember [] (marked es).

(** ** The memory and the log *)

(** An id whose record can be encoded and read back. *)
Definition id_ok (i : bytes) : Prop := i ≠ [] ∧ encodable (mkProcessed i) ∧ short (mkProcessed i).

Record processed_ok (ids : list bytes) (c : Dedup) (d : disk) : Prop := {
  po_log : intact (R := processedRecord) (processed_log d) ((λ i, json_Marshal (mkProcessed i)) <$> ids);
  po_ids : Forall id_ok ids;
  po_nodup : NoDup ids;
  po_order : processedOrder c = last_n 500 ids;
  po_set : processedIDs c = list_to_set (processedOrder c);
  po_lines : processedLines c = zlen ids;
  po_bound : zlen ids ≤ processedCompactAt;
}.

Lemma last_n_short {A} n (l : list A) : (length l ≤ n)%nat → last_n n l = l.
Proof. intros H. unfold last_n. replace (length l - n)%nat with 0%nat by lia. by rewrite drop_0. Qed.
Lemma length_last_n {A} n (l : list A) : length (last_n n l) = (length l `min` n)%nat.
Proof. unfold last_n. rewrite length_drop. lia. Qed.
Lemma last_n_snoc {A} n (l : list A) x : last_n (S n) (last_n (S n) l ++ [x]) = last_n (S n) (l ++ [x]).
Proof.
  unfold last_n. rewrite !length_app, length_drop. simpl. destruct (decide (length l ≤ S n)%nat) as [H|H].
  - replace (length l - S n)%nat with 0%nat by lia. rewrite drop_0. f_equal. lia.
  - rewrite <- drop_app_le by lia. rewrite drop_drop. f_equal. lia.
Qed.
Lemma elem_of_last_n {A} n (l : list A) x : x ∈ last_n n l → x ∈ l.
Proof. intros H. rewrite <- (take_drop (length l - n) l). apply elem_of_app. by right. Qed.
Lemma NoDup_last_n {A} n (l : list A) : NoDup l → NoDup (last_n n l).
Proof. unfold last_n. generalize (length l - n)%nat. intros m H. rewrite <- (take_drop m l) in H. by apply NoDup_app in H as (_ & _ & ?). Qed.

(** Evicting leaves the newest 500. *)
Lemma evict_spec c : NoDup (processedOrder c) → processedIDs c = list_to_set (processedOrder c) →
  evictProcessed c = with_processed c (list_to_set (last_n 500 (processedOrder c))) (last_n 500 (processedOrder c)) (processedLines c).
Proof.
  intros Hnd Hset. unfold evictProcessed, MaxProcessedMessageIDs, zlen. destruct (Z.leb_spec (Z.of_nat (length (processedOrder c))) 500).
  - rewrite last_n_short by lia. destruct c; simpl in *. by rewrite Hset.
  - unfold last_n. replace (Z.to_nat (Z.of_nat (length (processedOrder c)) - 500)) with (length (processedOrder c) - 500)%nat by lia.
    set (n := (length (processedOrder c) - 500)%nat). rewrite Hset. f_equal.
    rewrite <- (take_drop n (processedOrder c)) in Hnd. rewrite <- (take_drop n (processedOrder c)) at 1.
    rewrite list_to_set_app_L. apply NoDup_app in Hnd as (_ & Hdisj & _). set_solver.
Qed.

(** Reading back distinct ids. *)
Lemma visit_all ids st :
  Forall id_ok ids → NoDup (st.1.2 ++ ids) → st.1.1 = list_to_set st.1.2 →
  foldl visit_processed st ((λ i, json_Marshal (mkProcessed i)) <$> ids)
  = (list_to_set (st.1.2 ++ ids), st.1.2 ++ ids, st.2 + zlen ids).
Proof.
  revert st. induction ids as [|i ids IH]; intros [[S o] n] HF Hnd HS; simpl in *.
  { rewrite (right_id_L [] (++)), HS. unfold zlen. simpl. do 2 f_equal. lia. }
  apply Forall_cons in HF as [(Hne & He & _) HF]. unfold visit_processed at 2. rewrite unmarshal_marshal by done. simpl.
  destruct (Z.eqb_spec (zlen i) 0) as [E|_]; [by apply zlen_nil_inv in E|].
  assert (i ∉ o) as Hi. { apply NoDup_app in Hnd as (_ & Hd & _). intros Hi. apply (Hd i Hi). left. }
  rewrite bool_decide_false by (rewrite HS; set_solver). rewrite IH; simpl.
  - rewrite <- (assoc_L app). simpl. f_equal. unfold zlen. simpl. lia.
  - done.
  - by rewrite <- (assoc_L app).
  - rewrite list_to_set_app_L, HS. set_solver.
Qed.

(** ** The failure counts *)

(** The order list and the counts name the same ids. *)
Definition counts_ok (f : gmap bytes Z) (order : list bytes) : Prop :=
  NoDup order ∧ (∀ id, id ∈ order ↔ is_Some (f !! id)) ∧ (∀ id n, f !! id = Some n → 1 ≤ n < MaxDecryptAttempts).
Record failures_ok (c : Dedup) (d : disk) : Prop := {
  fo_counts : counts_ok (failures c) (failureOrder c);
  fo_bound : zlen (failureOrder c) ≤ MaxProcessedMessageIDs;
  fo_disk : failures_json d = None ∧ failures c = ∅ ∧ failureOrder c = []
            ∨ encodable (mkFailuresFile (failureOrder c) (failures c)) ∧
              failures_json d = Some (json_Marshal (mkFailuresFile (failureOrder c) (failures c)));
}.

Lemma trim_spec f order : counts_ok f order →
  let fo := trim_failures f order in
  counts_ok fo.1 fo.2 ∧ zlen fo.2 ≤ MaxProcessedMessageIDs ∧ fo.2 = last_n 500 order ∧
  (∀ id, id ∈ fo.2 → fo.1 !! id = f !! id).
Proof.
  revert f. induction order as [|x order IH]; intros f Hok; simpl; [by split_and!; [done| | |]|].
  pose proof Hok as (Hnd & Hdom & Hval). unfold MaxProcessedMessageIDs, zlen. cbn [length].
  destruct (Z.ltb_spec 500 (Z.of_nat (S (length order)))) as [Hl|Hl].
  - apply NoDup_cons in Hnd as [Hx Hnd]. destruct (IH (delete x f)) as (H1 & H2 & H3 & H4).
    { split; [done|]. split.
      - intros id. destruct (decide (id = x)) as [->|Hne].
        + rewrite lookup_delete_eq. split; [done|by intros []].
        + rewrite lookup_delete_ne by done. rewrite <- Hdom, elem_of_cons. naive_solver.
      - intros id n [_ Hn]%lookup_delete_Some. eauto. }
    split_and!; [done|done| |].
    + rewrite H3. unfold last_n. cbn [length]. replace (S (length order) - 500)%nat with (S (length order - 500)) by lia. done.
    + intros id Hid. rewrite H4 by done. rewrite lookup_delete_ne; [done|]. intros <-. apply Hx.
      rewrite H3 in Hid. by apply elem_of_last_n in Hid.
  - split_and!; [done|simpl; unfold zlen; simpl; lia|by rewrite last_n_short by (simpl; lia)|done].
Qed.

Lemma save_id c d : counts_ok (failures c) (failureOrder c) →
  saveFailures c d = (c, mkDisk (processed_log d) (Some (json_Marshal (mkFailuresFile (failureOrder c) (failures c))))).
Proof.
  intros (_ & Hdom & _). unfold saveFailures. rewrite filter_all; [by destruct c|]. apply Forall_forall.
  intros id [n ->]%Hdom. done.
Qed.

Lemma delete_counts f order id : counts_ok f order →
  counts_ok (delete id f) (filter (λ i, present (delete id f !! i) = true) order).
Proof.
  intros (Hnd & Hdom & Hval). split; [by apply NoDup_filter|]. split.
  - intros i. rewrite list_elem_of_filter, Hdom. destruct (decide (i = id)) as [->|Hne].
    + rewrite lookup_delete_eq. split; [by intros []|by intros []].
    + rewrite lookup_delete_ne by done. split; [by intros []|]. intros [n Hn]. rewrite Hn. split; [done|by eexists].
  - intros i n [_ Hn]%lookup_delete_Some. eauto.
Qed.

(** The ids a client comes across: their records can be encoded and read back. *)
Context (good_id : bytes → Prop).
Hypothesis good_processed : ∀ id, good_id id → id_ok id.
Hypothesis good_failures : ∀ f order, counts_ok f order → Forall good_id order → encodable (mkFailuresFile order f).

Definition good_counts (c : Dedup) : Prop := Forall good_id (failureOrder c).

(** Forgetting the failures of [id], as a success and the last attempt do. *)
Lemma forget_ok c d id : failures_ok c d → good_counts c →
  let cd := saveFailures (with_failures c (delete id (failures c)) (failureOrder c)) d in
  failures_ok cd.1 cd.2 ∧ good_counts cd.1 ∧ failures cd.1 = delete id (failures c).
Proof.
  intros [Hok Hb _] Hg. cbn [saveFailures fst snd]. pose proof (delete_counts _ _ id Hok) as Hok'.
  set (order := filter _ _) in *. change (failures (with_failures c (delete id (failures c)) (failureOrder c))) with (delete id (failures c)).
  change (filter _ _) with order. assert (Forall good_id order) as Hg'.
  { apply Forall_forall. intros i [_ Hi]%list_elem_of_filter. unfold good_counts in Hg. rewrite Forall_forall in Hg. by apply Hg. }
  split_and!; [|done|done]. split; simpl; [done| |right; split; [by apply good_failures|done]].
  unfold zlen in *. pose proof (length_filter (λ i, present (delete id (failures c) !! i) = true) (failureOrder c)). unfold order. lia.
Qed.

(** Storing new counts, the oldest dropped past 500. *)
Lemma store_counts_ok c d f order : counts_ok f order → Forall good_id order →
  let fo := trim_failures f order in
  let cd := saveFailures (with_failures c fo.1 fo.2) d in
  failures_ok cd.1 cd.2 ∧ good_counts cd.1 ∧
  (zlen order ≤ MaxProcessedMessageIDs → failures cd.1 = f ∧ failureOrder cd.1 = order).
Proof.
  intros Hok Hg fo. destruct (trim_spec _ _ Hok) as (H1 & H2 & H3 & H4). fold fo in H1, H2, H3, H4.
  cbv zeta. rewrite save_id by done. simpl.
  assert (Forall good_id fo.2) as Hg'.
  { rewrite H3. apply Forall_forall. intros i Hi%elem_of_last_n. rewrite Forall_forall in Hg. by apply Hg. }
  split_and!; [split; [done|done|right; split; [by apply good_failures|done]]|done|].
  intros Hl. assert (fo.2 = order) as Ho.
  { rewrite H3. apply last_n_short. unfold zlen, MaxProcessedMessageIDs in *. lia. }
  split; [|done]. apply map_eq. intros i. destruct (decide (i ∈ fo.2)) as [Hi|Hi]; [by apply H4|].
  destruct H1 as (_ & Hd1 & _), Hok as (_ & Hd2 & _). transitivity (@None Z).
  - apply eq_None_not_Some. by rewrite <- Hd1.
  - symmetry. apply eq_None_not_Some. by rewrite <- Hd2, <- Ho.
Qed.

Lemma count_ok f order id n : counts_ok f order → 1 ≤ n < MaxDecryptAttempts →
  counts_ok (<[id := n]> f) (if present (f !! id) then order else order ++ [id]).
Proof.
  intros (Hnd & Hdom & Hval) Hn.
  assert (∀ i m, <[id:=n]> f !! i = Some m → 1 ≤ m < MaxDecryptAttempts) as Hv.
  { intros i m [[<- <-]|[_ Hm]]%lookup_insert_Some; [done|by apply Hval in Hm]. }
  destruct (f !! id) as [m|] eqn:E; simpl.
  - split_and!; [done| |done]. intros i. rewrite Hdom. destruct (decide (i = id)) as [->|Hne].
    + rewrite lookup_insert_eq, E. split; by eexists.
    + by rewrite lookup_insert_ne.
  - split_and!; [| |done].
    + apply NoDup_app. split_and!; [done| |apply NoDup_singleton]. intros i Hi ->%list_elem_of_singleton.
      apply Hdom in Hi. rewrite E in Hi. by destruct Hi.
    + intros i. rewrite elem_of_app, list_elem_of_singleton, Hdom. destruct (decide (i = id)) as [->|Hne].
      * rewrite lookup_insert_eq. split; [by eexists|by right].
      * rewrite lookup_insert_ne by done. naive_solver.
Qed.

(** What one failure does: the third forgets the count and gives up, the others count;
    the counts of other ids change only when 500 are on record. *)
Lemma fail_spec c d id : failures_ok c d → good_counts c → good_id id →
  let '(c', d', giveUp) := RecordDecryptFailure c d id in
  failures_ok c' d' ∧ good_counts c' ∧ processedIDs c' = processedIDs c ∧ processedOrder c' = processedOrder c ∧
  processedLines c' = processedLines c ∧ processed_log d' = processed_log d ∧
  giveUp = bool_decide (failures c !! id = Some 2) ∧
  (zlen (failureOrder c) < MaxProcessedMessageIDs →
   failures c' = (if giveUp then delete id (failures c) else <[id := default 0 (failures c !! id) + 1]> (failures c)) ∧
   zlen (failureOrder c') ≤ zlen (failureOrder c) + 1).
Proof.
  intros Hf Hg Hid. pose proof Hf as [Hok Hb Hd]. unfold RecordDecryptFailure.
  assert (default 0 (failures c !! id) + 1 < MaxDecryptAttempts ∧ failures c !! id ≠ Some 2 ∨ failures c !! id = Some 2) as [[Hlt Hne]|E2].
  { destruct Hok as (_ & _ & Hval). destruct (failures c !! id) as [n|] eqn:E; simpl; [|by left].
    pose proof (Hval _ _ E). destruct (decide (n = 2)) as [->|]; [by right|left]. unfold MaxDecryptAttempts in *. split; [lia|congruence]. }
  - rewrite (proj2 (Z.leb_gt _ _)) by done. rewrite bool_decide_false by done.
    pose proof (count_ok _ _ id (default 0 (failures c !! id) + 1) Hok) as Hok'.
    destruct (store_counts_ok c d (<[id := default 0 (failures c !! id) + 1]> (failures c))
      (if present (failures c !! id) then failureOrder c else failureOrder c ++ [id])) as (H1 & H2 & H3).
    { apply Hok'. split; [|done]. destruct Hok as (_ & _ & Hval). destruct (failures c !! id) as [n|] eqn:E; simpl; [|lia].
      pose proof (Hval _ _ E). lia. }
    { destruct (present _); [done|]. apply Forall_app. split; [done|by constructor]. }
    cbv zeta in H1, H2, H3. split_and!; try done.
    intros Hl. unfold zlen, MaxProcessedMessageIDs in *.
    destruct H3 as [H3 H4]; [destruct (present _); [lia|rewrite length_app; simpl; lia]|]. split; [exact H3|].
    etransitivity; [apply Z.eq_le_incl, (f_equal Z.of_nat), (f_equal length), H4|].
    destruct (present _); [lia|rewrite length_app; simpl; lia].
  - rewrite E2. cbn [default]. change (MaxDecryptAttempts <=? 2 + 1) with true. cbv iota. rewrite bool_decide_true by done.
    destruct (forget_ok c d id Hf Hg) as (H1 & H2 & H3). split_and!; try done. intros _. split; [done|]. simpl.
    pose proof (length_filter (λ i, present (delete id (failures c) !! i) = true) (failureOrder c)). unfold zlen. lia.
Qed.

(** ** Marking and restarting *)

Lemma elem_set c id : processedIDs c = list_to_set (processedOrder c) → WasMessageProcessed c id = bool_decide (id ∈ processedOrder c).
Proof. intros E. unfold WasMessageProcessed. rewrite E. apply bool_decide_ext. set_solver. Qed.

(** A new id: one line more, the newest 500 remembered, the log compacted past 1000. *)
Lemma append_spec ids c d id : processed_ok ids c d → good_id id → id ∉ ids →
  let c1 := with_processed c ({[id]} ∪ processedIDs c) (processedOrder c ++ [id]) (processedLines c + 1) in
  let cd := compact_if_grown (evictProcessed c1) (mkDisk (appendLine (processed_log d) (mkProcessed id)).1 (failures_json d)) in
  ∃ ids', processed_ok ids' cd.1 cd.2 ∧ processedOrder cd.1 = last_n 500 (processedOrder c ++ [id]) ∧
    (∀ x, x ∈ ids' → x ∈ ids ∨ x = id) ∧ failures cd.1 = failures c ∧ failureOrder cd.1 = failureOrder c ∧
    failures_json cd.2 = failures_json d.
Proof.
  intros [Hlog Hids Hnd Hord Hset Hlines Hb] Hid Hni. pose proof (good_processed _ Hid) as Hgid. cbv zeta.
  assert (processedOrder c ++ [id] = last_n 500 ids ++ [id]) as Eo by by rewrite Hord.
  assert (NoDup (ids ++ [id])) as Hnd'.
  { apply NoDup_app. split_and!; [done| |apply NoDup_singleton]. by intros x Hx ->%list_elem_of_singleton. }
  assert (NoDup (last_n 500 ids ++ [id])) as Hnd2.
  { apply NoDup_app. split_and!; [by apply NoDup_last_n| |apply NoDup_singleton].
    by intros x Hx%elem_of_last_n ->%list_elem_of_singleton. }
  rewrite evict_spec; simpl.
  2: by rewrite Eo. 2: rewrite Hset, list_to_set_app_L; set_solver.
  unfold compact_if_grown, compactProcessed. simpl. rewrite Eo, last_n_snoc.
  assert (Forall id_ok (ids ++ [id])) as HF by (apply Forall_app; split; [done|by constructor]).
  destruct (Z.ltb_spec processedCompactAt (processedLines c + 1)) as [Hg|Hg]; simpl.
  - set (kept := last_n 500 (ids ++ [id])). assert (Forall id_ok kept) as HFk.
    { apply Forall_forall. intros x Hx%elem_of_last_n. rewrite Forall_forall in HF. by apply HF. }
    assert (length kept ≤ 500)%nat as Hlk by (unfold kept; rewrite length_last_n; lia).
    exists kept. split_and!; try done.
    + split; simpl; try done.
      * change ((λ i, json_Marshal (mkProcessed i)) <$> kept) with (json_Marshal ∘ mkProcessed <$> kept).
        rewrite list_fmap_compose. apply rewriteLog_intact. apply Forall_fmap. eapply Forall_impl; [exact HFk|]. by intros x (_ & _ & ?).
      * by apply NoDup_last_n.
      * by rewrite last_n_short.
      * unfold zlen, processedCompactAt, MaxProcessedMessageIDs. lia.
    + intros x Hx%elem_of_last_n. rewrite elem_of_app, list_elem_of_singleton in Hx. done.
  - exists (ids ++ [id]). split_and!; try done.
    + split; simpl; try done.
      * rewrite fmap_app. apply appendLine_intact; [done|apply Hgid].
      * rewrite Hlines. unfold zlen. rewrite length_app. simpl. lia.
      * rewrite Hlines in Hg. unfold zlen in *. rewrite length_app. simpl. lia.
    + intros x. rewrite elem_of_app, list_elem_of_singleton. done.
Qed.

(** Everything that holds between two operations. *)
Record dedup_inv (ids : list bytes) (c : Dedup) (d : disk) : Prop := {
  di_processed : processed_ok ids c d; di_failures : failures_ok c d; di_good : good_counts c;
}.

Lemma processed_ok_frame ids c d c' d' :
  processed_ok ids c d → processedIDs c' = processedIDs c → processedOrder c' = processedOrder c →
  processedLines c' = processedLines c → processed_log d' = processed_log d → processed_ok ids c' d'.
Proof. intros [] E1 E2 E3 E4. split; rewrite ?E1, ?E2, ?E3, ?E4; done. Qed.

Lemma mark_spec ids c d id : dedup_inv ids c d → good_id id → id ∈ processedOrder c ∨ id ∉ ids →
  ∃ ids' c' d', MarkMessageProcessed c d id = (c', d', Ok ()) ∧ dedup_inv ids' c' d' ∧
    processedOrder c' = remember (processedOrder c) id ∧ failures c' = delete id (failures c) ∧
    (∀ x, x ∈ ids' → x ∈ ids ∨ x = id).
Proof.
  intros [Hp Hf Hg] Hid Hfresh.
  assert (∃ ids' c' d', (if WasMessageProcessed c id then (c, d, Ok ())
    else match appendLine (processed_log d) (mkProcessed id) with
         | (log, Ok _) => (compact_if_grown (evictProcessed (with_processed c ({[id]} ∪ processedIDs c) (processedOrder c ++ [id])
                            (processedLines c + 1))) (mkDisk log (failures_json d)), Ok ())
         | (log, e) => (c, mkDisk log (failures_json d), e)
         end) = (c', d', Ok ()) ∧ processed_ok ids' c' d' ∧ failures_ok c' d' ∧ good_counts c' ∧
      processedOrder c' = remember (processedOrder c) id ∧ failures c' = failures c ∧ (∀ x, x ∈ ids' → x ∈ ids ∨ x = id))
    as (ids' & c' & d' & E & Hp' & Hf' & Hg' & Eo & Ef & Hsub).
  { rewrite elem_set by apply Hp. unfold remember. case_bool_decide as Hin.
    - exists ids, c, d. split_and!; try done. auto.
    - destruct Hfresh as [?|Hni]; [done|]. destruct (append_spec ids c d id Hp Hid Hni) as (ids' & H1 & H2 & H3 & H4 & H5 & H6).
      revert H1 H2 H3 H4 H5 H6. rewrite appendLine_Ok. cbn [fst]. destruct (compact_if_grown _ _) as [c' d']. cbn [fst snd].
      intros. exists ids', c', d'. split_and!; try done; [|unfold good_counts; by rewrite H5].
      destruct Hf as [Hf1 Hf2 Hf3]. split; rewrite ?H4, ?H5, ?H6; done. }
  unfold MarkMessageProcessed. rewrite E. destruct (failures c' !! id) as [n|] eqn:En; simpl.
  - destruct (forget_ok c' d' id Hf' Hg') as (H1 & H2 & H3). do 3 eexists. split; [done|].
    split_and!; [|done|by rewrite <- Ef|done]. split; [|done|done]. by eapply processed_ok_frame.
  - exists ids', c', d'. split_and!; try done. rewrite <- Ef. symmetry. by apply delete_id.
Qed.

Lemma reopen_spec ids c d : dedup_inv ids c d → ∃ c', reopen d = Ok (c', d) ∧ dedup_inv ids c' d ∧
  processedOrder c' = processedOrder c ∧ failures c' = failures c ∧ failureOrder c' = failureOrder c.
Proof.
  intros [[Hlog Hids Hnd Hord Hset Hlines Hb] [Hc Hfb Hdisk] Hg].
  assert (loadProcessed empty_dedup d = (with_processed empty_dedup (processedIDs c) (processedOrder c) (processedLines c), d)) as El.
  { unfold loadProcessed. rewrite (readLines_intact _ _ Hlog), visit_all by done. cbn [fst snd app].
    rewrite evict_spec by done. unfold compact_if_grown. simpl. rewrite (proj2 (Z.ltb_ge _ _)) by done.
    by rewrite Hlines, Hset, Hord. }
  unfold reopen. rewrite El. unfold loadFailures, readJSON.
  destruct Hdisk as [(Ej & Ef & Eo)|[Henc Ej]]; rewrite Ej; [|rewrite unmarshal_marshal by done]; simpl.
  - eexists. split; [done|]. simpl. rewrite Ef, Eo. split_and!; try done. split; [by split|split; simpl|constructor].
    + split_and!; [constructor| |done]. intros id. rewrite lookup_empty. split; [by intros ?%elem_of_nil|by intros []].
    + done.
    + by left.
  - eexists. split; [done|]. simpl. split_and!; try done. split; [by split| |done]. split; simpl; [done|done|by right].
Qed.

Lemma fresh_inv : dedup_inv [] empty_dedup (mkDisk None None).
Proof.
  split.
  - split; simpl; try constructor; done.
  - split; simpl; [|done|by left]. split_and!; [constructor| |done]. intros id. rewrite lookup_empty.
    split; [by intros ?%elem_of_nil|by intros []].
  - constructor.
Qed.

(** ** Theorems *)

(** An id is marked only while it is remembered or for the first time: an id is not used
    again once 500 later ones have pushed it out. *)
Definition no_reuse (es : list event) : Prop :=
  ∀ pre id post, es = pre ++ EMark id :: post → id ∈ spec pre ∨ id ∉ marked pre.
Definition good_event (e : event) : Prop := match e with EMark id | EFail id => good_id id | ERestart => True end.

Lemma marked_app es fs : marked (es ++ fs) = marked es ++ marked fs.
Proof. induction es as [|[] es IH]; simpl; by rewrite ?IH. Qed.
Lemma steps_app s es fs : steps s (es ++ fs) = (s ← steps s es; steps s fs).
Proof.
  revert s. induction es as [|e es IH]; intros s; [done|]. simpl. destruct (step s e); simpl; [apply IH|done..].
Qed.

Lemma run_inv es : Forall good_event es → no_reuse es →
  ∃ ids c d, steps fresh_client es = Ok (c, d) ∧ dedup_inv ids c d ∧ processedOrder c = spec es ∧
    (∀ x, x ∈ ids → x ∈ marked es).
Proof.
  induction es as [|e es IH] using rev_ind; intros HF Hn.
  { exists [], empty_dedup, (mkDisk None None). split_and!; try done. apply fresh_inv. }
  apply Forall_app in HF as [HF He%Forall_cons_1]. destruct He as [He _].
  destruct IH as (ids & c & d & E & Hinv & Ho & Hsub); [done| |].
  { intros pre id post ->. apply (Hn pre id (post ++ [e])). by rewrite <- (assoc_L app). }
  rewrite steps_app, E. simpl. unfold spec in *. rewrite marked_app, foldl_app. destruct e as [id|id|]; simpl.
  - destruct (mark_spec ids c d id Hinv He) as (ids' & c' & d' & Em & Hinv' & Ho' & _ & Hsub').
    { destruct (Hn es id [] eq_refl) as [H|H]; [left; by rewrite Ho|right; eauto]. }
    rewrite Em. simpl. exists ids', c', d'. split_and!; [done|done|by rewrite Ho', Ho|].
    intros x [Hx|Hx]%Hsub'; apply elem_of_app; [left; eauto|right; by apply list_elem_of_singleton].
  - destruct Hinv as [Hp Hf Hg]. pose proof (fail_spec c d id Hf Hg He) as Hs.
    destruct (RecordDecryptFailure c d id) as [[c' d'] b]. destruct Hs as (H1 & H2 & H3 & H4 & H5 & H6 & _). simpl.
    exists ids, c', d'. split_and!; [done| |by rewrite H4|intros x Hx; apply elem_of_app; left; eauto].
    split; [by eapply processed_ok_frame|done|done].
  - destruct (reopen_spec ids c d Hinv) as (c' & -> & Hinv' & Ho' & _). simpl. exists ids, c', d. split_and!; [done|done|by rewrite Ho'|].
    intros x Hx. apply elem_of_app. left. eauto.
Qed.

(** C31: while ids are not reused, the duplicate filter is the last 500 ids, restarts included.
    After any sequence of successes, failures and restarts with ids that the record format can
    hold, in which no id is marked again once it has been pushed out, no operation has failed and exactly the 500 ids marked last -- counting
    each where it was first marked -- are recognised as handled.  (An id that is marked again after
    it was pushed out can be forgotten by a restart.) *)
Theorem dedup_refines es : Forall good_event es → no_reuse es →
  ∃ c d, steps fresh_client es = Ok (c, d) ∧ ∀ id, WasMessageProcessed c id = bool_decide (id ∈ spec es).
Proof.
  intros HF Hn. destruct (run_inv es HF Hn) as (ids & c & d & E & [Hp _ _] & Ho & _). exists c, d. split; [done|].
  intros id. rewrite elem_set by apply Hp. by rewrite Ho.
Qed.

(** Restarts and failures of other envelopes leave the count of [id] alone. *)
Definition unrelated (id : bytes) (e : event) : Prop :=
  e = ERestart ∨ ∃ other, e = EFail other ∧ other ≠ id ∧ good_id other.
Lemma unrelated_steps id es ids c d :
  dedup_inv ids c d → Forall (unrelated id) es → zlen (failureOrder c) + zlen es < MaxProcessedMessageIDs →
  ∃ c' d', steps (c, d) es = Ok (c', d') ∧ dedup_inv ids c' d' ∧ failures c' !! id = failures c !! id ∧
    zlen (failureOrder c') ≤ zlen (failureOrder c) + zlen es.
Proof.
  intros Hinv HF. revert c d Hinv. induction HF as [|e es He HF IH]; intros c d Hinv Hl.
  { exists c, d. split_and!; try done. unfold zlen. simpl. lia. }
  assert (zlen (e :: es) = zlen es + 1) as El by (unfold zlen; simpl; lia). rewrite El in *.
  pose proof (Zle_0_nat (length es)). destruct He as [-> |(other & -> & Hne & Hgo)]; simpl.
  - destruct (reopen_spec ids c d Hinv) as (c' & -> & Hinv' & _ & Ef & Eo). simpl.
    destruct (IH c' d Hinv') as (c2 & d2 & E2 & H1 & H2 & H3); [rewrite Eo; lia|]. exists c2, d2. rewrite Ef, Eo in *. split_and!; try done. lia.
  - destruct Hinv as [Hp Hf Hg]. pose proof (fail_spec c d other Hf Hg Hgo) as Hs.
    destruct (RecordDecryptFailure c d other) as [[c1 d1] b]. destruct Hs as (H1 & H2 & H3 & H4 & H5 & H6 & _ & H7).
    destruct H7 as [Ef Elen]; [unfold zlen in *; lia|]. simpl.
    assert (dedup_inv ids c1 d1) as Hinv1 by (split; [by eapply processed_ok_frame|done|done]).
    destruct (IH c1 d1 Hinv1) as (c2 & d2 & E2 & H8 & H9 & H10); [lia|]. exists c2, d2. split_and!; try done; [|lia].
    rewrite H9, Ef. destruct b; [by rewrite lookup_delete_ne|by rewrite lookup_insert_ne].
Qed.

Lemma one_failure ids c d id : dedup_inv ids c d → good_id id → zlen (failureOrder c) < MaxProcessedMessageIDs →
  let r := RecordDecryptFailure c d id in
  dedup_inv ids r.1.1 r.1.2 ∧ r.2 = bool_decide (failures c !! id = Some 2) ∧
  (r.2 = false → failures r.1.1 !! id = Some (default 0 (failures c !! id) + 1)) ∧
  zlen (failureOrder r.1.1) ≤ zlen (failureOrder c) + 1.
Proof.
  intros [Hp Hf Hg] Hid Hl. cbv zeta. pose proof (fail_spec c d id Hf Hg Hid) as Hs.
  destruct (RecordDecryptFailure c d id) as [[c1 d1] b]. destruct Hs as (H1 & H2 & H3 & H4 & H5 & H6 & H7 & H8).
  destruct (H8 Hl) as [Ef Elen]. simpl. split_and!; [split; [by eapply processed_ok_frame|done|done]|done| |done].
  intros ->. rewrite Ef. by rewrite lookup_insert_eq.
Qed.

(** An envelope is given up on at its third failure, across restarts.  In any state a
    run has reached, with no failure of [id] on record and room for the failures to come,
    the first and second failure of [id] are to be retried and the third gives up, however
    many restarts and failures of other envelopes come in between. *)
Theorem third_failure_gives_up es id es1 es2 c d :
  Forall good_event es → no_reuse es → steps fresh_client es = Ok (c, d) →
  good_id id → Forall (unrelated id) es1 → Forall (unrelated id) es2 → failures c !! id = None →
  zlen (failureOrder c) + zlen es1 + zlen es2 + 2 < MaxProcessedMessageIDs →
  ∃ c1 d1 c2 d2, steps (RecordDecryptFailure c d id).1 es1 = Ok (c1, d1) ∧
    steps (RecordDecryptFailure c1 d1 id).1 es2 = Ok (c2, d2) ∧
    (RecordDecryptFailure c d id).2 = false ∧ (RecordDecryptFailure c1 d1 id).2 = false ∧
    (RecordDecryptFailure c2 d2 id).2 = true.
Proof.
  intros HF Hn Hr Hid H1 H2 Hnone Hl. destruct (run_inv es HF Hn) as (ids & c' & d' & E & Hinv & _).
  rewrite Hr in E. injection E as <- <-. pose proof (Zle_0_nat (length es1)). pose proof (Zle_0_nat (length es2)).
  destruct (one_failure ids c d id Hinv Hid) as (I1 & B1 & F1 & L1); [unfold zlen in *; lia|].
  rewrite Hnone in B1, F1. specialize (F1 B1). simpl in F1.
  destruct (RecordDecryptFailure c d id) as [[c0 d0] b0]. simpl in *.
  destruct (unrelated_steps id es1 ids c0 d0 I1 H1) as (c1 & d1 & S1 & J1 & G1 & M1); [unfold zlen in *; lia|].
  destruct (one_failure ids c1 d1 id J1 Hid) as (I2 & B2 & F2 & L2); [unfold zlen in *; lia|].
  rewrite G1, F1 in B2, F2. specialize (F2 B2). simpl in F2.
  destruct (RecordDecryptFailure c1 d1 id) as [[c2 d2] b2] eqn:E2. simpl in *.
  destruct (unrelated_steps id es2 ids c2 d2 I2 H2) as (c3 & d3 & S2 & J2 & G2 & M2); [unfold zlen in *; lia|].
  destruct (one_failure ids c3 d3 id J2 Hid) as (_ & B3 & _); [unfold zlen in *; lia|].
  rewrite G2, F2 in B3. exists c1, d1, c3, d3. rewrite E2. by split_and!.
Qed.

(** ** An id used again *)

(** An id that 500 others have pushed out and that is then handled and marked again stands
    in the log twice.  A restart counts it where it stands first, and so forgets it: the
    message would be handled a third time. *)
Lemma reload_forgets_remarked c d x l :
  NoDup (x :: l) → length l = 500%nat → Forall id_ok (x :: l) →
  intact (R := processedRecord) (processed_log d) ((λ i, json_Marshal (mkProcessed i)) <$> (x :: l ++ [x])) →
  WasMessageProcessed (loadProcessed c d).1 x = false.
Proof.
  intros Hnd Hl HF Hlog. unfold loadProcessed. rewrite (readLines_intact _ _ Hlog).
  change (x :: l ++ [x]) with ((x :: l) ++ [x]). rewrite fmap_app, foldl_app. rewrite (visit_all (x :: l) (∅, [], 0)) by done. cbn [fst snd app].
  pose proof HF as [(Hne & He & _) _]%Forall_cons. cbn [fmap list_fmap foldl]. unfold visit_processed.
  rewrite unmarshal_marshal by done. cbn [PrID]. rewrite (proj2 (Z.eqb_neq _ _)) by (by intros E%zlen_nil_inv).
  rewrite bool_decide_true by (apply elem_of_list_to_set; left). rewrite evict_spec by done. cbn [processedOrder with_processed processedLines].
  assert (last_n 500 (x :: l) = l) as -> by (unfold last_n; cbn [length]; rewrite Hl; done).
  unfold compact_if_grown, WasMessageProcessed. simpl. apply NoDup_cons in Hnd as [Hx _].
  destruct (_ <? _); simpl; (rewrite bool_decide_false; [done|]); by rewrite elem_of_list_to_set.
Qed.

(** ** A torn line *)

(** The record of a message handled just before the process died is lost with its line,
    and nothing else... *)
Lemma torn_restart ids c d id k : dedup_inv ids c d → good_id id → (k < length (json_Marshal (mkProcessed id)))%nat →
  readLines (R := processedRecord) (torn (processed_log d) (mkProcessed id) k) = readLines (R := processedRecord) (processed_log d).
Proof.
  intros [[Hlog _ _ _ _ _ _] _ _] Hid Hk. rewrite (readLines_torn _ _ _ _ Hlog) by (lia || apply good_processed, Hid).
  rewrite decide_False by lia. rewrite (right_id_L [] (++)). by rewrite (readLines_intact _ _ Hlog).
Qed.

(** ... but the next record goes the same way.  After an append that was cut short, the
    next id marked is appended to the torn line: when the two glued together are not JSON,
    reading the log back yields neither of them -- a message handled, and acknowledged to
    the caller, is handled again after the next restart. *)
Theorem torn_line_swallows_next ids c d id k id' :
  dedup_inv ids c d → good_id id → (0 < k < length (json_Marshal (mkProcessed id)))%nat →
  json_Valid (R := processedRecord) (take k (json_Marshal (mkProcessed id)) ++ json_Marshal (mkProcessed id')) = false →
  let log := (appendLine (torn (processed_log d) (mkProcessed id) k) (mkProcessed id')).1 in
  readLines (R := processedRecord) log = readLines (R := processedRecord) (processed_log d).
Proof.
  intros [[Hlog _ _ _ _ _ _] _ _] Hid Hk Hglue. cbv zeta. rewrite appendLine_Ok. rewrite (readLines_intact _ _ Hlog).
  destruct Hlog as [Hf Hls]. set (ls := _ <$> ids) in *. unfold torn. cbn [default fst Datatypes.id]. rewrite Hf.
  set (m := json_Marshal (mkProcessed id)) in *. set (m' := json_Marshal (mkProcessed id')) in *.
  replace ((file_of ls ++ take k m) ++ m' ++ [10]) with (file_of ls ++ (take k m ++ m') ++ [10]) by (by rewrite !app_assoc).
  apply readLines_bad_line; [done| |done]. apply Forall_app. split; [apply Forall_take|]; apply marshal_line.
Qed.
End dedup.
