(* ===== verification/ClientTranscript.v ===== *)
(** * pkg/client/messages.go: the transcript of a chat

    One append-only log per chat: messages, and changes to messages as records of their
    own.  Reading replays the log; compaction rewrites it.  The log file of a chat is the
    state of every operation; removing a message's media files is not modelled. *)

From S2P Require Import Prelude GoStr GoTime GoTimeParse ClientLog.

(** ** Data *)

Definition MessageNormal : bytes := lit "normal".
Definition MessageSystemInfo : bytes := lit "system_info".
Definition SendPending : bytes := lit "pending".
Definition SendSent : bytes := lit "sent".
Definition SendFailed : bytes := lit "failed".

Record Attachment := mkAttachment {
  AtKind : bytes; AtAlgorithm : bytes; AtBlobID : bytes; AtKey : bytes; AtMimeType : bytes; AtByteSize : Z;
  AtWidth : Z; AtHeight : Z; AtThumb : bytes;
}.
Record GroupDelivery := mkDelivery {
  GdAccountID : bytes; GdWireMessageID : bytes; GdState : bytes; GdError : bytes; GdDetail : bytes; GdSkipped : bool;
}.
Record Message := mkMsg {
  MID : bytes; MText : bytes; MMine : bool; MTimestamp : Time; MSenderSentAt : option Time; MSenderAccountID : bytes;
  MReplyToID : bytes; MReplyText : bytes; MReplyMine : option bool; MReplyAuthorID : bytes;
  MKind : bytes; MSendState : bytes; MAttachments : list Attachment; MDeliveries : list GroupDelivery;
}.
Record logRecord := mkRec {
  T : bytes; RID : bytes; RText : bytes; RMine : bool; RTimestamp : bytes; RSenderSentAt : bytes; RSenderAccountID : bytes;
  RReplyToID : bytes; RReplyText : bytes; RReplyMine : option bool; RReplyAuthorID : bytes;
  RKind : bytes; RSendState : bytes; RAttachments : list Attachment; RDeliveries : list GroupDelivery;
  RAccountID : bytes; RWireMessageID : bytes; RError : bytes; RDetail : bytes; RSkipped : bool;
  RPinned : bool;
}.
Definition recMessage : bytes := lit "msg".
Definition recDelete : bytes := lit "del".
Definition recState : bytes := lit "state".
Definition recDelivery : bytes := lit "delivery".
Definition recPin : bytes := lit "pin".
Definition recAttach : bytes := lit "attach".
Definition compactRatio : Z := 3.

(** A record with only the fields named. *)
Definition blank (t id : bytes) : logRecord :=
  mkRec t id [] false [] [] [] [] [] None [] [] [] [] [] [] [] [] [] false false.
Definition state_rec (id st : bytes) : logRecord :=
  mkRec recState id [] false [] [] [] [] [] None [] [] st [] [] [] [] [] [] false false.
Definition attach_rec (id : bytes) (l : list Attachment) : logRecord :=
  mkRec recAttach id [] false [] [] [] [] [] None [] [] [] l [] [] [] [] [] false false.
Definition delivery_rec (id acct st err detail : bytes) (skipped : bool) (wire : bytes) : logRecord :=
  mkRec recDelivery id [] false [] [] [] [] [] None [] [] st [] [] acct wire err detail skipped false.
Definition pin_rec (id : bytes) (pinned : bool) : logRecord :=
  mkRec recPin id [] false [] [] [] [] [] None [] [] [] [] [] [] [] [] [] false pinned.

Definition with_state (m : Message) (st : bytes) : Message :=
  mkMsg (MID m) (MText m) (MMine m) (MTimestamp m) (MSenderSentAt m) (MSenderAccountID m) (MReplyToID m) (MReplyText m)
    (MReplyMine m) (MReplyAuthorID m) (MKind m) st (MAttachments m) (MDeliveries m).
Definition with_attachments (m : Message) (l : list Attachment) : Message :=
  mkMsg (MID m) (MText m) (MMine m) (MTimestamp m) (MSenderSentAt m) (MSenderAccountID m) (MReplyToID m) (MReplyText m)
    (MReplyMine m) (MReplyAuthorID m) (MKind m) (MSendState m) l (MDeliveries m).
Definition with_deliveries (m : Message) (l : list GroupDelivery) : Message :=
  mkMsg (MID m) (MText m) (MMine m) (MTimestamp m) (MSenderSentAt m) (MSenderAccountID m) (MReplyToID m) (MReplyText m)
    (MReplyMine m) (MReplyAuthorID m) (MKind m) (MSendState m) (MAttachments m) l.

(** ** Records and messages *)

(** [formatTime] and [parseTime] of client.go. *)
Definition formatTime (t : option Time) : bytes := match t with None => [] | Some t => rfc3339_nano t end.
Definition parseTime (s : bytes) : res string (option Time) :=
  if zlen s =? 0 then Ok None
  else t ← from_option (time_parse s) "client: parsing timestamp"%string; Ok (Some t).

Definition toMessage (r : logRecord) : res string Message :=
  ts ← from_option (time_parse (RTimestamp r)) "client: parsing message timestamp"%string;
  sentAt ← parseTime (RSenderSentAt r);
  Ok (mkMsg (RID r) (RText r) (RMine r) ts sentAt (RSenderAccountID r) (RReplyToID r) (RReplyText r) (RReplyMine r)
        (RReplyAuthorID r) (RKind r) (RSendState r) (RAttachments r) (RDeliveries r)).
Definition messageRecord (m : Message) : logRecord :=
  mkRec recMessage (MID m) (MText m) (MMine m) (rfc3339_nano (MTimestamp m)) (formatTime (MSenderSentAt m)) (MSenderAccountID m)
    (MReplyToID m) (MReplyText m) (MReplyMine m) (MReplyAuthorID m) (MKind m) (MSendState m) (MAttachments m) (MDeliveries m)
    [] [] [] [] false false.

(** ** Replaying the log *)

Record transcript := mkTranscript {
  order : list bytes; t_messages : gmap bytes Message; pins : list bytes; pinned : gset bytes; records : Z;
}.
Definition empty_transcript : transcript := mkTranscript [] ∅ [] ∅ 0.

Fixpoint removeString (l : list bytes) (want : bytes) : list bytes :=
  match l with [] => [] | s :: l' => if s =?b want then l' else s :: removeString l' want end.

(** The first copy for the record's recipient; [applyLaterChanges] takes all of them. *)
Definition update_delivery (detail : bool) (r : logRecord) (d : GroupDelivery) : GroupDelivery :=
  mkDelivery (GdAccountID d) (if negb (zlen (RWireMessageID r) =? 0) then RWireMessageID r else GdWireMessageID d)
    (RSendState r) (RError r) (if detail then RDetail r else GdDetail d) (RSkipped r).
Fixpoint update_first (r : logRecord) (l : list GroupDelivery) : list GroupDelivery :=
  match l with
  | [] => []
  | d :: l' => if GdAccountID d =?b RAccountID r then update_delivery true r d :: l' else d :: update_first r l'
  end.

Definition change_message (t : transcript) (id : bytes) (f : Message → Message) : transcript :=
  mkTranscript (order t) (alter f id (t_messages t)) (pins t) (pinned t) (records t).

Definition visit (t : transcript) (r : logRecord) : res string transcript :=
  if zlen (RID r) =? 0 then Ok t
  else
    let t := mkTranscript (order t) (t_messages t) (pins t) (pinned t) (records t + 1) in
    let known := present (t_messages t !! RID r) in
    if T r =?b recMessage then
      msg ← toMessage r;
      Ok (mkTranscript (if known then order t else order t ++ [RID r]) (<[RID r := msg]> (t_messages t)) (pins t) (pinned t) (records t))
    else if T r =?b recDelete then
      Ok (if known then mkTranscript (removeString (order t) (RID r)) (delete (RID r) (t_messages t)) (removeString (pins t) (RID r))
                          (pinned t ∖ {[RID r]}) (records t) else t)
    else if T r =?b recState then Ok (change_message t (RID r) (λ m, with_state m (RSendState r)))
    else if T r =?b recAttach then Ok (change_message t (RID r) (λ m, with_attachments m (RAttachments r)))
    else if T r =?b recDelivery then Ok (change_message t (RID r) (λ m, with_deliveries m (update_first r (MDeliveries m))))
    else if T r =?b recPin then
      if negb known then Ok t
      else if RPinned r && negb (bool_decide (RID r ∈ pinned t)) then
        Ok (mkTranscript (order t) (t_messages t) (pins t ++ [RID r]) ({[RID r]} ∪ pinned t) (records t))
      else if negb (RPinned r) && bool_decide (RID r ∈ pinned t) then
        Ok (mkTranscript (order t) (t_messages t) (removeString (pins t) (RID r)) (pinned t ∖ {[RID r]}) (records t))
      else Ok t
    else Ok t.

Fixpoint replay (t : transcript) (rs : list logRecord) : res string transcript :=
  match rs with [] => Ok t | r :: rs => t ← visit t r; replay t rs end.

Section files.
Context {J : Json logRecord}.

(** A line that does not decode is passed over. *)
Fixpoint visit_lines (t : transcript) (ls : list bytes) : res string transcript :=
  match ls with
  | [] => Ok t
  | raw :: ls => t ← match json_Unmarshal raw with Some r => visit t r | None => Ok t end; visit_lines t ls
  end.
Definition readTranscript (f : option bytes) : res string transcript := visit_lines empty_transcript (readLines (R := logRecord) f).

Definition appendRecord (f : option bytes) (r : logRecord) : option bytes * res string () := appendLine f r.

Definition AppendMessage (f : option bytes) (m : Message) : option bytes * res string () :=
  if zlen (MID m) =? 0 then (f, Err "client: refusing to append a message with no id"%string)
  else
    let m := mkMsg (MID m) (MText m) (MMine m) (MTimestamp m) (MSenderSentAt m) (MSenderAccountID m) (MReplyToID m) (MReplyText m)
               (MReplyMine m) (MReplyAuthorID m) (if zlen (MKind m) =? 0 then MessageNormal else MKind m)
               (if zlen (MSendState m) =? 0 then SendSent else MSendState m) (MAttachments m) (MDeliveries m) in
    appendRecord f (messageRecord m).
Definition SetMessageSendState (f : option bytes) (messageID state : bytes) : option bytes * res string () :=
  appendRecord f (state_rec messageID state).
Definition SetMessageAttachments (f : option bytes) (messageID : bytes) (l : list Attachment) : option bytes * res string () :=
  appendRecord f (attach_rec messageID l).

Definition reasonLimit : Z := 200.
Definition ellipsis : bytes := lit " ... ".
(** Cut from the middle, by runes. *)
Definition truncateReason (reason : bytes) : bytes :=
  if zlen reason <=? reasonLimit then reason
  else
    let r := runes reason in
    if zlen r <=? reasonLimit then reason
    else
      let head := (reasonLimit - zlen ellipsis) * 2 / 3 in
      let tail := reasonLimit - zlen ellipsis - head in
      mjoin (encode_rune <$> take (Z.to_nat head) r) ++ ellipsis ++ mjoin (encode_rune <$> drop (length r - Z.to_nat tail) r).
Definition SetGroupDelivery (f : option bytes) (messageID : bytes) (d : GroupDelivery) : option bytes * res string () :=
  appendRecord f (delivery_rec messageID (GdAccountID d) (GdState d) (truncateReason (GdError d)) (truncateReason (GdDetail d))
                    (GdSkipped d) (GdWireMessageID d)).

(** The map holds every id of the order; dereferencing a missing one would panic. *)
Fixpoint collect (m : gmap bytes Message) (ids : list bytes) : res string (list Message) :=
  match ids with
  | [] => Ok []
  | id :: ids => match m !! id with Some x => l ← collect m ids; Ok (x :: l) | None => Panic end
  end.
Definition Messages (f : option bytes) : res string (list Message) :=
  t ← readTranscript f; collect (t_messages t) (order t).
Definition MessageExists (f : option bytes) (id : bytes) : res string bool :=
  t ← readTranscript f; Ok (present (t_messages t !! id)).
Definition PinnedMessageIDs (f : option bytes) : res string (list bytes) := t ← readTranscript f; Ok (pins t).

(** ** The last message, from the tail *)

Definition later_change (msg : Message) (r : logRecord) : Message :=
  if negb (RID r =?b MID msg) then msg
  else if T r =?b recState then with_state msg (RSendState r)
  else if T r =?b recDelivery then
    with_deliveries msg ((λ d, if GdAccountID d =?b RAccountID r then update_delivery false r d else d) <$> MDeliveries msg)
  else msg.
(** [lines] is newest first. *)
Definition decoded (lines : list bytes) : list logRecord := omap json_Unmarshal lines.
Definition applyLaterChanges (lines : list bytes) (msg : Message) : Message := foldl later_change msg (decoded (reverse lines)).

(** The newest message record not deleted since. *)
Fixpoint last_in (deleted : gset bytes) (rs : list logRecord) : option logRecord :=
  match rs with
  | [] => None
  | r :: rs =>
    if zlen (RID r) =? 0 then last_in deleted rs
    else if T r =?b recDelete then last_in ({[RID r]} ∪ deleted) rs
    else if (T r =?b recMessage) && negb (bool_decide (RID r ∈ deleted)) then Some r
    else last_in deleted rs
  end.
Definition LastMessage (f : option bytes) : res string (option Message) :=
  let '(lines, found) := tailLines (R := logRecord) f in
  match (if (found : bool) then last_in ∅ (decoded lines) else None) with
  | Some r => msg ← toMessage r; Ok (Some (applyLaterChanges lines msg))
  | None =>
    t ← readTranscript f;
    match last (order t) with
    | None => Ok None
    | Some id => match t_messages t !! id with Some m => Ok (Some m) | None => Panic end
    end
  end.

(** ** Compaction, deletion, pins, and what a dead process left pending *)

Definition compacted (t : transcript) : res string (list logRecord) :=
  ms ← collect (t_messages t) (order t);
  Ok ((messageRecord <$> ms) ++ ((λ id, pin_rec id true) <$> pins t)).
Definition maybeCompact (f : option bytes) : res string (option bytes) :=
  t ← readTranscript f;
  if records t <=? compactRatio * Z.max (zlen (order t)) 1 then Ok f
  else rs ← compacted t; Ok (rewriteLog rs).

Definition DeleteMessage (f : option bytes) (messageID : bytes) : res string (option bytes) :=
  match appendRecord f (blank recDelete messageID) with
  | (f, Ok _) => maybeCompact f
  | (_, Err e) => Err e
  | (_, Panic) => Panic
  end.
Definition ClearTranscript (f : option bytes) : option bytes := None.
Definition PinMessage (f : option bytes) (messageID : bytes) : option bytes * res string () := appendRecord f (pin_rec messageID true).
Definition UnpinMessage (f : option bytes) (messageID : bytes) : option bytes * res string () := appendRecord f (pin_rec messageID false).

(** The records for one message left in flight. *)
Definition fail_records (m : Message) : list logRecord :=
  (if MSendState m =?b SendPending then [state_rec (MID m) SendFailed] else [])
  ++ ((λ d, delivery_rec (MID m) (GdAccountID d) SendFailed [] [] false [])
      <$> filter (λ d, GdState d = SendPending) (MDeliveries m)).
Fixpoint append_all (f : option bytes) (rs : list logRecord) : res string (option bytes) :=
  match rs with
  | [] => Ok f
  | r :: rs => match appendRecord f r with (f, Ok _) => append_all f rs | (_, Err e) => Err e | (_, Panic) => Panic end
  end.
(** One chat; the ids in the loop are the keys of the map. *)
Definition fail_chat (f : option bytes) : res string (option bytes) :=
  t ← readTranscript f;
  ms ← collect (t_messages t) (order t);
  f ← append_all f (mjoin (fail_records <$> ms));
  maybeCompact f.
(** Every chat directory, in the order of the listing. *)
Fixpoint failInFlightSends (chats : list (bytes * option bytes)) : res string (list (bytes * option bytes)) :=
  match chats with
  | [] => Ok []
  | (id, f) :: chats => f ← fail_chat f; rest ← failInFlightSends chats; Ok ((id, f) :: rest)
  end.
End files.
