(* ===== verification/ClientTranscriptCorrect.v ===== *)
(** * The transcript is what was written

    Whatever the log holds, reading it never panics and yields a transcript in order;
    compaction does not change what is read; the preview taken from the tail of the log is
    the last message of the full replay; and a restart leaves nothing pending.  At the end, what each
    operation on a transcript adds to what is read. *)

From S2P Require Import Prelude GoStr GoTime GoTimeParse ClientLog ClientTranscript.

(** ** The replayed transcript *)

Record transcript_wf (t : transcript) : Prop := {
  tw_order : NoDup (order t);
  tw_known id : id ∈ order t ↔ is_Some (t_messages t !! id);
  tw_pins : NoDup (pins t);
  tw_pinned : pinned t = list_to_set (pins t);
  tw_pin_known id : id ∈ pins t → id ∈ order t;
  tw_id id m : t_messages t !! id = Some m → MID m = id;
  tw_ne id : id ∈ order t → id ≠ [];
}.

Lemma removeString_filter l x : NoDup l → removeString l x = filter (λ y, y ≠ x) l.
Proof.
  induction 1 as [|y l Hy Hl IH]; [done|]. cbn [removeString]. destruct (y =?b x) eqn:E.
  - apply eqb_true_1 in E as ->. rewrite filter_cons_False by naive_solver. symmetry. apply filter_all, Forall_forall.
    intros z Hz ->. done.
  - apply eqb_false in E. rewrite filter_cons_True by done. by rewrite IH.
Qed.

Lemma change_wf t id f : transcript_wf t → (∀ m, MID (f m) = MID m) → transcript_wf (change_message t id f).
Proof.
  intros [] Hf. split; simpl; try done.
  - intros i. rewrite tw_known0. destruct (decide (i = id)) as [->|Hne]; [by rewrite lookup_alter_eq, fmap_is_Some|by rewrite lookup_alter_ne].
  - intros i m. destruct (decide (i = id)) as [->|Hne]; [|rewrite lookup_alter_ne by done; eauto].
    rewrite lookup_alter_eq. intros (x & Hx & ->)%fmap_Some. rewrite Hf. eauto.
Qed.

Lemma toMessage_id r m : toMessage r = Ok m → MID m = RID r.
Proof. unfold toMessage. intros H. apply bind_Ok in H as (ts & _ & H). apply bind_Ok in H as (s & _ & H). by apply Ok_inj in H as <-. Qed.
Lemma toMessage_deliveries r m : toMessage r = Ok m → MDeliveries m = RDeliveries r.
Proof. unfold toMessage. intros H. apply bind_Ok in H as (ts & _ & H). apply bind_Ok in H as (s & _ & H). by apply Ok_inj in H as <-. Qed.

Lemma message_wf t id m : transcript_wf t → MID m = id → id ≠ [] →
  transcript_wf (mkTranscript (if present (t_messages t !! id) then order t else order t ++ [id])
    (<[id := m]> (t_messages t)) (pins t) (pinned t) (records t)).
Proof.
  intros [] Hm Hnid.
  assert (∀ i, i ∈ (if present (t_messages t !! id) then order t else order t ++ [id]) ↔ i ∈ order t ∨ i = id) as Hin.
  { intros i. destruct (t_messages t !! id) as [x|] eqn:E; simpl.
    - split; [by left|]. intros [?| ->]; [done|]. apply tw_known0. by eexists.
    - by rewrite elem_of_app, list_elem_of_singleton. }
  split; simpl; try done.
  - destruct (t_messages t !! id) as [x|] eqn:E; [done|]. simpl. apply NoDup_app. split_and!; [done| |apply NoDup_singleton].
    intros i Hi ->%list_elem_of_singleton. apply tw_known0 in Hi. rewrite E in Hi. by destruct Hi.
  - intros i. rewrite Hin, tw_known0. destruct (decide (i = id)) as [->|Hne].
    + rewrite lookup_insert_eq. split; [by eexists|by right].
    + rewrite lookup_insert_ne by done. naive_solver.
  - intros i Hi. apply Hin. left. by apply tw_pin_known0.
  - intros i x [[<- <-]|[_ Hx]]%lookup_insert_Some; [done|by apply tw_id0].
  - intros i [Hi| ->]%Hin; [by apply tw_ne0|done].
Qed.

Lemma delete_wf t id : transcript_wf t →
  transcript_wf (mkTranscript (removeString (order t) id) (delete id (t_messages t)) (removeString (pins t) id) (pinned t ∖ {[id]}) (records t)).
Proof.
  intros []. rewrite !removeString_filter by done. split; simpl.
  - by apply NoDup_filter.
  - intros i. rewrite list_elem_of_filter, tw_known0. destruct (decide (i = id)) as [->|Hne].
    + rewrite lookup_delete_eq. split; [by intros []|by intros []].
    + rewrite lookup_delete_ne by done. naive_solver.
  - by apply NoDup_filter.
  - rewrite tw_pinned0. apply set_eq. intros i. rewrite elem_of_difference, elem_of_singleton, !elem_of_list_to_set, list_elem_of_filter. naive_solver.
  - intros i. rewrite !list_elem_of_filter. naive_solver.
  - intros i m [_ Hm]%lookup_delete_Some. eauto.
  - intros i [_ Hi]%list_elem_of_filter. eauto.
Qed.

Lemma visit_wf t r t' : transcript_wf t → visit t r = Ok t' → transcript_wf t'.
Proof.
  intros Hwf. unfold visit. destruct (Z.eqb_spec (zlen (RID r)) 0) as [|Hid]; [by intros [= <-]|].
  assert (RID r ≠ []) as Hne by (by intros E; rewrite E in Hid).
  set (t1 := mkTranscript _ _ _ _ _). assert (transcript_wf t1) as Hwf1 by (by destruct Hwf; split).
  destruct (T r =?b recMessage).
  { intros H. apply bind_Ok in H as (m & Hm%toMessage_id & H). apply Ok_inj in H as <-. by apply message_wf. }
  destruct (T r =?b recDelete).
  { intros [= <-]. destruct (present _); [by apply (delete_wf t1)|done]. }
  destruct (T r =?b recState); [by intros [= <-]; apply change_wf|].
  destruct (T r =?b recAttach); [by intros [= <-]; apply change_wf|].
  destruct (T r =?b recDelivery); [by intros [= <-]; apply change_wf|].
  destruct (T r =?b recPin); [|by intros [= <-]].
  destruct (t_messages t1 !! RID r) as [m|] eqn:Em; simpl; [|by intros [= <-]].
  pose proof Hwf1 as []. destruct (RPinned r); simpl.
  - case_bool_decide as Hp; intros [= <-]; [done|]. split; try done; simpl in *.
    + apply NoDup_app. split_and!; [done| |apply NoDup_singleton]. intros i Hi ->%list_elem_of_singleton. set_solver.
    + rewrite tw_pinned0, list_to_set_app_L. set_solver.
    + intros i. rewrite elem_of_app, list_elem_of_singleton. intros [?| ->]; [eauto|]. apply tw_known0. by eexists.
  - case_bool_decide as Hp; intros [= <-]; [|done]. split; try done; simpl in *; rewrite removeString_filter by done.
    + by apply NoDup_filter.
    + rewrite tw_pinned0. apply set_eq. intros i. rewrite elem_of_difference, elem_of_singleton, !elem_of_list_to_set, list_elem_of_filter. naive_solver.
    + intros i [_ Hi]%list_elem_of_filter. eauto.
Qed.

Lemma empty_wf : transcript_wf empty_transcript.
Proof.
  split; simpl; [constructor| |constructor|done| |done|]; intros id; rewrite ?lookup_empty, ?elem_of_nil; [|done|done].
  split; [done|by intros []].
Qed.

Lemma collect_Ok t : transcript_wf t → ∃ ms, collect (t_messages t) (order t) = Ok ms ∧ MID <$> ms = order t ∧
  Forall2 (λ id m, t_messages t !! id = Some m) (order t) ms.
Proof.
  intros []. assert (Forall (λ id, is_Some (t_messages t !! id)) (order t)) as H by (apply Forall_forall; naive_solver).
  clear tw_order0 tw_known0 tw_pins0 tw_pinned0 tw_pin_known0 tw_ne0. induction H as [|id ids [m Hm] HF IH]; [by exists []|].
  destruct IH as (ms & E1 & E2 & E3). exists (m :: ms). cbn [collect]. rewrite Hm, E1.
  split_and!; [done|rewrite fmap_cons, E2; f_equal; eauto|by constructor].
Qed.

Section files.
Context {J : Json logRecord}.

Lemma visit_lines_wf t ls t' : transcript_wf t → visit_lines t ls = Ok t' → transcript_wf t'.
Proof.
  revert t. induction ls as [|raw ls IH]; intros t Hwf H; simpl in H; [by injection H as <-|].
  apply bind_Ok in H as (t1 & H1 & H). apply (IH t1); [|done]. destruct (json_Unmarshal raw); [by eapply visit_wf|by injection H1 as <-].
Qed.
Lemma visit_no_panic t r : visit t r ≠ Panic.
Proof.
  unfold visit, toMessage, parseTime. repeat case_match; try done.
  all: destruct (time_parse (RTimestamp r)); cbn [mbind res_bind Prelude.from_option]; [|done].
  all: destruct (zlen (RSenderSentAt r) =? 0); [done|]; by destruct (time_parse (RSenderSentAt r)).
Qed.
Lemma visit_lines_no_panic t ls : visit_lines t ls ≠ Panic.
Proof.
  revert t. induction ls as [|raw ls IH]; intros t; [done|]. simpl. destruct (json_Unmarshal raw) as [r|]; [|apply IH].
  pose proof (visit_no_panic t r). destruct (visit t r); [apply IH|done|done].
Qed.

(** C33: reading any log is safe.  Whatever bytes a chat's log holds -- torn, foreign or
    damaged -- reading the transcript does not dereference a message that is not there:
    it fails with an error or yields messages with distinct ids, and every pinned id is
    one of them. *)
Theorem messages_safe f :
  Messages f ≠ Panic ∧
  ∀ ms, Messages f = Ok ms → NoDup (MID <$> ms) ∧
    ∃ ps, PinnedMessageIDs f = Ok ps ∧ NoDup ps ∧ ∀ id, id ∈ ps → id ∈ MID <$> ms.
Proof.
  unfold Messages, PinnedMessageIDs, readTranscript. pose proof (visit_lines_no_panic empty_transcript (readLines (R := logRecord) f)) as Hnp.
  destruct (visit_lines empty_transcript (readLines (R := logRecord) f)) as [t|e|] eqn:E; cbn [mbind res_bind]; [|done|done].
  apply visit_lines_wf in E; [|apply empty_wf]. destruct (collect_Ok t E) as (ms & -> & Hids & _). split; [done|].
  intros ms' [= <-]. rewrite Hids. split; [apply E|]. exists (pins t). split_and!; [done|apply E|]. intros id. apply E.
Qed.

(** ** Logs this client has written *)

Definition time_ok (t : Time) : Prop := four_digit_year (unix_seconds t) ∧ 0 ≤ t_nsec t < second.
Definition utc (t : Time) : Time := mkTime (t_sec t) (t_nsec t) None 0.
(** Times as they read back: in UTC, to the nanosecond. *)
Definition storable (m : Message) : Prop :=
  time_ok (MTimestamp m) ∧ MTimestamp m = utc (MTimestamp m) ∧
  ∀ t, MSenderSentAt m = Some t → time_ok t ∧ t = utc t.
(** A message record carries the times of a message. *)
Definition timely (r : logRecord) : Prop :=
  T r = recMessage → ∃ ts sent, RTimestamp r = rfc3339_nano ts ∧ RSenderSentAt r = formatTime sent ∧ time_ok ts ∧
    ∀ t, sent = Some t → time_ok t.
Definition rec_ok (r : logRecord) : Prop := encodable r ∧ short r ∧ timely r.
Definition chat (f : option bytes) (rs : list logRecord) : Prop := intact (R := logRecord) f (json_Marshal <$> rs) ∧ Forall rec_ok rs.

Lemma parse_nano t : time_ok t → time_parse (rfc3339_nano t) = Some (utc t).
Proof. intros [Hy Hn]. by apply time_parse_nano. Qed.
Lemma nano_ne t : rfc3339_nano t ≠ [].
Proof. unfold rfc3339_nano. intros E%(f_equal length). rewrite !length_app in E. simpl in E. lia. Qed.
Lemma parseTime_format o : (∀ t, o = Some t → time_ok t) → parseTime (formatTime o) = Ok (utc <$> o).
Proof.
  destruct o as [t|]; intros H; [|done]. unfold parseTime, formatTime.
  destruct (Z.eqb_spec (zlen (rfc3339_nano t)) 0) as [E|_]; [by apply zlen_nil_inv, nano_ne in E|].
  by rewrite parse_nano by (by apply H).
Qed.

Lemma utc_idemp t : utc (utc t) = utc t.
Proof. done. Qed.
Lemma timely_message r : timely r → T r = recMessage → ∃ m, toMessage r = Ok m ∧ storable m.
Proof.
  intros Ht HT. destruct (Ht HT) as (ts & sent & E1 & E2 & H1 & H2). unfold toMessage. rewrite E1, E2, parse_nano by done.
  cbn [Prelude.from_option mbind res_bind]. rewrite parseTime_format by done. eexists. split; [done|].
  split_and!; [done|done|]. simpl. intros t Hs. destruct sent as [u|]; [|done]. injection Hs as <-. split; [exact (H2 u eq_refl)|done].
Qed.
Lemma toMessage_record m : storable m → toMessage (messageRecord m) = Ok m.
Proof.
  intros (H1 & H2 & H3). unfold toMessage, messageRecord. cbn [RTimestamp RSenderSentAt]. rewrite parse_nano by done.
  cbn [Prelude.from_option mbind res_bind]. rewrite parseTime_format by (intros t Ht; by apply H3). cbn [mbind res_bind].
  rewrite <- H2. destruct m as [id tx mi ts sent a b c d e k st at' de]. simpl in *. destruct sent as [t|]; simpl; [|done].
  destruct (H3 t eq_refl) as [_ <-]. done.
Qed.
Lemma messageRecord_timely m : storable m → timely (messageRecord m).
Proof. intros (H1 & _ & H3) _. exists (MTimestamp m), (MSenderSentAt m). split_and!; try done. intros t Ht. by apply H3. Qed.

Lemma read_chat f rs : chat f rs → readTranscript f = replay empty_transcript rs.
Proof.
  intros [Hf HF]. unfold readTranscript. rewrite (readLines_intact _ _ Hf). generalize empty_transcript. clear Hf.
  induction HF as [|r rs [He _] HF IH]; intros t; [done|]. rewrite fmap_cons. cbn [visit_lines replay].
  rewrite unmarshal_marshal by done. destruct (visit t r); [apply IH|done..].
Qed.
Lemma chat_append f rs r : chat f rs → rec_ok r → ∃ f', appendRecord f r = (f', Ok ()) ∧ chat f' (rs ++ [r]).
Proof.
  intros [Hf HF] Hr. pose proof (appendLine_intact f _ r Hf ltac:(apply Hr)) as Hi. unfold appendRecord. revert Hi.
  rewrite appendLine_Ok. intros Hi. eexists. split; [done|]. split; [|apply Forall_app; split; [done|by constructor]].
  by rewrite fmap_app.
Qed.
Lemma chat_append_all rs' f rs : chat f rs → Forall rec_ok rs' → ∃ f', append_all f rs' = Ok f' ∧ chat f' (rs ++ rs').
Proof.
  intros Hc HF. revert f rs Hc. induction HF as [|r rs' Hr HF IH]; intros f rs Hc; [exists f; by rewrite app_nil_r|].
  cbn [append_all]. destruct (chat_append f rs r Hc Hr) as (f1 & -> & Hc1). destruct (IH _ _ Hc1) as (f2 & -> & Hc2).
  exists f2. split; [done|]. by rewrite <- (assoc_L app) in Hc2.
Qed.
Lemma chat_rewrite rs : Forall rec_ok rs → chat (rewriteLog rs) rs.
Proof. intros HF. split; [|done]. apply rewriteLog_intact. eapply Forall_impl; [exact HF|]. by intros r (_ & ? & _). Qed.

Definition all_storable (t : transcript) : Prop := ∀ id m, t_messages t !! id = Some m → storable m.
Lemma alter_storable t id f : all_storable t → (∀ m, storable m → storable (f m)) → all_storable (change_message t id f).
Proof.
  intros H Hf i m. simpl. destruct (decide (i = id)) as [->|Hne]; [|rewrite lookup_alter_ne by done; eauto].
  rewrite lookup_alter_eq. intros (x & Hx & ->)%fmap_Some. eauto.
Qed.

(** A log this client wrote always replays. *)
Lemma visit_storable t r : all_storable t → timely r → ∃ t', visit t r = Ok t' ∧ all_storable t'.
Proof.
  intros Ht Hr. unfold visit. destruct (zlen (RID r) =? 0); [by exists t|].
  set (t1 := mkTranscript _ _ _ _ _). assert (all_storable t1) as Ht1 by done.
  destruct (T r =?b recMessage) eqn:ET.
  { apply eqb_true_1 in ET. destruct (timely_message r Hr ET) as (m & -> & Hm). eexists. split; [done|].
    intros i x. cbn [t_messages]. intros [[_ <-]|[_ Hx]]%lookup_insert_Some; [done|by eapply Ht]. }
  destruct (T r =?b recDelete).
  { eexists. split; [done|]. destruct (present _); [|done]. intros i m. cbn [t_messages]. intros [_ Hm]%lookup_delete_Some. by eapply Ht. }
  destruct (T r =?b recState); [eexists; split; [done|by apply alter_storable]|].
  destruct (T r =?b recAttach); [eexists; split; [done|by apply alter_storable]|].
  destruct (T r =?b recDelivery); [eexists; split; [done|by apply alter_storable]|].
  repeat case_match; eexists; (split; [done|]); done.
Qed.
Lemma replay_storable t rs : all_storable t → Forall timely rs → ∃ t', replay t rs = Ok t' ∧ all_storable t'.
Proof.
  intros Ht HF. revert t Ht. induction HF as [|r rs Hr HF IH]; intros t Ht; [by exists t|]. cbn [replay].
  destruct (visit_storable t r Ht Hr) as (t1 & -> & Ht1). apply IH, Ht1.
Qed.
Lemma replay_wf t rs t' : transcript_wf t → replay t rs = Ok t' → transcript_wf t'.
Proof.
  revert t. induction rs as [|r rs IH]; intros t Hwf H; simpl in H; [by injection H as <-|].
  apply bind_Ok in H as (t1 & H1 & H). apply (IH t1); [by eapply visit_wf|done].
Qed.
Lemma replay_app t rs rs' : replay t (rs ++ rs') = (t ← replay t rs; replay t rs').
Proof. revert t. induction rs as [|r rs IH]; intros t; [done|]. simpl. destruct (visit t r); simpl; [apply IH|done..]. Qed.

Lemma chat_read f rs : chat f rs → ∃ t, readTranscript f = Ok t ∧ replay empty_transcript rs = Ok t ∧ transcript_wf t ∧ all_storable t.
Proof.
  intros Hc. rewrite (read_chat _ _ Hc). destruct (replay_storable empty_transcript rs) as (t & E & Ht).
  - intros id m. simpl; by rewrite lookup_empty.
  - eapply Forall_impl; [apply Hc|]. by intros r (_ & _ & ?).
  - exists t. split_and!; try done. by eapply replay_wf, E; apply empty_wf.
Qed.

(** ** Compaction *)

(** What is read, the number of records apart. *)
Definition same_content (t u : transcript) : Prop :=
  order t = order u ∧ t_messages t = t_messages u ∧ pins t = pins u ∧ pinned t = pinned u.

Definition put (M : gmap bytes Message) (ms : list Message) : gmap bytes Message := foldl (λ M m, <[MID m := m]> M) M ms.
Lemma put_other ms M id : id ∉ MID <$> ms → put M ms !! id = M !! id.
Proof.
  revert M. induction ms as [|m ms IH]; intros M Hid; [done|]. rewrite fmap_cons, not_elem_of_cons in Hid. destruct Hid.
  cbn [put foldl]. fold (put (<[MID m := m]> M) ms). rewrite IH by done. by rewrite lookup_insert_ne.
Qed.
Lemma put_elem ms M m : NoDup (MID <$> ms) → m ∈ ms → put M ms !! MID m = Some m.
Proof.
  revert M. induction ms as [|x ms IH]; intros M Hnd Hm; [by apply elem_of_nil in Hm|].
  rewrite fmap_cons in Hnd. apply NoDup_cons in Hnd as [Hx Hnd]. cbn [put foldl]. fold (put (<[MID x := x]> M) ms).
  apply elem_of_cons in Hm as [->|Hm]; [rewrite put_other by done; by rewrite lookup_insert_eq|by apply IH].
Qed.

Lemma zlen_ne {A} (l : list A) : l ≠ [] → (zlen l =? 0) = false.
Proof. intros H. apply Z.eqb_neq. by intros E%zlen_nil_inv. Qed.

Lemma replay_messages ms t :
  Forall storable ms → Forall (λ m, MID m ≠ []) ms → NoDup (MID <$> ms) → Forall (λ m, t_messages t !! MID m = None) ms →
  replay t (messageRecord <$> ms) =
  Ok (mkTranscript (order t ++ (MID <$> ms)) (put (t_messages t) ms) (pins t) (pinned t) (records t + zlen ms)).
Proof.
  revert t. induction ms as [|m ms IH]; intros t Hs Hne Hnd Hnew.
  { cbn. unfold zlen. simpl. rewrite app_nil_r, Z.add_0_r. by destruct t. }
  rewrite !Forall_cons in *. destruct Hs as [Hs Hs'], Hne as [Hne Hne'], Hnew as [Hnew Hnew'].
  rewrite fmap_cons in Hnd. apply NoDup_cons in Hnd as [Hx Hnd]. rewrite !fmap_cons. cbn [replay].
  unfold visit. change (RID (messageRecord m)) with (MID m). change (T (messageRecord m)) with recMessage.
  rewrite zlen_ne by done. rewrite eqb_refl, toMessage_record by done. cbn [mbind res_bind]. simpl. rewrite Hnew. simpl.
  rewrite IH; simpl; try done.
  - rewrite <- (assoc_L app). do 2 f_equal. unfold zlen. simpl. lia.
  - apply Forall_forall. intros x Hin. rewrite Forall_forall in Hnew'. rewrite lookup_insert_ne; [by apply Hnew'|].
    intros E. apply Hx. rewrite E. by apply list_elem_of_fmap_2.
Qed.

Lemma replay_pins ps t :
  transcript_wf t → Forall (λ id, id ∈ order t) ps → NoDup (pins t ++ ps) →
  ∃ n, replay t ((λ id, pin_rec id true) <$> ps)
    = Ok (mkTranscript (order t) (t_messages t) (pins t ++ ps) (pinned t ∪ list_to_set ps) n).
Proof.
  revert t. induction ps as [|id ps IH]; intros t Hwf Hin Hnd.
  { exists (records t). cbn. rewrite app_nil_r, union_empty_r_L. by destruct t. }
  apply Forall_cons in Hin as [Hid Hin]. rewrite fmap_cons. cbn [replay].
  set (t1 := mkTranscript (order t) (t_messages t) (pins t ++ [id]) ({[id]} ∪ pinned t) (records t + 1)).
  assert (visit t (pin_rec id true) = Ok t1) as Ev.
  { unfold visit. simpl. rewrite zlen_ne by (by apply Hwf). pose proof (proj1 (tw_known t Hwf id) Hid) as [m Hm]. rewrite Hm. simpl.
    rewrite bool_decide_false; [done|]. rewrite (tw_pinned _ Hwf). apply NoDup_app in Hnd as (_ & Hd & _). intros Hp.
    apply (Hd id); [set_solver|left]. }
  pose proof (visit_wf _ _ _ Hwf Ev) as Hwf1. rewrite Ev. cbn [mbind res_bind].
  destruct (IH t1 Hwf1 Hin) as [n E]; [simpl; by rewrite <- (assoc_L app)|]. exists n. rewrite E. simpl. do 2 f_equal.
  - by rewrite <- (assoc_L app).
  - set_solver.
Qed.

(** The compacted log replays to the same transcript. *)
Lemma replay_compacted t rs : transcript_wf t → all_storable t → compacted t = Ok rs →
  ∃ u, replay empty_transcript rs = Ok u ∧ same_content u t.
Proof.
  intros Hwf Hst H. unfold compacted in H. destruct (collect_Ok t Hwf) as (ms & Ec & Hids & HF). rewrite Ec in H.
  apply Ok_inj in H as <-. rewrite replay_app. pose proof Hwf as [].
  assert (∀ m, m ∈ ms → t_messages t !! MID m = Some m) as Hlook.
  { intros m [i Hi]%list_elem_of_lookup. destruct (Forall2_lookup_r _ _ _ _ _ HF Hi) as (id & _ & Hm).
    by rewrite (tw_id0 _ _ Hm). }
  rewrite replay_messages; simpl.
  - destruct (replay_pins (pins t) (mkTranscript (MID <$> ms) (put ∅ ms) [] ∅ (0 + zlen ms))) as [n E].
    + rewrite Hids. split; simpl; try done; [|constructor|by intros ? ?%elem_of_nil|].
      * intros id. rewrite <- Hids. split.
        -- intros (m & -> & Hm)%list_elem_of_fmap. rewrite put_elem by (done || by rewrite Hids). by eexists.
        -- intros [m Hm]. destruct (decide (id ∈ MID <$> ms)) as [|Hn]; [done|]. rewrite put_other in Hm by done. by rewrite lookup_empty in Hm.
      * intros id m Hm. destruct (decide (id ∈ MID <$> ms)) as [(x & -> & Hx)%list_elem_of_fmap|Hn].
        -- rewrite put_elem in Hm by (done || by rewrite Hids). by injection Hm as <-.
        -- rewrite put_other in Hm by done. by rewrite lookup_empty in Hm.
    + apply Forall_forall. simpl. rewrite Hids. done.
    + done.
    + rewrite E. eexists. split; [done|]. split_and!; simpl; [done| |done|by rewrite union_empty_l_L, tw_pinned0].
      apply map_eq. intros id. destruct (decide (id ∈ MID <$> ms)) as [(m & -> & Hm)%list_elem_of_fmap|Hn].
      * rewrite put_elem by (done || by rewrite Hids). symmetry. by apply Hlook.
      * rewrite put_other, lookup_empty by done. symmetry. apply eq_None_not_Some. rewrite <- tw_known0, <- Hids. done.
  - apply Forall_forall. intros m Hm. eapply Hst. by apply Hlook.
  - apply Forall_forall. intros m Hm. apply tw_ne0. rewrite <- Hids. by apply list_elem_of_fmap_2.
  - by rewrite Hids.
  - apply Forall_forall. intros m Hm. by rewrite lookup_empty.
Qed.

Lemma same_content_reads f g t u :
  readTranscript f = Ok t → readTranscript g = Ok u → same_content u t →
  Messages g = Messages f ∧ PinnedMessageIDs g = PinnedMessageIDs f.
Proof.
  intros Ef Eg (E1 & E2 & E3 & _). unfold Messages, PinnedMessageIDs. rewrite Ef, Eg. cbn [mbind res_bind]. by rewrite E1, E2, E3.
Qed.

(** What compaction would write can be encoded and read back. *)
Definition compactable (t : transcript) : Prop := ∀ rs, compacted t = Ok rs → Forall (λ r, encodable r ∧ short r) rs.

Lemma compacted_timely t rs : transcript_wf t → all_storable t → compacted t = Ok rs → Forall timely rs.
Proof.
  intros Hwf Hst H. unfold compacted in H. destruct (collect_Ok t Hwf) as (ms & Ec & Hids & HF). rewrite Ec in H.
  apply Ok_inj in H as <-. apply Forall_app. split; apply Forall_fmap, Forall_forall; [|done].
  intros m Hm. apply messageRecord_timely. apply list_elem_of_lookup in Hm as [i Hi].
  destruct (Forall2_lookup_r _ _ _ _ _ HF Hi) as (id & _ & Hl). by eapply Hst.
Qed.

Lemma compact_spec f rs t : chat f rs → readTranscript f = Ok t → transcript_wf t → all_storable t → compactable t →
  ∃ f' rs', maybeCompact f = Ok f' ∧ chat f' rs' ∧ Messages f' = Messages f ∧ PinnedMessageIDs f' = PinnedMessageIDs f.
Proof.
  intros Hc Et Hwf Hst Hok. unfold maybeCompact. rewrite Et. cbn [mbind res_bind].
  destruct (_ <=? _); [by exists f, rs|]. destruct (collect_Ok t Hwf) as (ms & Ec & _ & _).
  destruct (compacted t) as [rs'| |] eqn:E; [|by unfold compacted in E; rewrite Ec in E..]. cbn [mbind res_bind].
  assert (Forall rec_ok rs') as Hrec.
  { pose proof (compacted_timely _ _ Hwf Hst E) as H1. pose proof (Hok _ E) as H2. rewrite Forall_forall in H1, H2 |- *.
    intros r Hr. destruct (H2 r Hr). split_and!; auto. }
  exists (rewriteLog rs'), rs'. pose proof (chat_rewrite _ Hrec) as Hc'. split_and!; try done.
  all: destruct (replay_compacted t rs' Hwf Hst E) as (u & Eu & Hsame);
    assert (readTranscript (rewriteLog rs') = Ok u) as Eu' by (by rewrite (read_chat _ _ Hc')).
  all: by apply (same_content_reads _ _ t u).
Qed.

(** C32: compaction changes nothing that can be read.  For every log this client has
    written, whenever [maybeCompact] runs it succeeds, and afterwards the messages -- their
    order, contents, states, deliveries and attachments -- and the pins are the same. *)
Theorem compaction_transparent f rs t : chat f rs → readTranscript f = Ok t → compactable t →
  ∃ f', maybeCompact f = Ok f' ∧ Messages f' = Messages f ∧ PinnedMessageIDs f' = PinnedMessageIDs f.
Proof.
  intros Hc Et Hok. destruct (chat_read f rs Hc) as (t' & Et' & _ & Hwf & Hst). rewrite Et in Et'. injection Et' as <-.
  destruct (compact_spec f rs t) as (f' & rs' & H1 & _ & H2 & H3); [done..|]. by exists f'.
Qed.

(** ** The preview *)

(** Each message id is introduced once, by its message record. *)
Definition orderly (rs : list logRecord) : Prop :=
  ∀ pre r post, rs = pre ++ r :: post → T r = recMessage → Forall (λ x, RID x ≠ RID r) pre.

Lemma orderly_prefix rs r : orderly (rs ++ [r]) → orderly rs ∧ (T r = recMessage → Forall (λ x, RID x ≠ RID r) rs).
Proof.
  intros H. split.
  - intros pre x post -> HT. apply (H pre x (post ++ [r])); [by rewrite <- (assoc_L app)|done].
  - apply (H rs r []). done.
Qed.

(** Ids known to the transcript come from the log. *)
Lemma visit_known t r t' id : visit t r = Ok t' → is_Some (t_messages t' !! id) → is_Some (t_messages t !! id) ∨ id = RID r.
Proof.
  unfold visit. destruct (zlen (RID r) =? 0); [intros [= <-]; by left|]. set (t1 := mkTranscript _ _ _ _ _).
  assert (∀ f, is_Some (t_messages (change_message t1 (RID r) f) !! id) → is_Some (t_messages t !! id)) as Hch.
  { intros f. simpl. destruct (decide (id = RID r)) as [->|Hne]; [by rewrite lookup_alter_eq, fmap_is_Some|by rewrite lookup_alter_ne]. }
  destruct (T r =?b recMessage).
  { intros H. apply bind_Ok in H as (m & _ & H). apply Ok_inj in H as <-. simpl. rewrite lookup_insert_is_Some. naive_solver. }
  destruct (T r =?b recDelete).
  { intros [= <-]. destruct (present _); simpl; [rewrite lookup_delete_is_Some; naive_solver|by left]. }
  destruct (T r =?b recState); [intros [= <-] H; left; by eapply Hch|].
  destruct (T r =?b recAttach); [intros [= <-] H; left; by eapply Hch|].
  destruct (T r =?b recDelivery); [intros [= <-] H; left; by eapply Hch|].
  repeat case_match; intros [= <-]; by left.
Qed.
Lemma replay_known rs t id : replay empty_transcript rs = Ok t → is_Some (t_messages t !! id) → ∃ r, r ∈ rs ∧ RID r = id.
Proof.
  revert t. induction rs as [|r rs IH] using rev_ind; intros t H Hs; [injection H as <-; by destruct Hs|].
  rewrite replay_app in H. apply bind_Ok in H as (t1 & H1 & H). cbn [replay] in H. apply bind_Ok in H as (t2 & H2 & H). injection H as <-.
  destruct (visit_known _ _ _ _ H2 Hs) as [Hs1| ->].
  - destruct (IH _ H1 Hs1) as (x & Hx & <-). exists x. split; [apply elem_of_app; by left|done].
  - exists r. split; [apply elem_of_app; right; by apply list_elem_of_singleton|done].
Qed.

Lemma visit_order t r t' : transcript_wf t → visit t r = Ok t' → RID r ≠ [] →
  order t' = (if T r =?b recMessage then if present (t_messages t !! RID r) then order t else order t ++ [RID r]
              else if T r =?b recDelete then filter (λ i, i ≠ RID r) (order t) else order t).
Proof.
  intros Hwf H Hne. unfold visit in H. rewrite zlen_ne in H by done. cbn [t_messages order] in H.
  destruct (T r =?b recMessage).
  { apply bind_Ok in H as (m & _ & H). by apply Ok_inj in H as <-. }
  destruct (T r =?b recDelete).
  { injection H as <-. destruct (t_messages t !! RID r) as [m|] eqn:E; simpl; [by apply removeString_filter, Hwf|].
    symmetry. apply filter_all, Forall_forall. intros i Hi ->. apply Hwf in Hi. rewrite E in Hi. by destruct Hi. }
  repeat case_match; by simplify_eq/=.
Qed.

(** The newest message not deleted since is the last of the order. *)
Lemma last_in_order rs t D : orderly rs → replay empty_transcript rs = Ok t →
  last (filter (λ i, i ∉ D) (order t)) = RID <$> last_in D (reverse rs).
Proof.
  revert t D. induction rs as [|r rs IH] using rev_ind; intros t D Ho H; [by injection H as <-|].
  rewrite replay_app in H. apply bind_Ok in H as (t1 & H1 & H). cbn [replay] in H. apply bind_Ok in H as (t2 & H2 & H). injection H as <-.
  apply orderly_prefix in Ho as [Ho Hnew]. pose proof (replay_wf _ _ _ empty_wf H1) as Hwf. rewrite reverse_snoc. cbn [last_in].
  destruct (Z.eqb_spec (zlen (RID r)) 0) as [E|E].
  { unfold visit in H2. rewrite (proj2 (Z.eqb_eq _ _) E) in H2. injection H2 as <-. by apply IH. }
  assert (RID r ≠ []) as Hne by (intros E'; by rewrite E' in E). rewrite (visit_order _ _ _ Hwf H2 Hne).
  destruct (T r =?b recDelete) eqn:Ed.
  - apply eqb_true_1 in Ed. rewrite Ed. change (recDelete =?b recMessage) with false. cbv iota. rewrite <- (IH t1) by done.
    f_equal. rewrite list_filter_filter. apply list_filter_iff. intros i. set_solver.
  - destruct (T r =?b recMessage) eqn:Em; cbn [andb]; [|by apply IH].
    apply eqb_true_1 in Em. specialize (Hnew Em). rewrite Forall_forall in Hnew.
    destruct (t_messages t1 !! RID r) as [m|] eqn:Ek; cbn [present].
    { destruct (replay_known rs t1 (RID r) H1) as (x & Hx & Ex); [by eexists|]. by destruct (Hnew x Hx). }
    rewrite filter_app. case_bool_decide as HD; cbn [negb].
    + rewrite filter_cons_False by naive_solver. rewrite app_nil_r. by apply IH.
    + rewrite filter_cons_True, filter_nil, last_snoc by done. done.
Qed.

Lemma last_in_spec D rs r : last_in D rs = Some r → r ∈ rs ∧ T r = recMessage.
Proof.
  revert D. induction rs as [|x rs IH]; intros D H; [done|]. cbn [last_in] in H.
  assert (∀ D, last_in D rs = Some r → r ∈ x :: rs ∧ T r = recMessage) as IH' by (intros D' [? ?]%IH; split; [by right|done]).
  destruct (zlen (RID x) =? 0); [by eapply IH'|]. destruct (T x =?b recDelete); [by eapply IH'|].
  destruct (T x =?b recMessage) eqn:Em; cbn [andb] in H; [|by eapply IH'].
  destruct (bool_decide (RID x ∈ D)); cbn [negb] in H; [by eapply IH'|]. injection H as <-. split; [left|by apply eqb_true_1].
Qed.
Lemma last_in_app D rs rs' r : last_in D rs = Some r → last_in D (rs ++ rs') = Some r.
Proof.
  revert D. induction rs as [|x rs IH]; intros D H; [done|]. simpl in *. repeat (case_match; [by auto|]); by auto.
Qed.

(** Up to attachments and the detail of a failed delivery, which the preview leaves alone. *)
Definition preview_delivery (d : GroupDelivery) : GroupDelivery :=
  mkDelivery (GdAccountID d) (GdWireMessageID d) (GdState d) (GdError d) [] (GdSkipped d).
Definition preview (m : Message) : Message := with_attachments (with_deliveries m (preview_delivery <$> MDeliveries m)) [].
Definition distinct_accounts (m : Message) : Prop := NoDup (GdAccountID <$> MDeliveries m).

Lemma update_first_accounts r l : GdAccountID <$> update_first r l = GdAccountID <$> l.
Proof. induction l as [|d l IH]; [done|]. cbn [update_first]. destruct (_ =?b _); rewrite !fmap_cons; simpl; f_equal; done. Qed.
Lemma update_first_preview r l k : NoDup (GdAccountID <$> l) → preview_delivery <$> l = preview_delivery <$> k →
  preview_delivery <$> update_first r l
  = preview_delivery <$> ((λ d, if GdAccountID d =?b RAccountID r then update_delivery false r d else d) <$> k).
Proof.
  revert k. induction l as [|d l IH]; intros k Hnd E; [by destruct k|]. destruct k as [|e k]; [done|].
  rewrite !fmap_cons in *. injection E as E1 E2 E3 E4 E5 E. apply NoDup_cons in Hnd as [Hd Hnd]. cbn [update_first]. rewrite <- E1.
  destruct (GdAccountID d =?b RAccountID r) eqn:Eq.
  - apply eqb_true_1 in Eq. rewrite fmap_cons. f_equal.
    + unfold preview_delivery, update_delivery. simpl. by rewrite E1, E2.
    + clear IH. rewrite E. revert l Hd Hnd E. induction k as [|x k IHk]; intros l Hd Hnd E; [done|]. destruct l as [|y l]; [done|].
      rewrite !fmap_cons in *. injection E as F1 F2 F3 F4 F5 F. rewrite not_elem_of_cons in Hd. destruct Hd as [Hy Hd].
      apply NoDup_cons in Hnd as [_ Hnd]. f_equal; [|by apply (IHk l)].
      destruct (GdAccountID x =?b RAccountID r) eqn:Ex; [|done]. apply eqb_true_1 in Ex. by rewrite <- F1, <- Eq in Ex.
  - rewrite fmap_cons. f_equal; [|by apply IH]. unfold preview_delivery. by rewrite E1, E2, E3, E4, E5.
Qed.

Lemma later_change_id m r : MID (later_change m r) = MID m.
Proof. unfold later_change. by repeat case_match. Qed.
Lemma later_changes_id m rs : MID (foldl later_change m rs) = MID m.
Proof. revert m. induction rs as [|r rs IH]; intros m; [done|]. simpl. by rewrite IH, later_change_id. Qed.
Lemma later_changes_skip m rs : Forall (λ r, RID r ≠ MID m) rs → foldl later_change m rs = m.
Proof.
  induction 1 as [|r rs Hr HF IH]; [done|]. cbn [foldl].
  assert (later_change m r = m) as ->; [|done]. unfold later_change. by rewrite (proj2 (eqb_false _ _)).
Qed.

Lemma visit_other t r t' id : visit t r = Ok t' → RID r ≠ id → t_messages t' !! id = t_messages t !! id.
Proof.
  unfold visit. intros H Hne. destruct (zlen (RID r) =? 0); [by injection H as <-|]. cbn [t_messages] in H.
  destruct (T r =?b recMessage).
  { apply bind_Ok in H as (m & _ & H). apply Ok_inj in H as <-. simpl. by rewrite lookup_insert_ne. }
  destruct (T r =?b recDelete).
  { injection H as <-. destruct (present _); simpl; [by rewrite lookup_delete_ne|done]. }
  destruct (T r =?b recState); [injection H as <-; simpl; by rewrite lookup_alter_ne|].
  destruct (T r =?b recAttach); [injection H as <-; simpl; by rewrite lookup_alter_ne|].
  destruct (T r =?b recDelivery); [injection H as <-; simpl; by rewrite lookup_alter_ne|].
  repeat case_match; by injection H as <-.
Qed.

(** A change to a message, in the replay and in the preview. *)
Lemma visit_change t r t' m m' n :
  visit t r = Ok t' → T r ≠ recMessage → t_messages t !! RID r = Some m → t_messages t' !! RID r = Some m' → RID r ≠ [] →
  distinct_accounts m → MID n = RID r → preview m = preview n →
  preview m' = preview (later_change n r) ∧ distinct_accounts m'.
Proof.
  intros H Hnm Hm Hm' Hne Hda Hid Hpv. unfold visit in H. rewrite zlen_ne in H by done. cbn [t_messages] in H.
  rewrite (proj2 (eqb_false _ _) Hnm), Hm in H. unfold later_change. rewrite Hid, eqb_refl. cbn [negb].
  pose proof Hpv as Hpv'. unfold preview in Hpv'. destruct m as [a1 a2 a3 a4 a5 a6 a7 a8 a9 a10 a11 a12 a13 a14], n as [b1 b2 b3 b4 b5 b6 b7 b8 b9 b10 b11 b12 b13 b14].
  unfold with_attachments, with_deliveries in Hpv'. simpl in Hpv'.
  injection Hpv' as F1 F2 F3 F4 F5 F6 F7 F8 F9 F10 F11 F12 F14.
  destruct (T r =?b recDelete) eqn:Ed.
  { injection H as <-. simpl in Hm'. by rewrite lookup_delete_eq in Hm'. }
  destruct (T r =?b recState) eqn:Es.
  { injection H as <-. simpl in Hm'. rewrite lookup_alter_eq, Hm in Hm'. injection Hm' as <-. split; [|done].
    unfold preview, with_attachments, with_deliveries, with_state. simpl. by f_equal. }
  destruct (T r =?b recAttach) eqn:Ea.
  { injection H as <-. simpl in Hm'. rewrite lookup_alter_eq, Hm in Hm'. injection Hm' as <-. apply eqb_true_1 in Ea. rewrite Ea.
    change (recAttach =?b recDelivery) with false. cbv iota. split; [|done].
    unfold preview, with_attachments, with_deliveries. simpl. by f_equal. }
  destruct (T r =?b recDelivery) eqn:Ev.
  { injection H as <-. simpl in Hm'. rewrite lookup_alter_eq, Hm in Hm'. injection Hm' as <-. split.
    - unfold preview, with_attachments, with_deliveries. simpl. f_equal; try done. by apply update_first_preview.
    - unfold distinct_accounts, with_deliveries in *. simpl in *. by rewrite update_first_accounts. }
  assert (t_messages t' = t_messages t) as Et by (repeat case_match; by simplify_eq/=).
  rewrite Et, Hm in Hm'. injection Hm' as <-. done.
Qed.

Lemma replay_content rs t r0 m0 m : orderly rs → replay empty_transcript rs = Ok t → r0 ∈ rs → T r0 = recMessage →
  toMessage r0 = Ok m0 → distinct_accounts m0 → t_messages t !! RID r0 = Some m →
  preview m = preview (foldl later_change m0 rs) ∧ distinct_accounts m.
Proof.
  revert t m. induction rs as [|r rs IH] using rev_ind; intros t m Ho H Hin HT Hm0 Hda Hm; [by apply elem_of_nil in Hin|].
  rewrite replay_app in H. apply bind_Ok in H as (t1 & H1 & H). cbn [replay] in H. apply bind_Ok in H as (t2 & H2 & H). injection H as <-.
  apply orderly_prefix in Ho as [Ho Hnew]. pose proof (toMessage_id _ _ Hm0) as Eid. pose proof (replay_wf _ _ _ empty_wf H1) as Hwf.
  pose proof (visit_wf _ _ _ Hwf H2) as Hwf2.
  assert (RID r0 ≠ []) as Hne0. { apply (tw_ne _ Hwf2), (tw_known _ Hwf2). by eexists. }
  rewrite foldl_app. cbn [foldl].
  apply elem_of_app in Hin as [Hr0| ->%list_elem_of_singleton].
  - destruct (decide (RID r = RID r0)) as [Er|Er].
    + assert (T r ≠ recMessage) as Hnm.
      { intros Em. specialize (Hnew Em). rewrite Forall_forall in Hnew. by apply (Hnew r0 Hr0). }
      destruct (t_messages t1 !! RID r0) as [m1|] eqn:Em1.
      2:{ exfalso. rewrite <- Er in *.
          assert (RID r ∈ order t2) as Hin2 by (apply Hwf2; by eexists).
          rewrite (visit_order t1 r t2 Hwf H2 Hne0) in Hin2. rewrite (proj2 (eqb_false _ _) Hnm) in Hin2.
          assert (RID r ∉ order t1) as Hno by (rewrite (tw_known _ Hwf), Em1; by intros []).
          destruct (T r =?b recDelete); [apply list_elem_of_filter in Hin2 as [? ?]|]; done. }
      destruct (IH t1 m1 Ho H1 Hr0 HT Hm0 Hda Em1) as [Hp Hd]. rewrite <- Er in *.
      eapply visit_change; try done. by rewrite later_changes_id, Eid.
    + rewrite (visit_other _ _ _ _ H2 Er) in Hm. destruct (IH t1 m Ho H1 Hr0 HT Hm0 Hda Hm) as [Hp Hd]. split; [|done].
      rewrite Hp. f_equal. unfold later_change at 2. rewrite later_changes_id, Eid. by rewrite (proj2 (eqb_false _ _)).
  - specialize (Hnew HT).
    rewrite later_changes_skip by (by rewrite Eid).
    assert (later_change m0 r = m0) as ->.
    { unfold later_change. rewrite HT. change (recMessage =?b recState) with false. change (recMessage =?b recDelivery) with false. by case_match. }
    unfold visit in H2. rewrite zlen_ne, HT, eqb_refl, Hm0 in H2 by done. cbn [mbind res_bind] in H2. apply Ok_inj in H2 as <-.
    simpl in Hm. rewrite lookup_insert_eq in Hm. by injection Hm as <-.
Qed.

Lemma decoded_marshal rs : Forall rec_ok rs → decoded (json_Marshal <$> rs) = rs.
Proof.
  induction 1 as [|r rs (He & _) HF IH]; [done|]. unfold decoded in *. rewrite fmap_cons. cbn [omap list_omap].
  by rewrite unmarshal_marshal, IH by done.
Qed.

Lemma last_collected t ms : Forall2 (λ id m, t_messages t !! id = Some m) (order t) ms →
  last ms = (id ← last (order t); t_messages t !! id).
Proof.
  intros HF. destruct (last (order t)) as [id|] eqn:E; cbn [mbind option_bind].
  - rewrite last_lookup in E. destruct (Forall2_lookup_l _ _ _ _ _ HF E) as (m & Hm & ->). by rewrite last_lookup, <- (Forall2_length _ _ _ HF).
  - apply last_None in E. rewrite E in HF. by apply Forall2_nil_inv_l in HF as ->.
Qed.

(** Changes before the window do not concern a message in it. *)
Lemma window_changes rs k r m : orderly rs → r ∈ drop k rs → T r = recMessage → MID m = RID r →
  foldl later_change m (drop k rs) = foldl later_change m rs.
Proof.
  intros Ho Hr HT Hid. rewrite <- (take_drop k rs) at 2. rewrite foldl_app. f_equal. symmetry. apply later_changes_skip.
  apply list_elem_of_split in Hr as (a & b & Eab).
  assert (Forall (λ x, RID x ≠ RID r) (take k rs ++ a)) as HF.
  { apply (Ho _ r b); [|done]. rewrite <- (assoc_L app), <- Eab. by rewrite take_drop. }
  apply Forall_app in HF as [HF _]. by rewrite Hid.
Qed.

(** The chat list shows the last message.  For a log this client has written, in which
    every message id is introduced once and every message goes to distinct recipients,
    [LastMessage] -- which reads a window at the end of the file only -- is the last message
    of the whole transcript, with its current state and deliveries (attachments and the
    diagnostic detail of failed deliveries apart). *)
Theorem last_message_of_tail f rs :
  chat f rs → orderly rs → (∀ r m, r ∈ rs → toMessage r = Ok m → distinct_accounts m) →
  ∃ ms o, Messages f = Ok ms ∧ LastMessage f = Ok o ∧ preview <$> o = preview <$> last ms.
Proof.
  intros Hc Ho Hda. destruct (chat_read f rs Hc) as (t & Et & Er & Hwf & Hst).
  destruct (collect_Ok t Hwf) as (ms & Ec & Hids & HF). pose proof (last_collected t ms HF) as Elast.
  exists ms. unfold Messages, LastMessage. rewrite Et. cbn [mbind res_bind]. rewrite Ec.
  destruct (tailLines_intact f _ (proj1 Hc)) as [k ->]. rewrite <- fmap_drop, <- fmap_reverse.
  set (w := drop k rs). assert (Forall rec_ok w) as Hw by apply Forall_drop, Hc.
  rewrite decoded_marshal by (by apply Forall_reverse).
  destruct (if negb _ then last_in ∅ (reverse w) else None) as [r|] eqn:El.
  - destruct (negb _) in El; [|done]. destruct (last_in_spec _ _ _ El) as [Hr HT]. rewrite elem_of_reverse in Hr.
    assert (r ∈ rs) as Hrs by (rewrite <- (take_drop k rs); apply elem_of_app; by right).
    destruct (timely_message r) as (m0 & Hm0 & _); [|done|].
    { destruct Hc as [_ HF']. rewrite Forall_forall in HF'. by apply HF'. }
    rewrite Hm0. cbn [mbind res_bind]. eexists. split; [done|]. split; [done|].
    assert (last (order t) = Some (RID r)) as Elo.
    { pose proof (last_in_order rs t ∅ Ho Er) as E. rewrite filter_all in E by (apply Forall_forall; set_solver).
      rewrite E. rewrite <- (take_drop k rs), reverse_app. by rewrite (last_in_app _ _ _ _ El). }
    rewrite Elast, Elo. cbn [mbind option_bind].
    destruct (t_messages t !! RID r) as [m|] eqn:Em.
    2:{ apply last_Some_elem_of, (tw_known _ Hwf) in Elo as [? ?]. congruence. }
    cbn [fmap option_fmap option_map]. f_equal. unfold applyLaterChanges. rewrite <- fmap_reverse, reverse_involutive, decoded_marshal by done.
    unfold w. rewrite (window_changes rs k r m0) by (done || by apply toMessage_id).
    symmetry. by apply (replay_content rs t r m0 m Ho Er Hrs HT Hm0 (Hda r m0 Hrs Hm0)).
  - destruct (last (order t)) as [id|] eqn:Elo; cbn [mbind option_bind] in Elast.
    + apply last_Some_elem_of, (tw_known _ Hwf) in Elo as [m Hm]. rewrite Hm in *. exists (Some m). by rewrite Elast.
    + exists None. by rewrite Elast.
Qed.
End files.

(** ** What each operation does to the transcript, and what a restart settles

    The effect of every write on the messages read afterwards, and of
    [failInFlightSends] on what a process left pending when it died. *)

Lemma collect_Forall2 M ids ms : collect M ids = Ok ms ↔ Forall2 (λ id m, M !! id = Some m) ids ms.
Proof.
  split.
  - revert ms. induction ids as [|id ids IH]; intros ms H; cbn [collect] in H; [injection H as <-; constructor|].
    destruct (M !! id) as [m|] eqn:E; [|done]. apply bind_Ok in H as (l & Hl & H). apply Ok_inj in H as <-. constructor; [done|by apply IH].
  - induction 1 as [|id m ids ms Hm HF IH]; [done|]. cbn [collect]. by rewrite Hm, IH.
Qed.

(** Changing one message. *)
Definition at_id (id : bytes) (g : Message → Message) (m : Message) : Message := if MID m =?b id then g m else m.
Lemma collect_alter t id g ms : transcript_wf t → collect (t_messages t) (order t) = Ok ms →
  collect (alter g id (t_messages t)) (order t) = Ok (at_id id g <$> ms).
Proof.
  intros Hwf. rewrite !collect_Forall2. intros HF. apply Forall2_fmap_r. eapply Forall2_impl; [exact HF|]. intros i m Hm. cbv beta in *. unfold compose, at_id.
  rewrite (tw_id _ Hwf _ _ Hm). destruct (i =?b id) eqn:E.
  - apply eqb_true_1 in E as ->. by rewrite lookup_alter_eq, Hm.
  - apply eqb_false in E. by rewrite lookup_alter_ne.
Qed.

Section files.
Context {J : Json logRecord}.

(** Appending one record to a log this client has written: what is read afterwards. *)
Lemma append_reads f rs t r t' : chat f rs → readTranscript f = Ok t → rec_ok r → visit t r = Ok t' →
  ∃ f', appendRecord f r = (f', Ok ()) ∧ chat f' (rs ++ [r]) ∧ readTranscript f' = Ok t'.
Proof.
  intros Hc Et Hr Hv. destruct (chat_append f rs r Hc Hr) as (f' & E & Hc'). exists f'. split_and!; [done|done|].
  rewrite (read_chat _ _ Hc'), replay_app, <- (read_chat _ _ Hc), Et. cbn [mbind res_bind replay]. by rewrite Hv.
Qed.

Lemma messages_of f t ms : readTranscript f = Ok t → Messages f = Ok ms ↔ collect (t_messages t) (order t) = Ok ms.
Proof. intros E. unfold Messages. by rewrite E. Qed.

(** A change record. *)
Lemma change_reads f rs ms r g : chat f rs → Messages f = Ok ms → rec_ok r → RID r ≠ [] →
  (∀ t, visit t r = Ok (change_message (mkTranscript (order t) (t_messages t) (pins t) (pinned t) (records t + 1)) (RID r) g)) →
  ∃ f', appendRecord f r = (f', Ok ()) ∧ chat f' (rs ++ [r]) ∧ Messages f' = Ok (at_id (RID r) g <$> ms).
Proof.
  intros Hc Hms Hr Hne Hv. destruct (chat_read f rs Hc) as (t & Et & _ & Hwf & _).
  destruct (append_reads f rs t r _ Hc Et Hr (Hv t)) as (f' & E & Hc' & Et'). exists f'. split_and!; [done|done|].
  rewrite (messages_of _ _ _ Et) in Hms. rewrite (messages_of _ _ _ Et'). simpl. by apply collect_alter.
Qed.

Lemma visit_state t id st : id ≠ [] → visit t (state_rec id st) =
  Ok (change_message (mkTranscript (order t) (t_messages t) (pins t) (pinned t) (records t + 1)) id (λ m, with_state m st)).
Proof. intros H. unfold visit. simpl. by rewrite zlen_ne. Qed.
Lemma visit_attach t id l : id ≠ [] → visit t (attach_rec id l) =
  Ok (change_message (mkTranscript (order t) (t_messages t) (pins t) (pinned t) (records t + 1)) id (λ m, with_attachments m l)).
Proof. intros H. unfold visit. simpl. by rewrite zlen_ne. Qed.
Lemma visit_delivery t id a st e dt sk w : id ≠ [] → visit t (delivery_rec id a st e dt sk w) =
  Ok (change_message (mkTranscript (order t) (t_messages t) (pins t) (pinned t) (records t + 1)) id
        (λ m, with_deliveries m (update_first (delivery_rec id a st e dt sk w) (MDeliveries m)))).
Proof. intros H. unfold visit. simpl. by rewrite zlen_ne. Qed.

Lemma not_message_timely r : T r ≠ recMessage → timely r.
Proof. by intros H E. Qed.

(** A message as it reads back. *)
Definition stored (m : Message) : Message :=
  mkMsg (MID m) (MText m) (MMine m) (utc (MTimestamp m)) (utc <$> MSenderSentAt m) (MSenderAccountID m) (MReplyToID m) (MReplyText m)
    (MReplyMine m) (MReplyAuthorID m) (if zlen (MKind m) =? 0 then MessageNormal else MKind m)
    (if zlen (MSendState m) =? 0 then SendSent else MSendState m) (MAttachments m) (MDeliveries m).
Definition fits (r : logRecord) : Prop := encodable r ∧ short r.
Definition message_times_ok (m : Message) : Prop := time_ok (MTimestamp m) ∧ ∀ t, MSenderSentAt m = Some t → time_ok t.

(** The record [AppendMessage] writes. *)
Definition appended (m : Message) : logRecord := messageRecord
  (mkMsg (MID m) (MText m) (MMine m) (MTimestamp m) (MSenderSentAt m) (MSenderAccountID m) (MReplyToID m) (MReplyText m)
     (MReplyMine m) (MReplyAuthorID m) (if zlen (MKind m) =? 0 then MessageNormal else MKind m)
     (if zlen (MSendState m) =? 0 then SendSent else MSendState m) (MAttachments m) (MDeliveries m)).
Lemma appended_reads m : message_times_ok m → toMessage (appended m) = Ok (stored m) ∧ timely (appended m).
Proof.
  intros [H1 H2]. split.
  - unfold toMessage. change (RTimestamp (appended m)) with (rfc3339_nano (MTimestamp m)).
    change (RSenderSentAt (appended m)) with (formatTime (MSenderSentAt m)). rewrite parse_nano by done. cbn [Prelude.from_option mbind res_bind]. by rewrite parseTime_format.
  - intros _. by exists (MTimestamp m), (MSenderSentAt m).
Qed.

Lemma AppendMessage_spec f rs ms m : chat f rs → Messages f = Ok ms → MID m ≠ [] → MID m ∉ MID <$> ms →
  message_times_ok m → fits (appended m) →
  ∃ f', AppendMessage f m = (f', Ok ()) ∧ chat f' (rs ++ [appended m]) ∧ Messages f' = Ok (ms ++ [stored m]).
Proof.
  intros Hc Hms Hne Hnew Ht [Hf1 Hf2]. destruct (chat_read f rs Hc) as (t & Et & _ & Hwf & _).
  destruct (appended_reads m Ht) as [Hm Htm]. unfold AppendMessage. rewrite zlen_ne by done.
  rewrite (messages_of _ _ _ Et) in Hms. pose proof (proj1 (collect_Forall2 _ _ _) Hms) as HF.
  assert (order t = MID <$> ms) as Eo. { destruct (collect_Ok t Hwf) as (ms' & E & <- & _). rewrite Hms in E. by injection E as ->. }
  assert (t_messages t !! MID m = None) as Hn by (apply eq_None_not_Some; by rewrite <- (tw_known _ Hwf), Eo).
  destruct (append_reads f rs t (appended m)
    (mkTranscript (order t ++ [MID m]) (<[MID m := stored m]> (t_messages t)) (pins t) (pinned t) (records t + 1)) Hc Et)
    as (f' & E & Hc' & Et'); [done| |].
  { unfold visit. change (RID (appended m)) with (MID m). change (T (appended m)) with recMessage. rewrite zlen_ne, eqb_refl, Hm by done.
    cbn [mbind res_bind t_messages]. by rewrite Hn. }
  exists f'. split_and!; [done|done|]. rewrite (messages_of _ _ _ Et'). simpl. apply collect_Forall2, Forall2_app.
  - eapply Forall2_impl; [exact HF|]. intros i x Hx. cbv beta. rewrite lookup_insert_ne; [done|]. intros <-. congruence.
  - constructor; [by rewrite lookup_insert_eq|constructor].
Qed.

(** What compaction writes: the messages, then the pins. *)
Lemma compactable_by t ms : collect (t_messages t) (order t) = Ok ms → Forall (λ m, fits (messageRecord m)) ms →
  Forall (λ id, fits (pin_rec id true)) (pins t) → compactable t.
Proof.
  intros Hms H1 H2 rs H. unfold compacted in H. rewrite Hms in H. apply Ok_inj in H as <-.
  apply Forall_app. split; by apply Forall_fmap.
Qed.

Lemma removeString_subset l x y : y ∈ removeString l x → y ∈ l.
Proof.
  induction l as [|z l IH]; simpl; [done|]. rewrite elem_of_cons. destruct (z =?b x); [by right|]. rewrite elem_of_cons. naive_solver.
Qed.

Lemma DeleteMessage_spec f rs ms ps id : chat f rs → Messages f = Ok ms → PinnedMessageIDs f = Ok ps → id ≠ [] →
  fits (blank recDelete id) → Forall (λ m, fits (messageRecord m)) ms → Forall (λ i, fits (pin_rec i true)) ps →
  ∃ f' rs', DeleteMessage f id = Ok f' ∧ chat f' rs' ∧ Messages f' = Ok (filter (λ m, MID m ≠ id) ms).
Proof.
  intros Hc Hms Hps Hne [Hf1 Hf2] Hfm Hfp. destruct (chat_read f rs Hc) as (t & Et & _ & Hwf & Hst).
  rewrite (messages_of _ _ _ Et) in Hms. pose proof (proj1 (collect_Forall2 _ _ _) Hms) as HF.
  unfold PinnedMessageIDs in Hps. rewrite Et in Hps. injection Hps as <-.
  destruct (visit_storable t (blank recDelete id) Hst) as (t' & Ev & Hst'); [by apply not_message_timely|].
  pose proof (visit_wf _ _ _ Hwf Ev) as Hwf'. destruct (append_reads f rs t (blank recDelete id) t' Hc Et) as (f1 & E1 & Hc1 & Et1); [|done|].
  { split_and!; [done|done|by apply not_message_timely]. }
  assert (collect (t_messages t') (order t') = Ok (filter (λ m, MID m ≠ id) ms)) as Hm1.
  { apply collect_Forall2. rewrite (visit_order _ _ _ Hwf Ev) by done. simpl. clear Hms Hfm.
    revert HF. generalize (order t). induction 1 as [|i m ids ms' Hm HF IH]; [constructor|].
    pose proof (tw_id _ Hwf _ _ Hm) as Ei. destruct (decide (i = id)) as [Hd|Hd].
    - rewrite !filter_cons_False by (rewrite ?Ei; naive_solver). exact IH.
    - rewrite !filter_cons_True by (rewrite ?Ei; naive_solver). constructor; [|exact IH].
      rewrite (visit_other _ _ _ _ Ev); [done|]. simpl. congruence. }
  assert (∀ i, i ∈ pins t' → i ∈ pins t) as Hpin.
  { intros i. unfold visit in Ev. simpl in Ev. rewrite zlen_ne in Ev by done. injection Ev as <-. destruct (present _); [|done].
    apply removeString_subset. }
  assert (compactable t') as Hok.
  { apply (compactable_by t' _ Hm1); apply Forall_forall; rewrite Forall_forall in Hfm; rewrite Forall_forall in Hfp.
    - intros m [_ Hm]%list_elem_of_filter. by apply Hfm.
    - intros i Hi. by apply Hfp, Hpin. }
  unfold DeleteMessage. rewrite E1. destruct (compact_spec f1 _ t' Hc1 Et1 Hwf' Hst' Hok) as (f' & rs' & H1 & H2 & H3 & _).
  exists f', rs'. split_and!; [done|done|]. by rewrite H3, (messages_of _ _ _ Et1).
Qed.

(** Each write does what it says.  On a log this client has written: appending a new
    message puts it last, as it reads back from storage; a state, attachment or delivery
    change alters that one message and nothing else; deleting removes that one message,
    whether or not the log is compacted on the way; and none of them fails. *)
Theorem transcript_operations f rs ms ps : chat f rs → Messages f = Ok ms → PinnedMessageIDs f = Ok ps →
  (∀ m, MID m ≠ [] → MID m ∉ MID <$> ms → message_times_ok m → fits (appended m) →
     ∃ f', AppendMessage f m = (f', Ok ()) ∧ Messages f' = Ok (ms ++ [stored m])) ∧
  (∀ id st, id ≠ [] → fits (state_rec id st) →
     ∃ f', SetMessageSendState f id st = (f', Ok ()) ∧ Messages f' = Ok (at_id id (λ m, with_state m st) <$> ms)) ∧
  (∀ id l, id ≠ [] → fits (attach_rec id l) →
     ∃ f', SetMessageAttachments f id l = (f', Ok ()) ∧ Messages f' = Ok (at_id id (λ m, with_attachments m l) <$> ms)) ∧
  (∀ id d, let r := delivery_rec id (GdAccountID d) (GdState d) (truncateReason (GdError d)) (truncateReason (GdDetail d))
                      (GdSkipped d) (GdWireMessageID d) in
     id ≠ [] → fits r →
     ∃ f', SetGroupDelivery f id d = (f', Ok ()) ∧
       Messages f' = Ok (at_id id (λ m, with_deliveries m (update_first r (MDeliveries m))) <$> ms)) ∧
  (∀ id, id ≠ [] → fits (blank recDelete id) → Forall (λ m, fits (messageRecord m)) ms → Forall (λ i, fits (pin_rec i true)) ps →
     ∃ f', DeleteMessage f id = Ok f' ∧ Messages f' = Ok (filter (λ m, MID m ≠ id) ms)).
Proof.
  intros Hc Hms Hps. split_and!.
  - intros m H1 H2 H3 H4. destruct (AppendMessage_spec f rs ms m) as (f' & E & _ & ?); [done..|]. by exists f'.
  - intros id st Hne [H1 H2]. destruct (change_reads f rs ms (state_rec id st) (λ m, with_state m st)) as (f' & E & _ & ?);
      [done|done|split_and!; [done..|by apply not_message_timely]|done|intros t; by apply visit_state|]. by exists f'.
  - intros id l Hne [H1 H2]. destruct (change_reads f rs ms (attach_rec id l) (λ m, with_attachments m l)) as (f' & E & _ & ?);
      [done|done|split_and!; [done..|by apply not_message_timely]|done|intros t; by apply visit_attach|]. by exists f'.
  - intros id d r Hne [H1 H2]. destruct (change_reads f rs ms r (λ m, with_deliveries m (update_first r (MDeliveries m)))) as (f' & E & _ & ?);
      [done|done|split_and!; [done..|by apply not_message_timely]|done|intros t; by apply visit_delivery|]. by exists f'.
  - intros id H1 H2 H3 H4. destruct (DeleteMessage_spec f rs ms ps id) as (f' & rs' & E & _ & ?); [done..|]. by exists f'.
Qed.

(** ** What a restart settles *)

Definition settle_delivery (d : GroupDelivery) : GroupDelivery :=
  if GdState d =?b SendPending then mkDelivery (GdAccountID d) (GdWireMessageID d) SendFailed [] [] false else d.
Definition settle (m : Message) : Message :=
  with_deliveries (if MSendState m =?b SendPending then with_state m SendFailed else m) (settle_delivery <$> MDeliveries m).

Definition fail_rec (id : bytes) (d : GroupDelivery) : logRecord := delivery_rec id (GdAccountID d) SendFailed [] [] false [].
Lemma update_first_app r a l : RAccountID r ∉ GdAccountID <$> a → update_first r (a ++ l) = a ++ update_first r l.
Proof.
  induction a as [|d a IH]; [done|]. rewrite fmap_cons, not_elem_of_cons. intros [Hd Ha]. cbn [app update_first].
  rewrite (proj2 (eqb_false _ _)) by congruence. by rewrite IH.
Qed.
Lemma settle_all id l a : NoDup (GdAccountID <$> (a ++ l)) →
  foldl (λ cur d, update_first (fail_rec id d) cur) (a ++ l) (filter (λ d, GdState d = SendPending) l) = a ++ (settle_delivery <$> l).
Proof.
  revert a. induction l as [|d l IH]; intros a Hnd; [done|]. rewrite fmap_cons.
  assert (∀ d', GdAccountID d' = GdAccountID d → NoDup (GdAccountID <$> ((a ++ [d']) ++ l))) as Hnd'.
  { intros d' E. rewrite fmap_app in Hnd. rewrite !fmap_app, <- (assoc_L app). simpl in *. by rewrite E. }
  assert (settle_delivery d = if decide (GdState d = SendPending) then mkDelivery (GdAccountID d) (GdWireMessageID d) SendFailed [] [] false else d) as Es.
  { unfold settle_delivery, eqb. by repeat case_decide; rewrite ?bool_decide_true, ?bool_decide_false by done. }
  destruct (decide (GdState d = SendPending)) as [Hp|Hp].
  - rewrite filter_cons_True by done. cbn [foldl]. rewrite update_first_app.
    2:{ rewrite fmap_app in Hnd. apply NoDup_app in Hnd as (_ & Hd & _). intros Hin. apply (Hd _ Hin). rewrite fmap_cons. left. }
    cbn [update_first]. simpl. rewrite eqb_refl. rewrite Es. rewrite (cons_middle _ a), (assoc_L app). rewrite IH by by apply Hnd'.
    by rewrite <- (assoc_L app).
  - rewrite filter_cons_False by done. rewrite Es. rewrite (cons_middle d a l), (assoc_L app), IH by by apply Hnd'. by rewrite <- (assoc_L app).
Qed.

(** [u] is [t] with the messages at the ids of [ms] replaced by [ms]. *)
Definition replaced (t u : transcript) (ms : list Message) : Prop :=
  order u = order t ∧ pins u = pins t ∧ pinned u = pinned t ∧ t_messages u = put (t_messages t) ms.

Lemma change_replaced t t1 id g m : t_messages t !! id = Some m → MID (g m) = id → order t1 = order t → pins t1 = pins t →
  pinned t1 = pinned t → t_messages t1 = t_messages t → replaced t (change_message t1 id g) [g m].
Proof.
  intros Hm Hid E1 E2 E3 E4. split_and!; simpl; try done. unfold put. simpl. rewrite E4, Hid. apply map_eq. intros i.
  destruct (decide (i = id)) as [->|Hne]; [by rewrite lookup_alter_eq, Hm, lookup_insert_eq|by rewrite lookup_alter_ne, lookup_insert_ne].
Qed.

Lemma visit_fail t id d : id ≠ [] → visit t (fail_rec id d) =
  Ok (change_message (mkTranscript (order t) (t_messages t) (pins t) (pinned t) (records t + 1)) id
        (λ m, with_deliveries m (update_first (fail_rec id d) (MDeliveries m)))).
Proof. apply visit_delivery. Qed.

Lemma replay_deliveries ds t m : t_messages t !! MID m = Some m → MID m ≠ [] →
  ∃ u, replay t (fail_rec (MID m) <$> ds) = Ok u ∧
    replaced t u [with_deliveries m (foldl (λ cur d, update_first (fail_rec (MID m) d) cur) (MDeliveries m) ds)].
Proof.
  revert t m. induction ds as [|d ds IH]; intros t m Hm Hne.
  { exists t. split; [done|]. split_and!; try done. unfold put. simpl. rewrite insert_id; [done|]. rewrite Hm. by destruct m. }
  rewrite fmap_cons. cbn [replay foldl]. rewrite visit_fail by done. cbn [mbind res_bind].
  set (t1 := change_message _ _ _). set (m1 := with_deliveries m (update_first (fail_rec (MID m) d) (MDeliveries m))).
  assert (replaced t t1 [m1]) as (E1 & E2 & E3 & E4)
    by (by apply (change_replaced _ _ _ (λ m0, with_deliveries m0 (update_first (fail_rec (MID m) d) (MDeliveries m0))) m)).
  destruct (IH t1 m1) as (u & Eu & F1 & F2 & F3 & F4).
  - rewrite E4. unfold put. simpl. by rewrite lookup_insert_eq.
  - done.
  - exists u. split; [done|]. split_and!; [by rewrite F1|by rewrite F2|by rewrite F3|]. rewrite F4, E4. unfold put. simpl.
    by rewrite insert_insert_eq.
Qed.

Lemma replay_fail t m : t_messages t !! MID m = Some m → MID m ≠ [] → distinct_accounts m →
  ∃ u, replay t (fail_records m) = Ok u ∧ replaced t u [settle m].
Proof.
  intros Hm Hne Hda. unfold fail_records. rewrite replay_app. fold (fail_rec (MID m)).
  assert (∃ t1, replay t (if MSendState m =?b SendPending then [state_rec (MID m) SendFailed] else []) = Ok t1 ∧
    replaced t t1 [if MSendState m =?b SendPending then with_state m SendFailed else m]) as (t1 & -> & E1 & E2 & E3 & E4).
  { destruct (MSendState m =?b SendPending).
    - cbn [replay]. rewrite visit_state by done. cbn [mbind res_bind]. eexists. split; [done|]. by apply (change_replaced _ _ _ (λ m, with_state m SendFailed)).
    - exists t. split; [done|]. split_and!; try done. unfold put. simpl. by rewrite insert_id. }
  cbn [mbind res_bind]. set (m1 := if MSendState m =?b SendPending then with_state m SendFailed else m) in *.
  assert (MID m1 = MID m) as Eid by (unfold m1; by destruct (_ =?b _)).
  assert (MDeliveries m1 = MDeliveries m) as Ede by (unfold m1; by destruct (_ =?b _)).
  destruct (replay_deliveries (filter (λ d, GdState d = SendPending) (MDeliveries m)) t1 m1) as (u & Eu & F1 & F2 & F3 & F4).
  - rewrite E4, Eid. unfold put. simpl. by rewrite Eid, lookup_insert_eq.
  - by rewrite Eid.
  - exists u. rewrite <- Eid. split; [done|]. split_and!; [by rewrite F1|by rewrite F2|by rewrite F3|]. rewrite F4, E4.
    assert (with_deliveries m1 (foldl (λ cur d, update_first (fail_rec (MID m1) d) cur) (MDeliveries m1)
              (filter (λ d, GdState d = SendPending) (MDeliveries m))) = settle m) as ->.
    { rewrite Ede. pose proof (settle_all (MID m1) (MDeliveries m) [] Hda) as E. cbn [app] in E. by rewrite E. }
    unfold put. cbn [foldl]. assert (MID (settle m) = MID m1) as -> by (unfold settle; fold m1; done). by rewrite insert_insert_eq.
Qed.

Lemma settle_id m : MID (settle m) = MID m.
Proof. unfold settle. by destruct (_ =?b _). Qed.

Lemma replay_fail_all ms t : Forall (λ m, t_messages t !! MID m = Some m ∧ MID m ≠ [] ∧ distinct_accounts m) ms → NoDup (MID <$> ms) →
  ∃ u, replay t (mjoin (fail_records <$> ms)) = Ok u ∧ replaced t u (settle <$> ms).
Proof.
  intros HF. revert t HF. induction ms as [|m ms IH]; intros t HF Hnd; [exists t; by split|].
  apply Forall_cons in HF as [(Hm & Hne & Hda) HF]. rewrite fmap_cons in Hnd. apply NoDup_cons in Hnd as [Hx Hnd].
  rewrite fmap_cons. cbn [mjoin list_join]. rewrite replay_app. destruct (replay_fail t m Hm Hne Hda) as (t1 & -> & E1 & E2 & E3 & E4).
  cbn [mbind res_bind]. destruct (IH t1) as (u & Eu & F1 & F2 & F3 & F4); [|done|].
  - apply Forall_forall. rewrite Forall_forall in HF. intros x Hin. destruct (HF x Hin) as (G1 & G2 & G3). split_and!; try done.
    rewrite E4. unfold put. cbn [foldl]. rewrite settle_id, lookup_insert_ne; [done|]. intros E. apply Hx. rewrite E. by apply list_elem_of_fmap_2.
  - exists u. split; [done|]. rewrite fmap_cons. split_and!; [by rewrite F1|by rewrite F2|by rewrite F3|]. by rewrite F4, E4.
Qed.

(** The chats whose log this client wrote, and which it can write once more. *)
Definition settleable (f : option bytes) (ms : list Message) : Prop :=
  ∃ rs ps, chat f rs ∧ Messages f = Ok ms ∧ PinnedMessageIDs f = Ok ps ∧ Forall distinct_accounts ms ∧
    Forall fits (mjoin (fail_records <$> ms)) ∧ Forall (λ m, fits (messageRecord (settle m))) ms ∧
    Forall (λ i, fits (pin_rec i true)) ps.

Lemma fail_records_timely ms : Forall timely (mjoin (fail_records <$> ms)).
Proof.
  apply Forall_forall. intros r (l & Hr & (m & -> & _)%list_elem_of_fmap)%list_elem_of_join. apply not_message_timely.
  unfold fail_records in Hr. apply elem_of_app in Hr as [Hr|(d & -> & _)%list_elem_of_fmap]; [|done].
  destruct (_ =?b _); [by apply list_elem_of_singleton in Hr as ->|by apply elem_of_nil in Hr].
Qed.

Lemma fail_chat_spec f ms : settleable f ms → ∃ f', fail_chat f = Ok f' ∧ Messages f' = Ok (settle <$> ms) ∧
  PinnedMessageIDs f' = PinnedMessageIDs f.
Proof.
  intros (rs & ps & Hc & Hms & Hps & Hda & Hf1 & Hf2 & Hf3). destruct (chat_read f rs Hc) as (t & Et & Er & Hwf & Hst).
  rewrite (messages_of _ _ _ Et) in Hms. unfold PinnedMessageIDs in Hps. rewrite Et in Hps. injection Hps as <-.
  pose proof (proj1 (collect_Forall2 _ _ _) Hms) as HF. destruct (collect_Ok t Hwf) as (ms' & E' & Hids & _).
  rewrite Hms in E'. injection E' as <-.
  destruct (replay_fail_all ms t) as (u & Eu & F1 & F2 & F3 & F4).
  { apply Forall_forall. intros m Hm. rewrite Forall_forall in Hda. pose proof Hm as [i Hi]%list_elem_of_lookup.
    destruct (Forall2_lookup_r _ _ _ _ _ HF Hi) as (id & Hid & Hl). rewrite (tw_id _ Hwf _ _ Hl). split_and!; [done| |by apply Hda].
    apply (tw_ne _ Hwf). by eapply list_elem_of_lookup_2. }
  { rewrite Hids. apply Hwf. }
  assert (Forall rec_ok (mjoin (fail_records <$> ms))) as Hok.
  { pose proof (fail_records_timely ms) as Htm. apply Forall_forall. intros r Hr. rewrite Forall_forall in Hf1. rewrite Forall_forall in Htm.
    destruct (Hf1 r Hr). split_and!; auto. }
  destruct (chat_append_all _ f rs Hc Hok) as (f1 & E1 & Hc1). destruct (chat_read f1 _ Hc1) as (t1 & Et1 & Er1 & Hwf1 & Hst1).
  rewrite replay_app, Er in Er1. cbn [mbind res_bind] in Er1. rewrite Eu in Er1. injection Er1 as <-.
  assert (NoDup (MID <$> (settle <$> ms))) as Hnd.
  { rewrite <- list_fmap_compose. rewrite (list_fmap_ext (MID ∘ settle) MID ms) by (intros; apply settle_id). rewrite Hids. apply Hwf. }
  assert (collect (t_messages u) (order u) = Ok (settle <$> ms)) as Hcol.
  { apply collect_Forall2. rewrite F1, F4. apply Forall2_fmap_r, Forall2_same_length_lookup_2; [by apply Forall2_length in HF|].
    intros i id m Hi Hm. unfold compose. pose proof (Forall2_lookup_lr _ _ _ _ _ _ HF Hi Hm) as Hl. rewrite <- (tw_id _ Hwf id m Hl).
    rewrite <- (settle_id m). apply put_elem; [done|]. apply list_elem_of_fmap_2. by eapply list_elem_of_lookup_2. }
  assert (compactable u) as Hcu.
  { apply (compactable_by u _ Hcol); [by apply Forall_fmap|by rewrite F2]. }
  destruct (compact_spec f1 _ u Hc1 Et1 Hwf1 Hst1 Hcu) as (f' & rs' & G1 & _ & G2 & G3).
  exists f'. unfold fail_chat. rewrite Et. cbn [mbind res_bind]. rewrite Hms. cbn [mbind res_bind]. rewrite E1. cbn [mbind res_bind].
  split_and!; [done|by rewrite G2, (messages_of _ _ _ Et1)|]. rewrite G3. unfold PinnedMessageIDs. rewrite Et1, Et. cbn [mbind res_bind].
  by rewrite F2.
Qed.

(** Opening an account leaves nothing in flight.  For chats whose logs this client wrote,
    [failInFlightSends] succeeds, and in every chat exactly what was pending -- messages and
    single recipients' copies -- reads back as failed, the copies keeping the wire id a retry
    is de-duplicated by; everything else, and every pin, is as it was. *)
Theorem restart_settles chats :
  Forall (λ c, ∃ ms, settleable c.2 ms) chats →
  ∃ chats', failInFlightSends chats = Ok chats' ∧
    Forall2 (λ c c', c.1 = c'.1 ∧ PinnedMessageIDs c'.2 = PinnedMessageIDs c.2 ∧
      ∃ ms, Messages c.2 = Ok ms ∧ Messages c'.2 = Ok (settle <$> ms) ∧
        Forall (λ m, MSendState m ≠ SendPending ∧ Forall (λ d, GdState d ≠ SendPending) (MDeliveries m)) (settle <$> ms)) chats chats'.
Proof.
  induction 1 as [|[id f] chats [ms Hs] HF IH]; [by exists []|]. destruct IH as (rest & Er & HF2).
  destruct (fail_chat_spec f ms Hs) as (f' & E1 & E2 & E3). cbn [failInFlightSends]. rewrite E1, Er. cbn [mbind res_bind].
  eexists. split; [done|]. constructor; [|done]. simpl. split_and!; [done|done|]. exists ms. split_and!; [by destruct Hs as (? & ? & ? & ? & _)|done|].
  apply Forall_fmap, Forall_forall. intros m _. unfold compose, settle. split.
  - simpl. destruct (MSendState m =?b SendPending) eqn:E; [done|]. simpl. by apply eqb_false in E.
  - simpl. apply Forall_fmap, Forall_forall. intros d _. unfold compose, settle_delivery. destruct (GdState d =?b SendPending) eqn:E; [done|].
    by apply eqb_false in E.
Qed.
End files.
