(* ===== verification/ClientExamples.v ===== *)
(** * A small client, evaluated

    A concrete record format that satisfies [Json] for every countable type, and the logs
    of a few messages in it. *)

From S2P Require Import Prelude GoStr GoTime GoTimeParse Address ClientLog ClientDedup ClientTranscript ClientTranscriptCorrect.

(** ** A record format: an object of binary digits *)

Fixpoint bits (p : positive) : bytes := match p with xH => [] | xO p => 48 :: bits p | xI p => 49 :: bits p end.
Fixpoint unbits (s : bytes) : option positive :=
  match s with [] => Some xH | 48 :: s => xO <$> unbits s | 49 :: s => xI <$> unbits s | _ => None end.
Definition digits_only (s : bytes) : bool := forallb (λ c, (c =? 48) || (c =? 49)) s.
Definition object_body (s : bytes) : option bytes :=
  match s with
  | 123 :: s => match last s with Some 125 => Some (take (length s - 1) s) | _ => None end
  | _ => None
  end.

Lemma bits_digits p : Forall (λ c, c = 48 ∨ c = 49) (bits p).
Proof. induction p; simpl; constructor; auto. Qed.
Lemma unbits_bits p : unbits (bits p) = Some p.
Proof. induction p as [p IH|p IH|]; simpl; by rewrite ?IH. Qed.
Lemma digits_only_bits p : digits_only (bits p) = true.
Proof. unfold digits_only. apply forallb_forall. intros c Hc%list_elem_of_In. pose proof (bits_digits p) as H. rewrite Forall_forall in H. by destruct (H c Hc) as [-> | ->]. Qed.
Lemma object_body_wrap s : object_body (123 :: s ++ [125]) = Some s.
Proof. unfold object_body. rewrite last_snoc, length_app. simpl. replace (length s + 1 - 1)%nat with (length s) by lia. by rewrite take_app_length. Qed.

Section format.
Context {R : Type} `{Countable R}.

Definition bits_Marshal (x : R) : bytes := 123 :: bits (encode x) ++ [125].
Definition bits_Valid (s : bytes) : bool := match object_body s with Some b => digits_only b | None => false end.
Definition bits_Unmarshal (s : bytes) : option R := b ← object_body s; p ← unbits b; decode p.

Lemma bits_chars x : Forall (λ c, c = 48 ∨ c = 49 ∨ c = 123 ∨ c = 125) (bits_Marshal x).
Proof.
  constructor; [lia|]. apply Forall_app. split; [|constructor; [lia|constructor]].
  eapply Forall_impl; [apply bits_digits|]. simpl. lia.
Qed.
Lemma bits_trim x : trim_space (bits_Marshal x) = bits_Marshal x.
Proof.
  apply trim_space_id.
  - unfold is_ascii. eapply Forall_impl; [apply bits_chars|]. simpl. lia.
  - unfold untrimmed, bits_Marshal. rewrite last_cons, last_snoc. done.
Qed.
Lemma bits_prefix x k : (k < length (bits_Marshal x))%nat → bits_Valid (take k (bits_Marshal x)) = false.
Proof.
  intros Hk. unfold bits_Valid, bits_Marshal in *. destruct k as [|k]; [done|]. cbn [take object_body].
  simpl in Hk. rewrite length_app in Hk. simpl in Hk. rewrite take_app_le by lia.
  destruct (last (take k (bits (encode x)))) as [c|] eqn:E; [|done].
  apply last_Some_elem_of in E. pose proof (bits_digits (encode x)) as HF. rewrite Forall_forall in HF.
  assert (c ∈ bits (encode x)) as Hc by (by eapply elem_of_take in E as (? & ? & ?); eapply list_elem_of_lookup_2).
  by destruct (HF c Hc) as [-> | ->].
Qed.

Lemma bits_ne x : bits_Marshal x ≠ [].
Proof. done. Qed.
Lemma bits_line x : Forall (λ c, c ≠ 10 ∧ c ≠ 13) (bits_Marshal x).
Proof. eapply Forall_impl; [apply bits_chars|]. simpl. lia. Qed.
Lemma bits_valid x : bits_Valid (bits_Marshal x) = true.
Proof. unfold bits_Valid, bits_Marshal. rewrite object_body_wrap. apply digits_only_bits. Qed.
Lemma bits_round x : True → bits_Unmarshal (bits_Marshal x) = Some x.
Proof. intros _. unfold bits_Unmarshal, bits_Marshal. rewrite object_body_wrap. simpl. rewrite unbits_bits. simpl. apply decode_encode. Qed.

#[export] Instance bits_json : Json R := {|
  json_Marshal := bits_Marshal; json_Unmarshal := bits_Unmarshal; json_Valid := bits_Valid; encodable := λ _, True;
  marshal_ne := bits_ne; marshal_line := bits_line; marshal_trim := bits_trim; marshal_valid := bits_valid;
  unmarshal_marshal := bits_round; prefix_invalid := bits_prefix;
|}.
End format.

(** ** The records of the client as trees of strings *)

#[export] Instance processedRecord_eq_dec : EqDecision processedRecord.
Proof. solve_decision. Defined.
#[export] Instance processedRecord_countable : Countable processedRecord := inj_countable' PrID mkProcessed (λ r, match r with mkProcessed _ => eq_refl end).
#[export] Instance failuresFile_eq_dec : EqDecision failuresFile.
Proof. solve_decision. Defined.
#[export] Instance failuresFile_countable : Countable failuresFile :=
  inj_countable' (λ f, (FOrder f, FCounts f)) (λ p, mkFailuresFile p.1 p.2) (λ f, match f with mkFailuresFile _ _ => eq_refl end).
#[export] Instance Attachment_eq_dec : EqDecision Attachment.
Proof. solve_decision. Defined.
#[export] Instance GroupDelivery_eq_dec : EqDecision GroupDelivery.
Proof. solve_decision. Defined.
#[export] Instance logRecord_eq_dec : EqDecision logRecord.
Proof. solve_decision. Defined.

Abbreviation tree := (gen_tree bytes) (only parsing).
Definition flag (b : bool) : bytes := if b then [1] else [0].
Definition unflag (s : bytes) : bool := match s with [1] => true | _ => false end.
Definition opt_flag (o : option bool) : bytes := match o with None => [] | Some b => flag b end.
Definition un_opt_flag (s : bytes) : option bool := match s with [] => None | s => Some (unflag s) end.
Definition num (z : Z) : bytes := [z].
Definition unnum (s : bytes) : Z := default 0 (head s).

Definition att_tree (a : Attachment) : tree :=
  GenNode 1 (GenLeaf <$> [AtKind a; AtAlgorithm a; AtBlobID a; AtKey a; AtMimeType a; num (AtByteSize a); num (AtWidth a); num (AtHeight a); AtThumb a]).
Definition un_att (t : tree) : Attachment :=
  match t with
  | GenNode _ [GenLeaf a; GenLeaf b; GenLeaf c; GenLeaf d; GenLeaf e; GenLeaf f; GenLeaf g; GenLeaf h; GenLeaf i] =>
    mkAttachment a b c d e (unnum f) (unnum g) (unnum h) i
  | _ => mkAttachment [] [] [] [] [] 0 0 0 []
  end.
Definition del_tree (d : GroupDelivery) : tree :=
  GenNode 2 (GenLeaf <$> [GdAccountID d; GdWireMessageID d; GdState d; GdError d; GdDetail d; flag (GdSkipped d)]).
Definition un_del (t : tree) : GroupDelivery :=
  match t with
  | GenNode _ [GenLeaf a; GenLeaf b; GenLeaf c; GenLeaf d; GenLeaf e; GenLeaf f] => mkDelivery a b c d e (unflag f)
  | _ => mkDelivery [] [] [] [] [] false
  end.
Definition rec_tree (r : logRecord) : tree :=
  GenNode 3 ((GenLeaf <$> [T r; RID r; RText r; flag (RMine r); RTimestamp r; RSenderSentAt r; RSenderAccountID r; RReplyToID r; RReplyText r;
                          opt_flag (RReplyMine r); RReplyAuthorID r; RKind r; RSendState r; RAccountID r; RWireMessageID r; RError r; RDetail r;
                          flag (RSkipped r); flag (RPinned r)])
             ++ [GenNode 1 (att_tree <$> RAttachments r); GenNode 2 (del_tree <$> RDeliveries r)]).
Definition un_rec (t : tree) : option logRecord :=
  match t with
  | GenNode _ [GenLeaf a; GenLeaf b; GenLeaf c; GenLeaf d; GenLeaf e; GenLeaf f; GenLeaf g; GenLeaf h; GenLeaf i; GenLeaf j; GenLeaf k;
               GenLeaf l; GenLeaf m; GenLeaf n; GenLeaf o; GenLeaf p; GenLeaf q; GenLeaf r; GenLeaf s; GenNode _ atts; GenNode _ dels] =>
    Some (mkRec a b c (unflag d) e f g h i (un_opt_flag j) k l m (un_att <$> atts) (un_del <$> dels) n o p q (unflag r) (unflag s))
  | _ => None
  end.
Lemma un_rec_tree r : un_rec (rec_tree r) = Some r.
Proof.
  destruct r as [a b c d e f g h i j k l m atts dels n o p q s t]. simpl. f_equal.
  assert (un_att <$> (att_tree <$> atts) = atts) as ->.
  { induction atts as [|[] atts IH]; [done|]. rewrite !fmap_cons, IH. done. }
  assert (un_del <$> (del_tree <$> dels) = dels) as ->.
  { induction dels as [|[? ? ? ? ? []] dels IH]; [done|..]; rewrite !fmap_cons, IH; done. }
  by destruct d, j as [[]|], s, t.
Qed.
#[export] Instance logRecord_countable : Countable logRecord := inj_countable rec_tree un_rec un_rec_tree.

(** ** The duplicate filter *)

Definition msg_id (n : Z) : bytes := lit "m" ++ format_int n.
Definition ok_id (i : bytes) : Prop := i ≠ [] ∧ short (mkProcessed i).
Lemma ok_processed i : ok_id i → id_ok i.
Proof. intros [? ?]. by split_and!. Qed.
Lemma ok_failures f order : counts_ok f order → Forall ok_id order → encodable (mkFailuresFile order f).
Proof. done. Qed.
Lemma ok_id_by i : negb (zlen i =? 0) && short_b (mkProcessed i) = true → ok_id i.
Proof. intros [H1 H2%short_by]%andb_true_iff. split; [|done]. by intros ->. Qed.

Fixpoint fresh_from (pre es : list event) : bool :=
  match es with
  | [] => true
  | e :: es =>
    match e with EMark id => bool_decide (id ∈ spec pre) || negb (bool_decide (id ∈ marked pre)) | _ => true end && fresh_from (pre ++ [e]) es
  end.
Lemma no_reuse_by es : fresh_from [] es = true → no_reuse es.
Proof.
  cut (∀ p, fresh_from p es = true → ∀ pre id post, es = pre ++ EMark id :: post → id ∈ spec (p ++ pre) ∨ id ∉ marked (p ++ pre)).
  { intros H Hf. exact (H [] Hf). }
  induction es as [|e es IH]; intros p Hf pre id post E; [by destruct pre|]. cbn [fresh_from] in Hf. apply andb_true_iff in Hf as [H1 H2].
  destruct pre as [|x pre]; injection E as -> ->.
  - rewrite app_nil_r. apply orb_true_iff in H1 as [H1%bool_decide_eq_true|H1%negb_true_iff%bool_decide_eq_false]; auto.
  - rewrite cons_middle, (assoc_L app). by eapply IH.
Qed.

Definition day_of_use : list event := [EMark (msg_id 1); EFail (msg_id 2); ERestart; EMark (msg_id 2); EMark (msg_id 1)].

Lemma dedup_refines_witness : ∃ c d, steps fresh_client day_of_use = Ok (c, d) ∧
  WasMessageProcessed c (msg_id 2) = true ∧ WasMessageProcessed c (msg_id 3) = false.
Proof.
  destruct (dedup_refines ok_id ok_processed ok_failures day_of_use) as (c & d & E & Hw).
  - repeat constructor; apply ok_id_by; by_vm.
  - apply no_reuse_by. by_vm.
  - exists c, d. split; [exact E|]. rewrite !Hw. split; by_vm.
Defined.

Lemma third_failure_gives_up_witness :
  ∃ c d c1 d1 c2 d2, steps fresh_client [EMark (msg_id 1)] = Ok (c, d) ∧
    steps (RecordDecryptFailure c d (msg_id 9)).1 [ERestart] = Ok (c1, d1) ∧
    steps (RecordDecryptFailure c1 d1 (msg_id 9)).1 [EFail (msg_id 8); ERestart] = Ok (c2, d2) ∧
    (RecordDecryptFailure c2 d2 (msg_id 9)).2 = true.
Proof.
  destruct (steps fresh_client [EMark (msg_id 1)]) as [[c d]| |] eqn:E; [|vm_compute in E; discriminate E..].
  assert (failures c = ∅ ∧ failureOrder c = []) as [Ef Eo].
  { vm_compute in E. injection E as <- _. split; by_vm. }
  destruct (third_failure_gives_up ok_id ok_processed ok_failures [EMark (msg_id 1)] (msg_id 9) [ERestart] [EFail (msg_id 8); ERestart] c d)
    as (c1 & d1 & c2 & d2 & H1 & H2 & _ & _ & H3).
  - repeat constructor; apply ok_id_by; by_vm.
  - apply no_reuse_by. by_vm.
  - exact E.
  - apply ok_id_by. by_vm.
  - repeat constructor.
  - constructor; [right; exists (msg_id 8)|constructor; [left; reflexivity|constructor]].
    split; [reflexivity|]. split; [vm_compute; discriminate|apply ok_id_by; by_vm].
  - rewrite Ef. by_vm.
  - rewrite Eo. by_vm.
  - exists c, d, c1, d1, c2, d2. split; [reflexivity|]. split; [exact H1|]. split; [exact H2|exact H3].
Defined.

(** The id marked after a torn append is forgotten at the next restart. *)
Definition torn_log : option bytes := torn None (mkProcessed (msg_id 1)) 3.
Lemma torn_line_swallows_next_witness :
  readLines (R := processedRecord) (appendLine torn_log (mkProcessed (msg_id 2))).1 = [].
Proof.
  refine (torn_line_swallows_next ok_id [] empty_dedup (mkDisk None None) (msg_id 1) 3 (msg_id 2) (fresh_inv ok_id) _ _ _).
  - apply ok_id_by. by_vm.
  - split; [lia|]. apply Nat.ltb_lt. by_vm.
  - by_vm.
Defined.

(** ** Transcripts *)

Definition t0 : Time := mkTime 63885596800 123000000 None 0.
Definition said (i text state : bytes) (l : list GroupDelivery) : Message :=
  mkMsg i text true t0 None [] [] [] None [] MessageNormal state [] l.
Definition to (who state : bytes) : GroupDelivery := mkDelivery who (lit "w" ++ who) state [] [] false.
Definition records0 : list logRecord :=
  [messageRecord (said (lit "a") (lit "hi") SendSent []); messageRecord (said (lit "b") (lit "to all") SendPending [to (lit "x") SendSent; to (lit "y") SendPending]);
   state_rec (lit "a") SendFailed; pin_rec (lit "a") true; blank recDelete (lit "none"); state_rec (lit "a") SendSent; state_rec (lit "a") SendSent].
Definition file0 : option bytes := rewriteLog records0.

Lemma encodable_any (r : logRecord) : encodable r.
Proof. exact I. Qed.
Lemma fits_by (rs : list logRecord) : forallb short_b rs = true → Forall fits rs.
Proof.
  rewrite forallb_forall, Forall_forall. intros H r Hr%list_elem_of_In. split; [apply encodable_any|]. by apply short_by, H.
Qed.
Lemma time_ok_by t : (0 <=? civil_year (unix_seconds t / 86400)) && (civil_year (unix_seconds t / 86400) <? 10000)
  && (0 <=? t_nsec t) && (t_nsec t <? second) = true → time_ok t.
Proof. rewrite !andb_true_iff, !Z.leb_le, !Z.ltb_lt. intros [[[? ?] ?] ?]. by split. Qed.
Lemma t0_ok : time_ok t0.
Proof. apply time_ok_by. by_vm. Qed.
Lemma said_storable i text st l : storable (said i text st l).
Proof. split_and!; [apply t0_ok|done|done]. Qed.

Lemma chat0 : chat file0 records0.
Proof.
  apply chat_rewrite. assert (Forall fits records0) as HF by (apply fits_by; by_vm).
  assert (Forall timely records0) as HT.
  { repeat constructor; try (apply messageRecord_timely, said_storable); by apply not_message_timely. }
  apply Forall_forall. intros r Hr. rewrite Forall_forall in HF. rewrite Forall_forall in HT. destruct (HF r Hr). split_and!; auto.
Qed.

Definition b_said (state sy : bytes) : Message := said (lit "b") (lit "to all") state [to (lit "x") SendSent; to (lit "y") sy].
Lemma messages0 : Messages file0 = Ok [said (lit "a") (lit "hi") SendSent []; b_said SendPending SendPending].
Proof. unfold Messages. rewrite (read_chat _ _ chat0). by_vm. Qed.
Lemma pins0 : PinnedMessageIDs file0 = Ok [lit "a"].
Proof. unfold PinnedMessageIDs. rewrite (read_chat _ _ chat0). by_vm. Qed.

Lemma compaction_transparent_witness : ∃ f, maybeCompact file0 = Ok f ∧ Messages f = Messages file0.
Proof.
  destruct (readTranscript file0) as [t| |] eqn:E.
  - destruct (compaction_transparent file0 records0 t chat0 E) as (f & H1 & H2 & _).
    + intros rs Hrs. apply fits_by. rewrite (read_chat _ _ chat0) in E. vm_compute in E. injection E as <-.
      vm_compute in Hrs. injection Hrs as <-. by_vm.
    + exists f. split; [exact H1|exact H2].
  - rewrite (read_chat _ _ chat0) in E. vm_compute in E. discriminate E.
  - rewrite (read_chat _ _ chat0) in E. vm_compute in E. discriminate E.
Defined.

(** Whether every message id is introduced by its first record. *)
Fixpoint orderly_from (seen : list bytes) (rs : list logRecord) : bool :=
  match rs with
  | [] => true
  | r :: rs => (negb (T r =?b recMessage) || negb (bool_decide (RID r ∈ seen))) && orderly_from (RID r :: seen) rs
  end.
Lemma orderly_by rs : orderly_from [] rs = true → orderly rs.
Proof.
  cut (∀ seen, orderly_from seen rs = true → ∀ pre r post, rs = pre ++ r :: post → T r = recMessage →
    RID r ∉ seen ∧ Forall (λ x, RID x ≠ RID r) pre).
  { intros H Ho pre r post E HT. by destruct (H [] Ho pre r post E HT). }
  induction rs as [|x rs IH]; intros seen Ho pre r post E HT; [by destruct pre|]. cbn [orderly_from] in Ho.
  apply andb_true_iff in Ho as [H1 H2]. destruct pre as [|y pre]; injection E as -> ->.
  - split; [|constructor]. rewrite HT, eqb_refl in H1. simpl in H1. by apply negb_true_iff, bool_decide_eq_false in H1.
  - destruct (IH _ H2 pre r post eq_refl HT) as [G1 G2]. apply not_elem_of_cons in G1 as [? ?]. split; [done|]. constructor; [by apply not_eq_sym|done].
Qed.

Lemma last_message_of_tail_witness : ∃ o, LastMessage file0 = Ok o ∧ preview <$> o = Some (preview (b_said SendPending SendPending)).
Proof.
  destruct (last_message_of_tail file0 records0 chat0) as (ms & o & H1 & H2 & H3).
  - apply orderly_by. by_vm.
  - assert (Forall (λ r, NoDup (GdAccountID <$> RDeliveries r)) records0) as HF by (repeat constructor; vm_compute; set_solver).
    rewrite Forall_forall in HF. intros r m Hr Hm. unfold distinct_accounts. rewrite (toMessage_deliveries r m Hm). by apply HF.
  - exists o. split; [exact H2|]. rewrite H3. rewrite messages0 in H1. apply Ok_inj in H1 as <-. reflexivity.
Defined.

Lemma transcript_operations_witness :
  (∃ f, SetMessageSendState file0 (lit "b") SendSent = (f, Ok ()) ∧
     Messages f = Ok [said (lit "a") (lit "hi") SendSent []; b_said SendSent SendPending]) ∧
  (∃ f, DeleteMessage file0 (lit "a") = Ok f ∧ Messages f = Ok [b_said SendPending SendPending]).
Proof.
  destruct (transcript_operations file0 records0 _ _ chat0 messages0 pins0) as (_ & Hs & _ & _ & Hd). split.
  - destruct (Hs (lit "b") SendSent) as (f & E1 & E2); [done|split; [apply encodable_any|apply short_by; by_vm]|].
    exists f. split; [exact E1|]. rewrite E2. reflexivity.
  - destruct (Hd (lit "a")) as (f & E1 & E2); [done|split; [apply encodable_any|apply short_by; by_vm]|..].
    + repeat constructor; apply short_by; by_vm.
    + repeat constructor; apply short_by; by_vm.
    + exists f. split; [exact E1|]. rewrite E2. reflexivity.
Defined.

Lemma restart_settles_witness : ∃ f, failInFlightSends [(lit "x", file0)] = Ok [(lit "x", f)] ∧
  Messages f = Ok [said (lit "a") (lit "hi") SendSent []; b_said SendFailed SendFailed] ∧ PinnedMessageIDs f = Ok [lit "a"].
Proof.
  destruct (restart_settles [(lit "x", file0)]) as (chats & E & HF).
  - constructor; [|constructor]. exists [said (lit "a") (lit "hi") SendSent []; b_said SendPending SendPending].
    exists records0, [lit "a"]. split; [exact chat0|]. split; [exact messages0|]. split; [exact pins0|].
    split; [repeat constructor; vm_compute; set_solver|].
    split; [apply fits_by; by_vm|]. split; repeat constructor; apply short_by; by_vm.
  - apply Forall2_cons_inv_l in HF as ([i f] & l & (Hi & Hp & ms & H1 & H2 & _) & Hl & ->). apply Forall2_nil_inv_l in Hl as ->.
    cbn [fst snd] in Hi, Hp, H1, H2. subst i. exists f. rewrite messages0 in H1. apply Ok_inj in H1 as <-.
    split; [exact E|]. split; [exact H2|]. rewrite Hp. exact pins0.
Defined.

(** The preview of a chat keeps the attachments its last message was first recorded with:
    the log says the picture was replaced, the whole transcript shows it, the chat list does not. *)
Definition picture (blob : bytes) : Attachment := mkAttachment (lit "image") [] blob [] [] 0 0 0 [].
Definition with_picture : option bytes :=
  rewriteLog [messageRecord (with_attachments (said (lit "a") [] SendSent []) [picture (lit "p1")]); attach_rec (lit "a") [picture (lit "p2")]].
Example stale_preview :
  (∃ m, Messages with_picture = Ok [m] ∧ MAttachments m = [picture (lit "p2")]) ∧
  (∃ m, LastMessage with_picture = Ok (Some m) ∧ MAttachments m = [picture (lit "p1")]).
Proof. split; eexists; (split; [by_vm|reflexivity]). Qed.
