(* ===== verification/Envelope.v ===== *)
(** * pkg/wire/envelope.go and pkg/client/content.go: what travels between two clients

    The envelope around a ciphertext, and the plaintext inside it: a JSON body whose
    version says what it is.  [Json] of a record type stands for encoding/json (see
    [ClientLog]); a body built as a map of the keys it sets is the record with the other
    fields zero. *)

From S2P Require Import Prelude GoStr GoTime GoTimeParse Sha256 Crypto Base64 Bech32m Address DeviceCert GroupEvent GroupState ProfileClaim Ratchet ClientLog ClientTranscript.

(** ** The envelope *)

Record PrekeyFields := mkPrekeyFields {
  PfSenderDHIdentityPub : bytes; PfSenderEphemeralPub : bytes; PfSignedPrekeyID : Z; PfOneTimePrekeyID : option Z;
  PfRekey : option bool;
}.
Record HeaderDTO := mkHeaderDTO { HdDHPub : bytes; HdPN : Z; HdN : Z }.
Record Envelope := mkEnvelope { EvPrekey : option PrekeyFields; EvHeader : HeaderDTO; EvCiphertext : bytes }.

Definition HeaderToDTO (h : Header) : HeaderDTO := mkHeaderDTO (b64_encode (DHPub h)) (HPN h) (HN h).
Definition ToHeader (d : HeaderDTO) : res string Header :=
  dhPub ← from_option (b64_decode (HdDHPub d)) "wire: decoding header dh_pub"%string; Ok (mkHeader dhPub (HdPN d) (HdN d)).
Definition InitialMessageToPrekeyFields (im : InitialMessage) : PrekeyFields :=
  mkPrekeyFields (b64_encode (SenderDHIdentityPub im)) (b64_encode (SenderEphemeralPub im)) (ISignedPrekeyID im) (IOneTimePrekeyID im) None.
Definition ToInitialMessage (p : PrekeyFields) : res string InitialMessage :=
  senderDH ← from_option (b64_decode (PfSenderDHIdentityPub p)) "wire: decoding sender_dh_identity_pub"%string;
  senderEph ← from_option (b64_decode (PfSenderEphemeralPub p)) "wire: decoding sender_ephemeral_pub"%string;
  Ok (mkInitial senderDH senderEph (PfSignedPrekeyID p) (PfOneTimePrekeyID p)).
Definition NewEnvelopeRekey (initial : option InitialMessage) (header : Header) (ciphertext : bytes) (rekey : option bool) : Envelope :=
  mkEnvelope
    ((λ im, let f := InitialMessageToPrekeyFields im in
            mkPrekeyFields (PfSenderDHIdentityPub f) (PfSenderEphemeralPub f) (PfSignedPrekeyID f) (PfOneTimePrekeyID f) rekey) <$> initial)
    (HeaderToDTO header) (b64_encode ciphertext).
Definition NewEnvelope (initial : option InitialMessage) (header : Header) (ciphertext : bytes) : Envelope :=
  NewEnvelopeRekey initial header ciphertext None.
Definition DecodeCiphertext (e : Envelope) : res string bytes :=
  from_option (b64_decode (EvCiphertext e)) "wire: decoding ciphertext"%string.

Definition MarshalPayload {J : Json Envelope} (e : Envelope) : bytes := json_Marshal e.
Definition ParseEnvelope {J : Json Envelope} (payload : bytes) : res string Envelope :=
  from_option (json_Unmarshal payload) "wire: parsing envelope"%string.

(** What a receiver takes out of a payload: the three parts of an envelope and, when there is
    a prekey block, what the sender said about it. *)
Record opened := mkOpened { op_initial : option (InitialMessage * option bool); op_header : Header; op_ciphertext : bytes }.
Definition open_payload {J : Json Envelope} (payload : bytes) : res string opened :=
  env ← ParseEnvelope payload; header ← ToHeader (EvHeader env); ciphertext ← DecodeCiphertext env;
  initial ← match EvPrekey env with
            | Some p => im ← ToInitialMessage p; Ok (Some (im, PfRekey p))
            | None => Ok None
            end;
  Ok (mkOpened initial header ciphertext).

Definition initial_bytes (im : InitialMessage) : Prop := is_bytes (SenderDHIdentityPub im) ∧ is_bytes (SenderEphemeralPub im).

(** What was put into an envelope comes out of it. *)
Lemma open_marshalled {J : Json Envelope} initial header ciphertext rekey :
  let env := NewEnvelopeRekey initial header ciphertext rekey in
  encodable env → is_bytes (DHPub header) → is_bytes ciphertext → (∀ im, initial = Some im → initial_bytes im) →
  open_payload (MarshalPayload env) = Ok (mkOpened ((., rekey) <$> initial) header ciphertext).
Proof.
  intros env He Hh Hc Hi. unfold open_payload, ParseEnvelope, MarshalPayload. rewrite unmarshal_marshal by done.
  unfold env, NewEnvelopeRekey, ToHeader, HeaderToDTO, DecodeCiphertext. cbn [Prelude.from_option mbind res_bind EvHeader EvPrekey EvCiphertext HdDHPub HdPN HdN].
  rewrite !b64_decode_encode by done. cbn [Prelude.from_option mbind res_bind].
  destruct header as [hd hp hn]. destruct initial as [im|]; [|done]. destruct (Hi im eq_refl) as [H1 H2].
  unfold ToInitialMessage, InitialMessageToPrekeyFields. cbn [fmap option_fmap option_map PfSenderDHIdentityPub PfSenderEphemeralPub PfSignedPrekeyID PfOneTimePrekeyID PfRekey].
  rewrite !b64_decode_encode by done. by destruct im.
Qed.

(** ** The content of a message *)

Inductive ContentKind := ContentText | ContentReceipt | ContentRekey | ContentGroupText | ContentGroupControl.
#[export] Instance ContentKind_eq_dec : EqDecision ContentKind.
Proof. solve_decision. Defined.
Inductive GroupControlKind := GroupSnapshot | GroupEvents | GroupSyncRequest.
#[export] Instance GroupControlKind_eq_dec : EqDecision GroupControlKind.
Proof. solve_decision. Defined.
Definition GroupControlKind_String (k : GroupControlKind) : bytes :=
  match k with GroupSnapshot => lit "snapshot" | GroupEvents => lit "events" | GroupSyncRequest => lit "sync_request" end.
Inductive ReceiptStatus := ReceiptDelivered | ReceiptRead.
#[export] Instance ReceiptStatus_eq_dec : EqDecision ReceiptStatus.
Proof. solve_decision. Defined.
Definition ReceiptStatus_String (s : ReceiptStatus) : bytes :=
  match s with ReceiptDelivered => lit "delivered" | ReceiptRead => lit "read" end.
Inductive RekeyReason := RekeyDecryptFailures | RekeyUserRequested | RekeyUnspecified.
#[export] Instance RekeyReason_eq_dec : EqDecision RekeyReason.
Proof. solve_decision. Defined.
Definition RekeyReason_String (r : RekeyReason) : bytes :=
  match r with
  | RekeyDecryptFailures => lit "decrypt_failures" | RekeyUserRequested => lit "user_requested" | RekeyUnspecified => lit "unspecified"
  end.

Definition versionText : Z := 1.
Definition versionReceipt : Z := 2.
Definition versionRekey : Z := 3.
Definition versionGroupText : Z := 4.
Definition versionGroupControl : Z := 5.
Definition unsupportedContentText : bytes := lit "This message uses a newer app feature and can't be shown here yet.".

Record Content := mkContent {
  CKind : ContentKind; CID : bytes; CText : bytes; CSentAt : option Time; CSenderServer : bytes; CAttachments : list Attachment;
  CReplyToID : bytes; CReplyText : bytes; CReplyMine : option bool; CReplyAuthorID : bytes;
  CReceiptStatus : option ReceiptStatus; CReceiptUpTo : option Time; CReceiptGroupID : bytes; CRekeyReason : option RekeyReason;
  CGroupID : bytes; CStateHash : bytes; CControlKind : option GroupControlKind; CEvents : list (option Event);
  CProfile : option Claim.t; CRaw : bytes;
}.
Definition no_content (kind : ContentKind) (id raw : bytes) : Content :=
  mkContent kind id [] None [] [] [] [] None [] None None [] None [] [] None [] None raw.

Record attachmentWire := mkAttachmentWire {
  AwKind : bytes; AwAlgorithm : bytes; AwBlobID : bytes; AwKey : bytes; AwMimeType : bytes; AwByteSize : Z; AwWidth : Z; AwHeight : Z;
  AwThumb : bytes;
}.
Record replyPreviewWire := mkReplyPreview { RpText : bytes; RpMine : option bool; RpAuthor : option bytes }.
Record contentWire := mkContentWire {
  WV : Z; WKind : bytes; WID : bytes; WText : bytes; WAttachments : list bytes; WReplyTo : bytes; WReplyPreview : option replyPreviewWire;
  WSenderServer : bytes; WSentAt : bytes; WStatus : bytes; WUpToSentAt : bytes; WReason : bytes; WGroupID : bytes; WStateHash : bytes;
  WEvents : list (option Event); WProfile : option Claim.t;
}.

Section content.
Context {JC : Json contentWire} {JA : Json attachmentWire}.

Definition decode_attachment (entry : bytes) : option Attachment :=
  a ← json_Unmarshal entry;
  if (zlen (AwBlobID a) =? 0) || (zlen (AwKey a) =? 0) then None
  else Some (mkAttachment (AwKind a) (AwAlgorithm a) (AwBlobID a) (AwKey a) (AwMimeType a) (AwByteSize a) (AwWidth a) (AwHeight a) (AwThumb a)).
Definition decodeAttachments (raw : list bytes) : list Attachment := omap decode_attachment raw.

Definition receipt_status (s : bytes) : option ReceiptStatus :=
  if s =?b lit "delivered" then Some ReceiptDelivered else if s =?b lit "read" then Some ReceiptRead else None.
Definition rekey_reason (s : bytes) : RekeyReason :=
  if s =?b lit "decrypt_failures" then RekeyDecryptFailures else if s =?b lit "user_requested" then RekeyUserRequested else RekeyUnspecified.
Definition control_kind (s : bytes) : GroupControlKind :=
  if s =?b lit "snapshot" then GroupSnapshot else if s =?b lit "events" then GroupEvents
  else if s =?b lit "sync_request" then GroupSyncRequest else GroupEvents.

(** The fields the two text-carrying versions share. *)
Definition text_content (kind : ContentKind) (groupID stateHash : bytes) (w : contentWire) (raw : bytes) : Content :=
  let preview := default (mkReplyPreview [] None None) (WReplyPreview w) in
  mkContent kind (WID w) (WText w) (if zlen (WSentAt w) =? 0 then None else utc <$> time_parse (WSentAt w)) (WSenderServer w)
    (decodeAttachments (WAttachments w)) (WReplyTo w) (RpText preview) (RpMine preview) (default [] (RpAuthor preview))
    None None [] None groupID stateHash None [] (WProfile w) raw.

Definition DecodeContent (plaintext : bytes) : Content :=
  let legacy := mkContent ContentText [] plaintext None [] [] [] [] None [] None None [] None [] [] None [] None plaintext in
  match json_Unmarshal plaintext with
  | None => legacy
  | Some w =>
    if WV w =? 0 then legacy
    else if (WV w =? versionReceipt) && (WKind w =?b lit "receipt") then
      match time_parse (WUpToSentAt w), receipt_status (WStatus w) with
      | Some upTo, Some st =>
        mkContent ContentReceipt (WID w) [] None [] [] [] [] None [] (Some st) (Some (utc upTo)) (WGroupID w) None [] [] None [] (WProfile w) plaintext
      | _, _ => legacy
      end
    else if (WV w =? versionRekey) && (WKind w =?b lit "rekey") then
      mkContent ContentRekey (WID w) [] None [] [] [] [] None [] None None [] (Some (rekey_reason (WReason w))) [] [] None [] None plaintext
    else if (WV w =? versionGroupControl) && negb (zlen (WGroupID w) =? 0) then
      mkContent ContentGroupControl (WID w) [] None [] [] [] [] None [] None None [] None (WGroupID w) (WStateHash w)
        (Some (control_kind (WKind w))) (WEvents w) None plaintext
    else if (WV w =? versionGroupText) && negb (zlen (WGroupID w) =? 0) then
      text_content ContentGroupText (WGroupID w) (WStateHash w) w plaintext
    else if WV w =? versionText then text_content ContentText [] [] w plaintext
    else if versionGroupControl <? WV w then
      mkContent ContentText (WID w) unsupportedContentText None [] [] [] [] None [] None None [] None [] [] None [] None plaintext
    else legacy
  end.

(** ** The bodies a client writes (send.go, groupsend.go) *)

(** [receiptTimeLayout]: milliseconds and a literal Z, of a time in UTC. *)
Definition format_receipt (t : Time) : bytes := rfc3339_body (unix_seconds t) ++ 46 :: digits 3 (t_nsec t / 1000000) ++ [90].
(** [t.UTC().Truncate(time.Millisecond)]. *)
Definition receiptClock (t : Time) : Time := mkTime (t_sec t) (t_nsec t - t_nsec t mod 1000000) None 0.

Definition empty_body (v : Z) : contentWire := mkContentWire v [] [] [] [] [] None [] [] [] [] [] [] [] [] None.

(** The reply keys are set together, and only for a reply. *)
Definition reply_preview (line : Message) : option replyPreviewWire :=
  if zlen (MReplyToID line) =? 0 then None
  else Some (mkReplyPreview (MReplyText line) (MReplyMine line) (if zlen (MReplyAuthorID line) =? 0 then None else Some (MReplyAuthorID line))).
Definition attachment_wire (a : Attachment) : attachmentWire :=
  mkAttachmentWire (AtKind a) (AtAlgorithm a) (AtBlobID a) (AtKey a) (AtMimeType a) (AtByteSize a) (AtWidth a) (AtHeight a) (AtThumb a).

Definition text_body (line : Message) (ownServer : bytes) (sentAt : Time) (claim : option Claim.t) : contentWire :=
  mkContentWire versionText [] (MID line) (MText line) (json_Marshal <$> (attachment_wire <$> MAttachments line)) (MReplyToID line)
    (reply_preview line) ownServer (format_receipt (utc sentAt)) [] [] [] [] [] [] claim.
Definition encodeText (line : Message) (ownServer : bytes) (sentAt : Time) (claim : option Claim.t) : bytes :=
  json_Marshal (text_body line ownServer sentAt claim).

(** A placeholder that never finished uploading is left out. *)
Definition attachmentWires (atts : list Attachment) : list attachmentWire :=
  attachment_wire <$> filter (λ a, AtBlobID a ≠ []) atts.
Definition group_text_body (line : Message) (groupID stateHash : bytes) (sentAt : Time) (claim : option Claim.t) : contentWire :=
  mkContentWire versionGroupText [] (MID line) (MText line) (json_Marshal <$> attachmentWires (MAttachments line)) (MReplyToID line)
    (reply_preview line) [] (format_receipt (utc sentAt)) [] [] [] groupID stateHash [] claim.
Definition encodeGroupText (line : Message) (groupID stateHash : bytes) (sentAt : Time) (claim : option Claim.t) : bytes :=
  json_Marshal (group_text_body line groupID stateHash sentAt claim).
Definition encodeGroupControl (kind : GroupControlKind) (groupID stateHash : bytes) (events : list (option Event)) : bytes :=
  json_Marshal (mkContentWire versionGroupControl (GroupControlKind_String kind) [] [] [] [] None [] [] [] [] [] groupID stateHash events None).
(** The body of [SendReceipt] and, with a group, of [SendGroupReceipt]. *)
Definition receipt_body (status : ReceiptStatus) (upTo : Time) (groupID : bytes) (claim : option Claim.t) : contentWire :=
  mkContentWire versionReceipt (lit "receipt") [] [] [] [] None [] [] (ReceiptStatus_String status) (format_receipt upTo) [] groupID [] [] claim.
(** The signal of [ResetSession]. *)
Definition rekey_body (reason : RekeyReason) : contentWire :=
  mkContentWire versionRekey (lit "rekey") [] [] [] [] None [] [] [] [] (RekeyReason_String reason) [] [] [] None.

(** ** What arrives *)

(** A time the wire format can write. *)
Definition writable (t : Time) : Prop := four_digit_year (unix_seconds t) ∧ 0 ≤ t_nsec t < second.

Lemma parse_fraction_ms n : 0 ≤ n < 1000 → parse_fraction (46 :: digits 3 n ++ [90]) = (n * 1000000, [90]).
Proof.
  intros Hn. cbn [parse_fraction]. change ((46 =? 46) || (46 =? 44)) with true. cbv iota.
  rewrite digit_run_digits by (done || apply digits_range). unfold zlen, nanoseconds. rewrite length_digits.
  change (Z.of_nat 3 =? 0) with false. cbv iota. rewrite take_ge by (rewrite length_digits; lia). rewrite dec_value_digits, Z.mod_small by (change (10 ^ Z.of_nat 3) with 1000; lia).
  unfold zlen. rewrite length_digits. change (10 ^ (9 - Z.of_nat 3)) with 1000000. done.
Qed.

(** The wire format keeps what the receipt clock keeps. *)
Lemma receipt_parse t : writable t → time_parse (format_receipt t) = Some (receiptClock t).
Proof.
  intros [Hy Hn]. unfold format_receipt, second in *. change (46 :: digits 3 (t_nsec t / 1000000) ++ [90]) with ((46 :: digits 3 (t_nsec t / 1000000)) ++ [90]).
  rewrite (time_parse_body _ _ (t_nsec t / 1000000 * 1000000)).
  - unfold receiptClock, unix_seconds. do 2 f_equal; Z.to_euclidean_division_equations; lia.
  - done.
  - rewrite <- app_comm_cons. apply parse_fraction_ms. Z.to_euclidean_division_equations. lia.
Qed.
Lemma receiptClock_writable t : writable t → writable (receiptClock t).
Proof. intros [Hy Hn]. split; [done|]. unfold receiptClock, second in *. cbn [t_nsec]. Z.to_euclidean_division_equations. lia. Qed.
Lemma receiptClock_idem t : receiptClock (receiptClock t) = receiptClock t.
Proof. unfold receiptClock. cbn [t_sec t_nsec]. f_equal. Z.to_euclidean_division_equations. lia. Qed.
Lemma receiptClock_utc t : utc (receiptClock t) = receiptClock t.
Proof. done. Qed.
Lemma format_receipt_utc t : format_receipt (utc t) = format_receipt t.
Proof. done. Qed.
Lemma format_receipt_ne t : zlen (format_receipt t) =? 0 = false.
Proof. apply Z.eqb_neq. unfold format_receipt, zlen. rewrite length_app. cbn [length]. lia. Qed.

Definition fetchable (a : Attachment) : Prop := AtBlobID a ≠ [] ∧ AtKey a ≠ [].
#[local] Instance fetchable_dec a : Decision (fetchable a).
Proof. unfold fetchable. apply _. Defined.

Lemma decode_attachment_wire a : encodable (attachment_wire a) →
  decode_attachment (json_Marshal (attachment_wire a)) = if decide (fetchable a) then Some a else None.
Proof.
  intros He. unfold decode_attachment. rewrite unmarshal_marshal by done. cbn [mbind option_bind].
  unfold attachment_wire, fetchable. destruct a as [k alg blob key mime sz w h th]. cbn.
  case_decide as Hd.
  - destruct Hd. rewrite !(proj2 (Z.eqb_neq _ 0)); [done|by destruct key|by destruct blob].
  - destruct blob; [done|]. destruct key; [by rewrite orb_true_r|]. exfalso. apply Hd. by split.
Qed.
Lemma decode_attachments l : Forall (λ a, encodable (attachment_wire a)) l →
  decodeAttachments (json_Marshal <$> (attachment_wire <$> l)) = filter fetchable l.
Proof.
  unfold decodeAttachments. induction 1 as [|a l Ha _ IH]; [done|]. rewrite !fmap_cons. cbn [omap list_omap].
  rewrite decode_attachment_wire by done. rewrite filter_cons. case_decide; by rewrite IH.
Qed.

Lemma decode_text raw w : json_Unmarshal raw = Some w → WV w = versionText → DecodeContent raw = text_content ContentText [] [] w raw.
Proof. intros E V. unfold DecodeContent. by rewrite E, V. Qed.
Lemma decode_receipt raw w upTo st : json_Unmarshal raw = Some w → WV w = versionReceipt → WKind w = lit "receipt" →
  time_parse (WUpToSentAt w) = Some upTo → receipt_status (WStatus w) = Some st →
  DecodeContent raw = mkContent ContentReceipt (WID w) [] None [] [] [] [] None [] (Some st) (Some (utc upTo)) (WGroupID w) None [] [] None [] (WProfile w) raw.
Proof. intros E V K Hu Hs. unfold DecodeContent. by rewrite E, V, K, Hu, Hs. Qed.

(** What [DecodeContent] makes of a composed message. *)
Lemma decode_encodeText line server sentAt claim :
  encodable (text_body line server sentAt claim) → Forall (λ a, encodable (attachment_wire a)) (MAttachments line) → writable sentAt →
  let reply := negb (zlen (MReplyToID line) =? 0) in
  DecodeContent (encodeText line server sentAt claim) =
  mkContent ContentText (MID line) (MText line) (Some (receiptClock sentAt)) server (filter fetchable (MAttachments line))
    (MReplyToID line) (if reply then MReplyText line else []) (if reply then MReplyMine line else None) (if reply then MReplyAuthorID line else [])
    None None [] None [] [] None [] claim (encodeText line server sentAt claim).
Proof.
  intros He Ha Hw reply. pose proof (unmarshal_marshal _ He : json_Unmarshal (encodeText line server sentAt claim) = _) as Hraw.
  rewrite (decode_text _ _ Hraw) by done. generalize (encodeText line server sentAt claim). intros raw.
  unfold text_content, text_body. cbn [WID WText WSentAt WSenderServer WAttachments WReplyTo WReplyPreview WProfile].
  rewrite format_receipt_ne, format_receipt_utc, receipt_parse, decode_attachments by done. cbn [fmap option_fmap option_map]. rewrite receiptClock_utc.
  unfold reply, reply_preview. destruct (zlen (MReplyToID line) =? 0); [done|]. cbn [negb default RpText RpMine RpAuthor].
  f_equal. by destruct (MReplyAuthorID line).
Qed.

(** C15: what one client writes, the other reads.  The body of a composed message decodes to a
    text message with the same id, text, server, reply and profile claim; its time of sending to
    the millisecond; and those attachments that can be fetched. *)
Theorem text_arrives line server sentAt claim :
  encodable (text_body line server sentAt claim) → Forall (λ a, encodable (attachment_wire a)) (MAttachments line) → writable sentAt →
  let reply := negb (zlen (MReplyToID line) =? 0) in
  DecodeContent (encodeText line server sentAt claim) =
  mkContent ContentText (MID line) (MText line) (Some (receiptClock sentAt)) server (filter fetchable (MAttachments line))
    (MReplyToID line) (if reply then MReplyText line else []) (if reply then MReplyMine line else None) (if reply then MReplyAuthorID line else [])
    None None [] None [] [] None [] claim (encodeText line server sentAt claim).
Proof. apply decode_encodeText. Qed.

(** A confirmation reaches what it confirms.  The time of sending that arrives with a message
    is the time its author stored it under, and echoed back in a receipt it arrives as that
    time again, so the receipt is not before the message: its author's mark turns. *)
Theorem receipt_reaches_anchor line server now claim status groupID claim' :
  let stamp := receiptClock now in
  let there := DecodeContent (encodeText line server stamp claim) in
  let back := DecodeContent (json_Marshal (receipt_body status (utc (default stamp (CSentAt there))) groupID claim')) in
  encodable (text_body line server stamp claim) → encodable (receipt_body status stamp groupID claim') →
  Forall (λ a, encodable (attachment_wire a)) (MAttachments line) → writable now →
  CSentAt there = Some stamp ∧ CKind back = ContentReceipt ∧ CReceiptStatus back = Some status ∧ CReceiptUpTo back = Some stamp ∧
  after stamp stamp = false ∧ CReceiptGroupID back = groupID ∧ CProfile back = claim'.
Proof.
  intros stamp there back He Hr Ha Hw. pose proof (receiptClock_writable _ Hw) as Hw'.
  pose proof (decode_encodeText line server stamp claim He Ha Hw') as Et. cbv zeta in Et. fold there in Et.
  assert (CSentAt there = Some stamp) as Es by (rewrite Et; cbn [CSentAt]; f_equal; apply receiptClock_idem). split; [done|].
  subst back. rewrite Es. change (utc (default stamp (Some stamp))) with stamp.
  rewrite (decode_receipt _ _ stamp status (unmarshal_marshal _ Hr)); try done; [|cbn [WUpToSentAt receipt_body]; rewrite (receipt_parse stamp Hw'); f_equal; apply receiptClock_idem|by destruct status].
  cbn [CKind CReceiptStatus CReceiptUpTo CReceiptGroupID CProfile WGroupID WProfile receipt_body].
  split_and!; try done. unfold after, before, stamp, receiptClock. cbn [t_mono t_sec t_nsec]. rewrite !Z.ltb_irrefl. by rewrite andb_false_r.
Qed.
End content.
