(* ===== verification/ClientState.v ===== *)
(** * pkg/client: an account's directory and the operations on it

    The layout of layout.go as a record: one directory per peer, per chat and per group, and
    the account's own files.  A small file is the value that was marshalled into it (the
    fact set of a group and the logs, which have codecs of their own, are bytes); [None] is
    a file that does not exist.  An operation is a [proc]: it changes the account and
    returns a value or an error.  Failures of the operating system are not modelled; ids
    that cannot be path elements, values that do not decode and an exhausted random source
    are.  The mutexes are not modelled: every operation runs as one step.

    Sources: client.go, layout.go, store.go, sessions.go, peers.go, settings.go, media.go,
    recovery.go, errors.go, and the device cache of peers_resolve.go. *)

From S2P Require Import Prelude GoStr GoTime GoTimeParse Sha256 Crypto Base64 Bech32m Address DeviceCert GroupEvent GroupState ProfileClaim Ratchet RatchetCorrect ClientLog ClientDedup ClientTranscript.

(** ** Errors *)

Inductive sentinel :=
  | ErrNoIdentity | ErrNoSessionMaterial | ErrPeerBlocked | ErrPeerGone | ErrFederationDisabled | ErrAttachmentNotResendable | ErrUnreachable.
#[export] Instance sentinel_eq_dec : EqDecision sentinel.
Proof. solve_decision. Defined.

(** [EURL] is a transport failure ([*url.Error]); [EEnqueue] is the status a batch reports for one
    copy ([enqueueError]); [EDecrypt] is [DecryptError], whose last three fields
    are [DesyncEvidence], [GaveUp] and [RekeyNeeded]. *)
Inductive cerr :=
  | EMsg (what : string)
  | EIs (s : sentinel)
  | ERatchet (e : Ratchet.Error)
  | EAPI (status : Z) (code : bytes)
  | ENotFreizone (status : Z)
  | EEnqueue (status : bytes)
  | EURL
  | EWrap (what : string) (e : cerr)
  | EJoin (a b : cerr)
  | EDecrypt (messageID peer : bytes) (e : cerr) (evidence gaveUp rekey : bool).

(** The first error of the tree, in the order of [errors.Is] and [errors.As], that [p] accepts. *)
Fixpoint find_err {A} (p : cerr → option A) (e : cerr) : option A :=
  match p e with
  | Some a => Some a
  | None =>
    match e with
    | EWrap _ e | EDecrypt _ _ e _ _ _ => find_err p e
    | EJoin a b => match find_err p a with Some x => Some x | None => find_err p b end
    | _ => None
    end
  end.
Definition errors_Is (s : sentinel) (e : cerr) : bool :=
  present (find_err (λ x, match x with EIs s' => if decide (s = s') then Some () else None | _ => None end) e).
Definition errors_Is_ratchet (r : Ratchet.Error) (e : cerr) : bool :=
  present (find_err (λ x, match x with ERatchet r' => if decide (r = r') then Some () else None | _ => None end) e).
Definition as_api (e : cerr) : option (Z * bytes) :=
  find_err (λ x, match x with EAPI st code => Some (st, code) | _ => None end) e.
Definition as_decrypt (e : cerr) : option (bool * bool * bool) :=
  find_err (λ x, match x with EDecrypt _ _ _ ev gu rk => Some (ev, gu, rk) | _ => None end) e.

(** [ratchet.FailureCode] and [SuggestsDesync] of an error that may wrap the ratchet's. *)
Definition FailureCode_of (e : cerr) : string :=
  if errors_Is_ratchet ErrDuplicateMessage e then "duplicate_message"
  else if errors_Is_ratchet ErrAuthentication e then "authentication_failed"
  else if errors_Is_ratchet ErrTooManySkipped e then "too_many_skipped"
  else if errors_Is_ratchet ErrNoReceivingChain e then "no_receiving_chain" else "".
Definition SuggestsDesync_of (e : cerr) : bool :=
  let code := FailureCode_of e in
  (code =?b "authentication_failed"%string) || (code =?b "too_many_skipped"%string) || (code =?b "no_receiving_chain"%string).

Definition IsStaleDevice (e : cerr) : bool :=
  match as_api e with Some (status, code) => (status =? 404) && negb (code =?b lit "federation_disabled") | None => false end.
Definition IsUnreachable (e : cerr) : bool :=
  if present (as_api e) then false
  else if present (find_err (λ x, match x with ENotFreizone _ => Some () | _ => None end) e) then false
  else errors_Is ErrUnreachable e || present (find_err (λ x, match x with EURL => Some () | _ => None end) e).
Definition IsStaleRecipientStatus (status : bytes) : bool := status =?b lit "unknown_recipient".
Definition IsDeliveredStatus (status : bytes) : bool := (status =?b lit "queued") || (status =?b lit "duplicate").

(** ** Files *)

Record identityFile := mkIdentityFile {
  If_AccountID : bytes; If_Server : bytes; If_RootPub : bytes; If_RootPriv : bytes; If_DeviceID : bytes; If_DevicePub : bytes; If_DevicePriv : bytes;
  If_DHIdentityPub : bytes; If_DHIdentityPriv : bytes; If_SignedPrekeyID : Z; If_SignedPrekeyPub : bytes; If_SignedPrekeyPriv : bytes;
  If_NextSignedPrekeyID : Z; If_NextOneTimePrekeyID : Z; If_RecoveryBackupDone : bool; If_PushRegisteredAt : bytes; If_PushMechanism : bytes;
}.
Record OwnIdentity := mkOwnIdentity {
  MyAccountID : bytes; MyServer : bytes; MyRootPub : bytes; MyRootPriv : bytes; MyDeviceID : bytes; MyDevicePub : bytes; MyDevicePriv : bytes;
  MyDHIdentityPub : bytes; MyDHIdentityPriv : bytes; MySignedPrekeyID : Z; MySignedPrekeyPub : bytes; MySignedPrekeyPriv : bytes;
  MyNextSignedPrekeyID : Z; MyNextOneTimePrekeyID : Z; MyRecoveryBackupDone : bool; MyPushRegisteredAt : option Time; MyPushMechanism : bytes;
}.
Record OneTimePrekey := mkOneTimePrekey { OtKeyID : Z; OtPub : bytes; OtPriv : bytes }.
Record healthFile := mkHealthFile { Hf_DesyncEvidence : Z; Hf_FirstFailureAt : bytes; Hf_LastRekeyAt : bytes }.
Record PeerSessionHealth := mkHealth { DesyncEvidence : Z; FirstFailureAt : option Time; LastRekeyAt : option Time }.
Record peerDeviceFile := mkDeviceFile { Df_Server : bytes; Df_DeviceID : bytes; Df_DevicePub : bytes }.
Record profileFile := mkProfileFile { Pf_Claims : list Claim.t; Pf_Pending : list Claim.t; Pf_SentAt : option Time }.
Record conversationFile := mkConversationFile {
  Cf_PeerAccountID : bytes; Cf_PeerServer : bytes; Cf_LastActivityAt : bytes; Cf_HasUnread : bool; Cf_Blocked : bool; Cf_PendingApproval : bool;
  Cf_PeerGone : bool; Cf_PeerDeliveredUpTo : bytes; Cf_PeerReadUpTo : bytes; Cf_SentDeliveredReceiptUpTo : bytes; Cf_SentReadReceiptUpTo : bytes;
}.
Record Conversation := mkConversation {
  PeerAccountID : bytes; PeerServer : bytes; LastActivityAt : option Time; HasUnread : bool; ConvBlocked : bool; PendingApproval : bool;
  PeerGone : bool; PeerDeliveredUpTo : option Time; PeerReadUpTo : option Time; SentDeliveredReceiptUpTo : option Time; SentReadReceiptUpTo : option Time;
}.
Record blockedEntry := mkBlockedEntry { Be_PeerAccountID : bytes; Be_PeerServer : bytes }.
Record settingsFile := mkSettings { ReceiptsDisabled : bool; SProfileName : bytes; SProfileNameSetAt : bytes }.
Record memberReceiptFile := mkReceiptFile {
  Mf_DeliveredUpTo : bytes; Mf_ReadUpTo : bytes; Mf_SentDeliveredReceiptUpTo : bytes; Mf_SentReadReceiptUpTo : bytes;
}.
Record groupChatFile := mkGroupChatFile {
  Gf_GroupID : bytes; Gf_LastActivityAt : bytes; Gf_HasUnread : bool; Gf_MemberReceipts : gmap bytes memberReceiptFile;
}.
(** A Go map is nil or has entries; both are the map of its entries. *)
Record groupPeers := mkGroupPeers {
  StateHashes : gmap bytes bytes; Owed : gset bytes; Answered : gmap bytes bytes; LastSyncRequest : bytes;
}.

Record peer_dir := mkPeerDir {
  session_json : option sessionJSON; inbound_json : option sessionJSON; health_json : option healthFile; device_json : option peerDeviceFile;
  profile_json : option profileFile;
}.
Record chat_dir := mkChatDir { meta_json : option conversationFile; log_jsonl : option bytes }.
Record group_dir := mkGroupDir {
  facts_json : option bytes; held_json : option (list (option Event)); peers_json : option groupPeers; chat_json : option groupChatFile;
}.
Definition empty_peer : peer_dir := mkPeerDir None None None None None.
Definition empty_chat : chat_dir := mkChatDir None None.
Definition empty_group : group_dir := mkGroupDir None None None None.

(** A request as it leaves the device, with the headers that were set. *)
Record HttpRequest := mkHttp { HMethod : bytes; HTarget : bytes; HHeaders : list (bytes * bytes); HBody : bytes }.
(** What has been sent, in order, and how often the clock was read. *)
Record outside := mkOutside { sent : list HttpRequest; ticks : nat }.

(** [media] is keyed by chat, message and suffix; [dedup] is what the client keeps in memory of the
    two files of [ClientDedup]; [rng] is what the random source has yet to yield; [registering]: the marker
    file of a registration in flight exists. *)
Record account := mkAccount {
  identity_json : option identityFile; known_json : list bytes; blocked_json : list blockedEntry; settings_json : settingsFile;
  prekeys : gmap Z OneTimePrekey; peers : gmap bytes peer_dir; chats : gmap bytes chat_dir; groups : gmap bytes group_dir;
  media : gmap (bytes * bytes * bytes) bytes; dedup : Dedup; dedup_files : disk; rng : list bytes;
  outer : outside; registering : bool;
}.
Definition zero_settings : settingsFile := mkSettings false [] [].
Definition empty_account : account := mkAccount None [] [] zero_settings ∅ ∅ ∅ ∅ ∅ empty_dedup (mkDisk None None) [] (mkOutside [] 0) false.

Definition with_identity (a : account) (v : option identityFile) : account :=
  mkAccount v (known_json a) (blocked_json a) (settings_json a) (prekeys a) (peers a) (chats a) (groups a) (media a) (dedup a) (dedup_files a) (rng a) (outer a) (registering a).
Definition with_known (a : account) (v : list bytes) : account :=
  mkAccount (identity_json a) v (blocked_json a) (settings_json a) (prekeys a) (peers a) (chats a) (groups a) (media a) (dedup a) (dedup_files a) (rng a) (outer a) (registering a).
Definition with_blocked (a : account) (v : list blockedEntry) : account :=
  mkAccount (identity_json a) (known_json a) v (settings_json a) (prekeys a) (peers a) (chats a) (groups a) (media a) (dedup a) (dedup_files a) (rng a) (outer a) (registering a).
Definition with_settings (a : account) (v : settingsFile) : account :=
  mkAccount (identity_json a) (known_json a) (blocked_json a) v (prekeys a) (peers a) (chats a) (groups a) (media a) (dedup a) (dedup_files a) (rng a) (outer a) (registering a).
Definition with_prekeys (a : account) (v : gmap Z OneTimePrekey) : account :=
  mkAccount (identity_json a) (known_json a) (blocked_json a) (settings_json a) v (peers a) (chats a) (groups a) (media a) (dedup a) (dedup_files a) (rng a) (outer a) (registering a).
Definition with_peers (a : account) (v : gmap bytes peer_dir) : account :=
  mkAccount (identity_json a) (known_json a) (blocked_json a) (settings_json a) (prekeys a) v (chats a) (groups a) (media a) (dedup a) (dedup_files a) (rng a) (outer a) (registering a).
Definition with_chats (a : account) (v : gmap bytes chat_dir) : account :=
  mkAccount (identity_json a) (known_json a) (blocked_json a) (settings_json a) (prekeys a) (peers a) v (groups a) (media a) (dedup a) (dedup_files a) (rng a) (outer a) (registering a).
Definition with_groups (a : account) (v : gmap bytes group_dir) : account :=
  mkAccount (identity_json a) (known_json a) (blocked_json a) (settings_json a) (prekeys a) (peers a) (chats a) v (media a) (dedup a) (dedup_files a) (rng a) (outer a) (registering a).
Definition with_media (a : account) (v : gmap (bytes * bytes * bytes) bytes) : account :=
  mkAccount (identity_json a) (known_json a) (blocked_json a) (settings_json a) (prekeys a) (peers a) (chats a) (groups a) v (dedup a) (dedup_files a) (rng a) (outer a) (registering a).
Definition with_dedup (a : account) (c : Dedup) (d : disk) : account :=
  mkAccount (identity_json a) (known_json a) (blocked_json a) (settings_json a) (prekeys a) (peers a) (chats a) (groups a) (media a) c d (rng a) (outer a) (registering a).
Definition with_rng (a : account) (v : list bytes) : account :=
  mkAccount (identity_json a) (known_json a) (blocked_json a) (settings_json a) (prekeys a) (peers a) (chats a) (groups a) (media a) (dedup a) (dedup_files a) v (outer a) (registering a).

Definition with_outer (a : account) (v : outside) : account :=
  mkAccount (identity_json a) (known_json a) (blocked_json a) (settings_json a) (prekeys a) (peers a) (chats a) (groups a) (media a) (dedup a) (dedup_files a) (rng a) v (registering a).

Definition with_registering (a : account) (v : bool) : account :=
  mkAccount (identity_json a) (known_json a) (blocked_json a) (settings_json a) (prekeys a) (peers a) (chats a) (groups a) (media a) (dedup a) (dedup_files a) (rng a)
    (outer a) v.

Definition peer_of (a : account) (peer : bytes) : peer_dir := default empty_peer (peers a !! peer).
Definition chat_of (a : account) (chat : bytes) : chat_dir := default empty_chat (chats a !! chat).
Definition group_of (a : account) (g : bytes) : group_dir := default empty_group (groups a !! g).

(** ** Procedures *)

Definition proc (A : Type) : Type := account → account * res cerr A.
#[export] Instance proc_ret : MRet proc := λ A x a, (a, Ok x).
#[export] Instance proc_bind : MBind proc := λ A B f m a,
  match m a with (a, Ok x) => f x a | (a, Err e) => (a, Err e) | (a, Panic) => (a, Panic) end.
Definition lift {A} (r : res cerr A) : proc A := λ a, (a, r).
Definition fail {A} (e : cerr) : proc A := lift (Err e).
Definition gets {A} (f : account → A) : proc A := λ a, (a, Ok (f a)).
Definition change (f : account → account) : proc () := λ a, (f a, Ok ()).
Definition msg {A} (r : res string A) : proc A := lift (wrap_err EMsg r).
(** The call with its error in hand. *)
Definition attempt {A} (m : proc A) : proc (A + cerr) := λ a,
  match m a with (a, Ok x) => (a, Ok (inl x)) | (a, Err e) => (a, Ok (inr e)) | (a, Panic) => (a, Panic) end.
Definition when (b : bool) (m : proc ()) : proc () := if b then m else mret ().
Fixpoint for_each {A} (f : A → proc ()) (l : list A) : proc () :=
  match l with [] => mret () | x :: l => _ ← f x; for_each f l end.

Definition safe (id : bytes) : proc () := msg (safeElement id).
(** A file of a directory written, creating the directory, or removed. *)
Definition write_peer (peer : bytes) (f : peer_dir → peer_dir) : proc () :=
  _ ← safe peer; change (λ a, with_peers a (<[peer := f (peer_of a peer)]> (peers a))).
Definition remove_peer (peer : bytes) (f : peer_dir → peer_dir) : proc () :=
  _ ← safe peer; change (λ a, with_peers a (alter f peer (peers a))).
Definition write_chat (chat : bytes) (f : chat_dir → chat_dir) : proc () :=
  _ ← safe chat; change (λ a, with_chats a (<[chat := f (chat_of a chat)]> (chats a))).
Definition remove_chat (chat : bytes) (f : chat_dir → chat_dir) : proc () :=
  _ ← safe chat; change (λ a, with_chats a (alter f chat (chats a))).
Definition write_group (g : bytes) (f : group_dir → group_dir) : proc () :=
  _ ← safe g; change (λ a, with_groups a (<[g := f (group_of a g)]> (groups a))).
Definition remove_group (g : bytes) (f : group_dir → group_dir) : proc () :=
  _ ← safe g; change (λ a, with_groups a (alter f g (groups a))).

(** The next value of the random source: none left is a failing [rand.Read]. *)
Definition draw : proc (option bytes) := λ a, match rng a with x :: l => (with_rng a l, Ok (Some x)) | [] => (a, Ok None) end.
Definition newMessageID : proc bytes :=
  r ← draw; match r with Some b => mret (hex_encode (take 16 b)) | None => fail (EMsg "client: generating a message id") end.

(** ** client.go: the identity *)

Definition SetIdentity (id : OwnIdentity) : proc () :=
  change (λ a, with_identity a (Some (mkIdentityFile (MyAccountID id) (MyServer id) (MyRootPub id) (MyRootPriv id) (MyDeviceID id) (MyDevicePub id)
    (MyDevicePriv id) (MyDHIdentityPub id) (MyDHIdentityPriv id) (MySignedPrekeyID id) (MySignedPrekeyPub id) (MySignedPrekeyPriv id)
    (MyNextSignedPrekeyID id) (MyNextOneTimePrekeyID id) (MyRecoveryBackupDone id) (formatTime (MyPushRegisteredAt id)) (MyPushMechanism id)))).
Definition load_identity (f : option identityFile) : res cerr OwnIdentity :=
  match f with
  | None => Err (EIs ErrNoIdentity)
  | Some s =>
    at_ ← wrap_err (λ _, EMsg "client: parsing push_registered_at") (parseTime (If_PushRegisteredAt s));
    Ok (mkOwnIdentity (If_AccountID s) (If_Server s) (If_RootPub s) (If_RootPriv s) (If_DeviceID s) (If_DevicePub s) (If_DevicePriv s)
      (If_DHIdentityPub s) (If_DHIdentityPriv s) (If_SignedPrekeyID s) (If_SignedPrekeyPub s) (If_SignedPrekeyPriv s)
      (If_NextSignedPrekeyID s) (If_NextOneTimePrekeyID s) (If_RecoveryBackupDone s) at_ (If_PushMechanism s))
  end.
Definition Identity : proc OwnIdentity := f ← gets identity_json; lift (load_identity f).

(** ** sessions.go *)

Inductive SessionKind := Sending | Inbound.
#[export] Instance SessionKind_eq_dec : EqDecision SessionKind.
Proof. solve_decision. Defined.
Definition session_file (kind : SessionKind) (d : peer_dir) : option sessionJSON :=
  match kind with Sending => session_json d | Inbound => inbound_json d end.
Definition set_session_file (kind : SessionKind) (v : option sessionJSON) (d : peer_dir) : peer_dir :=
  match kind with
  | Sending => mkPeerDir v (inbound_json d) (health_json d) (device_json d) (profile_json d)
  | Inbound => mkPeerDir (session_json d) v (health_json d) (device_json d) (profile_json d)
  end.

Definition load_session (f : option sessionJSON) : res cerr (option Session) :=
  match f with
  | None => Ok None
  | Some sj => s ← wrap_err (λ e, EWrap "client: decoding session" (ERatchet e)) (fromJSON zero_session sj); Ok (Some s)
  end.
Definition LoadSession (peer : bytes) (kind : SessionKind) : proc (option Session) :=
  _ ← safe peer; f ← gets (λ a, session_file kind (peer_of a peer)); lift (load_session f).
Definition SetSession (peer : bytes) (kind : SessionKind) (s : Session) : proc () :=
  write_peer peer (set_session_file kind (Some (toJSON_in s (map_to_list (Skipped s))))).
Definition DeleteSession (peer : bytes) (kind : SessionKind) : proc () := remove_peer peer (set_session_file kind None).

(** A prekey's file is named by its number, and that number is in it. *)
Definition LookupOneTimePrekey (id : Z) : proc (option OneTimePrekey) := gets (λ a, prekeys a !! id).
Definition PutOneTimePrekeys (keys : list OneTimePrekey) : proc () :=
  for_each (λ k, change (λ a, with_prekeys a (<[OtKeyID k := k]> (prekeys a)))) keys.
Definition ConsumeOneTimePrekey (id : Z) : proc () := change (λ a, with_prekeys a (delete id (prekeys a))).
Definition CountOneTimePrekeys : proc Z := gets (λ a, Z.of_nat (size (prekeys a))).

(** ** dedup.go over the account *)

Section dedup.
Context {JP : Json processedRecord} {JF : Json failuresFile}.
Definition was_processed (id : bytes) : proc bool := gets (λ a, WasMessageProcessed (dedup a) id).
Definition mark_processed (id : bytes) : proc () := λ a,
  let '(c, d, r) := MarkMessageProcessed (dedup a) (dedup_files a) id in (with_dedup a c d, wrap_err EMsg r).
Definition record_failure (id : bytes) : proc bool := λ a,
  let '(c, d, giveUp) := RecordDecryptFailure (dedup a) (dedup_files a) id in (with_dedup a c d, Ok giveUp).
End dedup.

(** ** peers.go: session health *)

Definition set_health (v : option healthFile) (d : peer_dir) : peer_dir :=
  mkPeerDir (session_json d) (inbound_json d) v (device_json d) (profile_json d).
Definition load_health (f : option healthFile) : res string (option PeerSessionHealth) :=
  match f with
  | None => Ok None
  | Some s =>
    first ← parseTime (Hf_FirstFailureAt s); last ← parseTime (Hf_LastRekeyAt s);
    Ok (Some (mkHealth (Hf_DesyncEvidence s) first last))
  end.
Definition LoadHealth (peer : bytes) : proc (option PeerSessionHealth) :=
  _ ← safe peer; f ← gets (λ a, health_json (peer_of a peer)); msg (load_health f).
Definition writeHealth (peer : bytes) (h : PeerSessionHealth) : proc () :=
  write_peer peer (set_health (Some (mkHealthFile (DesyncEvidence h) (formatTime (FirstFailureAt h)) (formatTime (LastRekeyAt h))))).
Definition ClearDesyncEvidence (peer : bytes) : proc () := remove_peer peer (set_health None).
Definition RecordAutoRekey (peer : bytes) (at_ : Time) : proc () := writeHealth peer (mkHealth 0 None (Some at_)).

(** ** peers.go: conversations *)

Definition resolve_conversation (f : conversationFile) : res string Conversation :=
  last ← parseTime (Cf_LastActivityAt f); d ← parseTime (Cf_PeerDeliveredUpTo f); r ← parseTime (Cf_PeerReadUpTo f);
  sd ← parseTime (Cf_SentDeliveredReceiptUpTo f); sr ← parseTime (Cf_SentReadReceiptUpTo f);
  Ok (mkConversation (Cf_PeerAccountID f) (Cf_PeerServer f) last (Cf_HasUnread f) (Cf_Blocked f) (Cf_PendingApproval f) (Cf_PeerGone f) d r sd sr).
Definition conversation_file (c : Conversation) : conversationFile :=
  mkConversationFile (PeerAccountID c) (PeerServer c) (formatTime (LastActivityAt c)) (HasUnread c) (ConvBlocked c) (PendingApproval c) (PeerGone c)
    (formatTime (PeerDeliveredUpTo c)) (formatTime (PeerReadUpTo c)) (formatTime (SentDeliveredReceiptUpTo c)) (formatTime (SentReadReceiptUpTo c)).
Definition set_meta (v : option conversationFile) (d : chat_dir) : chat_dir := mkChatDir v (log_jsonl d).
Definition load_conversation (f : option conversationFile) : res string (option Conversation) :=
  match f with None => Ok None | Some f => c ← resolve_conversation f; Ok (Some c) end.
Definition LoadConversation (peer : bytes) : proc (option Conversation) :=
  _ ← safe peer; f ← gets (λ a, meta_json (chat_of a peer)); msg (load_conversation f).
Definition PutConversation (convo : Conversation) : proc () :=
  write_chat (PeerAccountID convo) (set_meta (Some (conversation_file convo))).
Definition DeleteConversation (peer : bytes) : proc () := remove_chat peer (set_meta None).

Definition RecordDesyncEvidence (peer : bytes) (at_ : Time) : proc bool :=
  convo ← LoadConversation peer;
  match convo with
  | None => mret false
  | Some _ =>
    h ← LoadHealth peer;
    let h := default (mkHealth 0 None None) h in
    _ ← writeHealth peer (mkHealth (DesyncEvidence h + 1) (Some (default at_ (FirstFailureAt h))) (LastRekeyAt h));
    mret true
  end.

(** Most recently active first; never active last; ties by account id. *)
Definition convo_before (x y : Conversation) : bool :=
  match LastActivityAt x, LastActivityAt y with
  | None, None => negb (bytes_leb (PeerAccountID y) (PeerAccountID x))
  | None, Some _ => false
  | Some _, None => true
  | Some a, Some b => if time_equal a b then negb (bytes_leb (PeerAccountID y) (PeerAccountID x)) else after a b
  end.
Definition convo_le (x y : Conversation) : Prop := convo_before y x = false.
#[export] Instance convo_le_dec : RelDecision convo_le.
Proof. intros x y. unfold convo_le. apply _. Defined.
Fixpoint load_all (ids : list bytes) : proc (list Conversation) :=
  match ids with
  | [] => mret []
  | id :: ids => c ← LoadConversation id; l ← load_all ids; mret (match c with Some c => c :: l | None => l end)
  end.
Definition Conversations : proc (list Conversation) :=
  ids ← gets (λ a, sort_strings (map_to_list (chats a)).*1); l ← load_all ids; mret (merge_sort convo_le l).

(** ** peers.go: known and blocked peers *)

Definition MarkPeerKnown (peer : bytes) : proc () :=
  set ← gets (λ a, list_to_set (known_json a) : gset bytes);
  if decide (peer ∈ set) then mret () else change (λ a, with_known a (sort_strings (elements ({[peer]} ∪ set)))).
Definition IsPeerKnown (peer : bytes) : proc bool := gets (λ a, bool_decide (peer ∈ known_json a)).

(** Later entries of the list replace earlier ones. *)
Definition readBlocked (a : account) : gmap bytes blockedEntry :=
  foldl (λ m e, <[Be_PeerAccountID e := e]> m) ∅ (blocked_json a).
Definition blocked_list (m : gmap bytes blockedEntry) : list blockedEntry := sort_by Be_PeerAccountID bytes_le (map_to_list m).*2.
Definition BlockPeer (peer server : bytes) : proc () :=
  change (λ a, with_blocked a (blocked_list (<[peer := mkBlockedEntry peer server]> (readBlocked a)))).
Definition UnblockPeer (peer : bytes) : proc () :=
  entries ← gets readBlocked;
  if decide (is_Some (entries !! peer)) then change (λ a, with_blocked a (blocked_list (delete peer entries))) else mret ().
Definition IsPeerBlocked (peer : bytes) : proc bool := gets (λ a, present (readBlocked a !! peer)).

(** ** settings.go *)

Definition ReceiptsEnabled : proc bool := gets (λ a, negb (ReceiptsDisabled (settings_json a))).
Definition SetReceiptsEnabled (enabled : bool) : proc () :=
  change (λ a, with_settings a (mkSettings (negb enabled) (SProfileName (settings_json a)) (SProfileNameSetAt (settings_json a)))).
Definition ProfileName : proc (bytes * option Time) :=
  s ← gets settings_json; at_ ← msg (parseTime (SProfileNameSetAt s)); mret (SProfileName s, at_).
(** The stamp is forced past the previous one. *)
Definition next_stamp (now : Time) (previous : bytes) : Time :=
  let now := truncate_second (utc now) in
  match parseTime previous with
  | Ok (Some p) => if after now p then now else time_add p second
  | _ => now
  end.
Definition SetProfileName (now : Time) (name : bytes) : proc () :=
  let name := Claim.NormalizeName name in
  _ ← msg (Claim.ValidateName name);
  s ← gets settings_json;
  if (SProfileName s =?b name) && negb (SProfileNameSetAt s =?b []) then mret ()
  else change (λ a, with_settings a (mkSettings (ReceiptsDisabled s) name (formatTime (Some (next_stamp now (SProfileNameSetAt s)))))).

(** ** The device cache (peers_resolve.go) *)

Definition set_device (v : option peerDeviceFile) (d : peer_dir) : peer_dir :=
  mkPeerDir (session_json d) (inbound_json d) (health_json d) v (profile_json d).
Definition peerDevice (peer : bytes) : proc (option peerDeviceFile) := _ ← safe peer; gets (λ a, device_json (peer_of a peer)).
Definition writePeerDevice (accountID server deviceID devicePub : bytes) : proc () :=
  write_peer accountID (set_device (Some (mkDeviceFile server deviceID devicePub))).
Definition ForgetPeerDevice (peer : bytes) : proc () :=
  _ ← remove_peer peer (set_device None); _ ← DeleteSession peer Sending; DeleteSession peer Inbound.

(** ** Transcripts and media *)

Definition set_log (v : option bytes) (d : chat_dir) : chat_dir := mkChatDir (meta_json d) v.
Definition run_log (chat : bytes) (op : option bytes → option bytes * res string ()) : proc () := λ a,
  let '(f, r) := op (log_jsonl (chat_of a chat)) in
  ((if decide (f = log_jsonl (chat_of a chat)) then a else with_chats a (<[chat := set_log f (chat_of a chat)]> (chats a))), wrap_err EMsg r).
Definition on_log (chat : bytes) (op : option bytes → option bytes * res string ()) : proc () := _ ← safe chat; run_log chat op.
Definition read_log {A} (chat : bytes) (op : option bytes → res string A) : proc A :=
  _ ← safe chat; f ← gets (λ a, log_jsonl (chat_of a chat)); msg (op f).

Definition mediaPath (chat message suffix : bytes) : proc (bytes * bytes * bytes) :=
  _ ← safe chat; _ ← safe message; mret (chat, message, suffix).
Definition WriteAttachmentFile (chat message data : bytes) : proc () :=
  p ← mediaPath chat message []; change (λ a, with_media a (<[p := data]> (media a))).
Definition WriteAttachmentThumb (chat message thumb : bytes) : proc () :=
  if zlen thumb =? 0 then mret ()
  else p ← mediaPath chat message (lit ".thumb"); change (λ a, with_media a (<[p := thumb]> (media a))).
Definition AttachmentFile (chat message : bytes) : proc (option bytes) := p ← mediaPath chat message []; gets (λ a, media a !! p).
Definition AttachmentThumb (chat message : bytes) : proc (option bytes) := p ← mediaPath chat message (lit ".thumb"); gets (λ a, media a !! p).
Definition deleteMessageMedia (chat message : bytes) : proc () :=
  for_each (λ suffix, p ← mediaPath chat message suffix; change (λ a, with_media a (delete p (media a)))) [[]; lit ".thumb"].
Definition DeleteChatMedia (chat : bytes) : proc () :=
  _ ← safe chat; change (λ a, with_media a (filter (λ x, x.1.1.1 ≠ chat) (media a))).

(** ** recovery.go *)

Definition MinDesyncEvidence : Z := 1.
Definition minute : Z := 60 * second.
Definition AutoRekeyResponderGrace : Z := 5 * minute.
Definition MinAutoRekeyInterval : Z := 15 * minute.
Definition shouldAutoRekey (health : option PeerSessionHealth) (mine peer : bytes) (now : Time) : bool :=
  match health with
  | None => false
  | Some h =>
    if DesyncEvidence h <? MinDesyncEvidence then false
    else if match LastRekeyAt h with Some t => time_sub now t <? MinAutoRekeyInterval | None => false end then false
    else if negb (bytes_leb mine peer) then
      match FirstFailureAt h with
      | None => false
      | Some t => negb (time_sub now t <? AutoRekeyResponderGrace)
      end
    else true
  end.
Definition ShouldAutoRekey (peer : bytes) (now : Time) : proc bool :=
  health ← LoadHealth peer;
  match health with
  | None => mret false
  | Some _ => id ← Identity; mret (shouldAutoRekey health (MyAccountID id) peer (utc now))
  end.
