(* ===== verification/ClientProfile.v ===== *)
(** * pkg/client/profile.go: the names peers assert about themselves

    Per peer one file: the verified claims, newest first; those waiting for the key that
    could verify them; and when this account last told the peer its own name. *)

From S2P Require Import Prelude GoStr GoTime GoTimeParse Sha256 Crypto Base64 Bech32m Address DeviceCert GroupEvent GroupState ProfileClaim Ratchet RatchetCorrect ClientLog ClientDedup ClientTranscript ClientState.

Definition maxProfileClaims : Z := 10.
Definition capClaims (claims : list Claim.t) : list Claim.t :=
  if maxProfileClaims <? zlen claims then take (Z.to_nat maxProfileClaims) claims else claims.

Definition set_profile (v : option profileFile) (d : peer_dir) : peer_dir :=
  mkPeerDir (session_json d) (inbound_json d) (health_json d) (device_json d) v.
Definition readProfile (peer : bytes) : proc (option profileFile) := _ ← safe peer; gets (λ a, profile_json (peer_of a peer)).
Definition zero_profile : profileFile := mkProfileFile [] [] None.
Definition updateProfile (peer : bytes) (mutate : profileFile → profileFile) : proc () :=
  stored ← readProfile peer; write_peer peer (set_profile (Some (mutate (default zero_profile stored)))).

(** [Current] and [Name] of a stored profile, nil included. *)
Definition Current (f : profileFile) : option Claim.t := head (Pf_Claims f).
Definition CurrentName (f : profileFile) : bytes := match Current f with Some c => Claim.Name c | None => [] end.
Definition superseded_by (f : profileFile) (claim : Claim.t) : bool :=
  match Current f with Some c => Claim.SupersedesTime claim (Claim.IssuedAt c) | None => true end.
Definition add_claim (claim : Claim.t) (f : profileFile) : profileFile :=
  mkProfileFile (capClaims (claim :: Pf_Claims f)) (Pf_Pending f) (Pf_SentAt f).
Definition hold_claim (claim : Claim.t) (f : profileFile) : profileFile :=
  mkProfileFile (Pf_Claims f) (capClaims (claim :: Pf_Pending f)) (Pf_SentAt f).

Section profile.
Context {ED : Ed25519}.

Definition holdProfileClaim (peer : bytes) (claim : Claim.t) : proc () := updateProfile peer (hold_claim claim).

Definition applyProfileClaim (peer : bytes) (claim : option Claim.t) : proc bool :=
  match claim with
  | None => mret false
  | Some claim =>
    cached ← peerDevice peer;
    match cached with
    | Some d =>
      if negb (Df_DeviceID d =?b Claim.DeviceID claim) || (zlen (Df_DevicePub d) =? 0) then _ ← holdProfileClaim peer claim; mret false
      else
        match Claim.Verify claim peer (Df_DevicePub d) with
        | Panic => lift Panic
        | Err _ => mret false
        | Ok _ =>
          stored ← readProfile peer;
          let f := default zero_profile stored in
          if negb (superseded_by f claim) then mret false
          else _ ← updateProfile peer (add_claim claim); mret (negb (Claim.Name claim =?b CurrentName f))
        end
    | None => _ ← holdProfileClaim peer claim; mret false
    end
  end.

(** One held claim, oldest first. *)
Definition promote (peer deviceID devicePub : bytes) (r : res cerr profileFile) (claim : Claim.t) : res cerr profileFile :=
  f ← r;
  if negb (Claim.DeviceID claim =?b deviceID) then Ok f
  else
    match Claim.Verify claim peer devicePub with
    | Panic => Panic
    | Err _ => Ok f
    | Ok _ => Ok (if superseded_by f claim then add_claim claim f else f)
    end.
Definition promoted (peer deviceID devicePub : bytes) (f : profileFile) : res cerr profileFile :=
  f' ← foldl (promote peer deviceID devicePub) (Ok f) (reverse (Pf_Pending f)); Ok (mkProfileFile (Pf_Claims f') [] (Pf_SentAt f')).
Definition verifyPendingClaims (peer deviceID devicePub : bytes) : proc () :=
  stored ← readProfile peer;
  match stored with
  | None => mret ()
  | Some f => if zlen (Pf_Pending f) =? 0 then mret () else f' ← lift (promoted peer deviceID devicePub f); write_peer peer (set_profile (Some f'))
  end.

Definition putPeerDevice (accountID server deviceID devicePub : bytes) : proc () :=
  _ ← writePeerDevice accountID server deviceID devicePub; verifyPendingClaims accountID deviceID devicePub.

(** ** This account's own name *)

Definition ownProfileClaim : proc (option Claim.t) :=
  s ← gets settings_json;
  if SProfileNameSetAt s =?b [] then mret None
  else
    setAt ← msg (parseTime (SProfileNameSetAt s));
    match setAt with
    | None => mret None
    | Some setAt => id ← Identity; c ← msg (Claim.Sign (MyAccountID id) (MyDeviceID id) (SProfileName s) setAt (MyDevicePriv id)); mret (Some c)
    end.
Definition already_told (stored : option profileFile) (claim : Claim.t) : bool :=
  match stored with
  | Some f => match Pf_SentAt f with Some t => negb (Claim.SupersedesTime claim t) | None => false end
  | None => false
  end.
Definition profileClaimFor (peer : bytes) : proc (option Claim.t) :=
  c ← ownProfileClaim;
  match c with
  | None => mret None
  | Some claim => stored ← readProfile peer; mret (if already_told stored claim then None else Some claim)
  end.
Definition profileClaimSent (peer : bytes) (claim : option Claim.t) : proc () :=
  match claim with
  | None => mret ()
  | Some c => updateProfile peer (λ f, mkProfileFile (Pf_Claims f) (Pf_Pending f) (Some (Claim.IssuedAt c)))
  end.
Fixpoint any_behind (claim : Claim.t) (recipients : list bytes) : proc (option Claim.t) :=
  match recipients with
  | [] => mret None
  | peer :: l => stored ← readProfile peer; if already_told stored claim then any_behind claim l else mret (Some claim)
  end.
Definition profileClaimForAny (recipients : list bytes) : proc (option Claim.t) :=
  c ← ownProfileClaim; match c with None => mret None | Some claim => any_behind claim recipients end.
Definition profileClaimDelivered (deliveries : list GroupDelivery) (claim : option Claim.t) : proc () :=
  match claim with
  | None => mret ()
  | Some _ => for_each (λ d, if GdState d =?b SendSent then profileClaimSent (GdAccountID d) claim else mret ()) deliveries
  end.
Definition PeerProfileNames : proc (gmap bytes bytes) :=
  gets (λ a, omap (λ d, f ← profile_json d; c ← Current f; if Claim.Name c =?b [] then None else Some (Claim.Name c)) (peers a)).
End profile.
