(* ===== verification/ClientGroups.v ===== *)
(** * pkg/client/groups.go and groupnarration.go: the receiving half of groups

    Folding a control envelope into the facts held about a group, keeping what arrived too
    early, saying in words what changed, and filing group messages and receipts. *)

From S2P Require Import Prelude GoStr GoTime GoTimeParse Sha256 Crypto Base64 Bech32m Address DeviceCert GroupEvent GroupState GroupResolve ProfileClaim Ratchet RatchetCorrect ClientLog ClientDedup ClientTranscript Envelope ClientState.

Definition MaxHeldGroupEvents : Z := 64.
(** [GroupSyncRequestCooldown] of groupsend.go. *)
Definition GroupSyncRequestCooldown : Z := 5 * minute.

Record GroupOutcome := mkOutcome {
  OGroupID : bytes; OPeerStateHash : bytes; OStateHash : bytes; OWantsSnapshot : bool; OInvited : bool; OLines : list bytes;
  ODeliveredUpTo : option Time; OReadUpTo : option Time;
}.
Definition outcome (groupID peerHash : bytes) : GroupOutcome := mkOutcome groupID peerHash [] false false [] None None.

Record MemberReceipt := mkMemberReceipt {
  MrDeliveredUpTo : option Time; MrReadUpTo : option Time; MrSentDelivered : option Time; MrSentRead : option Time;
}.
Record GroupChat := mkGroupChat {
  GcGroupID : bytes; GcLastActivityAt : option Time; GcHasUnread : bool; GcMemberReceipts : gmap bytes MemberReceipt;
}.

(** [%q] of a string of the printable ASCII characters other than the quote and the backslash. *)
Definition plain_char (c : Z) : Prop := 32 ≤ c < 127 ∧ c ≠ 34 ∧ c ≠ 92.
Class Quote := {
  go_quote : bytes → bytes;
  go_quote_plain s : Forall plain_char s → go_quote s = 34 :: s ++ [34];
}.

(** ** Narration *)

Section narration.
Context {QU : Quote}.

Definition memberLabel (accountID : bytes) : bytes := if 5 <? zlen accountID then take 5 accountID else accountID.
Definition pick (cond : bool) (yes no : bytes) : bytes := if cond then yes else no.
Definition batchHas (batch : list (option Event)) (t : EventType) (subject : bytes) : bool :=
  existsb (λ e, match e with Some e => (Type_ e =?b t) && (Subject e =?b subject) | None => false end) batch.
Definition roleLine (who has isNow : bytes) (from to : Z) : bytes :=
  if to =? RoleMember then who ++ lit " " ++ has ++ lit " no special role any more."
  else if from <? to then who ++ lit " " ++ isNow ++ lit " now " ++ Role_String to ++ lit "."
  else who ++ lit " " ++ isNow ++ lit " now " ++ Role_String to ++ lit " (was " ++ Role_String from ++ lit ").".

Section lines.
Context (before after : Resolved) (me : bytes) (batch : list (option Event)).
Definition who (id : bytes) : bytes := if id =?b me then lit "You" else memberLabel id.
Definition was (id : bytes) : bytes := pick (id =?b me) (lit "were") (lit "was").
Definition has (id : bytes) : bytes := pick (id =?b me) (lit "have") (lit "has").
Definition isNow (id : bytes) : bytes := pick (id =?b me) (lit "are") (lit "is").
(** The last entry of the list with this id, as the map of the members has it. *)
Definition member_entry (l : list Member) (id : bytes) : option Member :=
  List.find (λ m, AccountID m =?b id) (reverse l).

Definition gone_lines (m : Member) : list bytes :=
  let id := AccountID m in
  if present (member_entry (Members after) id) then []
  else
    let left := batchHas batch EventLeave id in
    let removed := batchHas batch EventMemberRemove id in
    [if left && negb removed then who id ++ lit " left the group."
     else if removed && negb left then who id ++ lit " " ++ was id ++ lit " removed from the group."
     else who id ++ lit " " ++ isNow id ++ lit " no longer a member."].
Definition arrived_lines (now : Member) : list bytes :=
  let id := AccountID now in
  match member_entry (Members before) id with
  | None => (who id ++ lit " " ++ was id ++ lit " invited.") :: (if Joined now then [who id ++ lit " joined the group."] else [])
  | Some prior =>
    (if negb (Joined prior) && Joined now then [who id ++ lit " joined the group."] else [])
    ++ (if MRole prior =? MRole now then [] else [roleLine (who id) (has id) (isNow id) (MRole prior) (MRole now)])
  end.
Definition meta_lines : list bytes :=
  (if RName before =?b RName after then []
   else [if RName after =?b [] then lit "The group name was removed." else lit "The group is now called " ++ go_quote (RName after) ++ lit "."])
  ++ (if RTopic before =?b RTopic after then []
      else [if RTopic after =?b [] then lit "The topic was removed." else lit "The topic is now " ++ go_quote (RTopic after) ++ lit "."])
  ++ (if negb (Dissolved before) && Dissolved after then [lit "The group was dissolved."] else []).
Definition change_lines : list bytes :=
  mjoin (gone_lines <$> Members before) ++ mjoin (arrived_lines <$> Members after) ++ meta_lines.
End lines.

Definition groupStateChangeLines (before : option Resolved) (after : Resolved) (me : bytes) (batch : list (option Event)) : list bytes :=
  match before with
  | None => []
  | Some b => if RGroupID b =?b [] then [] else change_lines b after me batch
  end.
End narration.

(** ** The files of a group *)

Definition set_facts (v : option bytes) (d : group_dir) : group_dir := mkGroupDir v (held_json d) (peers_json d) (chat_json d).
Definition set_held (v : option (list (option Event))) (d : group_dir) : group_dir := mkGroupDir (facts_json d) v (peers_json d) (chat_json d).
Definition set_group_peers (v : option groupPeers) (d : group_dir) : group_dir := mkGroupDir (facts_json d) (held_json d) v (chat_json d).
Definition set_chat (v : option groupChatFile) (d : group_dir) : group_dir := mkGroupDir (facts_json d) (held_json d) (peers_json d) v.

Definition no_peers : groupPeers := mkGroupPeers ∅ ∅ ∅ [].
Definition groupPeersFor (g : bytes) : proc groupPeers := _ ← safe g; gets (λ a, default no_peers (peers_json (group_of a g))).
(** [mutate] returns the new value, or nothing when nothing changed. *)
Definition updateGroupPeers {A} (g : bytes) (mutate : groupPeers → option groupPeers * A) (unchanged : A) : proc A :=
  if g =?b [] then mret unchanged
  else
    p ← groupPeersFor g;
    match mutate p with
    | (Some p', x) => _ ← write_group g (set_group_peers (Some p')); mret x
    | (None, x) => mret x
    end.

Definition oweGroupSnapshot (g account : bytes) : proc () :=
  updateGroupPeers g (λ p, (if decide (account ∈ Owed p) then None
                            else Some (mkGroupPeers (StateHashes p) ({[account]} ∪ Owed p) (Answered p) (LastSyncRequest p)), ())) ().
Definition clearGroupSnapshotDebt (g account : bytes) : proc () :=
  updateGroupPeers g (λ p, (if decide (account ∈ Owed p) then Some (mkGroupPeers (StateHashes p) (Owed p ∖ {[account]}) (Answered p) (LastSyncRequest p))
                            else None, ())) ().
Definition markGroupHashAnswered (g account stateHash : bytes) : proc bool :=
  updateGroupPeers g (λ p, if default [] (Answered p !! account) =?b stateHash then (None, true)
                           else (Some (mkGroupPeers (StateHashes p) (Owed p) (<[account := stateHash]> (Answered p)) (LastSyncRequest p)), false)) false.
Definition markGroupSyncRequested (g : bytes) (now : Time) : proc bool :=
  updateGroupPeers g (λ p,
    let soon := match parseTime (LastSyncRequest p) with Ok (Some t) => time_sub now t <? GroupSyncRequestCooldown | _ => false end in
    if soon then (None, true) else (Some (mkGroupPeers (StateHashes p) (Owed p) (Answered p) (formatTime (Some now))), false)) false.
Definition RecordGroupPeerStateHash (g account stateHash : bytes) : proc () :=
  if (account =?b []) || (stateHash =?b []) then mret ()
  else updateGroupPeers g (λ p, (if default [] (StateHashes p !! account) =?b stateHash then None
                                 else Some (mkGroupPeers (<[account := stateHash]> (StateHashes p)) (Owed p) (Answered p) (LastSyncRequest p)), ())) ().
Definition GroupPeerStateHashes (g : bytes) : proc (gmap bytes bytes) := p ← groupPeersFor g; mret (StateHashes p).

Definition load_receipt (f : memberReceiptFile) : res string MemberReceipt :=
  d ← parseTime (Mf_DeliveredUpTo f); r ← parseTime (Mf_ReadUpTo f); sd ← parseTime (Mf_SentDeliveredReceiptUpTo f);
  sr ← parseTime (Mf_SentReadReceiptUpTo f); Ok (mkMemberReceipt d r sd sr).
Definition receipt_file (r : MemberReceipt) : memberReceiptFile :=
  mkReceiptFile (formatTime (MrDeliveredUpTo r)) (formatTime (MrReadUpTo r)) (formatTime (MrSentDelivered r)) (formatTime (MrSentRead r)).
Fixpoint load_receipts (l : list (bytes * memberReceiptFile)) : res string (gmap bytes MemberReceipt) :=
  match l with [] => Ok ∅ | (k, f) :: l => r ← load_receipt f; m ← load_receipts l; Ok (<[k := r]> m) end.
Definition load_chat (g : bytes) (f : option groupChatFile) : res string (option GroupChat) :=
  match f with
  | None => Ok None
  | Some f =>
    last ← parseTime (Gf_LastActivityAt f); rs ← load_receipts (map_to_list (Gf_MemberReceipts f));
    Ok (Some (mkGroupChat (if Gf_GroupID f =?b [] then g else Gf_GroupID f) last (Gf_HasUnread f) rs))
  end.
Definition LoadGroupChat (g : bytes) : proc (option GroupChat) := _ ← safe g; f ← gets (λ a, chat_json (group_of a g)); msg (load_chat g f).
Definition PutGroupChat (c : GroupChat) : proc () :=
  write_group (GcGroupID c) (set_chat (Some (mkGroupChatFile (GcGroupID c) (formatTime (GcLastActivityAt c)) (GcHasUnread c) (receipt_file <$> GcMemberReceipts c)))).
Definition new_chat (g : bytes) : GroupChat := mkGroupChat g None false ∅.

Definition memberOf (r : option Resolved) (accountID : bytes) : option Member :=
  match r with None => None | Some r => List.find (λ m, AccountID m =?b accountID) (Members r) end.
(** [IsGroupID]: the version marker of the id. *)
Definition IsGroupID {UC : UnicodeCase} (id : bytes) : bool := match Address.VersionOf id with Ok v => v =? VersionGroup | _ => false end.
Definition Groups : proc (list bytes) := gets (λ a, sort_strings (map_to_list (groups a)).*1).
Definition ForgetGroup (g : bytes) : proc () := _ ← safe g; change (λ a, with_groups a (delete g (groups a))).

Section groups.
Context {UC : UnicodeCase} {ED : Ed25519} {QU : Quote} {JE : Json (list (option Event))} {JL : Json logRecord}.

Definition marshal_events (l : list Event) : res string bytes := Ok (json_Marshal (Some <$> l)).
Definition unmarshal_events (b : bytes) : res string (list (option Event)) := from_option (json_Unmarshal b) "client: decoding facts.json"%string.

Definition load_facts (f : option bytes) : res cerr (option State) :=
  match f with
  | None => Ok None
  | Some data =>
    match UnmarshalJSON unmarshal_events NewState data with
    | Ok (st, None) => Ok (Some st)
    | Ok (_, Some e) | Err e => Err (EWrap "client: decoding facts.json" (EMsg e))
    | Panic => Panic
    end
  end.
Definition LoadGroupState (g : bytes) : proc (option State) := _ ← safe g; f ← gets (λ a, facts_json (group_of a g)); lift (load_facts f).
Definition PutGroupState (g : bytes) (st : State) : proc () :=
  _ ← safe g; data ← msg (MarshalJSON marshal_events st); write_group g (set_facts (Some data)).
Definition GroupMembership (g : bytes) : proc (option Resolved) := st ← LoadGroupState g; mret (Resolve <$> st).

Definition heldEvents (g : bytes) : proc (list (option Event)) := _ ← safe g; gets (λ a, default [] (held_json (group_of a g))).
(** The rejected events worth keeping: those only a genesis was missing for. *)
Fixpoint premature (batch : list (option Event)) (kept : list (option Event)) (l : list Rejection) : list (option Event) :=
  match l with
  | [] => kept
  | r :: l =>
    if negb (Reason r =?b RejectNoGenesis) then premature batch kept l
    else if MaxHeldGroupEvents <=? zlen kept then kept
    else match (if (0 <=? Index r) && (Index r <? zlen batch) then batch !! Z.to_nat (Index r) else None) with
         | Some e => premature batch (kept ++ [e]) l
         | None => premature batch kept l
         end
  end.
Definition holdPremature (g : bytes) (batch : list (option Event)) (result : ApplyResult) : proc () :=
  match premature batch [] (Rejected result) with
  | [] => remove_group g (set_held None)
  | keep => write_group g (set_held (Some keep))
  end.

Definition system_line (id text : bytes) (at_ : Time) : Message :=
  mkMsg id text false at_ None [] [] [] None [] MessageSystemInfo SendSent [] [].
Definition append_message (chat : bytes) (m : Message) : proc () := on_log chat (λ f, AppendMessage f m).
Fixpoint append_lines (g : bytes) (lines : list bytes) (at_ : Time) (i : Z) : proc () :=
  match lines with
  | [] => mret ()
  | line :: lines =>
    id ← newMessageID; _ ← append_message g (system_line id line (time_add at_ (i * second))); append_lines g lines at_ (i + 1)
  end.
Definition appendGroupSystemLines (g : bytes) (lines : list bytes) (at_ : Time) : proc () := append_lines g lines at_ 0.

Definition ApplyGroupControl (content : Content) (sender : bytes) (now : Time) : proc GroupOutcome :=
  if negb (CKind content =?b ContentGroupControl) then fail (EMsg "client: not a group control envelope")
  else
    let now := utc now in
    let out := outcome (CGroupID content) (CStateHash content) in
    if bool_decide (CControlKind content = Some GroupSyncRequest) then
      _ ← RecordGroupPeerStateHash (CGroupID content) sender (CStateHash content);
      mret (mkOutcome (CGroupID content) (CStateHash content) [] true false [] None None)
    else
      stored ← LoadGroupState (CGroupID content);
      held ← heldEvents (CGroupID content);
      let batch := held ++ CEvents content in
      let before := Resolve <$> stored in
      sr ← msg (Apply (default NewState stored) batch);
      let '(st, result) := sr in
      let g := if groupID st =?b [] then CGroupID content else groupID st in
      _ ← when (negb (groupID st =?b [])) (PutGroupState g st);
      _ ← holdPremature g batch result;
      if groupID st =?b [] then
        _ ← RecordGroupPeerStateHash g sender (CStateHash content); mret (outcome g (CStateHash content))
      else
        let after := Resolve st in
        me ← Identity;
        let invited := match memberOf (Some after) (MyAccountID me) with
                       | Some m => negb (Joined m) && (negb (present stored) || negb (present (memberOf before (MyAccountID me))))
                       | None => false
                       end in
        chat ← LoadGroupChat g;
        let chat := default (new_chat g) chat in
        let lines := groupStateChangeLines before after (MyAccountID me) batch in
        _ ← appendGroupSystemLines g lines now;
        _ ← PutGroupChat (mkGroupChat (GcGroupID chat) (if zlen lines =? 0 then GcLastActivityAt chat else Some now)
                            (GcHasUnread chat || invited) (GcMemberReceipts chat));
        _ ← RecordGroupPeerStateHash g sender (CStateHash content);
        mret (mkOutcome g (CStateHash content) (RStateHash after) false invited lines None None).

(** ** Messages and receipts *)

Definition group_line (id : bytes) (content : Content) (sender : bytes) (now : Time) : Message :=
  mkMsg id (CText content) false now (CSentAt content) sender (CReplyToID content) (CReplyText content) (CReplyMine content) (CReplyAuthorID content)
    MessageNormal SendSent (CAttachments content) [].
(** The line's id and anchor, and whether it is new. *)
Definition storeGroupMessage (content : Content) (sender : bytes) (now : Time) (openChatID : bytes) : proc (bytes * option Time * bool) :=
  let g := CGroupID content in
  idseen ← (if CID content =?b [] then id ← newMessageID; mret (id, false)
            else seen ← read_log g (λ f, MessageExists f (CID content)); mret (CID content, seen));
  let '(id, seen) := idseen in
  if (seen : bool) then mret (id, CSentAt content, false)
  else
    _ ← append_message g (group_line id content sender now);
    _ ← for_each (λ att, WriteAttachmentThumb g id (AtThumb att)) (CAttachments content);
    chat ← LoadGroupChat g;
    let chat := default (new_chat g) chat in
    _ ← PutGroupChat (mkGroupChat (GcGroupID chat) (Some now) (GcHasUnread chat || negb (openChatID =?b g)) (GcMemberReceipts chat));
    mret (id, CSentAt content, true).

Definition hidden_line (sender : bytes) : bytes := lit "A message from " ++ memberLabel sender ++ lit " was hidden (blocked contact).".
Definition recordBlockedGroupMessage (g sender : bytes) (now : Time) : proc () :=
  chat ← LoadGroupChat g;
  match chat with
  | None => mret ()
  | Some _ =>
    last ← read_log g LastMessage;
    if match last with Some m => (MKind m =?b MessageSystemInfo) && (MText m =?b hidden_line sender) | None => false end then mret ()
    else id ← newMessageID; append_message g (system_line id (hidden_line sender) now)
  end.
Definition gone_line (account : bytes) : bytes :=
  memberLabel account ++ lit " no longer exists on their server, so they can no longer receive anything here.".
Definition said_before (text : bytes) (msgs : list Message) : bool := existsb (λ m, (MKind m =?b MessageSystemInfo) && (MText m =?b text)) msgs.
Definition recordMemberGone (g account : bytes) (now : Time) : proc () :=
  msgs ← read_log g Messages;
  if said_before (gone_line account) msgs then mret ()
  else id ← newMessageID; append_message g (system_line id (gone_line account) (utc now)).

(** A watermark only moves forward. *)
Definition moves (upTo : Time) (mark : option Time) : bool := match mark with Some t => after upTo t | None => true end.
Definition no_receipt : MemberReceipt := mkMemberReceipt None None None None.
Definition move_receipt (status : option ReceiptStatus) (upTo : Time) (r : MemberReceipt) : option MemberReceipt :=
  match status with
  | Some ReceiptDelivered =>
    if moves upTo (MrDeliveredUpTo r) then Some (mkMemberReceipt (Some upTo) (MrReadUpTo r) (MrSentDelivered r) (MrSentRead r)) else None
  | Some ReceiptRead =>
    if moves upTo (MrReadUpTo r) then Some (mkMemberReceipt (MrDeliveredUpTo r) (Some upTo) (MrSentDelivered r) (MrSentRead r)) else None
  | None => None
  end.
Definition recordMemberReceipt (g account : bytes) (content : Content) : proc () :=
  chat ← LoadGroupChat g;
  match chat with
  | None => mret ()
  | Some c =>
    match move_receipt (CReceiptStatus content) (default zero_time (CReceiptUpTo content)) (default no_receipt (GcMemberReceipts c !! account)) with
    | None => mret ()
    | Some r => PutGroupChat (mkGroupChat (GcGroupID c) (GcLastActivityAt c) (GcHasUnread c) (<[account := r]> (GcMemberReceipts c)))
    end
  end.
End groups.
