(* ===== verification/ClientReceive.v ===== *)
(** * pkg/client/receive.go: everything between an envelope arriving and what it leaves behind

    [decrypt] chooses between the sessions held for a peer and the one a prekey block could
    build; [receive] applies what follows from a message that opened; [HandleIncoming]
    accounts for one that did not.  [now] is the clock (already given by the caller or
    read), the random source is the account's.  Each attempt to open takes a fresh ratchet
    key from the random source, used when the message starts a new chain. *)

From S2P Require Import Prelude GoStr GoTime GoTimeParse Sha256 Crypto Base64 Bech32m Address DeviceCert GroupEvent GroupState GroupResolve ProfileClaim Ratchet RatchetCorrect ClientLog ClientDedup ClientTranscript Envelope ClientState ClientProfile ClientGroups.

Record IncomingMessage := mkIncoming { IMessageID : bytes; ISenderAccountID : bytes; ISenderDeviceID : bytes; ISentAt : option Time; IPayload : bytes }.

Definition SessionResetMarker : bytes := lit "Secure session was reset".
Definition AutomaticRekeyMarker : bytes := lit "Secure session was re-established automatically".
Definition ProfileRenamedMarker (name : bytes) : bytes := lit "This contact now calls themselves " ++ name.
Definition ProfileNameClearedMarker : bytes := lit "This contact no longer gives a name".

Record sessionEffect := mkEffect { adoptedPeer : bool; keepOwnSending : bool; consumePrekey : option Z }.
Definition no_effect : sessionEffect := mkEffect false false None.

Record ReceiveResult := mkReceived {
  RrPeer : bytes; RrContent : option Content; RrDuplicate : bool; RrStoredMessageID : bytes; RrShouldNotify : bool;
  RrDeliveredUpTo : option Time; RrReadUpTo : option Time; RrProfileRenamed : bool; RrAdoptedPeerSession : bool; RrInboundSessionKept : bool;
  RrGroup : option GroupOutcome; RrBlocked : bool;
}.
Definition duplicate_result (peer : bytes) : ReceiveResult := mkReceived peer None true [] false None None false false false None false.

Definition joinInitialAttempt (initial : option cerr) (sessionErr : cerr) : cerr :=
  match initial with None => sessionErr | Some i => EJoin i sessionErr end.

(** [ecdh.X25519().NewPrivateKey] checks the length only. *)
Definition NewPrivateKey (b : bytes) (what : string) : res cerr bytes := if zlen b =? 32 then Ok b else Err (EWrap what (EMsg "crypto/ecdh: invalid private key size")).

Section decrypt.
Context {XC : X25519} {HK : HKDF} {AE : AEAD} {JC : Json contentWire} {JA : Json attachmentWire} {JV : Json Envelope}.

(** One attempt on a session. *)
Definition try_open (s : Session) (header : Header) (ciphertext : bytes) (fresh : option bytes) : res Ratchet.Error (Session * bytes) :=
  match Decrypt s header ciphertext fresh with (s, Ok p) => Ok (s, p) | (_, Err e) => Err e | (_, Panic) => Panic end.
(** A responder session built from a prekey block, and an attempt on it. *)
Definition try_initial (dhPriv spkPriv : bytes) (otpkPriv : option bytes) (im : InitialMessage) (header : Header) (ciphertext : bytes) (fresh : option bytes)
    : res Ratchet.Error (Session * bytes) :=
  s ← RespondToSession dhPriv spkPriv otpkPriv im; try_open s header ciphertext fresh.

(** The one-time prekey an initial message names, with its number, when it is still held. *)
Definition named_prekey (im : option InitialMessage) : proc (option (Z * bytes)) :=
  match im ≫= IOneTimePrekeyID with
  | None => mret None
  | Some id =>
    otpk ← LookupOneTimePrekey id;
    match otpk with
    | None => mret None
    | Some k => priv ← lift (NewPrivateKey (OtPriv k) "client: reading one-time prekey"); mret (Some (OtKeyID k, priv))
    end
  end.

(** Whether the peer's new session becomes the one this side sends on. *)
Definition adopts (rekey : option bool) (plaintext : bytes) (held : Session) (peer mine : bytes) : bool :=
  let deliberate := match rekey with Some b => b | None => bool_decide (CKind (DecodeContent plaintext) = ContentRekey) end in
  deliberate || (0 <? Nr held) || negb (bytes_leb mine peer).

(** The session the message belongs to: the session already held, then the one kept for reading. *)
Definition with_held (peer : bytes) (held : Session) (o : opened) (initialErr : option cerr) (f1 f2 : option bytes) : proc (Session * bytes * sessionEffect) :=
  match try_open held (op_header o) (op_ciphertext o) f1 with
  | Ok (s, p) => mret (s, p, no_effect)
  | Panic => lift Panic
  | Err e =>
    if decide (e = ErrDuplicateMessage) then fail (ERatchet e)
    else
      inbound ← LoadSession peer Inbound;
      match inbound with
      | None => fail (joinInitialAttempt initialErr (ERatchet e))
      | Some i =>
        match try_open i (op_header o) (op_ciphertext o) f2 with
        | Ok (s, p) => mret (s, p, mkEffect false true None)
        | Panic => lift Panic
        | Err _ => fail (joinInitialAttempt initialErr (ERatchet e))
        end
      end
  end.

Definition open_with_sessions (peer : bytes) (id : OwnIdentity) (dhPriv spkPriv : bytes) (otpk : option (Z * bytes)) (o : opened) (f1 f2 f3 : option bytes)
    : proc (Session * bytes * sessionEffect) :=
  session ← LoadSession peer Sending;
  match session, op_initial o with
  | None, None => fail (EIs ErrNoSessionMaterial)
  | None, Some (im, _) =>
    match RespondToSession dhPriv spkPriv (snd <$> otpk) im with
    | Err e => fail (EWrap "client: responding to first contact" (ERatchet e))
    | Panic => lift Panic
    | Ok s => sp ← lift (wrap_err ERatchet (try_open s (op_header o) (op_ciphertext o) f1)); mret (sp, mkEffect false false (fst <$> otpk))
    end
  | Some held, Some (im, rekey) =>
    match try_initial dhPriv spkPriv (snd <$> otpk) im (op_header o) (op_ciphertext o) f1 with
    | Panic => lift Panic
    | Err e => with_held peer held o (Some (EWrap "client: a fresh prekey block did not apply" (ERatchet e))) f2 f3
    | Ok (s, p) => let adopt := adopts rekey p held peer (MyAccountID id) in mret (s, p, mkEffect adopt (negb adopt) (fst <$> otpk))
    end
  | Some held, None => with_held peer held o None f1 f2
  end.

(** Up to the write-back: nothing is stored before something has opened. *)
Definition open_envelope (m : IncomingMessage) : proc (Session * bytes * sessionEffect) :=
  o ← msg (open_payload (IPayload m));
  id ← Identity;
  dhPriv ← lift (NewPrivateKey (MyDHIdentityPriv id) "client: reading own identity key");
  spkPriv ← lift (NewPrivateKey (MySignedPrekeyPriv id) "client: reading own signed prekey");
  otpk ← named_prekey (fst <$> op_initial o);
  f1 ← draw; f2 ← draw; f3 ← draw;
  open_with_sessions (ISenderAccountID m) id dhPriv spkPriv otpk o f1 f2 f3.
(** The advance is written to whichever half it belongs to. *)
Definition decrypt (m : IncomingMessage) : proc (Content * sessionEffect) :=
  spe ← open_envelope m;
  let '(session, plaintext, effect) := spe in
  _ ← SetSession (ISenderAccountID m) (if keepOwnSending effect then Inbound else Sending) session;
  mret (DecodeContent plaintext, effect).
End decrypt.

(** ** What follows from a message that opened *)

Section receive.
Context {UC : UnicodeCase} {ED : Ed25519} {XC : X25519} {HK : HKDF} {AE : AEAD} {QU : Quote}.
Context {JC : Json contentWire} {JA : Json attachmentWire} {JV : Json Envelope} {JE : Json (list (option Event))} {JL : Json logRecord}.
Context {JP : Json processedRecord} {JF : Json failuresFile}.

(** A line in the chat with the peer, if there is a conversation. *)
Definition mark_in_transcript (peer marker : bytes) (now : Time) : proc () :=
  convo ← LoadConversation peer;
  match convo with
  | None => mret ()
  | Some _ => id ← newMessageID; append_message peer (system_line id marker now)
  end.
Definition markRekeyInTranscript (peer : bytes) (content : Content) (now : Time) : proc () :=
  mark_in_transcript peer (if bool_decide (CKind content = ContentRekey) && bool_decide (CRekeyReason content = Some RekeyDecryptFailures)
                           then AutomaticRekeyMarker else SessionResetMarker) now.
Definition markRenameInTranscript (peer : bytes) (claim : option Claim.t) (now : Time) : proc () :=
  mark_in_transcript peer (match claim with
                           | Some c => if Claim.IsWithdrawal c then ProfileNameClearedMarker else ProfileRenamedMarker (Claim.Name c)
                           | None => ProfileNameClearedMarker
                           end) now.

Definition move_conversation (status : option ReceiptStatus) (upTo : Time) (c : Conversation) : option Conversation :=
  match status with
  | Some ReceiptDelivered =>
    if moves upTo (PeerDeliveredUpTo c) then
      Some (mkConversation (PeerAccountID c) (PeerServer c) (LastActivityAt c) (HasUnread c) (ConvBlocked c) (PendingApproval c) (PeerGone c) (Some upTo)
              (PeerReadUpTo c) (SentDeliveredReceiptUpTo c) (SentReadReceiptUpTo c))
    else None
  | Some ReceiptRead =>
    if moves upTo (PeerReadUpTo c) then
      Some (mkConversation (PeerAccountID c) (PeerServer c) (LastActivityAt c) (HasUnread c) (ConvBlocked c) (PendingApproval c) (PeerGone c)
              (PeerDeliveredUpTo c) (Some upTo) (SentDeliveredReceiptUpTo c) (SentReadReceiptUpTo c))
    else None
  | None => None
  end.
Definition recordReceipt (peer : bytes) (content : Content) : proc () :=
  convo ← LoadConversation peer;
  match convo with
  | None => mret ()
  | Some c =>
    match move_conversation (CReceiptStatus content) (default zero_time (CReceiptUpTo content)) c with
    | None => mret ()
    | Some c => PutConversation c
    end
  end.

(** The conversation a message arrives in, before the message: its block and its server are refreshed. *)
Definition refreshed (existing : option Conversation) (peer : bytes) (known blocked : bool) (senderServer myServer : bytes) : Conversation :=
  let c := default (mkConversation peer [] None false false (negb known && negb blocked) false None None None None) existing in
  let server := if zlen senderServer =? 0 then PeerServer c else if senderServer =?b myServer then [] else senderServer in
  mkConversation (PeerAccountID c) server (LastActivityAt c) (HasUnread c) blocked (PendingApproval c) (PeerGone c) (PeerDeliveredUpTo c) (PeerReadUpTo c)
    (SentDeliveredReceiptUpTo c) (SentReadReceiptUpTo c).
Definition active (c : Conversation) (now : Time) (unread : bool) : Conversation :=
  mkConversation (PeerAccountID c) (PeerServer c) (Some now) (HasUnread c || unread) (ConvBlocked c) (PendingApproval c) (PeerGone c) (PeerDeliveredUpTo c)
    (PeerReadUpTo c) (SentDeliveredReceiptUpTo c) (SentReadReceiptUpTo c).
Definition incoming_line (id : bytes) (content : Content) (now : Time) : Message :=
  mkMsg id (CText content) false now (CSentAt content) [] (CReplyToID content) (CReplyText content) (CReplyMine content) (CReplyAuthorID content)
    MessageNormal SendSent (CAttachments content) [].

(** The stored line, whether to notify, and the two watermarks. *)
Definition storeIncomingText (peer : bytes) (content : Content) (blocked : bool) (openChatID : bytes) (now : Time)
    : proc (bytes * bool * option Time * option Time) :=
  known ← IsPeerKnown peer;
  existing ← LoadConversation peer;
  me ← Identity;
  let convo := refreshed existing peer known blocked (CSenderServer content) (MyServer me) in
  if blocked then _ ← PutConversation convo; mret ([], false, None, None)
  else
    id ← (if CID content =?b [] then newMessageID else mret (CID content));
    _ ← append_message peer (incoming_line id content now);
    _ ← for_each (λ att, WriteAttachmentThumb peer id (AtThumb att)) (CAttachments content);
    let elsewhere := negb (peer =?b openChatID) in
    let notify := elsewhere && (negb (present existing) || negb (PendingApproval convo)) in
    _ ← PutConversation (active convo now elsewhere);
    let upTo := default now (CSentAt content) in
    mret (id, notify, Some upTo, if elsewhere then None else Some upTo).

Definition receive_group_text (peer : bytes) (content : Content) (blocked : bool) (openChatID : bytes) (now : Time) : proc (bytes * bool * GroupOutcome) :=
  let g := CGroupID content in
  _ ← RecordGroupPeerStateHash g peer (CStateHash content);
  if blocked then _ ← recordBlockedGroupMessage g peer now; mret ([], false, outcome g (CStateHash content))
  else
    sm ← storeGroupMessage content peer now openChatID;
    let '(id, sentAt, isNew) := sm in
    let upTo := default now sentAt in
    mret (id, isNew && negb (openChatID =?b g),
          mkOutcome g (CStateHash content) [] false false [] (Some upTo) (if openChatID =?b g then Some upTo else None)).

Definition receive_receipt (peer : bytes) (content : Content) : proc (option GroupOutcome) :=
  on ← ReceiptsEnabled;
  if negb (zlen (CReceiptGroupID content) =? 0) then
    _ ← when on (recordMemberReceipt (CReceiptGroupID content) peer content); mret (Some (outcome (CReceiptGroupID content) []))
  else _ ← when on (recordReceipt peer content); mret None.

(** The kinds of content. *)
Definition dispatch (peer : bytes) (content : Content) (effect : sessionEffect) (blocked renamed : bool) (openChatID : bytes) (now : Time) : proc ReceiveResult :=
  let result stored notify delivered read grp :=
    mkReceived peer (Some content) false stored notify delivered read renamed (adoptedPeer effect) (keepOwnSending effect) grp blocked in
  match CKind content with
  | ContentRekey => mret (result [] false None None None)
  | ContentGroupControl =>
    out ← ApplyGroupControl content peer now; mret (result [] (OInvited out && negb (openChatID =?b OGroupID out)) None None (Some out))
  | ContentGroupText => x ← receive_group_text peer content blocked openChatID now; let '(id, notify, out) := x in mret (result id notify None None (Some out))
  | ContentReceipt => out ← receive_receipt peer content; mret (result [] false None None out)
  | ContentText =>
    x ← storeIncomingText peer content blocked openChatID now;
    let '(id, notify, delivered, read) := x in mret (result id notify delivered read None)
  end.

Definition apply_content (peer : bytes) (openChatID : bytes) (now : Time) (content : Content) (effect : sessionEffect) : proc ReceiveResult :=
  blocked ← IsPeerBlocked peer;
  _ ← when (adoptedPeer effect && negb blocked) (markRekeyInTranscript peer content now);
  renamed ← applyProfileClaim peer (CProfile content);
  _ ← when (renamed && negb blocked) (markRenameInTranscript peer (CProfile content) now);
  dispatch peer content effect blocked renamed openChatID now.
Definition consume (effect : sessionEffect) : proc () :=
  match consumePrekey effect with Some id => ConsumeOneTimePrekey id | None => mret () end.
Definition after_decrypt (m : IncomingMessage) (openChatID : bytes) (now : Time) (ce : Content * sessionEffect) : proc ReceiveResult :=
  _ ← mark_processed (IMessageID m);
  _ ← ClearDesyncEvidence (ISenderAccountID m);
  _ ← consume ce.2;
  apply_content (ISenderAccountID m) openChatID now ce.1 ce.2.

Definition receive (m : IncomingMessage) (openChatID : bytes) (now : Time) : proc ReceiveResult :=
  seen ← was_processed (IMessageID m);
  if (seen : bool) then mret (duplicate_result (ISenderAccountID m))
  else
    dec ← attempt (decrypt m);
    match dec with
    | inl ce => after_decrypt m openChatID now ce
    | inr e =>
      if errors_Is_ratchet ErrDuplicateMessage e then _ ← mark_processed (IMessageID m); mret (duplicate_result (ISenderAccountID m))
      else fail e
    end.

(** ** Failures *)

(** The error the caller gets. *)
Definition giveUpOnEnvelope (m : IncomingMessage) (now : Time) (cause : cerr) : proc cerr :=
  let evidence := SuggestsDesync_of cause || errors_Is ErrNoSessionMaterial cause in
  let failure gaveUp rekey := EDecrypt (IMessageID m) (ISenderAccountID m) cause evidence gaveUp rekey in
  giveUp ← record_failure (IMessageID m);
  if negb giveUp || negb evidence then mret (failure giveUp false)
  else
    r ← attempt (RecordDesyncEvidence (ISenderAccountID m) now);
    match r with
    | inr e => mret (EJoin (failure giveUp false) e)
    | inl _ =>
      r ← attempt (ShouldAutoRekey (ISenderAccountID m) now);
      match r with
      | inr e => mret (EJoin (failure giveUp false) e)
      | inl rekey => mret (failure giveUp rekey)
      end
    end.

Definition HandleIncoming (m : IncomingMessage) (openChatID : bytes) (now : Time) : proc ReceiveResult :=
  r ← attempt (receive m openChatID (receiptClock now));
  match r with
  | inl res => mret res
  | inr e => e ← giveUpOnEnvelope m (receiptClock now) e; fail e
  end.

(** drain.go: an envelope is acknowledged when it was handled, and when it was given up on. *)
Definition ack_due (r : res cerr ReceiveResult) : bool :=
  match r with
  | Ok _ => true
  | Err e => match as_decrypt e with Some (_, gaveUp, _) => gaveUp | None => false end
  | Panic => false
  end.
End receive.
