(* ===== verification/ClientFrames.v ===== *)
(** * What a procedure leaves alone

    [frames f m]: the procedure [m] does not change [f] of the account, whether it
    succeeds or not.  Every operation of the client touches few files; which ones is what
    the theorems about the receive and the send path rest on. *)

From S2P Require Import Prelude GoStr GoTime GoTimeParse Sha256 Crypto Base64 Bech32m Address DeviceCert GroupEvent GroupState GroupResolve ProfileClaim Ratchet RatchetCorrect ClientLog ClientDedup ClientTranscript Envelope ClientState ClientProfile ClientGroups ClientReceive.

Definition frames {A B} (f : account → B) (m : proc A) : Prop := ∀ a, f (m a).1 = f a.

Section frames.
Context {B : Type} (f : account → B).

Lemma frames_ret {A} (x : A) : frames f (mret x).
Proof. done. Qed.
Lemma frames_lift {A} (r : res cerr A) : frames f (lift r).
Proof. done. Qed.
Lemma frames_gets {A} (g : account → A) : frames f (gets g).
Proof. done. Qed.
Lemma frames_bind {A C} (m : proc A) (k : A → proc C) : frames f m → (∀ x, frames f (k x)) → frames f (m ≫= k).
Proof.
  intros Hm Hk a. unfold mbind, proc_bind. specialize (Hm a). destruct (m a) as [a1 [x|e|]]; [|done..]. cbn [fst] in *. by rewrite Hk.
Qed.
Lemma frames_change g : (∀ a, f (g a) = f a) → frames f (change g).
Proof. intros H a. apply H. Qed.
Lemma frames_attempt {A} (m : proc A) : frames f m → frames f (attempt m).
Proof. intros H a. unfold attempt. specialize (H a). by destruct (m a) as [a1 [x|e|]]. Qed.
Lemma frames_when b m : frames f m → frames f (when b m).
Proof. by destruct b. Qed.
Lemma frames_if {A} (b : bool) (m k : proc A) : frames f m → frames f k → frames f (if b then m else k).
Proof. by destruct b. Qed.
Lemma frames_for_each {A} (g : A → proc ()) l : (∀ x, frames f (g x)) → frames f (for_each g l).
Proof. intros H. induction l as [|x l IH]; [done|]. apply frames_bind; [apply H|intros _; apply IH]. Qed.
Lemma frames_safe id : frames f (safe id).
Proof. done. Qed.
Lemma frames_msg {A} (r : res string A) : frames f (msg r).
Proof. done. Qed.
Lemma frames_fail {A} e : frames f (fail (A := A) e).
Proof. done. Qed.
End frames.

Create HintDb frames.
#[export] Hint Resolve frames_ret frames_lift frames_gets frames_safe frames_msg frames_fail : frames.

(** Take a procedure apart; a primitive step leaves the field alone by computation. *)
Ltac frame_step :=
  match goal with
  | |- frames _ (_ ≫= _) => apply frames_bind; [|intros ?]
  | |- frames _ (mret _) => apply frames_ret
  | |- frames _ (lift _) => apply frames_lift
  | |- frames _ (fail _) => apply frames_fail
  | |- frames _ (msg _) => apply frames_msg
  | |- frames _ (gets _) => apply frames_gets
  | |- frames _ (safe _) => apply frames_safe
  | |- frames _ (attempt _) => apply frames_attempt
  | |- frames _ (when _ _) => apply frames_when
  | |- frames _ (for_each _ _) => apply frames_for_each; intros ?
  | |- frames _ (change _) => apply frames_change; intros ?; reflexivity
  | |- frames _ (match ?x with _ => _ end) => destruct x
  | |- frames _ (if ?x then _ else _) => destruct x
  end.
Ltac frame := repeat (cbv zeta; first [solve [auto with frames nocore] | frame_step]).

(** ** Fields and the files they do not depend on *)

Class off_peer {B} (f : account → B) (p : bytes) : Prop := off_peer_eq a d : f (with_peers a (<[p := d]> (peers a))) = f a.
Class off_chat {B} (f : account → B) (c : bytes) : Prop := off_chat_eq a d : f (with_chats a (<[c := d]> (chats a))) = f a.
Class off_group {B} (f : account → B) (g : bytes) : Prop := off_group_eq a d : f (with_groups a (<[g := d]> (groups a))) = f a.
Class off_prekeys {B} (f : account → B) : Prop := off_prekeys_eq a v : f (with_prekeys a v) = f a.
Class off_media {B} (f : account → B) : Prop := off_media_eq a v : f (with_media a v) = f a.
Class off_dedup {B} (f : account → B) : Prop := off_dedup_eq a c d : f (with_dedup a c d) = f a.
Class off_rng {B} (f : account → B) : Prop := off_rng_eq a v : f (with_rng a v) = f a.
#[export] Hint Extern 0 (off_peer _ _) => intros ? ?; reflexivity : typeclass_instances.
#[export] Hint Extern 0 (off_chat _ _) => intros ? ?; reflexivity : typeclass_instances.
#[export] Hint Extern 0 (off_group _ _) => intros ? ?; reflexivity : typeclass_instances.
#[export] Hint Extern 0 (off_prekeys _) => intros ? ?; reflexivity : typeclass_instances.
#[export] Hint Extern 0 (off_media _) => intros ? ?; reflexivity : typeclass_instances.
#[export] Hint Extern 0 (off_dedup _) => intros ? ? ?; reflexivity : typeclass_instances.
#[export] Hint Extern 0 (off_rng _) => intros ? ?; reflexivity : typeclass_instances.

(** The directory of another peer. *)
Lemma other_peer p q : p ≠ q → off_peer (λ a, peers a !! p) q.
Proof. intros H a d. by apply lookup_insert_ne. Qed.
Lemma other_chat p q : p ≠ q → off_chat (λ a, chats a !! p) q.
Proof. intros H a d. by apply lookup_insert_ne. Qed.

Lemma with_peers_id a : with_peers a (peers a) = a.
Proof. by destruct a. Qed.
Lemma with_chats_id a : with_chats a (chats a) = a.
Proof. by destruct a. Qed.
Lemma with_groups_id a : with_groups a (groups a) = a.
Proof. by destruct a. Qed.
Lemma alter_insert_or {A} (m : gmap bytes A) k g : alter g k m = m ∨ ∃ d, alter g k m = <[k := d]> m.
Proof.
  destruct (m !! k) as [d|] eqn:E; [right; exists (g d)|left].
  - apply map_eq. intros i. destruct (decide (i = k)) as [->|Hne]; [by rewrite lookup_alter_eq, lookup_insert_eq, E|].
    by rewrite lookup_alter_ne, lookup_insert_ne by done.
  - apply map_eq. intros i. destruct (decide (i = k)) as [->|Hne]; [by rewrite lookup_alter_eq, E|by rewrite lookup_alter_ne].
Qed.

Section ops.
Context {B : Type} (f : account → B).

Lemma frames_write_peer p g `{!off_peer f p} : frames f (write_peer p g).
Proof. apply frames_bind; [done|]. intros _ a. apply off_peer_eq. Qed.
Lemma frames_remove_peer p g `{!off_peer f p} : frames f (remove_peer p g).
Proof.
  apply frames_bind; [done|]. intros _ a. cbn [change fst]. destruct (alter_insert_or (peers a) p g) as [->|[d ->]]; [by rewrite with_peers_id|apply off_peer_eq].
Qed.
Lemma frames_write_chat c g `{!off_chat f c} : frames f (write_chat c g).
Proof. apply frames_bind; [done|]. intros _ a. apply off_chat_eq. Qed.
Lemma frames_on_log c op `{!off_chat f c} : frames f (on_log c op).
Proof.
  apply frames_bind; [done|]. intros _ a. unfold run_log. destruct (op (log_jsonl (chat_of a c))) as [l r]. cbn [fst]. case_decide; [done|apply off_chat_eq].
Qed.
Lemma frames_write_group g h `{!off_group f g} : frames f (write_group g h).
Proof. apply frames_bind; [done|]. intros _ a. apply off_group_eq. Qed.
Lemma frames_remove_group g h `{!off_group f g} : frames f (remove_group g h).
Proof.
  apply frames_bind; [done|]. intros _ a. cbn [change fst]. destruct (alter_insert_or (groups a) g h) as [->|[d ->]]; [by rewrite with_groups_id|apply off_group_eq].
Qed.
Lemma frames_draw `{!off_rng f} : frames f draw.
Proof. intros a. unfold draw. destruct (rng a); [done|apply off_rng_eq]. Qed.
Lemma frames_newMessageID `{!off_rng f} : frames f newMessageID.
Proof. apply frames_bind; [by apply frames_draw|intros x]. by destruct x. Qed.
Lemma frames_consume id `{!off_prekeys f} : frames f (ConsumeOneTimePrekey id).
Proof. intros a. apply off_prekeys_eq. Qed.
Lemma frames_thumb c m t `{!off_media f} : frames f (WriteAttachmentThumb c m t).
Proof. unfold WriteAttachmentThumb, mediaPath. frame. apply frames_change. intros a. apply off_media_eq. Qed.
(** A file of a peer's directory, when another file of it is written. *)
Lemma frames_peer_file {C} (h : peer_dir → C) p q g : (∀ d, h (g d) = h d) → frames (λ a, h (peer_of a p)) (write_peer q g).
Proof.
  intros Hg. apply frames_bind; [done|]. intros _ a. unfold change, peer_of. cbn [fst peers with_peers].
  destruct (decide (p = q)) as [->|Hne]; [rewrite lookup_insert_eq; apply Hg|by rewrite lookup_insert_ne].
Qed.
Context {JP : Json processedRecord} {JF : Json failuresFile}.
Lemma frames_mark id `{!off_dedup f} : frames f (mark_processed id).
Proof. intros a. unfold mark_processed. destruct (MarkMessageProcessed _ _ _) as [[c d] r]. apply off_dedup_eq. Qed.
Lemma frames_failure id `{!off_dedup f} : frames f (record_failure id).
Proof. intros a. unfold record_failure. destruct (RecordDecryptFailure _ _ _) as [[c d] r]. apply off_dedup_eq. Qed.
End ops.
#[export] Hint Resolve frames_write_peer frames_remove_peer frames_write_chat frames_on_log frames_write_group frames_remove_group frames_draw
  frames_newMessageID frames_consume frames_thumb frames_mark frames_failure : frames.

(** ** Operations *)

Section client.
Context {UC : UnicodeCase} {ED : Ed25519} {XC : X25519} {HK : HKDF} {AE : AEAD} {QU : Quote}.
Context {JC : Json contentWire} {JA : Json attachmentWire} {JV : Json Envelope} {JE : Json (list (option Event))} {JL : Json logRecord}.
Context {JP : Json processedRecord} {JF : Json failuresFile}.

Section one_peer.
Context {B : Type} (f : account → B) (p : bytes) `{!off_peer f p}.
Lemma frames_SetSession k s : frames f (SetSession p k s).
Proof. unfold SetSession. frame. Qed.
Lemma frames_DeleteSession k : frames f (DeleteSession p k).
Proof. unfold DeleteSession. frame. Qed.
Lemma frames_clear : frames f (ClearDesyncEvidence p).
Proof. unfold ClearDesyncEvidence. frame. Qed.
Lemma frames_writeHealth h : frames f (writeHealth p h).
Proof. unfold writeHealth. frame. Qed.
Lemma frames_updateProfile g : frames f (updateProfile p g).
Proof. unfold updateProfile, readProfile. frame. Qed.
Lemma frames_applyProfileClaim c : frames f (applyProfileClaim p c).
Proof. unfold applyProfileClaim, holdProfileClaim, peerDevice, readProfile. frame; apply frames_updateProfile. Qed.
End one_peer.
Hint Resolve frames_SetSession frames_DeleteSession frames_clear frames_writeHealth frames_updateProfile frames_applyProfileClaim : frames.

Lemma frames_LoadSession {B} (f : account → B) p k : frames f (LoadSession p k).
Proof. unfold LoadSession. frame. Qed.
Lemma frames_LoadConversation {B} (f : account → B) p : frames f (LoadConversation p).
Proof. unfold LoadConversation. frame. Qed.
Lemma frames_LoadHealth {B} (f : account → B) p : frames f (LoadHealth p).
Proof. unfold LoadHealth. frame. Qed.
Lemma frames_Identity {B} (f : account → B) : frames f Identity.
Proof. unfold Identity. frame. Qed.
Lemma frames_LoadGroupState {B} (f : account → B) g : frames f (LoadGroupState g).
Proof. unfold LoadGroupState. frame. Qed.
Lemma frames_LoadGroupChat {B} (f : account → B) g : frames f (LoadGroupChat g).
Proof. unfold LoadGroupChat. frame. Qed.
Hint Resolve frames_LoadSession frames_LoadConversation frames_LoadHealth frames_Identity frames_LoadGroupState frames_LoadGroupChat : frames.

Section groups.
Context {B : Type} (f : account → B) `{!∀ c, off_chat f c, !∀ g, off_group f g, !off_media f, !off_rng f}.
Lemma frames_updateGroupPeers {A} g (mu : groupPeers → option groupPeers * A) u : frames f (updateGroupPeers g mu u).
Proof. unfold updateGroupPeers, groupPeersFor. frame. Qed.
Lemma frames_RecordHash g x h : frames f (RecordGroupPeerStateHash g x h).
Proof. unfold RecordGroupPeerStateHash. frame. apply frames_updateGroupPeers. Qed.
Lemma frames_PutGroupChat c : frames f (PutGroupChat c).
Proof. unfold PutGroupChat. frame. Qed.
Lemma frames_PutGroupState g st : frames f (PutGroupState g st).
Proof. unfold PutGroupState. frame. Qed.
Lemma frames_append_message c m : frames f (append_message c m).
Proof. unfold append_message. frame. Qed.
Lemma frames_append_lines g l t i : frames f (append_lines g l t i).
Proof. revert i. induction l as [|x l IH]; intros i; [done|]. cbn [append_lines]. frame; first [apply IH|apply frames_append_message]. Qed.
Hint Resolve frames_RecordHash frames_PutGroupChat frames_PutGroupState frames_append_message frames_append_lines : frames.
Lemma frames_ApplyGroupControl c x t : frames f (ApplyGroupControl c x t).
Proof. unfold ApplyGroupControl, heldEvents, holdPremature, appendGroupSystemLines. frame. Qed.
Lemma frames_storeGroupMessage c x t o : frames f (storeGroupMessage c x t o).
Proof. unfold storeGroupMessage, read_log. frame. Qed.
Lemma frames_recordBlocked g x t : frames f (recordBlockedGroupMessage g x t).
Proof. unfold recordBlockedGroupMessage, read_log. frame. Qed.
Lemma frames_recordMemberReceipt g x c : frames f (recordMemberReceipt g x c).
Proof. unfold recordMemberReceipt. frame. Qed.
Lemma frames_mark_in p k t : frames f (mark_in_transcript p k t).
Proof. unfold mark_in_transcript. frame. Qed.
Lemma frames_PutConversation c : frames f (PutConversation c).
Proof. unfold PutConversation. frame. Qed.
Lemma frames_recordReceipt p c : frames f (recordReceipt p c).
Proof. unfold recordReceipt. frame; apply frames_PutConversation. Qed.
Hint Resolve frames_ApplyGroupControl frames_storeGroupMessage frames_recordBlocked frames_recordMemberReceipt frames_mark_in frames_PutConversation frames_recordReceipt : frames.
Lemma frames_dispatch p c e b r o t : frames f (dispatch p c e b r o t).
Proof. unfold dispatch, storeIncomingText, receive_group_text, receive_receipt, IsPeerKnown, ReceiptsEnabled. frame. Qed.
End groups.
Hint Resolve frames_dispatch frames_mark_in : frames.

Section receiving.
Context {B : Type} (f : account → B) `{!∀ c, off_chat f c, !∀ g, off_group f g, !off_media f, !off_rng f, !off_dedup f}.

(** What follows from a message that opened: nothing happens to the sessions and prekeys, except
    that the prekey used is dropped. *)
Lemma frames_apply_content p o t c e `{!off_peer f p} : frames f (apply_content p o t c e).
Proof. unfold apply_content, IsPeerBlocked, markRekeyInTranscript, markRenameInTranscript. frame. Qed.
Lemma frames_after_decrypt m o t ce `{!off_peer f (ISenderAccountID m), !off_prekeys f} : frames f (after_decrypt m o t ce).
Proof. unfold after_decrypt, consume. frame. by apply frames_apply_content. Qed.
Lemma frames_giveUp m t e `{!off_peer f (ISenderAccountID m)} : frames f (giveUpOnEnvelope m t e).
Proof. unfold giveUpOnEnvelope, RecordDesyncEvidence, ShouldAutoRekey. frame. Qed.
End receiving.

Section opening.
Context {B : Type} (f : account → B) `{!off_rng f}.
Lemma frames_with_held p h o e x y : frames f (with_held p h o e x y).
Proof. unfold with_held. frame. Qed.
Lemma frames_open_with p id dh spk ot o x y z : frames f (open_with_sessions p id dh spk ot o x y z).
Proof. unfold open_with_sessions. frame; apply frames_with_held. Qed.
Lemma frames_open_envelope m : frames f (open_envelope m).
Proof. unfold open_envelope, named_prekey, LookupOneTimePrekey. frame. apply frames_open_with. Qed.
Lemma frames_decrypt m `{!off_peer f (ISenderAccountID m)} : frames f (decrypt m).
Proof. unfold decrypt. apply frames_bind; [apply frames_open_envelope|]. intros [[s p] e]. frame. Qed.
End opening.

Lemma frames_receive {B} (f : account → B) m o t
  `{!∀ c, off_chat f c, !∀ g, off_group f g, !off_media f, !off_rng f, !off_dedup f, !off_prekeys f, !off_peer f (ISenderAccountID m)} :
  frames f (receive m o t).
Proof. unfold receive, was_processed. frame; [by apply frames_decrypt|by apply frames_after_decrypt]. Qed.
Lemma frames_HandleIncoming {B} (f : account → B) m o t
  `{!∀ c, off_chat f c, !∀ g, off_group f g, !off_media f, !off_rng f, !off_dedup f, !off_prekeys f, !off_peer f (ISenderAccountID m)} :
  frames f (HandleIncoming m o t).
Proof. unfold HandleIncoming. frame; [by apply frames_receive|by apply frames_giveUp]. Qed.
End client.
