(* ===== verification/ClientReceiveCorrect.v ===== *)
(** * What an incoming envelope can and cannot do

    Theorems about the receive path: whom an envelope affects, what a failed attempt costs,
    when a one-time prekey is spent, that an envelope is handled once, and that two clients
    which begin at the same moment end up in one session. *)

From S2P Require Import Prelude GoStr GoTime GoTimeParse Sha256 Crypto Base64 Bech32m Address DeviceCert GroupEvent GroupState GroupResolve ProfileClaim Ratchet RatchetCorrect ClientLog ClientDedup ClientTranscript Envelope ClientState ClientProfile ClientGroups ClientReceive ClientFrames.

(** ** Runs of procedures *)

Lemma proc_bind_Ok {A B} (m : proc A) (k : A → proc B) a a' x :
  (m ≫= k) a = (a', Ok x) → ∃ a1 y, m a = (a1, Ok y) ∧ k y a1 = (a', Ok x).
Proof. unfold mbind, proc_bind. destruct (m a) as [a1 [y|e|]]; naive_solver. Qed.
Lemma proc_bind_Err {A B} (m : proc A) (k : A → proc B) a a' e :
  (m ≫= k) a = (a', Err e) → m a = (a', Err e) ∨ ∃ a1 y, m a = (a1, Ok y) ∧ k y a1 = (a', Err e).
Proof. unfold mbind, proc_bind. destruct (m a) as [a1 [y|e'|]]; naive_solver. Qed.
Lemma bind_run {A B} (m : proc A) (k : A → proc B) a a1 y : m a = (a1, Ok y) → (m ≫= k) a = k y a1.
Proof. unfold mbind, proc_bind. by intros ->. Qed.
Lemma bind_cases {A B C} (f : account → C) (m : proc A) (k : A → proc B) a : frames f m →
  f ((m ≫= k) a).1 = f a ∨ ∃ a1 x, m a = (a1, Ok x) ∧ f a1 = f a ∧ (m ≫= k) a = k x a1.
Proof.
  intros Hm. specialize (Hm a). unfold mbind, proc_bind. destruct (m a) as [a1 [x|e|]]; [right; by exists a1, x|by left..].
Qed.
Lemma lift_Ok {A} (r : res cerr A) a a' x : lift r a = (a', Ok x) → a' = a ∧ r = Ok x.
Proof. unfold lift. intros [= <- ->]. done. Qed.
Lemma msg_Ok {A} (r : res string A) a a' x : msg r a = (a', Ok x) → a' = a ∧ r = Ok x.
Proof. unfold msg. intros [-> H]%lift_Ok. split; [done|]. by apply wrap_err_Ok in H. Qed.
Lemma gets_Ok {A} (f : account → A) a a' x : gets f a = (a', Ok x) → a' = a ∧ x = f a.
Proof. unfold gets. by intros [= <- <-]. Qed.
Lemma ret_Ok {A} (x y : A) a a' : (mret x : proc A) a = (a', Ok y) → a' = a ∧ x = y.
Proof. by intros [= <- <-]. Qed.
Lemma safe_Ok id a a' u : safe id a = (a', Ok u) → a' = a ∧ safeElement id = Ok ().
Proof. unfold safe. intros [-> H]%msg_Ok. split; [done|]. by destruct u. Qed.

(** [step H as H1]: the first step [H1] of a successful run [H], and the rest; [done_by H] for a step
    that only reads. *)
Ltac done_by H :=
  lazymatch type of H with
  | lift _ _ = (_, Ok _) => apply lift_Ok in H as [-> H]
  | msg _ _ = (_, Ok _) => apply msg_Ok in H as [-> H]
  | gets _ _ = (_, Ok _) => apply gets_Ok in H as [-> H]
  | mret _ _ = (_, Ok _) => apply ret_Ok in H as [-> H]
  | safe _ _ = (_, Ok _) => apply safe_Ok in H as [-> H]
  | _ => idtac
  end.
Tactic Notation "step" hyp(H) "as" ident(H1) :=
  let a := fresh "a" in let y := fresh "y" in apply proc_bind_Ok in H as (a & y & H1 & H); done_by H1.

(** An account up to what the random source has yet to yield. *)
Definition settled (a : account) : account := with_rng a [].
Lemma settled_rng a a' : settled a' = settled a → a' = with_rng a (rng a').
Proof. destruct a, a'. unfold settled, with_rng. cbn. by intros [= -> -> -> -> -> -> -> -> -> -> -> -> ->]. Qed.
Lemma settled_field {B} (f : account → B) a a' : off_rng f → settled a' = settled a → f a' = f a.
Proof. intros H ->%settled_rng. apply H. Qed.

Section receive.
Context {UC : UnicodeCase} {ED : Ed25519} {XC : X25519} {HK : HKDF} {AE : AEAD} {QU : Quote}.
Context {JC : Json contentWire} {JA : Json attachmentWire} {JV : Json Envelope} {JE : Json (list (option Event))} {JL : Json logRecord}.
Context {JP : Json processedRecord} {JF : Json failuresFile}.

(** An envelope affects its sender only.  Whatever it contains and whether or not it opens, it
    leaves the sessions, device, profile and session health kept for every other peer
    as they were, and this account's keys, known and blocked peers and settings. *)
Theorem other_peers_untouched m openChat now a p :
  p ≠ ISenderAccountID m →
  let a' := (HandleIncoming m openChat now a).1 in
  peers a' !! p = peers a !! p ∧ identity_json a' = identity_json a ∧ known_json a' = known_json a ∧ blocked_json a' = blocked_json a ∧
  settings_json a' = settings_json a.
Proof.
  intros Hp a'. subst a'. split_and!.
  - apply (frames_HandleIncoming (λ a, peers a !! p)); try apply _. by apply other_peer.
  - by apply (frames_HandleIncoming identity_json); apply _.
  - by apply (frames_HandleIncoming known_json); apply _.
  - by apply (frames_HandleIncoming blocked_json); apply _.
  - by apply (frames_HandleIncoming settings_json); apply _.
Qed.

(** ** What opening does *)

Lemma SetSession_run p k s a : safeElement p = Ok () →
  SetSession p k s a = (with_peers a (<[p := set_session_file k (Some (toJSON_in s (map_to_list (Skipped s)))) (peer_of a p)]> (peers a)), Ok ()).
Proof. intros H. unfold SetSession, write_peer, safe, msg. by rewrite H. Qed.
Lemma SetSession_Err p k s a a' e : SetSession p k s a = (a', Err e) → a' = a.
Proof. unfold SetSession, write_peer, safe, msg, mbind, proc_bind, lift, change. destruct (safeElement p); cbn; congruence. Qed.

Lemma settled_draw a a' x : draw a = (a', x) → settled a' = settled a.
Proof. intros E. pose proof (frames_draw settled a) as H. by rewrite E in H. Qed.

(** An attempt that fails leaves nothing behind but the random values it drew. *)
Lemma decrypt_failed m a a' e : decrypt m a = (a', Err e) → settled a' = settled a.
Proof.
  unfold decrypt. intros [H|(a1 & [[s p] eff] & H1 & H)]%proc_bind_Err.
  - pose proof (frames_open_envelope settled m a) as F. by rewrite H in F.
  - pose proof (frames_open_envelope settled m a) as F. rewrite H1 in F. apply proc_bind_Err in H as [H|(? & ? & ? & H)]; [|done].
    by apply SetSession_Err in H as ->.
Qed.

(** The accounting of a failure touches counters and session health. *)
Lemma frames_giveUp_sessions m t e p k : frames (λ a, session_file k (peer_of a p)) (giveUpOnEnvelope m t e).
Proof.
  unfold giveUpOnEnvelope, RecordDesyncEvidence, ShouldAutoRekey, writeHealth. frame; try solve [apply frames_failure; apply _];
    try solve [apply frames_LoadConversation|apply frames_LoadHealth|apply frames_Identity]. apply frames_peer_file. by destruct k.
Qed.
Lemma giveUp_processed m t e a : processedIDs (dedup (giveUpOnEnvelope m t e a).1) = processedIDs (dedup a).
Proof.
  assert (∀ id, frames (λ a, processedIDs (dedup a)) (record_failure id)) as Hr.
  { intros id b. unfold record_failure. destruct (RecordDecryptFailure _ _ _) as [[c d] r] eqn:E. cbn [fst dedup with_dedup].
    unfold RecordDecryptFailure in E. destruct (_ <=? _); by injection E as <- <- <-. }
  revert a. change (frames (λ a, processedIDs (dedup a)) (giveUpOnEnvelope m t e)).
  unfold giveUpOnEnvelope, RecordDesyncEvidence, ShouldAutoRekey. frame; first [apply Hr|apply frames_LoadConversation|apply frames_LoadHealth|apply frames_writeHealth, _|apply frames_Identity].
Qed.

(** An envelope that cannot be opened, with the error the caller sees. *)
Lemma HandleIncoming_failed m o t a a1 e : decrypt m a = (a1, Err e) → errors_Is_ratchet ErrDuplicateMessage e = false →
  WasMessageProcessed (dedup a) (IMessageID m) = false →
  HandleIncoming m o t a = (e' ← giveUpOnEnvelope m (receiptClock t) e; fail e') a1.
Proof.
  intros Hd He Hw. unfold HandleIncoming, receive, was_processed.
  assert ((seen ← gets (λ a, WasMessageProcessed (dedup a) (IMessageID m));
    if (seen : bool) then mret (duplicate_result (ISenderAccountID m))
    else dec ← attempt (decrypt m);
      match dec with
      | inl ce => after_decrypt m o (receiptClock t) ce
      | inr e => if errors_Is_ratchet ErrDuplicateMessage e then _ ← mark_processed (IMessageID m); mret (duplicate_result (ISenderAccountID m)) else fail e
      end) a = (a1, Err e)) as E.
  { erewrite bind_run by done. rewrite Hw. erewrite bind_run by (unfold attempt; by rewrite Hd). cbv iota. by rewrite He. }
  unfold attempt at 1. unfold mbind at 1, proc_bind at 1. by rewrite E.
Qed.

(** C7: a failed attempt costs nothing.  An envelope that does not open leaves every session of every
    peer, every one-time prekey, every transcript, group and media file as it was, and is not
    recorded as handled: it can be tried again. *)
Theorem failed_open_costs_nothing m openChat now a a1 e :
  decrypt m a = (a1, Err e) → errors_Is_ratchet ErrDuplicateMessage e = false → WasMessageProcessed (dedup a) (IMessageID m) = false →
  let '(a', r) := HandleIncoming m openChat now a in
  is_ok r = false ∧ (∀ p k, session_file k (peer_of a' p) = session_file k (peer_of a p)) ∧ prekeys a' = prekeys a ∧ chats a' = chats a ∧
  groups a' = groups a ∧ media a' = media a ∧ processedIDs (dedup a') = processedIDs (dedup a).
Proof.
  intros Hd He Hw. rewrite (HandleIncoming_failed m openChat now a a1 e) by done.
  assert (∀ {B} (f : account → B), off_rng f → frames f (giveUpOnEnvelope m (receiptClock now) e) →
    f ((e' ← giveUpOnEnvelope m (receiptClock now) e; fail (A := ReceiveResult) e') a1).1 = f a) as F.
  { intros B f Hf Hg. pose proof (frames_bind f _ (λ e', fail (A := ReceiveResult) e') Hg (λ _, frames_fail f _) a1) as ->.
    by apply (settled_field f), (decrypt_failed m a a1 e). }
  pose proof (F _ (λ a, processedIDs (dedup a)) ltac:(by intros ? ?) (giveUp_processed m _ e)) as Fp.
  pose proof (λ p k, F _ (λ a, session_file k (peer_of a p)) ltac:(by intros ? ?) (frames_giveUp_sessions m _ e p k)) as Fs.
  pose proof (F _ prekeys ltac:(apply _) (frames_giveUp prekeys m _ e)) as Fk. pose proof (F _ chats ltac:(apply _) (frames_giveUp chats m _ e)) as Fc.
  pose proof (F _ groups ltac:(apply _) (frames_giveUp groups m _ e)) as Fg. pose proof (F _ media ltac:(apply _) (frames_giveUp media m _ e)) as Fm.
  revert Fp Fs Fk Fc Fg Fm. unfold mbind, proc_bind. destruct (giveUpOnEnvelope m (receiptClock now) e a1) as [a2 [e'| |]]; cbn; intros; by split_and!.
Qed.

(** ** One-time prekeys *)

(** The envelope carries a prekey block naming the prekey [id] held here, and the session it builds
    opens the message. *)
Definition opens_with_prekey (a : account) (m : IncomingMessage) (id : Z) : Prop :=
  ∃ o im rk me k fresh s p, open_payload (IPayload m) = Ok o ∧ op_initial o = Some (im, rk) ∧ load_identity (identity_json a) = Ok me ∧
    IOneTimePrekeyID im = Some id ∧ prekeys a !! id = Some k ∧
    try_initial (MyDHIdentityPriv me) (MySignedPrekeyPriv me) (Some (OtPriv k)) im (op_header o) (op_ciphertext o) fresh = Ok (s, p).

Lemma NewPrivateKey_Ok b w k : NewPrivateKey b w = Ok k → k = b.
Proof. unfold NewPrivateKey. destruct (_ =? _); congruence. Qed.
Lemma named_prekey_Some im a a' id k : (∀ i r, prekeys a !! i = Some r → OtKeyID r = i) →
  named_prekey im a = (a', Ok (Some (id, k))) → ∃ i r, im = Some i ∧ IOneTimePrekeyID i = Some id ∧ prekeys a !! id = Some r ∧ k = OtPriv r.
Proof.
  intros Hid. unfold named_prekey. destruct im as [i|]; [|done]. cbn [mbind option_bind]. destruct (IOneTimePrekeyID i) as [n|] eqn:En; [|done].
  unfold LookupOneTimePrekey. intros H. step H as H1. subst y. destruct (prekeys a !! n) as [r|] eqn:Er; [|done].
  step H as H1. done_by H. apply NewPrivateKey_Ok in H1 as ->. injection H as <- <-. rewrite (Hid n r Er). by exists i, r.
Qed.
Lemma with_held_keeps p h o e f1 f2 a a' s q eff : with_held p h o e f1 f2 a = (a', Ok (s, q, eff)) → consumePrekey eff = None.
Proof.
  unfold with_held. intros H. repeat case_match; try done; try (by injection H as <- <- <- <-).
  step H as Hst. destruct y as [i|]; [|done]. repeat case_match; try done. by injection H as <- <- <- <-.
Qed.
Lemma open_with_consumes p me dh spk ot o f1 f2 f3 a a' s q eff id :
  open_with_sessions p me dh spk ot o f1 f2 f3 a = (a', Ok (s, q, eff)) → consumePrekey eff = Some id →
  ∃ k im rk, ot = Some (id, k) ∧ op_initial o = Some (im, rk) ∧ try_initial dh spk (Some k) im (op_header o) (op_ciphertext o) f1 = Ok (s, q).
Proof.
  intros H Hc. unfold open_with_sessions in H. step H as H1. clear H1. destruct y as [held|], (op_initial o) as [[im rk]|] eqn:Ei; [..|done].
  - destruct (try_initial _ _ _ _ _ _ _) as [[s' p']|e|] eqn:Et; [|by rewrite (with_held_keeps _ _ _ _ _ _ _ _ _ _ _ H) in Hc|done].
    done_by H. injection H as -> -> <-. cbn [consumePrekey] in Hc. destruct ot as [[i k]|]; [|done]. injection Hc as ->. by exists k, im, rk.
  - by rewrite (with_held_keeps _ _ _ _ _ _ _ _ _ _ _ H) in Hc.
  - destruct (RespondToSession _ _ _ _) as [r| |] eqn:Er; [|done..]. step H as H1. destruct y as [s' p']. done_by H. injection H as -> -> <-. cbn [consumePrekey] in Hc.
    destruct ot as [[i k]|]; [|done]. injection Hc as ->. exists k, im, rk. split_and!; try done. unfold try_initial. cbn [fmap option_fmap option_map snd] in Er. rewrite Er.
    cbn [mbind res_bind]. by apply wrap_err_Ok in H1.
Qed.

(** Every prekey is filed under its own number. *)
Definition prekeys_filed (a : account) : Prop := ∀ i r, prekeys a !! i = Some r → OtKeyID r = i.

Lemma decrypt_consumes m a a' c eff id : prekeys_filed a → decrypt m a = (a', Ok (c, eff)) → consumePrekey eff = Some id → opens_with_prekey a m id.
Proof.
  intros Hf H Hc. unfold decrypt in H. step H as Ho. destruct y as [[s p] eff']. step H as Hs. done_by H. injection H as _ <-. clear Hs.
  unfold open_envelope in Ho. step Ho as Hp. step Ho as Hi. unfold Identity in Hi. step Hi as Hi1. subst. done_by Hi. step Ho as Hd. step Ho as Hk. step Ho as Hn.
  do 3 (step Ho as Hr; clear Hr). destruct (open_with_consumes _ _ _ _ _ _ _ _ _ _ _ _ _ _ _ Ho Hc) as (k & im & rk & -> & Ei & Et).
  destruct (named_prekey_Some _ _ _ _ _ Hf Hn) as (i & r & Eim & Eid & Er & ->). rewrite Ei in Eim. injection Eim as <-.
  apply NewPrivateKey_Ok in Hd as ->, Hk as ->. do 8 eexists. split_and!; try done.
Qed.

Lemma after_decrypt_prekeys m o t c eff a :
  prekeys (after_decrypt m o t (c, eff) a).1 = prekeys a ∨
  ∃ id, consumePrekey eff = Some id ∧ prekeys (after_decrypt m o t (c, eff) a).1 = delete id (prekeys a).
Proof.
  unfold after_decrypt. cbn [fst snd]. destruct (bind_cases prekeys _ (λ _, _ ← ClearDesyncEvidence (ISenderAccountID m); _ ← consume eff; apply_content (ISenderAccountID m) o t c eff)
    a (frames_mark prekeys (IMessageID m))) as [H|(a1 & u & _ & E1 & ->)]; [by left|].
  destruct (bind_cases prekeys _ (λ _, _ ← consume eff; apply_content (ISenderAccountID m) o t c eff) a1 (frames_clear prekeys (ISenderAccountID m)))
    as [->|(a2 & u2 & _ & E2 & ->)]; [by left|].
  unfold consume. destruct (consumePrekey eff) as [id|]; [right; exists id; split; [done|]|left]; erewrite bind_run by done;
    rewrite (frames_apply_content prekeys); cbn [with_prekeys prekeys]; rewrite ?E2, ?E1; try done.
Qed.

(** C9: a one-time prekey is spent by a message that opened with it, and by nothing else.  After any
    envelope the pool is what it was, or it lacks the one prekey that the envelope's prekey
    block named and that opened the message: a stale, damaged or repeated prekey block drains
    nothing. *)
Theorem prekey_spent_once_opened m openChat now a :
  prekeys_filed a →
  prekeys (HandleIncoming m openChat now a).1 = prekeys a ∨
  ∃ id, opens_with_prekey a m id ∧ prekeys (HandleIncoming m openChat now a).1 = delete id (prekeys a).
Proof.
  intros Hf. assert (prekeys (HandleIncoming m openChat now a).1 = prekeys (receive m openChat (receiptClock now) a).1) as ->.
  { unfold HandleIncoming, mbind, proc_bind, attempt. destruct (receive m openChat (receiptClock now) a) as [a1 [r|e|]]; try done.
    pose proof (frames_giveUp prekeys m (receiptClock now) e a1) as F. cbn [fst]. by destruct (giveUpOnEnvelope _ _ _ a1) as [a2 [e'| |]]. }
  unfold receive, was_processed. erewrite bind_run by done. destruct (WasMessageProcessed _ _); [by left|].
  pose proof (frames_decrypt prekeys m a) as Fd. destruct (decrypt m a) as [a1 [[c eff]|e|]] eqn:Ed; cbn [fst] in Fd.
  - erewrite bind_run by (unfold attempt; by rewrite Ed). cbv iota.
    destruct (after_decrypt_prekeys m openChat (receiptClock now) c eff a1) as [->|(id & Hid & ->)]; [left; congruence|].
    right. exists id. split; [by apply (decrypt_consumes m a a1 c eff id)|congruence].
  - left. erewrite bind_run by (unfold attempt; by rewrite Ed). cbv iota. destruct (errors_Is_ratchet _ _); [|done]. rewrite <- Fd.
    apply (frames_bind prekeys _ _ (frames_mark prekeys _) (λ _, frames_ret prekeys _)).
  - left. unfold mbind, proc_bind, attempt. by rewrite Ed.
Qed.

(** ** Once *)

(** What the client remembers of handled envelopes: the set of ids, and their order. *)
Abbreviation window := (λ a, (processedIDs (dedup a), processedOrder (dedup a))).
Definition window_ok (w : gset bytes * list bytes) : Prop := w.1 = list_to_set w.2 ∧ NoDup w.2.
Definition memory_ok (a : account) : Prop := window_ok (window a).
(** [id] was marked and at most [n] ids after it. *)
Definition within (n : nat) (id : bytes) (w : gset bytes * list bytes) : Prop := ∃ l1 l2, w.2 = l1 ++ id :: l2 ∧ (length l2 ≤ n)%nat.
(** The window after [id] was marked. *)
Definition pushed (id : bytes) (w : gset bytes * list bytes) : gset bytes * list bytes :=
  let n := (length w.2 + 1 - 500)%nat in (({[id]} ∪ w.1) ∖ list_to_set (take n (w.2 ++ [id])), drop n (w.2 ++ [id])).
Definition marks (id : bytes) (w w' : gset bytes * list bytes) : Prop := w' = w ∨ id ∉ w.1 ∧ w' = pushed id w.

Lemma pushed_ok id w : window_ok w → id ∉ w.1 → window_ok (pushed id w) ∧ within 0 id (pushed id w) ∧ ∀ n x, (n < 499)%nat → within n x w → within (S n) x (pushed id w).
Proof.
  intros [Hs Hnd] Hn. destruct w as [ids order]. cbn in *. unfold pushed. cbn. set (k := (length order + 1 - 500)%nat).
  assert (NoDup (order ++ [id])) as Hnd'. { apply NoDup_app. split_and!; [done| |apply NoDup_singleton]. intros x Hx ->%list_elem_of_singleton. apply Hn. rewrite Hs. by apply elem_of_list_to_set. }
  split_and!.
  - rewrite <- (take_drop k (order ++ [id])) in Hnd'. apply NoDup_app in Hnd' as (_ & Hd & Hnd'). split; [|done]. cbn.
    assert ({[id]} ∪ ids = list_to_set (take k (order ++ [id])) ∪ list_to_set (drop k (order ++ [id]))) as ->.
    { rewrite <- list_to_set_app_L, take_drop, list_to_set_app_L, Hs. cbn. set_solver. }
    apply set_eq. intros x. rewrite elem_of_difference, elem_of_union, !elem_of_list_to_set. specialize (Hd x). tauto.
  - exists (drop k order), []. cbn. rewrite drop_app_le by lia. done.
  - intros n x Hn' (l1 & l2 & E & Hl). cbn in E. subst order. exists (drop k l1), (l2 ++ [id]). cbn. rewrite <- (assoc_L app), drop_app_le, length_app; cbn; [split; [done|lia]|].
    unfold k. rewrite length_app. cbn. lia.
Qed.
Lemma MarkMessageProcessed_marks c d id : let r := MarkMessageProcessed c d id in
  let w' := (processedIDs r.1.1, processedOrder r.1.1) in let w := (processedIDs c, processedOrder c) in
  marks id w w' ∧ (is_ok r.2 = true → id ∉ processedIDs c → w' = pushed id w).
Proof.
  cbv zeta. unfold MarkMessageProcessed.
  assert (∀ c1 d1, let r := if present (failures c1 !! id) then (saveFailures (with_failures c1 (delete id (failures c1)) (failureOrder c1)) d1, Ok (E := string) ()) else (c1, d1, Ok ()) in
    (processedIDs r.1.1, processedOrder r.1.1) = (processedIDs c1, processedOrder c1)) as K by (intros c1 d1; by destruct (present _)).
  destruct (WasMessageProcessed c id) eqn:Ew.
  - rewrite K. split; [by left|]. apply bool_decide_eq_true in Ew. done.
  - apply bool_decide_eq_false in Ew. destruct (appendLine _ _) as [log [v|e|]]; [|split; [by left|done]..].
    set (c0 := with_processed c _ _ _).
    assert ((processedIDs (evictProcessed c0), processedOrder (evictProcessed c0)) = pushed id (processedIDs c, processedOrder c)) as E.
    { unfold evictProcessed, pushed, c0, zlen, MaxProcessedMessageIDs. cbn. rewrite length_app. cbn. destruct (_ <=? _) eqn:El; cbn.
      - apply Z.leb_le in El. replace (length (processedOrder c) + 1 - 500)%nat with 0%nat by lia. f_equal. set_solver.
      - apply Z.leb_gt in El. by replace (Z.to_nat (Z.of_nat (length (processedOrder c) + 1) - 500)) with (length (processedOrder c) + 1 - 500)%nat by lia. }
    destruct (compact_if_grown _ _) as [c1 d1] eqn:Ec. rewrite K.
    assert ((processedIDs c1, processedOrder c1) = pushed id (processedIDs c, processedOrder c)) as ->; [|by split; [right|]].
    unfold compact_if_grown in Ec. rewrite <- E. destruct (_ <? _); unfold compactProcessed in Ec; by injection Ec as <- <-.
Qed.

(** [once id m]: [m] marks at most [id], and when it succeeds for an id that is not remembered, it has marked it. *)
Definition once {A} (id : bytes) (m : proc A) : Prop := ∀ a,
  marks id (window a) (window (m a).1) ∧ (is_ok (m a).2 = true → id ∉ (window a).1 → window (m a).1 = pushed id (window a)).
Lemma once_mark id : once id (mark_processed id).
Proof.
  intros a. unfold mark_processed. pose proof (MarkMessageProcessed_marks (dedup a) (dedup_files a) id) as [H1 H2]. destruct (MarkMessageProcessed _ _ _) as [[c d] r].
  split; [exact H1|]. intros Hr. apply H2. by destruct r.
Qed.
Lemma once_before {A C} id (m : proc A) (k : A → proc C) : frames window m → (∀ x, once id (k x)) → once id (m ≫= k).
Proof.
  intros Hm Hk a. specialize (Hm a). unfold mbind, proc_bind. destruct (m a) as [a1 [x|e|]]; cbn [fst snd] in *; [|split; [by left|done]..].
  destruct (Hk x a1) as [H1 H2]. cbv beta in *. rewrite Hm in H1, H2. done.
Qed.
Lemma once_after {A C} id (m : proc A) (k : A → proc C) : once id m → (∀ x, frames window (k x)) → once id (m ≫= k).
Proof.
  intros Hm Hk a. destruct (Hm a) as [H1 H2]. unfold mbind, proc_bind. destruct (m a) as [a1 [x|e|]]; cbn [fst snd] in *; [|done..].
  specialize (Hk x a1). cbv beta in *. rewrite Hk. split; [done|]. intros _. by apply H2.
Qed.
Lemma once_fail {A} id e : once id (fail (A := A) e).
Proof. intros a. split; [by left|done]. Qed.

Lemma record_failure_window id : frames window (record_failure id).
Proof. intros a. unfold record_failure, RecordDecryptFailure. by destruct (_ <=? _). Qed.
Lemma giveUp_window m t e : frames window (giveUpOnEnvelope m t e).
Proof. unfold giveUpOnEnvelope. cbv zeta. apply frames_bind; [apply record_failure_window|intros ?]. unfold RecordDesyncEvidence, ShouldAutoRekey. frame; first [apply frames_LoadConversation|apply frames_LoadHealth|apply frames_Identity|apply (frames_writeHealth window); apply _]. Qed.
Lemma after_decrypt_once m o t ce : once (IMessageID m) (after_decrypt m o t ce).
Proof. apply once_after; [apply once_mark|]. intros _. unfold consume. apply frames_bind; [apply (frames_clear window); apply _|intros _]. apply frames_bind; [intros a; by destruct (consumePrekey ce.2)|intros _]. apply (frames_apply_content window); apply _. Qed.
Lemma receive_once m o t : once (IMessageID m) (receive m o t).
Proof.
  intros a. unfold receive, was_processed. rewrite (bind_run _ _ a a (WasMessageProcessed (dedup a) (IMessageID m))) by done.
  destruct (WasMessageProcessed _ _) eqn:Ew; [split; [by left|]; intros _ Hn; apply bool_decide_eq_true in Ew; done|]. revert a Ew. 
  assert (once (IMessageID m) (dec ← attempt (decrypt m); match dec with inl ce => after_decrypt m o t ce
    | inr e => if errors_Is_ratchet ErrDuplicateMessage e then _ ← mark_processed (IMessageID m); mret (duplicate_result (ISenderAccountID m)) else fail e end)) as H.
  { apply once_before; [apply frames_attempt, (frames_decrypt window); apply _|]. intros [ce|e]; [apply after_decrypt_once|]. destruct (errors_Is_ratchet _ _); [|apply once_fail].
    apply once_after; [apply once_mark|done]. }
  intros a _. apply H.
Qed.
Lemma HandleIncoming_once m o t : once (IMessageID m) (HandleIncoming m o t).
Proof.
  intros a. destruct (receive_once m o (receiptClock t) a) as [H1 H2]. unfold HandleIncoming.
  destruct (receive m o (receiptClock t) a) as [a1 [x|e|]] eqn:E; cbn [fst snd] in *.
  - rewrite (bind_run _ _ a a1 (inl x)); [done|]. unfold attempt. by rewrite E.
  - rewrite (bind_run _ _ a a1 (inr e)); [|unfold attempt; by rewrite E].
    pose proof (giveUp_window m (receiptClock t) e a1) as F. unfold mbind, proc_bind. destruct (giveUpOnEnvelope _ _ _ a1) as [a2 [y|y|]]; cbn [fst snd fail lift is_ok] in *; cbv beta in *; rewrite F; done.
  - unfold mbind, proc_bind, attempt. by rewrite E.
Qed.

(** Later states: any number of envelopes were handled, well or not, [n] in all, and in between anything was done that
    leaves the memory of handled envelopes alone. *)
Inductive later : nat → account → account → Prop :=
  | later_now a : later 0 a a
  | later_handled n a a1 m o t : later n a a1 → later (S n) a (HandleIncoming m o t a1).1
  | later_other n a a1 a2 : later n a a1 → dedup a2 = dedup a1 → later n a a2.

Lemma later_within n id a a1 : later n a a1 → memory_ok a → within 0 id (window a) → (n < 500)%nat → memory_ok a1 ∧ within n id (window a1).
Proof.
  intros H Hok Hin. induction H as [a|n a a1 m o t H IH|n a a1 a2 H IH E]; intros Hn; [done| |].
  - destruct IH as [Hok1 Hin1]; [done|done|lia|]. unfold memory_ok in *. destruct (HandleIncoming_once m o t a1) as [[->|[Hnew ->]] _].
    + split; [done|]. destruct Hin1 as (l1 & l2 & El & Hl). exists l1, l2. split; [done|lia].
    + destruct (pushed_ok (IMessageID m) (window a1) Hok1 Hnew) as (H1 & _ & H2). split; [done|]. apply H2; [lia|done].
  - destruct IH as [Hok1 Hin1]; [done..|]. unfold memory_ok in *. cbv beta in *. by rewrite E.
Qed.
Lemma handled_marked m o t a a1 r : memory_ok a → WasMessageProcessed (dedup a) (IMessageID m) = false → HandleIncoming m o t a = (a1, Ok r) →
  memory_ok a1 ∧ within 0 (IMessageID m) (window a1).
Proof.
  intros Hok Hnew H. destruct (HandleIncoming_once m o t a) as [_ H2]. rewrite H in H2. apply bool_decide_eq_false in Hnew. unfold memory_ok in *.
  destruct (pushed_ok _ _ Hok Hnew) as (K1 & K2 & _). specialize (H2 eq_refl Hnew). cbn [fst] in H2. by rewrite H2.
Qed.

(** C10: an envelope is handled once, while its id is remembered.  After an envelope that was new was handled, another one
    under the same message id -- the same envelope again, or a different payload -- is reported as a duplicate
    and changes nothing: no ratchet step, no transcript line, no prekey, no group fact.  That holds until 500 further
    envelopes have been handled, whatever else was done in between that leaves the memory of handled ids alone (sending, say,
    but not a restart); after that the id may have been pushed out. *)
Theorem handled_once m openChat now a a1 r n a2 m' openChat' now' :
  memory_ok a → WasMessageProcessed (dedup a) (IMessageID m) = false → HandleIncoming m openChat now a = (a1, Ok r) →
  later n a1 a2 → (n < 500)%nat → IMessageID m' = IMessageID m →
  HandleIncoming m' openChat' now' a2 = (a2, Ok (duplicate_result (ISenderAccountID m'))).
Proof.
  intros Hm Hnew H Hl Hn Hid. destruct (handled_marked _ _ _ _ _ _ Hm Hnew H) as [Hok Hin].
  destruct (later_within n _ a1 a2 Hl Hok Hin Hn) as [[Hs _] (l1 & l2 & El & _)]. cbn in Hs, El.
  assert (WasMessageProcessed (dedup a2) (IMessageID m') = true) as Hw by (apply bool_decide_eq_true; rewrite Hid, Hs, El; set_solver).
  unfold HandleIncoming, receive, was_processed.
  rewrite (bind_run _ _ a2 a2 (inl (duplicate_result (ISenderAccountID m')))); [done|]. unfold attempt. erewrite bind_run by done. by rewrite Hw.
Qed.
End receive.

(** ** Two clients that reach for each other at the same moment

    Each has built a session toward the other and sent its first message before the other's
    arrived, so each receives a prekey block over a session it already holds.  The lower
    account id's session wins on both sides, with nothing exchanged. *)

Section race.
Context {XC : X25519} {HK : HKDF} {AE : AEAD} {JC : Json contentWire} {JA : Json attachmentWire} {JV : Json Envelope}.

(** A one-time prekey [ot] of an account, its number and private half -- or none. *)
Definition offers (b : account) (ot : option (Z * bytes)) : Prop :=
  match ot with
  | None => True
  | Some (n, k) => zlen k = 32 ∧ ∃ pub, prekeys b !! n = Some (mkOneTimePrekey n pub k)
  end.

(** The account [a] of [me] built a session from the bundle of [peer] with the one-time prekey [ot],
    and encrypted [p] as its first message, with the ratchet key [rat]. *)
Record reached (a : account) (me peer : OwnIdentity) (ot : option (Z * bytes)) (p : bytes) (s : Session) (im : InitialMessage) (h : Header) (c rat : bytes) : Prop := {
  re_identity : load_identity (identity_json a) = Ok me;
  re_keys : zlen (MyDHIdentityPriv me) = 32 ∧ zlen (MySignedPrekeyPriv me) = 32;
  re_sent : ∃ s0 eph, InitiateSession (MyDHIdentityPriv me)
      (mkBundle (x_pub (MyDHIdentityPriv peer)) (MySignedPrekeyID peer) (x_pub (MySignedPrekeyPriv peer)) (fst <$> ot) (x_pub <$> (snd <$> ot)))
      (Some eph) (Some rat) = Ok (s0, im) ∧ Encrypt s0 p = (s, Ok (h, c));
  re_safe : safeElement (MyAccountID peer) = Ok ();
  re_held : load_session (session_json (peer_of a (MyAccountID peer))) = Ok (Some s);
}.
(** The envelope an ordinary establishment sends. *)
Definition announces (m : IncomingMessage) (me : OwnIdentity) (im : InitialMessage) (h : Header) (c : bytes) : Prop :=
  ISenderAccountID m = MyAccountID me ∧ open_payload (IPayload m) = Ok (mkOpened (Some (im, Some false)) h c).
(** A key the random source yields next, good for one step of the ratchet against [rat]. *)
Definition next_key (a : account) (k spk rat : bytes) : Prop := (∃ l, rng a = k :: l) ∧ is_Some (x_dh k (x_pub rat)) ∧ x_pub k ≠ x_pub spk.

Lemma Encrypt_Nr s p s' r : Encrypt s p = (s', r) → Nr s' = Nr s.
Proof. unfold Encrypt. destruct (CKs s); [|by intros [= <- _]]. destruct (kdfCK _). destruct (DHs s); by intros [= <- _]. Qed.

(** The first message of a session opens at the other end, and hands it the turn. *)
Lemma first_message me peer ot eph rat p s0 s im h c k :
  InitiateSession (MyDHIdentityPriv me)
    (mkBundle (x_pub (MyDHIdentityPriv peer)) (MySignedPrekeyID peer) (x_pub (MySignedPrekeyPriv peer)) (fst <$> ot) (x_pub <$> (snd <$> ot)))
    (Some eph) (Some rat) = Ok (s0, im) → Encrypt s0 p = (s, Ok (h, c)) →
  is_Some (x_dh k (x_pub rat)) → x_pub k ≠ x_pub (MySignedPrekeyPriv peer) →
  Nr s = 0 ∧ ∃ r ck, try_initial (MyDHIdentityPriv peer) (MySignedPrekeyPriv peer) (snd <$> ot) im h c (Some k) = Ok (r, p) ∧ ready r s k rat ck ∧
    ∀ ps, (length ps < 999)%nat → (burst s r ps k).2 = map Ok ps.
Proof.
  intros Hi He Hdh Hne. destruct (x3dh_agreement _ _ _ _ _ _ _ _ _ _ Hi) as (sb & ck & Hr & Ht & N1 & N2 & N3 & N4 & N5 & K1 & K2).
  { destruct ot as [[n x]|]; cbn; split; intros [? ?]; done. }
  assert (ready s0 sb rat (MySignedPrekeyPriv peer) ck) as Hrd by (constructor; try done; lia).
  split; [by rewrite (Encrypt_Nr _ _ _ _ He)|].
  assert (∀ ps, (length ps < 999)%nat → ∃ a' b' ck', burst s0 sb (p :: ps) k = (a', b', map Ok (p :: ps)) ∧ ready b' a' k rat ck') as Hb.
  { intros ps Hl. apply (burst_ready _ _ _ _ _ _ (p :: ps) Hrd); try done. cbn [length]. lia. }
  destruct (Hb []) as (a' & b' & ck' & E & Hrd'); [cbn; lia|]. cbn [burst] in E. rewrite He in E.
  destruct (Decrypt sb h c (Some k)) as [r rp] eqn:Ed. injection E as <- <- ->.
  exists r, ck'. split_and!; [|done|].
  - unfold try_initial. rewrite Hr. cbn [mbind res_bind]. unfold try_open. by rewrite Ed.
  - intros ps Hl. destruct (Hb ps Hl) as (a2 & b2 & ck2 & E2 & _). cbn [burst] in E2. rewrite He, Ed in E2.
    destruct (burst s r ps k) as [[x y] rs]. cbn [map] in E2. by injection E2 as _ _ ->.
Qed.

Lemma LoadSession_run a p k s : safeElement p = Ok () → load_session (session_file k (peer_of a p)) = Ok s → LoadSession p k a = (a, Ok s).
Proof. intros Hs Hl. unfold LoadSession, safe, msg. rewrite Hs. unfold mbind, proc_bind, lift, gets. cbn [wrap_err]. by rewrite Hl. Qed.
Lemma Identity_run a me : load_identity (identity_json a) = Ok me → Identity a = (a, Ok me).
Proof. intros H. unfold Identity, mbind, proc_bind, gets, lift. by rewrite H. Qed.
Lemma named_prekey_run b ot im : offers b ot → IOneTimePrekeyID im = fst <$> ot → named_prekey (Some im) b = (b, Ok ot).
Proof.
  intros Ho Hi. unfold named_prekey. cbn [mbind option_bind]. rewrite Hi. destruct ot as [[n k]|]; [|done]. destruct Ho as (Hk & pub & Hp).
  cbn [fmap option_fmap option_map fst]. unfold LookupOneTimePrekey. erewrite bind_run by done. rewrite Hp. cbv iota. cbn [OtPriv OtKeyID].
  unfold NewPrivateKey. rewrite Hk. cbn [Z.eqb]. done.
Qed.
Lemma initiate_names me remote eph rat s im : InitiateSession me remote (Some eph) (Some rat) = Ok (s, im) →
  IOneTimePrekeyID im = match OneTimePrekeyPub remote with Some _ => OneTimePrekeyID remote | None => None end.
Proof.
  unfold InitiateSession. intros H. apply bind_Ok in H as (e & He & H). apply bind_Ok in H as (dh1 & H1 & H).
  apply bind_Ok in H as (dh2 & H2 & H). apply bind_Ok in H as (dh3 & H3 & H).
  apply bind_Ok in H as ([ikm oid] & Hikm & H). apply bind_Ok in H as (sk & Hsk & H).
  apply bind_Ok in H as (ka & Hka & H). apply bind_Ok in H as (s' & Hs & H). apply Ok_inj in H. injection H as <- <-. cbn [IOneTimePrekeyID snd].
  destruct (OneTimePrekeyPub remote); [apply bind_Ok in Hikm as (dh4 & _ & Hikm)|]; apply Ok_inj in Hikm; by injection Hikm.
Qed.

(** One side of the race. *)
Lemma race_side a b me peer ot p s im h c rat m k held :
  reached a me peer ot p s im h c rat → announces m me im h c →
  load_identity (identity_json b) = Ok peer → zlen (MyDHIdentityPriv peer) = 32 → zlen (MySignedPrekeyPriv peer) = 32 → offers b ot →
  safeElement (MyAccountID me) = Ok () → load_session (session_json (peer_of b (MyAccountID me))) = Ok (Some held) → Nr held = 0 →
  next_key b k (MySignedPrekeyPriv peer) rat →
  ∃ b' r ck, let adopt := negb (bytes_leb (MyAccountID peer) (MyAccountID me)) in
    decrypt m b = (b', Ok (DecodeContent p, mkEffect adopt (negb adopt) (fst <$> ot))) ∧
    session_file (if adopt then Sending else Inbound) (peer_of b' (MyAccountID me)) = Some (toJSON_in r (map_to_list (Skipped r))) ∧
    (adopt = false → session_file Sending (peer_of b' (MyAccountID me)) = session_file Sending (peer_of b (MyAccountID me))) ∧
    ready r s k rat ck ∧ ∀ ps, (length ps < 999)%nat → (burst s r ps k).2 = map Ok ps.
Proof.
  intros [Hid Hkeys (s0 & eph & Hini & Henc) Hsafe Hheld] [Hfrom Hopen] Hidb Hd1 Hd2 Hoff Hsafeb Hheldb Hnr [[l Hrng] [Hdh Hne]].
  destruct (first_message _ _ _ _ _ _ _ _ _ _ _ _ Hini Henc Hdh Hne) as (_ & r & ck & Htry & Hrd & Hburst).
  assert (IOneTimePrekeyID im = fst <$> ot) as Hname by (rewrite (initiate_names _ _ _ _ _ _ Hini); by destruct ot as [[? ?]|]).
  set (adopt := negb (bytes_leb (MyAccountID peer) (MyAccountID me))).
  assert (∃ b1, settled b1 = settled b ∧ open_envelope m b = (b1, Ok (r, p, mkEffect adopt (negb adopt) (fst <$> ot)))) as (b1 & Hset & Hoe).
  { pose proof (frames_open_envelope settled m b) as F. revert F. unfold open_envelope. erewrite bind_run by (unfold msg, lift; by rewrite Hopen).
    rewrite (bind_run _ _ _ _ _ (Identity_run _ _ Hidb)). cbv beta.
    erewrite bind_run by (unfold NewPrivateKey; rewrite Hd1; done). erewrite bind_run by (unfold NewPrivateKey; rewrite Hd2; done). cbv beta. cbn [op_initial fmap option_fmap option_map fst].
    rewrite (bind_run _ _ _ _ _ (named_prekey_run _ _ _ Hoff Hname)).
    assert (∃ b1 f2 f3 x, session_json (peer_of b1 (MyAccountID me)) = session_json (peer_of b (MyAccountID me)) ∧
      (∀ A (g : option bytes → option bytes → option bytes → proc A), (f1 ← draw; f2 ← draw; f3 ← draw; g f1 f2 f3) b = g (Some k) f2 f3 b1) ∧ x = b1) as (b1 & f2 & f3 & _ & Hsame & Hdraw & _).
    { unfold mbind, proc_bind, draw. rewrite Hrng. destruct l as [|y2 [|y3 l]]; cbn; do 4 eexists; (split; [|split; [done|done]]); done. }
    rewrite Hdraw. unfold open_with_sessions. rewrite Hfrom. rewrite (bind_run _ _ _ b1 (Some held)) by (apply LoadSession_run; [done|cbn [session_file]; by rewrite Hsame]).
    cbn [op_initial op_header op_ciphertext]. rewrite Htry. cbv iota zeta.
    assert (adopts (Some false) p held (MyAccountID me) (MyAccountID peer) = adopt) as -> by (unfold adopts; rewrite Hnr; done).
    intros F. exists b1. done. }
  assert (peers b1 = peers b) as Hpe by (by apply (settled_field peers)).
  eexists _, r, ck. cbv zeta. split_and!; [unfold decrypt; rewrite (bind_run _ _ _ _ _ Hoe); cbv beta iota; rewrite Hfrom;
    rewrite (bind_run _ _ _ _ _ (SetSession_run _ _ _ _ Hsafeb)); reflexivity|..]; [| |done|done].
  - unfold peer_of at 1. cbn [peers with_peers keepOwnSending]. rewrite lookup_insert_eq. by destruct adopt.
  - intros Ha. unfold peer_of at 1. cbn [peers with_peers keepOwnSending]. rewrite lookup_insert_eq, Ha. unfold peer_of. by rewrite Hpe.
Qed.

(** C6: two clients that write to each other for the first time at the same moment end up on one
    session.  Each receives the other's prekey block over the session it has just built; the
    account with the lower id keeps its own session for sending and keeps the other's only for
    reading, the account with the higher id adopts the other's -- decided by each alone.  Both
    first messages open, the session the higher id now holds and the one the lower id kept
    converse without a failure, and what either side had already sent on its first session
    still opens. *)
Theorem simultaneous_establishment_converges a b A B otA otB pa pb sA sB imA imB hA hB cA cB ratA ratB mAB mBA kA kB :
  reached a A B otB pa sA imA hA cA ratA → reached b B A otA pb sB imB hB cB ratB →
  announces mAB A imA hA cA → announces mBA B imB hB cB → offers a otA → offers b otB →
  next_key a kA (MySignedPrekeyPriv A) ratB → next_key b kB (MySignedPrekeyPriv B) ratA →
  bytes_ltb (MyAccountID A) (MyAccountID B) = true →
  ∃ a' b' rA rB, decrypt mBA a = (a', Ok (DecodeContent pb, mkEffect false true (fst <$> otA))) ∧
    decrypt mAB b = (b', Ok (DecodeContent pa, mkEffect true false (fst <$> otB))) ∧
    load_session (session_json (peer_of a' (MyAccountID B))) = Ok (Some sA) ∧
    session_json (peer_of b' (MyAccountID A)) = Some (toJSON_in rB (map_to_list (Skipped rB))) ∧
    (∀ rounds, fresh_keys kB ratA rounds → converse rB sA rounds = map (map Ok) rounds.*2) ∧
    (∀ ps, (length ps < 999)%nat → (burst sA rB ps kB).2 = map Ok ps) ∧
    inbound_json (peer_of a' (MyAccountID B)) = Some (toJSON_in rA (map_to_list (Skipped rA))) ∧
    (∀ ps, (length ps < 999)%nat → (burst sB rA ps kA).2 = map Ok ps).
Proof.
  intros RA RB NA NB OA OB KA KB Hlt. assert (bytes_leb (MyAccountID A) (MyAccountID B) = true) as Hle.
  { unfold bytes_ltb in Hlt. apply negb_true_iff in Hlt. destruct (bytes_le_total (MyAccountID A) (MyAccountID B)) as [H|H]; [done|]. by rewrite H in Hlt. }
  pose proof (re_sent _ _ _ _ _ _ _ _ _ _ RA) as (sa0 & ea & IA & EA). pose proof (re_sent _ _ _ _ _ _ _ _ _ _ RB) as (sb0 & eb & IB & EB).
  destruct (first_message _ _ _ _ _ _ _ _ _ _ _ kB IA EA) as (NrA & _); [apply KB..|]. destruct (first_message _ _ _ _ _ _ _ _ _ _ _ kA IB EB) as (NrB & _); [apply KA..|].
  destruct (race_side a b A B otB pa sA imA hA cA ratA mAB kB sB RA NA) as (b' & rB & ckB & DB & SB & _ & RdB & BB); try done; try apply RB.
  destruct (race_side b a B A otA pb sB imB hB cB ratB mBA kA sA RB NB) as (a' & rA & ckA & DA & SA & UA & _ & BA); try done; try apply RA.
  unfold bytes_ltb in Hlt. rewrite Hlt in DB, SB. rewrite Hle in DA, SA, UA. cbn [negb session_file] in DB, SB, DA, SA, UA.
  exists a', b', rA, rB. split_and!; try done.
  - rewrite UA by done. apply RA.
  - intros rounds. by apply (converse_ready rB sA kB ratA ckB).
Qed.
End race.
