(* ===== verification/ClientGroupsCorrect.v ===== *)
(** * Facts about groups, folded on this device

    The facts held about a group grow with every control envelope that names the group --
    and are replaced, not merged, by one that names another. *)

From S2P Require Import Prelude GoStr GoTime GoTimeParse Sha256 Crypto Base64 Bech32m Address DeviceCert GroupEvent GroupState GroupResolve ProfileClaim Ratchet RatchetCorrect ClientLog ClientDedup ClientTranscript Envelope ClientState ClientProfile ClientGroups ClientReceive ClientFrames ClientReceiveCorrect.

Section groups.
Context {UC : UnicodeCase} {ED : Ed25519} {QU : Quote} {JE : Json (list (option Event))} {JL : Json logRecord}.

(** ** [Apply] only adds *)

Definition grows (s s' : State) : Prop := events s ⊆ events s' ∧ (groupID s ≠ [] → groupID s' = groupID s).
Lemma grows_refl s : grows s s.
Proof. done. Qed.
Lemma grows_trans s1 s2 s3 : grows s1 s2 → grows s2 s3 → grows s1 s3.
Proof. intros [H1 G1] [H2 G2]. split; [by transitivity (events s2)|]. intros Hg. specialize (G1 Hg). rewrite <- G1. apply G2. by rewrite G1. Qed.

Lemma admit_grows i e s r s' r' : State_admit i e (s, r) = Ok (s', r') → grows s s'.
Proof.
  unfold State_admit. destruct (admission s e) as [u| |] eqn:Ea; [|intros [= <- _]; apply grows_refl|done].
  destruct (Event_ID e) as [id| |]; [|intros [= <- _]; apply grows_refl|done]. destruct (events s !! id) as [x|] eqn:Ei; [intros [= <- _]; apply grows_refl|].
  destruct (Type_ e =?b EventGenesis) eqn:Et; intros [= <- _]; (split; cbn [events groupID]; [by apply insert_subseteq|]); [|done].
  intros Hg. unfold admission in Ea. rewrite Et in Ea. apply bind_Ok in Ea as (v & _ & Ea).
  destruct (groupID s =?b []) eqn:E1; [exfalso; by apply Hg, eqb_true|]. destruct (groupID s =?b GroupID e) eqn:E2; [|done]. symmetry. by apply eqb_true.
Qed.
Lemma pass_genesis_grows i evs s r s' r' : pass_genesis i evs (s, r) = Ok (s', r') → grows s s'.
Proof.
  revert i s r. induction evs as [|[e|] evs IH]; intros i s r H; cbn [pass_genesis] in H.
  - apply Ok_inj in H. injection H as <- <-. apply grows_refl.
  - destruct (is_genesis e); [|by apply IH in H]. apply bind_Ok in H as ([s1 r1] & H1 & H). eapply grows_trans; [by eapply admit_grows|by eapply IH].
  - by apply IH in H.
Qed.
Lemma pass_others_grows i evs s r s' r' : pass_others i evs (s, r) = Ok (s', r') → grows s s'.
Proof.
  revert i s r. induction evs as [|[e|] evs IH]; intros i s r H; cbn [pass_others] in H.
  - apply Ok_inj in H. injection H as <- <-. apply grows_refl.
  - destruct (is_genesis e); [by apply IH in H|]. apply bind_Ok in H as ([s1 r1] & H1 & H). eapply grows_trans; [by eapply admit_grows|by eapply IH].
  - cbn [fst snd] in H. by apply IH in H.
Qed.
Lemma Apply_grows s evs s' r : Apply s evs = Ok (s', r) → grows s s'.
Proof.
  unfold Apply. intros ([s1 r1] & H1 & H)%bind_Ok. eapply grows_trans; [by eapply pass_genesis_grows|by eapply pass_others_grows].
Qed.

(** ** The facts file *)

Lemma frames_group_file {C} (h : group_dir → C) p q k : (∀ d, h (k d) = h d) → frames (λ a, h (group_of a p)) (write_group q k).
Proof.
  intros Hk. apply frames_bind; [done|]. intros _ a. unfold change, group_of. cbn [fst groups with_groups].
  destruct (decide (p = q)) as [->|Hne]; [rewrite lookup_insert_eq; apply Hk|by rewrite lookup_insert_ne].
Qed.
Lemma frames_group_file_removed {C} (h : group_dir → C) p q k : (∀ d, h (k d) = h d) → frames (λ a, h (group_of a p)) (remove_group q k).
Proof.
  intros Hk. apply frames_bind; [done|]. intros _ a. unfold change, group_of. cbn [fst groups with_groups].
  destruct (decide (p = q)) as [->|Hne]; [rewrite lookup_alter_eq; destruct (groups a !! q); [apply Hk|done]|by rewrite lookup_alter_ne].
Qed.
Abbreviation facts g := (λ a, facts_json (group_of a g)).
Lemma frames_facts_hash g g' x h : frames (facts g) (RecordGroupPeerStateHash g' x h).
Proof. unfold RecordGroupPeerStateHash, updateGroupPeers, groupPeersFor. frame. by apply frames_group_file. Qed.
Lemma frames_facts_chat g c : frames (facts g) (PutGroupChat c).
Proof. by apply frames_group_file. Qed.
Lemma frames_facts_held g g' b r : frames (facts g) (holdPremature g' b r).
Proof. unfold holdPremature. destruct (premature _ _ _); [by apply frames_group_file_removed|by apply frames_group_file]. Qed.
Lemma frames_facts_lines g g' l t : frames (facts g) (appendGroupSystemLines g' l t).
Proof. apply frames_append_lines; apply _. Qed.
Hint Resolve frames_facts_hash frames_facts_chat frames_facts_held frames_facts_lines frames_Identity frames_LoadGroupChat : frames.

Lemma PutGroupState_facts g st a a' u : PutGroupState g st a = (a', Ok u) → facts_json (group_of a' g) = Some (json_Marshal (Some <$> Events st)).
Proof.
  unfold PutGroupState, MarshalJSON, marshal_events, write_group. intros H. step H as H1. step H as H2. apply Ok_inj in H2 as <-. step H as H3.
  unfold change in H. injection H as <- <-. unfold group_of. cbn [groups with_groups]. by rewrite lookup_insert_eq.
Qed.

(** What a control envelope leaves as the facts of the group its events belong to. *)
Lemma control_facts content sender now a a' out stored :
  ApplyGroupControl content sender now a = (a', Ok out) → CControlKind content ≠ Some GroupSyncRequest →
  load_facts (facts_json (group_of a (CGroupID content))) = Ok stored →
  ∃ st r, Apply (default NewState stored) (default [] (held_json (group_of a (CGroupID content))) ++ CEvents content) = Ok (st, r) ∧
    (groupID st ≠ [] → facts_json (group_of a' (groupID st)) = Some (json_Marshal (Some <$> Events st))).
Proof.
  intros H Hk Hl. unfold ApplyGroupControl in H. destruct (negb _); [done|]. cbv zeta in H. rewrite bool_decide_eq_false_2 in H by done.
  unfold LoadGroupState, heldEvents in H. step H as H1. step H1 as H2. step H1 as H3. subst y1. done_by H1. rewrite Hl in H1. apply Ok_inj in H1 as <-.
  step H as H4. step H4 as H5. done_by H4. subst. step H as H6. destruct y as [st r]. exists st, r. split; [done|]. intros Hg.
  rewrite (proj2 (eqb_false _ _) Hg) in H. cbv beta iota in H. cbn [negb when] in H. step H as H7. apply PutGroupState_facts in H7.
  match type of H with ?m ?b = _ => assert (frames (facts (groupID st)) m) as F; [|specialize (F b); rewrite H in F; cbn [fst] in F; by rewrite F] end.
  frame.
Qed.

(** Facts are only ever added by an envelope about the group.  A control envelope that names the
    group -- whoever sent it and whatever its events -- leaves a fact set that contains every
    fact held before: nothing a peer sends takes a membership event back. *)
Theorem control_facts_grow content sender now a a' out g st0 :
  load_facts (facts_json (group_of a g)) = Ok (Some st0) → groupID st0 = g → g ≠ [] → CGroupID content = g →
  ApplyGroupControl content sender now a = (a', Ok out) →
  facts_json (group_of a' g) = facts_json (group_of a g) ∨
  ∃ st, facts_json (group_of a' g) = Some (json_Marshal (Some <$> Events st)) ∧ groupID st = g ∧ events st0 ⊆ events st.
Proof.
  intros Hl Hg0 Hg Hc H. destruct (decide (CControlKind content = Some GroupSyncRequest)) as [Ek|Ek].
  - left. unfold ApplyGroupControl in H. destruct (negb _); [done|]. cbv zeta in H. rewrite bool_decide_eq_true_2 in H by done.
    assert (frames (facts g) (_ ← RecordGroupPeerStateHash (CGroupID content) sender (CStateHash content);
      mret (mkOutcome (CGroupID content) (CStateHash content) [] true false [] None None))) as F by frame.
    specialize (F a). rewrite H in F. done.
  - right. rewrite <- Hc in Hl. destruct (control_facts _ _ _ _ _ _ _ H Ek Hl) as (st & r & Ea & Hf).
    destruct (Apply_grows _ _ _ _ Ea) as [Hsub Hid]. change (default NewState (Some st0)) with st0 in *. rewrite Hg0 in Hid. specialize (Hid Hg).
    exists st. split_and!; [|done|done]. rewrite Hid in Hf. by apply Hf.
Qed.

(** An envelope that names another group replaces the facts.  When the group a control envelope
    names is one this device holds nothing about, and its events carry the genesis of [g],
    the facts of [g] become exactly what those events establish: what was held about [g]
    before is neither read nor kept. *)
Theorem misnamed_control_replaces_facts content sender now a a' out st r :
  groups a !! CGroupID content = None → CControlKind content ≠ Some GroupSyncRequest →
  Apply NewState (CEvents content) = Ok (st, r) → groupID st ≠ [] →
  ApplyGroupControl content sender now a = (a', Ok out) →
  facts_json (group_of a' (groupID st)) = Some (json_Marshal (Some <$> Events st)).
Proof.
  intros Hn Hk Ha Hg H. assert (group_of a (CGroupID content) = empty_group) as E by (unfold group_of; by rewrite Hn).
  destruct (control_facts _ _ _ _ _ _ None H Hk) as (st' & r' & Ea & Hf); [by rewrite E|]. rewrite E in Ea.
  change (Apply NewState (CEvents content) = Ok (st', r')) in Ea. rewrite Ha in Ea. apply Ok_inj in Ea. injection Ea as <- <-. by apply Hf.
Qed.
End groups.
