(* ===== verification/WireExamples.v ===== *)
(** * What travels between clients, in a concrete format

    The records of an envelope and of a message body as trees of byte strings, so that the
    record format of [ClientExamples] encodes them, and a message evaluated through it; then a whole
    client, receiving. *)

From S2P Require Import Prelude GoStr GoTime GoTimeParse Sha256 Crypto Base64 Bech32m Address DeviceCert GroupEvent GroupState GroupResolve GroupExamples ProfileClaim Ratchet RatchetExamples ClientLog ClientDedup ClientTranscript ClientExamples Envelope RatchetCorrect ClientState ClientProfile ClientGroups ClientReceive ClientFrames ClientReceiveCorrect ClientGroupsCorrect.

(** ** A format of trees *)

(** A tree as numbers, and the numbers as words of binary digits. *)
Definition token (x : nat * nat + bytes) : list Z := match x with inl (n, k) => [0; Z.of_nat n; Z.of_nat k] | inr b => 1 :: zlen b :: b end.
Fixpoint tokens (l : list (nat * nat + bytes)) : list Z := match l with [] => [] | x :: l => token x ++ tokens l end.
Fixpoint untokens (fuel : nat) (l : list Z) : option (list (nat * nat + bytes)) :=
  match fuel, l with
  | _, [] => Some []
  | S fuel, 0 :: n :: k :: l => (inl (Z.to_nat n, Z.to_nat k) ::.) <$> untokens fuel l
  | S fuel, 1 :: n :: l => (inr (take (Z.to_nat n) l) ::.) <$> untokens fuel (drop (Z.to_nat n) l)
  | _, _ => None
  end.
Lemma untokens_tokens l fuel : (length l ≤ fuel)%nat → untokens fuel (tokens l) = Some l.
Proof.
  revert fuel. induction l as [|x l IH]; intros fuel Hf; [by destruct fuel|]. destruct fuel as [|fuel]; [simpl in Hf; lia|]. simpl in Hf.
  cbn [tokens]. destruct x as [[n k]|b]; cbn [token app untokens].
  - rewrite IH by lia. simpl. by rewrite !Nat2Z.id.
  - unfold zlen. rewrite Nat2Z.id, take_app_length, drop_app_length, IH by lia. done.
Qed.
Definition word (z : Z) : bytes := bits (encode z) ++ [59].
Fixpoint text (l : list Z) : bytes := match l with [] => [] | z :: l => word z ++ text l end.
Fixpoint words (acc s : bytes) : option (list Z) :=
  match s with
  | [] => Some []
  | c :: s => if c =? 59 then p ← unbits (reverse acc); z ← decode p; l ← words [] s; Some (z :: l) else words (c :: acc) s
  end.
Lemma words_word acc b s : Forall (λ c, c = 48 ∨ c = 49) b → words acc (b ++ 59 :: s) = words (reverse b ++ acc) (59 :: s).
Proof.
  intros H. revert acc. induction H as [|c b Hc _ IH]; intros acc; [done|]. cbn [app]. change (words acc (c :: b ++ 59 :: s)) with
    (if c =? 59 then p ← unbits (reverse acc); z ← decode p; l ← words [] (b ++ 59 :: s); Some (z :: l) else words (c :: acc) (b ++ 59 :: s)).
  rewrite (proj2 (Z.eqb_neq _ _)) by lia. rewrite IH, reverse_cons, <- (assoc_L app). done.
Qed.
Lemma words_text l : words [] (text l) = Some l.
Proof.
  induction l as [|z l IH]; [done|]. cbn [text]. unfold word at 1. rewrite <- (assoc_L app). cbn [app].
  rewrite words_word by apply bits_digits. cbn [words Z.eqb Pos.eqb]. rewrite app_nil_r, reverse_involutive, unbits_bits. cbn [mbind option_bind].
  rewrite decode_encode. cbn [mbind option_bind]. by rewrite IH.
Qed.
Definition words_only (s : bytes) : bool := forallb (λ c, (c =? 48) || (c =? 49) || (c =? 59)) s.
Lemma text_chars l : Forall (λ c, c = 48 ∨ c = 49 ∨ c = 59) (text l).
Proof.
  induction l as [|z l IH]; [constructor|]. cbn [text]. apply Forall_app. split; [|done].
  apply Forall_app. split; [|constructor; [lia|constructor]]. eapply Forall_impl; [apply bits_digits|]. simpl. lia.
Qed.
Definition tree_text (t : tree) : bytes := 123 :: text (tokens (gen_tree_to_list t)) ++ [125].
Definition tree_of (s : bytes) : option tree :=
  b ← object_body s; l ← words [] b; ts ← untokens (length l) l; gen_tree_of_list [] ts.
Definition tree_valid (s : bytes) : bool := match object_body s with Some b => words_only b | None => false end.
Lemma token_length l : (length l ≤ length (tokens l))%nat.
Proof. induction l as [|x l IH]; [done|]. cbn [tokens]. rewrite length_app. destruct x as [[]|]; simpl in *; lia. Qed.
Lemma tree_round t : True → tree_of (tree_text t) = Some t.
Proof.
  intros _. unfold tree_of, tree_text. rewrite object_body_wrap. cbn [mbind option_bind]. rewrite words_text. cbn [mbind option_bind].
  rewrite untokens_tokens by apply token_length. cbn [mbind option_bind]. pose proof (gen_tree_of_to_list [] [] t) as E. rewrite app_nil_r in E. by rewrite E.
Qed.
Lemma tree_chars t : Forall (λ c, c = 48 ∨ c = 49 ∨ c = 59 ∨ c = 123 ∨ c = 125) (tree_text t).
Proof. constructor; [lia|]. apply Forall_app. split; [|constructor; [lia|constructor]]. eapply Forall_impl; [apply text_chars|]. simpl. lia. Qed.
Lemma tree_line t : Forall (λ c, c ≠ 10 ∧ c ≠ 13) (tree_text t).
Proof. eapply Forall_impl; [apply tree_chars|]. simpl. lia. Qed.
Lemma tree_trim t : trim_space (tree_text t) = tree_text t.
Proof.
  apply trim_space_id.
  - unfold is_ascii. eapply Forall_impl; [apply tree_chars|]. simpl. lia.
  - unfold untrimmed, tree_text. rewrite last_cons, last_snoc. done.
Qed.
Lemma tree_is_valid t : tree_valid (tree_text t) = true.
Proof.
  unfold tree_valid, tree_text. rewrite object_body_wrap. apply forallb_forall. intros c Hc%list_elem_of_In.
  pose proof (text_chars (tokens (gen_tree_to_list t))) as H. rewrite Forall_forall in H. by destruct (H c Hc) as [-> |[-> | ->]].
Qed.
Lemma tree_prefix t k : (k < length (tree_text t))%nat → tree_valid (take k (tree_text t)) = false.
Proof.
  intros Hk. unfold tree_valid, tree_text in *. destruct k as [|k]; [done|]. cbn [take object_body]. simpl in Hk. rewrite length_app in Hk. simpl in Hk.
  rewrite take_app_le by lia. destruct (last (take k (text (tokens (gen_tree_to_list t))))) as [c|] eqn:E; [|done].
  apply last_Some_elem_of in E. pose proof (text_chars (tokens (gen_tree_to_list t))) as HF. rewrite Forall_forall in HF.
  assert (c ∈ text (tokens (gen_tree_to_list t))) as Hc by (by eapply elem_of_take in E as (? & ? & ?); eapply list_elem_of_lookup_2).
  by destruct (HF c Hc) as [-> |[-> | ->]].
Qed.
Lemma tree_ne t : tree_text t ≠ [].
Proof. done. Qed.

(** A format of trees is a format of everything that can be written as one. *)
Section transport.
Context {R : Type} (to : R → tree) (from : tree → R) (from_to : ∀ r, from (to r) = r).
Lemma via_round r : True → from <$> tree_of (tree_text (to r)) = Some r.
Proof. intros _. rewrite tree_round by exact I. simpl. by rewrite from_to. Qed.
Definition via_tree : Json R := {|
  json_Marshal r := tree_text (to r); json_Unmarshal s := from <$> tree_of s; json_Valid := tree_valid;
  encodable := λ _, True; marshal_ne r := tree_ne (to r); marshal_line r := tree_line (to r); marshal_trim r := tree_trim (to r);
  marshal_valid r := tree_is_valid (to r); unmarshal_marshal := via_round; prefix_invalid r := tree_prefix (to r);
|}.
End transport.

(** ** Trees *)

Definition opt_tree {A} (f : A → tree) (o : option A) : tree := match o with None => GenNode 0 [] | Some x => GenNode 1 [f x] end.
Definition un_opt {A} (f : tree → A) (t : tree) : option A := match t with GenNode _ [x] => Some (f x) | _ => None end.
Lemma un_opt_tree {A} (f : A → tree) g o : (∀ x, g (f x) = x) → un_opt g (opt_tree f o) = o.
Proof. intros H. destruct o; [simpl; by rewrite H|done]. Qed.
Lemma un_list_tree {A} (f : A → tree) g (l : list A) : (∀ x, g (f x) = x) → g <$> (f <$> l) = l.
Proof. intros H. induction l as [|x l IH]; [done|]. by rewrite !fmap_cons, H, IH. Qed.
Definition leaf (t : tree) : bytes := match t with GenLeaf b => b | _ => [] end.

Definition time_bytes (t : Time) : bytes := [t_sec t; t_nsec t; t_loc t] ++ match t_mono t with Some m => [m] | None => [] end.
Definition un_time (b : bytes) : Time :=
  match b with [s; n; l] => mkTime s n None l | [s; n; l; m] => mkTime s n (Some m) l | _ => zero_time end.
Lemma un_time_bytes t : un_time (time_bytes t) = t.
Proof. by destruct t as [? ? [] ?]. Qed.

Definition type_bytes (t : EventType) : bytes :=
  match t with
  | EventGenesis => [1] | EventRoleGrant => [2] | EventRoleRevoke => [3] | EventMemberAdd => [4] | EventMemberRemove => [5]
  | EventJoinAccept => [6] | EventLeave => [7] | EventMeta => [8] | EventDissolve => [9] | EventOther s => 0 :: s
  end.
Definition un_type (b : bytes) : EventType :=
  match b with
  | [1] => EventGenesis | [2] => EventRoleGrant | [3] => EventRoleRevoke | [4] => EventMemberAdd | [5] => EventMemberRemove
  | [6] => EventJoinAccept | [7] => EventLeave | [8] => EventMeta | [9] => EventDissolve | _ :: s => EventOther s | [] => EventOther []
  end.
Lemma un_type_bytes t : un_type (type_bytes t) = t.
Proof. by destruct t. Qed.

Definition signer_tree (s : Signer.t) : tree :=
  let c := Signer.DeviceCert s in
  GenNode 1 (GenLeaf <$> [Signer.AccountID s; Signer.RootPubKey s; DeviceCertificate.AccountID c; DeviceCertificate.DeviceID c;
                         DeviceCertificate.DevicePubKey c; time_bytes (DeviceCertificate.IssuedAt c); DeviceCertificate.Signature c]).
Definition un_signer (t : tree) : Signer.t :=
  match t with
  | GenNode _ [GenLeaf a; GenLeaf r; GenLeaf ca; GenLeaf cd; GenLeaf cp; GenLeaf ci; GenLeaf cs] =>
    Signer.mk a r (DeviceCertificate.mk ca cd cp (un_time ci) cs)
  | _ => Signer.mk [] [] no_cert
  end.
Lemma un_signer_tree s : un_signer (signer_tree s) = s.
Proof. destruct s as [a r [ca cd cp ci cs]]. unfold signer_tree, un_signer. cbn -[un_time time_bytes]. by rewrite un_time_bytes. Qed.

Definition event_tree (e : Event) : tree :=
  GenNode 2 ((GenLeaf <$> [type_bytes (Type_ e); GroupID e; time_bytes (IssuedAt e); RootPubKey e; Nonce e; Subject e; Server e; num (Role_ e);
                          GroupEvent.Name e; Topic e; Signature e]) ++ [opt_tree signer_tree (Signer_ e)]).
Definition un_event (t : tree) : Event :=
  match t with
  | GenNode _ [GenLeaf ty; GenLeaf g; GenLeaf i; GenLeaf r; GenLeaf n; GenLeaf su; GenLeaf sv; GenLeaf ro; GenLeaf na; GenLeaf to; GenLeaf sg; s] =>
    mkEvent (un_type ty) g (un_time i) r n su sv (unnum ro) na to (un_opt un_signer s) sg
  | _ => no_event
  end.
Lemma un_event_tree e : un_event (event_tree e) = e.
Proof.
  destruct e as [ty g i r n su sv ro na to s sg]. unfold event_tree, un_event. cbn -[un_time time_bytes un_type type_bytes un_opt opt_tree].
  by rewrite un_time_bytes, un_type_bytes, (un_opt_tree signer_tree un_signer s un_signer_tree).
Qed.


Definition events_tree (l : list (option Event)) : tree := GenNode 0 (opt_tree event_tree <$> l).
Definition un_events (t : tree) : list (option Event) := match t with GenNode _ l => un_opt un_event <$> l | _ => [] end.
Lemma un_events_tree l : un_events (events_tree l) = l.
Proof. apply un_list_tree. intros o. apply un_opt_tree, un_event_tree. Qed.
#[export] Instance events_json : Json (list (option Event)) := via_tree events_tree un_events un_events_tree.

Definition claim_tree (c : Claim.t) : tree :=
  GenNode 3 (GenLeaf <$> [Claim.Name c; Claim.DeviceID c; time_bytes (Claim.IssuedAt c); Claim.Signature c]).
Definition un_claim (t : tree) : Claim.t :=
  match t with GenNode _ [GenLeaf n; GenLeaf d; GenLeaf i; GenLeaf s] => Claim.mk n d (un_time i) s | _ => Claim.mk [] [] zero_time [] end.
Lemma un_claim_tree c : un_claim (claim_tree c) = c.
Proof. destruct c. unfold claim_tree, un_claim. cbn -[un_time time_bytes]. by rewrite un_time_bytes. Qed.

Definition preview_tree (p : replyPreviewWire) : tree := GenNode 4 [GenLeaf (RpText p); GenLeaf (opt_flag (RpMine p)); opt_tree GenLeaf (RpAuthor p)].
Definition un_preview (t : tree) : replyPreviewWire :=
  match t with GenNode _ [GenLeaf x; GenLeaf m; a] => mkReplyPreview x (un_opt_flag m) (un_opt leaf a) | _ => mkReplyPreview [] None None end.
Lemma un_preview_tree p : un_preview (preview_tree p) = p.
Proof. destruct p as [x m a]. unfold preview_tree, un_preview. cbn -[un_opt opt_tree]. rewrite un_opt_tree by done. by destruct m as [[]|]. Qed.

Definition content_tree (w : contentWire) : tree :=
  GenNode 5 ((GenLeaf <$> [num (WV w); WKind w; WID w; WText w; WReplyTo w; WSenderServer w; WSentAt w; WStatus w; WUpToSentAt w; WReason w;
                          WGroupID w; WStateHash w])
             ++ [GenNode 0 (GenLeaf <$> WAttachments w); opt_tree preview_tree (WReplyPreview w); GenNode 0 (opt_tree event_tree <$> WEvents w);
                 opt_tree claim_tree (WProfile w)]).
Definition un_content (t : tree) : contentWire :=
  match t with
  | GenNode _ [GenLeaf v; GenLeaf k; GenLeaf i; GenLeaf x; GenLeaf r; GenLeaf sv; GenLeaf sa; GenLeaf st; GenLeaf u; GenLeaf re; GenLeaf g;
               GenLeaf h; GenNode _ atts; p; GenNode _ evs; c] =>
    mkContentWire (unnum v) k i x (leaf <$> atts) r (un_opt un_preview p) sv sa st u re g h (un_opt un_event <$> evs) (un_opt un_claim c)
  | _ => empty_body 0
  end.
Lemma un_content_tree w : un_content (content_tree w) = w.
Proof.
  destruct w as [v k i x atts r p sv sa st u re g h evs c]. unfold content_tree, un_content. cbn -[un_opt opt_tree].
  rewrite (un_list_tree GenLeaf leaf atts), (un_opt_tree preview_tree un_preview p un_preview_tree), (un_opt_tree claim_tree un_claim c un_claim_tree) by done.
  by rewrite (un_list_tree (opt_tree event_tree) (un_opt un_event) evs) by (intros o; apply un_opt_tree, un_event_tree).
Qed.
#[export] Instance contentWire_json : Json contentWire := via_tree content_tree un_content un_content_tree.

Definition attachment_of_wire (w : attachmentWire) : Attachment :=
  mkAttachment (AwKind w) (AwAlgorithm w) (AwBlobID w) (AwKey w) (AwMimeType w) (AwByteSize w) (AwWidth w) (AwHeight w) (AwThumb w).
Lemma wire_att w : attachment_wire (un_att (att_tree (attachment_of_wire w))) = w.
Proof. by destruct w. Qed.
#[export] Instance attachmentWire_json : Json attachmentWire := via_tree (λ w, att_tree (attachment_of_wire w)) (λ t, attachment_wire (un_att t)) wire_att.

Definition prekey_tree (p : PrekeyFields) : tree :=
  GenNode 6 [GenLeaf (PfSenderDHIdentityPub p); GenLeaf (PfSenderEphemeralPub p); GenLeaf (num (PfSignedPrekeyID p));
             opt_tree (λ z, GenLeaf (num z)) (PfOneTimePrekeyID p); GenLeaf (opt_flag (PfRekey p))].
Definition un_prekey (t : tree) : PrekeyFields :=
  match t with
  | GenNode _ [GenLeaf a; GenLeaf b; GenLeaf s; o; GenLeaf r] => mkPrekeyFields a b (unnum s) (un_opt (λ t, unnum (leaf t)) o) (un_opt_flag r)
  | _ => mkPrekeyFields [] [] 0 None None
  end.
Lemma un_prekey_tree p : un_prekey (prekey_tree p) = p.
Proof. destruct p as [a b s o r]. unfold prekey_tree, un_prekey. rewrite un_opt_tree by done. by destruct r as [[]|]. Qed.
Definition envelope_tree (e : Envelope) : tree :=
  let h := EvHeader e in GenNode 7 [opt_tree prekey_tree (EvPrekey e); GenLeaf (HdDHPub h); GenLeaf [HdPN h; HdN h]; GenLeaf (EvCiphertext e)].
Definition un_envelope (t : tree) : Envelope :=
  match t with
  | GenNode _ [p; GenLeaf d; GenLeaf [pn; n]; GenLeaf c] => mkEnvelope (un_opt un_prekey p) (mkHeaderDTO d pn n) c
  | _ => mkEnvelope None (mkHeaderDTO [] 0 0) []
  end.
Lemma un_envelope_tree e : un_envelope (envelope_tree e) = e.
Proof. destruct e as [p [d pn n] c]. unfold envelope_tree, un_envelope. cbn -[un_opt opt_tree]. by rewrite (un_opt_tree prekey_tree un_prekey p un_prekey_tree). Qed.
#[export] Instance Envelope_json : Json Envelope := via_tree envelope_tree un_envelope un_envelope_tree.

Lemma any_body (w : contentWire) : encodable w.
Proof. exact I. Qed.
Lemma any_attachments (l : list Attachment) : Forall (λ a, encodable (attachment_wire a)) l.
Proof. apply Forall_true. intros a. exact I. Qed.

(** ** A message and its confirmation *)

Definition photo (blob : bytes) : Attachment := mkAttachment (lit "image") (lit "aes") blob [7] (lit "image/png") 10 4 3 [].
Definition composed : Message :=
  mkMsg (lit "m1") (lit "look") true t0 None [] (lit "m0") (lit "and?") (Some true) (lit "bob") MessageNormal SendPending [photo (lit "b1"); photo []] [].
Lemma t0_writable : writable t0.
Proof. split; [apply t0_ok|by vm_compute]. Qed.

Lemma text_arrives_witness :
  let c := DecodeContent (encodeText composed (lit "https://a") t0 None) in
  CText c = lit "look" ∧ CAttachments c = [photo (lit "b1")] ∧ CReplyText c = lit "and?" ∧ CSentAt c = Some (receiptClock t0).
Proof.
  cbv zeta. rewrite (text_arrives composed (lit "https://a") t0 None (any_body _) (any_attachments _) t0_writable).
  repeat split; vm_compute; reflexivity.
Defined.

Lemma receipt_reaches_anchor_witness :
  let stamp := receiptClock t0 in
  let there := DecodeContent (encodeText composed (lit "https://a") stamp None) in
  CReceiptUpTo (DecodeContent (json_Marshal (receipt_body ReceiptRead (utc (default stamp (CSentAt there))) [] None))) = Some stamp.
Proof.
  cbv zeta. destruct (receipt_reaches_anchor composed (lit "https://a") t0 None ReceiptRead [] None (any_body _) (any_body _) (any_attachments _) t0_writable)
    as (_ & _ & _ & H & _). exact H.
Defined.

(** ** Envelopes received, evaluated

    Two clients with toy keys: one writes to the other for the first time, both write to each
    other at once, and a group's facts arrive by control envelopes. *)

#[export, refine] Instance bare_quote : Quote := {| go_quote s := 34 :: s ++ [34] |}.
Proof. done. Defined.

Definition ok_or {E A} (d : A) (r : res E A) : A := match r with Ok x => x | _ => d end.

(** ** Two clients *)

Definition key (n : Z) : bytes := replicate 32 n.
(** The identity of an account whose keys are numbered from [n]. *)
Definition own (id : bytes) (n : Z) : OwnIdentity :=
  mkOwnIdentity id [] [] [] (lit "00") [] [] (x_pub (key n)) (key n) (n + 1) (x_pub (key (n + 1))) (key (n + 1)) 2 9 false None [].
Definition stored_identity (i : OwnIdentity) : option identityFile := identity_json (SetIdentity i empty_account).1.
Definition id_a : OwnIdentity := own (lit "alice") 10.
Definition id_b : OwnIdentity := own (lit "bob") 20.

(** A client with an identity, one prekey, and the randomness it will draw. *)
Definition client_of (i : OwnIdentity) (ot : Z * bytes) (peer : bytes) (s : option Session) (random : list bytes) : account :=
  mkAccount (stored_identity i) [] [] zero_settings {[ot.1 := mkOneTimePrekey ot.1 (x_pub ot.2) ot.2]}
    (match s with Some s => {[peer := mkPeerDir (Some (toJSON_in s (map_to_list (Skipped s)))) None None None None]} | None => ∅ end)
    ∅ ∅ ∅ empty_dedup (mkDisk None None) random (mkOutside [] 0) false.

(** The first message of [me] to [peer], under the one-time prekey [ot]. *)
Definition no_init : Session * InitialMessage := (zero_session, mkInitial [] [] 0 None).
Definition bundle_for (peer : OwnIdentity) (ot : option (Z * bytes)) : RemoteBundle :=
  mkBundle (x_pub (MyDHIdentityPriv peer)) (MySignedPrekeyID peer) (x_pub (MySignedPrekeyPriv peer)) (fst <$> ot) (x_pub <$> (snd <$> ot)).
Definition start (me peer : OwnIdentity) (ot : option (Z * bytes)) (eph rat : bytes) : Session * InitialMessage :=
  ok_or no_init (InitiateSession (MyDHIdentityPriv me) (bundle_for peer ot) (Some eph) (Some rat)).
Definition sealed (s : Session) (p : bytes) : Header * bytes := ok_or (mkHeader [] 0 0, []) (Encrypt s p).2.
Definition post (id : bytes) (me : OwnIdentity) (im : InitialMessage) (hc : Header * bytes) : IncomingMessage :=
  mkIncoming id (MyAccountID me) (MyDeviceID me) None (MarshalPayload (NewEnvelopeRekey (Some im) hc.1 hc.2 (Some false))).

Definition ot_a : Z * bytes := (3, key 40).
Definition ot_b : Z * bytes := (4, key 41).
Definition start_a := start id_a id_b (Some ot_b) (key 50) (key 51).
Definition start_b := start id_b id_a (Some ot_a) (key 60) (key 61).
Definition p_a : bytes := lit "hi bob".
Definition p_b : bytes := lit "hi alice".
Definition seal_a := sealed start_a.1 p_a.
Definition seal_b := sealed start_b.1 p_b.
Definition sent_a : Session := (Encrypt start_a.1 p_a).1.
Definition sent_b : Session := (Encrypt start_b.1 p_b).1.
Definition from_a : IncomingMessage := Eval vm_compute in post (lit "m1") id_a start_a.2 seal_a.
Definition from_b : IncomingMessage := Eval vm_compute in post (lit "m2") id_b start_b.2 seal_b.

(** ** A first message *)

Definition fresh_b : account := client_of id_b ot_b (lit "alice") None [key 70; key 71; key 72; key 73].

Lemma fresh_b_filed : prekeys_filed fresh_b.
Proof. intros i r H. change (({[4 := mkOneTimePrekey 4 (x_pub (key 41)) (key 41)]} : gmap Z OneTimePrekey) !! i = Some r) in H.
  apply lookup_singleton_Some in H as [<- <-]. reflexivity. Qed.

(** It opens, is stored as a line, and asks for a notification. *)
Example first_contact : let '(a, r) := HandleIncoming from_a [] t0 fresh_b in
  (RrStoredMessageID <$> (match r with Ok r => Some r | _ => None end)) = Some (hex_encode (take 16 (key 73))) ∧
  (RrShouldNotify <$> (match r with Ok r => Some r | _ => None end)) = Some true ∧ size (prekeys a) = 0%nat.
Proof. vm_compute. done. Qed.

Lemma prekey_spent_once_opened_witness : ∃ id, opens_with_prekey fresh_b from_a id ∧
  prekeys (HandleIncoming from_a [] t0 fresh_b).1 = delete id (prekeys fresh_b).
Proof.
  destruct (prekey_spent_once_opened from_a [] t0 fresh_b fresh_b_filed) as [H|H]; [|exact H]. exfalso.
  apply (f_equal size) in H. vm_compute in H. discriminate H.
Defined.


Lemma other_peers_untouched_witness : peers (HandleIncoming from_b [] t0 (client_of id_a ot_a (lit "carol") (Some sent_a) [])).1 !! lit "carol"
  = peers (client_of id_a ot_a (lit "carol") (Some sent_a) []) !! lit "carol".
Proof. apply (other_peers_untouched from_b [] t0 (client_of id_a ot_a (lit "carol") (Some sent_a) []) (lit "carol")). vm_compute. discriminate. Defined.

(** An envelope that is not one. *)
Definition junk : IncomingMessage := mkIncoming (lit "m3") (lit "alice") (lit "00") None (lit "junk").
Lemma handled_once_witness : let a1 := (HandleIncoming from_a [] t0 fresh_b).1 in let a2 := (HandleIncoming junk [] t0 (HandleIncoming junk [] t0 a1).1).1 in
  is_ok (HandleIncoming from_a [] t0 fresh_b).2 = true ∧ HandleIncoming from_a (lit "alice") t0 a2 = (a2, Ok (duplicate_result (lit "alice"))).
Proof.
  intros a1 a2. assert (is_ok (HandleIncoming from_a [] t0 fresh_b).2 = true) as H by by_vm.
  split; [exact H|]. destruct (is_ok_ex _ H) as [r Hr].
  apply (handled_once from_a [] t0 fresh_b a1 r 2 a2 from_a (lit "alice") t0).
  - split; [by_vm|]. apply (bool_decide_eq_true_1 _). by_vm.
  - by_vm.
  - rewrite <- Hr. exact (surjective_pairing _).
  - apply later_handled, later_handled, later_now.
  - lia.
  - reflexivity.
Defined.
Lemma failed_open_costs_nothing_witness : prekeys (HandleIncoming junk [] t0 fresh_b).1 = prekeys fresh_b.
Proof.
  assert (decrypt junk fresh_b = (fresh_b, Err (EMsg "wire: parsing envelope"))) as E by by_vm.
  assert (errors_Is_ratchet ErrDuplicateMessage (EMsg "wire: parsing envelope") = false) as E2 by by_vm.
  assert (WasMessageProcessed (dedup fresh_b) (IMessageID junk) = false) as E3 by by_vm.
  pose proof (failed_open_costs_nothing junk [] t0 fresh_b fresh_b _ E E2 E3) as H.
  destruct (HandleIncoming junk [] t0 fresh_b) as [a r]. apply H.
Defined.

(** ** Both at once *)

Definition race_a : account := client_of id_a ot_a (lit "bob") (Some sent_a) [key 80].
Definition race_b : account := client_of id_b ot_b (lit "alice") (Some sent_b) [key 81].

Lemma reached_by a me peer ot p eph rat s : load_identity (identity_json a) = Ok me →
  (zlen (MyDHIdentityPriv me) =? 32) && (zlen (MySignedPrekeyPriv me) =? 32) = true →
  is_ok (InitiateSession (MyDHIdentityPriv me) (bundle_for peer ot) (Some eph) (Some rat)) = true →
  is_ok (Encrypt (start me peer ot eph rat).1 p).2 = true → s = (Encrypt (start me peer ot eph rat).1 p).1 →
  safeElement (MyAccountID peer) = Ok () → load_session (session_json (peer_of a (MyAccountID peer))) = Ok (Some s) →
  let hc := sealed (start me peer ot eph rat).1 p in reached a me peer ot p s (start me peer ot eph rat).2 hc.1 hc.2 rat.
Proof.
  intros Hid [H1%Z.eqb_eq H2%Z.eqb_eq]%andb_true_iff Hi He -> Hsf Hl hc. constructor; try done.
  exists (start me peer ot eph rat).1, eph. split.
  - fold (bundle_for peer ot). unfold start. destruct (is_ok_ex _ Hi) as [x ->]. cbn [ok_or]. by destruct x.
  - unfold hc, sealed. revert He. destruct (Encrypt _ p) as [s [x|e|]]; cbn [snd fst is_ok ok_or]; [|done..]. by destruct x.
Qed.
Lemma race_a_reached : reached race_a id_a id_b (Some ot_b) p_a sent_a start_a.2 seal_a.1 seal_a.2 (key 51).
Proof. apply (reached_by race_a id_a id_b (Some ot_b) p_a (key 50) (key 51) sent_a); by_vm. Qed.
Lemma race_b_reached : reached race_b id_b id_a (Some ot_a) p_b sent_b start_b.2 seal_b.1 seal_b.2 (key 61).
Proof. apply (reached_by race_b id_b id_a (Some ot_a) p_b (key 60) (key 61) sent_b); by_vm. Qed.

Definition race_rounds : list (bytes * list bytes) := [(key 90, [lit "so"; lit "who writes?"]); (key 91, [lit "me"])].

Lemma simultaneous_establishment_converges_witness : ∃ a' b' rA rB,
  decrypt from_b race_a = (a', Ok (DecodeContent p_b, mkEffect false true (Some 3))) ∧
  decrypt from_a race_b = (b', Ok (DecodeContent p_a, mkEffect true false (Some 4))) ∧
  session_json (peer_of b' (lit "alice")) = Some (toJSON_in rB (map_to_list (Skipped rB))) ∧
  inbound_json (peer_of a' (lit "bob")) = Some (toJSON_in rA (map_to_list (Skipped rA))) ∧
  converse rB sent_a race_rounds = map (map Ok) race_rounds.*2.
Proof.
  destruct (simultaneous_establishment_converges race_a race_b id_a id_b (Some ot_a) (Some ot_b) p_a p_b sent_a sent_b start_a.2 start_b.2 seal_a.1 seal_b.1
    seal_a.2 seal_b.2 (key 51) (key 61) from_a from_b (key 80) (key 81)) as (a' & b' & rA & rB & H1 & H2 & _ & H3 & H4 & _ & H5 & _).
  - exact race_a_reached.
  - exact race_b_reached.
  - split; by_vm.
  - split; by_vm.
  - split; [by_vm|eexists; by_vm].
  - split; [by_vm|eexists; by_vm].
  - split; [eexists; by_vm|]. split; [eexists; by_vm|by vm_compute].
  - split; [eexists; by_vm|]. split; [eexists; by_vm|by vm_compute].
  - by_vm.
  - exists a', b', rA, rB. split; [exact H1|]. split; [exact H2|]. split; [exact H3|]. split; [exact H5|]. apply H4.
    cbn [fresh_keys race_rounds length]. repeat split; try lia; try (eexists; by_vm); by vm_compute.
Defined.

(** ** A group's facts *)

Definition removal : Event := Eval vm_compute in
  get no_event (SignDevice (mkEvent EventMemberRemove gid (at_time 2) [] [] bob [] 0 [] [] None []) (Some signer_a) (priv 3)).
Definition control (named : bytes) (evs : list Event) : Content :=
  mkContent ContentGroupControl [] [] None [] [] [] [] None [] None None [] None named [] (Some GroupEvents) (Some <$> evs) None [].
(** The founder's device, after inviting and removing. *)
Definition founder : account :=
  mkAccount (stored_identity (own alice 10)) [] [] zero_settings ∅ ∅ ∅
    {[gid := mkGroupDir (Some (json_Marshal (Some <$> Events (state_of [genesis; invite; removal])))) None None None]} ∅ empty_dedup (mkDisk None None)
    [key 1; key 2; key 3] (mkOutside [] 0) false.
Definition members_held (a : account) : list bytes :=
  match load_facts (facts_json (group_of a gid)) with Ok (Some st) => AccountID <$> Members (Resolve st) | _ => [] end.

Lemma founder_facts : load_facts (facts_json (group_of founder gid)) = Ok (Some (state_of [genesis; invite; removal])).
Proof. vm_cast_no_check (eq_refl (Ok (E := cerr) (Some (state_of [genesis; invite; removal])))). Qed.
Lemma control_facts_grow_witness : ∃ a' out, ApplyGroupControl (control gid [genesis; invite]) bob (at_time 5) founder = (a', Ok out) ∧
  (facts_json (group_of a' gid) = facts_json (group_of founder gid) ∨
   ∃ st, facts_json (group_of a' gid) = Some (json_Marshal (Some <$> Events st)) ∧ GroupState.groupID st = gid ∧
     events (state_of [genesis; invite; removal]) ⊆ events st).
Proof.
  assert (is_ok (ApplyGroupControl (control gid [genesis; invite]) bob (at_time 5) founder).2 = true) as H by by_vm. destruct (is_ok_ex _ H) as [out Ho].
  exists (ApplyGroupControl (control gid [genesis; invite]) bob (at_time 5) founder).1, out.
  assert (ApplyGroupControl (control gid [genesis; invite]) bob (at_time 5) founder =
    ((ApplyGroupControl (control gid [genesis; invite]) bob (at_time 5) founder).1, Ok out)) as E by (rewrite <- Ho; exact (surjective_pairing _)).
  split; [exact E|]. exact (control_facts_grow (control gid [genesis; invite]) bob (at_time 5) founder _ out gid _ founder_facts ltac:(by_vm) ltac:(discriminate) eq_refl E).
Defined.

(** The removed member's envelope names a group nobody has, and carries the facts up to its invitation. *)
Definition replay_content : Content := control (lit "elsewhere") [genesis; invite].
Lemma misnamed_control_replaces_facts_witness : ∃ a' out, ApplyGroupControl replay_content bob (at_time 5) founder = (a', Ok out) ∧
  facts_json (group_of a' gid) = Some (json_Marshal (Some <$> Events s2)).
Proof.
  assert (is_ok (ApplyGroupControl replay_content bob (at_time 5) founder).2 = true) as H by by_vm. destruct (is_ok_ex _ H) as [out Ho].
  assert (ApplyGroupControl replay_content bob (at_time 5) founder = ((ApplyGroupControl replay_content bob (at_time 5) founder).1, Ok out)) as E
    by (rewrite <- Ho; exact (surjective_pairing _)).
  assert (is_ok (Apply NewState (CEvents replay_content)) = true) as Ha by by_vm. destruct (is_ok_ex _ Ha) as [[st r] Hr].
  assert (st = s2) as -> by (unfold s2, state_of; cbn [replay_content control CEvents] in Hr; rewrite Hr; reflexivity).
  exists (ApplyGroupControl replay_content bob (at_time 5) founder).1, out. split; [exact E|].
  refine (misnamed_control_replaces_facts replay_content bob (at_time 5) founder _ out s2 r _ _ Hr _ E); [by_vm|discriminate|by vm_compute].
Defined.
Example removed_member_returns :
  members_held founder = [alice] ∧ members_held (ApplyGroupControl replay_content bob (at_time 5) founder).1 = [bob; alice] ∧
  members_held (ApplyGroupControl (control gid [genesis; invite]) bob (at_time 5) founder).1 = [alice].
Proof. vm_compute. done. Qed.
