(* ===== verification/ClientNet.v ===== *)
(** * pkg/client: requests to servers

    transport.go, serverstatus.go, messages_api.go, peers_resolve.go and the requests of
    prekeys_api.go.  What a host answers is [answer]: any function of everything sent so far
    and of the request, so it may refuse, repeat itself, change its mind or lie.  A request
    that was sent stays in the account's record of what left the device.  The bodies are the
    records of the server's handlers; [Json] stands for encoding/json. *)

From S2P Require Import Prelude GoStr GoTime GoTimeParse Sha256 Crypto Base64 Bech32m Address DeviceCert HttpSig Delivery Federation Prekeys Accounts Resolve.
From S2P Require Import GroupEvent GroupState GroupResolve ProfileClaim Ratchet RatchetCorrect ClientLog ClientDedup ClientTranscript Envelope ClientState ClientProfile ClientGroups ClientReceive.

(** ** The other end *)

(** No connection; a body that breaks off; an answer. *)
Inductive http_result := NoAnswer | CutShort (status : Z) | Answered (status : Z) (body : bytes).
Class Network := {
  answer : list HttpRequest → HttpRequest → http_result;
  clock : nat → Time;                    (** the reading of the clock when it is asked for the n-th time *)
  good_target : bytes → bool;            (** what [http.NewRequest] accepts as a URL *)
}.

(** ** transport.go *)

Inductive authMode := authNone | authDevice | authFederated.
#[export] Instance authMode_eq_dec : EqDecision authMode.
Proof. solve_decision. Defined.
Record request := mkRequest {
  rq_method : bytes; rq_path : bytes; rq_query : bytes; rq_body : option bytes; rq_server : bytes; rq_auth : authMode; rq_noContent : bool;
}.
Definition GET (path server : bytes) (auth : authMode) : request := mkRequest (lit "GET") path [] None server auth false.
Definition POST (path server body : bytes) (auth : authMode) : request := mkRequest (lit "POST") path [] (Some body) server auth false.

(** The error envelope: the raw "error" field when there is one, and what is in it. *)
Record errorEnvelope := mkErrorEnvelope { EnError : option bytes }.
Record errorDetail := mkErrorDetail { EdCode : bytes; EdMessage : bytes }.

Section transport.
Context {NW : Network} {ED : Ed25519} {JEE : Json errorEnvelope} {JED : Json errorDetail}.

Definition now : proc Time := λ a, (with_outer a (mkOutside (sent (outer a)) (S (ticks (outer a)))), Ok (clock (ticks (outer a)))).
Definition roundtrip (r : HttpRequest) : proc http_result := λ a,
  (with_outer a (mkOutside (sent (outer a) ++ [r]) (ticks (outer a))), Ok (answer (sent (outer a)) r)).

Definition randomHex (n : nat) (what : string) : proc bytes :=
  r ← draw; match r with Some b => mret (hex_encode (take n b)) | None => fail (EMsg what) end.
(** The four headers of a signature. *)
Definition signature_headers (keyID : bytes) (ts : Time) (nonce sig : bytes) : list (bytes * bytes) :=
  [(HeaderKeyID, keyID); (HeaderTimestamp, FormatTimestamp ts); (HeaderNonce, nonce); (HeaderSignature, sig)].
Definition signRequest (r : request) (body : bytes) (id : OwnIdentity) : proc (list (bytes * bytes)) :=
  if decide (rq_auth r = authNone) then mret []
  else
    let keyID := if decide (rq_auth r = authFederated) then b64_encode (MyDevicePub id) else MyDeviceID id in
    nonce ← randomHex 16 "client: generating request nonce";
    ts ← now;
    sig ← msg (HttpSig.Sign (rq_method r) (rq_path r) (rq_query r) body keyID ts nonce (MyDevicePriv id));
    mret (signature_headers keyID ts nonce sig).

Definition apiErrorFrom (status : Z) (body : bytes) : cerr :=
  EAPI status (default [] (env ← json_Unmarshal (R := errorEnvelope) body; detail ← EnError env; d ← json_Unmarshal (R := errorDetail) detail; Some (EdCode d))).
(** An object or an array, and JSON. *)
Definition speaks_json (trimmed : bytes) : bool :=
  match trimmed with
  | c :: _ => ((c =? 123) || (c =? 91)) && json_Valid (R := errorEnvelope) trimmed
  | [] => false
  end.
Definition is_success (status : Z) : bool := (200 <=? status) && (status <=? 299).
Definition read_body (resp : http_result) : res cerr (Z * bytes) :=
  match resp with
  | Answered status body => Ok (status, body)
  | CutShort _ => Err (EMsg "client: reading response body")
  | NoAnswer => Err EURL
  end.
Definition statusOnlyResponse (resp : http_result) : res cerr () :=
  match resp with
  | Answered status _ | CutShort status =>
    if is_success status then Ok ()
    else
      x ← read_body resp; let trimmed := trim_space x.2 in
      if speaks_json trimmed then Err (apiErrorFrom status trimmed) else Err (ENotFreizone status)
  | NoAnswer => Err EURL
  end.
(** [dec] is the decoder of the caller's [out]: none when it is nil. *)
Definition decodeResponse {A} (dec : bytes → res cerr A) (resp : http_result) : res cerr A :=
  x ← read_body resp; let trimmed := trim_space x.2 in
  if negb (speaks_json trimmed) then Err (ENotFreizone x.1)
  else if is_success x.1 then dec x.2
  else Err (apiErrorFrom x.1 trimmed).

(** The request up to its answer. *)
Definition exchange (r : request) : proc http_result :=
  id ← Identity;
  let server := if rq_server r =?b [] then MyServer id else rq_server r in
  let body := default [] (rq_body r) in
  let target := server ++ rq_path r ++ (if rq_query r =?b [] then [] else 63 :: rq_query r) in
  if negb (good_target target) then fail (EMsg "client: building request")
  else
    signed ← signRequest r body id;
    resp ← roundtrip (mkHttp (rq_method r) target ((lit "Content-Type", lit "application/json") :: signed) body);
    match resp with NoAnswer => fail EURL | _ => mret resp end.
Definition into {R} {J : Json R} (raw : bytes) : res cerr R := from_option (json_Unmarshal raw) (EMsg "client: decoding response").
Definition do_into {R} {J : Json R} (r : request) : proc R := resp ← exchange r; lift (decodeResponse into resp).
Definition do_ (r : request) : proc () :=
  resp ← exchange r; lift (if rq_noContent r then statusOnlyResponse resp else decodeResponse (λ _, Ok ()) resp).
End transport.

(** ** serverstatus.go *)

Record serverStatusWire := mkStatusWire {
  SwClaimed : bool; SwRegistrationPolicy : bytes; SwFederationEnabled : option bool; SwBlobsEnabled : bool; SwMaxBlobBytes : Z;
  SwMaxBlobRecipients : option Z; SwBatchMessages : bool; SwMaxBatchMessages : Z; SwAttestation : bytes; SwReportsEnabled : bool;
}.
Record ServerStatus := mkServerStatus {
  SsClaimed : bool; SsRegistrationPolicy : bytes; FederationEnabled : bool; BlobsEnabled : bool; MaxBlobBytes : Z; MaxBlobRecipients : Z;
  BatchMessages : bool; MaxBatchMessages : Z; SsAttestation : bytes; ReportsEnabled : bool;
}.
Definition resolve_status (w : serverStatusWire) : ServerStatus :=
  mkServerStatus (SwClaimed w) (SwRegistrationPolicy w) (default true (SwFederationEnabled w)) (SwBlobsEnabled w) (SwMaxBlobBytes w)
    (default 1 (SwMaxBlobRecipients w)) (SwBatchMessages w) (SwMaxBatchMessages w) (SwAttestation w) (SwReportsEnabled w).

(** ** messages_api.go *)

Record incomingMessageWire := mkIncomingWire { IwMessageID : bytes; IwSenderAccountID : bytes; IwSenderDeviceID : bytes; IwSentAt : bytes; IwPayload : bytes }.
Record remainingWire := mkRemaining { RwRemaining : Z }.

(** What encoding/json does with each of the bodies. *)
Class WireFormats := {
  #[export] wf_error :: Json errorEnvelope; #[export] wf_detail :: Json errorDetail;
  #[export] wf_send :: Json sendMessageRequest; #[export] wf_federated :: Json federationMessageRequest;
  #[export] wf_claim :: Json claimPrekeyBundleRequest; #[export] wf_upload :: Json uploadPrekeysRequest;
  #[export] wf_account :: Json accountResponse; #[export] wf_bundle :: Json prekeyBundleResponse;
  #[export] wf_status :: Json serverStatusWire; #[export] wf_remaining :: Json remainingWire;
  #[export] wf_incoming :: Json (list incomingMessageWire);
}.

Section api.
Context {UC : UnicodeCase} {NW : Network} {ED : Ed25519} {WF : WireFormats}.

Definition ServerStatus_of (server : bytes) : proc ServerStatus :=
  w ← do_into (R := serverStatusWire) (GET (lit "/v1/server-status") server authNone); mret (resolve_status w).
Definition federationAllowed : proc bool := s ← ServerStatus_of []; mret (FederationEnabled s).

(** A 409 is the server's duplicate check at work. *)
Definition unless_status (status : Z) (m : proc ()) : proc () :=
  r ← attempt m;
  match r with
  | inl _ => mret ()
  | inr e => match as_api e with Some (s, _) => if s =? status then mret () else fail e | None => fail e end
  end.
Definition SendMessage (recipientAccountID recipientDeviceID messageID payload : bytes) : proc () :=
  unless_status 409 (do_ (POST (lit "/v1/messages") [] (json_Marshal (mkSend messageID recipientAccountID recipientDeviceID payload)) authDevice)).
Definition resolve_incoming (w : incomingMessageWire) : res cerr IncomingMessage :=
  let with_time t := mkIncoming (IwMessageID w) (IwSenderAccountID w) (IwSenderDeviceID w) t (IwPayload w) in
  if IwSentAt w =?b [] then Ok (with_time None)
  else t ← from_option (time_parse (IwSentAt w)) (EMsg "client: parsing sent_at"); Ok (with_time (Some t)).
Definition FetchMessages : proc (list IncomingMessage) :=
  l ← do_into (R := list incomingMessageWire) (GET (lit "/v1/messages") [] authDevice); lift (mapM resolve_incoming l).
Definition AckMessage (messageID : bytes) : proc () :=
  unless_status 404 (do_ (mkRequest (lit "DELETE") (lit "/v1/messages/" ++ messageID) [] None [] authDevice false)).

(** ** peers_resolve.go *)

Definition Federated (p : PeerEndpoint) : bool := negb (PeServer p =?b []).
Definition get_account (server name : bytes) : proc accountResponse := do_into (GET (lit "/v1/accounts/" ++ name) server authNone).
Definition lookup_peer (addressOrPrefix server : bytes) : proc PeerEndpoint :=
  acc ← get_account server (normalised_query addressOrPrefix); msg (check_answer server acc).
Definition endpointOn (peer server : bytes) : proc PeerEndpoint :=
  cached ← peerDevice peer;
  match cached with
  | Some d =>
    if negb (Df_DeviceID d =?b []) && (0 <? zlen (Df_DevicePub d))
    then mret (mkPeer peer (Df_DeviceID d) (Df_DevicePub d) (if server =?b [] then Df_Server d else server))
    else e ← lookup_peer peer server; _ ← putPeerDevice (PeAccountID e) (PeServer e) (PeDeviceID e) (PeDevicePub e); mret e
  | None => e ← lookup_peer peer server; _ ← putPeerDevice (PeAccountID e) (PeServer e) (PeDeviceID e) (PeDevicePub e); mret e
  end.
Definition known_server (convo : option Conversation) : bytes := match convo with Some c => PeerServer c | None => [] end.
Definition Endpoint (peer : bytes) : proc PeerEndpoint := convo ← LoadConversation peer; endpointOn peer (known_server convo).
Definition StartConversation (addressOrPrefix server : bytes) : proc Conversation :=
  e ← lookup_peer addressOrPrefix server;
  existing ← LoadConversation (PeAccountID e);
  let c := default (mkConversation (PeAccountID e) [] None false false false false None None None None) existing in
  let convo := mkConversation (PeerAccountID c) (PeServer e) (LastActivityAt c) (HasUnread c) (ConvBlocked c) false (PeerGone c) (PeerDeliveredUpTo c)
                 (PeerReadUpTo c) (SentDeliveredReceiptUpTo c) (SentReadReceiptUpTo c) in
  _ ← putPeerDevice (PeAccountID e) (PeServer e) (PeDeviceID e) (PeDevicePub e);
  _ ← MarkPeerKnown (PeAccountID e);
  _ ← PutConversation convo;
  mret convo.

(** groupsend.go: the server itself is asked, and only a 404 is an answer of "gone". *)
Definition accountIsGone (server accountID : bytes) : proc bool :=
  id ← Identity;
  r ← attempt (lookup_peer accountID (if server =?b MyServer id then [] else server));
  match r with
  | inl _ => mret false
  | inr e => match as_api e with Some (s, _) => if s =? 404 then mret true else fail e | None => fail e end
  end.

(** ** prekeys_api.go *)

Context {XC : X25519}.

Definition OneTimePrekeyBatch : Z := 10.
Definition OneTimePrekeyLowWaterMark : Z := 3.

Definition signDeviceCertificate (id : OwnIdentity) (issuedAt : Time) : res string bytes :=
  cert ← DeviceCertificate.SignDeviceCertificate (MyAccountID id) (MyDeviceID id) (MyDevicePub id) issuedAt (MyRootPriv id);
  Ok (DeviceCertificate.Signature cert).
Definition signDeviceCert (id : OwnIdentity) (issuedAt : Time) : res string federationDeviceCertDTO :=
  sig ← signDeviceCertificate id issuedAt;
  Ok (mkCertDTO (MyDeviceID id) (b64_encode (MyDevicePub id)) (rfc3339 issuedAt) (b64_encode sig)).

(** The bundle, and whether the server did not take us for identified. *)
Definition ClaimBundle (peer : PeerEndpoint) : proc (RemoteBundle * bool) :=
  id ← Identity;
  let path := lit "/v1/devices/" ++ PeDeviceID peer ++ lit "/prekey-bundle" in
  req ← (if Federated peer then
           issuedAt ← now;
           cert ← msg (signDeviceCert id (utc issuedAt));
           mret (POST path (PeServer peer) (json_Marshal (mkClaimReq (MyAccountID id) (b64_encode (MyRootPub id)) cert)) authFederated)
         else mret (mkRequest (lit "POST") path [] None [] authDevice false));
  bundle ← do_into (R := prekeyBundleResponse) req;
  remote ← msg (verifyBundle bundle peer);
  mret (remote, BuOmitted bundle =?b lit "unauthenticated").

Definition RemainingOneTimePrekeys : proc Z :=
  id ← Identity;
  w ← do_into (R := remainingWire) (GET (lit "/v1/devices/" ++ MyDeviceID id ++ lit "/prekey-status") [] authDevice);
  mret (RwRemaining w).
Definition uploadPrekeys (id : OwnIdentity) (body : uploadPrekeysRequest) : proc () :=
  do_ (POST (lit "/v1/devices/" ++ MyDeviceID id ++ lit "/prekeys") [] (json_Marshal body) authDevice).

Definition with_next_prekey (id : OwnIdentity) (n : Z) : OwnIdentity :=
  mkOwnIdentity (MyAccountID id) (MyServer id) (MyRootPub id) (MyRootPriv id) (MyDeviceID id) (MyDevicePub id) (MyDevicePriv id) (MyDHIdentityPub id)
    (MyDHIdentityPriv id) (MySignedPrekeyID id) (MySignedPrekeyPub id) (MySignedPrekeyPriv id) (MyNextSignedPrekeyID id) n (MyRecoveryBackupDone id)
    (MyPushRegisteredAt id) (MyPushMechanism id).
(** [curve.GenerateKey] *)
Definition generateKey (what : string) : proc bytes := r ← draw; match r with Some k => mret k | None => fail (EMsg what) end.
Fixpoint mint (n : nat) (next : Z) : proc (list OneTimePrekey * Z) :=
  match n with
  | O => mret ([], next)
  | S n =>
    k ← generateKey "client: generating one-time prekey";
    rest ← mint n (u32 (next + 1));
    mret (mkOneTimePrekey next (x_pub k) k :: rest.1, rest.2)
  end.
Definition prekey_wire (k : OneTimePrekey) : oneTimePrekeyDTO := mkOTP (OtKeyID k) (b64_encode (OtPub k)).
(** The private halves are stored before the public ones are shown to anybody. *)
Definition mintOneTimePrekeys (id : OwnIdentity) (count : Z) : proc (OwnIdentity * list oneTimePrekeyDTO) :=
  if count <=? 0 then mret (id, [])
  else
    kn ← mint (Z.to_nat count) (MyNextOneTimePrekeyID id);
    _ ← PutOneTimePrekeys kn.1;
    mret (with_next_prekey id kn.2, prekey_wire <$> kn.1).

Definition signedPrekeyWireFor (id : OwnIdentity) (t : Time) : res string signedPrekeyDTO :=
  cert ← SignedPrekeyCertificate.SignSignedPrekeyCertificate (MyAccountID id) (MyDeviceID id) (MySignedPrekeyID id) (MyDHIdentityPub id) (MySignedPrekeyPub id) t
           (MyDevicePriv id);
  Ok (mkSPK (SignedPrekeyCertificate.KeyID cert) (b64_encode (SignedPrekeyCertificate.DHIdentityPubKey cert))
        (b64_encode (SignedPrekeyCertificate.PrekeyPubKey cert)) (rfc3339 (SignedPrekeyCertificate.IssuedAt cert))
        (b64_encode (SignedPrekeyCertificate.Signature cert))).
Definition dhCertFor (id : OwnIdentity) (dhPub : bytes) (t : Time) : res string dhIdentityCertDTO :=
  cert ← DHIdentityCertificate.SignDHIdentityCertificate (MyAccountID id) (MyDeviceID id) dhPub t (MyDevicePriv id);
  Ok (mkDHCert (b64_encode (DHIdentityCertificate.DHPubKey cert)) (rfc3339 (DHIdentityCertificate.IssuedAt cert))
        (b64_encode (DHIdentityCertificate.Signature cert))).
Definition replacePool (id : OwnIdentity) (t : Time) (keys : list oneTimePrekeyDTO) : proc () :=
  dhCert ← msg (dhCertFor id (MyDHIdentityPub id) t);
  spk ← msg (signedPrekeyWireFor id t);
  uploadPrekeys id (mkUpload (Some dhCert) spk keys true).

Definition PurgeAndReplaceOneTimePrekeys : proc () :=
  id ← Identity;
  if zlen (MySignedPrekeyPub id) =? 0 then mret ()
  else
    t ← now; let t := utc t in
    _ ← replacePool id t [];
    remaining ← RemainingOneTimePrekeys;
    if 0 <? remaining then fail (EMsg "client: this server kept one-time prekeys after being asked to replace the pool")
    else
      x ← mintOneTimePrekeys id OneTimePrekeyBatch;
      _ ← SetIdentity x.1;
      replacePool x.1 t x.2.

Definition TopUpOneTimePrekeys : proc () :=
  id ← Identity;
  if zlen (MySignedPrekeyPub id) =? 0 then mret ()
  else
    t ← now; let t := utc t in
    remaining ← RemainingOneTimePrekeys;
    held ← CountOneTimePrekeys;
    if held <? remaining then PurgeAndReplaceOneTimePrekeys
    else
      x ← (if remaining <? OneTimePrekeyLowWaterMark then
             x ← mintOneTimePrekeys id (OneTimePrekeyBatch - remaining); _ ← SetIdentity x.1; mret x
           else mret (id, []));
      dhCert ← msg (dhCertFor x.1 (MyDHIdentityPub x.1) t);
      spk ← msg (signedPrekeyWireFor x.1 t);
      uploadPrekeys x.1 (mkUpload (Some dhCert) spk x.2 false).

Definition with_dh_identity (id : OwnIdentity) (priv : bytes) : OwnIdentity :=
  mkOwnIdentity (MyAccountID id) (MyServer id) (MyRootPub id) (MyRootPriv id) (MyDeviceID id) (MyDevicePub id) (MyDevicePriv id) (x_pub priv) priv
    (MySignedPrekeyID id) (MySignedPrekeyPub id) (MySignedPrekeyPriv id) (MyNextSignedPrekeyID id) (MyNextOneTimePrekeyID id) (MyRecoveryBackupDone id)
    (MyPushRegisteredAt id) (MyPushMechanism id).
Definition with_signed_prekey (id : OwnIdentity) (priv : bytes) : OwnIdentity :=
  mkOwnIdentity (MyAccountID id) (MyServer id) (MyRootPub id) (MyRootPriv id) (MyDeviceID id) (MyDevicePub id) (MyDevicePriv id) (MyDHIdentityPub id)
    (MyDHIdentityPriv id) (MyNextSignedPrekeyID id) (x_pub priv) priv (u32 (MyNextSignedPrekeyID id + 1)) (MyNextOneTimePrekeyID id)
    (MyRecoveryBackupDone id) (MyPushRegisteredAt id) (MyPushMechanism id).
Definition RotatePrekeys : proc () :=
  id ← Identity;
  t ← now; let t := utc t in
  ic ← (if zlen (MyDHIdentityPriv id) =? 0 then
          priv ← generateKey "client: generating dh identity key";
          cert ← msg (dhCertFor id (x_pub priv) t);
          mret (with_dh_identity id priv, Some cert)
        else mret (id, None));
  spkPriv ← generateKey "client: generating signed prekey";
  let id := with_signed_prekey ic.1 spkPriv in
  spk ← msg (signedPrekeyWireFor id t);
  x ← mintOneTimePrekeys id OneTimePrekeyBatch;
  _ ← SetIdentity x.1;
  uploadPrekeys x.1 (mkUpload ic.2 spk x.2 false).
End api.
