(* ===== verification/Stream.v ===== *)
(** * The message stream: from the server's writes to the client's events

    The bytes [handleMessageStream] of internal/api/messages.go writes, and pkg/client/stream.go:
    reading frames, handing events to the caller without ever waiting for it, and
    reconnecting with a delay that doubles.

    A connection attempt is what it came to: the answer, or the bytes that arrived until it
    ended.  The jitter, a product of floating-point numbers, is an argument. *)

From S2P Require Import Prelude GoStr GoTime GoTimeParse Sha256 Humancode Crypto Base64 Bech32m Address DeviceCert HttpSig Store StoreIntegrity StoreCorrect StoreQueue Delivery Federation Prekeys PrekeysCorrect Accounts Resolve.
From S2P Require Import GroupEvent GroupState GroupResolve ProfileClaim Ratchet RatchetCorrect ClientLog ClientDedup ClientTranscript Envelope ClientState ClientProfile ClientGroups ClientReceive ClientNet.

(** ** The server's side *)

(** The fields of messageResponse are those of the client's record. *)
Definition messageResponseFrom (m : Store.Message) : incomingMessageWire :=
  mkIncomingWire (Store.MessageID m) (Store.SenderAccountID m) (Store.SenderDeviceID m) (rfc3339 (utc (Store.SentAt m))) (Store.Payload m).
Inductive sse_write := WriteMessage (m : Store.Message) | WriteHeartbeat.

Section wire.
Context {JW : Json incomingMessageWire}.
Definition writeSSEMessage (m : Store.Message) : bytes :=
  lit "event: message" ++ 10 :: lit "data: " ++ json_Marshal (messageResponseFrom m) ++ [10; 10].
Definition sse_bytes (w : sse_write) : bytes :=
  match w with WriteMessage m => writeSSEMessage m | WriteHeartbeat => lit ": heartbeat" ++ [10; 10] end.
(** What was pending, and then whatever comes first each time. *)
Definition stream_output (pending : list Store.Message) (later : list sse_write) : bytes :=
  mjoin (sse_bytes <$> (WriteMessage <$> pending) ++ later).

(** ** The client's side *)

(** [reader.ReadString('\n')] until it fails: the rest without a newline is dropped with the error. *)
Definition complete_lines (s : bytes) : list bytes := let ps := split_on 10 s in take (length ps - 1) ps.
Definition trim_crlf (s : bytes) : bytes := reverse (drop_while (λ b, (b =? 10) || (b =? 13)) (reverse s)).
Definition cut_prefix (p s : bytes) : option bytes := if has_prefix p s then Some (drop (length p) s) else None.
Definition read_line (line : bytes) : option IncomingMessage :=
  data ← cut_prefix (lit "data: ") (trim_crlf line);
  wire ← json_Unmarshal data;
  match resolve_incoming wire with Ok m => Some m | _ => None end.
Definition read_frames (received : bytes) : list IncomingMessage := omap read_line (complete_lines received).

Inductive StreamEvent := StreamConnected | StreamMessage (m : IncomingMessage) | StreamDisconnected (e : cerr) | StreamFailed (e : cerr).
Definition event_buffer : Z := 32.
Definition send (buf : list StreamEvent) (ev : StreamEvent) : list StreamEvent := if zlen buf <? event_buffer then buf ++ [ev] else buf.

Record StreamPolicy := mkPolicy { ConnectTimeout : Z; IdleTimeout : Z; InitialRetryDelay : Z; MaxRetryDelay : Z; QuickRetryDelay : Z }.
Definition withDefaults (p : StreamPolicy) : StreamPolicy :=
  let def x d := if x <=? 0 then d else x in
  mkPolicy (def (ConnectTimeout p) (20 * second)) (def (IdleTimeout p) (60 * second)) (def (InitialRetryDelay p) (3 * second))
    (def (MaxRetryDelay p) (30 * second)) (def (QuickRetryDelay p) (second / 2)).

(** The request that opens a stream: signed like every other, with an empty body. *)
Definition streamRequest {NW : Network} {ED : Ed25519} (id : OwnIdentity) : proc HttpRequest :=
  let path := lit "/v1/messages/stream" in
  if negb (good_target (MyServer id ++ path)) then fail (EMsg "client: building stream request")
  else
    signed ← signRequest (GET path [] authDevice) [] id;
    mret (mkHttp (lit "GET") (MyServer id ++ path) ((lit "Accept", lit "text/event-stream") :: signed) []).

(** The outcome of an attempt; the last one carries what arrived and how it ended. *)
Inductive attempt := NotOpened (e : cerr) | RefusedWith (status : Z) (message : bytes) | Opened (received : bytes) (ended : cerr).
Definition streamOnce (a : attempt) : list StreamEvent * (bool * cerr) :=
  match a with
  | NotOpened e => ([], (false, e))
  | RefusedWith status _ => ([], (false, EAPI status []))
  | Opened received ended => (StreamConnected :: (StreamMessage <$> read_frames received), (true, ended))
  end.
Definition established (a : attempt) : bool := (streamOnce a).2.1.

(** The events offered to the caller after each attempt, and the pause that follows it.  The list ends with the context. *)
Fixpoint stream_loop (policy : StreamPolicy) (jitter : Z → Z) (delay : Z) (attempts : list attempt) : list (list StreamEvent * Z) :=
  match attempts with
  | [] => []
  | a :: attempts =>
    let '(evs, (up, err)) := streamOnce a in
    if (up : bool) then (evs ++ [StreamDisconnected err], QuickRetryDelay policy) :: stream_loop policy jitter (InitialRetryDelay policy) attempts
    else (evs ++ [StreamFailed err], jitter delay) :: stream_loop policy jitter (Z.min (i64 (delay * 2)) (MaxRetryDelay policy)) attempts
  end.
Definition Stream (policy : StreamPolicy) (jitter : Z → Z) (attempts : list attempt) : list (list StreamEvent * Z) :=
  let policy := withDefaults policy in stream_loop policy jitter (InitialRetryDelay policy) attempts.

(** A caller that does not read gets the first events and costs nothing: the rest is dropped. *)
Lemma unread_events evs : foldl send [] evs = take (Z.to_nat event_buffer) evs.
Proof.
  induction evs as [|ev evs IH] using rev_ind; [done|]. rewrite foldl_snoc, IH. unfold send, zlen, event_buffer. rewrite length_take.
  destruct (decide (length evs < 32)%nat) as [H|H].
  - rewrite (proj2 (Z.ltb_lt _ _)) by lia. rewrite (take_ge evs), take_ge by (rewrite ?length_app; cbn; lia). done.
  - rewrite (proj2 (Z.ltb_ge _ _)) by lia. rewrite take_app_le by lia. done.
Qed.

(** ** Frames *)

Lemma complete_lines_app l s : Forall (λ b, b ≠ 10) l → complete_lines (l ++ 10 :: s) = l :: complete_lines s.
Proof.
  intros H. unfold complete_lines. rewrite split_on_app by done. destruct (split_on 10 s) as [|p ps] eqn:E; [|cbn; by rewrite Nat.sub_0_r].
  exfalso. destruct s as [|b s]; [done|]. cbn in E. destruct (b =? 10); [done|]. by destruct (split_on 10 s).
Qed.
Lemma complete_lines_nl s : complete_lines (10 :: s) = [] :: complete_lines s.
Proof. by apply (complete_lines_app []). Qed.
Lemma complete_lines_open l : Forall (λ b, b ≠ 10) l → complete_lines l = [].
Proof. intros H. unfold complete_lines. by rewrite split_on_single. Qed.
(** A text has a first line, or no newline at all. *)
Lemma first_line s : Forall (λ b, b ≠ 10) s ∨ ∃ l r, s = l ++ 10 :: r ∧ Forall (λ b, b ≠ 10) l.
Proof.
  induction s as [|b s IH]; [by left|]. destruct (decide (b = 10)) as [->|Hb]; [right; by exists [], s|].
  destruct IH as [IH|(l & r & -> & Hl)]; [left; by constructor|right; exists (b :: l), r; split; [done|by constructor]].
Qed.
(** Cutting the stream anywhere leaves the first of its lines. *)
Lemma complete_lines_take n s : ∃ k, complete_lines (take n s) = take k (complete_lines s).
Proof.
  revert n. induction s as [s IH] using (induction_ltof1 _ length). intros n. destruct (first_line s) as [Hs|(l & r & -> & Hl)].
  { exists 0%nat. rewrite complete_lines_open; [done|]. by apply Forall_take. }
  destruct (decide (n ≤ length l)%nat) as [Hn|Hn].
  { exists 0%nat. rewrite take_app_le by done. rewrite complete_lines_open; [done|]. by apply Forall_take. }
  rewrite take_app_ge by lia. destruct (n - length l)%nat as [|m] eqn:Em; [lia|]. cbn [take]. rewrite !complete_lines_app by done.
  destruct (IH r) with (n := m) as [k Hk]; [unfold ltof; rewrite length_app; cbn; lia|]. exists (S k). cbn. by rewrite Hk.
Qed.

(** ** What arrives *)

(** A message as the client sees it: the time in whole seconds. *)
Definition as_received (m : Store.Message) : IncomingMessage :=
  mkIncoming (Store.MessageID m) (Store.SenderAccountID m) (Store.SenderDeviceID m) (Some (to_second (Store.SentAt m))) (Store.Payload m).
Definition sendable (m : Store.Message) : Prop := encodable (messageResponseFrom m) ∧ year_ok (Store.SentAt m).
Definition written (w : sse_write) : list Store.Message := match w with WriteMessage m => [m] | WriteHeartbeat => [] end.

Lemma trim_crlf_id s : Forall (λ b, b ≠ 10 ∧ b ≠ 13) s → trim_crlf s = s.
Proof.
  intros H. unfold trim_crlf. rewrite <- (reverse_involutive s) at 2. f_equal. apply Forall_reverse in H. destruct (reverse s) as [|b r]; [done|].
  apply Forall_cons_1 in H as [[H1 H2] _]. cbn. by rewrite (proj2 (Z.eqb_neq b 10)), (proj2 (Z.eqb_neq b 13)).
Qed.
Lemma has_prefix_self p s : has_prefix p (p ++ s) = true.
Proof. induction p as [|b p IH]; [by destruct s|]. cbn. by rewrite Z.eqb_refl. Qed.
Lemma read_data m : sendable m → read_line (lit "data: " ++ json_Marshal (messageResponseFrom m)) = Some (as_received m).
Proof.
  intros [He Hy]. unfold read_line. rewrite trim_crlf_id by (apply Forall_app; split; [by repeat constructor|apply marshal_line]).
  unfold cut_prefix. rewrite has_prefix_self, drop_app_length. cbn [mbind option_bind]. rewrite (unmarshal_marshal _ He). cbn [mbind option_bind].
  unfold resolve_incoming, messageResponseFrom. cbn [IwSentAt IwMessageID IwSenderAccountID IwSenderDeviceID IwPayload].
  change (rfc3339 (utc (Store.SentAt m))) with (rfc3339 (to_second (Store.SentAt m))). rewrite (time_parse_stored _ Hy).
  destruct (_ =?b []) eqn:E; [|done]. apply eqb_true_1 in E. apply (f_equal length) in E. by rewrite rfc3339_body_whole, length_app, Nat.add_comm in E.
Qed.
(** The lines of one write, and what is read from them. *)
Definition lines_of (w : sse_write) : list bytes :=
  match w with
  | WriteMessage m => [lit "event: message"; lit "data: " ++ json_Marshal (messageResponseFrom m); []]
  | WriteHeartbeat => [lit ": heartbeat"; []]
  end.
Lemma complete_write w s : complete_lines (sse_bytes w ++ s) = lines_of w ++ complete_lines s.
Proof.
  destruct w as [m|]; cbn [sse_bytes lines_of].
  - unfold writeSSEMessage. rewrite <- (assoc_L app). cbn [app]. rewrite complete_lines_app by (by repeat constructor).
    rewrite <- !(assoc_L app). rewrite (assoc_L app (lit "data: ")). cbn [app]. rewrite complete_lines_app; [|apply Forall_app; split; [by repeat constructor|]].
    + by rewrite complete_lines_nl.
    + eapply Forall_impl; [apply marshal_line|]. by intros b [].
  - rewrite <- (assoc_L app). cbn [app]. rewrite complete_lines_app by (by repeat constructor). by rewrite complete_lines_nl.
Qed.
Lemma complete_stream ws : complete_lines (mjoin (sse_bytes <$> ws)) = ws ≫= lines_of.
Proof. induction ws as [|w ws IH]; [done|]. cbn [fmap list_fmap mjoin list_join]. rewrite complete_write. cbn. f_equal. exact IH. Qed.
Lemma read_write w : Forall sendable (written w) → omap read_line (lines_of w) = as_received <$> written w.
Proof.
  destruct w as [m|]; intros H; [|done]. apply Forall_cons_1 in H as [Hm _]. cbn [lines_of written]. cbn [omap list_omap].
  rewrite read_data by done. done.
Qed.
Lemma read_writes ws : Forall sendable (ws ≫= written) → omap read_line (ws ≫= lines_of) = as_received <$> (ws ≫= written).
Proof.
  induction ws as [|w ws IH]; intros H; [done|]. rewrite !bind_cons in *. apply Forall_app in H as [Hw Hs]. by rewrite omap_app, fmap_app, read_write, IH.
Qed.
Lemma omap_take {A B} (f : A → option B) k l : ∃ j, omap f (take k l) = take j (omap f l).
Proof.
  revert k. induction l as [|x l IH]; intros [|k]; [by exists 0%nat..|]. destruct (IH k) as [j Hj]. cbn. destruct (f x); [exists (S j)|exists j]; cbn; by rewrite <- Hj.
Qed.

(** C16: the stream delivers what the server wrote.  Whatever was pending and comes later, with heartbeats in between: from the whole of the
    bytes the client reads exactly those messages in that order, each with its id, sender, time to the second and
    payload; and wherever the connection is cut, it has read the first of them, each whole. *)
Theorem stream_delivers pending later : Forall sendable (pending ++ (later ≫= written)) →
  read_frames (stream_output pending later) = as_received <$> pending ++ (later ≫= written) ∧
  ∀ n, ∃ k, read_frames (take n (stream_output pending later)) = take k (as_received <$> pending ++ (later ≫= written)).
Proof.
  intros H. assert (((WriteMessage <$> pending) ++ later) ≫= written = pending ++ (later ≫= written)) as Ew.
  { rewrite bind_app. f_equal. clear H. induction pending as [|m p IH]; [done|]. cbn. f_equal. exact IH. }
  unfold read_frames, stream_output. rewrite <- Ew in H |- *. split; [by rewrite complete_stream, read_writes|].
  intros n. destruct (complete_lines_take n (mjoin (sse_bytes <$> (WriteMessage <$> pending) ++ later))) as [k ->].
  rewrite complete_stream. destruct (omap_take read_line k (((WriteMessage <$> pending) ++ later) ≫= lines_of)) as [j ->]. exists j. by rewrite read_writes.
Qed.

(** ** Reconnecting *)

(** The failures in a row before an attempt. *)
Fixpoint failures (before : list attempt) : Z :=
  match before with [] => 0 | a :: before => if established a then 0 else 1 + failures before end.
Definition sane_policy (p : StreamPolicy) : Prop := 0 < InitialRetryDelay p ≤ MaxRetryDelay p ∧ MaxRetryDelay p < 2 ^ 62.
Definition backoff (p : StreamPolicy) (n : Z) : Z := Z.min (InitialRetryDelay p * 2 ^ n) (MaxRetryDelay p).
Lemma failures_nonneg l : 0 ≤ failures l.
Proof. induction l as [|a l IH]; [done|]. cbn. destruct (established a); lia. Qed.
Lemma backoff_doubles p n : sane_policy p → 0 ≤ n → Z.min (i64 (backoff p n * 2)) (MaxRetryDelay p) = backoff p (1 + n).
Proof.
  intros [[H1 H2] H3] Hn. unfold backoff. assert (0 < 2 ^ n) by (apply Z.pow_pos_nonneg; lia). rewrite (Z.pow_add_r 2 1 n) by lia.
  assert (0 < InitialRetryDelay p * 2 ^ n) by nia. rewrite i64_small by lia. lia.
Qed.
Lemma stream_loop_pauses p jitter attempts before i x : sane_policy p →
  stream_loop p jitter (backoff p (failures before)) attempts !! i = Some x →
  ∃ a, attempts !! i = Some a ∧ x.2 = if established a then QuickRetryDelay p else jitter (backoff p (failures (reverse (take i attempts) ++ before))).
Proof.
  intros Hp. revert before i. induction attempts as [|a attempts IH]; intros before i H; [done|]. cbn [stream_loop] in H.
  assert (backoff p 0 = InitialRetryDelay p) as E0 by (unfold backoff; destruct Hp; lia).
  assert ((if established a then InitialRetryDelay p else Z.min (i64 (backoff p (failures before) * 2)) (MaxRetryDelay p)) = backoff p (failures (a :: before))) as En.
  { cbn [failures]. destruct (established a); [done|]. apply backoff_doubles; [done|apply failures_nonneg]. }
  unfold established in *. destruct (streamOnce a) as [evs [up err]] eqn:Es. cbn [fst snd] in En. destruct i as [|i].
  - exists a. split; [done|]. rewrite Es. cbn [fst snd take reverse]. by destruct up; injection H as <-.
  - assert (stream_loop p jitter (backoff p (failures (a :: before))) attempts !! i = Some x) as H' by (rewrite <- En; by destruct up).
    destruct (IH _ _ H') as (b & Hb & ->). exists b. split; [done|]. cbn [take]. by rewrite reverse_cons, <- (assoc_L app).
Qed.

Lemma stream_loop_events p jitter attempts delay i evs pause a : stream_loop p jitter delay attempts !! i = Some (evs, pause) → attempts !! i = Some a →
  ∃ e, if established a then ∃ r, evs = StreamConnected :: r ++ [StreamDisconnected e] else evs = [StreamFailed e].
Proof.
  revert delay i. induction attempts as [|b attempts IH]; intros delay i H Ha; [done|]. cbn [stream_loop] in H. destruct i as [|i].
  - injection Ha as ->. destruct a as [e|status m|received ended]; injection H as <- <-; [by exists e|by eexists|]. exists ended. by eexists.
  - destruct (streamOnce b) as [evs' [[] err]]; by eapply IH.
Qed.

(** A server that is away is asked ever more rarely, one that is back is found.  After [n] failures in a row the pause is the initial delay
    doubled [n] times but never more than the maximum, jittered; after a connection that had come up it is the
    short one, and the count starts again; every attempt is reported to the caller. *)
Theorem retry_backs_off policy jitter attempts : let p := withDefaults policy in sane_policy p →
  length (Stream policy jitter attempts) = length attempts ∧
  ∀ i evs pause, Stream policy jitter attempts !! i = Some (evs, pause) → ∃ a, attempts !! i = Some a ∧
    (if established a then pause = QuickRetryDelay p ∧ head evs = Some StreamConnected
     else ∃ n e, n = failures (reverse (take i attempts)) ∧ pause = jitter (Z.min (InitialRetryDelay p * 2 ^ n) (MaxRetryDelay p)) ∧ evs = [StreamFailed e]).
Proof.
  intros p Hp. unfold Stream. fold p. assert (backoff p 0 = InitialRetryDelay p) as E0 by (unfold backoff; destruct Hp; lia). split.
  { generalize (InitialRetryDelay p) at 1. induction attempts as [|a attempts IH]; intros delay; [done|]. cbn [stream_loop length].
    destruct (streamOnce a) as [evs [[] err]]; cbn [length]; by rewrite IH. }
  intros i evs pause H. rewrite <- E0 in H. destruct (stream_loop_pauses p jitter attempts [] i _ Hp H) as (a & Ha & Hx). exists a. split; [done|].
  rewrite app_nil_r in Hx. cbn [snd] in Hx. rewrite E0 in H. destruct (stream_loop_events p jitter attempts _ i evs pause a H Ha) as (e & He).
  destruct (established a); [|by exists (failures (reverse (take i attempts))), e]. split; [done|]. destruct He as [r ->]. done.
Qed.
End wire.
