(* ===== verification/ClientBlobs.v ===== *)
(** * pkg/client/blobs.go: attachments

    An attachment is sealed under a key of its own, uploaded as opaque bytes to the server
    of its recipients, and described in a message; a recipient fetches it once. *)

From S2P Require Import Prelude GoStr GoTime GoTimeParse Sha256 Crypto Base64 Bech32m Address DeviceCert HttpSig Delivery Federation Prekeys Accounts Resolve.
From S2P Require Import GroupEvent GroupState GroupResolve ProfileClaim Ratchet RatchetCorrect ClientLog ClientDedup ClientTranscript Envelope ClientState ClientProfile ClientGroups ClientReceive ClientNet.

Record OutgoingMedia := mkMedia { OmBytes : bytes; OmMimeType : bytes; OmWidth : Z; OmHeight : Z; OmThumb : bytes; OmKind : bytes }.
Definition blobAlgorithm : bytes := lit "aes-256-gcm".
Definition ErrBlobUnavailable (cause : cerr) : cerr := EWrap "client: attachment is no longer available" cause.

(** [url.QueryEscape] *)
Definition unreserved (c : Z) : bool :=
  in_range 97 122 c || in_range 65 90 c || in_range 48 57 c || (c =? 45) || (c =? 95) || (c =? 46) || (c =? 126).
Definition upper_hex (n : Z) : Z := if n <? 10 then 48 + n else 55 + n.
Definition escape_byte (c : Z) : bytes := if unreserved c then [c] else if c =? 32 then [43] else [37; upper_hex (c / 16); upper_hex (c mod 16)].
Definition QueryEscape (s : bytes) : bytes := mjoin (escape_byte <$> s).

(** ** Sealing *)

Section blobs.
Context {UC : UnicodeCase} {NW : Network} {ED : Ed25519} {WF : WireFormats} {AE : AEAD}.

Definition nonceSize : Z := 12.
Definition check_key (key : bytes) : res cerr () := if zlen key =? 32 then Ok () else Err (EMsg "client: an attachment key must be 32 bytes").
(** The key, the ciphertext behind its nonce, and the hex digest. *)
Definition sealAttachment (plaintext : bytes) : proc (bytes * bytes * bytes) :=
  k ← draw; key ← lift (from_option k (EMsg "client: generating attachment key"));
  _ ← lift (check_key key);
  n ← draw; nonce ← lift (from_option n (EMsg "client: generating attachment nonce"));
  let nonce := take (Z.to_nat nonceSize) nonce in
  let ciphertext := nonce ++ gcm_Seal key nonce plaintext [] in
  mret (key, ciphertext, hex_encode (sha256 ciphertext)).
Definition openAttachment (key ciphertext : bytes) : res cerr bytes :=
  _ ← check_key key;
  if zlen ciphertext <? nonceSize then Err (EMsg "client: attachment is shorter than its nonce")
  else from_option (gcm_Open key (take (Z.to_nat nonceSize) ciphertext) (drop (Z.to_nat nonceSize) ciphertext) []) (EMsg "client: attachment did not decrypt").

(** ** The two requests *)

Record uploadResponse := mkUploadResponse { UrBlobID : bytes }.
Context {JU : Json uploadResponse}.

Definition federated_headers (id : OwnIdentity) : proc (list (bytes * bytes)) :=
  t ← now; let issuedAt := utc t in
  sig ← msg (signDeviceCertificate id issuedAt);
  mret [(lit "Freizone-Sender-Account-Id", MyAccountID id); (lit "Freizone-Sender-Root-Pub-Key", b64_encode (MyRootPub id));
        (lit "Freizone-Sender-Device-Id", MyDeviceID id); (lit "Freizone-Sender-Device-Pub-Key", b64_encode (MyDevicePub id));
        (lit "Freizone-Sender-Cert-Issued-At", rfc3339 issuedAt); (lit "Freizone-Sender-Cert-Signature", b64_encode sig)].
Definition signBodyDigest (method path rawQuery keyID digest : bytes) (id : OwnIdentity) : proc (list (bytes * bytes)) :=
  nonce ← randomHex 16 "client: generating request nonce";
  ts ← now;
  sig ← msg (ed25519_Sign (MyDevicePriv id) (CanonicalStringWithBodyDigest method path rawQuery (FormatTimestamp ts) nonce keyID digest));
  mret (signature_headers keyID ts nonce (b64_encode sig)).

(** Whose server, and the name of the signing key there. *)
Definition is_federated (id : OwnIdentity) (server : bytes) : bool := negb (server =?b []) && negb (server =?b MyServer id).
Definition home (id : OwnIdentity) (server : bytes) : bytes := if is_federated id server then server else MyServer id.
Definition key_name (id : OwnIdentity) (server : bytes) : bytes := if is_federated id server then b64_encode (MyDevicePub id) else MyDeviceID id.
Definition sender_headers (id : OwnIdentity) (server : bytes) : proc (list (bytes * bytes)) :=
  if is_federated id server then federated_headers id else mret [].

Definition uploadBlob (server : bytes) (recipientDeviceIDs : list bytes) (ciphertext digest : bytes) : proc bytes :=
  id ← Identity;
  let path := if is_federated id server then lit "/v1/federation/blobs" else lit "/v1/blobs" in
  let rawQuery := strings_Join ((λ d, lit "recipient_device_id=" ++ QueryEscape d) <$> recipientDeviceIDs) (lit "&") in
  let target := home id server ++ path ++ 63 :: rawQuery in
  if negb (good_target target) then fail (EMsg "client: building attachment upload")
  else
    fh ← sender_headers id server;
    sh ← signBodyDigest (lit "POST") path rawQuery (key_name id server) digest id;
    resp ← roundtrip (mkHttp (lit "POST") target
      ((lit "Content-Type", lit "application/octet-stream") :: (HeaderBodyDigest, lit "sha256=" ++ digest) :: fh ++ sh) ciphertext);
    x ← lift (read_body resp);
    if negb ((x.1 =? 201) || (x.1 =? 200)) then fail (apiErrorFrom x.1 x.2)
    else
      r ← lift (from_option (json_Unmarshal (R := uploadResponse) x.2) (EMsg "client: decoding attachment upload response"));
      if UrBlobID r =?b [] then fail (EMsg "client: the server accepted the attachment without naming it") else mret (UrBlobID r).

Definition downloadBlob (server blobID : bytes) : proc bytes :=
  id ← Identity;
  let path := lit "/v1/blobs/" ++ blobID in
  let target := home id server ++ path in
  if negb (good_target target) then fail (EMsg "client: building attachment download")
  else
    fh ← sender_headers id server;
    nonce ← randomHex 16 "client: generating request nonce";
    ts ← now;
    sig ← msg (HttpSig.Sign (lit "GET") path [] [] (key_name id server) ts nonce (MyDevicePriv id));
    resp ← roundtrip (mkHttp (lit "GET") target (fh ++ signature_headers (key_name id server) ts nonce sig) []);
    x ← lift (read_body resp);
    if x.1 =? 200 then mret x.2
    else if (x.1 =? 404) || (x.1 =? 410) then fail (ErrBlobUnavailable (apiErrorFrom x.1 x.2))
    else fail (apiErrorFrom x.1 x.2).

(** ** Upload, download, release *)

Definition described (m : OutgoingMedia) (blobID key : bytes) : Attachment :=
  mkAttachment (if OmKind m =?b [] then lit "image" else OmKind m) blobAlgorithm blobID key (OmMimeType m) (zlen (OmBytes m)) (OmWidth m) (OmHeight m) (OmThumb m).
Definition UploadAttachment (recipients : list PeerEndpoint) (m : OutgoingMedia) : proc Attachment :=
  match recipients with
  | [] => fail (EMsg "client: an attachment needs at least one recipient device")
  | first :: _ =>
    if negb (forallb (λ r, PeServer r =?b PeServer first) recipients)
    then fail (EMsg "client: recipients for one attachment must share a server")
    else
      x ← sealAttachment (OmBytes m);
      let '(key, ciphertext, digest) := x in
      blobID ← uploadBlob (PeServer first) (PeDeviceID <$> recipients) ciphertext digest;
      mret (described m blobID key)
  end.
Definition DownloadAttachment (server : bytes) (att : Attachment) : proc bytes :=
  if negb (AtAlgorithm att =?b []) && negb (AtAlgorithm att =?b blobAlgorithm)
  then fail (EMsg "client: attachment uses an algorithm this build cannot read")
  else
    ciphertext ← downloadBlob server (AtBlobID att);
    lift (wrap_err ErrBlobUnavailable (openAttachment (AtKey att) ciphertext)).
Definition DeleteBlob (blobID : bytes) : proc () :=
  unless_status 404 (do_ (mkRequest (lit "DELETE") (lit "/v1/blobs/" ++ blobID) [] None [] authDevice true)).
Definition EnsureAttachment (chatID messageID server : bytes) (att : Attachment) : proc bytes :=
  cached ← AttachmentFile chatID messageID;
  match cached with
  | Some b => mret b
  | None =>
    data ← DownloadAttachment server att;
    _ ← WriteAttachmentFile chatID messageID data;
    _ ← attempt (DeleteBlob (AtBlobID att));
    mret data
  end.
End blobs.
