(* ===== verification/ClientSend.v ===== *)
(** * pkg/client/send.go: from something to say to an envelope that left

    [deliver] encrypts and posts, and keeps the advance of the ratchet only when the post
    succeeded.  The context of a call is not modelled: a call that is cut off is a request
    without an answer. *)

From S2P Require Import Prelude GoStr GoTime GoTimeParse Sha256 Crypto Base64 Bech32m Address DeviceCert HttpSig Delivery Federation Prekeys Accounts Resolve.
From S2P Require Import GroupEvent GroupState GroupResolve ProfileClaim Ratchet RatchetCorrect ClientLog ClientDedup ClientTranscript Envelope ClientState ClientProfile ClientGroups ClientReceive ClientNet ClientBlobs.

Record SendOptions := mkSendOptions {
  SoReplyToID : bytes; SoReplyText : bytes; SoReplyMine : option bool; SoMedia : option OutgoingMedia; SoAttachments : list Attachment;
  SoNow : option Time;
}.
Record SendResult := mkSendResult { SrMessage : Message; EstablishedSession : bool; WithoutOneTimePrekey : bool }.
Definition PeerAccountGoneMarker : bytes := lit "This account no longer exists on their server, so nothing sent here will ever arrive".

Definition with_state (m : Message) (state : bytes) : Message :=
  mkMsg (MID m) (MText m) (MMine m) (MTimestamp m) (MSenderSentAt m) (MSenderAccountID m) (MReplyToID m) (MReplyText m) (MReplyMine m) (MReplyAuthorID m)
    (MKind m) state (MAttachments m) (MDeliveries m).
Definition with_attachments (m : Message) (l : list Attachment) : Message :=
  mkMsg (MID m) (MText m) (MMine m) (MTimestamp m) (MSenderSentAt m) (MSenderAccountID m) (MReplyToID m) (MReplyText m) (MReplyMine m) (MReplyAuthorID m)
    (MKind m) (MSendState m) l (MDeliveries m).
Definition with_gone (c : Conversation) : Conversation :=
  mkConversation (PeerAccountID c) (PeerServer c) (LastActivityAt c) (HasUnread c) (ConvBlocked c) (PendingApproval c) true (PeerDeliveredUpTo c)
    (PeerReadUpTo c) (SentDeliveredReceiptUpTo c) (SentReadReceiptUpTo c).
Definition with_activity (c : Conversation) (t : Time) : Conversation :=
  mkConversation (PeerAccountID c) (PeerServer c) (Some t) (HasUnread c) (ConvBlocked c) (PendingApproval c) (PeerGone c) (PeerDeliveredUpTo c)
    (PeerReadUpTo c) (SentDeliveredReceiptUpTo c) (SentReadReceiptUpTo c).

Section send.
Context {UC : UnicodeCase} {NW : Network} {ED : Ed25519} {XC : X25519} {HK : HKDF} {AE : AEAD} {QU : Quote} {WF : WireFormats}.
Context {JC : Json contentWire} {JA : Json attachmentWire} {JV : Json Envelope} {JL : Json logRecord} {JU : Json uploadResponse}.

(** ** A peer that is gone (peers.go) *)

Definition markPeerGone (peer : bytes) : proc () :=
  convo ← LoadConversation peer;
  match convo with
  | None => mret ()
  | Some c =>
    if PeerGone c then mret ()
    else
      _ ← PutConversation (with_gone c);
      msgs ← read_log peer Messages;
      if said_before PeerAccountGoneMarker msgs then mret ()
      else id ← newMessageID; t ← now; append_message peer (system_line id PeerAccountGoneMarker (utc t))
  end.
(** The error the caller ends up with. *)
Definition giveUpOnPeer (server accountID : bytes) (cause : cerr) : proc cerr :=
  if negb (IsStaleDevice cause) then mret cause
  else
    g ← attempt (accountIsGone server accountID);
    match g with
    | inl true =>
      m ← attempt (markPeerGone accountID);
      mret (match m with inl _ => EIs ErrPeerGone | inr e => EJoin cause e end)
    | _ => mret cause
    end.

(** ** Sessions *)

(** The bundle to build a session from, after at most one change of device. *)
Definition claim_for_sending (peer : PeerEndpoint) : proc (RemoteBundle * bool) :=
  b ← attempt (ClaimBundle peer);
  match b with
  | inl b => mret b
  | inr e =>
    if negb (IsStaleDevice e) then fail e
    else
      _ ← ForgetPeerDevice (PeAccountID peer);
      fresh ← attempt (Endpoint (PeAccountID peer));
      match fresh with
      | inr e => e ← giveUpOnPeer (PeServer peer) (PeAccountID peer) e; fail e
      | inl fresh =>
        b ← attempt (ClaimBundle fresh);
        match b with
        | inl b => mret b
        | inr e => e ← giveUpOnPeer (PeServer fresh) (PeAccountID fresh) e; fail e
        end
      end
  end.
(** The session, the prekey block that announces a new one, and whether it went without a one-time prekey. *)
Definition sessionForSending (peer : PeerEndpoint) (existing : option Session) : proc (Session * option InitialMessage * bool) :=
  match existing with
  | Some s => mret (s, None, false)
  | None =>
    b ← claim_for_sending peer;
    id ← Identity;
    dhPriv ← lift (NewPrivateKey (MyDHIdentityPriv id) "client: reading own identity key");
    eph ← draw; rat ← draw;
    si ← lift (wrap_err (λ e, EWrap "client: establishing a session" (ERatchet e)) (InitiateSession dhPriv b.1 eph rat));
    mret (si.1, Some si.2, negb (present (OneTimePrekeyID b.1)))
  end.
Definition rollBackSession (peer : bytes) (previous : option Session) : proc () :=
  match previous with None => DeleteSession peer Sending | Some s => SetSession peer Sending s end.

Definition postEnvelope (peer : PeerEndpoint) (wireMessageID payload : bytes) : proc () :=
  if negb (Federated peer) then SendMessage (PeAccountID peer) (PeDeviceID peer) wireMessageID payload
  else
    id ← Identity;
    t ← now;
    cert ← msg (signDeviceCert id (utc t));
    unless_status 409 (do_ (POST (lit "/v1/federation/messages") (PeServer peer)
      (json_Marshal (mkFedMessage (MyAccountID id) (b64_encode (MyRootPub id)) cert (mkSend wireMessageID (PeAccountID peer) (PeDeviceID peer) payload)))
      authFederated)).

(** ** [deliver] *)

(** Whom it goes to: refused for a blocked peer, one that is gone, and a foreign one without federation. *)
Definition recipient (peer : bytes) : proc PeerEndpoint :=
  blocked ← IsPeerBlocked peer;
  if (blocked : bool) then fail (EIs ErrPeerBlocked)
  else
    convo ← LoadConversation peer;
    if match convo with Some c => PeerGone c | None => false end then fail (EIs ErrPeerGone)
    else
      e ← attempt (Endpoint peer);
      match e with
      | inr e => e ← giveUpOnPeer (known_server convo) peer e; fail e
      | inl p =>
        if Federated p then
          allowed ← federationAllowed;
          if (allowed : bool) then mret p else fail (EIs ErrFederationDisabled)
        else mret p
      end.
(** The envelope posted, or the session put back. *)
Definition post_or_roll_back (peer : bytes) (to : PeerEndpoint) (previous : option Session) (wireID payload : bytes) : proc () :=
  r ← attempt (postEnvelope to wireID payload);
  match r with
  | inl _ => mret ()
  | inr e =>
    rb ← attempt (rollBackSession peer previous);
    match rb with
    | inr e' => fail (EJoin e e')
    | inl _ =>
      if IsStaleDevice e then
        f ← attempt (ForgetPeerDevice peer);
        match f with inr e' => fail (EJoin e e') | inl _ => fail e end
      else fail e
    end
  end.
(** Whether the session was established, and whether without a one-time prekey. *)
Definition deliver (peer plaintext : bytes) (afterOwnReset : bool) : proc (bool * bool) :=
  to ← recipient peer;
  previous ← LoadSession peer Sending;
  current ← LoadSession peer Sending;
  x ← sessionForSending to current;
  let '(session, initial, weak) := x in
  let '(session, enc) := Encrypt session plaintext in
  hc ← lift (wrap_err (λ e, EWrap "client: encrypting" (ERatchet e)) enc);
  _ ← SetSession peer Sending session;
  let rekey := match initial with Some _ => Some afterOwnReset | None => None end in
  let payload := MarshalPayload (NewEnvelopeRekey initial hc.1 hc.2 rekey) in
  wireID ← newMessageID;
  _ ← post_or_roll_back peer to previous wireID payload;
  mret (present initial, weak).

(** ** What is sent *)

Definition touchConversation (peer : bytes) (t : Time) : proc () :=
  convo ← LoadConversation peer;
  match convo with None => mret () | Some c => PutConversation (with_activity c t) end.
Definition placeholderFor (m : OutgoingMedia) : Attachment :=
  mkAttachment (if OmKind m =?b [] then lit "image" else OmKind m) [] [] [] (OmMimeType m) (zlen (OmBytes m)) (OmWidth m) (OmHeight m) (OmThumb m).
Definition uploadFor (peer : bytes) (m : OutgoingMedia) : proc Attachment := p ← Endpoint peer; UploadAttachment [p] m.

(** A failure is recorded on the line it belongs to. *)
Definition or_mark_failed {A} (peer messageID : bytes) (m : proc A) : proc A :=
  r ← attempt m;
  match r with
  | inl x => mret x
  | inr e =>
    mk ← attempt (on_log peer (λ f, SetMessageSendState f messageID SendFailed));
    fail (match mk with inl _ => e | inr e' => EJoin e e' end)
  end.
(** The line delivered with the name the peer has yet to hear. *)
Definition deliver_line (peer : bytes) (line : Message) (ownServer : bytes) (t : Time) : proc SendResult :=
  claim ← profileClaimFor peer;
  ew ← or_mark_failed peer (MID line) (deliver peer (encodeText line ownServer t claim) false);
  _ ← profileClaimSent peer claim;
  _ ← on_log peer (λ f, SetMessageSendState f (MID line) SendSent);
  mret (mkSendResult (with_state line SendSent) ew.1 ew.2).

Definition composed_line (id text : bytes) (opts : SendOptions) (t : Time) : Message :=
  mkMsg id text true t None [] (SoReplyToID opts) (SoReplyText opts) (SoReplyMine opts) [] MessageNormal SendPending
    (match SoMedia opts with Some m => [placeholderFor m] | None => SoAttachments opts end) [].
Definition SendText (peer text : bytes) (opts : SendOptions) : proc SendResult :=
  t ← (match SoNow opts with Some t => mret t | None => now end);
  let t := receiptClock t in
  id ← Identity;
  blocked ← IsPeerBlocked peer;
  if (blocked : bool) then fail (EIs ErrPeerBlocked)
  else if match SoMedia opts, SoAttachments opts with Some _, _ :: _ => true | _, _ => false end
  then fail (EMsg "client: a message carries either Media to upload or Attachments already uploaded, not both")
  else
    messageID ← newMessageID;
    let line := composed_line messageID text opts t in
    _ ← (match SoMedia opts with
         | Some m => _ ← WriteAttachmentFile peer messageID (OmBytes m); WriteAttachmentThumb peer messageID (OmThumb m)
         | None => mret ()
         end);
    _ ← append_message peer line;
    line ← (match SoMedia opts with
            | Some m =>
              uploaded ← or_mark_failed peer messageID (uploadFor peer m);
              _ ← on_log peer (λ f, SetMessageAttachments f messageID [uploaded]);
              mret (with_attachments line [uploaded])
            | None => mret line
            end);
    res ← deliver_line peer line (MyServer id) t;
    _ ← touchConversation peer t;
    mret res.

Definition find_line (messageID : bytes) (msgs : list Message) : option Message := List.find (λ m, MID m =?b messageID) msgs.
Definition media_of (b : bytes) (a : Attachment) : OutgoingMedia := mkMedia b (AtMimeType a) (AtWidth a) (AtHeight a) (AtThumb a) (AtKind a).
Definition RetryMessage (peer messageID : bytes) : proc SendResult :=
  msgs ← read_log peer Messages;
  match find_line messageID msgs with
  | None => fail (EMsg "client: no such message in the chat")
  | Some line =>
    if negb (MSendState line =?b SendFailed) then fail (EMsg "client: message is not a failed send")
    else
      id ← Identity;
      blocked ← IsPeerBlocked peer;
      if (blocked : bool) then fail (EIs ErrPeerBlocked)
      else
        line ← (match MAttachments line with
                | [att] =>
                  if AtBlobID att =?b [] then
                    b ← AttachmentFile peer messageID;
                    match b with
                    | None => fail (EIs ErrAttachmentNotResendable)
                    | Some b =>
                      uploaded ← uploadFor peer (media_of b att);
                      _ ← on_log peer (λ f, SetMessageAttachments f messageID [uploaded]);
                      mret (with_attachments line [uploaded])
                    end
                  else mret line
                | _ => mret line
                end);
        _ ← on_log peer (λ f, SetMessageSendState f messageID SendPending);
        deliver_line peer line (MyServer id) (MTimestamp line)
  end.

(** The watermark this side has confirmed, and the conversation with it moved. *)
Definition sent_watermark (status : ReceiptStatus) (c : Conversation) : option Time :=
  match status with ReceiptDelivered => SentDeliveredReceiptUpTo c | ReceiptRead => SentReadReceiptUpTo c end.
Definition with_sent_watermark (status : ReceiptStatus) (c : Conversation) (t : Time) : Conversation :=
  mkConversation (PeerAccountID c) (PeerServer c) (LastActivityAt c) (HasUnread c) (ConvBlocked c) (PendingApproval c) (PeerGone c) (PeerDeliveredUpTo c)
    (PeerReadUpTo c) (match status with ReceiptDelivered => Some t | _ => SentDeliveredReceiptUpTo c end)
    (match status with ReceiptRead => Some t | _ => SentReadReceiptUpTo c end).
Definition SendReceipt (peer : bytes) (status : ReceiptStatus) (upTo : Time) : proc () :=
  on ← ReceiptsEnabled;
  if negb on then mret ()
  else
    convo ← LoadConversation peer;
    match convo with
    | None => mret ()
    | Some c =>
      let upTo := utc upTo in
      if negb (moves upTo (sent_watermark status c)) then mret ()
      else
        claim ← profileClaimFor peer;
        _ ← deliver peer (json_Marshal (receipt_body status upTo [] claim)) false;
        _ ← profileClaimSent peer claim;
        PutConversation (with_sent_watermark status c upTo)
    end.

Definition ResetSession (peer : bytes) (reason : RekeyReason) : proc () :=
  t ← now; let t := utc t in
  _ ← DeleteSession peer Sending;
  _ ← DeleteSession peer Inbound;
  _ ← (if decide (reason = RekeyDecryptFailures) then RecordAutoRekey peer t else ClearDesyncEvidence peer);
  let marker := if decide (reason = RekeyDecryptFailures) then AutomaticRekeyMarker else SessionResetMarker in
  convo ← LoadConversation peer;
  _ ← (match convo with
       | None => mret ()
       | Some _ => id ← newMessageID; append_message peer (system_line id marker t)
       end);
  _ ← deliver peer (json_Marshal (rekey_body reason)) true;
  mret ().

(** The loop over the conversations: [purged] once the own pool was replaced. *)
Fixpoint recover (convos : list Conversation) (federated : bool) (t : Time) (purged : bool) : proc (list bytes) :=
  match convos with
  | [] => mret []
  | c :: convos =>
    if ConvBlocked c || PendingApproval c || (negb (PeerServer c =?b []) && negb federated) then recover convos federated t purged
    else
      due ← ShouldAutoRekey (PeerAccountID c) t;
      if negb due then recover convos federated t purged
      else
        _ ← (if purged then mret () else _ ← attempt PurgeAndReplaceOneTimePrekeys; mret ());
        r ← attempt (ResetSession (PeerAccountID c) RekeyDecryptFailures);
        rest ← recover convos federated t true;
        mret (match r with inl _ => PeerAccountID c :: rest | inr _ => rest end)
  end.
Definition RecoverDesyncedSessions : proc (list bytes) :=
  convos ← Conversations;
  federated ← federationAllowed;
  t ← now;
  recover convos federated (utc t) false.
End send.
