(* ===== verification/ClientSendCorrect.v ===== *)
(** * What sending keeps and what it sends

    A failed send leaves the session as it was, so a retry uses the same message number; a
    blocked peer is sent nothing. *)

From S2P Require Import Prelude GoStr GoTime GoTimeParse Sha256 Crypto Base64 Bech32m Address DeviceCert HttpSig Delivery Federation Prekeys Accounts Resolve.
From S2P Require Import GroupEvent GroupState GroupResolve ProfileClaim Ratchet RatchetCorrect ClientLog ClientDedup ClientTranscript Envelope ClientState ClientProfile ClientGroups ClientReceive ClientFrames ClientReceiveCorrect ClientNet ClientBlobs ClientSend.

(** ** Requests *)

Class off_outer {B} (f : account → B) : Prop := off_outer_eq a v : f (with_outer a v) = f a.
#[export] Hint Extern 0 (off_outer _) => intros ? ?; reflexivity : typeclass_instances.
(** What does not depend on the cached devices and profiles of peers. *)
Class off_cache {B} (f : account → B) : Prop :=
  off_cache_eq a p d : session_json d = session_json (peer_of a p) → inbound_json d = inbound_json (peer_of a p) → health_json d = health_json (peer_of a p) →
    f (with_peers a (<[p := d]> (peers a))) = f a.
#[export] Hint Extern 1 (off_cache _) => intros ? ? ? ? ? ?; reflexivity : typeclass_instances.
#[export] Instance session_off_cache q k : off_cache (λ a, session_file k (peer_of a q)).
Proof.
  intros a p d Hs Hi _. unfold peer_of. cbn [peers with_peers]. destruct (decide (p = q)) as [->|Hne]; [rewrite lookup_insert_eq; by destruct k|by rewrite lookup_insert_ne].
Qed.
#[export] Instance off_peer_cache {B} (f : account → B) : (∀ p, off_peer f p) → off_cache f.
Proof. intros H a p d _ _ _. apply H. Qed.

#[export] Hint Extern 1 (off_rng _) => solve [apply _] : frames.
#[export] Hint Extern 1 (off_outer _) => solve [apply _] : frames.
#[export] Hint Extern 1 (off_peer _ _) => solve [apply _] : frames.
#[export] Hint Extern 1 (off_chat _ _) => solve [apply _] : frames.
#[export] Hint Extern 1 (off_group _ _) => solve [apply _] : frames.
#[export] Hint Extern 1 (off_media _) => solve [apply _] : frames.
#[export] Hint Extern 1 (off_cache _) => solve [apply _] : frames.

Section net.
Context {UC : UnicodeCase} {NW : Network} {ED : Ed25519} {XC : X25519} {HK : HKDF} {AE : AEAD} {QU : Quote} {WF : WireFormats}.
Context {JC : Json contentWire} {JA : Json attachmentWire} {JV : Json Envelope} {JL : Json logRecord} {JU : Json uploadResponse}.

Section requests.
Context {B : Type} (f : account → B) `{!off_rng f, !off_outer f}.
Lemma frames_now : frames f now.
Proof. intros a. apply off_outer_eq. Qed.
Lemma frames_roundtrip r : frames f (roundtrip r).
Proof. intros a. apply off_outer_eq. Qed.
Hint Resolve frames_now frames_roundtrip frames_Identity : frames.
Lemma frames_exchange r : frames f (exchange r).
Proof. unfold exchange, signRequest, randomHex. frame. Qed.
Hint Resolve frames_exchange : frames.
Lemma frames_do_into {R} {J : Json R} r : frames f (do_into r).
Proof. unfold do_into. frame. Qed.
Lemma frames_do r : frames f (do_ r).
Proof. unfold do_. frame. Qed.
Hint Resolve @frames_do_into frames_do : frames.
Lemma frames_lookup_peer x s : frames f (lookup_peer x s).
Proof. unfold lookup_peer, get_account. frame. Qed.
Lemma frames_federationAllowed : frames f federationAllowed.
Proof. unfold federationAllowed, ServerStatus_of. frame. Qed.
Hint Resolve frames_lookup_peer : frames.
Lemma frames_accountIsGone s x : frames f (accountIsGone s x).
Proof. unfold accountIsGone. frame. Qed.
Lemma frames_ClaimBundle p : frames f (ClaimBundle p).
Proof. unfold ClaimBundle. frame. Qed.
Lemma frames_postEnvelope p i x : frames f (postEnvelope p i x).
Proof. unfold postEnvelope, SendMessage, unless_status. frame. Qed.
End requests.
Hint Resolve frames_now frames_lookup_peer frames_federationAllowed frames_accountIsGone frames_ClaimBundle frames_postEnvelope frames_Identity
  frames_LoadConversation frames_LoadSession : frames.

Lemma write_file {B} (f : account → B) `{!off_cache f} p g :
  (∀ d, session_json (g d) = session_json d ∧ inbound_json (g d) = inbound_json d ∧ health_json (g d) = health_json d) → frames f (write_peer p g).
Proof. intros Hg. apply frames_bind; [done|]. intros _ a. cbn [change fst]. destruct (Hg (peer_of a p)) as (? & ? & ?). by apply off_cache_eq. Qed.

Section recipients.
Context {B : Type} (f : account → B) `{!off_rng f, !off_outer f, !off_cache f, !∀ c, off_chat f c}.
Lemma frames_putPeerDevice x s d k : frames f (putPeerDevice x s d k).
Proof.
  unfold putPeerDevice, verifyPendingClaims, updateProfile, readProfile, writePeerDevice.
  frame; apply write_file; try done; intros; by split_and!.
Qed.
Hint Resolve frames_putPeerDevice : frames.
Lemma frames_endpointOn p s : frames f (endpointOn p s).
Proof. unfold endpointOn, peerDevice. frame. Qed.
Hint Resolve frames_endpointOn : frames.
Lemma frames_Endpoint p : frames f (Endpoint p).
Proof. unfold Endpoint. frame. Qed.
Lemma frames_markPeerGone p : frames f (markPeerGone p).
Proof. unfold markPeerGone, PutConversation, read_log, append_message. frame. Qed.
Hint Resolve frames_Endpoint frames_markPeerGone : frames.
Lemma frames_giveUpOnPeer s p e : frames f (giveUpOnPeer s p e).
Proof. unfold giveUpOnPeer. frame. Qed.
Hint Resolve frames_giveUpOnPeer : frames.
Lemma frames_recipient p : frames f (recipient p).
Proof. unfold recipient, IsPeerBlocked. frame. Qed.
End recipients.
Hint Resolve frames_putPeerDevice frames_endpointOn frames_Endpoint frames_markPeerGone frames_giveUpOnPeer frames_recipient : frames.

(** ** A failed send *)

Abbreviation sess p := (λ a, session_file Sending (peer_of a p)).
(** The one failure that is not a refusal of the other end: no message id could be drawn. *)
Definition no_id : cerr := EMsg "client: generating a message id".

Lemma LoadSession_Ok p k a a1 r : LoadSession p k a = (a1, Ok r) → a1 = a ∧ load_session (session_file k (peer_of a p)) = Ok r ∧ safeElement p = Ok ().
Proof. unfold LoadSession. intros H. step H as H1. step H as H2. done_by H. by subst. Qed.
Lemma LoadSession_frozen p k a : (LoadSession p k a).1 = a.
Proof. exact (frames_LoadSession id p k a). Qed.
Lemma newMessageID_Err a a1 e : newMessageID a = (a1, Err e) → e = no_id.
Proof. unfold newMessageID, mbind, proc_bind, draw. destruct (rng a); cbn; [by intros [= _ <-]|done]. Qed.
Lemma attempt_Ok {A} (m : proc A) a a1 x : attempt m a = (a1, Ok x) → match x with inl y => m a = (a1, Ok y) | inr e => m a = (a1, Err e) end.
Proof. unfold attempt. destruct (m a) as [b [y|e|]]; intros [= <- <-]; done. Qed.
Lemma attempt_not_Err {A} (m : proc A) a a1 e : attempt m a ≠ (a1, Err e).
Proof. unfold attempt. by destruct (m a) as [b [y|e'|]]. Qed.
Lemma stale_join a b : IsStaleDevice (EJoin a b) = false → IsStaleDevice a = true → False.
Proof. unfold IsStaleDevice, as_api. cbn [find_err]. destruct (find_err _ a) as [[s c]|]; congruence. Qed.

Lemma post_failed p to s i x a a1 e : safeElement p = Ok () →
  post_or_roll_back p to (Some s) i x a = (a1, Err e) → IsStaleDevice e = false →
  session_file Sending (peer_of a1 p) = Some (toJSON_in s (map_to_list (Skipped s))).
Proof.
  intros Hsafe H Hst. unfold post_or_roll_back in H. apply proc_bind_Err in H as [H|(a2 & r & _ & H)]; [by apply attempt_not_Err in H|].
  destruct r as [u|e0]; [done|]. unfold rollBackSession in H.
  assert (attempt (SetSession p Sending s) a2 = ((SetSession p Sending s a2).1, Ok (inl ()))) as Ea by (unfold attempt; by rewrite SetSession_run by done).
  rewrite (bind_run _ _ _ _ _ Ea) in H. assert (session_file Sending (peer_of (SetSession p Sending s a2).1 p) = Some (toJSON_in s (map_to_list (Skipped s)))) as Es.
  { rewrite SetSession_run by done. cbn [fst]. unfold peer_of. cbn [peers with_peers]. by rewrite lookup_insert_eq. }
  destruct (IsStaleDevice e0) eqn:E0.
  - exfalso. apply proc_bind_Err in H as [H|(a3 & y & _ & H)]; [by apply attempt_not_Err in H|]. destruct y as [[]|e']; injection H as _ <-; [congruence|by apply stale_join in Hst].
  - injection H as <- _. done.
Qed.

(** What a failed delivery leaves of a session: the file as it was, or the session it held written again. *)
Lemma deliver_failed p x fl a a1 e s :
  load_session (sess p a) = Ok (Some s) → deliver p x fl a = (a1, Err e) → e ≠ no_id → IsStaleDevice e = false →
  sess p a1 = sess p a ∨ sess p a1 = Some (toJSON_in s (map_to_list (Skipped s))).
Proof.
  intros Hl H Hid Hst. unfold deliver in H. cbv beta in *.
  pose proof (frames_recipient (sess p) p a) as Fr. cbv beta in Fr. apply proc_bind_Err in H as [H|(a2 & to & Hr & H)]; [left; by rewrite H in Fr|].
  rewrite Hr in Fr. cbn [fst] in Fr. rewrite <- Fr in Hl.
  apply proc_bind_Err in H as [H|(a3 & prev & Hp & H)]; [left; pose proof (LoadSession_frozen p Sending a2) as E; rewrite H in E; cbn [fst] in E; by subst a2|].
  apply LoadSession_Ok in Hp as (-> & Hp & Hsafe). rewrite Hl in Hp. apply Ok_inj in Hp as <-.
  rewrite (bind_run _ _ _ a2 (Some s)) in H by (unfold LoadSession, safe, msg, mbind, proc_bind, lift, gets; by rewrite Hsafe; cbn [wrap_err]; rewrite Hl).
  cbn [sessionForSending] in H. erewrite bind_run in H by done. cbv beta iota in H. destruct (Encrypt s x) as [s1 enc].
  apply proc_bind_Err in H as [H|(a4 & hc & Hc & H)]; [left; by injection H as -> _|]. apply lift_Ok in Hc as [-> _].
  rewrite (bind_run _ _ _ _ _ (SetSession_run p Sending s1 a2 Hsafe)) in H.
  apply proc_bind_Err in H as [H|(a5 & wid & Hw & H)]; [by apply newMessageID_Err in H|].
  apply proc_bind_Err in H as [H|(a6 & u & _ & H)]; [|done]. right. by eapply post_failed.
Qed.

(** The session a failed delivery leaves behind encrypts as the one before it. *)
Lemma deliver_failed_loads p x fl a a1 e s :
  load_session (sess p a) = Ok (Some s) → storable s → buffered s → 0 ≤ skipSeq s < 2 ^ 64 - 1 →
  deliver p x fl a = (a1, Err e) → e ≠ no_id → IsStaleDevice e = false →
  ∃ seq, load_session (sess p a1) =
    Ok (Some (mkSession (SRole s) (AD s) (DHs s) (DHr s) (RK s) (CKs s) (CKr s) (Ns s) (Nr s) (PN s) (Skipped s) seq)).
Proof.
  intros Hl Hst Hb Hq H Hid Hsd. destruct (deliver_failed p x fl a a1 e s Hl H Hid Hsd) as [->|E].
  - exists (skipSeq s). rewrite Hl. by destruct s.
  - destruct (fromJSON_toJSON s (map_to_list (Skipped s)) Hst Hb) as (seq & Ej & _); [lia..|done|]. exists seq.
    cbv beta in *. rewrite E. unfold load_session. by rewrite Ej.
Qed.

(** C11: over an established session a failed send can be repeated.  When [deliver] to a peer with
    a stored session, whose other end the peer holds in step, fails -- the request refused, cut off, or accepted by a server whose answer
    was lost -- the session is what it was before, so the next message is encrypted under the same
    number.  If the first copy did arrive, the peer opens it and reports the second as a
    duplicate; if it did not, the peer opens the second.  Two failures are excluded: a stale
    device, whose session is deleted, and a random source that yields no message id, after which the
    advanced session stays.  First contact, where there is no session to go back to, is not covered. *)
Theorem failed_send_retried p x fl a a1 e s ka ck j got r fr y :
  load_session (sess p a) = Ok (Some s) → storable s → buffered s → 0 ≤ skipSeq s < 2 ^ 64 - 1 →
  deliver p x fl a = (a1, Err e) → e ≠ no_id → IsStaleDevice e = false →
  DHs s = Some ka → Ns s = Z.of_nat j → CKs s = Some (chain_key ck j) → Z.of_nat j + 1 < 2 ^ 32 →
  AD r = AD s → receiving r (x_pub ka) ck got j → (size (Skipped r) ≤ 2000)%nat →
  ∃ s' s1 s2 h c c' r' r'', load_session (sess p a1) = Ok (Some s') ∧
    Encrypt s x = (s1, Ok (h, c)) ∧ Encrypt s' y = (s2, Ok (h, c')) ∧
    Decrypt r h c fr = (r', Ok x) ∧ Decrypt r' h c' fr = (r', Err ErrDuplicateMessage) ∧
    Decrypt r h c' fr = (r'', Ok y).
Proof.
  intros Hl Hst Hb Hq H Hid Hsd Hk Hn Hc Hj Had Hrec Hsz.
  destruct (deliver_failed_loads p x fl a a1 e s Hl Hst Hb Hq H Hid Hsd) as (seq & E). eexists _. 
  destruct (Encrypt_chain s ka ck j x Hk Hn ltac:(lia) Hc) as (s1 & c & E1 & Hs1 & _).
  set (s' := mkSession _ _ _ _ _ _ _ _ _ _ _ seq) in E.
  destruct (Encrypt_chain s' ka ck j y Hk Hn ltac:(lia) Hc) as (s2 & c' & E2 & Hs2 & _).
  apply open_seal in Hs1, Hs2. rewrite <- Had in Hs1. cbn [AD s'] in Hs2. rewrite <- Had in Hs2. cbn [PN s'] in *.
  destruct (Decrypt_ahead r (x_pub ka) ck got j j (mkHeader (x_pub ka) (PN s) (Z.of_nat j)) c fr x Hrec) as (r' & D1 & Hr' & _); try done; try lia.
  destruct (Decrypt_ahead r (x_pub ka) ck got j j (mkHeader (x_pub ka) (PN s) (Z.of_nat j)) c' fr y Hrec) as (r'' & D2 & _); try done; try lia.
  exists s1, s2, (mkHeader (x_pub ka) (PN s) (Z.of_nat j)), c, c', r', r''. split_and!; try done.
  apply (Decrypt_duplicate r' (x_pub ka) ck ({[j]} ∪ got) (S j) j); try done. set_solver.
Qed.

(** ** A blocked peer *)

Abbreviation sent_so_far := (λ a, sent (outer a)).
Definition is_blocked (p : bytes) (a : account) : bool := present (readBlocked a !! p).

Lemma deliver_blocked p x fl a : is_blocked p a = true → deliver p x fl a = (a, Err (EIs ErrPeerBlocked)).
Proof.
  intros Hb. unfold deliver, recipient, IsPeerBlocked. unfold mbind at 1, proc_bind at 1. erewrite bind_run by done. unfold is_blocked in Hb. by rewrite Hb.
Qed.

(** [quiet p m]: while [p] is blocked, [m] sends nothing and leaves the blocked list alone. *)
Abbreviation wire_view := (λ a, (blocked_json a, sent (outer a))).
Definition quiet {A} (p : bytes) (m : proc A) : Prop := ∀ a, is_blocked p a = true → wire_view (m a).1 = wire_view a.

Lemma quiet_frames {A} p (m : proc A) : frames wire_view m → quiet p m.
Proof. intros H a _. apply H. Qed.
Lemma quiet_bind {A C} p (m : proc A) (k : A → proc C) : quiet p m → (∀ x, quiet p (k x)) → quiet p (m ≫= k).
Proof.
  intros Hm Hk a Hb. specialize (Hm a Hb). unfold mbind, proc_bind. destruct (m a) as [a1 [x|e|]]; [|done..]. cbn [fst] in *. injection Hm as H1 H2.
  assert (is_blocked p a1 = true) as Hb1 by (unfold is_blocked, readBlocked in *; by rewrite H1). specialize (Hk x a1 Hb1). cbv beta in Hk. rewrite Hk. by f_equal.
Qed.
Lemma quiet_deliver p x fl : quiet p (deliver p x fl).
Proof. intros a Hb. by rewrite deliver_blocked. Qed.
Lemma quiet_guard {A} p (m k : proc A) : quiet p m → quiet p (b ← IsPeerBlocked p; if (b : bool) then m else k).
Proof. intros Hm a Hb. unfold IsPeerBlocked. erewrite bind_run by done. unfold is_blocked in Hb. rewrite Hb. by apply Hm. Qed.
Lemma quiet_now p : quiet p now.
Proof. by intros a _. Qed.
Ltac quiet := repeat (cbv zeta; first
  [ solve [apply quiet_deliver] | apply quiet_guard | apply quiet_now
  | solve [apply quiet_frames; frame]
  | apply quiet_bind; [|intros ?]
  | match goal with |- quiet _ (match ?x with _ => _ end) => destruct x end ]).

(** [refuses p m]: while [p] is blocked, [m] does not succeed. *)
Definition refuses {A} (p : bytes) (m : proc A) : Prop := ∀ a, is_blocked p a = true → is_ok (m a).2 = false.
Lemma refuses_bind {A C} p (m : proc A) (k : A → proc C) : quiet p m → (∀ x, refuses p (k x)) → refuses p (m ≫= k).
Proof.
  intros Hm Hk a Hb. specialize (Hm a Hb). unfold mbind, proc_bind. destruct (m a) as [a1 [x|e|]]; [|done..]. cbn [fst] in Hm. injection Hm as H1 H2.
  apply Hk. unfold is_blocked, readBlocked in *. by rewrite H1.
Qed.
Lemma refuses_guard {A} p e (k : proc A) : refuses p (b ← IsPeerBlocked p; if (b : bool) then fail e else k).
Proof. intros a Hb. unfold IsPeerBlocked. erewrite bind_run by done. unfold is_blocked in Hb. by rewrite Hb. Qed.
Ltac refuse := repeat (cbv zeta; first
  [ apply refuses_guard | solve [intros ? ?; reflexivity]
  | match goal with |- refuses _ (match ?x with _ => _ end) => destruct x end
  | apply refuses_bind; [solve [quiet]|intros ?] ]).

Lemma frames_profileClaimFor {B} (f : account → B) p : frames f (profileClaimFor p).
Proof. unfold profileClaimFor, ownProfileClaim, readProfile, ProfileName. frame. Qed.
Hint Resolve frames_profileClaimFor : frames.

(** A blocked peer is sent nothing.  While a peer is blocked, composing, retrying, confirming and
    resetting a session -- whatever the account holds about the peer and whatever servers
    would answer -- send no request at all, to any server; composing and retrying do not
    succeed either. *)
Theorem blocked_peer_sent_nothing p a text opts messageID status upTo reason :
  is_blocked p a = true →
  sent_so_far (SendText p text opts a).1 = sent_so_far a ∧ is_ok (SendText p text opts a).2 = false ∧
  sent_so_far (RetryMessage p messageID a).1 = sent_so_far a ∧ is_ok (RetryMessage p messageID a).2 = false ∧
  sent_so_far (SendReceipt p status upTo a).1 = sent_so_far a ∧ sent_so_far (ResetSession p reason a).1 = sent_so_far a.
Proof.
  intros Hb. assert (∀ {A} (m : proc A), quiet p m → sent_so_far (m a).1 = sent_so_far a) as Q by (intros A m Hm; specialize (Hm a Hb); by injection Hm).
  split_and!.
  - apply Q. unfold SendText. destruct (SoNow opts); quiet.
  - clear Q. revert a Hb. change (refuses p (SendText p text opts)). unfold SendText. destruct (SoNow opts); refuse.
  - apply Q. unfold RetryMessage, read_log. quiet.
  - clear Q. revert a Hb. change (refuses p (RetryMessage p messageID)). unfold RetryMessage, read_log. refuse.
  - apply Q. unfold SendReceipt, ReceiptsEnabled, PutConversation, profileClaimSent, updateProfile, readProfile. quiet.
  - apply Q. unfold ResetSession, DeleteSession, RecordAutoRekey, writeHealth, ClearDesyncEvidence, append_message. quiet.
Qed.
End net.
