(* ===== verification/ClientGroupSend.v ===== *)
(** * pkg/client/groupsend.go: the sending half of groups

    A group message is encrypted once per member, into the member's own one-to-one session;
    the copies are posted server by server.  Every copy has a record of its own: one member
    that cannot be reached does not stop the others.  The same file sends the facts of a
    group, answers peers whose view differs, and confirms what arrived.

    The wording of an error ([%v]) is the parameter [error_text]. *)

From S2P Require Import Prelude GoStr GoTime GoTimeParse Sha256 Crypto Base64 Bech32m Address DeviceCert HttpSig Delivery Federation Prekeys Accounts Resolve.
From S2P Require Import GroupEvent GroupState GroupResolve ProfileClaim Ratchet RatchetCorrect ClientLog ClientDedup ClientTranscript Envelope ClientState ClientProfile ClientGroups ClientReceive ClientNet ClientBlobs ClientSend.

(** ** Data *)

Record preparedCopy := mkCopy { PcMember : Member; PcEndpoint : PeerEndpoint; PcMessageID : bytes; PcPayload : bytes; PcEstablished : bool }.
(** One item of a batch, the two bodies that carry a batch, and the answer: a status per message id. *)
Record batchItem := mkBatchItem { BiMessageID : bytes; BiRecipientDeviceID : bytes; BiPayload : bytes }.
Record batchBody := mkBatchBody { BbMessages : list batchItem }.
Record federatedBatchBody := mkFederatedBatch {
  FbAccountID : bytes; FbRootPubKey : bytes; FbDeviceCert : federationDeviceCertDTO; FbMessages : list batchItem;
}.
Record batchResponse := mkBatchResponse { BrResults : list (bytes * bytes) }.
Class BatchFormats := {
  #[export] bf_local :: Json batchBody; #[export] bf_federated :: Json federatedBatchBody; #[export] bf_response :: Json batchResponse;
}.

Definition pc_account (c : preparedCopy) : bytes := AccountID (PcMember c).
Definition pc_server (c : preparedCopy) : bytes := PeServer (PcEndpoint c).
(** The account id of a copy and what became of it: nothing for a copy that was taken. *)
Definition outcomes : Type := gmap bytes (option cerr).
Definition error_of {A} (r : A + cerr) : option cerr := match r with inl _ => None | inr e => Some e end.

(** [for start := 0; start < len(l); start += n]; the length of the list is fuel enough. *)
Fixpoint chunks_from {A} (fuel n : nat) (l : list A) : list (list A) :=
  match fuel, l with
  | S fuel, _ :: _ => take n l :: chunks_from fuel n (drop n l)
  | _, _ => []
  end.
Definition chunks {A} (n : Z) (l : list A) : list (list A) := chunks_from (length l) (Z.to_nat n) l.

(** Everyone a message goes to: joined, and not us. *)
Definition joinedMembers (r : Resolved) (except : bytes) : list Member := List.filter (λ m, negb (AccountID m =?b except) && Joined m) (Members r).
Definition memberAccountIDs (l : list Member) : list bytes := AccountID <$> l.
Definition bare_member (accountID server : bytes) : Member := mkMember accountID server RoleNone [] zero_time false.

(** ** The text of one copy *)

Section plaintext.
Context {JC : Json contentWire} {JA : Json attachmentWire}.
(** [references] is the map of [uploadForGroup], nil for a message without an own upload.  The cache
    of the closure holds what is computed here again: a copy depends on the account alone. *)
Definition groupPlaintextFor (line : Message) (groupID stateHash : bytes) (sentAt : Time) (references : option (gmap bytes Attachment))
    (claim : option Claim.t) (m : Member) : bytes :=
  match references with
  | None => encodeGroupText line groupID stateHash sentAt claim
  | Some refs => encodeGroupText (with_attachments line (option_list (refs !! AccountID m))) groupID stateHash sentAt claim
  end.
End plaintext.
Definition markAttachmentSkipped (deliveries : list GroupDelivery) (hadMedia : bool) (references : option (gmap bytes Attachment)) : list GroupDelivery :=
  if negb hadMedia then deliveries
  else (λ d, if present (refs ← references; refs !! GdAccountID d) then d
             else mkDelivery (GdAccountID d) (GdWireMessageID d) (GdState d) (GdError d) (GdDetail d) true) <$> deliveries.

(** ** Why a copy did not arrive *)

Definition humanFailure (err : cerr) : bytes :=
  match find_err (λ x, match x with EEnqueue s => Some s | _ => None end) err with
  | Some status =>
    if status =?b lit "unknown_recipient" then lit "Their server no longer knows this account."
    else if status =?b lit "queue_full" then lit "Their server is full right now. Try again later."
    else if status =?b lit "invalid" then lit "Their server would not accept the message."
    else lit "Their server could not take the message. Try again later."
  | None =>
    match as_api err with
    | Some (status, code) =>
      if code =?b lit "federation_disabled" then lit "Their server does not accept messages from other servers."
      else if status =? 404 then lit "Their server no longer knows this account."
      else if status =? 429 then lit "Their server is busy right now. Try again later."
      else if 500 <=? status then lit "Their server had a problem. Try again later."
      else lit "Their server refused the message."
    | None =>
      if present (find_err (λ x, match x with ENotFreizone _ => Some () | _ => None end) err) then lit "That address is not a Freizone server."
      else if IsUnreachable err then lit "Their server could not be reached."
      else lit "The message could not be sent. Try again."
    end
  end.

Section groupsend.
Context {UC : UnicodeCase} {NW : Network} {ED : Ed25519} {XC : X25519} {HK : HKDF} {AE : AEAD} {QU : Quote} {WF : WireFormats} {BF : BatchFormats}.
Context {JC : Json contentWire} {JA : Json attachmentWire} {JV : Json Envelope} {JL : Json logRecord} {JU : Json uploadResponse} {JE : Json (list (option Event))}.
Context (error_text : cerr → bytes).

Definition postFailureReason (posted : outcomes) (account : bytes) : bytes * bytes :=
  match posted !! account with
  | None => (lit "Not sent. Try again.", lit "their copy was prepared but never posted")
  | Some None => (lit "Not delivered.", lit "posting their copy failed for no stated reason")
  | Some (Some err) => (humanFailure err, lit "posting their copy: " ++ error_text err)
  end.

(** ** One copy *)

(** Our own server is addressed as no server. *)
Definition route (server ownServer : bytes) : bytes := if server =?b ownServer then [] else server.
Definition dhIdentityKey : proc bytes := id ← Identity; lift (NewPrivateKey (MyDHIdentityPriv id) "client: reading own identity key").
(** The session of a copy and, for a new one, its prekey block. *)
Definition session_for_copy (peer : bytes) (endpoint : PeerEndpoint) : proc (Session * option InitialMessage) :=
  session ← LoadSession peer Sending;
  match session with
  | Some s => mret (s, None)
  | None =>
    b ← ClaimBundle endpoint;
    dhPriv ← dhIdentityKey;
    eph ← draw; rat ← draw;
    si ← lift (wrap_err (λ e, EWrap "client: establishing a session" (ERatchet e)) (InitiateSession dhPriv b.1 eph rat));
    mret (si.1, Some si.2)
  end.
Definition prepareCopy (m : Member) (ownServer plaintext wireID : bytes) : proc preparedCopy :=
  endpoint ← endpointOn (AccountID m) (route (MServer m) ownServer);
  si ← session_for_copy (AccountID m) endpoint;
  let '(session, initial) := si in
  let '(session, enc) := Encrypt session plaintext in
  hc ← lift (wrap_err (λ e, EWrap "client: encrypting" (ERatchet e)) enc);
  let payload := MarshalPayload (NewEnvelopeRekey initial hc.1 hc.2 (match initial with Some _ => Some false | None => None end)) in
  _ ← SetSession (AccountID m) Sending session;
  wireID ← (if wireID =?b [] then newMessageID else mret wireID);
  mret (mkCopy m endpoint wireID payload (present initial)).

(** ** Posting *)

Definition post_copy (c : preparedCopy) : proc () := postEnvelope (PcEndpoint c) (PcMessageID c) (PcPayload c).
(** One post per copy. *)
Fixpoint post_each (copies : list preparedCopy) (sent : outcomes) : proc outcomes :=
  match copies with
  | [] => mret sent
  | c :: copies => r ← attempt (post_copy c); post_each copies (<[pc_account c := error_of r]> sent)
  end.
Definition failAll (copies : list preparedCopy) (err : cerr) : outcomes := foldl (λ m c, <[pc_account c := Some err]> m) ∅ copies.
Definition batch_item (c : preparedCopy) : batchItem := mkBatchItem (PcMessageID c) (PeDeviceID (PcEndpoint c)) (PcPayload c).
(** A status that was not reported counts as delivered. *)
Definition item_outcome (status : option bytes) : option cerr :=
  match status with None => None | Some s => if IsDeliveredStatus s then None else Some (EEnqueue s) end.
Fixpoint read_results (byMessage : gmap bytes bytes) (copies : list preparedCopy) (sent : outcomes) : proc outcomes :=
  match copies with
  | [] => mret sent
  | c :: copies =>
    let status := byMessage !! PcMessageID c in
    _ ← (if match status with Some s => IsStaleRecipientStatus s | None => false end
         then _ ← attempt (ForgetPeerDevice (pc_account c)); mret () else mret ());
    read_results byMessage copies (<[pc_account c := item_outcome status]> sent)
  end.
(** The request of a batch, or the error that keeps it from being built. *)
Definition batch_request (server : bytes) (items : list batchItem) : proc (request + cerr) :=
  if server =?b [] then mret (inl (POST (lit "/v1/messages/batch") [] (json_Marshal (mkBatchBody items)) authDevice))
  else
    id ← attempt Identity;
    match id with
    | inr e => mret (inr (EWrap "reading this device's identity" e))
    | inl id =>
      t ← now;
      cert ← attempt (msg (signDeviceCert id (utc t)));
      mret (match cert with
            | inl cert => inl (POST (lit "/v1/federation/messages/batch") server
                (json_Marshal (mkFederatedBatch (MyAccountID id) (b64_encode (MyRootPub id)) cert items)) authFederated)
            | inr e => inr (EWrap "signing this device's certificate" e)
            end)
    end.
Definition sendBatch (server : bytes) (copies : list preparedCopy) : proc outcomes :=
  req ← batch_request server (batch_item <$> copies);
  match req with
  | inr e => mret (failAll copies e)
  | inl req =>
    resp ← attempt (do_into (R := batchResponse) req);
    match resp with
    | inr _ => post_each copies ∅
    | inl resp => read_results (foldl (λ m r, <[r.1 := r.2]> m) ∅ (BrResults resp)) copies ∅
    end
  end.
Fixpoint send_batches (server : bytes) (batches : list (list preparedCopy)) (sent : outcomes) : proc outcomes :=
  match batches with
  | [] => mret sent
  | b :: batches => r ← sendBatch server b; send_batches server batches (r ∪ sent)
  end.
Definition batch_size (server : bytes) (copies : list preparedCopy) : proc Z :=
  if 1 <? zlen copies then
    st ← attempt (ServerStatus_of server);
    mret (match st with
          | inl st => if BatchMessages st then if MaxBatchMessages st <=? 0 then 1 else MaxBatchMessages st else 1
          | inr _ => 1
          end)
  else mret 1.
Definition deliverToServer (server : bytes) (copies : list preparedCopy) : proc outcomes :=
  size ← batch_size server copies;
  if 1 <? size then send_batches server (chunks size copies) ∅ else post_each copies ∅.

(** ** [fanOut] *)

(** The copies, and a record for every recipient that is not blocked. *)
Fixpoint prepare_all (ownServer : bytes) (encode : Member → bytes) (wireIDs : gmap bytes bytes) (recipients : list Member)
    : proc (list preparedCopy * list GroupDelivery) :=
  match recipients with
  | [] => mret ([], [])
  | m :: recipients =>
    blocked ← IsPeerBlocked (AccountID m);
    if (blocked : bool) then prepare_all ownServer encode wireIDs recipients
    else
      r ← attempt (prepareCopy m ownServer (encode m) (default [] (wireIDs !! AccountID m)));
      rest ← prepare_all ownServer encode wireIDs recipients;
      mret (match r with
            | inl c => (c :: rest.1, mkDelivery (AccountID m) (PcMessageID c) SendPending [] [] false :: rest.2)
            | inr e => (rest.1, mkDelivery (AccountID m) [] SendFailed (lit "preparing their copy: " ++ error_text e) [] false :: rest.2)
            end)
  end.
Fixpoint post_servers (servers : list bytes) (copies : list preparedCopy) (posted : outcomes) : proc outcomes :=
  match servers with
  | [] => mret posted
  | s :: servers => r ← deliverToServer s (List.filter (λ c, pc_server c =?b s) copies); post_servers servers copies (r ∪ posted)
  end.
Definition was_sent (posted : outcomes) (account : bytes) : bool := match posted !! account with Some None => true | _ => false end.
(** A session built for a copy that did not leave goes with it. *)
Definition drop_unannounced (posted : outcomes) (copies : list preparedCopy) : proc () :=
  for_each (λ c, if PcEstablished c && negb (was_sent posted (pc_account c)) then DeleteSession (pc_account c) Sending else mret ()) copies.
(** The outcome on the record, and a snapshot owed to who got nothing. *)
Definition settled_delivery (posted : outcomes) (d : GroupDelivery) : GroupDelivery :=
  if was_sent posted (GdAccountID d) then mkDelivery (GdAccountID d) (GdWireMessageID d) SendSent [] [] (GdSkipped d)
  else let r := postFailureReason posted (GdAccountID d) in mkDelivery (GdAccountID d) (GdWireMessageID d) SendFailed r.1 r.2 (GdSkipped d).
Fixpoint settle (groupID : bytes) (posted : outcomes) (deliveries : list GroupDelivery) : proc (list GroupDelivery) :=
  match deliveries with
  | [] => mret []
  | d :: deliveries =>
    if negb (GdState d =?b SendPending) then rest ← settle groupID posted deliveries; mret (d :: rest)
    else
      _ ← (if was_sent posted (GdAccountID d) then mret () else oweGroupSnapshot groupID (GdAccountID d));
      rest ← settle groupID posted deliveries; mret (settled_delivery posted d :: rest)
  end.
Definition fanOut (groupID : bytes) (encode : Member → bytes) (recipients : list Member) (wireIDs : gmap bytes bytes) : proc (list GroupDelivery) :=
  id ← Identity;
  cd ← prepare_all (MyServer id) encode wireIDs recipients;
  let '(copies, deliveries) := cd in
  posted ← post_servers (sort_strings (remove_dups (pc_server <$> copies))) copies ∅;
  _ ← drop_unannounced posted copies;
  settle groupID posted deliveries.

(** ** A picture for a group *)

Fixpoint group_endpoints (ownServer : bytes) (recipients : list Member) : proc (list PeerEndpoint) :=
  match recipients with
  | [] => mret []
  | m :: recipients =>
    e ← attempt (endpointOn (AccountID m) (route (MServer m) ownServer));
    rest ← group_endpoints ownServer recipients;
    mret (match e with inl e => e :: rest | inr _ => rest end)
  end.
Fixpoint upload_servers (servers : list bytes) (endpoints : list PeerEndpoint) (media : OutgoingMedia) (refs : gmap bytes Attachment)
    : proc (gmap bytes Attachment) :=
  match servers with
  | [] => mret refs
  | s :: servers =>
    let there := List.filter (λ e, PeServer e =?b s) endpoints in
    r ← attempt (UploadAttachment there media);
    upload_servers servers endpoints media (match r with inl att => foldl (λ m e, <[PeAccountID e := att]> m) refs there | inr _ => refs end)
  end.
(** One upload per server, and the reference each member is sent. *)
Definition uploadForGroup (recipients : list Member) (media : OutgoingMedia) : proc (gmap bytes Attachment) :=
  id ← Identity;
  endpoints ← group_endpoints (MyServer id) recipients;
  if zlen endpoints =? 0 then fail (EMsg "client: no reachable recipient for the attachment")
  else
    refs ← upload_servers (sort_strings (remove_dups (PeServer <$> endpoints))) endpoints media ∅;
    if decide (refs = ∅) then fail (EMsg "client: no server would store the attachment") else mret refs.

(** ** A message to a group *)

Definition recordDeliveries (groupID messageID : bytes) (deliveries : list GroupDelivery) : proc () :=
  for_each (λ d, on_log groupID (λ f, SetGroupDelivery f messageID d)) deliveries.
(** Delivered to somebody is delivered. *)
Definition overall (deliveries : list GroupDelivery) : bytes := if existsb (λ d, GdState d =?b SendSent) deliveries then SendSent else SendFailed.
Definition pending_for (m : Member) : GroupDelivery := mkDelivery (AccountID m) [] SendPending [] [] false.
Definition composed_group_line (id text : bytes) (opts : SendOptions) (t : Time) (recipients : list Member) : Message :=
  with_deliveries (composed_line id text opts t) (pending_for <$> recipients).
(** The membership one may send to. *)
Definition open_membership (groupID : bytes) : proc Resolved :=
  r ← GroupMembership groupID;
  match r with
  | None => fail (EMsg "client: no facts about the group")
  | Some r => if Dissolved r then fail (EMsg "client: the group has been dissolved") else mret r
  end.
Definition touch_group (groupID : bytes) (t : Time) : proc () :=
  chat ← LoadGroupChat groupID;
  let c := default (new_chat groupID) chat in
  PutGroupChat (mkGroupChat (GcGroupID c) (Some t) (GcHasUnread c) (GcMemberReceipts c)).
(** Sends the copies and files what became of them; the line's send state is left to the caller. *)
Definition send_copies (groupID : bytes) (line : Message) (r : Resolved) (sentAt : Time) (recipients : list Member)
    (references : option (gmap bytes Attachment)) (wireIDs : gmap bytes bytes) (claim : option Claim.t)
    (on_error : proc (list GroupDelivery) → proc (list GroupDelivery)) : proc (list GroupDelivery) :=
  deliveries ← on_error (fanOut groupID (groupPlaintextFor line groupID (RStateHash r) sentAt references claim) recipients wireIDs);
  _ ← profileClaimDelivered deliveries claim;
  let deliveries := markAttachmentSkipped deliveries (present references) references in
  _ ← recordDeliveries groupID (MID line) deliveries;
  mret deliveries.

Definition SendGroupText (groupID text : bytes) (opts : SendOptions) : proc SendResult :=
  t ← (match SoNow opts with Some t => mret t | None => now end);
  let t := receiptClock t in
  id ← Identity;
  r ← open_membership groupID;
  if negb (match memberOf (Some r) (MyAccountID id) with Some m => Joined m | None => false end)
  then fail (EMsg "client: not a joined member of the group")
  else
    messageID ← newMessageID;
    let recipients := joinedMembers r (MyAccountID id) in
    _ ← (match SoMedia opts with
         | Some m => _ ← WriteAttachmentFile groupID messageID (OmBytes m); WriteAttachmentThumb groupID messageID (OmThumb m)
         | None => mret ()
         end);
    let line := composed_group_line messageID text opts t recipients in
    _ ← append_message groupID line;
    references ← (match SoMedia opts with
                  | None => mret None
                  | Some m =>
                    refs ← attempt (uploadForGroup recipients m);
                    match refs with
                    | inl refs => mret (Some refs)
                    | inr e =>
                      mk ← attempt (on_log groupID (λ f, SetMessageSendState f messageID SendFailed));
                      fail (match mk with inl _ => e | inr _ => EWrap "and marking it failed" e end)
                    end
                  end);
    claim ← profileClaimForAny (memberAccountIDs recipients);
    deliveries ← send_copies groupID line r t recipients references ∅ claim (λ m, m);
    _ ← on_log groupID (λ f, SetMessageSendState f messageID (overall deliveries));
    _ ← touch_group groupID t;
    mret (mkSendResult (with_state (with_deliveries line deliveries) (overall deliveries)) false false).

(** The records of members that are no longer owed their copy are settled; the others are retried. *)
Fixpoint owed_copies (groupID messageID : bytes) (joined : list Member) (deliveries : list GroupDelivery) : proc (list GroupDelivery * list Member) :=
  match deliveries with
  | [] => mret ([], [])
  | d :: deliveries =>
    if GdState d =?b SendSent then rest ← owed_copies groupID messageID joined deliveries; mret (d :: rest.1, rest.2)
    else match member_entry joined (GdAccountID d) with
         | Some m => rest ← owed_copies groupID messageID joined deliveries; mret (d :: rest.1, m :: rest.2)
         | None =>
           let d := mkDelivery (GdAccountID d) (GdWireMessageID d) SendSent [] (GdDetail d) (GdSkipped d) in
           _ ← on_log groupID (λ f, SetGroupDelivery f messageID d);
           rest ← owed_copies groupID messageID joined deliveries; mret (d :: rest.1, rest.2)
         end
  end.
Definition wire_ids (deliveries : list GroupDelivery) : gmap bytes bytes :=
  foldl (λ m d, if GdWireMessageID d =?b [] then m else <[GdAccountID d := GdWireMessageID d]> m) ∅ deliveries.
(** The records of this attempt in the order of the transcript. *)
Definition merged (before attempt : list GroupDelivery) : list GroupDelivery :=
  (λ d, default d (List.find (λ x, GdAccountID x =?b GdAccountID d) (reverse attempt))) <$> before.
Definition RetryGroupMessage (groupID messageID : bytes) : proc SendResult :=
  msgs ← read_log groupID Messages;
  match find_line messageID msgs with
  | None => fail (EMsg "client: no such message in the group")
  | Some line =>
    if MSendState line =?b SendPending then fail (EMsg "client: the message is still sending")
    else
      id ← Identity;
      r ← open_membership groupID;
      dr ← owed_copies groupID messageID (joinedMembers r (MyAccountID id)) (MDeliveries line);
      let line := with_deliveries line dr.1 in
      match dr.2 with
      | [] => _ ← on_log groupID (λ f, SetMessageSendState f messageID SendSent); mret (mkSendResult (with_state line SendSent) false false)
      | recipients =>
        references ← (match MAttachments line with
                      | [att] =>
                        if AtBlobID att =?b [] then
                          b ← AttachmentFile groupID messageID;
                          match b with
                          | None => fail (EIs ErrAttachmentNotResendable)
                          | Some b => refs ← uploadForGroup recipients (media_of b att); mret (Some refs)
                          end
                        else mret None
                      | _ => mret None
                      end);
        _ ← on_log groupID (λ f, SetMessageSendState f messageID SendPending);
        claim ← profileClaimForAny (memberAccountIDs recipients);
        deliveries ← send_copies groupID line r (MTimestamp line) recipients references (wire_ids (MDeliveries line)) claim (or_mark_failed groupID messageID);
        let final := merged (MDeliveries line) deliveries in
        _ ← on_log groupID (λ f, SetMessageSendState f messageID (overall final));
        mret (mkSendResult (with_state (with_deliveries line final) (overall final)) false false)
      end
  end.
End groupsend.
