(* ===== verification/ClientGroupTalk.v ===== *)
(** * pkg/client/groupsend.go: facts and receipts of a group

    Telling the members of new facts, handing somebody the whole set, asking for it,
    answering a peer whose view differs, settling the debts of earlier failures, and
    confirming what arrived to the member that wrote it. *)

From S2P Require Import Prelude GoStr GoTime GoTimeParse Sha256 Crypto Base64 Bech32m Address DeviceCert HttpSig Delivery Federation Prekeys Accounts Resolve.
From S2P Require Import GroupEvent GroupState GroupResolve ProfileClaim Ratchet RatchetCorrect ClientLog ClientDedup ClientTranscript Envelope ClientState ClientProfile ClientGroups ClientReceive ClientNet ClientBlobs ClientSend ClientGroupSend.

(** ** Whom to ask *)

(** The founder if they joined, else the first other member that did. *)
Definition syncTargetFor (r : Resolved) (except : bytes) : option Member :=
  let joined := joinedMembers r except in
  match List.find (λ m, AccountID m =?b Founder r) joined with Some m => Some m | None => head joined end.

(** ** What is to be confirmed *)

Definition receiptAnchorOf (m : Message) : Time := default (MTimestamp m) (MSenderSentAt m).
Definition newer (anchor : Time) (at_ : option Time) : bool := match at_ with None => true | Some t => after anchor t end.
Definition newest_of (newest : gmap bytes Time) (m : Message) : gmap bytes Time :=
  if MMine m || (MSenderAccountID m =?b []) || negb (MKind m =?b MessageNormal) then newest
  else if newer (receiptAnchorOf m) (newest !! MSenderAccountID m) then <[MSenderAccountID m := receiptAnchorOf m]> newest else newest.
(** One anchor per author, the author's own newest, in the order of the account ids. *)
Definition newestPerGroupAuthor (msgs : list Message) : list (bytes * Time) :=
  let newest := foldl newest_of ∅ msgs in
  omap (λ account, t ← newest !! account; Some (account, t)) (sort_strings (map_to_list newest).*1).
Definition newest_from (newest : option Time) (m : Message) : option Time :=
  if MMine m || negb (MKind m =?b MessageNormal) then newest
  else if newer (receiptAnchorOf m) newest then Some (receiptAnchorOf m) else newest.
Definition newestFromPeer (msgs : list Message) : option Time := foldl newest_from None msgs.
Definition sentReceiptUpTo (receipt : MemberReceipt) (status : ReceiptStatus) : option Time :=
  match status with ReceiptRead => MrSentRead receipt | ReceiptDelivered => MrSentDelivered receipt end.
Definition with_sent_receipt (receipt : MemberReceipt) (status : ReceiptStatus) (at_ : Time) : MemberReceipt :=
  match status with
  | ReceiptDelivered => mkMemberReceipt (MrDeliveredUpTo receipt) (MrReadUpTo receipt) (Some at_) (MrSentRead receipt)
  | ReceiptRead => mkMemberReceipt (MrDeliveredUpTo receipt) (MrReadUpTo receipt) (MrSentDelivered receipt) (Some at_)
  end.

Section talk.
Context {UC : UnicodeCase} {NW : Network} {ED : Ed25519} {XC : X25519} {HK : HKDF} {AE : AEAD} {QU : Quote} {WF : WireFormats}.
Context {JC : Json contentWire} {JA : Json attachmentWire} {JV : Json Envelope} {JL : Json logRecord} {JU : Json uploadResponse} {JE : Json (list (option Event))}.

(** ** One plaintext to one member *)

Definition sendGroupControl (m : Member) (ownServer plaintext : bytes) : proc () :=
  blocked ← IsPeerBlocked (AccountID m);
  if (blocked : bool) then fail (EIs ErrPeerBlocked)
  else
    c ← prepareCopy m ownServer plaintext [];
    r ← attempt (post_copy c);
    match r with
    | inl _ => mret ()
    | inr e => _ ← (if PcEstablished c then DeleteSession (AccountID m) Sending else mret ()); fail e
    end.

(** ** Facts *)

Definition or_owe (groupID account : bytes) (m : proc ()) : proc () :=
  r ← attempt m; match r with inl _ => mret () | inr _ => oweGroupSnapshot groupID account end.
Definition BroadcastGroupEvents (groupID : bytes) (events : list (option Event)) (skip : list bytes) : proc () :=
  r ← GroupMembership groupID;
  match r with
  | None => mret ()
  | Some r =>
    id ← Identity;
    let plaintext := encodeGroupControl GroupEvents groupID (RStateHash r) events in
    for_each (λ m, if bool_decide (AccountID m ∈ MyAccountID id :: skip) then mret ()
                   else or_owe groupID (AccountID m) (sendGroupControl m (MyServer id) plaintext)) (Members r)
  end.
Definition SendGroupSnapshot (groupID toAccountID : bytes) : proc () :=
  st ← LoadGroupState groupID;
  match st with
  | None => mret ()
  | Some st =>
    let r := Resolve st in
    match memberOf (Some r) toAccountID with
    | None => fail (EMsg "client: not a member of the group")
    | Some m =>
      id ← Identity;
      _ ← sendGroupControl m (MyServer id) (encodeGroupControl GroupSnapshot groupID (RStateHash r) (Some <$> Events st));
      clearGroupSnapshotDebt groupID toAccountID
    end
  end.
Definition AskForGroupFacts (groupID peerAccountID peerServer : bytes) : proc () :=
  t ← now;
  asked ← markGroupSyncRequested groupID (utc t);
  if (asked : bool) then mret ()
  else
    id ← Identity;
    server ← (if peerServer =?b [] then
                convo ← attempt (LoadConversation peerAccountID);
                mret (match convo with inl (Some c) => PeerServer c | _ => [] end)
              else mret peerServer);
    sendGroupControl (bare_member peerAccountID server) (MyServer id) (encodeGroupControl GroupSyncRequest groupID [] []).
Definition groupSyncWorthAsking (groupID ours : bytes) : proc bool :=
  if ours =?b [] then mret true
  else
    hashes ← GroupPeerStateHashes groupID;
    let theirs := (map_to_list hashes).*2 in
    mret ((zlen theirs =? 0) || existsb (λ h, negb (h =?b []) && negb (h =?b ours)) theirs).
Definition RequestGroupSync (groupID : bytes) : proc () :=
  r ← GroupMembership groupID;
  match r with
  | None => mret ()
  | Some r =>
    if Dissolved r then mret ()
    else
      id ← Identity;
      match syncTargetFor r (MyAccountID id) with
      | None => mret ()
      | Some target =>
        worth ← groupSyncWorthAsking groupID (RStateHash r);
        if (worth : bool) then AskForGroupFacts groupID (AccountID target) (MServer target) else mret ()
      end
  end.
(** Whether an envelope that states [hash] wants an answer: asked for, or a foreign hash not answered yet. *)
Definition wants_answer (o : GroupOutcome) (peerAccountID ours : bytes) : proc bool :=
  if OWantsSnapshot o then mret true
  else if (OPeerStateHash o =?b []) || (OPeerStateHash o =?b ours) then mret false
  else answered ← markGroupHashAnswered (OGroupID o) peerAccountID (OPeerStateHash o); mret (negb answered).
Definition ReconcileGroup (o : GroupOutcome) (peerAccountID : bytes) : proc () :=
  if OGroupID o =?b [] then mret ()
  else
    st ← LoadGroupState (OGroupID o);
    match st with
    | None => AskForGroupFacts (OGroupID o) peerAccountID []
    | Some st =>
      let r := Resolve st in
      due ← wants_answer o peerAccountID (RStateHash r);
      if negb due then mret ()
      else match memberOf (Some r) peerAccountID with
           | None => mret ()
           | Some _ => or_owe (OGroupID o) peerAccountID (SendGroupSnapshot (OGroupID o) peerAccountID)
           end
    end.

(** ** Debts *)

(** The debts of one group: how many were paid, and the accounts that are gone. *)
Fixpoint pay_debts (groupID : bytes) (r : option Resolved) (owed : list bytes) : proc (Z * list bytes) :=
  match owed with
  | [] => mret (0, [])
  | account :: owed =>
    match memberOf r account with
    | None => _ ← clearGroupSnapshotDebt groupID account; pay_debts groupID r owed
    | Some m =>
      sent ← attempt (SendGroupSnapshot groupID account);
      match sent with
      | inl _ => rest ← pay_debts groupID r owed; mret (rest.1 + 1, rest.2)
      | inr _ =>
        absent ← attempt (accountIsGone (MServer m) account);
        match absent with
        | inl true =>
          _ ← clearGroupSnapshotDebt groupID account;
          t ← now; _ ← recordMemberGone groupID account t;
          rest ← pay_debts groupID r owed; mret (rest.1, account :: rest.2)
        | _ => pay_debts groupID r owed
        end
      end
    end
  end.
Fixpoint pay_groups (groups : list bytes) : proc (Z * list bytes) :=
  match groups with
  | [] => mret (0, [])
  | g :: groups =>
    p ← groupPeersFor g;
    r ← GroupMembership g;
    here ← pay_debts g r (sort_strings (elements (Owed p)));
    rest ← pay_groups groups; mret (here.1 + rest.1, here.2 ++ rest.2)
  end.
Definition PayGroupSnapshotDebts : proc (Z * list bytes) := groups ← Groups; pay_groups groups.

(** ** Receipts *)

Definition SendGroupReceipt (groupID toAccountID : bytes) (status : ReceiptStatus) (upTo : Time) : proc () :=
  on ← ReceiptsEnabled;
  if negb on then mret ()
  else
    r ← GroupMembership groupID;
    match memberOf r toAccountID with
    | None => mret ()
    | Some m =>
      id ← Identity;
      let upTo := utc upTo in
      chat ← LoadGroupChat groupID;
      let told := match chat with Some c => sentReceiptUpTo (default no_receipt (GcMemberReceipts c !! toAccountID)) status | None => None end in
      if negb (moves upTo told) then mret ()
      else
        claim ← profileClaimFor toAccountID;
        _ ← sendGroupControl m (MyServer id) (json_Marshal (receipt_body status upTo groupID claim));
        _ ← profileClaimSent toAccountID claim;
        chat ← LoadGroupChat groupID;
        match chat with
        | None => mret ()
        | Some c =>
          PutGroupChat (mkGroupChat (GcGroupID c) (GcLastActivityAt c) (GcHasUnread c)
            (<[toAccountID := with_sent_receipt (default no_receipt (GcMemberReceipts c !! toAccountID)) status upTo]> (GcMemberReceipts c)))
        end
    end.
(** Counts the calls that did not fail. *)
Definition counted (m : proc ()) : proc Z := r ← attempt m; mret (match r with inl _ => 1 | inr _ => 0 end).
(** Delivered, and read as well unless something is unread. *)
Definition both_receipts (send : ReceiptStatus → proc ()) (unread : bool) : proc Z :=
  d ← counted (send ReceiptDelivered);
  if unread then mret d else r ← counted (send ReceiptRead); mret (d + r).
Fixpoint resend_direct (convos : list Conversation) : proc Z :=
  match convos with
  | [] => mret 0
  | c :: convos =>
    msgs ← read_log (PeerAccountID c) Messages;
    n ← (match newestFromPeer msgs with
         | None => mret 0
         | Some upTo => both_receipts (λ st, SendReceipt (PeerAccountID c) st upTo) (HasUnread c)
         end);
    rest ← resend_direct convos; mret (n + rest)
  end.
Fixpoint resend_authors (groupID : bytes) (unread : bool) (authors : list (bytes * Time)) : proc Z :=
  match authors with
  | [] => mret 0
  | a :: authors =>
    n ← both_receipts (λ st, SendGroupReceipt groupID a.1 st a.2) unread;
    rest ← resend_authors groupID unread authors; mret (n + rest)
  end.
Fixpoint resend_groups (groups : list bytes) : proc Z :=
  match groups with
  | [] => mret 0
  | g :: groups =>
    msgs ← read_log g Messages;
    chat ← LoadGroupChat g;
    n ← resend_authors g (match chat with Some c => GcHasUnread c | None => false end) (newestPerGroupAuthor msgs);
    rest ← resend_groups groups; mret (n + rest)
  end.
Definition ResendPendingReceipts : proc Z :=
  on ← ReceiptsEnabled;
  if negb on then mret 0
  else
    convos ← Conversations;
    direct ← resend_direct convos;
    groups ← Groups;
    rest ← resend_groups groups; mret (direct + rest).
End talk.
