(* ===== verification/ClientGroupActions.v ===== *)
(** * pkg/client/groupactions.go: what a member does to a group

    An action is an event, signed by this device or by the key of the group, folded into
    the own facts and told to the members. *)

From S2P Require Import Prelude GoStr GoTime GoTimeParse Sha256 Crypto Base64 Bech32m Address DeviceCert HttpSig Delivery Federation Prekeys Accounts Resolve.
From S2P Require Import GroupEvent GroupState GroupResolve ProfileClaim Ratchet RatchetCorrect ClientLog ClientDedup ClientTranscript Envelope ClientState ClientProfile ClientGroups ClientReceive ClientNet ClientBlobs ClientSend ClientGroupSend ClientGroupTalk.

(** An event of a type with the fields it has; the group, the time and the signature follow. *)
Definition draft (t : EventType) (subject server : bytes) (role : GroupEvent.Role) (name topic : bytes) : Event :=
  mkEvent t [] zero_time [] [] subject server role name topic None [].
Definition stamped (e : Event) (groupID : bytes) (issuedAt : Time) : Event :=
  mkEvent (Type_ e) groupID issuedAt (RootPubKey e) (Nonce e) (Subject e) (Server e) (Role_ e) (Name e) (Topic e) (Signer_ e) (Signature e).
(** The kinds that have to change the membership to have meant anything. *)
Definition mustTakeEffect (t : EventType) : bool :=
  bool_decide (t ∈ [EventMemberAdd; EventMemberRemove; EventJoinAccept; EventLeave; EventDissolve]).
Definition without_hash (r : Resolved) : Resolved :=
  mkResolved (RGroupID r) (Founder r) (CreatedAt r) (RName r) (RTopic r) (Members r) (Dissolved r) (DissolvedAt r) [].
(** [PrivateKey.Seed]: slices the first 32 bytes. *)
Definition ed25519_Seed {E} (priv : bytes) : res E bytes := if zlen priv <? 32 then Panic else Ok (take 32 priv).

Section actions.
Context {UC : UnicodeCase} {NW : Network} {ED : Ed25519} {XC : X25519} {HK : HKDF} {AE : AEAD} {QU : Quote} {WF : WireFormats}.
Context {JC : Json contentWire} {JA : Json attachmentWire} {JV : Json Envelope} {JL : Json logRecord} {JU : Json uploadResponse} {JE : Json (list (option Event))}.
Context {JR : Json Resolved}.

Definition foldPrint (st : State) : bytes := json_Marshal (without_hash (Resolve st)).
(** The clock of group events, truncated to the second. *)
Definition groupNow : proc Time := t ← now; mret (mkTime (t_sec t) 0 None 0).

Definition signGroupEvent (groupID : bytes) (e : Event) : proc Event :=
  id ← Identity;
  at_ ← groupNow;
  t ← now;
  cert ← msg (wrap_err (λ _, "client: signing device certificate"%string)
                (DeviceCertificate.SignDeviceCertificate (MyAccountID id) (MyDeviceID id) (MyDevicePub id) (utc t) (MyRootPriv id)));
  msg (wrap_err (λ _, "client: signing group event"%string)
         (SignDevice (stamped e groupID at_) (Some (Signer.mk (MyAccountID id) (MyRootPub id) cert)) (MyDevicePriv id))).
(** Folds an own event in, and refuses one that is rejected or without the effect it must have. *)
Definition applyOwnGroupEvents (groupID : bytes) (e : Event) : proc () :=
  stored ← LoadGroupState groupID;
  match stored with
  | None => fail (EMsg "client: no facts about the group")
  | Some st =>
    sr ← msg (Apply st [Some e]);
    match Rejected sr.2 with
    | _ :: _ => fail (EMsg "client: not allowed")
    | [] =>
      if mustTakeEffect (Type_ e) && (foldPrint sr.1 =?b foldPrint st)
      then fail (EMsg "client: had no effect -- this account is not allowed to do that")
      else PutGroupState groupID sr.1
    end
  end.
(** Signed, applied, told. *)
Definition act (groupID : bytes) (e : Event) : proc () :=
  e ← signGroupEvent groupID e; _ ← applyOwnGroupEvents groupID e; BroadcastGroupEvents groupID [Some e] [].

Definition SetGroupMeta (groupID name topic : bytes) : proc () := act groupID (draft EventMeta [] [] 0 name topic).
Definition SetGroupRole (groupID accountID : bytes) (role : GroupEvent.Role) (grant : bool) : proc () :=
  act groupID (draft (if grant then EventRoleGrant else EventRoleRevoke) accountID [] role [] []).
Definition AcceptGroupInvitation (groupID : bytes) : proc () := id ← Identity; act groupID (draft EventJoinAccept (MyAccountID id) [] 0 [] []).
(** Told first, then applied. *)
Definition LeaveGroup (groupID : bytes) : proc () :=
  id ← Identity;
  e ← signGroupEvent groupID (draft EventLeave (MyAccountID id) [] 0 [] []);
  _ ← BroadcastGroupEvents groupID [Some e] [];
  applyOwnGroupEvents groupID e.

(** Tells an account the member list no longer has. *)
Definition sendGroupEventTo (groupID accountID : bytes) (e : Event) : proc () :=
  st ← LoadGroupState groupID;
  match st with
  | None => mret ()
  | Some st =>
    id ← Identity;
    convo ← attempt (LoadConversation accountID);
    let server := match convo with inl (Some c) => PeerServer c | _ => [] end in
    cached ← attempt (peerDevice accountID);
    let server := match cached with inl (Some d) => if server =?b [] then Df_Server d else server | _ => server end in
    sendGroupControl (bare_member accountID server) (MyServer id) (encodeGroupControl GroupEvents groupID (RStateHash (Resolve st)) [Some e])
  end.
Definition RemoveFromGroup (groupID accountID : bytes) : proc () :=
  e ← signGroupEvent groupID (draft EventMemberRemove accountID [] 0 [] []);
  _ ← applyOwnGroupEvents groupID e;
  _ ← attempt (sendGroupEventTo groupID accountID e);
  BroadcastGroupEvents groupID [Some e] [accountID].
Definition InviteToGroup (groupID addressOrPrefix server : bytes) : proc () :=
  p ← lookup_peer addressOrPrefix server;
  _ ← putPeerDevice (PeAccountID p) (PeServer p) (PeDeviceID p) (PeDevicePub p);
  memberServer ← (if server =?b [] then id ← Identity; mret (MyServer id) else mret server);
  e ← signGroupEvent groupID (draft EventMemberAdd (PeAccountID p) memberServer 0 [] []);
  _ ← applyOwnGroupEvents groupID e;
  _ ← or_owe groupID (PeAccountID p) (SendGroupSnapshot groupID (PeAccountID p));
  BroadcastGroupEvents groupID [Some e] [PeAccountID p].

(** The key of the group: derived from the account's seed and the nonce of the genesis, never stored. *)
Definition group_root_key (id : OwnIdentity) (nonce : bytes) : proc bytes :=
  seed ← msg (ed25519_Seed (MyRootPriv id)); msg (wrap_err (λ _, "client: deriving group key"%string) (DeriveRootKey hkdf seed nonce)).
Definition CreateGroup (name : bytes) : proc bytes :=
  id ← Identity;
  r ← draw;
  nonce ← msg (NewNonce (λ n, take (Z.to_nat n) <$> r));
  rootPriv ← group_root_key id nonce;
  let rootPub := ed25519_Public rootPriv in
  groupID ← msg (GroupEvent.DeriveID rootPub);
  at_ ← groupNow;
  genesis ← msg (wrap_err (λ _, "client: signing genesis"%string)
                   (SignRoot (mkEvent EventGenesis groupID at_ rootPub nonce (MyAccountID id) (MyServer id) 0 [] [] None []) rootPriv));
  sr ← msg (Apply NewState [Some genesis]);
  match Rejected sr.2 with
  | _ :: _ => fail (EMsg "client: own genesis rejected")
  | [] =>
    _ ← PutGroupState groupID sr.1;
    _ ← PutGroupChat (new_chat groupID);
    _ ← (if name =?b [] then mret () else SetGroupMeta groupID name []);
    mret groupID
  end.
Definition DissolveGroup (groupID : bytes) : proc () :=
  stored ← LoadGroupState groupID;
  match stored with
  | None => fail (EMsg "client: no facts about the group")
  | Some st =>
    match Genesis_in (map_to_list (events st)) with
    | None => fail (EMsg "client: the group has no genesis")
    | Some genesis =>
      id ← Identity;
      rootPriv ← group_root_key id (Nonce genesis);
      if negb (ed25519_Public rootPriv =?b rootPubKey st) then fail (EMsg "client: only the founder can dissolve the group")
      else
        at_ ← groupNow;
        e ← msg (wrap_err (λ _, "client: signing dissolve"%string) (SignRoot (stamped (draft EventDissolve [] [] 0 [] []) groupID at_) rootPriv));
        _ ← applyOwnGroupEvents groupID e;
        BroadcastGroupEvents groupID [Some e] []
    end
  end.
End actions.
