(* ===== verification/ClientReports.v ===== *)
(** * pkg/client/reports.go: reporting an account to an operator

    A report carries the claims the reported account signed about itself, to the own
    server and, on request, to theirs; what becomes of the second one at the handlers of
    [Reports]. *)

From S2P Require Import Prelude Address Config Store FederationCorrect AccountsCorrect Reports ReportsCorrect.
From S2P Require Import Prelude GoStr GoTime GoTimeParse Sha256 Crypto Base64 Bech32m Address DeviceCert HttpSig Delivery Federation Prekeys Accounts Resolve.
From S2P Require Import GroupEvent GroupState GroupResolve ProfileClaim Ratchet RatchetCorrect ClientLog ClientDedup ClientTranscript Envelope ClientState ClientProfile ClientGroups ClientReceive ClientNet.

(** [ReportCategory] is a string, as the caller passes it. *)
Definition ReportSpam : bytes := lit "spam".
Definition ReportHarassment : bytes := lit "harassment".
Definition ReportFraud : bytes := lit "fraud".
Definition ReportOther : bytes := lit "other".
Definition ValidReportCategory (c : bytes) : bool := bool_decide (c ∈ [ReportSpam; ReportHarassment; ReportFraud; ReportOther]).
Definition ErrReportsUnavailable : cerr := EMsg "client: this server does not accept reports".
Record ReportOptions := mkReportOptions { AlsoTellTheirServer : bool }.

(** The bodies: to the own server, the sender block of a federated call, and that block with the report. *)
Record reportBody := mkReportBody { RbReported : bytes; RbCategory : bytes; RbEvidence : list Claim.t }.
Record federatedSenderBody := mkSenderBody { SbAccountID : bytes; SbRootPubKey : bytes; SbDeviceCert : federationDeviceCertDTO }.
Record federatedReportBody := mkFederatedReport { FrSender : federatedSenderBody; FrServer : bytes; FrReport : reportBody }.
Class ReportFormats := {
  #[export] rf_report :: Json reportBody; #[export] rf_sender :: Json federatedSenderBody; #[export] rf_federated :: Json federatedReportBody;
}.

Section reports.
Context {UC : UnicodeCase} {NW : Network} {ED : Ed25519} {WF : WireFormats} {RF : ReportFormats}.

Definition reportEvidence (peer : bytes) : proc (list Claim.t) :=
  p ← readProfile peer; mret (match p with Some f => Pf_Claims f | None => [] end).
Definition reportError (e : cerr) : cerr :=
  match as_api e with Some (_, code) => if code =?b lit "reports_disabled" then ErrReportsUnavailable else e | None => e end.
Definition or_report_error {A} (m : proc A) : proc A := r ← attempt m; match r with inl x => mret x | inr e => fail (reportError e) end.
(** By the code, not by the status: a server without reports answers 404 as well. *)
Definition ignoreNoSuchReport (m : proc ()) : proc () :=
  r ← attempt m;
  match r with
  | inl _ => mret ()
  | inr e =>
    match as_api e with
    | Some (status, code) => if (status =? 404) && (code =?b lit "not_found") then mret () else fail e
    | None => fail e
    end
  end.
Definition senderBody (id : OwnIdentity) (cert : federationDeviceCertDTO) : federatedSenderBody :=
  mkSenderBody (MyAccountID id) (b64_encode (MyRootPub id)) cert.
Definition postFederatedReport (server : bytes) (report : reportBody) : proc () :=
  id ← Identity;
  t ← now;
  cert ← msg (signDeviceCert id (utc t));
  do_ (POST (lit "/v1/federation/reports") server (json_Marshal (mkFederatedReport (senderBody id cert) (MyServer id) report)) authFederated).
Definition reported_as (p : PeerEndpoint) : bytes := Address_String (mkAddress (PeAccountID p) (PeServer p)).

Definition Report (peer category : bytes) (opts : ReportOptions) : proc () :=
  if negb (ValidReportCategory category) then fail (EMsg "client: not a reportable category")
  else
    p ← Endpoint peer;
    id ← Identity;
    if PeAccountID p =?b MyAccountID id then fail (EMsg "client: an account cannot report itself")
    else
      evidence ← reportEvidence peer;
      let report := mkReportBody (reported_as p) category evidence in
      _ ← or_report_error (do_ (POST (lit "/v1/reports") [] (json_Marshal report) authDevice));
      if negb (AlsoTellTheirServer opts) || negb (Federated p) then mret ()
      else or_report_error (postFederatedReport (PeServer p) report).
Definition DELETE (path server : bytes) (body : option bytes) (auth : authMode) : request := mkRequest (lit "DELETE") path [] body server auth false.
Definition WithdrawReport (peer : bytes) : proc () :=
  p ← Endpoint peer;
  _ ← or_report_error (ignoreNoSuchReport (do_ (DELETE (lit "/v1/reports/" ++ reported_as p) [] None authDevice)));
  if negb (Federated p) then mret ()
  else
    id ← Identity;
    t ← now;
    cert ← msg (signDeviceCert id (utc t));
    or_report_error (ignoreNoSuchReport (do_ (DELETE (lit "/v1/federation/reports/" ++ reported_as p) (PeServer p)
      (Some (json_Marshal (senderBody id cert))) authFederated))).
End reports.

(** ** What their server makes of it

    The fields a server decodes from the bodies above; those that are absent are empty. *)

Definition read_report (b : reportBody) : Reports.reportRequest := Reports.mkReportRequest (RbReported b) (RbCategory b) (RbEvidence b).
Definition read_federated (b : federatedReportBody) : Reports.federatedReportRequest :=
  Reports.mkFederatedRequest (read_report (FrReport b)) (SbAccountID (FrSender b)) (FrServer b) (SbRootPubKey (FrSender b)) (SbDeviceCert (FrSender b)).
Definition read_withdrawal (b : federatedSenderBody) : Reports.federatedReportRequest :=
  Reports.mkFederatedRequest (Reports.mkReportRequest [] [] []) (SbAccountID b) [] (SbRootPubKey b) (SbDeviceCert b).

Section their_server.
Context {UC : UnicodeCase} {ED : Ed25519} {NU : NetURL}.
Variables (cfg : ServerConfig.t) (json_claims : list Claim.t → bytes) (f : fed) (vnow now : Time) (r : Request) (raw : bytes) (d : db).

Local Notation I := (λ d', reports d' = reports d).
Lemma refused_keeps {A} (m : handler A) : keeps I I m (λ _ _, False) → is_ok (m d).2 = false ∧ reports (m d).1 = reports d.
Proof. intros H. specialize (H d eq_refl). by destruct (m d) as [d' []]. Qed.
Lemma sender_keeps claim : keeps I I (λ d, verifyFederatedSender d f vnow r claim) (λ _, I).
Proof.
  intros d1 E. pose proof (proj1 (verifyFederatedSender_tables d1 f vnow r claim)) as H. destruct (verifyFederatedSender d1 f vnow r claim) as [d2 []]; cbn in H; congruence.
Qed.
Lemma reported_elsewhere p named reported : Parse named = Ok (mkAddress (PeAccountID p) (PeServer p)) → readable (PeServer p) = true → Federated p = true →
  or_reply (ParseFull (reported_as p)) (bad "invalid_request") = Ok reported → (Address.Server reported =?b []) = false.
Proof.
  intros Hp Hr Hf H. unfold ParseFull, reported_as in H. rewrite (parse_string_roundtrip named _ Hp) in H by (by right). cbn [mbind res_bind] in H.
  destruct (Normalize _) as [i| |]; [|done..]. injection H as <-. cbn [Address.Server]. by apply negb_true_iff.
Qed.

(** C8: the other operator is never told.  The report a client files with the reported account's own server names the account by its
    full address, which that server refuses, as it takes reports about its own accounts only under a bare id; and
    the withdrawal does not name the reporter's home server, which that server requires.  Whatever the state of the
    server, the clock, the signature and the configuration: neither is accepted, and the table stays as it is. *)
Theorem other_operator_never_told id cert p category evidence named :
  Parse named = Ok (mkAddress (PeAccountID p) (PeServer p)) → readable (PeServer p) = true → Federated p = true →
  let filed := Reports.handleCreateFederatedReport cfg json_claims f vnow now r
    (inr (mkRaw raw (Some (read_federated (mkFederatedReport (senderBody id cert) (MyServer id) (mkReportBody (reported_as p) category evidence)))))) d in
  let withdrawn := Reports.handleWithdrawFederatedReport cfg f vnow r (reported_as p) (inr (mkRaw raw (Some (read_withdrawal (senderBody id cert))))) d in
  is_ok filed.2 = false ∧ reports filed.1 = reports d ∧ is_ok withdrawn.2 = false ∧ reports withdrawn.1 = reports d.
Proof.
  intros Hp Hr Hf filed withdrawn.
  cut ((is_ok filed.2 = false ∧ reports filed.1 = reports d) ∧ (is_ok withdrawn.2 = false ∧ reports withdrawn.1 = reports d)); [tauto|]. split.
  - apply refused_keeps. unfold Reports.handleCreateFederatedReport. do 2 kskip. unfold Reports.decoded_report. cbn [mbind res_bind from_option raw_decoded raw_bytes].
    eapply keeps_bind; [apply keeps_hlift; auto|]. intros x d1 [E1 [= <-]]. revert d1 E1. kskip. apply (keeps_bind _ _ _ (λ _, I)); [apply sender_keeps|intros ?].
    eapply keeps_bind; [apply keeps_hlift; auto|]. intros reported d1 [E1 E]. unfold hlift, mbind, handler_bind. cbn [fst snd read_federated read_report Reports.RqReport FrReport Reports.RqReported RbReported] in E.
    rewrite (reported_elsewhere p named reported Hp Hr Hf E). exact E1.
  - apply refused_keeps. unfold Reports.handleWithdrawFederatedReport. do 2 kskip. unfold Reports.decoded_report. cbn [mbind res_bind from_option raw_decoded raw_bytes].
    eapply keeps_bind; [apply keeps_hlift; auto|]. intros x d1 [E1 [= <-]]. revert d1 E1. apply (keeps_bind _ _ _ (λ _, I)); [apply sender_keeps|intros ?]. intros d1 E1. exact E1.
Qed.
End their_server.
