(* ===== verification/ClientGroupSendCorrect.v ===== *)
(** * What a message to a group leaves behind

    Every member that is not blocked has a settled record, who got nothing is owed the
    facts, and no session is kept that the member has not seen established. *)

From S2P Require Import Prelude GoStr GoTime GoTimeParse Sha256 Crypto Base64 Bech32m Address DeviceCert HttpSig Delivery Federation Prekeys Accounts Resolve.
From S2P Require Import GroupEvent GroupState GroupResolve ProfileClaim Ratchet RatchetCorrect ClientLog ClientDedup ClientTranscript Envelope ClientState ClientProfile ClientGroups ClientReceive ClientFrames ClientReceiveCorrect ClientNet ClientBlobs ClientSend ClientSendCorrect.
From S2P Require Import ClientGroupSend ClientGroupTalk.

(** The batches are the copies, each once and in order. *)
Lemma chunks_join {A} n (l : list A) : 0 < n → mjoin (chunks n l) = l.
Proof.
  intros Hn. unfold chunks. assert (∀ fuel (l : list A), (length l ≤ fuel)%nat → mjoin (chunks_from fuel (Z.to_nat n) l) = l) as H; [|by apply H].
  clear l. intros fuel. induction fuel as [|fuel IH]; intros [|x l] Hl; cbn [chunks_from]; try done; [cbn in Hl; lia|].
  rewrite mjoin_cons, IH, take_drop; [done|]. rewrite length_drop. cbn in *. lia.
Qed.

Lemma error_of_inl {A} (r : A + cerr) : error_of r = None → ∃ x, r = inl x.
Proof. destruct r; [eauto|done]. Qed.

(** The facts owed to members of a group. *)
Definition owed (g : bytes) (a : account) : gset bytes := Owed (default no_peers (peers_json (group_of a g))).

Section fan_out.
Context {UC : UnicodeCase} {NW : Network} {ED : Ed25519} {XC : X25519} {HK : HKDF} {AE : AEAD} {QU : Quote} {WF : WireFormats} {BF : BatchFormats}.
Context {JC : Json contentWire} {JA : Json attachmentWire} {JV : Json Envelope} {JL : Json logRecord} {JU : Json uploadResponse} {JE : Json (list (option Event))}.
Context (error_text : cerr → bytes).
Abbreviation sess p := (λ a, session_file Sending (peer_of a p)).

(** ** What the steps leave alone *)

Hint Resolve frames_now frames_lookup_peer frames_accountIsGone frames_ClaimBundle frames_postEnvelope frames_Identity frames_LoadConversation frames_LoadSession
  frames_endpointOn frames_do_into : frames.

Section frames.
Context {B : Type} (f : account → B) `{!off_rng f, !off_outer f, !off_cache f, !∀ c, off_chat f c}.
Lemma frames_session_for_copy p e : frames f (session_for_copy p e).
Proof. unfold session_for_copy, dhIdentityKey. frame. Qed.
Hint Resolve frames_session_for_copy : frames.
Lemma frames_prepareCopy m s x w `{!off_peer f (AccountID m)} : frames f (prepareCopy m s x w).
Proof. unfold prepareCopy, SetSession. frame. Qed.
Lemma frames_post_each l o : frames f (post_each l o).
Proof. revert o. induction l as [|c l IH]; intros o; cbn [post_each]; unfold post_copy; frame. Qed.
End frames.
Hint Resolve frames_session_for_copy frames_prepareCopy frames_post_each : frames.

Lemma other_session p q : p ≠ q → off_peer (sess p) q.
Proof. intros H a d. unfold peer_of. cbn [peers with_peers]. by rewrite lookup_insert_ne. Qed.

(** ** Posting drops sessions at most *)

(** [drops p m]: after [m] the session with [p] is the one before, or gone. *)
Definition drops {A} (p : bytes) (m : proc A) : Prop := ∀ a, sess p (m a).1 = sess p a ∨ sess p (m a).1 = None.
Lemma drops_frames {A} p (m : proc A) : frames (sess p) m → drops p m.
Proof. intros H a. left. apply H. Qed.
Lemma drops_bind {A C} p (m : proc A) (k : A → proc C) : drops p m → (∀ x, drops p (k x)) → drops p (m ≫= k).
Proof.
  intros Hm Hk a. specialize (Hm a). cbv beta in *. unfold mbind, proc_bind. destruct (m a) as [a1 [x|e|]]; [|done..]. cbn [fst] in *.
  destruct (Hk x a1) as [E|E]; cbv beta in E; rewrite E; [done|by right].
Qed.
Lemma drops_attempt {A} p (m : proc A) : drops p m → drops p (attempt m).
Proof. intros H a. specialize (H a). cbv beta in *. unfold attempt. by destruct (m a) as [a1 [x|e|]]. Qed.
Lemma remove_session p q g a : (∀ d, session_json (g d) = None ∨ session_json (g d) = session_json d) →
  sess p (remove_peer q g a).1 = sess p a ∨ sess p (remove_peer q g a).1 = None.
Proof.
  intros Hg. cbv beta. unfold remove_peer, safe, msg, lift, mbind, proc_bind. destruct (safeElement q); cbn [wrap_err fst]; [|by left..].
  unfold peer_of. cbn [change fst peers with_peers]. destruct (decide (q = p)) as [->|Hne]; [|left; by rewrite lookup_alter_ne].
  rewrite lookup_alter_eq. destruct (peers a !! p) as [d|]; cbn; [|by left]. destruct (Hg d) as [->| ->]; [by right|by left].
Qed.
Lemma drops_ForgetPeerDevice p q : drops p (ForgetPeerDevice q).
Proof.
  unfold ForgetPeerDevice, DeleteSession. apply drops_bind; [|intros _; apply drops_bind; [|intros _]]; intros a; apply remove_session; intros d; by auto.
Qed.
Lemma drops_read_results p by_ l o : drops p (read_results by_ l o).
Proof.
  revert o. induction l as [|c l IH]; intros o; cbn [read_results]; [by apply drops_frames; frame|]. apply drops_bind; [|intros _; apply IH].
  destruct (match _ with Some _ => _ | None => _ end); [|by apply drops_frames; frame].
  apply drops_bind; [apply drops_attempt, drops_ForgetPeerDevice|intros _; by apply drops_frames; frame].
Qed.
Lemma drops_deliverToServer p s l : drops p (deliverToServer s l).
Proof.
  unfold deliverToServer. apply drops_bind; [apply drops_frames; unfold batch_size, ServerStatus_of; frame|]. intros n.
  destruct (1 <? n); [|by apply drops_frames; frame]. generalize (∅ : outcomes) as o. generalize (chunks n l) as bs. induction bs as [|b bs IH]; intros o; cbn [send_batches].
  - by apply drops_frames; frame.
  - apply drops_bind; [|intros r; apply IH]. unfold sendBatch. apply drops_bind; [apply drops_frames; unfold batch_request; frame|].
    intros [req|e]; [|by apply drops_frames; frame]. apply drops_bind; [by apply drops_frames; frame|].
    intros [resp|e]; [apply drops_read_results|by apply drops_frames; frame].
Qed.
Lemma drops_post_servers p ss l o : drops p (post_servers ss l o).
Proof. revert o. induction ss as [|s ss IH]; intros o; cbn [post_servers]; [by apply drops_frames; frame|]. apply drops_bind; [apply drops_deliverToServer|intros r; apply IH]. Qed.

(** ** Preparing *)

Lemma session_for_copy_new p e a a' si : session_for_copy p e a = (a', Ok si) → sess p a = None → present si.2 = true.
Proof.
  intros H Hn. unfold session_for_copy in H. apply proc_bind_Ok in H as (a1 & s & Hl & H). apply LoadSession_Ok in Hl as (-> & Hl & _). cbv beta in Hn. rewrite Hn in Hl.
  injection Hl as <-. step H as H1. step H as H2. step H as H3. step H as H4. step H as H5. apply ret_Ok in H as [_ <-]. done.
Qed.
Lemma prepareCopy_Ok m s x w a a' c : prepareCopy m s x w a = (a', Ok c) → PcMember c = m ∧ (sess (AccountID m) a = None → PcEstablished c = true).
Proof.
  intros H. unfold prepareCopy in H. apply proc_bind_Ok in H as (a1 & e & He & H). apply proc_bind_Ok in H as (a2 & [s1 im] & Hs & H).
  cbv beta iota in H. destruct (Encrypt s1 x) as [s2 enc]. step H as H1. apply proc_bind_Ok in H as (a3 & u & _ & H). apply proc_bind_Ok in H as (a4 & w' & _ & H).
  apply ret_Ok in H as [_ <-]. split; [done|]. intros Hn. cbn [PcEstablished]. eapply (session_for_copy_new _ _ _ _ (s1, im)); [done|].
  pose proof (frames_endpointOn (sess (AccountID m)) (AccountID m) (route (MServer m) s) a) as F. cbv beta in *. rewrite He in F. cbn [fst] in F. by rewrite F.
Qed.

Definition unblocked (a : account) (rs : list Member) : list Member := List.filter (λ m, negb (is_blocked (AccountID m) a)) rs.
Lemma unblocked_same a a1 rs : blocked_json a1 = blocked_json a → unblocked a1 rs = unblocked a rs.
Proof. intros E. unfold unblocked, is_blocked, readBlocked. by rewrite E. Qed.
(** A record of [prepare_all]: pending with a copy, or failed without one. *)
Definition recorded (cs : list preparedCopy) (d : GroupDelivery) : Prop :=
  GdState d = SendPending ∧ (∃ c, c ∈ cs ∧ pc_account c = GdAccountID d) ∨ GdState d = SendFailed ∧ GdDetail d = [].

Lemma prepare_all_records s e w rs a a' cs ds : prepare_all error_text s e w rs a = (a', Ok (cs, ds)) →
  GdAccountID <$> ds = AccountID <$> unblocked a rs ∧ (∀ d, d ∈ ds → recorded cs d) ∧ (∀ c, c ∈ cs → pc_account c ∈ AccountID <$> rs).
Proof.
  revert a a' cs ds. induction rs as [|m rs IH]; intros a a' cs ds H; cbn [prepare_all] in H.
  - apply ret_Ok in H as [_ [= <- <-]]. split_and!; [done|by intros ? ?%elem_of_nil..].
  - apply proc_bind_Ok in H as (a1 & b & Hb & H). apply gets_Ok in Hb as [-> ->]. change (present (readBlocked a !! AccountID m)) with (is_blocked (AccountID m) a) in H.
    unfold unblocked. cbn [List.filter]. fold (unblocked a rs). destruct (is_blocked (AccountID m) a); cbn [negb].
    { apply IH in H as (H1 & H2 & H3). split_and!; [done..|]. intros c Hc. set_solver. }
    apply proc_bind_Ok in H as (a1 & r & Hr & H). apply proc_bind_Ok in H as (a2 & [cs' ds'] & Ht & H). apply ret_Ok in H as [_ H].
    pose proof (frames_attempt blocked_json _ (frames_prepareCopy blocked_json m s (e m) (default [] (w !! AccountID m))) a) as F. rewrite Hr in F. cbn [fst] in F.
    apply IH in Ht as (H1 & H2 & H3). rewrite (unblocked_same _ _ _ F) in H1. cbn [fst snd] in H.
    destruct r as [c|er]; injection H as <- <-; split_and!; try (cbn; by f_equal).
    + intros d [->|Hd]%elem_of_cons; [left; split; [done|]; exists c; split; [left|]|].
      * apply attempt_Ok, prepareCopy_Ok in Hr as [Em _]. unfold pc_account. by rewrite Em.
      * destruct (H2 d Hd) as [(? & c' & ? & ?)|?]; [left; split; [done|]; exists c'; split; [by right|done]|by right].
    + intros c' [->|Hc]%elem_of_cons; [|set_solver]. apply attempt_Ok, prepareCopy_Ok in Hr as [Em _]. unfold pc_account. rewrite Em. left.
    + intros d [->|Hd]%elem_of_cons; [by right|by apply H2].
    + intros c' Hc. set_solver.
Qed.

Lemma prepare_all_established s e w rs a a' cs ds c : NoDup (AccountID <$> rs) → prepare_all error_text s e w rs a = (a', Ok (cs, ds)) →
  c ∈ cs → sess (pc_account c) a = None → PcEstablished c = true.
Proof.
  revert a a' cs ds. induction rs as [|m rs IH]; intros a a' cs ds Hnd H Hc Hn; cbn [prepare_all] in H.
  - apply ret_Ok in H as [_ [= <- <-]]. by apply elem_of_nil in Hc.
  - rewrite fmap_cons in Hnd. apply NoDup_cons in Hnd as [Hm Hnd].
    apply proc_bind_Ok in H as (a1 & b & Hb & H). apply gets_Ok in Hb as [-> ->]. destruct (present _); [by eapply IH|].
    apply proc_bind_Ok in H as (a1 & r & Hr & H). apply proc_bind_Ok in H as (a2 & [cs' ds'] & Ht & H). apply ret_Ok in H as [_ H]. cbn [fst snd] in H.
    assert (c ∈ cs' → PcEstablished c = true) as Hrest.
    { intros Hc'. pose proof (prepare_all_records _ _ _ _ _ _ _ _ Ht) as (_ & _ & Hin). specialize (Hin c Hc').
      assert (pc_account c ≠ AccountID m) as Hne by (intros E; rewrite E in Hin; done). pose proof (other_session _ _ Hne) as Ho.
      pose proof (frames_attempt _ _ (frames_prepareCopy (sess (pc_account c)) m s (e m) (default [] (w !! AccountID m))) a) as F. cbv beta in F. rewrite Hr in F.
      cbn [fst] in F. eapply IH; [done|exact Ht|done|]. cbv beta in *. congruence. }
    destruct r as [c0|er]; injection H as <- <-; [|by apply Hrest]. apply elem_of_cons in Hc as [->|Hc]; [|by apply Hrest].
    apply attempt_Ok, prepareCopy_Ok in Hr as [Em He]. apply He. by rewrite <- Em.
Qed.

(** ** Settling *)

Lemma DeleteSession_gone p a a' u : DeleteSession p Sending a = (a', Ok u) → sess p a' = None.
Proof.
  unfold DeleteSession, remove_peer. intros H. step H as H1. unfold change in H. injection H as <- _. unfold peer_of. cbn [peers with_peers].
  rewrite lookup_alter_eq. by destruct (peers a !! p).
Qed.
Lemma drop_unannounced_gone posted cs a a' u c : drop_unannounced posted cs a = (a', Ok u) → c ∈ cs → PcEstablished c = true → was_sent posted (pc_account c) = false →
  sess (pc_account c) a' = None.
Proof.
  unfold drop_unannounced. revert a. induction cs as [|c' cs IH]; intros a H Hc He Hs; [by apply elem_of_nil in Hc|]. cbn [for_each] in H.
  apply proc_bind_Ok in H as (a1 & v & H1 & H). apply elem_of_cons in Hc as [->|Hc]; [|by eapply IH].
  rewrite He, Hs in H1. apply DeleteSession_gone in H1. assert (drops (pc_account c') (drop_unannounced posted cs)) as D.
  { unfold drop_unannounced. clear. induction cs as [|c cs IH]; cbn [for_each]; [by apply drops_frames; frame|]. apply drops_bind; [|intros _; apply IH].
    destruct (_ && _); [|by apply drops_frames; frame]. intros a. apply remove_session. intros d. by left. }
  specialize (D a1). unfold drop_unannounced in D. cbv beta in *. rewrite H in D. cbn [fst] in D. destruct D as [->|D]; done.
Qed.

Lemma owe_Ok g x a a' u : g ≠ [] → oweGroupSnapshot g x a = (a', Ok u) → owed g a' = {[x]} ∪ owed g a.
Proof.
  intros Hg. unfold oweGroupSnapshot, updateGroupPeers. rewrite (proj2 (eqb_false g [])) by done. intros H.
  unfold groupPeersFor in H. apply proc_bind_Ok in H as (a1 & p & Hp & H). step Hp as Hs. apply gets_Ok in Hp as [-> ->].
  unfold owed. destruct (decide (x ∈ _)) as [Hx|Hx].
  - apply ret_Ok in H as [-> _]. set_solver.
  - apply proc_bind_Ok in H as (a1 & v & Hw & H). apply ret_Ok in H as [-> _]. unfold write_group in Hw. step Hw as H1. unfold change in Hw. injection Hw as <- _.
    unfold group_of at 1. cbn [groups with_groups]. rewrite lookup_insert_eq. done.
Qed.
Lemma settle_Ok g posted ds a a' ds' : g ≠ [] → settle error_text g posted ds a = (a', Ok ds') →
  ds' = (λ d, if negb (GdState d =?b SendPending) then d else settled_delivery error_text posted d) <$> ds ∧ owed g a ⊆ owed g a' ∧
  (∀ d, d ∈ ds → GdState d = SendPending → was_sent posted (GdAccountID d) = false → GdAccountID d ∈ owed g a').
Proof.
  intros Hg. revert a a' ds'. induction ds as [|d ds IH]; intros a a' ds' H; cbn [settle] in H.
  - apply ret_Ok in H as [-> <-]. split_and!; [done..|]. by intros ? ?%elem_of_nil.
  - rewrite fmap_cons. destruct (negb (GdState d =?b SendPending)) eqn:Es.
    + apply proc_bind_Ok in H as (a1 & rest & H1 & H). apply ret_Ok in H as [-> <-]. apply IH in H1 as (-> & Hs & Ho). split_and!; [done..|].
      intros d' [->|Hd]%elem_of_cons Hp; [|by apply Ho]. rewrite Hp in Es. done.
    + apply proc_bind_Ok in H as (a1 & v & H1 & H). apply proc_bind_Ok in H as (a2 & rest & H2 & H). apply ret_Ok in H as [-> <-].
      apply IH in H2 as (-> & Hs & Ho). assert (owed g a ⊆ owed g a1 ∧ (was_sent posted (GdAccountID d) = false → GdAccountID d ∈ owed g a1)) as [Ha Hd].
      { destruct (was_sent posted (GdAccountID d)); [by apply ret_Ok in H1 as [-> _]|]. apply owe_Ok in H1 as ->; [|done]. set_solver. }
      split_and!; [done|set_solver|]. intros d' [->|Hd']%elem_of_cons Hp Hw; [set_solver|by apply Ho].
Qed.

(** ** No member's failure is the sender's *)

Definition never_fails {A} (m : proc A) (a : account) : Prop := ∀ e, (m a).2 ≠ Err e.
Lemma never_fails_bind {A C} (m : proc A) (k : A → proc C) a : never_fails m a → (∀ a1 x, m a = (a1, Ok x) → never_fails (k x) a1) → never_fails (m ≫= k) a.
Proof.
  intros Hm Hk e. specialize (Hm e). unfold mbind, proc_bind. destruct (m a) as [a1 [x|e'|]] eqn:E; [by apply (Hk a1 x)|intros [= ->]; by apply Hm|by intros [=]].
Qed.
Lemma never_fails_attempt {A} (m : proc A) a : never_fails (attempt m) a.
Proof. intros e. unfold attempt. by destruct (m a) as [a1 [x|e'|]]. Qed.
Lemma prepare_all_never_fails s e w rs a : never_fails (prepare_all error_text s e w rs) a.
Proof.
  revert a. induction rs as [|m rs IH]; intros a; cbn [prepare_all]; [done|]. apply never_fails_bind; [done|]. intros a1 b _. destruct b; [apply IH|].
  apply never_fails_bind; [apply never_fails_attempt|]. intros a2 r _. apply never_fails_bind; [apply IH|done].
Qed.
Lemma post_each_never_fails l o a : never_fails (post_each l o) a.
Proof. revert o a. induction l as [|c l IH]; intros o a; cbn [post_each]; [done|]. apply never_fails_bind; [apply never_fails_attempt|]. intros; apply IH. Qed.
Lemma read_results_never_fails b l o a : never_fails (read_results b l o) a.
Proof.
  revert o a. induction l as [|c l IH]; intros o a; cbn [read_results]; [done|]. apply never_fails_bind; [|intros; apply IH].
  destruct (match _ with Some _ => _ | None => _ end); [|done]. apply never_fails_bind; [apply never_fails_attempt|done].
Qed.
Lemma sendBatch_never_fails s l a : never_fails (sendBatch s l) a.
Proof.
  unfold sendBatch. apply never_fails_bind.
  - unfold batch_request. destruct (s =?b []); [done|]. apply never_fails_bind; [apply never_fails_attempt|]. intros a1 [i|e] _; [|done].
    apply never_fails_bind; [done|]. intros a2 t _. apply never_fails_bind; [apply never_fails_attempt|done].
  - intros a1 [req|e] _; [|done]. apply never_fails_bind; [apply never_fails_attempt|]. intros a2 [resp|e] _; [apply read_results_never_fails|apply post_each_never_fails].
Qed.
Lemma post_servers_never_fails ss l o a : never_fails (post_servers ss l o) a.
Proof.
  revert o a. induction ss as [|s ss IH]; intros o a; cbn [post_servers]; [done|]. apply never_fails_bind; [|intros; apply IH].
  unfold deliverToServer. apply never_fails_bind.
  - unfold batch_size. destruct (1 <? zlen _); [|done]. apply never_fails_bind; [apply never_fails_attempt|done].
  - intros a1 n _. destruct (1 <? n); [|apply post_each_never_fails]. generalize (∅ : outcomes) as o'. generalize (chunks n (List.filter (λ c, pc_server c =?b s) l)) as bs.
    revert a1. clear. intros a1 bs. revert a1. induction bs as [|b bs IHb]; intros a1 o'; cbn [send_batches]; [done|].
    apply never_fails_bind; [apply sendBatch_never_fails|intros; apply IHb].
Qed.

Lemma for_each_never_fails {A} (f : A → proc ()) l a : (∀ x a, x ∈ l → never_fails (f x) a) → never_fails (for_each f l) a.
Proof.
  revert a. induction l as [|x l IH]; intros a H; cbn [for_each]; [done|]. apply never_fails_bind; [apply H; left|]. intros a1 u _. apply IH. intros y b Hy. apply H. by right.
Qed.
Lemma remove_peer_never_fails p g a : safeElement p = Ok () → never_fails (remove_peer p g) a.
Proof. intros Hs. unfold remove_peer, safe. rewrite Hs. by apply never_fails_bind. Qed.
Lemma settle_never_fails g posted ds a : safeElement g = Ok () → never_fails (settle error_text g posted ds) a.
Proof.
  intros Hs. revert a. induction ds as [|d ds IH]; intros a; cbn [settle]; [done|]. destruct (negb _); [apply never_fails_bind; [apply IH|done]|].
  apply never_fails_bind.
  - destruct (was_sent _ _); [done|]. unfold oweGroupSnapshot, updateGroupPeers, groupPeersFor, write_group, safe. destruct (g =?b []); [done|].
    apply never_fails_bind; [by rewrite Hs; apply never_fails_bind|]. intros a1 p _. case_decide; [done|]. rewrite Hs. apply never_fails_bind; [by apply never_fails_bind|done].
  - intros a1 u _. apply never_fails_bind; [apply IH|done].
Qed.
Lemma safe_ne g : safeElement g = Ok () → g ≠ [].
Proof. by intros H ->. Qed.

Lemma fanOut_never_fails g encode rs w a i : load_identity (identity_json a) = Ok i → safeElement g = Ok () → Forall (λ m, safeElement (AccountID m) = Ok ()) rs →
  never_fails (fanOut error_text g encode rs w) a.
Proof.
  intros Hi Hg Hs. unfold fanOut. apply never_fails_bind; [unfold Identity, never_fails, mbind, proc_bind, gets, lift; by rewrite Hi|]. intros a1 i1 _.
  apply never_fails_bind; [apply prepare_all_never_fails|]. intros a2 [cs ds] Hp. apply never_fails_bind; [apply post_servers_never_fails|]. intros a3 posted _.
  apply never_fails_bind; [|intros a4 u _; by apply settle_never_fails]. apply for_each_never_fails. intros c b Hc. destruct (_ && _); [|done].
  apply remove_peer_never_fails. apply prepare_all_records in Hp as (_ & _ & Hin). apply Hin, list_elem_of_fmap in Hc as (m & -> & Hm).
  rewrite Forall_forall in Hs. by apply Hs.
Qed.
(** What the records of a fan-out say. *)
Definition settled_well (g : bytes) (a a' : account) (d : GroupDelivery) : Prop :=
  GdState d = SendSent ∨
  GdState d = SendFailed ∧ (GdDetail d = [] ∨ GdAccountID d ∈ owed g a' ∧ (sess (GdAccountID d) a = None → sess (GdAccountID d) a' = None)).
Lemma fanOut_Ok g encode rs w a a' ds : g ≠ [] → NoDup (AccountID <$> rs) → fanOut error_text g encode rs w a = (a', Ok ds) →
  GdAccountID <$> ds = AccountID <$> unblocked a rs ∧ ∀ d, d ∈ ds → settled_well g a a' d.
Proof.
  intros Hg Hnd H. unfold fanOut in H. apply proc_bind_Ok in H as (a1 & i & Hi & H). pose proof (frames_Identity (λ b, b) a) as F. cbv beta in F. rewrite Hi in F. cbn [fst] in F. subst a1.
  apply proc_bind_Ok in H as (a1 & [cs ds0] & Hp & H). cbv beta iota zeta in H. apply proc_bind_Ok in H as (a2 & posted & Ho & H). apply proc_bind_Ok in H as (a3 & u & Hd & H).
  destruct (prepare_all_records _ _ _ _ _ _ _ _ Hp) as (Hacc & Hrec & _). pose proof (settle_Ok _ _ _ _ _ _ Hg H) as (-> & _ & Howe). split.
  - rewrite <- Hacc, <- list_fmap_compose. apply list_fmap_ext. intros n d _. cbn. unfold settled_delivery. by repeat case_match.
  - intros d (d0 & -> & Hd0)%list_elem_of_fmap. destruct (Hrec d0 Hd0) as [(Es & c & Hc & Ec)|[Es Ed]]; rewrite Es; [|right; auto].
    change (negb (SendPending =?b SendPending)) with false. cbv iota. unfold settled_delivery. destruct (was_sent posted (GdAccountID d0)) eqn:Ew; [by left|]. right. split; [done|].
    right. cbn [GdAccountID]. split; [by apply Howe|]. intros Hn. cbv beta in *. rewrite <- Ec in *.
    assert (frames (sess (pc_account c)) (settle error_text g posted ds0)) as Fs.
    { clear. induction ds0 as [|d ds IH]; cbn [settle]; unfold oweGroupSnapshot, updateGroupPeers, groupPeersFor; frame. }
    specialize (Fs a3). cbv beta in Fs. rewrite H in Fs. cbn [fst] in Fs. rewrite Fs. eapply drop_unannounced_gone; [exact Hd|done| |done].
    by eapply (prepare_all_established _ _ _ _ _ _ _ _ c Hnd Hp).
Qed.

(** C12: a message to a group is settled member by member.  Whatever the servers of the members answer,
    the fan-out itself does not fail.  It records every recipient that is not blocked, once and in order, as sent or as failed -- never as
    pending.  A member whose copy was encrypted and not taken is owed the facts of the
    group, and if there was no session with the member before, there is none after: no
    session is kept whose announcement did not arrive. *)
Theorem fan_out_settles g encode rs w a i :
  load_identity (identity_json a) = Ok i → safeElement g = Ok () → Forall (λ m, safeElement (AccountID m) = Ok ()) rs → NoDup (AccountID <$> rs) →
  match fanOut error_text g encode rs w a with
  | (a', Ok ds) => GdAccountID <$> ds = AccountID <$> unblocked a rs ∧ ∀ d, d ∈ ds → settled_well g a a' d
  | (_, Err _) => False
  | (_, Panic) => True
  end.
Proof.
  intros Hi Hg Hs Hnd. pose proof (fanOut_never_fails g encode rs w a i Hi Hg Hs) as Hf.
  destruct (fanOut error_text g encode rs w a) as [a' [ds|e|]] eqn:E; [apply (fanOut_Ok _ _ _ _ _ _ _ (safe_ne g Hg) Hnd E)|by apply (Hf e); rewrite E|done].
Qed.
End fan_out.
