(* ===== verification/ClientDrain.v ===== *)
(** * pkg/client/drain.go: what is owed to an envelope, and to a fresh connection

    [HandleAndAck] puts one envelope through the receive path, which makes no request, and
    then makes the requests that follow from what it found.  The theorems follow: an envelope
    is acknowledged when it was handled, and when only. *)

From S2P Require Import Prelude GoStr GoTime GoTimeParse Sha256 Crypto Base64 Bech32m Address DeviceCert HttpSig Delivery Federation Prekeys Accounts Resolve GroupEvent GroupState GroupResolve ProfileClaim Ratchet RatchetCorrect ClientLog ClientDedup ClientTranscript Envelope ClientState ClientProfile ClientGroups ClientReceive ClientNet ClientBlobs ClientSend ClientGroupSend ClientGroupTalk ClientFrames ClientReceiveCorrect ClientSendCorrect ClientGroupSendCorrect.

Record DrainFailure := mkDrainFailure { DfMessageID : bytes; DfSenderAccountID : bytes; DfErr : cerr; DfAcknowledged : bool }.
Record DrainReport := mkDrainReport { DrResults : list ReceiveResult; DrFailures : list DrainFailure }.
Record MaintenanceReport := mkMaintenance {
  PrekeysToppedUp : bool; DebtsPaid : Z; Recovered : list bytes; ReceiptsResent : Z; GoneMembers : list bytes; Problems : list cerr;
}.

(** Whether the failure was given up on. *)
Definition gave_up (e : cerr) : bool := match as_decrypt e with Some (_, gaveUp, _) => gaveUp | None => false end.

Section drain.
Context {UC : UnicodeCase} {NW : Network} {ED : Ed25519} {XC : X25519} {HK : HKDF} {AE : AEAD} {QU : Quote} {WF : WireFormats}.
Context {JC : Json contentWire} {JA : Json attachmentWire} {JV : Json Envelope} {JL : Json logRecord} {JU : Json uploadResponse} {JE : Json (list (option Event))}
  {JP : Json processedRecord} {JF : Json failuresFile}.

(** A call whose result nobody looks at. *)
Definition ignored {A} (m : proc A) : proc () := _ ← attempt m; mret ().
(** Delivered, and read where the chat is on screen. *)
Definition confirm_up_to (send : ReceiptStatus → Time → proc ()) (delivered read : option Time) : proc () :=
  match delivered with
  | None => mret ()
  | Some d => _ ← ignored (send ReceiptDelivered d); match read with Some r => ignored (send ReceiptRead r) | None => mret () end
  end.
Definition confirm (res : ReceiveResult) : proc () :=
  match RrGroup res with
  | Some o => confirm_up_to (SendGroupReceipt (OGroupID o) (RrPeer res)) (ODeliveredUpTo o) (OReadUpTo o)
  | None => confirm_up_to (SendReceipt (RrPeer res)) (RrDeliveredUpTo res) (RrReadUpTo res)
  end.
Definition follow_up (res : ReceiveResult) : proc () :=
  if RrDuplicate res then mret ()
  else
    _ ← confirm res;
    match RrGroup res with Some o => ignored (ReconcileGroup o (RrPeer res)) | None => mret () end.
(** [at_] is the clock the caller gave, if any. *)
Definition HandleAndAck (m : IncomingMessage) (openChatID : bytes) (at_ : option Time) : proc ReceiveResult :=
  t ← (match at_ with Some t => mret t | None => now end);
  r ← attempt (HandleIncoming m openChatID t);
  match r with
  | inl res => _ ← ignored (AckMessage (IMessageID m)); _ ← follow_up res; mret res
  | inr e => _ ← (if gave_up e then ignored (AckMessage (IMessageID m)) else mret ()); fail e
  end.
Fixpoint drain_each (msgs : list IncomingMessage) (openChatID : bytes) (at_ : option Time) : proc DrainReport :=
  match msgs with
  | [] => mret (mkDrainReport [] [])
  | m :: msgs =>
    r ← attempt (HandleAndAck m openChatID at_);
    rest ← drain_each msgs openChatID at_;
    mret (match r with
          | inl res => mkDrainReport (res :: DrResults rest) (DrFailures rest)
          | inr e => mkDrainReport (DrResults rest) (mkDrainFailure (IMessageID m) (ISenderAccountID m) e (gave_up e) :: DrFailures rest)
          end)
  end.
Definition Drain (openChatID : bytes) (at_ : option Time) : proc DrainReport := msgs ← FetchMessages; drain_each msgs openChatID at_.

Definition problem {A} (what : string) (r : A + cerr) : list cerr := match r with inl _ => [] | inr e => [EWrap what e] end.
Definition Maintain : proc MaintenanceReport :=
  topped ← attempt TopUpOneTimePrekeys;
  debts ← attempt PayGroupSnapshotDebts;
  recovered ← attempt RecoverDesyncedSessions;
  resent ← attempt ResendPendingReceipts;
  mret (mkMaintenance (match topped with inl _ => true | inr _ => false end) (match debts with inl d => d.1 | inr _ => 0 end)
    (match recovered with inl l => l | inr _ => [] end) (match resent with inl n => n | inr _ => 0 end) (match debts with inl d => d.2 | inr _ => [] end)
    (problem "topping up prekeys" topped ++ problem "settling group facts" debts ++ problem "recovering sessions" recovered ++ problem "re-sending receipts" resent)).
End drain.

(** ** What is acknowledged

    An envelope leaves the server's queue when it was handled or given up on, and not
    otherwise: the receive path itself makes no request, and of the requests that follow
    only the acknowledgement deletes anything. *)

(** ** The requests of a procedure *)

(** [says P m]: whatever [m] sends satisfies [P]. *)
Definition says {A} (P : HttpRequest → Prop) (m : proc A) : Prop := ∀ a, ∃ l, sent (outer (m a).1) = sent (outer a) ++ l ∧ Forall P l.

Section says.
Context (P : HttpRequest → Prop).
Lemma says_frames {A} (m : proc A) : frames (λ a, sent (outer a)) m → says P m.
Proof. intros H a. exists []. rewrite app_nil_r. split; [apply H|done]. Qed.
Lemma says_bind {A C} (m : proc A) (k : A → proc C) : says P m → (∀ x, says P (k x)) → says P (m ≫= k).
Proof.
  intros Hm Hk a. destruct (Hm a) as (l & E & Hl). unfold mbind, proc_bind. destruct (m a) as [a1 [x|e|]]; [|by exists l..]. cbn [fst] in *.
  destruct (Hk x a1) as (l' & E' & Hl'). exists (l ++ l'). rewrite E', E, app_assoc. split; [done|by apply Forall_app].
Qed.
Lemma says_bind_run {A C} (m : proc A) (k : A → proc C) : says P m → (∀ a a1 x, m a = (a1, Ok x) → says P (k x)) → says P (m ≫= k).
Proof.
  intros Hm Hk a. destruct (Hm a) as (l & E & Hl). unfold mbind, proc_bind. destruct (m a) as [a1 [x|e|]] eqn:Ea; [|by exists l..]. cbn [fst] in *.
  destruct (Hk a a1 x Ea a1) as (l' & E' & Hl'). exists (l ++ l'). rewrite E', E, app_assoc. split; [done|by apply Forall_app].
Qed.
Lemma says_after {A C} (m : proc A) (k : A → proc C) a : (∀ x, says P (k x)) → ∃ l, sent (outer ((m ≫= k) a).1) = sent (outer (m a).1) ++ l ∧ Forall P l.
Proof.
  intros Hk. unfold mbind, proc_bind. destruct (m a) as [a1 [x|e|]]; [apply Hk|exists []; by rewrite app_nil_r..].
Qed.
Lemma says_attempt {A} (m : proc A) : says P m → says P (attempt m).
Proof. intros H a. destruct (H a) as (l & E & Hl). exists l. unfold attempt. by destruct (m a) as [a1 [x|e|]]. Qed.
Lemma says_for_each {A} (f : A → proc ()) l : (∀ x, says P (f x)) → says P (for_each f l).
Proof. intros H. induction l as [|x l IH]; [by apply says_frames|]. cbn [for_each]. apply says_bind; [apply H|by intros _]. Qed.
End says.

(** Nothing is deleted. *)
Definition harmless (r : HttpRequest) : Prop := HMethod r ≠ lit "DELETE".
Create HintDb says.
Ltac say_step :=
  match goal with
  | |- says _ (_ ≫= _) => apply says_bind; [|intros ?]
  | |- says _ (attempt _) => apply says_attempt
  | |- says _ (for_each _ _) => apply says_for_each; intros ?
  | |- says _ (match ?x with _ => _ end) => destruct x
  | |- says _ (if ?x then _ else _) => destruct x
  end.
Ltac say := repeat (cbv zeta; first [solve [auto with says nocore] | solve [apply says_frames; frame] | say_step]).

Section requests.
Context {UC : UnicodeCase} {NW : Network} {ED : Ed25519} {XC : X25519} {HK : HKDF} {AE : AEAD} {QU : Quote} {WF : WireFormats}.
Context {JC : Json contentWire} {JA : Json attachmentWire} {JV : Json Envelope} {JL : Json logRecord} {JU : Json uploadResponse} {JE : Json (list (option Event))}
  {JP : Json processedRecord} {JF : Json failuresFile}.

Lemma frames_now_sent : frames (λ a, sent (outer a)) now.
Proof. by intros a. Qed.
Hint Resolve frames_now_sent frames_Identity frames_LoadConversation frames_LoadSession frames_profileClaimFor frames_putPeerDevice : frames.

Lemma frames_sessions_sent p k s : frames (λ a, sent (outer a)) (SetSession p k s) ∧ frames (λ a, sent (outer a)) (DeleteSession p k) ∧
  frames (λ a, sent (outer a)) (ForgetPeerDevice p).
Proof. unfold SetSession, ForgetPeerDevice, DeleteSession. split_and!; frame. Qed.
Hint Extern 1 (frames _ (SetSession _ _ _)) => apply frames_sessions_sent : frames.
Hint Extern 1 (frames _ (DeleteSession ?p ?k)) => apply (frames_sessions_sent p k zero_session) : frames.
Hint Extern 1 (frames _ (ForgetPeerDevice ?p)) => apply (frames_sessions_sent p Sending zero_session) : frames.

Lemma says_exchange_as P r : (∀ hs t, P (mkHttp (rq_method r) t hs (default [] (rq_body r)))) → says P (exchange r).
Proof.
  intros Hr. unfold exchange, signRequest, randomHex. say; try (intros a; eexists; split; [done|]; by constructor).
Qed.
Lemma says_exchange r : rq_method r ≠ lit "DELETE" → says harmless (exchange r).
Proof. intros Hr. by apply says_exchange_as. Qed.
Lemma says_do_into {R} {J : Json R} r : rq_method r ≠ lit "DELETE" → says harmless (do_into r).
Proof. intros Hr. unfold do_into. apply says_bind; [by apply says_exchange|intros x; by apply says_frames]. Qed.
Lemma says_do r : rq_method r ≠ lit "DELETE" → says harmless (do_ r).
Proof. intros Hr. unfold do_. apply says_bind; [by apply says_exchange|intros x; by apply says_frames]. Qed.
Hint Extern 1 (says _ (do_into _)) => apply says_do_into; done : says.
Hint Extern 1 (says _ (do_ _)) => apply says_do; done : says.

Lemma says_lookup_peer x s : says harmless (lookup_peer x s).
Proof. unfold lookup_peer, get_account. say. Qed.
Hint Resolve says_lookup_peer : says.
Lemma says_endpointOn p s : says harmless (endpointOn p s).
Proof. unfold endpointOn, peerDevice. say. Qed.
Hint Resolve says_endpointOn : says.
Lemma says_Endpoint p : says harmless (Endpoint p).
Proof. unfold Endpoint. say. Qed.
Hint Resolve says_Endpoint : says.
Lemma says_accountIsGone s p : says harmless (accountIsGone s p).
Proof. unfold accountIsGone. say. Qed.
Lemma says_federationAllowed : says harmless federationAllowed.
Proof. unfold federationAllowed, ServerStatus_of. say. Qed.
Lemma says_ClaimBundle p : says harmless (ClaimBundle p).
Proof.
  unfold ClaimBundle. apply says_bind; [by apply says_frames; frame|]. intros i. cbv zeta. apply says_bind_run; [say|]. intros a a1 r Hr.
  assert (rq_method r = lit "POST") as Hm.
  { destruct (Federated p); [step Hr as H1; step Hr as H2|]; by apply ret_Ok in Hr as [_ <-]. }
  apply says_bind; [|intros b; by apply says_frames; frame]. apply says_do_into. by rewrite Hm.
Qed.
Lemma says_postEnvelope p i x : says harmless (postEnvelope p i x).
Proof. unfold postEnvelope, SendMessage, unless_status. say. Qed.
Hint Resolve says_accountIsGone says_federationAllowed says_ClaimBundle says_postEnvelope : says.
Lemma says_giveUpOnPeer s p e : says harmless (giveUpOnPeer s p e).
Proof. unfold giveUpOnPeer, markPeerGone, PutConversation, read_log, append_message. say. Qed.
Hint Resolve says_giveUpOnPeer : says.
Lemma says_deliver p x f : says harmless (deliver p x f).
Proof.
  unfold deliver, recipient, IsPeerBlocked, sessionForSending, claim_for_sending, post_or_roll_back, rollBackSession. say.
Qed.
Hint Resolve says_deliver : says.
Lemma says_SendReceipt p st t : says harmless (SendReceipt p st t).
Proof. unfold SendReceipt, ReceiptsEnabled, PutConversation, profileClaimSent, updateProfile, readProfile. say. Qed.
Lemma says_prepareCopy m s x w : says harmless (prepareCopy m s x w).
Proof. unfold prepareCopy, session_for_copy, dhIdentityKey, SetSession. say. Qed.
Hint Resolve says_prepareCopy : says.
Lemma says_sendGroupControl m s x : says harmless (sendGroupControl m s x).
Proof. unfold sendGroupControl, IsPeerBlocked, post_copy, DeleteSession. say. Qed.
Hint Resolve says_sendGroupControl : says.
Lemma says_SendGroupReceipt g p st t : says harmless (SendGroupReceipt g p st t).
Proof.
  unfold SendGroupReceipt, ReceiptsEnabled, GroupMembership, LoadGroupState, LoadGroupChat, PutGroupChat, profileClaimSent, updateProfile, readProfile. say.
Qed.
Lemma says_ReconcileGroup o p : says harmless (ReconcileGroup o p).
Proof.
  unfold ReconcileGroup, LoadGroupState, AskForGroupFacts, wants_answer, markGroupSyncRequested, markGroupHashAnswered, or_owe, SendGroupSnapshot, clearGroupSnapshotDebt,
    oweGroupSnapshot, updateGroupPeers, groupPeersFor, LoadGroupState. say.
Qed.

Hint Resolve says_SendReceipt says_SendGroupReceipt says_ReconcileGroup : says.
Lemma says_follow_up res : says harmless (follow_up res).
Proof. unfold follow_up, confirm, confirm_up_to, ignored. say. Qed.

(** ** The acknowledgement *)

Definition ack_target (i : OwnIdentity) (id : bytes) : bytes := MyServer i ++ lit "/v1/messages/" ++ id.
Lemma state_bind_ret {A C} (m : proc A) (k : A → proc C) a : (∀ x b, (k x b).1 = b) → ((m ≫= k) a).1 = (m a).1.
Proof. intros Hk. unfold mbind, proc_bind. destruct (m a) as [a1 [x|e|]]; [apply Hk|done..]. Qed.
Lemma ack_state id a : (ignored (AckMessage id) a).1 = (exchange (mkRequest (lit "DELETE") (lit "/v1/messages/" ++ id) [] None [] authDevice false) a).1.
Proof.
  assert (∀ {A} (m : proc A) b, (attempt m b).1 = (m b).1) as Hat by (intros A m b; unfold attempt; by destruct (m b) as [? [| |]]).
  unfold ignored. rewrite state_bind_ret by done. rewrite Hat. unfold AckMessage, unless_status. rewrite state_bind_ret.
  - rewrite Hat. unfold do_. by apply state_bind_ret.
  - intros [u|e] b; [done|]. destruct (as_api e) as [[s c]|]; [|done]. by destruct (s =? 404).
Qed.
Lemma Identity_reads a : Identity a = (a, load_identity (identity_json a)).
Proof. done. Qed.
(** At most the one request, and it if the account has what it takes to sign one. *)
Lemma ack_sends id a : ∃ acks, sent (outer (ignored (AckMessage id) a).1) = sent (outer a) ++ acks ∧ (length acks ≤ 1)%nat ∧
  (∀ q, q ∈ acks → HMethod q = lit "DELETE" ∧ ∃ i, load_identity (identity_json a) = Ok i ∧ HTarget q = ack_target i id) ∧
  (∀ i, load_identity (identity_json a) = Ok i → good_target (ack_target i id) = true → rng a ≠ [] → zlen (MyDevicePriv i) = 64 → acks ≠ []).
Proof.
  assert (∀ b : account, sent (outer b) = sent (outer a) →
    (∀ i, load_identity (identity_json a) = Ok i → good_target (ack_target i id) = true → rng a ≠ [] → zlen (MyDevicePriv i) = 64 → False) →
    ∃ acks, sent (outer b) = sent (outer a) ++ acks ∧ (length acks ≤ 1)%nat ∧
    (∀ q, q ∈ acks → HMethod q = lit "DELETE" ∧ ∃ i, load_identity (identity_json a) = Ok i ∧ HTarget q = ack_target i id) ∧
    (∀ i, load_identity (identity_json a) = Ok i → good_target (ack_target i id) = true → rng a ≠ [] → zlen (MyDevicePriv i) = 64 → acks ≠ [])) as none.
  { intros b E H. exists []. rewrite app_nil_r. split_and!; [done|cbn; lia|by intros ? ?%elem_of_nil|]. intros i ? ? ? ? _. by eapply H. }
  rewrite ack_state. unfold exchange. unfold mbind at 1, proc_bind at 1. rewrite Identity_reads.
  destruct (load_identity (identity_json a)) as [i|e|] eqn:Ei; [|apply none; [done|intros ? E; congruence]..].
  cbn [rq_server rq_path rq_query rq_body rq_method default]. change ([] =?b []) with true. cbv iota zeta. rewrite app_nil_r.
  change (MyServer i ++ lit "/v1/messages/" ++ id) with (ack_target i id). destruct (good_target (ack_target i id)) eqn:Eg; cbn [negb];
    [|apply none; [done|]; intros j E; assert (j = i) as -> by congruence; congruence].
  unfold signRequest. cbn [rq_auth]. rewrite decide_False by done. unfold randomHex, draw, mbind, proc_bind.
  destruct (rng a) as [|x l] eqn:Er; cbn; [by apply none|].
  set (sig := HttpSig.Sign _ _ _ _ _ _ _ _).
  assert (zlen (MyDevicePriv i) = 64 → ∃ y, sig = Ok y) as Hsig by (intros Hl; unfold sig, HttpSig.Sign, ed25519_Sign; rewrite Hl; by eexists).
  destruct sig as [y|e|]; cbn; [|apply none; [done|]; intros j E _ _ Hl; assert (j = i) as -> by congruence; by destruct (Hsig Hl)..].
  eexists [_]. split_and!.
  - by destruct (answer _ _).
  - done.
  - intros q ->%list_elem_of_singleton. split; [done|]. by exists i.
  - done.
Qed.

Lemma HandleAndAck_run m o t a : HandleAndAck m o (Some t) a =
  let '(a1, r) := HandleIncoming m o t a in
  match r with
  | Ok res => (_ ← ignored (AckMessage (IMessageID m)); _ ← follow_up res; mret res) a1
  | Err e => (_ ← (if gave_up e then ignored (AckMessage (IMessageID m)) else mret ()); fail e) a1
  | Panic => (a1, Panic)
  end.
Proof. unfold HandleAndAck, mbind at 1, proc_bind at 1. cbn [mret proc_ret]. unfold mbind at 1, proc_bind at 1, attempt. by destruct (HandleIncoming m o t a) as [a1 [x|e|]]. Qed.

(** C13: an envelope is taken off the queue exactly when it was handled or given up on.  Putting an
    envelope through the receive path sends nothing; if it could not be read and was not given
    up on, nothing is sent at all and the server keeps it.  Otherwise the first request is
    its acknowledgement -- sent whenever the account can sign a request -- and no request
    after it deletes anything. *)
Theorem acknowledged_when_handled m o t a :
  let after := (HandleIncoming m o t a).1 in
  let due := ack_due (HandleIncoming m o t a).2 in
  ∃ acks rest, sent (outer (HandleAndAck m o (Some t) a).1) = sent (outer a) ++ acks ++ rest ∧ (length acks ≤ 1)%nat ∧ Forall harmless rest ∧
    (due = false → acks = [] ∧ rest = []) ∧
    (∀ q, q ∈ acks → HMethod q = lit "DELETE" ∧ ∃ i, load_identity (identity_json a) = Ok i ∧ HTarget q = ack_target i (IMessageID m)) ∧
    (∀ i, due = true → load_identity (identity_json a) = Ok i → good_target (ack_target i (IMessageID m)) = true → rng after ≠ [] → zlen (MyDevicePriv i) = 64 → acks ≠ []).
Proof.
  intros after due. rewrite HandleAndAck_run.
  assert (sent (outer after) = sent (outer a)) as Es by (apply (frames_HandleIncoming (λ a, sent (outer a))); apply _).
  assert (identity_json after = identity_json a) as Ei by (by apply (frames_HandleIncoming identity_json); apply _).
  subst after due. destruct (HandleIncoming m o t a) as [a1 [res|e|]]; cbn [fst snd ack_due] in *.
  - destruct (ack_sends (IMessageID m) a1) as (acks & Ea & Hl & Hq & Hs). rewrite Ei in Hq, Hs.
    destruct (says_after harmless (ignored (AckMessage (IMessageID m))) (λ _, _ ← follow_up res; mret res) a1) as (rest & Er & Hr).
    { intros _. apply says_bind; [apply says_follow_up|intros _; by apply says_frames]. }
    exists acks, rest. split_and!; try done; [by rewrite Er, Ea, Es, app_assoc|]. intros i _. apply Hs.
  - fold (gave_up e). destruct (gave_up e).
    + destruct (ack_sends (IMessageID m) a1) as (acks & Ea & Hl & Hq & Hs). rewrite Ei in Hq, Hs.
      exists acks, []. split_and!; try done; [rewrite state_bind_ret by done; by rewrite Ea, Es, app_nil_r|]. intros i _. apply Hs.
    + exists [], []. rewrite !app_nil_r. split_and!; try done; [cbn; lia|by intros ? ?%elem_of_nil].
  - exists [], []. rewrite !app_nil_r. split_and!; try done; [cbn; lia|by intros ? ?%elem_of_nil].
Qed.
End requests.
