(* ===== verification/ClientRegister.v ===== *)
(** * pkg/client/register.go: creating an account

    The keys are made and stored before anything is sent, beside a marker that says a
    registration is in flight.  An attempt that finds the marker goes on with the stored
    keys, after asking the server whether the account is there already.  The theorems follow:
    however often it is interrupted, one account comes of it. *)

From S2P Require Import Prelude GoStr GoTime GoTimeParse Sha256 Crypto Base64 Bech32m Address DeviceCert HttpSig WakeCoalesce Broker Store StoreCorrect StoreIntegrity StoreQueue Auth Delivery Federation Prekeys PrekeysCorrect Accounts AccountsCorrect Resolve GroupEvent GroupState GroupResolve ProfileClaim Ratchet RatchetCorrect ClientLog ClientDedup ClientTranscript Envelope ClientState ClientProfile ClientGroups ClientReceive ClientFrames ClientReceiveCorrect ClientNet ClientBlobs ClientSend ClientSendCorrect ClientDrain.

(** [errors.New] of register.go. *)
Definition ErrAlreadyRegistered : cerr := EMsg "client: this account directory already holds an identity".
Record RegisterOptions := mkRegisterOptions { InviteCode_ : bytes }.

(** ** The marker *)

Definition registrationPending : proc bool := gets registering.
Definition markRegistrationPending : proc () := change (λ a, with_registering a true).
Definition finishRegistration : proc () := change (λ a, with_registering a false).

Section register.
Context {UC : UnicodeCase} {NW : Network} {ED : Ed25519} {WF : WireFormats}.
Context {JG : Json registerAccountRequest} {JB : Json bootstrapClaimRequest}.

(** [ed25519.GenerateKey]: the private key over a fresh seed. *)
Definition generate_ed25519 (what : string) : proc bytes :=
  r ← draw; match r with Some seed => msg (ed25519_NewKeyFromSeed (take 32 seed)) | None => fail (EMsg what) end.
Definition NewIdentity (server : bytes) : proc OwnIdentity :=
  rootPriv ← generate_ed25519 "client: generating the root key";
  devicePriv ← generate_ed25519 "client: generating the device key";
  r ← draw;
  deviceID ← msg (NewDeviceID (λ n, take (Z.to_nat n) <$> r));
  accountID ← msg (Address.DeriveID (ed25519_Public rootPriv));
  mret (mkOwnIdentity accountID server (ed25519_Public rootPriv) rootPriv deviceID (ed25519_Public devicePriv) devicePriv [] [] 0 [] [] 0 0 false None []).

(** The identity to register with, and whether an attempt was in flight already. *)
Definition identityToRegister (server : bytes) : proc (OwnIdentity * bool) :=
  existing ← attempt Identity;
  match existing with
  | inl i =>
    pending ← registrationPending;
    if negb pending then fail ErrAlreadyRegistered
    else if negb (MyServer i =?b server) then fail (EMsg "client: a registration on another server was interrupted here")
    else mret (i, true)
  | inr e =>
    if negb (errors_Is ErrNoIdentity e) then fail e
    else
      i ← NewIdentity server;
      _ ← markRegistrationPending;
      _ ← SetIdentity i;
      mret (i, false)
  end.
Definition accountExists (server accountID : bytes) : proc bool :=
  r ← attempt (do_ (GET (lit "/v1/accounts/" ++ accountID) server authNone));
  match r with
  | inl _ => mret true
  | inr e => match as_api e with Some (s, _) => if s =? 404 then mret false else fail e | None => fail e end
  end.
Definition post_registration (server path : bytes) (bodyFor : OwnIdentity → DeviceCertificate.t → bytes) (i : OwnIdentity) : proc OwnIdentity :=
  t ← now;
  cert ← msg (wrap_err (λ _, "client: signing the device certificate"%string)
                (DeviceCertificate.SignDeviceCertificate (MyAccountID i) (MyDeviceID i) (MyDevicePub i) (mkTime (t_sec t) 0 None 0) (MyRootPriv i)));
  _ ← do_ (POST path server (bodyFor i cert) authNone);
  _ ← finishRegistration;
  mret i.
Definition claim (server path : bytes) (bodyFor : OwnIdentity → DeviceCertificate.t → bytes) : proc OwnIdentity :=
  if server =?b [] then fail (EMsg "client: registering needs a server address")
  else
    ip ← identityToRegister server;
    let '(i, pending) := ip in
    exists_ ← (if pending : bool then accountExists server (MyAccountID i) else mret false);
    if (exists_ : bool) then _ ← finishRegistration; mret i else post_registration server path bodyFor i.

Definition registerBody (opts : RegisterOptions) (i : OwnIdentity) (cert : DeviceCertificate.t) : registerAccountRequest :=
  mkRegister (b64_encode (MyRootPub i)) (MyDeviceID i) (b64_encode (MyDevicePub i)) (rfc3339 (DeviceCertificate.IssuedAt cert))
    (b64_encode (DeviceCertificate.Signature cert)) (if InviteCode_ opts =?b [] then None else Some (InviteCode_ opts)).
Definition bootstrapBody (setupToken : bytes) (i : OwnIdentity) (cert : DeviceCertificate.t) : bootstrapClaimRequest :=
  mkBootstrap setupToken (b64_encode (MyRootPub i)) (MyDeviceID i) (b64_encode (MyDevicePub i)) (rfc3339 (DeviceCertificate.IssuedAt cert))
    (b64_encode (DeviceCertificate.Signature cert)).
Definition Register (server : bytes) (opts : RegisterOptions) : proc OwnIdentity :=
  claim server (lit "/v1/accounts") (λ i cert, json_Marshal (registerBody opts i cert)).
Definition ClaimServer (server setupToken : bytes) : proc OwnIdentity :=
  if setupToken =?b [] then fail (EMsg "client: claiming a server needs its setup token")
  else claim server (lit "/v1/bootstrap/claim") (λ i cert, json_Marshal (bootstrapBody setupToken i cert)).
End register.

(** ** One account per directory

    However often a registration is interrupted and taken up again, whatever the server
    answers and wherever the process dies, every request that could create an account
    names the same keys; and the body the client posts is one the server accepts. *)

Section register.
Context {UC : UnicodeCase} {ED : Ed25519} {WF : WireFormats} {JG : Json registerAccountRequest} {JB : Json bootstrapClaimRequest}.

(** ** One attempt *)

Section attempt.
Context {NW : Network}.
Hint Resolve frames_now frames_now_sent frames_Identity frames_exchange : frames.

Lemma frames_generate {B} (f : account → B) w `{!off_rng f} : frames f (generate_ed25519 w).
Proof. unfold generate_ed25519. frame. Qed.
Hint Resolve frames_generate : frames.
Lemma frames_NewIdentity {B} (f : account → B) s `{!off_rng f} : frames f (NewIdentity s).
Proof. unfold NewIdentity. frame. Qed.
Hint Resolve frames_NewIdentity : frames.
Lemma says_post path server body P : (∀ hs t, P (mkHttp (lit "POST") t hs body)) → says P (do_ (POST path server body authNone)).
Proof. intros H. unfold do_. apply says_bind; [by apply says_exchange_as|intros x; by apply says_frames]. Qed.
Lemma frames_do_identity r : frames identity_json (do_ r).
Proof. apply frames_do; apply _. Qed.

(** The identity of an attempt is the stored one. *)
Lemma load_stored i a : MyPushRegisteredAt i = None → load_identity (identity_json (SetIdentity i a).1) = Ok i.
Proof. intros E. destruct i. cbn in *. by subst. Qed.
Lemma NewIdentity_unpushed s a a' i : NewIdentity s a = (a', Ok i) → MyPushRegisteredAt i = None.
Proof.
  unfold NewIdentity. intros H. apply proc_bind_Ok in H as (a1 & r & _ & H). apply proc_bind_Ok in H as (a2 & d & _ & H). step H as H1. step H as H2. step H as H3.
  by apply ret_Ok in H as [_ <-].
Qed.
Lemma identityToRegister_stored s a a' i p : identityToRegister s a = (a', Ok (i, p)) →
  load_identity (identity_json a') = Ok i ∧ (identity_json a ≠ None → identity_json a' = identity_json a).
Proof.
  unfold identityToRegister. intros H. apply proc_bind_Ok in H as (a1 & x & Hx & H). apply attempt_Ok in Hx. rewrite Identity_reads in Hx. destruct x as [j|e].
  - injection Hx as <- Hj. apply proc_bind_Ok in H as (a2 & pd & Hp & H). apply gets_Ok in Hp as [-> ->]. destruct (registering a); [|done]. cbn [negb] in H.
    destruct (negb _); [done|]. apply ret_Ok in H as [-> [= <- <-]]. done.
  - injection Hx as <- Hj. assert (errors_Is ErrNoIdentity e = true → identity_json a = None) as Hn.
    { destruct (identity_json a) as [f|]; [|done]. unfold load_identity in Hj. by destruct (parseTime _); simplify_eq/=. }
    destruct (errors_Is ErrNoIdentity e); [|done]. cbn [negb] in H.
    apply proc_bind_Ok in H as (a2 & j & Hj' & H). apply proc_bind_Ok in H as (a3 & u & Hm & H). apply proc_bind_Ok in H as (a4 & v & Hs & H).
    apply ret_Ok in H as [-> [= <- <-]]. split; [|intros E; by rewrite Hn in E].
    apply NewIdentity_unpushed in Hj'. pose proof (load_stored j a3 Hj') as L. by rewrite Hs in L.
Qed.
Lemma identityToRegister_frames s a : identity_json a ≠ None → identity_json (identityToRegister s a).1 = identity_json a.
Proof.
  intros Hn. unfold identityToRegister. unfold mbind at 1, proc_bind at 1, attempt. rewrite Identity_reads. destruct (load_identity (identity_json a)) as [j|e|] eqn:E; [|..|done].
  - unfold registrationPending. erewrite bind_run by done. by repeat case_match.
  - assert (errors_Is ErrNoIdentity e = false) as ->; [|done]. destruct (identity_json a) as [f|]; [|done]. unfold load_identity in E. by destruct (parseTime _); simplify_eq/=.
Qed.
Lemma says_identityToRegister P s : says P (identityToRegister s).
Proof. apply says_frames. unfold identityToRegister, registrationPending, markRegistrationPending, SetIdentity. frame. Qed.

Lemma bind_step {A C} (m : proc A) (k : A → proc C) a :
  (m ≫= k) a = match m a with (a1, Ok x) => k x a1 | (a1, Err e) => (a1, Err e) | (a1, Panic) => (a1, Panic) end.
Proof. unfold mbind, proc_bind. by destruct (m a) as [a1 [x|e|]]. Qed.

(** What an attempt posts, for the identity the account then holds. *)
Definition posts (bodyFor : OwnIdentity → DeviceCertificate.t → bytes) (i : OwnIdentity) (q : HttpRequest) : Prop :=
  HMethod q = lit "POST" → ∃ cert, HBody q = bodyFor i cert.
Lemma says_rest server path bodyFor i (pending : bool) : says (posts bodyFor i)
  (exists_ ← (if pending then accountExists server (MyAccountID i) else mret false);
   if (exists_ : bool) then _ ← finishRegistration; mret i else post_registration server path bodyFor i).
Proof.
  apply says_bind.
  - destruct pending; [|by apply says_frames]. unfold accountExists. apply says_bind; [|intros x; apply says_frames; by repeat case_match].
    apply says_attempt. unfold do_. apply says_bind; [|intros x; by apply says_frames]. by apply says_exchange_as.
  - intros b. destruct b; [by apply says_frames; unfold finishRegistration; frame|]. unfold post_registration, finishRegistration.
    apply says_bind; [by apply says_frames; frame|intros t]. apply says_bind; [by apply says_frames; frame|intros cert].
    apply says_bind; [apply says_post; intros hs u _; by exists cert|intros _; by apply says_frames; frame].
Qed.
Lemma frames_rest server path bodyFor i (pending : bool) : frames identity_json
  (exists_ ← (if pending then accountExists server (MyAccountID i) else mret false);
   if (exists_ : bool) then _ ← finishRegistration; mret i else post_registration server path bodyFor i).
Proof. unfold accountExists, post_registration, finishRegistration. frame; apply frames_do_identity. Qed.
Lemma claim_spec server path bodyFor a : let a' := (claim server path bodyFor a).1 in
  (identity_json a ≠ None → identity_json a' = identity_json a) ∧
  ∃ l, sent (outer a') = sent (outer a) ++ l ∧ ∀ q, q ∈ l → HMethod q = lit "POST" → ∃ i cert, load_identity (identity_json a') = Ok i ∧ HBody q = bodyFor i cert.
Proof.
  cbv zeta. unfold claim. destruct (server =?b []); [split; [done|]; exists []; by rewrite app_nil_r; split; [|intros ? ?%elem_of_nil]|].
  pose proof (identityToRegister_frames server a) as Hf. destruct (says_identityToRegister (λ _, False) server a) as (l0 & E0 & H0).
  assert (l0 = []) as -> by (destruct l0; [done|by apply Forall_cons in H0 as [[] _]]). rewrite app_nil_r in E0.
  rewrite bind_step. destruct (identityToRegister server a) as [a1 [[i pd]|e|]] eqn:Ei; cbn [fst] in *; cycle 1.
  1, 2: split; [exact Hf|]; exists []; rewrite app_nil_r; split; [exact E0|by intros ? ?%elem_of_nil].
  apply identityToRegister_stored in Ei as [Hl _]. pose proof (frames_rest server path bodyFor i pd a1) as Fr. destruct (says_rest server path bodyFor i pd a1) as (l & El & Hs).
  cbv beta zeta in *. rewrite Fr. split; [done|]. exists l. split; [by rewrite El, E0|]. intros q Hq Hp. rewrite Forall_forall in Hs. destruct (Hs q Hq Hp) as (cert & Eb). by exists i, cert.
Qed.
End attempt.

(** ** Any number of attempts *)

(** An attempt against some server -- lost requests, lost answers and refusals are behaviours of the
    network --, or a crash between the two files a first attempt writes. *)
Inductive reg_step (a : account) : account → Prop :=
  | step_register (NW : Network) server opts : reg_step a (Register server opts a).1
  | step_claim (NW : Network) server token : reg_step a (ClaimServer server token a).1
  | step_crash : identity_json a = None → reg_step a (with_registering a true).
(** A request that can create the account of [i]. *)
Definition registers (i : OwnIdentity) (q : HttpRequest) : Prop :=
  ∃ cert, (∃ opts, HBody q = json_Marshal (registerBody opts i cert)) ∨ ∃ token, HBody q = json_Marshal (bootstrapBody token i cert).

Lemma reg_step_spec a a' : reg_step a a' → (identity_json a ≠ None → identity_json a' = identity_json a) ∧
  ∃ l, sent (outer a') = sent (outer a) ++ l ∧ ∀ q, q ∈ l → HMethod q = lit "POST" → ∃ i, load_identity (identity_json a') = Ok i ∧ registers i q.
Proof.
  intros [NW server opts|NW server token|Hn].
  - destruct (claim_spec server (lit "/v1/accounts") (λ i cert, json_Marshal (registerBody opts i cert)) a) as (H1 & l & H2 & H3). split; [done|]. exists l. split; [done|].
    intros q Hq Hp. destruct (H3 q Hq Hp) as (i & cert & Hl & Hb). exists i. split; [done|]. exists cert. left. by exists opts.
  - unfold ClaimServer. destruct (token =?b []); [split; [done|]; exists []; by rewrite app_nil_r; split; [|intros ? ?%elem_of_nil]|].
    destruct (claim_spec server (lit "/v1/bootstrap/claim") (λ i cert, json_Marshal (bootstrapBody token i cert)) a) as (H1 & l & H2 & H3). split; [done|]. exists l. split; [done|].
    intros q Hq Hp. destruct (H3 q Hq Hp) as (i & cert & Hl & Hb). exists i. split; [done|]. exists cert. right. by exists token.
  - split; [done|]. exists []. by rewrite app_nil_r; split; [|intros ? ?%elem_of_nil].
Qed.
Lemma reg_steps_keep a a' : rtc reg_step a a' → identity_json a ≠ None → identity_json a' = identity_json a.
Proof. induction 1 as [a|a b c Hs _ IH]; [done|]. intros Hn. apply reg_step_spec in Hs as [Hk _]. specialize (Hk Hn). rewrite IH; [done|]. by rewrite Hk. Qed.

(** C14: interrupted registrations never make a second account.  Over any number of attempts, against any
    servers and with crashes in between, every request that can create an account names the
    keys of the one identity the directory holds in the end; and once an identity is stored,
    no further attempt replaces it. *)
Theorem one_account a0 a : rtc reg_step a0 a →
  (identity_json a0 ≠ None → identity_json a = identity_json a0) ∧
  ∃ l, sent (outer a) = sent (outer a0) ++ l ∧ ∀ q, q ∈ l → HMethod q = lit "POST" → ∃ i, load_identity (identity_json a) = Ok i ∧ registers i q.
Proof.
  intros H. split; [by apply reg_steps_keep|]. induction H as [a|a b c Hs Hr (l & El & Hl)].
  - exists []. by rewrite app_nil_r; split; [|intros ? ?%elem_of_nil].
  - apply reg_step_spec in Hs as (Hk & l1 & E1 & H1). exists (l1 ++ l). rewrite El, E1, app_assoc. split; [done|].
    intros q [Hq|Hq]%elem_of_app Hp; [|by apply Hl]. destruct (H1 q Hq Hp) as (i & Hi & Hq'). exists i. split; [|done].
    rewrite (reg_steps_keep b c Hr); [done|]. intros E. by rewrite E in Hi.
Qed.

(** ** The other side *)

(** The random source fills what it is asked for. *)
Definition well_fed (a : account) : Prop := Forall (λ r, 32 ≤ zlen r ∧ is_bytes r) (rng a).
(** An identity as [NewIdentity] makes them. *)
Definition fresh_identity (i : OwnIdentity) : Prop :=
  key_pair (MyRootPriv i) (MyRootPub i) ∧ is_bytes (MyRootPub i) ∧ zlen (MyDevicePub i) = 32 ∧ is_bytes (MyDevicePub i) ∧
  (∃ raw, decodeDeviceID (MyDeviceID i) = Ok raw) ∧ Address.DeriveID (MyRootPub i) = Ok (MyAccountID i).

Lemma draw_fed a a' r : well_fed a → draw a = (a', Ok (Some r)) → well_fed a' ∧ 32 ≤ zlen r ∧ is_bytes r.
Proof. unfold well_fed, draw. destruct (rng a) as [|x l]; [done|]. intros [Hx Hl]%Forall_cons [= <- <-]. done. Qed.
Lemma generate_pair w a a' k : well_fed a → generate_ed25519 w a = (a', Ok k) →
  well_fed a' ∧ key_pair k (ed25519_Public k) ∧ zlen (ed25519_Public k) = 32 ∧ is_bytes (ed25519_Public k).
Proof.
  unfold generate_ed25519. intros Hf H. apply proc_bind_Ok in H as (a1 & [r|] & Hd & H); [|done]. apply draw_fed in Hd as (Hf' & Hl & _); [|done].
  apply msg_Ok in H as [-> H]. unfold ed25519_NewKeyFromSeed in H. destruct (zlen (take 32 r) =? 32) eqn:E; [|done]. apply Ok_inj in H as <-. apply Z.eqb_eq in E.
  assert (key_pair (take 32 r ++ ed_pub (take 32 r)) (ed_pub (take 32 r))) as Hk by (by exists (take 32 r)).
  rewrite (key_pair_public _ _ Hk). split_and!; [done..|apply ed_pub_length|apply ed_pub_bytes].
Qed.
Lemma NewIdentity_fresh s a a' i : well_fed a → NewIdentity s a = (a', Ok i) → fresh_identity i.
Proof.
  intros Hf H. unfold NewIdentity in H. apply proc_bind_Ok in H as (a1 & rp & H1 & H). apply generate_pair in H1 as (Hf1 & Hk & Hl & Hb); [|done].
  apply proc_bind_Ok in H as (a2 & dp & H2 & H). apply generate_pair in H2 as (Hf2 & Hk2 & Hl2 & Hb2); [|done].
  apply proc_bind_Ok in H as (a3 & r & H3 & H). step H as H4. step H as H5. apply ret_Ok in H as [_ <-]. unfold NewDeviceID in H4.
  destruct r as [r|]; cbn [fmap option_fmap option_map] in H4; [|done]. apply draw_fed in H3 as (_ & Hr & Hrb); [|done]. cbn [from_option] in H4. apply Ok_inj in H4 as <-.
  unfold fresh_identity. cbn [MyRootPriv MyRootPub MyDevicePub MyDeviceID MyAccountID]. split_and!; [done..| |done].
  unfold decodeDeviceID. rewrite hex_decode_encode by (by apply Forall_take). cbn [from_option mbind res_bind]. unfold deviceIDBytes, zlen in *.
  rewrite length_take_le by (change (Z.to_nat 8) with 8%nat; lia). by eexists.
Qed.

Lemma b64_key k n : is_bytes k → zlen k = n → decodeBase64Key (b64_encode k) n = Some k.
Proof. intros Hb Hl. unfold decodeBase64Key. rewrite b64_decode_encode by done. cbn. by rewrite Hl, Z.eqb_refl. Qed.
Lemma honest_registration_decodes i t : fresh_identity i → year_ok t →
  ∃ cert, DeviceCertificate.SignDeviceCertificate (MyAccountID i) (MyDeviceID i) (MyDevicePub i) (to_second t) (MyRootPriv i) = Ok cert ∧
    DeviceCertificate.IssuedAt cert = to_second t ∧
    decode_registration (b64_encode (MyRootPub i)) (MyDeviceID i) (b64_encode (MyDevicePub i)) (rfc3339 (DeviceCertificate.IssuedAt cert))
      (b64_encode (DeviceCertificate.Signature cert))
    = Ok (MyAccountID i, MyRootPub i, mkEnrolment (MyDeviceID i) (MyDevicePub i) (to_second t) (DeviceCertificate.Signature cert)).
Proof.
  intros (Hk & Hb & Hl & Hdb & [raw Hd] & Hid) Hy. pose proof (key_pair_length _ _ Hk) as [Hpl Hpub].
  assert (∃ cert, DeviceCertificate.SignDeviceCertificate (MyAccountID i) (MyDeviceID i) (MyDevicePub i) (to_second t) (MyRootPriv i) = Ok cert ∧
    DeviceCertificate.mk (MyAccountID i) (MyDeviceID i) (MyDevicePub i) (to_second t) (DeviceCertificate.Signature cert) = cert ∧
    is_bytes (DeviceCertificate.Signature cert) ∧ zlen (DeviceCertificate.Signature cert) = 64) as (cert & Hs & Hc & Hsb & Hsl).
  { unfold DeviceCertificate.SignDeviceCertificate, DeviceCertificate.signingBytes. cbn [DeviceCertificate.DeviceID DeviceCertificate.DevicePubKey]. rewrite Hd. cbn [mbind res_bind].
    rewrite Hl. change (negb (32 =? ed25519_PublicKeySize)) with false. cbv iota. cbn [mbind res_bind]. rewrite (Sign_Ok _ _ _ Hk). eexists. split; [done|]. cbn.
    split_and!; [done|apply ed_sign_bytes|apply ed_sign_length]. }
  exists cert. split; [done|]. rewrite <- Hc at 1 2. cbn [DeviceCertificate.IssuedAt]. split; [done|]. unfold decode_registration.
  rewrite !b64_key by done. cbn [from_option mbind res_bind]. rewrite time_parse_stored by done. cbn [from_option mbind res_bind]. rewrite Hid. cbn [or_reply mbind res_bind].
  unfold verify_enrolment. cbn [EnDeviceID EnDevicePub EnIssuedAt EnSignature]. rewrite Hc.
  by rewrite (proj1 (signed_records_verify _ _ Hk) _ _ _ _ _ Hs).
Qed.

Lemma hlift_run {A C} (x : A) (k : A → handler C) d : (hlift (Ok x) ≫= k) d = k x d.
Proof. done. Qed.
(** What the client posts, the server takes.  An identity of [NewIdentity], registered with the body
    [Register] builds, on a server that is open for registration: the request is refused only because the
    account, its prefix or its device id is taken; otherwise the server creates exactly the account id the
    client derived for itself, so the question a resumed attempt asks finds it. *)
Theorem registration_accepted server a a' i opts t cert f at_ d :
  well_fed a → NewIdentity server a = (a', Ok i) → year_ok t → year_ok at_ →
  DeviceCertificate.SignDeviceCertificate (MyAccountID i) (MyDeviceID i) (MyDevicePub i) (to_second t) (MyRootPriv i) = Ok cert →
  GetRegistrationPolicy f = Ok PolicyOpen →
  match handleRegisterAccount f at_ (Some (registerBody opts i cert)) d with
  | (d', Ok resp) => ArID resp = MyAccountID i ∧ ArRootPubKey resp = b64_encode (MyRootPub i) ∧
                     ∃ acc, GetAccount d' (MyAccountID i) = Ok acc ∧ Store.RootPubKey acc = MyRootPub i
  | (d', Err e) => d' = d ∧ e ∈ [conflict "account_exists"; conflict "id_prefix_taken"; conflict "device_exists"]
  | (_, Panic) => False
  end.
Proof.
  intros Hf Hn Hy Ha Hc Hp. destruct (honest_registration_decodes i t (NewIdentity_fresh _ _ _ _ Hf Hn) Hy) as (cert' & Hs & _ & Hd). rewrite Hs in Hc. apply Ok_inj in Hc as ->.
  unfold handleRegisterAccount. cbn [from_option]. rewrite hlift_run. unfold registerBody. cbn [RgRootPubKey RgDeviceID RgDevicePubKey RgIssuedAt RgSignature RgInviteCode].
  rewrite Hd, hlift_run, Hp. cbn [or_reply]. rewrite hlift_run.
  change (check (negb (PolicyOpen =?b PolicyClosed)) (mkReply 403 (lit "registration_closed"))) with (@Ok reply () ()). rewrite hlift_run.
  change (check (negb (PolicyOpen =?b PolicyInvite) || _) _) with (@Ok reply () ()). rewrite hlift_run. unfold in_tx, stmt, mbind, handler_bind, CreateAccount.
  set (acc := new_account _ _ _ _). destruct (present (accounts d !! ID acc) || _) eqn:Ec; cbn.
  { destruct (GetAccount d (MyAccountID i)) as [x|[]|] eqn:Eg; cbn; set_solver. }
  unfold CreateDevice. cbn [accounts devices set_accounts]. destruct (present (devices d !! _)); [cbn; set_solver|]. rewrite lookup_insert_eq. cbn.
  split_and!; [done..|]. unfold GetAccount. cbn. rewrite lookup_insert_eq. unfold scanAccount. cbn. rewrite parse_format by done. by eexists.
Qed.
End register.
