(* ===== verification/SendExamples.v ===== *)
(** * Sends, registrations and streams, evaluated

    A concrete format for the bodies of requests, a small internet of scripted answers, and
    sends, registrations and a stream through it. *)

From S2P Require Import WakeCoalesce Broker Store StoreCorrect StoreIntegrity StoreQueue Auth PrekeysCorrect AccountsCorrect ServerExamples ClientRegister Prelude GoStr GoTime GoTimeParse Sha256 Crypto Base64 Bech32m Address DeviceCert HttpSig Delivery Federation Prekeys Accounts Resolve GroupEvent GroupState GroupResolve GroupExamples ProfileClaim Ratchet RatchetCorrect RatchetExamples ClientLog ClientDedup ClientTranscript ClientExamples Envelope ClientState ClientProfile ClientGroups ClientReceive ClientFrames ClientReceiveCorrect WireExamples ClientNet Stream ClientBlobs ClientSend ClientSendCorrect.

(** ** Formats *)

Definition leaves (l : list bytes) : tree := GenNode 0 (GenLeaf <$> l).
Definition un_leaves (t : tree) : list bytes := match t with GenNode _ l => leaf <$> l | _ => [] end.
Lemma un_leaves_of l : un_leaves (leaves l) = l.
Proof. apply un_list_tree. done. Qed.
Definition nth_leaf (n : nat) (l : list bytes) : bytes := default [] (l !! n).
Definition node (l : list tree) : tree := GenNode 0 l.
Definition children (t : tree) : list tree := match t with GenNode _ l => l | _ => [] end.
Definition child (n : nat) (t : tree) : tree := default (GenLeaf []) (children t !! n).

Definition cert_leaves (c : federationDeviceCertDTO) : list bytes := [FcDeviceID c; FcDevicePubKey c; FcIssuedAt c; FcSignature c].
Definition send_leaves (r : sendMessageRequest) : list bytes := [SMessageID r; SRecipientAccountID r; SRecipientDeviceID r; SPayload r].
Definition dh_leaves (c : dhIdentityCertDTO) : list bytes := [DhPubKey c; DhIssuedAt c; DhSignature c].
Definition spk_leaves (k : signedPrekeyDTO) : list bytes := [num (PkKeyID k); PkDHIdentityPubKey k; PkPubKey k; PkIssuedAt k; PkSignature k].
Definition otp_leaves (k : oneTimePrekeyDTO) : list bytes := [num (OpKeyID k); OpPubKey k].
Definition un_cert (l : list bytes) := mkCertDTO (nth_leaf 0 l) (nth_leaf 1 l) (nth_leaf 2 l) (nth_leaf 3 l).
Definition un_send (l : list bytes) := mkSend (nth_leaf 0 l) (nth_leaf 1 l) (nth_leaf 2 l) (nth_leaf 3 l).
Definition un_dh (l : list bytes) := mkDHCert (nth_leaf 0 l) (nth_leaf 1 l) (nth_leaf 2 l).
Definition un_spk (l : list bytes) := mkSPK (unnum (nth_leaf 0 l)) (nth_leaf 1 l) (nth_leaf 2 l) (nth_leaf 3 l) (nth_leaf 4 l).
Definition un_otp (l : list bytes) := mkOTP (unnum (nth_leaf 0 l)) (nth_leaf 1 l).
Definition device_tree (d : deviceResponse) : tree :=
  node [leaves [DrDeviceID d; DrDevicePubKey d; DrIssuedAt d; DrSignature d; DrStatus d]; opt_tree GenLeaf (DrRevokedAt d)].
Definition un_device (t : tree) : deviceResponse :=
  let l := un_leaves (child 0 t) in mkDeviceResponse (nth_leaf 0 l) (nth_leaf 1 l) (nth_leaf 2 l) (nth_leaf 3 l) (nth_leaf 4 l) (un_opt leaf (child 1 t)).
Lemma un_device_tree d : un_device (device_tree d) = d.
Proof. destruct d as [? ? ? ? ? r]. unfold un_device. cbn -[un_opt opt_tree]. by rewrite un_opt_tree by done. Qed.

Definition error_json : Json errorEnvelope := via_tree (λ e, opt_tree GenLeaf (EnError e)) (λ t, mkErrorEnvelope (un_opt leaf t))
  (λ e, match e with mkErrorEnvelope None => eq_refl | mkErrorEnvelope (Some _) => eq_refl end).
Definition detail_json : Json errorDetail := via_tree (λ d, leaves [EdCode d; EdMessage d])
  (λ t, mkErrorDetail (nth_leaf 0 (un_leaves t)) (nth_leaf 1 (un_leaves t))) (λ d, match d with mkErrorDetail _ _ => eq_refl end).
Definition send_json : Json sendMessageRequest := via_tree (λ r, leaves (send_leaves r)) (λ t, un_send (un_leaves t)) (λ r, match r with mkSend _ _ _ _ => eq_refl end).
Definition federated_json : Json federationMessageRequest :=
  via_tree (λ r, node [leaves [FmSenderAccountID r; FmSenderRootPubKey r]; leaves (cert_leaves (FmSenderDeviceCert r)); leaves (send_leaves (FmItem r))])
    (λ t, mkFedMessage (nth_leaf 0 (un_leaves (child 0 t))) (nth_leaf 1 (un_leaves (child 0 t))) (un_cert (un_leaves (child 1 t))) (un_send (un_leaves (child 2 t))))
    (λ r, match r with mkFedMessage _ _ (mkCertDTO _ _ _ _) (mkSend _ _ _ _) => eq_refl end).
Definition claim_json : Json claimPrekeyBundleRequest :=
  via_tree (λ r, node [leaves [CrAccountID r; CrRootPubKey r]; leaves (cert_leaves (CrDeviceCert r))])
    (λ t, mkClaimReq (nth_leaf 0 (un_leaves (child 0 t))) (nth_leaf 1 (un_leaves (child 0 t))) (un_cert (un_leaves (child 1 t))))
    (λ r, match r with mkClaimReq _ _ (mkCertDTO _ _ _ _) => eq_refl end).
Definition upload_tree (r : uploadPrekeysRequest) : tree :=
  node [opt_tree (λ c, leaves (dh_leaves c)) (UpDHIdentityCert r); leaves (spk_leaves (UpSignedPrekey r));
        node ((λ k, leaves (otp_leaves k)) <$> UpOneTimePrekeys r); GenLeaf (flag (UpReplace r))].
Definition un_upload (t : tree) : uploadPrekeysRequest :=
  mkUpload (un_opt (λ t, un_dh (un_leaves t)) (child 0 t)) (un_spk (un_leaves (child 1 t))) ((λ t, un_otp (un_leaves t)) <$> children (child 2 t))
    (unflag (leaf (child 3 t))).
Lemma un_upload_tree r : un_upload (upload_tree r) = r.
Proof.
  destruct r as [c [] l b]. unfold un_upload, upload_tree. cbn -[un_opt opt_tree]. rewrite un_opt_tree by (by intros []).
  rewrite un_list_tree by (by intros []). by destruct b.
Qed.
Definition account_tree (r : accountResponse) : tree := node [leaves [ArID r; ArRootPubKey r]; node (device_tree <$> ArDevices r)].
Definition un_account (t : tree) : accountResponse :=
  mkAccountResponse (nth_leaf 0 (un_leaves (child 0 t))) (nth_leaf 1 (un_leaves (child 0 t))) (un_device <$> children (child 1 t)).
Lemma un_account_tree r : un_account (account_tree r) = r.
Proof. destruct r as [? ? l]. unfold un_account, account_tree. cbn -[un_device device_tree]. by rewrite (un_list_tree device_tree un_device l un_device_tree). Qed.
Definition bundle_tree (b : prekeyBundleResponse) : tree :=
  node [leaves [BuDeviceID b; BuDHIdentityPubKey b; BuOmitted b]; leaves (dh_leaves (BuDHIdentityCert b)); leaves (spk_leaves (BuSignedPrekey b));
        opt_tree (λ k, leaves (otp_leaves k)) (BuOneTimePrekey b)].
Definition un_bundle (t : tree) : prekeyBundleResponse :=
  Prekeys.mkBundle (nth_leaf 0 (un_leaves (child 0 t))) (nth_leaf 1 (un_leaves (child 0 t))) (un_dh (un_leaves (child 1 t))) (un_spk (un_leaves (child 2 t)))
    (un_opt (λ t, un_otp (un_leaves t)) (child 3 t)) (nth_leaf 2 (un_leaves (child 0 t))).
Lemma un_bundle_tree b : un_bundle (bundle_tree b) = b.
Proof. destruct b as [? ? [] [] o ?]. unfold un_bundle, bundle_tree. cbn -[un_opt opt_tree]. by rewrite un_opt_tree by (by intros []). Qed.
Definition status_tree (w : serverStatusWire) : tree :=
  node [leaves [flag (SwClaimed w); SwRegistrationPolicy w; opt_flag (SwFederationEnabled w); flag (SwBlobsEnabled w); num (SwMaxBlobBytes w);
                flag (SwBatchMessages w); num (SwMaxBatchMessages w); SwAttestation w; flag (SwReportsEnabled w)];
        opt_tree (λ z, GenLeaf (num z)) (SwMaxBlobRecipients w)].
Definition un_status (t : tree) : serverStatusWire :=
  let l := un_leaves (child 0 t) in
  mkStatusWire (unflag (nth_leaf 0 l)) (nth_leaf 1 l) (un_opt_flag (nth_leaf 2 l)) (unflag (nth_leaf 3 l)) (unnum (nth_leaf 4 l))
    (un_opt (λ t, unnum (leaf t)) (child 1 t)) (unflag (nth_leaf 5 l)) (unnum (nth_leaf 6 l)) (nth_leaf 7 l) (unflag (nth_leaf 8 l)).
Lemma un_status_tree w : un_status (status_tree w) = w.
Proof. destruct w as [a b c d e f g h i j]. unfold un_status, status_tree. cbn -[un_opt opt_tree]. rewrite un_opt_tree by done. by destruct a, c as [[]|], d, g, j. Qed.
Definition remaining_json : Json remainingWire := via_tree (λ w, GenLeaf (num (RwRemaining w))) (λ t, mkRemaining (unnum (leaf t))) (λ w, match w with mkRemaining _ => eq_refl end).
Definition incoming_tree (l : list incomingMessageWire) : tree :=
  node ((λ w, leaves [IwMessageID w; IwSenderAccountID w; IwSenderDeviceID w; IwSentAt w; IwPayload w]) <$> l).
Definition un_incoming (t : tree) : list incomingMessageWire :=
  (λ t, let l := un_leaves t in mkIncomingWire (nth_leaf 0 l) (nth_leaf 1 l) (nth_leaf 2 l) (nth_leaf 3 l) (nth_leaf 4 l)) <$> children t.
Lemma un_incoming_tree l : un_incoming (incoming_tree l) = l.
Proof. unfold un_incoming, incoming_tree. cbn [children node]. apply (un_list_tree _ (λ t, let l := un_leaves t in mkIncomingWire _ _ _ _ _)). by intros []. Qed.

#[export] Instance tree_formats : WireFormats := {|
  wf_error := error_json; wf_detail := detail_json; wf_send := send_json; wf_federated := federated_json; wf_claim := claim_json;
  wf_upload := via_tree upload_tree un_upload un_upload_tree; wf_account := via_tree account_tree un_account un_account_tree;
  wf_bundle := via_tree bundle_tree un_bundle un_bundle_tree; wf_status := via_tree status_tree un_status un_status_tree;
  wf_remaining := remaining_json; wf_incoming := via_tree incoming_tree un_incoming un_incoming_tree;
|}.
#[export] Instance upload_response_json : Json uploadResponse :=
  via_tree (λ r, GenLeaf (UrBlobID r)) (λ t, mkUploadResponse (leaf t)) (λ r, match r with mkUploadResponse _ => eq_refl end).

(** ** An internet of scripted answers *)

Definition scripted (f : nat → HttpRequest → http_result) : Network :=
  {| answer h r := f (length h) r; clock n := at_time (Z.of_nat n); good_target _ := true |}.
Definition ok_json {R} {J : Json R} (x : R) : http_result := Answered 200 (json_Marshal x).
Definition accepted : http_result := ok_json (mkErrorEnvelope None).

(** An identity with all its keys: root [n], device [n + 1], DH identity [n + 2], signed prekey [n + 3]. *)
Definition persona (id : bytes) (n : Z) : OwnIdentity :=
  mkOwnIdentity id (lit "https://a") (pub n) (priv n) (lit "0011223344556677") (pub (n + 1)) (priv (n + 1)) (x_pub (key (n + 2))) (key (n + 2)) 1
    (x_pub (key (n + 3))) (key (n + 3)) 2 9 false None [].
(** A client that holds [s] for sending to [peer], and knows its device. *)
Definition writer (i : OwnIdentity) (peer : bytes) (s : option Session) (device : option peerDeviceFile) (blocked : list blockedEntry) (random : list bytes) : account :=
  mkAccount (stored_identity i) [] blocked zero_settings ∅
    {[peer := mkPeerDir ((λ s, toJSON_in s (map_to_list (Skipped s))) <$> s) None None device None]} ∅ ∅ ∅ empty_dedup (mkDisk None None) random (mkOutside [] 0) false.
Definition randomness : list bytes := (λ n, key (100 + n)) <$> seqZ 0 30.

(** *** A lost connection *)

Definition offline : Network := scripted (λ _ _, NoAnswer).
Definition bob_device : peerDeviceFile := mkDeviceFile [] (lit "0011223344556677") (pub 9).
Definition alice_writes : account := writer (persona (lit "alice") 10) (lit "bob") (Some sent_a) (Some bob_device) [] randomness.
(** Bob after the first message of the session. *)
Definition bob_follows : Session :=
  (ok_or (zero_session, []) (try_initial (MyDHIdentityPriv id_b) (MySignedPrekeyPriv id_b) (Some ot_b.2) start_a.2 seal_a.1 seal_a.2 (Some (key 70)))).1.
Definition chain_a : bytes := default [] (CKs start_a.1).

Lemma bob_receiving : receiving bob_follows (x_pub (key 51)) chain_a {[0%nat]} 1.
Proof.
  constructor; [by_vm|by_vm|by_vm|..].
  - intros k ->%elem_of_singleton. split; [lia|by_vm].
  - intros k Hk Hn. exfalso. apply Hn, elem_of_singleton. lia.
  - intros k _. assert (Skipped bob_follows = ∅) as -> by by_vm. apply lookup_empty.
Qed.
Lemma sent_a_storable : storable sent_a ∧ buffered sent_a.
Proof.
  assert (Skipped sent_a = ∅) as E by by_vm. split; constructor.
  - intros k Hk. assert (DHs sent_a = Some (key 51)) as D by by_vm. rewrite D in Hk. injection Hk as <-. by_vm.
  - intros k Hk. assert (DHr sent_a = Some (x_pub (key 21))) as D by by_vm. rewrite D in Hk. injection Hk as <-. by_vm.
  - by vm_compute.
  - by vm_compute.
  - rewrite E. by vm_compute.
  - intros k v Hk. by rewrite E, lookup_empty in Hk.
Qed.

Lemma failed_send_retried_witness : ∃ a1 s' s1 s2 h c c' r' r'',
  deliver (NW := offline) (lit "bob") (lit "again?") false alice_writes = (a1, Err EURL) ∧
  load_session (session_json (peer_of a1 (lit "bob"))) = Ok (Some s') ∧
  Encrypt sent_a (lit "again?") = (s1, Ok (h, c)) ∧ Encrypt s' (lit "again?") = (s2, Ok (h, c')) ∧
  Decrypt bob_follows h c None = (r', Ok (lit "again?")) ∧ Decrypt r' h c' None = (r', Err ErrDuplicateMessage) ∧
  Decrypt bob_follows h c' None = (r'', Ok (lit "again?")).
Proof.
  assert (deliver (NW := offline) (lit "bob") (lit "again?") false alice_writes
    = ((deliver (NW := offline) (lit "bob") (lit "again?") false alice_writes).1, Err EURL)) as Hd.
  { assert ((deliver (NW := offline) (lit "bob") (lit "again?") false alice_writes).2 = Err EURL) as <- by by_vm. exact (surjective_pairing _). }
  exists (deliver (NW := offline) (lit "bob") (lit "again?") false alice_writes).1.
  destruct (failed_send_retried (NW := offline) (lit "bob") (lit "again?") false alice_writes
    (deliver (NW := offline) (lit "bob") (lit "again?") false alice_writes).1 EURL sent_a (key 51) chain_a 1 {[0%nat]} bob_follows None
    (lit "again?")) as (s' & s1 & s2 & h & c & c' & r' & r'' & H).
  - by_vm.
  - exact (proj1 sent_a_storable).
  - exact (proj2 sent_a_storable).
  - assert (skipSeq sent_a = 0) as -> by by_vm. lia.
  - exact Hd.
  - discriminate.
  - reflexivity.
  - by_vm.
  - by_vm.
  - by_vm.
  - lia.
  - by_vm.
  - exact bob_receiving.
  - apply Nat.leb_le. by_vm.
  - exists s', s1, s2, h, c, c', r', r''. split; [exact Hd|exact H].
Defined.

(** *** A blocked contact *)

Definition no_options : SendOptions := mkSendOptions [] [] None None [] None.
Definition alice_blocks : account :=
  writer (persona (lit "alice") 10) (lit "bob") (Some sent_a) (Some bob_device) [mkBlockedEntry (lit "bob") []] randomness.
Lemma blocked_peer_sent_nothing_witness :
  sent (outer (SendText (NW := scripted (λ _ _, accepted)) (lit "bob") (lit "hello") no_options alice_blocks).1) = [] ∧
  sent (outer (ResetSession (NW := scripted (λ _ _, accepted)) (lit "bob") RekeyUserRequested alice_blocks).1) = [].
Proof.
  destruct (blocked_peer_sent_nothing (NW := scripted (λ _ _, accepted)) (lit "bob") alice_blocks (lit "hello") no_options (lit "m") ReceiptRead t0 RekeyUserRequested)
    as (H1 & _ & _ & _ & _ & H2); [by_vm|]. split; [exact H1|exact H2].
Defined.
(** Unblocked, a message leaves. *)
Example unblocked_sends :
  length (sent (outer (deliver (NW := scripted (λ _ _, accepted)) (lit "bob") (lit "hello") false alice_writes).1)) = 1%nat.
Proof. by_vm. Qed.

(** *** The directory answers with another account *)

Definition names (part : bytes) (r : HttpRequest) : bool := GoStr.contains (HTarget r) part.
(** What a server publishes about the owner of [i]. *)
Definition directory_entry (i : OwnIdentity) : accountResponse :=
  mkAccountResponse (MyAccountID i) (b64_encode (MyRootPub i))
    [mkDeviceResponse (MyDeviceID i) (b64_encode (MyDevicePub i)) (rfc3339 (at_time 0)) (b64_encode (get [] (signDeviceCertificate i (at_time 0))))
       (lit "active") None].
Definition no_dh : dhIdentityCertDTO := mkDHCert [] [] [].
Definition no_spk : signedPrekeyDTO := mkSPK 0 [] [] [] [].
Definition published (i : OwnIdentity) : prekeyBundleResponse :=
  Prekeys.mkBundle (MyDeviceID i) (b64_encode (MyDHIdentityPub i)) (get no_dh (dhCertFor i (MyDHIdentityPub i) (at_time 0))) (get no_spk (signedPrekeyWireFor i (at_time 0)))
    None [].
(** A server that shows [i] to whoever asks for anybody. *)
Definition shows (i : OwnIdentity) : Network := scripted (λ _ r,
  if names (lit "/v1/accounts/") r then ok_json (directory_entry i) else if names (lit "/prekey-bundle") r then ok_json (published i) else accepted).
(** The payload of the last message posted. *)
Definition posted (a : account) : option sendMessageRequest :=
  r ← last (sent (outer a)); json_Unmarshal (R := sendMessageRequest) (HBody r).
Definition delivered_as (i : OwnIdentity) (m : sendMessageRequest) : IncomingMessage := mkIncoming (SMessageID m) (MyAccountID i) (MyDeviceID i) None (SPayload m).

Definition sender : OwnIdentity := persona alice 10.
Definition eavesdropper : OwnIdentity := persona mallory 4.
Definition sender_account : account := writer sender bob None None [] randomness.
Definition eavesdropper_account : account := writer eavesdropper alice None None [] randomness.
Definition after_send : account := (deliver (NW := shows eavesdropper) bob (lit "for bob only") false sender_account).1.

(** A message for one account is encrypted to, and opened by, the account the directory showed instead. *)
Example message_for_bob_read_by_mallory :
  (SRecipientAccountID <$> posted after_send) = Some mallory ∧
  (m ← posted after_send; match (decrypt (delivered_as sender m) eavesdropper_account).2 with Ok (c, _) => Some (CText c) | _ => None end)
  = Some (lit "for bob only").
Proof. vm_compute. done. Qed.

(** *** A first message sent twice *)

(** The server stores the first copy, and its answer is lost. *)
Definition answer_lost (i : OwnIdentity) : Network := scripted (λ _ r,
  if names (lit "/v1/accounts/") r then ok_json (directory_entry i) else if names (lit "/prekey-bundle") r then ok_json (published i) else NoAnswer).
Definition receiver : OwnIdentity := persona bob 5.
Definition copies : list sendMessageRequest :=
  let a1 := (deliver (NW := answer_lost receiver) bob (lit "hello") false sender_account).1 in
  let a2 := (deliver (NW := shows receiver) bob (lit "hello") false a1).1 in
  option_list (posted a1) ++ option_list (posted a2).
Definition receiver_account : account := writer receiver alice None None [] ((λ n, key (150 + n)) <$> seqZ 0 30).
Definition nth_copy (n : nat) : sendMessageRequest := default (mkSend [] [] [] []) (copies !! n).
Definition handled_first : account * res cerr ReceiveResult := HandleIncoming (delivered_as sender (nth_copy 0)) [] t0 receiver_account.
Definition handled_second : account * res cerr ReceiveResult := HandleIncoming (delivered_as sender (nth_copy 1)) [] t0 handled_first.1.
Definition result_of (r : account * res cerr ReceiveResult) : option ReceiveResult := match r.2 with Ok x => Some x | _ => None end.
Definition received : list (option ReceiveResult) := [result_of handled_first; result_of handled_second].
(** Both copies are taken: neither is a duplicate, and the second replaces the session. *)
Example first_message_twice : map (λ r : option ReceiveResult, (option_map RrDuplicate r, option_map RrAdoptedPeerSession r)) received = [(Some false, Some false); (Some false, Some true)].
Proof. by_vm. Qed.

(** ** Registrations, evaluated

    A registration whose answer is lost and that is taken up again, and a server that takes
    what the client posts. *)

Definition register_leaves (r : registerAccountRequest) : list bytes := [RgRootPubKey r; RgDeviceID r; RgDevicePubKey r; RgIssuedAt r; RgSignature r].
Definition register_tree (r : registerAccountRequest) : tree := node [leaves (register_leaves r); opt_tree GenLeaf (RgInviteCode r)].
Definition un_register (t : tree) : registerAccountRequest :=
  let l := un_leaves (child 0 t) in mkRegister (nth_leaf 0 l) (nth_leaf 1 l) (nth_leaf 2 l) (nth_leaf 3 l) (nth_leaf 4 l) (un_opt leaf (child 1 t)).
Lemma un_register_tree r : un_register (register_tree r) = r.
Proof. destruct r as [? ? ? ? ? o]. unfold un_register, register_tree. cbn -[un_opt opt_tree]. by rewrite un_opt_tree by done. Qed.
#[export] Instance register_json : Json registerAccountRequest := via_tree register_tree un_register un_register_tree.
Definition bootstrap_leaves (r : bootstrapClaimRequest) : list bytes :=
  [BsSetupToken r; BsRootPubKey r; BsDeviceID r; BsDevicePubKey r; BsIssuedAt r; BsSignature r].
#[export] Instance bootstrap_json : Json bootstrapClaimRequest :=
  via_tree (λ r, leaves (bootstrap_leaves r))
    (λ t, let l := un_leaves t in mkBootstrap (nth_leaf 0 l) (nth_leaf 1 l) (nth_leaf 2 l) (nth_leaf 3 l) (nth_leaf 4 l) (nth_leaf 5 l))
    (λ r, match r with mkBootstrap _ _ _ _ _ _ => eq_refl end).

(** ** An attempt whose answer is lost *)

Definition nobody : account := with_rng empty_account [key 1; key 2; key 3; key 4; key 5; key 6].
Definition no_invite : RegisterOptions := mkRegisterOptions [].
Definition home_server : bytes := lit "https://a".
(** The directory does not know the account. *)
Definition unknown_there : Network := scripted (λ _ r, if HMethod r =?b lit "GET" then Answered 404 (json_Marshal (mkErrorEnvelope None)) else accepted).
Definition lost : account := (Register (NW := offline) home_server no_invite nobody).1.
Definition resumed : account := (Register (NW := unknown_there) home_server no_invite lost).1.
Definition bodies (a : account) : list registerAccountRequest := omap (λ q, if HMethod q =?b lit "POST" then json_Unmarshal (HBody q) else None) (sent (outer a)).

(** Both attempts name the same root key, and only the second ends the registration. *)
Example resumed_with_same_keys : (let r := resumed in (registering lost, registering r, RgRootPubKey <$> bodies r))
  = (true, false, [b64_encode (ed_pub (key 1)); b64_encode (ed_pub (key 1))]).
Proof. by_vm. Qed.
Example finished_refuses : (Register (NW := unknown_there) home_server no_invite resumed).2 = Err ErrAlreadyRegistered.
Proof. by_vm. Qed.

Lemma one_account_witness : rtc reg_step nobody resumed ∧
  ∃ l, sent (outer resumed) = sent (outer nobody) ++ l ∧
    ∀ q, q ∈ l → HMethod q = lit "POST" → ∃ i, load_identity (identity_json resumed) = Ok i ∧ registers i q.
Proof.
  assert (rtc reg_step nobody resumed) as H.
  { exact (rtc_l reg_step nobody lost resumed (step_register nobody offline home_server no_invite)
      (rtc_once (R := reg_step) lost resumed (step_register lost unknown_there home_server no_invite))). }
  split; [exact H|]. exact (proj2 (one_account nobody resumed H)).
Defined.

(** ** A server that takes the body *)

Definition newcomer : account * res cerr OwnIdentity := NewIdentity home_server nobody.
Definition newcomer_id : OwnIdentity := match newcomer.2 with Ok i => i | _ => persona [] 0 end.
Definition newcomer_cert : DeviceCertificate.t :=
  get no_cert (DeviceCertificate.SignDeviceCertificate (MyAccountID newcomer_id) (MyDeviceID newcomer_id) (MyDevicePub newcomer_id) (to_second t0) (MyRootPriv newcomer_id)).
Definition open_server : fed := mkFed (Some (Federation.mkSettings (lit "open") (Some 1) None None)) ∅.
Definition taken : db * res reply accountResponse := handleRegisterAccount open_server t0 (Some (registerBody no_invite newcomer_id newcomer_cert)) empty_db.

Lemma registration_accepted_witness : is_ok taken.2 = true ∧
  match handleRegisterAccount open_server t0 (Some (registerBody no_invite newcomer_id newcomer_cert)) empty_db with
  | (d', Ok resp) => ArID resp = MyAccountID newcomer_id ∧ ArRootPubKey resp = b64_encode (MyRootPub newcomer_id) ∧
                     ∃ acc, GetAccount d' (MyAccountID newcomer_id) = Ok acc ∧ Store.RootPubKey acc = MyRootPub newcomer_id
  | (d', Err e) => d' = empty_db ∧ e ∈ [conflict "account_exists"; conflict "id_prefix_taken"; conflict "device_exists"]
  | (_, Panic) => False
  end.
Proof.
  split; [by_vm|].
  assert (well_fed nobody) as Hf.
  { change (Forall (λ r, 32 ≤ zlen r ∧ is_bytes r) (key <$> [1; 2; 3; 4; 5; 6])). apply Forall_fmap. repeat constructor; try (by vm_compute).
    all: apply Forall_replicate; by vm_compute. }
  assert (NewIdentity home_server nobody = (newcomer.1, Ok newcomer_id)) as Hn by (assert (newcomer.2 = Ok newcomer_id) as <- by by_vm; exact (surjective_pairing _)).
  assert (year_ok t0) as Hy by (apply year_ok_by; by_vm).
  assert (DeviceCertificate.SignDeviceCertificate (MyAccountID newcomer_id) (MyDeviceID newcomer_id) (MyDevicePub newcomer_id) (to_second t0) (MyRootPriv newcomer_id)
    = Ok newcomer_cert) as Hc by by_vm.
  assert (GetRegistrationPolicy open_server = Ok PolicyOpen) as Hp by by_vm.
  pose proof (registration_accepted home_server nobody newcomer.1 newcomer_id no_invite t0 newcomer_cert open_server t0 empty_db Hf Hn Hy Hy Hc Hp) as H. exact H.
Defined.

(** ** A stream *)

Definition incoming_json : Json incomingMessageWire :=
  via_tree (λ w, leaves [IwMessageID w; IwSenderAccountID w; IwSenderDeviceID w; IwSentAt w; IwPayload w])
    (λ t, let l := un_leaves t in mkIncomingWire (nth_leaf 0 l) (nth_leaf 1 l) (nth_leaf 2 l) (nth_leaf 3 l) (nth_leaf 4 l))
    (λ w, match w with mkIncomingWire _ _ _ _ _ => eq_refl end).
#[local] Existing Instance incoming_json.
Definition streamed (id : string) : Store.Message := Store.mkMessage (lit id) (Store.ID ServerExamples.carol) (lit "0102030405060708") (Store.ID ServerExamples.alice) (Store.DeviceID ServerExamples.phone) (lit "{}") t0 t0.
Definition on_air : list sse_write := [WriteHeartbeat; WriteMessage (streamed "m2"); WriteHeartbeat].
Lemma stream_delivers_witness : read_frames (stream_output [streamed "m1"] on_air) = [as_received (streamed "m1"); as_received (streamed "m2")].
Proof.
  assert (year_ok t0) as Hy by (apply year_ok_by; by_vm).
  assert (Forall sendable ([streamed "m1"] ++ (on_air ≫= written))) as Hs by (change (Forall sendable [streamed "m1"; streamed "m2"]); do 2 (apply Forall_cons_2; [split; [exact I|exact Hy]|]); apply Forall_nil_2).
  exact (proj1 (stream_delivers [streamed "m1"] on_air Hs)).
Defined.

Definition reset_by_peer : cerr := EMsg "client: connection reset".
Definition plain_policy : StreamPolicy := mkPolicy 0 0 0 0 0.
(** The third attempt after two failures waits four times as long as the first. *)
Lemma retry_backs_off_witness : ∃ evs, Stream plain_policy id [NotOpened reset_by_peer; NotOpened reset_by_peer; NotOpened reset_by_peer; Opened [] reset_by_peer] !! 2%nat = Some (evs, 12 * second) ∧
  12 * second = Z.min (InitialRetryDelay (withDefaults plain_policy) * 2 ^ 2) (MaxRetryDelay (withDefaults plain_policy)).
Proof.
  assert (sane_policy (withDefaults plain_policy)) as Hs by (repeat split; vm_compute; congruence).
  destruct (retry_backs_off plain_policy id [NotOpened reset_by_peer; NotOpened reset_by_peer; NotOpened reset_by_peer; Opened [] reset_by_peer] Hs) as [_ H].
  destruct (Stream plain_policy id [NotOpened reset_by_peer; NotOpened reset_by_peer; NotOpened reset_by_peer; Opened [] reset_by_peer] !! 2%nat) as [[evs pause]|] eqn:E; [|by vm_compute in E].
  destruct (H _ _ _ E) as (a & Ha & Hx). injection Ha as <-. destruct Hx as (n & e & -> & -> & _). exists evs. split; [|by_vm]. f_equal.
Defined.
