(* ===== verification/GroupSendExamples.v ===== *)
(** * Messages to groups, evaluated

    Formats for the bodies of batches, and sends to a group over scripted networks. *)

From S2P Require Import Prelude GoStr GoTime GoTimeParse Sha256 Crypto Base64 Bech32m Address DeviceCert HttpSig Delivery Federation Prekeys Accounts Resolve.
From S2P Require Import GroupEvent GroupState GroupResolve GroupExamples ProfileClaim Ratchet RatchetCorrect RatchetExamples ClientLog ClientDedup ClientTranscript ClientExamples Envelope ClientState ClientProfile ClientGroups ClientReceive ClientFrames ClientReceiveCorrect WireExamples ClientNet ClientBlobs ClientSend ClientSendCorrect.
From S2P Require Import ClientGroupSend ClientGroupTalk ClientGroupActions ClientGroupSendCorrect SendExamples.

(** ** Formats *)

Definition item_leaves (i : batchItem) : list bytes := [BiMessageID i; BiRecipientDeviceID i; BiPayload i].
Definition un_item (l : list bytes) : batchItem := mkBatchItem (nth_leaf 0 l) (nth_leaf 1 l) (nth_leaf 2 l).
Definition items_tree (l : list batchItem) : tree := node ((λ i, leaves (item_leaves i)) <$> l).
Definition un_items (t : tree) : list batchItem := (λ t, un_item (un_leaves t)) <$> children t.
Lemma un_items_tree l : un_items (items_tree l) = l.
Proof. unfold un_items, items_tree. cbn [children node]. apply un_list_tree. by intros []. Qed.
Lemma un_batch_tree b : mkBatchBody (un_items (items_tree (BbMessages b))) = b.
Proof. destruct b. by rewrite un_items_tree. Qed.
Definition federated_batch_tree (b : federatedBatchBody) : tree :=
  node [leaves [FbAccountID b; FbRootPubKey b]; leaves (cert_leaves (FbDeviceCert b)); items_tree (FbMessages b)].
Definition un_federated_batch (t : tree) : federatedBatchBody :=
  mkFederatedBatch (nth_leaf 0 (un_leaves (child 0 t))) (nth_leaf 1 (un_leaves (child 0 t))) (un_cert (un_leaves (child 1 t))) (un_items (child 2 t)).
Lemma un_federated_batch_tree b : un_federated_batch (federated_batch_tree b) = b.
Proof. destruct b as [? ? [] l]. unfold un_federated_batch, federated_batch_tree. cbn -[un_items items_tree]. by rewrite un_items_tree. Qed.
Definition results_tree (r : batchResponse) : tree := node ((λ x : bytes * bytes, leaves [x.1; x.2]) <$> BrResults r).
Definition un_results (t : tree) : batchResponse := mkBatchResponse ((λ t, (nth_leaf 0 (un_leaves t), nth_leaf 1 (un_leaves t))) <$> children t).
Lemma un_results_tree r : un_results (results_tree r) = r.
Proof.
  destruct r as [l]. unfold un_results, results_tree. cbn [children node BrResults]. f_equal.
  apply (un_list_tree _ (λ t, (nth_leaf 0 (un_leaves t), nth_leaf 1 (un_leaves t)))). by intros [].
Qed.
#[export] Instance tree_batches : BatchFormats := {|
  bf_local := via_tree (λ b, items_tree (BbMessages b)) (λ t, mkBatchBody (un_items t)) un_batch_tree;
  bf_federated := via_tree federated_batch_tree un_federated_batch un_federated_batch_tree;
  bf_response := via_tree results_tree un_results un_results_tree;
|}.

(** ** A copy whose answer was lost *)

Definition no_text (e : cerr) : bytes := [].
Definition bob_member : Member := mkMember bob (lit "https://a") RoleMember (lit "member") (at_time 1) true.
Definition is_post (r : HttpRequest) : bool := HTarget r =?b lit "https://a/v1/messages".
(** The server stores the first copy, and its answer is lost; the second has the id of a message that is queued; the
    others are accepted. *)
Definition duplicate_check : Network :=
  {| answer h r := if names (lit "/v1/accounts/") r then ok_json (directory_entry receiver) else if names (lit "/prekey-bundle") r then ok_json (published receiver)
                   else match length (List.filter is_post h) with O => NoAnswer | 1%nat => Answered 409 (json_Marshal (mkErrorEnvelope None)) | _ => accepted end;
     clock n := at_time (Z.of_nat n); good_target _ := true |}.
Definition group_send (text : bytes) (ids : gmap bytes bytes) (a : account) : account * res cerr (list GroupDelivery) :=
  fanOut (NW := duplicate_check) no_text (lit "g") (λ _, text) [bob_member] ids a.
Definition deliveries_of (r : account * res cerr (list GroupDelivery)) : list GroupDelivery := match r.2 with Ok ds => ds | _ => [] end.
Definition send1 := group_send (lit "first") ∅ sender_account.
Definition send2 := group_send (lit "first") (wire_ids (deliveries_of send1)) send1.1.
Definition send3 := group_send (lit "second") ∅ send2.1.
Definition posted_to (a : account) : list sendMessageRequest :=
  omap (λ r, json_Unmarshal (R := sendMessageRequest) (HBody r)) (List.filter is_post (sent (outer a))).
(** What Bob makes of the copies the server kept: the first and the third. *)
Definition text_of (r : account * res cerr (Content * sessionEffect)) : option bytes := match r.2 with Ok (c, _) => Some (CText c) | _ => None end.
Definition kept (n : nat) : sendMessageRequest := default (mkSend [] [] [] []) (posted_to send3.1 !! n).
Definition opened_first : account * res cerr (Content * sessionEffect) := decrypt (delivered_as sender (kept 0)) receiver_account.
Definition opened_third : account * res cerr (Content * sessionEffect) := decrypt (delivered_as sender (kept 2)) opened_first.1.
Definition bob_reads : list (option bytes) := [text_of opened_first; text_of opened_third].
(** The retry is dropped as a duplicate and counts as sent, with the session it would have announced: Bob opens the
    first copy, and cannot open what follows. *)
Example retry_keeps_unannounced_session :
  (GdState <$> deliveries_of send1) = [SendFailed] ∧ (GdState <$> deliveries_of send2) = [SendSent] ∧ bob_reads = [Some (lit "first"); None].
Proof. split; [by_vm|split; by_vm]. Qed.

Lemma fan_out_settles_witness : is_ok send1.2 = true ∧
  match fanOut (NW := duplicate_check) no_text (lit "g") (λ _, lit "first") [bob_member] ∅ sender_account with
  | (a', Ok ds) => GdAccountID <$> ds = AccountID <$> unblocked sender_account [bob_member] ∧ ∀ d, d ∈ ds → settled_well (lit "g") sender_account a' d
  | (_, Err _) => False
  | (_, Panic) => True
  end.
Proof.
  split; [by_vm|].
  assert (load_identity (identity_json sender_account) = Ok sender) as Hi by by_vm.
  assert (safeElement (lit "g") = Ok ()) as Hg by by_vm.
  assert (Forall (λ m, safeElement (AccountID m) = Ok ()) [bob_member]) as Hs by (constructor; [by_vm|constructor]).
  assert (NoDup (AccountID <$> [bob_member])) as Hn by (constructor; [apply not_elem_of_nil|constructor]).
  pose proof (fan_out_settles (NW := duplicate_check) no_text (lit "g") (λ _, lit "first") [bob_member] ∅ sender_account sender Hi Hg Hs Hn) as H. exact H.
Defined.

(** ** A group of two *)

Definition signer_b : Signer.t := Eval vm_compute in Signer.mk bob (pub 5) (certify bob 5 6).
Definition invite_here : Event := Eval vm_compute in
  get no_event (SignDevice (mkEvent EventMemberAdd gid (at_time 1) [] [] bob (lit "https://a") 0 [] [] None []) (Some signer_a) (priv 3)).
Definition accept : Event := Eval vm_compute in
  get no_event (SignDevice (mkEvent EventJoinAccept gid (at_time 2) [] [] bob [] 0 [] [] None []) (Some signer_b) (priv 6)).
Definition expulsion : Event := Eval vm_compute in
  get no_event (SignDevice (mkEvent EventMemberRemove gid (at_time 3) [] [] bob [] 0 [] [] None []) (Some signer_a) (priv 3)).
Definition facts_file (evs : list Event) : group_dir := mkGroupDir (Some (json_Marshal (Some <$> Events (state_of evs)))) None None None.
Definition alice_persona : OwnIdentity := persona alice 2.
Definition in_group (i : OwnIdentity) (evs : list Event) (blocked : list blockedEntry) : account :=
  mkAccount (stored_identity i) [] blocked zero_settings ∅ ∅ ∅ {[gid := facts_file evs]} ∅ empty_dedup (mkDisk None None) ((λ n, key (100 + n)) <$> seqZ 0 60)
    (mkOutside [] 0) false.
Definition two : list Event := [genesis; invite_here; accept].
(** The lines of the group's transcript: send state, and the state of every copy. *)
Definition lines_of (a : account) : list (bytes * list bytes) :=
  match (read_log gid Messages a).2 with Ok l => (λ m, (MSendState m, GdState <$> MDeliveries m)) <$> l | _ => [] end.
Definition line_id (a : account) : bytes := match (read_log gid Messages a).2 with Ok (m :: _) => MID m | _ => [] end.

(** A blocked member's copy is never prepared, and its record stays pending: the message failed, and no retry
    changes that. *)
Definition to_blocked := SendGroupText (NW := shows receiver) no_text gid (lit "hi") no_options (in_group alice_persona two [mkBlockedEntry bob []]).
Definition to_blocked_again := RetryGroupMessage (NW := shows receiver) no_text gid (line_id to_blocked.1) to_blocked.1.
Example blocked_copy_stays_pending : is_ok to_blocked.2 = true ∧ lines_of to_blocked.1 = [(SendFailed, [SendPending])] ∧
  is_ok to_blocked_again.2 = true ∧ lines_of to_blocked_again.1 = lines_of to_blocked.1.
Proof. split_and!; by_vm. Qed.

(** A member that was removed cannot send to the group, and can still retry. *)
Definition unsent := SendGroupText (NW := offline) no_text gid (lit "hi") no_options (in_group receiver two []).
Definition expelled (a : account) : account := with_groups a {[gid := facts_file (two ++ [expulsion])]}.
Definition retried := RetryGroupMessage (NW := shows alice_persona) no_text gid (line_id unsent.1) (expelled unsent.1).
Example removed_member_retries :
  is_ok (SendGroupText (NW := shows alice_persona) no_text gid (lit "hi") no_options (expelled unsent.1)).2 = false ∧
  (lines_of retried.1, length (posted_to retried.1)) = ([(SendSent, [SendSent])], 1%nat).
Proof. split; by_vm. Qed.

(** ** Acting on a group *)

Definition member_tree (m : Member) : tree :=
  leaves [AccountID m; MServer m; num (MRole m); RoleName m; time_bytes (AddedAt m); flag (Joined m)].
Definition un_member (t : tree) : Member :=
  let l := un_leaves t in mkMember (nth_leaf 0 l) (nth_leaf 1 l) (unnum (nth_leaf 2 l)) (nth_leaf 3 l) (un_time (nth_leaf 4 l)) (unflag (nth_leaf 5 l)).
Lemma un_member_tree m : un_member (member_tree m) = m.
Proof. destruct m as [a s r n t j]. unfold un_member, member_tree. cbn -[un_time time_bytes]. rewrite un_time_bytes. by destruct j. Qed.
Definition resolved_tree (r : Resolved) : tree :=
  node [leaves [RGroupID r; Founder r; time_bytes (CreatedAt r); RName r; RTopic r; flag (Dissolved r); time_bytes (DissolvedAt r); RStateHash r];
        node (member_tree <$> Members r)].
Definition un_resolved (t : tree) : Resolved :=
  let l := un_leaves (child 0 t) in
  mkResolved (nth_leaf 0 l) (nth_leaf 1 l) (un_time (nth_leaf 2 l)) (nth_leaf 3 l) (nth_leaf 4 l) (un_member <$> children (child 1 t)) (unflag (nth_leaf 5 l))
    (un_time (nth_leaf 6 l)) (nth_leaf 7 l).
Lemma un_resolved_tree r : un_resolved (resolved_tree r) = r.
Proof.
  destruct r as [g f c n t m d u h]. unfold un_resolved, resolved_tree. cbn -[un_time time_bytes un_member member_tree]. rewrite !un_time_bytes.
  rewrite (un_list_tree member_tree un_member m un_member_tree). by destruct d.
Qed.
#[export] Instance resolved_json : Json Resolved := via_tree resolved_tree un_resolved un_resolved_tree.
Definition name_in (a : account) : option bytes := match (GroupMembership gid a).2 with Ok (Some r) => Some (RName r) | _ => None end.
Definition facts_in (a : account) : option nat := match (LoadGroupState gid a).2 with Ok (Some s) => Some (size (events s)) | _ => None end.

(** The founder cannot leave -- the fold ignores it -- and the event has been told to everybody by then. *)
Definition founder_leaves := LeaveGroup (NW := shows receiver) gid (in_group alice_persona two []).
Example refused_leave_is_broadcast : (let r := founder_leaves in (is_ok r.2, facts_in r.1, length (posted_to r.1))) = (false, Some 3%nat, 1%nat).
Proof. by_vm. Qed.
(** A member without the rank renames the group: no error, one more fact, the name as it was. *)
Definition bob_renames := SetGroupMeta (NW := shows alice_persona) gid (lit "mine") [] (in_group receiver two []).
Example ignored_rename_succeeds : (let r := bob_renames in (is_ok r.2, name_in r.1, facts_in r.1, length (posted_to r.1))) = (true, Some [], Some 4%nat, 1%nat).
Proof. by_vm. Qed.
