(* ===== verification/ReportExamples.v ===== *)
(** * Abuse reports, evaluated

    Two members and a stranger report an account of the small server of ServerExamples.v.  The
    stranger counts as often as it names another home server; an id that was given to a new
    case is resolved in place of the old one.  Then the pages an operator is shown. *)

From S2P Require Import Prelude GoStr GoTime GoTimeParse Sha256 Base64 Crypto Bech32m Address Config DeviceCert ProfileClaim HttpSig Store StoreIntegrity StoreCorrect StoreQueue Auth AuthCorrect ServerExamples Delivery Federation Prekeys Accounts AccountsCorrect Reports ReportsCorrect Statistics BlobServer BlobExamples ApiExamples.
From S2P Require Resolve ClientState ClientNet ClientReports.
Import Reports.

#[local] Instance any_url : NetURL := λ s, Some (mkURL s s []).
#[local] Opaque db0.

(** What is stored for the kept claims plays no part here. *)
Definition json_claims (_ : list Claim.t) : bytes := lit "[]".
Definition target : Account := mkAccount sample_id sample_key 0 AccountStatusActive RoleUser t0.
Definition other_id : bytes := Eval vm_compute in match DeriveID (replicate 32 9) with Ok i => i | _ => [] end.
Definition other : Account := mkAccount other_id (replicate 32 9) 0 AccountStatusActive RoleUser t0.
Definition here : db := (CreateAccount (CreateAccount db0 target).1 other).1.
Definition carol_member : Identity := mkIdentity (Store.ID carol) (lit "0102030405060708") RoleUser.
Definition moderator : Identity := mkIdentity other_id (lit "0102030405060709") RoleModerator.
Definition spam_by (address : bytes) : reportRequest := mkReportRequest address ReportSpam [].
Definition reported_once : db := (handleCreateReport config json_claims t0 (Some carol_member) (inr (Some (spam_by sample_id))) here).1.

Lemma no_reports : reports here = [].
Proof. by_vm. Qed.
Lemma report_table_in_order_witness : zlen (reports reported_once) = 1 ∧ NoDup (pair_of <$> reports reported_once).
Proof.
  split; [by_vm|]. apply (report_table_in_order config json_claims here reported_once no_reports). apply rtc_once. constructor.
Defined.

Lemma table_here : table_ok (reports here).
Proof. rewrite no_reports. constructor; [apply NoDup_nil_2|apply NoDup_nil_2|done|done]. Qed.
Lemma table_reported : table_ok (reports reported_once).
Proof. apply (report_step_ok config json_claims here); [constructor|exact table_here]. Qed.
Lemma carol_accepted : accepted json_claims here (spam_by sample_id) (Store.ID carol) [] [] (mkAddress sample_id []) (None, false).
Proof. constructor; try by_vm; [|by vm_compute; congruence]. apply (bool_decide_eq_true_1 _). by_vm. Qed.
Lemma report_counts_once_witness : ∃ d', saveReport json_claims t0 (spam_by sample_id) (Store.ID carol) [] here = (d', Ok created) ∧
  Local (counts_of d' sample_id) = 1 ∧ RcFederated (counts_of d' sample_id) = 0.
Proof.
  destruct (proj2 (report_counts_once json_claims t0 (spam_by sample_id) (Store.ID carol) [] here table_here) [] (mkAddress sample_id []) (None, false) carol_accepted) as (d' & E & _ & _ & H).
  exists d'. split; [exact E|]. destruct (H sample_id) as [H1 H2]. rewrite H1, H2. split; by_vm.
Defined.

(** A moderator resolves the case. *)
Definition resolved_once : db := (handleResolveReport config t0 moderator (lit "1") (inr (Some ReportActioned)) reported_once).1.
Lemma moderators_stop_at_members_witness : ∃ l1 x l2, reports reported_once = l1 ++ x :: l2 ∧ rp_state x = ReportOpen ∧
  staff_row reported_once (rp_reported_id x) (rp_reported_server x) = false ∧ zlen (reports resolved_once) = 1.
Proof.
  assert (handleResolveReport config t0 moderator (lit "1") (inr (Some ReportActioned)) reported_once = (resolved_once, Ok done_ok)) as E by by_vm.
  destruct (proj2 (moderators_stop_at_members config moderator reported_once table_reported) _ _ _ _ _ E) as (_ & l1 & x & l2 & v & _ & _ & El & _ & H).
  exists l1, x, l2. split; [exact El|]. split; [|split; [apply H; by vm_compute|by_vm]].
  assert (Forall (λ x, rp_state x = ReportOpen) (reports reported_once)) as F by (apply (bool_decide_eq_true_1 _); by_vm).
  rewrite El in F. by apply Forall_app in F as [_ F%Forall_inv].
Defined.

(** The same report again updates the case, and is answered as a new one; once it was resolved, the report raises the counter again. *)
Definition report_again (d : db) : db * res reply reply := handleCreateReport config json_claims t0 (Some carol_member) (inr (Some (spam_by sample_id))) d.
Example reported_again : (report_again reported_once).2 = Ok created ∧ zlen (reports (report_again reported_once).1) = 1 ∧
  Local (counts_of (report_again reported_once).1 sample_id) = 1.
Proof. split_and!; by_vm. Qed.
Example reopened_counts_again : Local (counts_of resolved_once sample_id) = 0 ∧ (report_again resolved_once).2 = Ok created ∧
  zlen (reports (report_again resolved_once).1) = 1 ∧ Local (counts_of (report_again resolved_once).1 sample_id) = 1.
Proof. split_and!; by_vm. Qed.

(** ** A stranger who names another home each time *)

Definition home_named (n : nat) : bytes := lit "https://" ++ replicate (S n) 97 ++ lit ".example".
Definition stranger : bytes := Eval vm_compute in match DeriveID (replicate 32 10) with Ok i => i | _ => [] end.
Definition filed_by_stranger (d : db) (n : nat) : db * res reply reply :=
  match federatedReporter (home_named n) with
  | Ok server => saveReport json_claims t0 (spam_by sample_id) stranger server d
  | _ => (d, Err internal)
  end.
(** Past the cap of 20 as well: each name is a reporter of its own. *)
Example stranger_counts_again :
  RcFederated (counts_of (foldl (λ d n, (filed_by_stranger d n).1) here (seq 0 25)) sample_id) = 25.
Proof. by_vm. Qed.

(** ** An id that is given again *)

(** The moderator read case 1 and decided on it; it is withdrawn, and another one gets its id before the outcome is written. *)
Definition decision : res reply (Z * bytes) := decide_resolve config moderator (lit "1") (inr (Some ReportAbusive)) reported_once.
Definition withdrawn : db := (handleWithdrawReport config (Some carol_member) sample_id reported_once).1.
Definition refiled : db := (handleCreateReport config json_claims t0 (Some alice_id) (inr (Some (spam_by sample_id))) withdrawn).1.
Definition written_late : db := (ResolveReport refiled 1 ReportAbusive (IdAccountID moderator) t0).1.
(** The report of an administrator is marked abusive by a moderator. *)
Example resolves_another_case : decision = Ok (1, ReportAbusive) ∧
  is_ok (decide_resolve config moderator (lit "1") (inr (Some ReportAbusive)) refiled) = false ∧
  ((λ x, (rp_reporter_id x, rp_state x)) <$> reports written_late) = [(Store.ID alice, ReportAbusive)].
Proof. split_and!; by_vm. Qed.

(** ** A report to the other operator *)

Definition elsewhere : PeerEndpoint := mkPeer sample_id (lit "0011223344556677") dev_pub (lit "https://far.example").
(** The stranger of ApiExamples.v with its certificate and signed request, as a client's own identity. *)
Definition me : ClientState.OwnIdentity :=
  ClientState.mkOwnIdentity far_id (lit "https://home.example") (ed_pub root_seed) root_priv far_dev (ed_pub far_seed) far_priv [] [] 0 [] [] 0 0 true None [].
Definition my_cert : federationDeviceCertDTO := ClDeviceCert far_claim.
Definition told (reported : bytes) : db * res reply reply :=
  handleCreateFederatedReport config json_claims open_fed t0 t0 far_request
    (inr (mkRaw far_body (Some (ClientReports.read_federated (ClientReports.mkFederatedReport (ClientReports.senderBody me my_cert) (ClientState.MyServer me)
       (ClientReports.mkReportBody reported ReportSpam [])))))) here.
(** The server would take the same report under the bare id. *)
Lemma other_operator_never_told_witness : is_ok (told sample_id).2 = true ∧ zlen (reports (told sample_id).1) = 1 ∧
  is_ok (told (ClientReports.reported_as elsewhere)).2 = false ∧ reports (told (ClientReports.reported_as elsewhere)).1 = reports here.
Proof.
  split; [by_vm|]. split; [by_vm|]. assert (Parse (sample_id ++ lit "*far.example") = Ok (mkAddress (PeAccountID elsewhere) (PeServer elsewhere))) as Hp by by_vm.
  destruct (ClientReports.other_operator_never_told config json_claims open_fed t0 t0 far_request far_body here me my_cert elsewhere ReportSpam []
    (sample_id ++ lit "*far.example") Hp ltac:(by_vm) ltac:(by_vm)) as (H1 & H2 & _). split; [exact H1|exact H2].
Defined.

(** ** The operator's pages *)

#[local] Instance days_in_utc : Calendar := λ t n, time_add t (n * 86400 * second).
Definition stocked : db := BsDB after_upload.1.
Definition now_stats : StatsSnapshot := mkSnapshot 0 t0 0 0 0 1 (TotalBlobBytes stocked) 0 0 0 0 true 0.
Definition shown : storageForecastResponse := default (mkForecast 0 0 0 0 [] []) (storageForecast config stocked now_stats).

Lemma stocked_recipients : blob_recipients stocked = {[(blob_id, DeviceID phone)]}.
Proof. apply (bool_decide_eq_true_1 _). by_vm. Qed.
Lemma stocked_sizes : sizes_ok stocked.
Proof.
  assert (Forall (λ x : bytes * blob_row, 0 ≤ bl_size x.2 < 2 ^ 62) (map_to_list (blobs stocked))) as H by (apply (bool_decide_eq_true_1 _); by_vm).
  intros b r Hr. apply elem_of_map_to_list in Hr. rewrite Forall_forall in H. exact (H _ Hr).
Qed.
Definition upload_days : Z := ServerConfig.BlobRetentionDays config.
Lemma plain_days n : 0 ≤ n ≤ upload_days + 1 → unix_seconds (add_days t0 n) = unix_seconds t0 + 86400 * n ∧ four_digit_year (unix_seconds t0 + 86400 * n).
Proof.
  intros Hn. assert (Forall (λ n, unix_seconds (add_days t0 n) = unix_seconds t0 + 86400 * n ∧ four_digit_year (unix_seconds t0 + 86400 * n)) (seqZ 0 (upload_days + 2))) as H
    by (apply (bool_decide_eq_true_1 _); by_vm).
  rewrite Forall_forall in H. apply H. apply elem_of_seqZ. lia.
Qed.
Lemma forecast_drains_witness : last (PtBytes <$> Drain shown) = Some 0 ∧ last (PtBytes <$> WithInflow shown) = Some (EquilibriumBytes shown) ∧
  (PtBytes <$> Drain shown) !! 0%nat = Some 5.
Proof.
  assert (TotalBlobBytes stocked < 2 ^ 63) as Ht by by_vm. assert (storageForecast config stocked now_stats = Some shown) as Es by by_vm.
  destruct (forecast_drains config stocked t0 plain_days stocked_sizes Ht now_stats shown eq_refl eq_refl Es) as (H0 & _ & _ & _ & H).
  assert (Forall (λ r, bl_expires_at r = rfc3339_of_unix (unix_seconds t0 + 86400 * upload_days)) (blob_rows stocked)) as He by (apply (bool_decide_eq_true_1 _); by_vm).
  assert (four_digit_year (unix_seconds t0 + 86400 * upload_days)) as Hy by (apply (bool_decide_eq_true_1 _); by_vm).
  destruct H as [H1 H2]; [|split; [exact H1|split; [exact H2|exact H0]]]. intros r Hr. rewrite Forall_forall in He. eexists. split; [exact (He r Hr)|]. split; [exact Hy|apply Z.le_refl].
Defined.

Definition listed_to (identity : Identity) : list adminAccountResponse := match handleListAccounts config identity stocked with Ok l => l | _ => [] end.
Definition alice_row : adminAccountResponse := default (mkAdminAccount [] [] [] [] 0 None 0 0 0 0 None no_counts) (head (filter (λ r, AaID r = Store.ID alice) (listed_to moderator))).
Lemma account_list_sound_witness : AaBlobBytes alice_row = 5 ∧ AaBlobBytes alice_row ≤ AaBlobBytesLimit alice_row ∧ AaInvitedBy alice_row = None ∧ AaReports alice_row = no_counts.
Proof.
  assert (0 ≤ ServerConfig.MaxBlobBytesPerDevice config) as H0 by (vm_compute; congruence).
  assert (∀ k, (BlobUsage stocked k).2 ≤ ServerConfig.MaxBlobBytesPerDevice config) as Hq.
  { intros k. unfold BlobUsage, device_blobs. rewrite stocked_recipients, elements_singleton. assert (bl_size <$> blobs stocked !! blob_id = Some 5) as Eb by by_vm.
    assert (5 ≤ ServerConfig.MaxBlobBytesPerDevice config) as H5 by (vm_compute; congruence). cbn [omap list_omap fst snd].
    destruct (DeviceID phone =?b k); cbn [snd]; [|exact H0]. destruct (blobs stocked !! blob_id) as [r|]; [|done]. injection Eb as Eb. cbn [fmap list_fmap foldr]. rewrite Eb, Z.add_0_r. exact H5. }
  assert (ServerConfig.MaxBlobBytesPerDevice config * zlen (map_to_list (devices stocked)) < 2 ^ 63) as Hb by by_vm.
  assert (handleListAccounts config moderator stocked = Ok (listed_to moderator)) as El by by_vm.
  assert (alice_row ∈ listed_to moderator) as Hr.
  { apply (list_elem_of_lookup_2 _ 1%nat). by_vm. }
  assert (IdRole moderator ≠ RoleAdmin) as Hm by (vm_compute; congruence).
  destruct (account_list_sound config moderator stocked _ _ H0 Hq Hb El Hr) as [H1 H2]. destruct (H2 Hm) as (_ & H3 & H4).
  split; [by_vm|]. split; [exact H1|]. split; [exact H3|]. apply H4. left. by_vm.
Defined.
